(* ===== verification/_CoqProject ===== *)
-Q . S2P
Prelude.v
GoTime.v
Ident.v
Breaker.v
Lifecycle.v
Execution.v
Assurance.v
Policy.v
CaptureOutcome.v
Review.v
AuditChain.v
Mrz.v
Deletion.v
PrivacyRequest.v
PrivacyService.v
Content.v
Evidence.v
Registry.v
EvidenceSafety.v
Idempotency.v
Authority.v
Profile.v
AuthorityService.v
AuthoritySafety.v
Upload.v
UploadBody.v
UploadStore.v
UploadService.v
UploadSafety.v
UploadRecovery.v
Scope.v
Base64.v
Access.v
AccessStore.v
AccessService.v
AccessSafety.v
AccessSpec.v
AccessToken.v
