(* ===== verification/Prelude.v ===== *)
(** * Idenqa core: a verification development

    Idenqa is an identity-verification platform.  A tenant opens a verification, a
    subject submits evidence under a declared processing authority, providers and
    models check it, a deterministic policy evaluates what they found, people review
    what it cannot settle, and the evidence is retained and erased under legal rules.
    This library models the part of it that decides: the aggregates, the application
    services and the PostgreSQL stores under [src/internal].

    ** How the program is modelled

    - An aggregate is a [Record] with the fields of the Go struct; a method is a
      function that returns the next value, or the error the method returns.  A
      method that changes its receiver and still returns an error gives both.
    - A named string type with a closed vocabulary is an inductive type, with one
      more constructor for the texts outside it where the code lets them arrive.
      Identifiers are their printed texts, the empty text being Go's zero value.
    - An instant is a number of nanoseconds since Go's zero time and a flag for its
      location being UTC; durations saturate as [time.Time.Sub] does.  Machine
      integers are [Z] with their bounds where they can be reached.
    - A store is a record of finite maps, one per table.  A transaction is one
      function from a database to a result and a database; an error rolls back.
      Constraints, triggers and conditional updates are tests in that function.
    - A use case that runs several transactions, or calls collaborators between
      them, is an automaton with one of these per step.  Any number of workers share
      one world; a step takes a clock reading, fresh identifiers, the answers of the
      collaborators and the fate of its transaction (committed, refused, committed
      but reported as failed), and may be a crash.  The theorems about services hold
      for every list of such steps.
    - SHA-256, Ed25519, JSON encoders, the ULID codec and the like are type classes
      or section variables, with laws only where the code relies on them.  A
      property that would need collision resistance says "or two distinct inputs
      have the same digest" instead.

    ** The files

    Shared ground:
    - [Prelude]: results, guards, byte strings and regular grammars, sorting and
      the tactics ([go_inv], [bprop]) that invert a Go function.
    - [GoTime]: [time.Time], [time.Duration], the civil calendar.
    - [Ident]: [platform/id], prefixed identifiers and their 48 kinds.
    - [Idempotency]: [platform/idempotency], durable command replay; the stores of
      [AuthorityService] use its command shape.
    - [Breaker]: [platform/breaker], circuits and their bounded registry.
    - [Content]: [platform/kms], [crypto], [objectstore] and [evidence/content.go]:
      wrapped keys, envelopes, object keys and versions, the content of an asset.

    The verification:
    - [Lifecycle]: [verification/lifecycle.go], [failure.go], [input_request.go] and
      [postgres/lifecycle.go]; the state machine of a session and the store that
      applies a command once.
    - [Execution]: [verification/execution.go] and [execution_service.go]; checks,
      attempts, results, and the repository contract with optimistic versions.
    - [Assurance], [Policy]: [policy/assurance.go], [contract.go], [snapshot.go],
      [evaluate.go], [input.go]; typed profiles, facts, snapshots, decisions.
    - [CaptureOutcome]: [verification/capture_outcome.go]; what a subject is shown,
      where the lifecycle meets the policy.
    - [Review]: [review/case.go], [evaluation.go]; cases, corrections, appeals and
      the fact a resolved case returns to the policy.
    - [Mrz]: [document/mrz/mrz.go]; machine-readable zones.
    - [AuditChain]: [audit/*.go], [audit/postgres/store.go]; the chain of records
      with its checkpoints, exports and their verification.

    Evidence and authority:
    - [Authority]: [authority/authority.go]; notices, declarations, responses and
      the evaluation of an operation.
    - [AuthorityService], [AuthoritySafety]: [authority/service.go] and its stores
      as workers over the tables of a tenant; what their interleavings guarantee.
    - [Evidence], [EvidenceSafety]: [evidence/asset.go], [grant.go], [access.go] and
      [postgres/grant_store.go]; quarantine, grants and the controlled read of
      plaintext, and what their interleavings guarantee.
    - [Registry]: [evidence/registry.go], [catalog.go], [builtin.go]; the vocabulary
      of evidence types, methods and assurances, and its pinned revisions.
    - [Profile]: [verification/capture_profile.go] and [document_selection.go], the
      profile rules of [authority/upload_service.go] and the progress of
      [evidence/postgres/upload_store.go]; what a capture asks for and when it is
      complete.
    - [Upload], [UploadBody]: [evidence/upload.go], [reconciliation.go] and
      [upload_body.go]; the intent with its fenced attempts, the obligation of a
      staged object, the reader that validates a body.
    - [UploadStore], [UploadService]: [evidence/postgres/upload_store.go] and
      [reconciliation_store.go]; [authority/upload_service.go] and
      [upload_acceptance_service.go], [evidence/upload_preflight.go],
      [protector.go], [progress.go], [reconciliation_service.go] and
      [orphan_discovery.go] as workers over the tables and the objects of a tenant.
    - [UploadSafety], [UploadRecovery]: what their interleavings guarantee, and the
      obligation that they never resolve.

    Access:
    - [Scope]: [access/scope.go]; permissions, patterns, the tenant registry and the
      grants that a credential carries.
    - [Base64], [Access]: [access/key.go], [pepper.go], [api_key.go]; the text of a
      credential, its digest under a versioned pepper, the durable key.
    - [AccessStore], [AccessService]: [access/postgres/store.go]; [authenticator.go],
      [issuer.go], [administration.go], [credential_bridge.go] and
      [tenant_reader.go], authentication as one read and the use cases that write as
      workers over the key, audit and command tables of all tenants.
    - [AccessSafety], [AccessSpec]: what their interleavings guarantee, and where the
      bridge answers otherwise than it means to.
    - [AccessToken]: [access/capture_token.go] and [outcome_token.go], their lookups in
      [verification/postgres/session_store.go], [capture_authenticator.go] and
      [outcome_authenticator.go]; the signed tokens of a subject.

    Privacy:
    - [Deletion]: [privacy/lifecycle.go], [service.go], [postgres/store.go];
      retention, legal holds and the erasure worker.
    - [PrivacyRequest]: [privacy/request.go], [restriction.go]; the workflow of a
      subject's request and the restriction it leaves.
    - [PrivacyService]: [privacy/request_service.go], [postgres/request.go]; its
      use cases as workers over the request rows and audit events.

    ** What the theorems show

    - Lifecycle: accepted commands are the edges of an inductive graph, a live
      session can always be ended, the log is a path of the graph, and a repeated
      command returns its receipt and changes nothing.
    - Checks: one result per attempt, a result receipt changes the repository at
      most once, and no save overwrites a version it has not seen.
    - Breaker: an open circuit fails fast, a half-open one admits a bounded number.
    - Policy: every conclusion rests on the requirement states that justify it, a
      decision reproduces its evaluation, the count of independent sources equals
      the number of connected components, and a subject is shown only what a
      decision earned.
    - Review: cases and appeals keep independence, oversight and finality.
    - Audit: an export verifies, two exports that verify cannot differ below a
      common checkpoint, short of a digest collision.
    - Mrz: parsing never panics, a zone without issues is right, and which single
      and double misreadings the check digit finds.
    - Authority: the evaluation permits exactly what it should; a permitted
      operation rested on the live declaration and the latest response at one
      instant of its own call; declarations are final.
    - Evidence: grants are used within their bounds, plaintext leaves only under a
      redemption of its grant, grants and assets only narrow.
    - Registry and profiles: a reference pins one vocabulary, a digest one profile,
      and a complete capture has collected what its profile asks for.
    - Uploads: the object of an accepted asset is never deleted, acceptance is
      authorised behind its locks and all or nothing, and the reader vouches for a
      body exactly when it has the intended length and digest.
    - Access: a credential authenticates only as a live key of an active tenant with
      the grant it was issued for, authority that has ended never returns, an issued
      credential is good for its authority, the audit rows of a key are its history, a
      bridge command is applied at most once, every rejection costs one digest, and
      scopes resolve to exactly what their patterns cover.  A signed token is what it
      says until it expires, cannot be altered short of a collision of its HMAC, and
      once revoked never authenticates again.
    - Privacy: a run that is not interrupted erases every copy, erased copies stay
      erased, an accepted retention period meets its obligations; request rows
      follow the workflow under any interleaving, and a completed request has had
      its effect.
    - Replay: applied commands of one scope are spaced by their retention.

    Some theorems show what the code does against its intention: an interrupted
    erasure strands, a read whose success was not recorded is recorded as denied, an
    unexecutable request never completes, a revocation can be ignored, a fallback
    completes a capture without the assurance it requires, the object of a
    superseded upload attempt is never deleted, a revocation under the command of an
    issuance answers success and revokes nothing.

    ** Bounds and fuel

    Recursion is structural except in these places.  The union-find of [Assurance]
    walks to a root with as many steps as there are sources ([root_total]: the loop
    ends within them).  Decimal printing has twenty digits, enough
    for 64-bit values.  The UTF-8 decoders take the length of the text, and every
    rune consumes a byte.  The buffered reader of [UploadBody] gives up after 100
    empty reads of its source, as [bufio] does, and fills its buffer in as many
    reads as bytes are wanted.  The binary search of [Scope] takes the length of its
    list, and every step shrinks the interval.  Runs of services are lists of steps, so that termination
    is a statement about them ([uninterrupted_run_erases]).

    ** What is not modelled

    Timestamps are stored as they are, where PostgreSQL keeps microseconds.  Tables
    of other tenants are left out where row-level security separates them.  Context
    cancellation, tracing, metrics and logs do not change a result and are left out.
    Generated code, the HTTP transport, process composition, configuration and the
    vendor adapters decide no rule of the domain.

    The following have rules of their own and are not modelled, because each is a
    development of the size of one of the above and none of the theorems here rests
    on them: the session aggregate beyond its lifecycle and profile; the
    issue and renewal of tokens; key custody and rewrap; tasks, outbox and delivery of
    webhooks; realtime connections; review routing and recapture; policy authoring
    and bundles; the registration, selection and limits of providers; proposals and
    guardrails; document products; experience configuration; tenant export; managed
    operations.  The JSON decoders of profiles, requests and policies, and the
    rewrap of keys, are not modelled either: what they produce is an argument. *)

From stdpp Require Export base gmap strings list fin_maps sorting.
From Stdlib Require Export ZArith Lia.
From Stdlib Require Import Ascii.

(** ** Results of fallible Go functions

    A Go function returning [(T, error)] becomes a function into
    [result E T].  The early return [if c { return T{}, e }] is written
    [reject c with e ;; k], and [x, err := r; if err != nil { return err }]
    is written [let? x := r in k]. *)

Inductive result (E A : Type) : Type :=
| Ok (a : A)
| Err (e : E).
Arguments Ok {E A} a.
Arguments Err {E A} e.

Definition rbind {E A B : Type} (r : result E A) (f : A -> result E B) : result E B :=
  match r with
  | Ok a => f a
  | Err e => Err e
  end.

#[export] Instance result_eq_dec {E A : Type} `{EqDecision E, EqDecision A} : EqDecision (result E A).
Proof. solve_decision. Defined.

Definition is_ok {E A : Type} (r : result E A) : bool :=
  match r with Ok _ => true | Err _ => false end.

Declare Scope go_scope.
Delimit Scope go_scope with go.
Notation "'reject' c 'with' e ;; k" :=
  (if c then Err e else k)
    (at level 10, c at level 99, e at level 99, k at level 200, only parsing) : go_scope.
Notation "'let?' x ':=' r 'in' k" :=
  (rbind r (fun x => k))
    (at level 10, x pattern, r at level 100, k at level 200) : go_scope.
Open Scope go_scope.

(** A loop that stops at the first error, [for _, x := range xs]. *)
Fixpoint rforeach {E A : Type} (f : A -> result E unit) (xs : list A) : result E unit :=
  match xs with
  | [] => Ok ()
  | x :: rest => rbind (f x) (fun _ => rforeach f rest)
  end.

(** A loop that fills a new slice, stopping at the first error. *)
Fixpoint rmap {E A B : Type} (f : A -> result E B) (xs : list A) : result E (list B) :=
  match xs with
  | [] => Ok []
  | x :: rest => rbind (f x) (fun y => rbind (rmap f rest) (fun ys => Ok (y :: ys)))
  end.

(** A loop that updates its state, stopping at the first error. *)
Fixpoint rfold {E A S : Type} (f : S -> A -> result E S) (xs : list A) (s : S) : result E S :=
  match xs with
  | [] => Ok s
  | x :: rest => rbind (f s x) (rfold f rest)
  end.

Section Results.
Context {E A B : Type}.

Lemma reject_Ok (c : bool) (e : E) (k : result E A) (a : A) :
  (if c then Err e else k) = Ok a <-> c = false /\ k = Ok a.
Proof. destruct c; naive_solver. Qed.

Lemma rbind_Ok (r : result E A) (f : A -> result E B) (b : B) :
  rbind r f = Ok b <-> exists a, r = Ok a /\ f a = Ok b.
Proof. destruct r; naive_solver. Qed.

Lemma rbind_Err (r : result E A) (f : A -> result E B) (e : E) :
  rbind r f = Err e <-> r = Err e \/ exists a, r = Ok a /\ f a = Err e.
Proof. destruct r; naive_solver. Qed.

End Results.

Section Loops.
Context {E A B : Type}.

Lemma rforeach_Ok (f : A -> result E unit) (xs : list A) :
  rforeach f xs = Ok () <-> Forall (fun x => f x = Ok ()) xs.
Proof.
  induction xs as [|x xs IH]; cbn.
  - split; auto using Forall_nil.
  - rewrite rbind_Ok, Forall_cons. split.
    + intros ([] & Hx & Hxs). split; [done | by apply IH].
    + intros [Hx Hxs]. exists (). split; [done | by apply IH].
Qed.

Lemma rmap_Ok (f : A -> result E B) (xs : list A) (ys : list B) :
  rmap f xs = Ok ys <-> Forall2 (fun x y => f x = Ok y) xs ys.
Proof.
  revert ys. induction xs as [|x xs IH]; intros ys; cbn.
  - split; [intros [= <-]; constructor | by inversion 1].
  - rewrite rbind_Ok. split.
    + intros (y & Hy & (ys' & Hys & [= <-])%rbind_Ok).
      constructor; [done | by apply IH].
    + inversion 1 as [|? y ? ys' Hy Hys]; subst.
      exists y. split; [done|]. apply rbind_Ok. exists ys'. by rewrite IH.
Qed.
End Loops.

Lemma rfold_invariant {E A S : Type} (f : S -> A -> result E S) (P : S -> Prop) (xs : list A) : forall s s',
  rfold f xs s = Ok s' -> P s -> (forall t x t', x ∈ xs -> P t -> f t x = Ok t' -> P t') -> P s'.
Proof.
  induction xs as [|x xs IH]; intros s s'; cbn [rfold]; [by intros [= <-]|]. intros (t & Hx & Hf)%rbind_Ok Hs HP.
  apply (IH t s' Hf); [apply (HP s x); [left|done|done]|]. intros ? y ? Hy. apply HP. by right.
Qed.

(** Steps that commute treat permuted slices alike. *)
Lemma rfold_perm {E A S : Type} (f : S -> A -> result E S) (xs ys : list A) : xs ≡ₚ ys ->
  (forall s x y, rbind (f s x) (fun t => f t y) = rbind (f s y) (fun t => f t x)) -> forall s, rfold f xs s = rfold f ys s.
Proof.
  intros Hp Hc. induction Hp as [|x xs ys _ IH|x y xs|xs ys zs _ IH1 _ IH2]; intros s; cbn [rfold].
  - done.
  - destruct (f s x); cbn; [apply IH|done].
  - specialize (Hc s y x). destruct (f s x) as [t|e], (f s y) as [u|e']; cbn in *; [by rewrite Hc| |by rewrite Hc|done].
    destruct (f t y); cbn; congruence.
  - by rewrite IH1.
Qed.

(** A loop whose only error is [e0] treats permuted slices alike. *)
Definition ok_option {E A : Type} (r : result E A) : option A := match r with Ok a => Some a | Err _ => None end.

Lemma rmap_omap {E A B : Type} (f : A -> result E B) (xs : list A) (ys : list B) :
  rmap f xs = Ok ys -> ys = omap (fun x => ok_option (f x)) xs.
Proof. rewrite rmap_Ok. induction 1 as [|x y xs ys Hx _ IH]; cbn; [done|]. rewrite Hx. cbn. by rewrite IH. Qed.

Lemma rmap_single_error {E A B : Type} (f : A -> result E B) (e0 : E) (xs : list A) :
  (forall x e, f x = Err e -> e = e0) ->
  (exists ys, rmap f xs = Ok ys) \/ (rmap f xs = Err e0 /\ Exists (fun x => f x = Err e0) xs).
Proof.
  intros He. induction xs as [|x l IH]; cbn; [left; by eexists|]. destruct (f x) as [y|e] eqn:Hx; cbn.
  - destruct IH as [[ys ->] | [-> Hex]]; cbn; [left; by eexists | right; split; [done | by right]].
  - right. apply He in Hx as Hx'. subst e. split; [done | by left].
Qed.

Lemma rmap_perm {E A B : Type} (f : A -> result E B) (e0 : E) (xs xs' : list A) :
  (forall x e, f x = Err e -> e = e0) -> xs ≡ₚ xs' ->
  (exists ys ys', rmap f xs = Ok ys /\ rmap f xs' = Ok ys' /\ ys ≡ₚ ys') \/
  (rmap f xs = Err e0 /\ rmap f xs' = Err e0).
Proof.
  intros He Hp.
  assert (Hno : forall l zs, rmap f l = Ok zs -> ~ Exists (fun x => f x = Err e0) l).
  { intros l zs Hzs%rmap_Ok (x & Hx & Hfx)%Exists_exists. apply list_elem_of_lookup in Hx as [i Hi].
    destruct (Forall2_lookup_l _ _ _ _ _ Hzs Hi) as (y & _ & Hy). congruence. }
  destruct (rmap_single_error f e0 xs He) as [[ys Hys] | [Herr Hex]],
    (rmap_single_error f e0 xs' He) as [[ys' Hys'] | [Herr' Hex']].
  - left. exists ys, ys'. split_and!; [done | done|].
    rewrite (rmap_omap _ _ _ Hys), (rmap_omap _ _ _ Hys'). by rewrite Hp.
  - exfalso. rewrite <- Hp in Hex'. by eapply Hno.
  - exfalso. rewrite Hp in Hex. by eapply Hno.
  - by right.
Qed.

(** ** Boolean conditions

    The Go guards stay boolean; [bprop] turns the boolean facts of the context
    into propositions, so that [lia] and [congruence] see them. *)

Lemma bool_decide_false {P : Prop} `{Decision P} : bool_decide P = false <-> ~ P.
Proof. apply bool_decide_eq_false. Qed.

Lemma bool_decide_true {P : Prop} `{Decision P} : bool_decide P = true <-> P.
Proof. apply bool_decide_eq_true. Qed.

Ltac bprop_step :=
  match goal with
  | H : _ || _ = false |- _ => apply orb_false_iff in H; destruct H
  | H : _ && _ = true |- _ => apply andb_true_iff in H; destruct H
  | H : _ || _ = true |- _ => apply orb_true_iff in H
  | H : _ && _ = false |- _ => apply andb_false_iff in H
  | H : negb _ = true |- _ => apply negb_true_iff in H
  | H : negb _ = false |- _ => apply negb_false_iff in H
  | H : bool_decide _ = true |- _ => apply (proj1 bool_decide_true) in H
  | H : bool_decide _ = false |- _ => apply (proj1 bool_decide_false) in H
  | H : (_ <? _)%Z = true |- _ => apply Z.ltb_lt in H
  | H : (_ <? _)%Z = false |- _ => apply Z.ltb_ge in H
  | H : (_ <=? _)%Z = true |- _ => apply Z.leb_le in H
  | H : (_ <=? _)%Z = false |- _ => apply Z.leb_gt in H
  | H : (_ =? _)%Z = true |- _ => apply Z.eqb_eq in H
  | H : (_ =? _)%Z = false |- _ => apply Z.eqb_neq in H
  | H : (_ =? _)%string = true |- _ => apply String.eqb_eq in H
  | H : (_ =? _)%string = false |- _ => apply String.eqb_neq in H
  | H : _ /\ _ |- _ => destruct H
  end.
Ltac bprop := repeat bprop_step.

(** [go_inv H] decomposes [H : body = Ok x], where [body] is a chain of
    [reject] and [let?], into the facts every accepted call satisfies. *)
Ltac go_inv H :=
  lazymatch type of H with
  | (if _ then Err _ else _) = Ok _ =>
      let G := fresh "Hg" in
      apply reject_Ok in H; destruct H as [G H]; go_inv H
  | rbind _ _ = Ok _ =>
      let a := fresh "v" in
      let G := fresh "Hv" in
      apply rbind_Ok in H; destruct H as (a & G & H); go_inv H
  | Ok _ = Ok _ => first [injection H as H; try subst | clear H]
  | Err _ = Ok _ => discriminate H
  | _ => idtac
  end.

(** ** Integers, strings and bytes *)

Definition max_int64 : Z := 9223372036854775807.
Definition min_int64 : Z := -9223372036854775808.

(** Two's-complement wrap-around of a signed 64-bit value. *)
Definition wrap_int64 (z : Z) : Z := (z + 2 ^ 63) mod 2 ^ 64 - 2 ^ 63.
(** Wrap-around of an unsigned 64-bit value. *)
Definition wrap_uint64 (z : Z) : Z := z mod 2 ^ 64.

Lemma wrap_int64_id (z : Z) :
  (min_int64 <= z <= max_int64)%Z -> wrap_int64 z = z.
Proof. unfold wrap_int64, min_int64, max_int64. intros ?. rewrite Z.mod_small; lia. Qed.

Lemma wrap_uint64_id (z : Z) : (0 <= z < 2 ^ 64)%Z -> wrap_uint64 z = z.
Proof. apply Z.mod_small. Qed.

(** [len(s)] of a Go string or slice. *)
Definition slen (s : string) : Z := Z.of_nat (String.length s).
Definition llen {A : Type} (l : list A) : Z := Z.of_nat (length l).

Lemma llen_nonneg {A : Type} (l : list A) : (0 <= llen l)%Z.
Proof. unfold llen. lia. Qed.
Lemma slen_nonneg (s : string) : (0 <= slen s)%Z.
Proof. unfold slen. lia. Qed.
Lemma llen_app {A : Type} (l k : list A) : llen (l ++ k) = (llen l + llen k)%Z.
Proof. unfold llen. rewrite length_app. lia. Qed.
Lemma llen_nil_inv {A : Type} (l : list A) : llen l = 0%Z -> l = [].
Proof. destruct l; unfold llen; cbn; [done | lia]. Qed.

Definition byte_in (lo hi c : ascii) : bool :=
  (N.leb (N_of_ascii lo) (N_of_ascii c)) && (N.leb (N_of_ascii c) (N_of_ascii hi)).

Definition is_lower (c : ascii) : bool := byte_in "a" "z" c.
Definition is_upper (c : ascii) : bool := byte_in "A" "Z" c.
Definition is_digit (c : ascii) : bool := byte_in "0" "9" c.
(** [c] is one of the bytes of [set], the [\[._:-\]] of a pattern. *)
Fixpoint byte_of (set : string) (c : ascii) : bool :=
  match set with
  | EmptyString => false
  | String x rest => Ascii.eqb x c || byte_of rest c
  end.

Fixpoint string_forall (p : ascii -> bool) (s : string) : bool :=
  match s with
  | EmptyString => true
  | String c rest => p c && string_forall p rest
  end.

(** The anchored pattern [^\[first\]\[rest\]*$]. *)
Definition match_head_tail (first rest : ascii -> bool) (s : string) : bool :=
  match s with
  | EmptyString => false
  | String c tail => first c && string_forall rest tail
  end.

(** The anchored pattern [^\[0-9a-f\]{64}$]. *)
Definition is_hex_digest (s : string) : bool :=
  (slen s =? 64)%Z && string_forall (fun c => is_digit c || byte_in "a" "f" c) s.

Definition empty_string (s : string) : bool := String.eqb s "".

Lemma string_forall_app (p : ascii -> bool) (s t : string) :
  string_forall p (s +:+ t) = string_forall p s && string_forall p t.
Proof.
  induction s as [|c s IH]; [done|]. change (String c s +:+ t) with (String c (s +:+ t)).
  cbn. by rewrite IH, andb_assoc.
Qed.

Lemma filter_filter_id {A : Type} (p : A -> bool) (l : list A) :
  List.filter p (List.filter p l) = List.filter p l.
Proof.
  induction l as [|x l IH]; cbn; [done|].
  destruct (p x) eqn:E; cbn; rewrite ?E; by rewrite ?IH.
Qed.

Lemma Forall_filter_nil {A : Type} (p : A -> bool) (l : list A) :
  Forall (fun x => p x = false) l -> List.filter p l = [].
Proof. induction 1 as [|x l Hx _ IH]; cbn; [done|]. by rewrite Hx. Qed.

(** [fmt.Sprint] of an unsigned integer below [10 ^ 20]. *)
Definition digit_char (n : N) : ascii := ascii_of_N (48 + n).
Fixpoint decimal_from (fuel : nat) (n : N) (acc : string) : string :=
  match fuel with
  | O => acc
  | S fuel =>
      let acc := String (digit_char (N.modulo n 10)) acc in
      if N.ltb n 10 then acc else decimal_from fuel (N.div n 10) acc
  end.
Definition decimal (n : Z) : string := decimal_from 20 (Z.to_N n) "".

Lemma digit_char_digit (n : N) : (n < 10)%N -> is_digit (digit_char n) = true.
Proof.
  intros Hn. unfold is_digit, byte_in, digit_char. rewrite N_ascii_embedding by lia.
  apply andb_true_iff. split; apply N.leb_le; cbn; lia.
Qed.

Lemma decimal_from_digits (fuel : nat) (n : N) (acc : string) :
  string_forall is_digit acc = true -> string_forall is_digit (decimal_from fuel n acc) = true.
Proof.
  revert n acc. induction fuel as [|fuel IH]; intros n acc Ha; cbn [decimal_from]; [done|].
  assert (Hs : string_forall is_digit (String (digit_char (N.modulo n 10)) acc) = true)
    by (cbn [string_forall]; rewrite digit_char_digit by (apply N.mod_lt; lia); done).
  case_match; [done | by apply IH].
Qed.

Lemma decimal_from_length (fuel : nat) (n : N) (acc : string) :
  (slen (decimal_from fuel n acc) <= Z.of_nat fuel + slen acc)%Z.
Proof.
  revert n acc. induction fuel as [|fuel IH]; intros n acc; cbn [decimal_from]; [lia|].
  case_match; [unfold slen; cbn; lia|]. specialize (IH (N.div n 10) (String (digit_char (N.modulo n 10)) acc)).
  unfold slen in *. cbn in *. lia.
Qed.

Lemma decimal_spec (n : Z) : string_forall is_digit (decimal n) = true /\ (slen (decimal n) <= 20)%Z.
Proof. split; [by apply decimal_from_digits | apply (decimal_from_length 20 _ "")]. Qed.

Example decimal_examples : decimal 0 = "0"%string /\ decimal 4294967295 = "4294967295"%string.
Proof. split; reflexivity. Qed.

Lemma slen_app (s t : string) : slen (s +:+ t) = (slen s + slen t)%Z.
Proof.
  induction s as [|c s IH]; [done|]. change (String c s +:+ t) with (String c (s +:+ t)).
  unfold slen in *. cbn. lia.
Qed.

Lemma string_forall_impl (p q : ascii -> bool) (s : string) :
  (forall c, p c = true -> q c = true) -> string_forall p s = true -> string_forall q s = true.
Proof. intros Hpq. induction s as [|c s IH]; cbn; [done|]. rewrite !andb_true_iff. intuition. Qed.

(** [strings.Split] by one byte. *)
Fixpoint split_from (sep : ascii) (current s : string) : list string :=
  match s with
  | EmptyString => [current]
  | String c rest => if Ascii.eqb c sep then current :: split_from sep "" rest else split_from sep (current +:+ String c "") rest
  end.
Definition split_on (sep : ascii) (s : string) : list string := split_from sep "" s.

Lemma split_from_bytes (p : ascii -> bool) (sep : ascii) (s : string) : forall current,
  p sep = true -> forallb (string_forall p) (split_from sep current s) = true -> string_forall p current = true /\ string_forall p s = true.
Proof.
  induction s as [|c s IH]; intros current Hsep; cbn [split_from forallb].
  - rewrite andb_true_r. done.
  - destruct (Ascii.eqb_spec c sep) as [->|_]; cbn [forallb].
    + intros [Hc Hs]%andb_true_iff. apply IH in Hs as [_ Hs]; [|done]. cbn. by rewrite Hsep.
    + intros Hs. apply IH in Hs as [Hc Hs]; [|done]. rewrite string_forall_app in Hc. cbn in *. apply andb_true_iff in Hc as [-> Hc]. rewrite andb_true_r in Hc. by rewrite Hc.
Qed.

Lemma split_from_apart (sep : ascii) (a rest : string) : forall current,
  string_forall (fun c => negb (Ascii.eqb c sep)) a = true ->
  split_from sep current (a +:+ String sep rest) = (current +:+ a) :: split_from sep "" rest.
Proof.
  induction a as [|c a IH]; intros current; cbn [string_forall].
  - intros _. change (EmptyString +:+ String sep rest) with (String sep rest). cbn [split_from]. rewrite Ascii.eqb_refl.
    f_equal. induction current as [|c current IH]; [done|]. change (String c current +:+ "") with (String c (current +:+ "")). by rewrite <- IH.
  - intros [Hc Ha]%andb_true_iff. change (String c a +:+ String sep rest) with (String c (a +:+ String sep rest)). cbn [split_from].
    rewrite (proj1 (negb_true_iff _) Hc), IH by done. f_equal. clear. induction current as [|d current IH]; [done|].
    change (String d current +:+ String c a) with (String d (current +:+ String c a)). by rewrite <- IH.
Qed.

Lemma split_from_whole (sep : ascii) (a : string) : forall current,
  string_forall (fun c => negb (Ascii.eqb c sep)) a = true -> split_from sep current a = [current +:+ a].
Proof.
  induction a as [|c a IH]; intros current; cbn [string_forall split_from].
  - intros _. f_equal. induction current as [|c current IH]; [done|]. change (String c current +:+ "") with (String c (current +:+ "")). by rewrite <- IH.
  - intros [Hc Ha]%andb_true_iff. rewrite (proj1 (negb_true_iff _) Hc), IH by done. f_equal. clear. induction current as [|d current IH]; [done|].
    change (String d current +:+ String c a) with (String d (current +:+ String c a)). by rewrite <- IH.
Qed.

(** [strings.Join] of the parts is the text that was split. *)
Fixpoint join_with (sep : ascii) (parts : list string) : string :=
  match parts with
  | [] => ""
  | [x] => x
  | x :: rest => x +:+ String sep (join_with sep rest)
  end.

Lemma join_split_from (sep : ascii) (s : string) : forall current, join_with sep (split_from sep current s) = current +:+ s.
Proof.
  assert (Hcons : forall x l, l <> [] -> join_with sep (x :: l) = x +:+ String sep (join_with sep l)) by (intros x [|y l]; done).
  assert (Hne : forall s current, split_from sep current s <> []).
  { intros t. induction t as [|c t IH]; intros current; cbn; [done|]. destruct (Ascii.eqb c sep); [done|apply IH]. }
  induction s as [|c s IH]; intros current; cbn [split_from].
  - cbn. induction current as [|d current IH]; [done|]. change (String d current +:+ "") with (String d (current +:+ "")). by rewrite <- IH.
  - destruct (Ascii.eqb_spec c sep) as [->|_].
    + rewrite Hcons by apply Hne. rewrite IH. done.
    + rewrite IH. induction current as [|d current IHc]; [done|].
      change (String d current +:+ String c s) with (String d (current +:+ String c s)). by rewrite <- IHc.
Qed.

(** ** Duplicate detection, sorted tokens *)

(** A slice without repeated elements, the test the code makes with a map of
    seen keys or with a comparison of neighbours after sorting. *)
Fixpoint no_dupb {A : Type} `{EqDecision A} (l : list A) : bool :=
  match l with
  | [] => true
  | x :: rest => negb (bool_decide (x ∈ rest)) && no_dupb rest
  end.

Lemma no_dupb_NoDup {A : Type} `{EqDecision A} (l : list A) :
  no_dupb l = true <-> NoDup l.
Proof.
  induction l as [|x l IH]; cbn.
  - split; auto using NoDup_nil_2.
  - rewrite andb_true_iff, negb_true_iff, bool_decide_false, IH, NoDup_cons. done.
Qed.

(** [sort.Strings]: ascending byte-wise order. *)
Definition sort_strings (l : list string) : list string := merge_sort String.le l.

Lemma sorted_lookup {A : Type} (R : relation A) (l : list A) : StronglySorted R l ->
  forall i j x y, (i < j)%nat -> l !! i = Some x -> l !! j = Some y -> R x y.
Proof.
  induction 1 as [|a l Hl IH Hall]; intros [|i] [|j] x y Hij Hi Hj; try done; try lia; cbn in Hi, Hj.
  - injection Hi as ->. rewrite Forall_forall in Hall. apply Hall. by eapply list_elem_of_lookup_2.
  - apply (IH i j); [lia | done | done].
Qed.
Lemma leb_le (a b : string) : String.leb a b = true <-> String.le a b.
Proof. unfold String.le. by destruct (String.leb a b). Qed.

Lemma sort_strings_perm (l : list string) : sort_strings l ≡ₚ l.
Proof. apply merge_sort_Permutation. Qed.
Lemma sort_strings_sorted (l : list string) : StronglySorted String.le (sort_strings l).
Proof. apply (StronglySorted_merge_sort String.le). Qed.
Lemma sort_strings_NoDup (l : list string) : NoDup (sort_strings l) <-> NoDup l.
Proof. by rewrite sort_strings_perm. Qed.
Lemma elem_of_sort_strings (x : string) (l : list string) : x ∈ sort_strings l <-> x ∈ l.
Proof. by rewrite sort_strings_perm. Qed.

Lemma sort_strings_idem (l : list string) : sort_strings (sort_strings l) = sort_strings l.
Proof.
  apply (StronglySorted_unique String.le); [apply sort_strings_sorted .. | apply sort_strings_perm].
Qed.
Lemma llen_sort_strings (l : list string) : llen (sort_strings l) = llen l.
Proof. unfold llen. by rewrite sort_strings_perm. Qed.

Lemma sort_strings_unique (l k : list string) : l ≡ₚ k -> sort_strings l = sort_strings k.
Proof.
  intros Hp. apply (StronglySorted_unique String.le); [apply sort_strings_sorted .. |].
  by rewrite !sort_strings_perm.
Qed.

(** [sort.Slice] by a string key.  Go's sort is not stable; the code that uses
    it rejects or merges equal keys, and [sort_by_unique] is stated for distinct
    ones. *)
(** Permuted lists with the same distinct keys in the same order are equal. *)
Lemma keys_determine {A K : Type} (key : A -> K) (l k : list A) :
  l ≡ₚ k -> NoDup (map key l) -> map key l = map key k -> l = k.
Proof.
  intros Hp Hnd Hk. apply list_eq. intros i.
  assert (Hi : key <$> l !! i = key <$> k !! i) by (rewrite <- !list_lookup_fmap; exact (f_equal (fun m => m !! i) Hk)).
  destruct (l !! i) as [x|] eqn:Hx, (k !! i) as [y|] eqn:Hy; try done. injection Hi as Hi. f_equal.
  assert (Hyl : y ∈ l) by (rewrite Hp; by eapply list_elem_of_lookup_2).
  apply list_elem_of_lookup in Hyl as [j Hj].
  assert (i = j) as ->.
  { eapply (NoDup_lookup (map key l)); [done | |]; [rewrite (list_lookup_fmap key l), Hx | rewrite (list_lookup_fmap key l), Hj]; cbn; by rewrite ?Hi. }
  congruence.
Qed.

Section SortBy.
Context {A : Type} (key : A -> string).

Definition key_le (a b : A) : Prop := String.le (key a) (key b).
#[export] Instance key_le_dec : RelDecision key_le.
Proof. intros a b. unfold key_le. apply _. Defined.
#[export] Instance key_le_trans : Transitive key_le.
Proof. intros a b c. unfold key_le. apply transitivity. Qed.
#[export] Instance key_le_total : Total key_le.
Proof. intros a b. unfold key_le. apply (total String.le). Qed.

Definition sort_by (l : list A) : list A := merge_sort key_le l.

Lemma sort_by_perm (l : list A) : sort_by l ≡ₚ l.
Proof. apply merge_sort_Permutation. Qed.

Lemma sort_by_keys (l : list A) : map key (sort_by l) = sort_strings (map key l).
Proof.
  apply (StronglySorted_unique String.le); [| apply sort_strings_sorted |].
  - unfold sort_by. induction (StronglySorted_merge_sort key_le l) as [|x m Hm IH Hall]; cbn; constructor; [done|].
    by apply Forall_map.
  - by rewrite sort_strings_perm, sort_by_perm.
Qed.

Lemma sort_by_unique (l k : list A) : l ≡ₚ k -> NoDup (map key l) -> sort_by l = sort_by k.
Proof.
  intros Hp Hnd. apply (keys_determine key).
  - by rewrite !sort_by_perm.
  - by rewrite sort_by_perm.
  - rewrite !sort_by_keys. apply sort_strings_unique. by rewrite Hp.
Qed.

Lemma sort_by_idem (l : list A) : NoDup (map key l) -> sort_by (sort_by l) = sort_by l.
Proof. intros Hnd. apply sort_by_unique; [apply sort_by_perm | by rewrite sort_by_perm]. Qed.

Lemma elem_of_sort_by (x : A) (l : list A) : x ∈ sort_by l <-> x ∈ l.
Proof. by rewrite sort_by_perm. Qed.
Lemma length_sort_by (l : list A) : length (sort_by l) = length l.
Proof. by rewrite sort_by_perm. Qed.
End SortBy.

(** [ORDER BY] several columns; a sorted list keeps its elements. *)
Inductive Column := NumberColumn (z : Z) | TextColumn (s : string).
Fixpoint columns_leb (a b : list Column) : bool :=
  match a, b with
  | NumberColumn x :: a', NumberColumn y :: b' => (x <? y)%Z || ((x =? y)%Z && columns_leb a' b')
  | TextColumn x :: a', TextColumn y :: b' => if String.eqb x y then columns_leb a' b' else String.leb x y
  | [], _ | NumberColumn _ :: _, TextColumn _ :: _ => true
  | _, _ => false
  end.
Section OrderByColumns.
Context {A : Type} (key : A -> list Column).

Definition columns_le (a b : A) : Prop := columns_leb (key a) (key b) = true.
#[export] Instance columns_le_dec : RelDecision columns_le.
Proof. intros a b. unfold columns_le. apply _. Defined.
Definition order_by_columns (l : list A) : list A := merge_sort columns_le l.

Lemma order_by_columns_perm (l : list A) : order_by_columns l ≡ₚ l.
Proof. apply merge_sort_Permutation. Qed.
End OrderByColumns.

(** [ORDER BY] an integer column. *)
Section OrderBy.
Context {A : Type} (key : A -> Z).

Definition order_le (a b : A) : Prop := (key a <= key b)%Z.
#[export] Instance order_le_dec : RelDecision order_le.
Proof. intros a b. unfold order_le. apply _. Defined.
#[export] Instance order_le_trans : Transitive order_le.
Proof. intros a b c. unfold order_le. lia. Qed.
#[export] Instance order_le_total : Total order_le.
Proof. intros a b. unfold order_le. lia. Qed.

Definition order_by (l : list A) : list A := merge_sort order_le l.

Lemma order_by_perm (l : list A) : order_by l ≡ₚ l.
Proof. apply merge_sort_Permutation. Qed.

Lemma order_by_sorted (l : list A) : StronglySorted Z.le (map key (order_by l)).
Proof.
  unfold order_by. induction (StronglySorted_merge_sort order_le l) as [|x m Hm IH Hall]; cbn; constructor; [done|].
  by apply Forall_map.
Qed.

(** A list sorted by distinct keys is the only ordering of its elements. *)
Lemma order_by_unique (l k : list A) :
  l ≡ₚ k -> NoDup (map key k) -> StronglySorted Z.le (map key k) -> order_by l = k.
Proof.
  intros Hp Hn Hs. apply (keys_determine key).
  - by rewrite order_by_perm.
  - by rewrite order_by_perm, Hp.
  - apply (StronglySorted_unique Z.le); [apply order_by_sorted | done |]. by rewrite order_by_perm, Hp.
Qed.
End OrderBy.

(** [encoding/hex]: two lower-case digits per byte. *)
Definition hex_digit (n : N) : ascii :=
  ascii_of_N (if (n <? 10)%N then 48 + n else 87 + n)%N.
Definition hex_value (c : ascii) : option N :=
  if is_digit c then Some (N_of_ascii c - 48)%N
  else if byte_in "a" "f" c then Some (N_of_ascii c - 87)%N
  else if byte_in "A" "F" c then Some (N_of_ascii c - 55)%N
  else None.
Fixpoint hex_encode (s : string) : string :=
  match s with
  | EmptyString => EmptyString
  | String c rest => String (hex_digit (N_of_ascii c / 16)) (String (hex_digit (N_of_ascii c mod 16)) (hex_encode rest))
  end.
Fixpoint hex_decode (s : string) : option string :=
  match s with
  | EmptyString => Some EmptyString
  | String a (String b rest) =>
      match hex_value a, hex_value b, hex_decode rest with
      | Some x, Some y, Some t => Some (String (ascii_of_N (16 * x + y)) t)
      | _, _, _ => None
      end
  | String _ EmptyString => None
  end.

Lemma hex_byte (c : ascii) :
  hex_value (hex_digit (N_of_ascii c / 16)) = Some (N_of_ascii c / 16)%N /\
  hex_value (hex_digit (N_of_ascii c mod 16)) = Some (N_of_ascii c mod 16)%N.
Proof. destruct c as [[] [] [] [] [] [] [] []]; split; reflexivity. Qed.

Lemma hex_roundtrip (s : string) : hex_decode (hex_encode s) = Some s.
Proof.
  induction s as [|c s IH]; [done|]. cbn [hex_encode hex_decode]. destruct (hex_byte c) as [-> ->]. rewrite IH.
  rewrite <- N.div_mod by done. by rewrite ascii_N_embedding.
Qed.

Lemma hex_encode_length (s : string) : (slen (hex_encode s) = 2 * slen s)%Z.
Proof. induction s as [|c s IH]; [done|]. unfold slen in *. cbn [hex_encode String.length]. lia. Qed.

Lemma hex_encode_digits (s : string) : string_forall (fun c => is_digit c || byte_in "a" "f" c) (hex_encode s) = true.
Proof.
  induction s as [|c s IH]; [done|]. cbn [hex_encode string_forall]. rewrite IH, andb_true_r.
  destruct c as [[] [] [] [] [] [] [] []]; reflexivity.
Qed.

(** [slices.Compact] after sorting: drop equal neighbours. *)
Fixpoint compact_from (prev : option string) (l : list string) : list string :=
  match l with
  | [] => []
  | x :: rest =>
      if bool_decide (prev = Some x) then compact_from prev rest
      else x :: compact_from (Some x) rest
  end.
Definition compact (l : list string) : list string := compact_from None l.

Lemma elem_of_compact_from (x : string) (prev : option string) (l : list string) :
  x ∈ compact_from prev l -> x ∈ l.
Proof.
  revert prev. induction l as [|y l IH]; intros prev; cbn; [done|]. case_match; set_solver.
Qed.

Lemma elem_of_compact_from_2 (x : string) (prev : option string) (l : list string) :
  x ∈ l -> prev = Some x \/ x ∈ compact_from prev l.
Proof.
  revert prev. induction l as [|y l IH]; intros prev Hx; cbn; [by apply not_elem_of_nil in Hx|].
  destruct (bool_decide (prev = Some y)) eqn:E; bprop.
  - subst prev. apply elem_of_cons in Hx as [->|Hx]; [by left|]. by apply IH.
  - apply elem_of_cons in Hx as [->|Hx]; [set_solver|]. destruct (IH (Some y) Hx) as [[= ->]|?]; set_solver.
Qed.

Lemma elem_of_compact (x : string) (l : list string) : x ∈ compact l <-> x ∈ l.
Proof.
  split; [apply elem_of_compact_from|]. intros Hx. by destruct (elem_of_compact_from_2 x None l Hx).
Qed.

Lemma compact_length (l : list string) : (llen (compact l) <= llen l)%Z.
Proof.
  unfold compact. generalize (@None string). induction l as [|x l IH]; intros prev; cbn [compact_from]; [done|].
  case_bool_decide; [specialize (IH prev) | specialize (IH (Some x))]; unfold llen in *; cbn [length]; lia.
Qed.

(** On a sorted list [compact] leaves no duplicates. *)
Lemma compact_from_NoDup (l : list string) : forall prev,
  StronglySorted String.le l -> (forall p, prev = Some p -> Forall (String.le p) l) ->
  NoDup (compact_from prev l) /\ forall p, prev = Some p -> p ∉ compact_from prev l.
Proof.
  induction l as [|y l IH]; intros prev Hs Hp; cbn [compact_from]; [split; [constructor | set_solver]|].
  apply StronglySorted_inv in Hs as [Hs Hy].
  destruct (bool_decide (prev = Some y)) eqn:Hb; bprop.
  - apply IH; [done|]. intros p Hpr. by apply Forall_inv_tail with y, Hp.
  - destruct (IH (Some y) Hs) as [Hn Hin]; [by intros p [= <-]|]. split.
    + constructor; [by apply Hin | done].
    + intros p ->. rewrite not_elem_of_cons. split; [congruence|]. intros Hx. apply elem_of_compact_from in Hx.
      pose proof (Hp p eq_refl) as Hall. apply Forall_cons in Hall as [Hpy _]. rewrite Forall_forall in Hy.
      apply Hb. f_equal. apply (anti_symm String.le); [done | by apply Hy].
Qed.

Lemma compact_NoDup (l : list string) : NoDup (compact (sort_strings l)).
Proof. apply (compact_from_NoDup _ None (sort_strings_sorted l)). done. Qed.

(** ** Reflexive-transitive closure of a step relation *)

Inductive steps {S : Type} (R : S -> S -> Prop) : S -> S -> Prop :=
| steps_refl s : steps R s s
| steps_cons s t u : R s t -> steps R t u -> steps R s u.

Lemma steps_trans {S : Type} (R : S -> S -> Prop) s t u :
  steps R s t -> steps R t u -> steps R s u.
Proof. induction 1; eauto using steps. Qed.

Lemma steps_one {S : Type} (R : S -> S -> Prop) s t : R s t -> steps R s t.
Proof. eauto using steps. Qed.

Lemma steps_invariant {S : Type} (R : S -> S -> Prop) (P : S -> Prop) s t :
  (forall x y, P x -> R x y -> P y) -> P s -> steps R s t -> P t.
Proof. intros HR Hs Hst. induction Hst; eauto. Qed.

(** ** Transactions *)

(** What becomes of a transaction the code wants committed; an unseen commit is
    reported as an error. *)
Inductive Commit := Committed | RolledBack | CommittedUnseen.

(** A body that fails changes nothing; [failed] is the error of the database. *)
Definition transact {E A V : Type} (failed : E) (value : V) (c : Commit) (body : result E (A * V)) : result E A * V :=
  match body with
  | Err e => (Err e, value)
  | Ok (answer, value') => match c with Committed => (Ok answer, value') | RolledBack => (Err failed, value) | CommittedUnseen => (Err failed, value') end
  end.

(** The value is kept or replaced by that of the body. *)
Lemma transact_cases {E A V : Type} (failed : E) (value : V) (c : Commit) (body : result E (A * V)) (r : result E A) (value' : V) :
  transact failed value c body = (r, value') ->
  (value' = value /\ is_ok r = false) \/ exists answer, body = Ok (answer, value') /\ (r = Ok answer \/ r = Err failed).
Proof. unfold transact. destruct body as [[answer v]|e]; [destruct c|]; intros [= <- <-]; eauto. Qed.

Create HintDb idenqa.
#[export] Hint Resolve steps_refl steps_one llen_nonneg slen_nonneg : idenqa.
Create Rewrite HintDb idenqa_simp.
#[export] Hint Rewrite @llen_app @length_app : idenqa_simp.
