(* ===== verification/GoTime.v ===== *)
(** * Instants, durations and the civil calendar of Go's package [time]

    An instant is its distance in nanoseconds from 0001-01-01T00:00:00Z (Go's
    zero time) with a flag for the location pointer being [time.UTC].  The
    monotonic clock reading of [time.Time] is not modelled: every comparison is
    a comparison of wall instants.  A duration is a number of nanoseconds. *)

From S2P Require Import Prelude.
Open Scope Z_scope.

(** ** [time.Time] *)

Record Time := mk_time { instant : Z; in_utc : bool }.

#[export] Instance Time_eq_dec : EqDecision Time.
Proof. solve_decision. Defined.

Definition zero_time : Time := mk_time 0 true.
Definition is_zero (t : Time) : bool := instant t =? 0.
Definition before (t u : Time) : bool := instant t <? instant u.
Definition after (t u : Time) : bool := instant u <? instant t.
Definition utc (t : Time) : Time := mk_time (instant t) true.
Definition add (t : Time) (d : Z) : Time := mk_time (instant t + d) (in_utc t).

(** [t.Sub(u)] saturates at the bounds of [Duration]. *)
Definition sub (t u : Time) : Z :=
  Z.max min_int64 (Z.min max_int64 (instant t - instant u)).

(** [t.Truncate(d)] for a positive [d], and [t.Nanosecond()]. *)
Definition truncate (t : Time) (d : Z) : Time := mk_time (instant t - instant t mod d) (in_utc t).
Definition nanosecond (t : Time) : Z := instant t mod 1000000000.

Definition microsecond : Z := 1000.
Definition second : Z := 1000000000.
Definition minute : Z := 60 * second.
Definition hour : Z := 60 * minute.
Definition day_ns : Z := 24 * hour.

(** The guard [!t.IsZero() && t.Location() == time.UTC]. *)
Definition utc_non_zero (t : Time) : bool := negb (is_zero t) && in_utc t.

Ltac time_unfold :=
  unfold before, after, is_zero, utc_non_zero, sub, add, utc, truncate, nanosecond in *; cbn [instant in_utc] in *.
(** Decide a goal about instants after turning boolean guards into facts. *)
Ltac time_solve := time_unfold; bprop; try lia.

Lemma before_true t u : before t u = true <-> instant t < instant u.
Proof. apply Z.ltb_lt. Qed.
Lemma before_false t u : before t u = false <-> instant u <= instant t.
Proof. apply Z.ltb_ge. Qed.
Lemma after_true t u : after t u = true <-> instant u < instant t.
Proof. apply Z.ltb_lt. Qed.
Lemma after_false t u : after t u = false <-> instant t <= instant u.
Proof. apply Z.ltb_ge. Qed.
Lemma utc_non_zero_true t : utc_non_zero t = true <-> instant t <> 0 /\ in_utc t = true.
Proof. unfold utc_non_zero, is_zero. rewrite andb_true_iff, negb_true_iff, Z.eqb_neq. done. Qed.

Lemma sub_ge (t u : Time) (d : Z) :
  min_int64 < d <= max_int64 -> (d <=? sub t u) = (d <=? instant t - instant u).
Proof.
  unfold sub, min_int64, max_int64. intros Hd.
  destruct (d <=? instant t - instant u) eqn:E; bprop; [apply Z.leb_le | apply Z.leb_gt]; lia.
Qed.

Lemma sub_lt (t u : Time) (d : Z) : d <= max_int64 -> sub t u < d -> instant t - instant u < d.
Proof. unfold sub. lia. Qed.

Lemma truncate_le (t : Time) (d : Z) : 0 < d -> instant (truncate t d) <= instant t < instant (truncate t d) + d.
Proof. intros Hd. cbn. pose proof (Z.mod_pos_bound (instant t) d Hd). lia. Qed.

Lemma truncate_mod (t : Time) (d : Z) : 0 < d -> instant (truncate t d) mod d = 0.
Proof.
  intros Hd. cbn. rewrite Zminus_mod, Zmod_mod, Z.sub_diag. apply Z.mod_0_l. lia.
Qed.

(** ** The proleptic Gregorian calendar

    [days_of_civil y m d] is the day number of [time.Date(y, m, d, ...)]
    relative to 0001-01-01; out-of-range days overflow into the next month, as
    in Go. *)

Definition leap (y : Z) : bool :=
  (y mod 4 =? 0) && (negb (y mod 100 =? 0) || (y mod 400 =? 0)).

Definition days_before_year (y : Z) : Z :=
  let p := y - 1 in 365 * p + p / 4 - p / 100 + p / 400.

Definition month_lengths (y : Z) : list Z :=
  [31; if leap y then 29 else 28; 31; 30; 31; 30; 31; 31; 30; 31; 30; 31].

Definition days_in_month (y m : Z) : Z := nth (Z.to_nat (m - 1)) (month_lengths y) 0.

Definition days_before_month (y m : Z) : Z :=
  fold_left Z.add (take (Z.to_nat (m - 1)) (month_lengths y)) 0.

Definition days_of_civil (y m d : Z) : Z := days_before_year y + days_before_month y m + (d - 1).

(** The year of a day number: the estimate is at most one too small. *)
Definition year_of_days (n : Z) : Z :=
  let y := (n * 400) / 146097 + 1 in
  if n <? days_before_year y then y - 1
  else if days_before_year (y + 1) <=? n then y + 1 else y.

(** Month and day inside a year, by walking the month lengths. *)
Fixpoint month_of_yday (lengths : list Z) (m yday : Z) : Z * Z :=
  match lengths with
  | [] => (m, yday + 1)
  | len :: rest => if yday <? len then (m, yday + 1) else month_of_yday rest (m + 1) (yday - len)
  end.

Definition civil_of_days (n : Z) : Z * Z * Z :=
  let y := year_of_days n in
  let '(m, d) := month_of_yday (month_lengths y) 1 (n - days_before_year y) in
  (y, m, d).

(** [time.Date(y, m, d, 0, 0, 0, 0, time.UTC)] for a month in 1..12, and the
    accessors [Year], [Month] and [Day] of a UTC instant. *)
Definition date (y m d : Z) : Time := mk_time (days_of_civil y m d * day_ns) true.
Definition civil (t : Time) : Z * Z * Z := civil_of_days (instant t / day_ns).
Definition year (t : Time) : Z := fst (fst (civil t)).
Definition month (t : Time) : Z := snd (fst (civil t)).
Definition day (t : Time) : Z := snd (civil t).

Example civil_epoch : civil (date 1970 1 1) = (1970, 1, 1) /\ instant (date 1970 1 1) = 62135596800 * second.
Proof. split; reflexivity. Qed.
Example civil_leap : civil (date 2024 2 30) = (2024, 3, 1) /\ civil (date 1900 2 29) = (1900, 3, 1).
Proof. split; reflexivity. Qed.

(** Shifting by whole 400-year cycles. *)
Lemma leap_cycle (y k : Z) : leap (y + 400 * k) = leap y.
Proof.
  unfold leap.
  assert (H4 : (y + 400 * k) mod 4 = y mod 4)
    by (replace (y + 400 * k) with (y + (100 * k) * 4) by lia; apply Z_mod_plus_full).
  assert (H100 : (y + 400 * k) mod 100 = y mod 100)
    by (replace (y + 400 * k) with (y + (4 * k) * 100) by lia; apply Z_mod_plus_full).
  assert (H400 : (y + 400 * k) mod 400 = y mod 400)
    by (replace (y + 400 * k) with (y + k * 400) by lia; apply Z_mod_plus_full).
  by rewrite H4, H100, H400.
Qed.

Lemma days_before_year_cycle (y k : Z) : days_before_year (y + 400 * k) = days_before_year y + 146097 * k.
Proof.
  unfold days_before_year.
  replace ((y + 400 * k - 1) / 4) with ((y - 1) / 4 + 100 * k)
    by (replace (y + 400 * k - 1) with ((y - 1) + (100 * k) * 4) by lia; rewrite Z_div_plus_full; lia).
  replace ((y + 400 * k - 1) / 100) with ((y - 1) / 100 + 4 * k)
    by (replace (y + 400 * k - 1) with ((y - 1) + (4 * k) * 100) by lia; rewrite Z_div_plus_full; lia).
  replace ((y + 400 * k - 1) / 400) with ((y - 1) / 400 + k)
    by (replace (y + 400 * k - 1) with ((y - 1) + k * 400) by lia; rewrite Z_div_plus_full; lia).
  lia.
Qed.

Lemma div_pred_step (y d : Z) :
  0 < d -> y / d = (y - 1) / d + (if y mod d =? 0 then 1 else 0).
Proof.
  intros Hd. destruct (y mod d =? 0) eqn:E; bprop.
  - rewrite (Z.div_mod y d) at 2 by lia. rewrite E.
    replace (d * (y / d) + 0 - 1) with (d - 1 + (y / d - 1) * d) by lia.
    rewrite Z_div_plus_full, (Z.div_small (d - 1)); lia.
  - pose proof (Z.mod_pos_bound y d Hd).
    rewrite (Z.div_mod y d) at 2 by lia.
    replace (d * (y / d) + y mod d - 1) with (y mod d - 1 + (y / d) * d) by lia.
    rewrite Z_div_plus_full, (Z.div_small (y mod d - 1)); lia.
Qed.

Lemma mod_divides (y d k : Z) : 0 < d -> 0 < k -> y mod (d * k) = 0 -> y mod d = 0.
Proof.
  intros Hd Hk Hm. apply Z.mod_divide in Hm; [|lia]. destruct Hm as [q ->].
  replace (q * (d * k)) with (q * k * d) by lia. apply Z_mod_mult.
Qed.

Lemma days_before_year_step (y : Z) :
  days_before_year (y + 1) = days_before_year y + (if leap y then 366 else 365).
Proof.
  unfold days_before_year, leap.
  replace (y + 1 - 1) with y by lia.
  rewrite (div_pred_step y 4), (div_pred_step y 100), (div_pred_step y 400) by lia.
  pose proof (mod_divides y 4 25 eq_refl eq_refl : y mod 100 = 0 -> _) as H25.
  pose proof (mod_divides y 100 4 eq_refl eq_refl : y mod 400 = 0 -> _) as H4.
  destruct (y mod 4 =? 0) eqn:E4, (y mod 100 =? 0) eqn:E100, (y mod 400 =? 0) eqn:E400;
    cbn [andb orb negb]; bprop; lia.
Qed.

Lemma days_before_year_mono (y k : Z) :
  0 <= k -> days_before_year y + 365 * k <= days_before_year (y + k).
Proof.
  intros Hk. pattern k. apply natlike_ind; [replace (y + 0) with y by lia; lia | | done].
  intros x Hx IH. replace (y + Z.succ x) with (y + x + 1) by lia.
  rewrite days_before_year_step. destruct (leap _); lia.
Qed.

Lemma days_before_year_bounds (y : Z) :
  146097 * (y - 1) - 699 <= 400 * days_before_year y <= 146097 * (y - 1) + 396.
Proof.
  unfold days_before_year. set (p := y - 1).
  pose proof (Z.mul_div_le p 4 eq_refl). pose proof (Z.mul_succ_div_gt p 4 eq_refl).
  pose proof (Z.mul_div_le p 100 eq_refl). pose proof (Z.mul_succ_div_gt p 100 eq_refl).
  pose proof (Z.mul_div_le p 400 eq_refl). pose proof (Z.mul_succ_div_gt p 400 eq_refl).
  cbv zeta. lia.
Qed.

(** [year_of_days n] is the year whose days include day [n]. *)
Lemma year_of_days_spec (n : Z) :
  days_before_year (year_of_days n) <= n < days_before_year (year_of_days n + 1).
Proof.
  unfold year_of_days. set (y := n * 400 / 146097 + 1).
  pose proof (Z.mul_div_le (n * 400) 146097 eq_refl).
  pose proof (Z.mul_succ_div_gt (n * 400) 146097 eq_refl).
  pose proof (days_before_year_bounds (y - 1)). pose proof (days_before_year_bounds (y + 2)).
  cbv zeta. fold y.
  destruct (n <? days_before_year y) eqn:E1; bprop.
  - replace (y - 1 + 1) with y by lia. lia.
  - destruct (days_before_year (y + 1) <=? n) eqn:E2; bprop; [|lia].
    replace (y + 1 + 1) with (y + 2) by lia. lia.
Qed.

Lemma year_of_days_unique (n y : Z) :
  days_before_year y <= n < days_before_year (y + 1) -> year_of_days n = y.
Proof.
  intros Hy. pose proof (year_of_days_spec n) as Hn. set (w := year_of_days n) in *.
  destruct (Z.lt_trichotomy w y) as [Hlt | [Heq | Hgt]]; [| done |].
  - pose proof (days_before_year_mono (w + 1) (y - (w + 1))) as Hm.
    replace (w + 1 + (y - (w + 1))) with y in Hm by lia. lia.
  - pose proof (days_before_year_mono (y + 1) (w - (y + 1))) as Hm.
    replace (y + 1 + (w - (y + 1))) with w in Hm by lia. lia.
Qed.

Lemma month_of_yday_spec (lengths : list Z) (i : nat) (m d len : Z) :
  lengths !! i = Some len -> Forall (fun l => 0 <= l) lengths -> 0 <= d < len ->
  month_of_yday lengths m (fold_left Z.add (take i lengths) 0 + d) = (m + Z.of_nat i, d + 1).
Proof.
  assert (Hacc : forall l a, fold_left Z.add l a = a + fold_left Z.add l 0).
  { induction l as [|x l IH]; intros a; cbn [fold_left]; [lia|]. rewrite (IH (a + x)), (IH (0 + x)). lia. }
  assert (Hpos : forall l, Forall (fun l => 0 <= l) l -> 0 <= fold_left Z.add l 0).
  { induction 1 as [|x l Hx _ IH]; cbn [fold_left]; [lia|]. rewrite Hacc. lia. }
  revert i m. induction lengths as [|x rest IH]; intros [|i] m Hi Hall Hd; try done;
    cbn [month_of_yday take fold_left].
  - injection Hi as ->. rewrite (proj2 (Z.ltb_lt _ _)) by lia. f_equal; lia.
  - inversion Hall as [|? ? Hx Hrest]; subst. rewrite (Hacc _ (0 + x)).
    pose proof (Hpos (take i rest) (Forall_take _ _ _ Hrest)).
    rewrite (proj2 (Z.ltb_ge _ _)) by lia.
    replace (0 + x + fold_left Z.add (take i rest) 0 + d - x) with (fold_left Z.add (take i rest) 0 + d) by lia.
    rewrite IH by done. f_equal; lia.
Qed.

Lemma month_lengths_nonneg (y : Z) : Forall (fun l => 0 <= l) (month_lengths y).
Proof. unfold month_lengths. destruct (leap y); repeat (constructor; [lia|]); constructor. Qed.

(** Split on the twelve months: [Z.to_nat (m - 1)] becomes a numeral. *)
Ltac month_cases m :=
  let i := fresh "i" in
  let Hi := fresh "Hi" in
  remember (Z.to_nat (m - 1)) as i eqn:Hi;
  assert (m = Z.of_nat i + 1) by lia;
  assert (i < 12)%nat by lia;
  do 12 (destruct i as [|i]; [cbn in *; try lia |]); [.. | lia].

Lemma yday_bound (y m d : Z) :
  1 <= m <= 12 -> 1 <= d <= days_in_month y m ->
  0 <= days_before_month y m + (d - 1) < (if leap y then 366 else 365).
Proof.
  intros Hm Hd. unfold days_before_month, days_in_month, month_lengths in *.
  destruct (leap y); month_cases m.
Qed.

(** The civil calendar round-trips on every real date. *)
Lemma civil_of_days_of_civil (y m d : Z) :
  1 <= m <= 12 -> 1 <= d <= days_in_month y m -> civil_of_days (days_of_civil y m d) = (y, m, d).
Proof.
  intros Hm Hd. pose proof (yday_bound y m d Hm Hd) as Hy.
  unfold civil_of_days. rewrite (year_of_days_unique _ y).
  2:{ unfold days_of_civil. rewrite days_before_year_step. lia. }
  replace (days_of_civil y m d - days_before_year y) with (days_before_month y m + (d - 1))
    by (unfold days_of_civil; lia).
  assert (Hlt : (Z.to_nat (m - 1) < length (month_lengths y))%nat) by (cbn; lia).
  destruct (lookup_lt_is_Some_2 _ _ Hlt) as [len Hlen].
  unfold days_before_month. rewrite (month_of_yday_spec _ _ _ _ len Hlen).
  - f_equal; [f_equal; lia | lia].
  - apply month_lengths_nonneg.
  - unfold days_in_month in Hd. rewrite (nth_lookup_Some _ _ _ _ Hlen) in Hd. lia.
Qed.

Lemma civil_date (y m d : Z) :
  1 <= m <= 12 -> 1 <= d <= days_in_month y m -> civil (date y m d) = (y, m, d).
Proof.
  intros Hm Hd. unfold civil, date. cbn [instant]. rewrite Z_div_mult by done.
  by apply civil_of_days_of_civil.
Qed.

(** A day past the end of the month lands on another day of the month. *)
Lemma civil_date_overflow (y m d : Z) :
  1 <= m <= 12 -> days_in_month y m < d <= 31 ->
  month (date y m d) <> m \/ day (date y m d) <> d.
Proof.
  intros Hm Hd. left.
  assert (Hrange : 28 <= days_in_month y m /\ m <> 12).
  { unfold days_in_month, month_lengths in *.
    destruct (leap y); month_cases m. }
  set (e := d - days_in_month y m).
  assert (Heq : days_of_civil y m d = days_of_civil y (m + 1) e).
  { unfold days_of_civil, e, days_before_month, days_in_month.
    assert (Hl : (Z.to_nat (m - 1) < length (month_lengths y))%nat) by (cbn; lia).
    destruct (lookup_lt_is_Some_2 _ _ Hl) as [len Hlen].
    rewrite (nth_lookup_Some _ _ _ _ Hlen).
    replace (Z.to_nat (m + 1 - 1)) with (S (Z.to_nat (m - 1))) by lia.
    rewrite (take_S_r _ _ _ Hlen), fold_left_app. cbn. lia. }
  assert (He : 1 <= e <= days_in_month y (m + 1)).
  { unfold e, days_in_month, month_lengths in *.
    replace (Z.to_nat (m + 1 - 1)) with (S (Z.to_nat (m - 1))) by lia.
    destruct (leap y); month_cases m. }
  unfold month, date, civil. cbn [instant]. rewrite Z_div_mult by done.
  rewrite Heq, civil_of_days_of_civil by lia. cbn. lia.
Qed.

#[export] Hint Resolve before_true before_false after_true after_false utc_non_zero_true : idenqa.
