(* ===== verification/Ident.v ===== *)
(** * Prefixed identifiers: [internal/platform/id/id.go]

    An identifier is a three-letter resource prefix and a ULID.  The ULID codec
    is the third-party package oklog/ulid: a type class states what this code
    relies on (strict parsing accepts what printing produces), and
    [Module UlidText] implements it with the 26-character Crockford text form.

    Every resource kind of the file has its own type, indexed by its prefix, so
    identifiers of two kinds cannot be confused.  The other components name
    identifiers by their printed form: [parsed_string_inj] shows that the printed
    form determines a parsed identifier. *)

From S2P Require Import Prelude GoTime.
From Stdlib Require Import Ascii.

(** ** The ULID codec *)
Class Ulid := {
  ulid : Type;
  ulid_eq_dec :: EqDecision ulid;
  ulid_zero : ulid;
  ulid_parse_strict : string -> option ulid;
  ulid_string : ulid -> string;
  (** [ulid.New] of a millisecond timestamp and the entropy source. *)
  ulid_new : Z -> option ulid;
  ulid_parse_string : forall u, ulid_parse_strict (ulid_string u) = Some u;
}.

Inductive Error := ErrPrefixLength | ErrPrefixCharacter | ErrPrefixMismatch | ErrUlid | ErrGenerate.

Definition Prefix := string.

(** [NewPrefix]. *)
Definition NewPrefix (value : string) : result Error Prefix :=
  reject negb (slen value =? 3) with ErrPrefixLength ;;
  reject negb (string_forall is_lower value) with ErrPrefixCharacter ;;
  Ok value.

(** [strings.HasPrefix] followed by [strings.TrimPrefix]. *)
Fixpoint strip_prefix (want s : string) : option string :=
  match want, s with
  | EmptyString, _ => Some s
  | String a want', String b s' => if Ascii.eqb a b then strip_prefix want' s' else None
  | String _ _, EmptyString => None
  end.

Section Identifiers.
Context `{Ulid}.

Record Value := mk_value { v_prefix : Prefix; v_ulid : ulid }.

Definition zero_value : Value := mk_value "" ulid_zero.

Definition Parse (prefix : Prefix) (encoded : string) : result Error Value :=
  let? _ := NewPrefix prefix in
  match strip_prefix (prefix +:+ "_") encoded with
  | None => Err ErrPrefixMismatch
  | Some rest =>
      match ulid_parse_strict rest with
      | None => Err ErrUlid
      | Some parsed => Ok (mk_value prefix parsed)
      end
  end.

(** [Value.String] and [Value.IsZero]. *)
Definition value_string (v : Value) : string :=
  if empty_string (v_prefix v) then "" else v_prefix v +:+ "_" +:+ ulid_string (v_ulid v).
Definition value_is_zero (v : Value) : bool := empty_string (v_prefix v).

(** The generator, reduced to its clock reading. *)
Record Generator := mk_generator { g_clock : Time }.

(** [ulid.Timestamp]: milliseconds since the Unix epoch. *)
Definition ulid_timestamp (t : Time) : Z := (instant t - instant (date 1970 1 1)) / 1000000.

Definition New (g : Generator) (prefix : Prefix) : result Error Value :=
  let? _ := NewPrefix prefix in
  match ulid_new (ulid_timestamp (g_clock g)) with
  | None => Err ErrGenerate
  | Some generated => Ok (mk_value prefix generated)
  end.

(** ** One type per resource kind *)

Record Id (prefix : Prefix) := mk_id { value : Value }.
Arguments mk_id {prefix} value.
Arguments value {prefix} i.

Definition new_typed (prefix : Prefix) (g : Generator) : result Error (Id prefix) :=
  let? v := New g prefix in Ok (mk_id v).
Definition parse_typed (prefix : Prefix) (encoded : string) : result Error (Id prefix) :=
  let? v := Parse prefix encoded in Ok (mk_id v).
Definition id_string {prefix} (i : Id prefix) : string := value_string (value i).
Definition id_is_zero {prefix} (i : Id prefix) : bool := value_is_zero (value i).

Definition RequestPrefix : Prefix := "req".
Definition Request : Type := Id RequestPrefix.
Definition NewRequest : Generator -> result Error Request := new_typed RequestPrefix.
Definition ParseRequest : string -> result Error Request := parse_typed RequestPrefix.

Definition TenantPrefix : Prefix := "ten".
Definition Tenant : Type := Id TenantPrefix.
Definition NewTenant : Generator -> result Error Tenant := new_typed TenantPrefix.
Definition ParseTenant : string -> result Error Tenant := parse_typed TenantPrefix.

Definition APIKeyPrefix : Prefix := "key".
Definition APIKey : Type := Id APIKeyPrefix.
Definition NewAPIKey : Generator -> result Error APIKey := new_typed APIKeyPrefix.
Definition ParseAPIKey : string -> result Error APIKey := parse_typed APIKeyPrefix.

Definition ProfilePrefix : Prefix := "prf".
Definition Profile : Type := Id ProfilePrefix.
Definition NewProfile : Generator -> result Error Profile := new_typed ProfilePrefix.
Definition ParseProfile : string -> result Error Profile := parse_typed ProfilePrefix.

Definition VerificationPrefix : Prefix := "ver".
Definition Verification : Type := Id VerificationPrefix.
Definition NewVerification : Generator -> result Error Verification := new_typed VerificationPrefix.
Definition ParseVerification : string -> result Error Verification := parse_typed VerificationPrefix.

Definition EvidencePrefix : Prefix := "evd".
Definition Evidence : Type := Id EvidencePrefix.
Definition NewEvidence : Generator -> result Error Evidence := new_typed EvidencePrefix.
Definition ParseEvidence : string -> result Error Evidence := parse_typed EvidencePrefix.

Definition UploadPrefix : Prefix := "upl".
Definition Upload : Type := Id UploadPrefix.
Definition NewUpload : Generator -> result Error Upload := new_typed UploadPrefix.
Definition ParseUpload : string -> result Error Upload := parse_typed UploadPrefix.

Definition CaptureTokenPrefix : Prefix := "ctk".
Definition CaptureToken : Type := Id CaptureTokenPrefix.
Definition NewCaptureToken : Generator -> result Error CaptureToken := new_typed CaptureTokenPrefix.
Definition ParseCaptureToken : string -> result Error CaptureToken := parse_typed CaptureTokenPrefix.

Definition OutcomeTokenPrefix : Prefix := "otk".
Definition OutcomeToken : Type := Id OutcomeTokenPrefix.
Definition NewOutcomeToken : Generator -> result Error OutcomeToken := new_typed OutcomeTokenPrefix.
Definition ParseOutcomeToken : string -> result Error OutcomeToken := parse_typed OutcomeTokenPrefix.

Definition EventPrefix : Prefix := "evt".
Definition Event : Type := Id EventPrefix.
Definition NewEvent : Generator -> result Error Event := new_typed EventPrefix.
Definition ParseEvent : string -> result Error Event := parse_typed EventPrefix.

Definition AuthorityPrefix : Prefix := "aut".
Definition Authority : Type := Id AuthorityPrefix.
Definition NewAuthority : Generator -> result Error Authority := new_typed AuthorityPrefix.
Definition ParseAuthority : string -> result Error Authority := parse_typed AuthorityPrefix.

Definition NoticePrefix : Prefix := "ntc".
Definition Notice : Type := Id NoticePrefix.
Definition NewNotice : Generator -> result Error Notice := new_typed NoticePrefix.
Definition ParseNotice : string -> result Error Notice := parse_typed NoticePrefix.

Definition SubjectPrefix : Prefix := "sub".
Definition Subject : Type := Id SubjectPrefix.
Definition NewSubject : Generator -> result Error Subject := new_typed SubjectPrefix.
Definition ParseSubject : string -> result Error Subject := parse_typed SubjectPrefix.

Definition AcknowledgementPrefix : Prefix := "ack".
Definition Acknowledgement : Type := Id AcknowledgementPrefix.
Definition NewAcknowledgement : Generator -> result Error Acknowledgement := new_typed AcknowledgementPrefix.
Definition ParseAcknowledgement : string -> result Error Acknowledgement := parse_typed AcknowledgementPrefix.

Definition GrantPrefix : Prefix := "grt".
Definition Grant : Type := Id GrantPrefix.
Definition NewGrant : Generator -> result Error Grant := new_typed GrantPrefix.
Definition ParseGrant : string -> result Error Grant := parse_typed GrantPrefix.

Definition RedemptionPrefix : Prefix := "rdm".
Definition Redemption : Type := Id RedemptionPrefix.
Definition NewRedemption : Generator -> result Error Redemption := new_typed RedemptionPrefix.
Definition ParseRedemption : string -> result Error Redemption := parse_typed RedemptionPrefix.

Definition ConnectionPrefix : Prefix := "con".
Definition Connection : Type := Id ConnectionPrefix.
Definition NewConnection : Generator -> result Error Connection := new_typed ConnectionPrefix.
Definition ParseConnection : string -> result Error Connection := parse_typed ConnectionPrefix.

Definition MessagePrefix : Prefix := "msg".
Definition Message : Type := Id MessagePrefix.
Definition NewMessage : Generator -> result Error Message := new_typed MessagePrefix.
Definition ParseMessage : string -> result Error Message := parse_typed MessagePrefix.

Definition CommandPrefix : Prefix := "cmd".
Definition Command : Type := Id CommandPrefix.
Definition NewCommand : Generator -> result Error Command := new_typed CommandPrefix.
Definition ParseCommand : string -> result Error Command := parse_typed CommandPrefix.

Definition ChallengePrefix : Prefix := "chl".
Definition Challenge : Type := Id ChallengePrefix.
Definition NewChallenge : Generator -> result Error Challenge := new_typed ChallengePrefix.
Definition ParseChallenge : string -> result Error Challenge := parse_typed ChallengePrefix.

Definition WebSocketTicketPrefix : Prefix := "wst".
Definition WebSocketTicket : Type := Id WebSocketTicketPrefix.
Definition NewWebSocketTicket : Generator -> result Error WebSocketTicket := new_typed WebSocketTicketPrefix.
Definition ParseWebSocketTicket : string -> result Error WebSocketTicket := parse_typed WebSocketTicketPrefix.

Definition TaskPrefix : Prefix := "tsk".
Definition Task : Type := Id TaskPrefix.
Definition NewTask : Generator -> result Error Task := new_typed TaskPrefix.
Definition ParseTask : string -> result Error Task := parse_typed TaskPrefix.

Definition ProviderPrefix : Prefix := "pvd".
Definition Provider : Type := Id ProviderPrefix.
Definition NewProvider : Generator -> result Error Provider := new_typed ProviderPrefix.
Definition ParseProvider : string -> result Error Provider := parse_typed ProviderPrefix.

Definition ProviderRegistrationPrefix : Prefix := "pvr".
Definition ProviderRegistration : Type := Id ProviderRegistrationPrefix.
Definition NewProviderRegistration : Generator -> result Error ProviderRegistration := new_typed ProviderRegistrationPrefix.
Definition ParseProviderRegistration : string -> result Error ProviderRegistration := parse_typed ProviderRegistrationPrefix.

Definition ModelPrefix : Prefix := "mdl".
Definition Model : Type := Id ModelPrefix.
Definition NewModel : Generator -> result Error Model := new_typed ModelPrefix.
Definition ParseModel : string -> result Error Model := parse_typed ModelPrefix.

Definition AttemptPrefix : Prefix := "atm".
Definition Attempt : Type := Id AttemptPrefix.
Definition NewAttempt : Generator -> result Error Attempt := new_typed AttemptPrefix.
Definition ParseAttempt : string -> result Error Attempt := parse_typed AttemptPrefix.

Definition CheckPrefix : Prefix := "chk".
Definition Check : Type := Id CheckPrefix.
Definition NewCheck : Generator -> result Error Check := new_typed CheckPrefix.
Definition ParseCheck : string -> result Error Check := parse_typed CheckPrefix.

Definition ObservationPrefix : Prefix := "obs".
Definition Observation : Type := Id ObservationPrefix.
Definition NewObservation : Generator -> result Error Observation := new_typed ObservationPrefix.
Definition ParseObservation : string -> result Error Observation := parse_typed ObservationPrefix.

Definition PolicyPrefix : Prefix := "pol".
Definition Policy : Type := Id PolicyPrefix.
Definition NewPolicy : Generator -> result Error Policy := new_typed PolicyPrefix.
Definition ParsePolicy : string -> result Error Policy := parse_typed PolicyPrefix.

Definition DecisionPrefix : Prefix := "dec".
Definition Decision : Type := Id DecisionPrefix.
Definition NewDecision : Generator -> result Error Decision := new_typed DecisionPrefix.
Definition ParseDecision : string -> result Error Decision := parse_typed DecisionPrefix.

Definition WebhookEndpointPrefix : Prefix := "whk".
Definition WebhookEndpoint : Type := Id WebhookEndpointPrefix.
Definition NewWebhookEndpoint : Generator -> result Error WebhookEndpoint := new_typed WebhookEndpointPrefix.
Definition ParseWebhookEndpoint : string -> result Error WebhookEndpoint := parse_typed WebhookEndpointPrefix.

Definition DeliveryPrefix : Prefix := "dlv".
Definition Delivery : Type := Id DeliveryPrefix.
Definition NewDelivery : Generator -> result Error Delivery := new_typed DeliveryPrefix.
Definition ParseDelivery : string -> result Error Delivery := parse_typed DeliveryPrefix.

Definition DeletionPrefix : Prefix := "del".
Definition Deletion : Type := Id DeletionPrefix.
Definition NewDeletion : Generator -> result Error Deletion := new_typed DeletionPrefix.
Definition ParseDeletion : string -> result Error Deletion := parse_typed DeletionPrefix.

Definition LegalHoldPrefix : Prefix := "hld".
Definition LegalHold : Type := Id LegalHoldPrefix.
Definition NewLegalHold : Generator -> result Error LegalHold := new_typed LegalHoldPrefix.
Definition ParseLegalHold : string -> result Error LegalHold := parse_typed LegalHoldPrefix.

Definition ReviewCasePrefix : Prefix := "rvc".
Definition ReviewCase : Type := Id ReviewCasePrefix.
Definition NewReviewCase : Generator -> result Error ReviewCase := new_typed ReviewCasePrefix.
Definition ParseReviewCase : string -> result Error ReviewCase := parse_typed ReviewCasePrefix.

Definition FindingPrefix : Prefix := "fnd".
Definition Finding : Type := Id FindingPrefix.
Definition NewFinding : Generator -> result Error Finding := new_typed FindingPrefix.
Definition ParseFinding : string -> result Error Finding := parse_typed FindingPrefix.

Definition ProviderCallbackPrefix : Prefix := "pcb".
Definition ProviderCallback : Type := Id ProviderCallbackPrefix.
Definition NewProviderCallback : Generator -> result Error ProviderCallback := new_typed ProviderCallbackPrefix.
Definition ParseProviderCallback : string -> result Error ProviderCallback := parse_typed ProviderCallbackPrefix.

Definition InputRequestPrefix : Prefix := "inp".
Definition InputRequest : Type := Id InputRequestPrefix.
Definition NewInputRequest : Generator -> result Error InputRequest := new_typed InputRequestPrefix.
Definition ParseInputRequest : string -> result Error InputRequest := parse_typed InputRequestPrefix.

Definition ProposalPrefix : Prefix := "prp".
Definition Proposal : Type := Id ProposalPrefix.
Definition NewProposal : Generator -> result Error Proposal := new_typed ProposalPrefix.
Definition ParseProposal : string -> result Error Proposal := parse_typed ProposalPrefix.

Definition AcceptedCommandPrefix : Prefix := "acc".
Definition AcceptedCommand : Type := Id AcceptedCommandPrefix.
Definition NewAcceptedCommand : Generator -> result Error AcceptedCommand := new_typed AcceptedCommandPrefix.
Definition ParseAcceptedCommand : string -> result Error AcceptedCommand := parse_typed AcceptedCommandPrefix.

Definition PromptPrefix : Prefix := "prm".
Definition Prompt : Type := Id PromptPrefix.
Definition NewPrompt : Generator -> result Error Prompt := new_typed PromptPrefix.
Definition ParsePrompt : string -> result Error Prompt := parse_typed PromptPrefix.

Definition AppealPrefix : Prefix := "apl".
Definition Appeal : Type := Id AppealPrefix.
Definition NewAppeal : Generator -> result Error Appeal := new_typed AppealPrefix.
Definition ParseAppeal : string -> result Error Appeal := parse_typed AppealPrefix.

Definition PrivacyRequestPrefix : Prefix := "prq".
Definition PrivacyRequest : Type := Id PrivacyRequestPrefix.
Definition NewPrivacyRequest : Generator -> result Error PrivacyRequest := new_typed PrivacyRequestPrefix.
Definition ParsePrivacyRequest : string -> result Error PrivacyRequest := parse_typed PrivacyRequestPrefix.

Definition PrivacyDecisionPrefix : Prefix := "prd".
Definition PrivacyDecision : Type := Id PrivacyDecisionPrefix.
Definition NewPrivacyDecision : Generator -> result Error PrivacyDecision := new_typed PrivacyDecisionPrefix.
Definition ParsePrivacyDecision : string -> result Error PrivacyDecision := parse_typed PrivacyDecisionPrefix.

Definition PrivacyRestrictionPrefix : Prefix := "prs".
Definition PrivacyRestriction : Type := Id PrivacyRestrictionPrefix.
Definition NewPrivacyRestriction : Generator -> result Error PrivacyRestriction := new_typed PrivacyRestrictionPrefix.
Definition ParsePrivacyRestriction : string -> result Error PrivacyRestriction := parse_typed PrivacyRestrictionPrefix.

Definition PrivacyDisclosurePrefix : Prefix := "pdc".
Definition PrivacyDisclosure : Type := Id PrivacyDisclosurePrefix.
Definition NewPrivacyDisclosure : Generator -> result Error PrivacyDisclosure := new_typed PrivacyDisclosurePrefix.
Definition ParsePrivacyDisclosure : string -> result Error PrivacyDisclosure := parse_typed PrivacyDisclosurePrefix.

Definition ProcessorPrefix : Prefix := "prc".
Definition Processor : Type := Id ProcessorPrefix.
Definition NewProcessor : Generator -> result Error Processor := new_typed ProcessorPrefix.
Definition ParseProcessor : string -> result Error Processor := parse_typed ProcessorPrefix.

Definition ExperiencePrefix : Prefix := "exp".
Definition Experience : Type := Id ExperiencePrefix.
Definition NewExperience : Generator -> result Error Experience := new_typed ExperiencePrefix.
Definition ParseExperience : string -> result Error Experience := parse_typed ExperiencePrefix.

Definition all_prefixes : list Prefix :=
  [RequestPrefix; TenantPrefix; APIKeyPrefix; ProfilePrefix; VerificationPrefix; EvidencePrefix; UploadPrefix; CaptureTokenPrefix; OutcomeTokenPrefix; EventPrefix; AuthorityPrefix; NoticePrefix; SubjectPrefix; AcknowledgementPrefix; GrantPrefix; RedemptionPrefix; ConnectionPrefix; MessagePrefix; CommandPrefix; ChallengePrefix; WebSocketTicketPrefix; TaskPrefix; ProviderPrefix; ProviderRegistrationPrefix; ModelPrefix; AttemptPrefix; CheckPrefix; ObservationPrefix; PolicyPrefix; DecisionPrefix; WebhookEndpointPrefix; DeliveryPrefix; DeletionPrefix; LegalHoldPrefix; ReviewCasePrefix; FindingPrefix; ProviderCallbackPrefix; InputRequestPrefix; ProposalPrefix; AcceptedCommandPrefix; PromptPrefix; AppealPrefix; PrivacyRequestPrefix; PrivacyDecisionPrefix; PrivacyRestrictionPrefix; PrivacyDisclosurePrefix; ProcessorPrefix; ExperiencePrefix].

(** *** Lemmas *)

Lemma NewPrefix_Ok p q :
  NewPrefix p = Ok q <-> q = p /\ slen p = 3 /\ string_forall is_lower p = true.
Proof.
  unfold NewPrefix. rewrite !reject_Ok, !negb_false_iff, Z.eqb_eq. split.
  - intros (? & ? & [= ->]). done.
  - intros (-> & ? & ?). done.
Qed.

Lemma strip_prefix_Some want s rest : strip_prefix want s = Some rest <-> s = want +:+ rest.
Proof.
  revert s. induction want as [|a want IH]; intros s; cbn [strip_prefix].
  - split; [intros [= ->] | intros ->]; done.
  - destruct s as [|b s]; [split; [done | by intros [=]]|].
    change (String a want +:+ rest) with (String a (want +:+ rest)).
    destruct (Ascii.eqb a b) eqn:E.
    + apply Ascii.eqb_eq in E as ->. rewrite IH. split; [by intros -> | by intros [= ->]].
    + apply Ascii.eqb_neq in E. split; [done | intros [= -> _]; done].
Qed.

(** A parsed identifier has the wanted prefix and a ULID read from the rest. *)
Lemma Parse_Ok p s v :
  Parse p s = Ok v <->
  NewPrefix p = Ok p /\ v_prefix v = p /\
  exists rest, s = (p +:+ "_") +:+ rest /\ ulid_parse_strict rest = Some (v_ulid v).
Proof.
  unfold Parse. rewrite rbind_Ok. split.
  - intros (q & Hq & Hs). assert (q = p) as -> by (by apply NewPrefix_Ok in Hq as (-> & _)).
    destruct (strip_prefix (p +:+ "_") s) as [rest|] eqn:E; [|done].
    destruct (ulid_parse_strict rest) as [u|] eqn:Eu; [|done].
    injection Hs as <-. apply strip_prefix_Some in E as ->. split_and!; try done. by exists rest.
  - intros (Hp & <- & rest & -> & Hu). exists (v_prefix v). split; [done|].
    rewrite (proj2 (strip_prefix_Some _ _ rest) eq_refl), Hu. by destruct v.
Qed.

Lemma append_assoc (a b c : string) : (a +:+ b) +:+ c = a +:+ (b +:+ c).
Proof.
  induction a as [|x a IH]; [done|].
  change (String x ((a +:+ b) +:+ c) = String x (a +:+ (b +:+ c))). by rewrite IH.
Qed.

Lemma append_inv_length (a b s t : string) :
  String.length a = String.length b -> a +:+ s = b +:+ t -> a = b /\ s = t.
Proof.
  revert b. induction a as [|x a IH]; intros [|y b] Hl Heq; try done.
  change (String x (a +:+ s) = String y (b +:+ t)) in Heq.
  injection Heq as -> Heq. injection Hl as Hl. by destruct (IH b Hl Heq) as [-> ->].
Qed.

Lemma prefix_length p : NewPrefix p = Ok p -> String.length p = 3%nat.
Proof. intros (_ & Hl & _)%NewPrefix_Ok. unfold slen in Hl. lia. Qed.

Lemma prefix_not_empty p : NewPrefix p = Ok p -> empty_string p = false.
Proof. intros Hl%prefix_length. by destruct p. Qed.

Lemma all_prefixes_valid : Forall (fun p => NewPrefix p = Ok p) all_prefixes.
Proof. repeat constructor. Qed.

Lemma all_prefixes_distinct : NoDup all_prefixes.
Proof. apply no_dupb_NoDup. vm_compute. reflexivity. Qed.

End Identifiers.

Arguments mk_id {_ prefix} value.
Arguments value {_ prefix} i.

(** ** The Crockford text codec

    A concrete codec: a ULID is its canonical 26-character text, whose first
    character is at most 7 so that the value fits 128 bits. *)
Module UlidText.

Definition alphabet : string := "0123456789ABCDEFGHJKMNPQRSTVWXYZ".
Definition valid (s : string) : bool :=
  (slen s =? 26) && string_forall (byte_of alphabet) s &&
  match s with String c _ => byte_of "01234567" c | EmptyString => false end.

Definition text : Type := { s : string | valid s = true }.

Lemma text_eq (a b : text) : `a = `b -> a = b.
Proof.
  destruct a as [a Ha], b as [b Hb]. cbn. intros ->. f_equal. apply proof_irrel.
Qed.

#[export] Instance text_eq_dec : EqDecision text.
Proof.
  intros a b. destruct (decide (`a = `b)) as [E|E]; [left; by apply text_eq | right; by intros ->].
Defined.

Definition zero_text : text := exist _ "00000000000000000000000000"%string eq_refl.

Definition parse (s : string) : option text :=
  match bool_dec (valid s) true with
  | left E => Some (exist _ s E)
  | right _ => None
  end.

Lemma parse_text (t : text) : parse (`t) = Some t.
Proof.
  unfold parse. destruct (bool_dec _ _) as [E|E]; [f_equal; by apply text_eq|].
  destruct t as [s Hs]. done.
Qed.

#[export] Instance ulid_text : Ulid := {|
  ulid := text;
  ulid_zero := zero_text;
  ulid_parse_strict := parse;
  ulid_string := fun t => `t;
  ulid_new := fun ms => if (ms <? 0) || (2 ^ 48 <=? ms) then None else Some zero_text;
  ulid_parse_string := parse_text;
|}.
End UlidText.

(** ** Properties *)
Module IdentSpec.
Section IdentSpec.
Context `{Ulid}.

(** Identifiers round-trip.  A value under a valid prefix, however it was
    made, is read back unchanged from its printed form; and whatever [Parse]
    accepts is an identifier of the wanted prefix that is not zero. *)
Theorem identifier_roundtrip (p : Prefix) (v : Value) (Hp : NewPrefix p = Ok p) (Hv : v_prefix v = p) :
  Parse p (value_string v) = Ok v /\ value_is_zero v = false /\
  forall s w, Parse p s = Ok w -> v_prefix w = p /\ value_is_zero w = false.
Proof.
  split_and!.
  - unfold value_string. rewrite Hv, (prefix_not_empty p Hp). apply Parse_Ok.
    split_and!; [done | done|]. exists (ulid_string (v_ulid v)). by rewrite append_assoc, ulid_parse_string.
  - unfold value_is_zero. rewrite Hv. by apply prefix_not_empty.
  - intros s w (_ & Hw & _)%Parse_Ok. split; [done|]. unfold value_is_zero. rewrite Hw. by apply prefix_not_empty.
Qed.

(** Kinds are disjoint.  No text parses as an identifier of two different
    resource kinds of the package, and the printed form determines a parsed
    identifier among all kinds. *)
Theorem identifier_kinds_disjoint (p q : Prefix) (s : string) (v w : Value)
    (Hp : p ∈ all_prefixes) (Hq : q ∈ all_prefixes) (Hv : Parse p s = Ok v) :
  (Parse q s = Ok w -> p = q /\ v = w) /\
  (Parse q (value_string w) = Ok w -> value_string v = value_string w -> v = w).
Proof.
  pose proof (all_prefixes_valid) as Hall. rewrite Forall_forall in Hall.
  pose proof (Hall p Hp) as Vp. pose proof (Hall q Hq) as Vq.
  apply Parse_Ok in Hv as (_ & Hpv & rest & Hs & Hu). split.
  - intros (_ & Hqw & rest' & Hs' & Hu')%Parse_Ok. rewrite Hs, !append_assoc in Hs'.
    apply append_inv_length in Hs' as [Hpq Hrest]; [| by rewrite (prefix_length p Vp), (prefix_length q Vq)].
    injection Hrest as Hrest. change (rest = rest') in Hrest.
    split; [done|]. destruct v as [vp vu], w as [wp wu]. cbn in *. subst. congruence.
  - intros (_ & Hqw & _)%Parse_Ok Heq. unfold value_string in Heq.
    rewrite Hpv, Hqw, (prefix_not_empty p Vp), (prefix_not_empty q Vq) in Heq.
    apply append_inv_length in Heq as [Hpq Heq]; [| by rewrite (prefix_length p Vp), (prefix_length q Vq)].
    injection Heq as Heq. change (ulid_string (v_ulid v) = ulid_string (v_ulid w)) in Heq. destruct v as [vp vu], w as [wp wu]. cbn in *. subst. f_equal.
    apply (f_equal ulid_parse_strict) in Heq. rewrite !ulid_parse_string in Heq. congruence.
Qed.
End IdentSpec.

Import UlidText.
Definition sample_ulid : string := "01ARZ3NDEKTSV4RRFFQ69G5FAV".
Definition sample_tenant : Value := mk_value "ten" UlidText.zero_text.

Lemma identifier_roundtrip_witness :
  Parse "ten" (value_string sample_tenant) = Ok sample_tenant /\ value_is_zero sample_tenant = false /\
  forall s w, Parse "ten" s = Ok w -> v_prefix w = "ten"%string /\ value_is_zero w = false.
Proof. apply (identifier_roundtrip "ten" sample_tenant); reflexivity. Defined.

Lemma identifier_kinds_disjoint_witness :
  exists v, Parse TenantPrefix (TenantPrefix +:+ "_" +:+ sample_ulid) = Ok v /\
    forall w, Parse CheckPrefix (TenantPrefix +:+ "_" +:+ sample_ulid) = Ok w -> TenantPrefix = CheckPrefix /\ v = w.
Proof.
  eexists. split; [vm_compute; reflexivity|]. intros w.
  apply (identifier_kinds_disjoint TenantPrefix CheckPrefix (TenantPrefix +:+ "_" +:+ sample_ulid)).
  - vm_compute. set_solver.
  - vm_compute. set_solver.
  - vm_compute. reflexivity.
Defined.

End IdentSpec.
