(* ===== verification/Breaker.v ===== *)
(** * Circuit breakers: [internal/platform/breaker/breaker.go]

    [Module Circuit] models one circuit: the methods run under the circuit's
    mutex, so each is one atomic step that takes the reading of the injected
    clock as an argument.  [Module Registry] models the bounded registry: the
    circuits it hands out are shared pointers, so they live in a heap, and an
    evicted circuit stays usable through the pointers already handed out.

    [FailureRatio] and the observed ratio are IEEE-754 binary64 values, computed
    with the operations of [SpecFloat]. *)

From S2P Require Import Prelude GoTime.
From Stdlib Require Import Floats.SpecFloat.
Open Scope Z_scope.

(** ** Binary64 *)

Abbreviation float64 := spec_float.
Definition float64_of_int (n : Z) : float64 := binary_normalize 53 1024 n 0 false.
Definition float64_div (x y : float64) : float64 := SFdiv 53 1024 x y.
Definition float64_zero : float64 := S754_zero false.

(** ** States and policy *)

Inductive State :=
| StateUnknown | StateClosed | StateOpen | StateHalfOpen
| StateOther (label : string).

#[export] Instance State_eq_dec : EqDecision State.
Proof. solve_decision. Defined.

(** [Safe]: the canonical label, collapsing unknown states. *)
Definition Safe (state : State) : string :=
  match state with
  | StateClosed => "closed"
  | StateOpen => "open"
  | StateHalfOpen => "half_open"
  | _ => "unknown"
  end.

Record Policy := mk_policy {
  Window : Z;
  MinimumSamples : Z;
  FailureRatio : float64;
  OpenDuration : Z;
  HalfOpenProbes : Z;
}.

Definition DefaultPolicy : Policy :=
  mk_policy minute 4 (float64_div (float64_of_int 1) (float64_of_int 2)) (30 * second) 1.

Inductive Error := ErrInvalidConfiguration.

Definition Validate (policy : Policy) : result Error unit :=
  reject (Window policy <? second) || (hour <? Window policy)
      || (MinimumSamples policy <? 1) || (1000 <? MinimumSamples policy)
      || SFleb (FailureRatio policy) float64_zero || SFltb (float64_of_int 1) (FailureRatio policy)
      || (OpenDuration policy <? second) || (hour <? OpenDuration policy)
      || (HalfOpenProbes policy <? 1) || (32 <? HalfOpenProbes policy)
    with ErrInvalidConfiguration ;;
  Ok ().

Record Transition := mk_transition {
  From : State;
  To : State;
  At : Time;
  Changed : bool;
}.

Record outcome := mk_outcome { at_ : Time; success : bool }.

Record Circuit := mk_circuit {
  policy : Policy;
  state : State;
  openedAt : Time;
  halfOpenInFlight : Z;
  outcomes : list outcome;
}.

(** The circuit [Registry.Breaker] creates. *)
Definition new_circuit (p : Policy) : Circuit := mk_circuit p StateClosed zero_time 0 [].

(** ** One circuit *)
Module Circuit.

Definition prune (c : Circuit) (now : Time) : Circuit :=
  let cutoff := add now (- Window (policy c)) in
  mk_circuit (policy c) (state c) (openedAt c) (halfOpenInFlight c)
    (List.filter (fun o => negb (before (at_ o) cutoff)) (outcomes c)).

Definition refresh (c0 : Circuit) (now : Time) : Circuit :=
  let c := prune c0 now in
  if bool_decide (state c = StateOpen) && negb (is_zero (openedAt c))
     && (OpenDuration (policy c) <=? sub now (openedAt c))
  then mk_circuit (policy c) StateHalfOpen (openedAt c) 0 (outcomes c)
  else c.

Definition failures (os : list outcome) : Z :=
  llen (List.filter (fun o => negb (success o)) os).

Definition shouldOpen (c : Circuit) : bool :=
  let samples := llen (outcomes c) in
  if samples <? MinimumSamples (policy c) then false
  else SFleb (FailureRatio (policy c))
         (float64_div (float64_of_int (failures (outcomes c))) (float64_of_int samples)).

(** [State()]: the refreshed circuit and its state. *)
Definition State_ (c : Circuit) (now : Time) : Circuit * State :=
  let c := refresh c now in (c, state c).

Definition Allow (c0 : Circuit) (now : Time) : Circuit * bool :=
  let c := refresh c0 now in
  match state c with
  | StateOpen => (c, false)
  | StateHalfOpen =>
      if HalfOpenProbes (policy c) <=? halfOpenInFlight c then (c, false)
      else (mk_circuit (policy c) (state c) (openedAt c) (halfOpenInFlight c + 1) (outcomes c), true)
  | _ => (c, true)
  end.

Definition Record_ (c0 : Circuit) (succeeded : bool) (now : Time) : Circuit * Transition :=
  let c := refresh c0 now in
  let unchanged := mk_transition (state c) (state c) (utc now) false in
  if bool_decide (state c = StateOpen) then (c, unchanged)
  else if bool_decide (state c = StateHalfOpen) then
    let inFlight := if 0 <? halfOpenInFlight c then halfOpenInFlight c - 1 else halfOpenInFlight c in
    let c' := if succeeded
              then mk_circuit (policy c) StateClosed zero_time inFlight []
              else mk_circuit (policy c) StateOpen now inFlight (outcomes c) in
    (c', mk_transition (state c) (state c') (utc now) (negb (bool_decide (state c' = state c))))
  else
    let c1 := prune (mk_circuit (policy c) (state c) (openedAt c) (halfOpenInFlight c)
                       (outcomes c ++ [mk_outcome now succeeded])) now in
    if shouldOpen c1
    then (mk_circuit (policy c1) StateOpen now (halfOpenInFlight c1) (outcomes c1),
          mk_transition (state c) StateOpen (utc now) true)
    else (c1, unchanged).

Definition Seed (c0 : Circuit) (s : State) (t : Time) (now : Time) : Circuit :=
  if negb (bool_decide (s = StateOpen)) && negb (bool_decide (s = StateHalfOpen)) then c0
  else
    let c := refresh c0 now in
    if negb (bool_decide (state c = StateOpen)) && negb (bool_decide (state c = StateHalfOpen))
    then mk_circuit (policy c) s t (halfOpenInFlight c) (outcomes c)
    else c.

(** One call on a circuit, with the clock reading it sees. *)
Inductive call :=
| CState (now : Time)
| CAllow (now : Time)
| CRecord (succeeded : bool) (now : Time)
| CSeed (s : State) (t now : Time).

Definition clock_of (k : call) : Time :=
  match k with CState n | CAllow n | CRecord _ n | CSeed _ _ n => n end.

(** The circuit after a call, and the answer of [Allow]. *)
Definition run_call (c : Circuit) (k : call) : Circuit * option bool :=
  match k with
  | CState now => (fst (State_ c now), None)
  | CAllow now => let '(c', b) := Allow c now in (c', Some b)
  | CRecord s now => (fst (Record_ c s now), None)
  | CSeed s t now => (Seed c s t now, None)
  end.

(** Any interleaving of calls: mutual exclusion makes it a sequence. *)
Fixpoint run (c : Circuit) (ks : list call) : Circuit * list bool :=
  match ks with
  | [] => (c, [])
  | k :: rest =>
      let '(c', o) := run_call c k in
      let '(c'', os) := run c' rest in
      (c'', match o with Some b => b :: os | None => os end)
  end.

Definition admitted (os : list bool) : Z := llen (List.filter id os).

(** *** Lemmas *)

Lemma prune_fields c now :
  policy (prune c now) = policy c /\ state (prune c now) = state c /\
  openedAt (prune c now) = openedAt c /\ halfOpenInFlight (prune c now) = halfOpenInFlight c.
Proof. done. Qed.

Lemma refresh_policy c now : policy (refresh c now) = policy c.
Proof. unfold refresh. by case_match. Qed.

Lemma refresh_openedAt c now : openedAt (refresh c now) = openedAt c.
Proof. unfold refresh. by case_match. Qed.

Lemma refresh_outcomes c now : outcomes (refresh c now) = outcomes (prune c now).
Proof. unfold refresh. by case_match. Qed.

(** What [refresh] does to the state. *)
Lemma refresh_cases c now :
  (refresh c now = prune c now /\
   (state c = StateOpen -> is_zero (openedAt c) = true \/ sub now (openedAt c) < OpenDuration (policy c))) \/
  (state c = StateOpen /\ state (refresh c now) = StateHalfOpen /\ halfOpenInFlight (refresh c now) = 0).
Proof.
  unfold refresh. cbn [policy state openedAt halfOpenInFlight prune].
  destruct (bool_decide (state c = StateOpen)) eqn:Es; cbn [andb].
  2:{ left. split; [reflexivity|]. intros Hs. bprop. congruence. }
  destruct (is_zero (openedAt c)) eqn:Ez; cbn [negb andb].
  1:{ left. split; [reflexivity|]. intros _. by left. }
  destruct (OpenDuration (policy c) <=? sub now (openedAt c)) eqn:Ed.
  - right. bprop. auto.
  - left. split; [reflexivity|]. intros _. right. by apply Z.leb_gt.
Qed.

Lemma refresh_not_open c now : state c <> StateOpen -> refresh c now = prune c now.
Proof. intros Hne. destruct (refresh_cases c now) as [[? _] | [? _]]; [done | congruence]. Qed.

(** [refresh] keeps only outcomes of the window, and loses no other. *)
Lemma refresh_window c now o :
  o ∈ outcomes (refresh c now) <->
  o ∈ outcomes c /\ instant now - Window (policy c) <= instant (at_ o).
Proof.
  rewrite refresh_outcomes. cbn. rewrite list_elem_of_In, filter_In, <- list_elem_of_In.
  rewrite negb_true_iff, before_false. unfold add. cbn [instant].
  split; intros [? ?]; split; (done || lia).
Qed.

(** *** Probe accounting

    [probe_ok] holds of every circuit the code can build: the number of probes
    in flight never leaves [0 .. HalfOpenProbes]. *)
Definition probe_ok (c : Circuit) : Prop :=
  0 <= halfOpenInFlight c <= HalfOpenProbes (policy c).

Lemma refresh_probe_ok c now : 0 <= HalfOpenProbes (policy c) -> probe_ok c -> probe_ok (refresh c now).
Proof.
  unfold probe_ok. rewrite refresh_policy. intros Hp Hc.
  destruct (refresh_cases c now) as [[-> _] | (_ & _ & ->)]; [done | lia].
Qed.

Lemma Allow_probe_ok c now :
  0 <= HalfOpenProbes (policy c) -> probe_ok c -> probe_ok (fst (Allow c now)).
Proof.
  intros Hp Hc. pose proof (refresh_probe_ok c now Hp Hc) as Hr.
  unfold Allow, probe_ok in *. destruct (state (refresh c now)); try done.
  destruct (_ <=? _) eqn:E; bprop; cbn [fst policy halfOpenInFlight]; lia.
Qed.

Lemma Record_probe_ok c s now :
  0 <= HalfOpenProbes (policy c) -> probe_ok c -> probe_ok (fst (Record_ c s now)).
Proof.
  intros Hp Hc. pose proof (refresh_probe_ok c now Hp Hc) as Hr.
  unfold Record_, probe_ok in *.
  destruct (bool_decide (state (refresh c now) = StateOpen)); [done|].
  destruct (bool_decide (state (refresh c now) = StateHalfOpen)).
  - destruct (0 <? _) eqn:E, s; cbn [fst policy halfOpenInFlight]; bprop; lia.
  - destruct (shouldOpen _); cbn [fst policy halfOpenInFlight prune]; lia.
Qed.

Lemma Seed_probe_ok c s t now :
  0 <= HalfOpenProbes (policy c) -> probe_ok c -> probe_ok (Seed c s t now).
Proof.
  intros Hp Hc. pose proof (refresh_probe_ok c now Hp Hc) as Hr.
  unfold Seed, probe_ok in *. repeat case_match; cbn [policy halfOpenInFlight]; lia.
Qed.

Lemma run_call_policy c k : policy (fst (run_call c k)) = policy c.
Proof.
  destruct k as [n | n | s n | s t n]; cbn [run_call].
  - apply refresh_policy.
  - unfold Allow. pose proof (refresh_policy c n) as Hr.
    destruct (state (refresh c n)); try destruct (_ <=? _); exact Hr.
  - unfold Record_. pose proof (refresh_policy c n) as Hr.
    destruct (bool_decide _); [exact Hr|].
    destruct (bool_decide _); [by destruct s|].
    destruct (shouldOpen _); exact Hr.
  - unfold Seed. pose proof (refresh_policy c n) as Hr.
    destruct (_ && _); [done|]. destruct (_ && _); exact Hr.
Qed.

Lemma run_call_probe_ok c k :
  0 <= HalfOpenProbes (policy c) -> probe_ok c -> probe_ok (fst (run_call c k)).
Proof.
  intros Hp Hc. destruct k as [n | n | s n | s t n]; cbn [run_call].
  - by apply refresh_probe_ok.
  - pose proof (Allow_probe_ok c n Hp Hc). by destruct (Allow c n).
  - by apply Record_probe_ok.
  - by apply Seed_probe_ok.
Qed.

Lemma run_cons c k ks :
  run c (k :: ks) =
  (fst (run (fst (run_call c k)) ks),
   match snd (run_call c k) with
   | Some b => b :: snd (run (fst (run_call c k)) ks)
   | None => snd (run (fst (run_call c k)) ks)
   end).
Proof. cbn [run]. destruct (run_call c k) as [c' o]. cbn [fst snd]. by destruct (run c' ks). Qed.

Lemma run_probe_ok c ks :
  0 <= HalfOpenProbes (policy c) -> probe_ok c ->
  probe_ok (fst (run c ks)) /\ policy (fst (run c ks)) = policy c.
Proof.
  revert c. induction ks as [|k ks IH]; intros c Hp Hc; [done|].
  rewrite run_cons. cbn [fst]. rewrite <- (run_call_policy c k) in Hp |- *.
  apply IH; [done|]. apply run_call_probe_ok; [by rewrite <- (run_call_policy c k) | done].
Qed.

(** *** Open circuits *)

Lemma Validate_bounds p :
  Validate p = Ok () ->
  second <= Window p <= hour /\ 1 <= MinimumSamples p <= 1000 /\
  second <= OpenDuration p <= hour /\ 1 <= HalfOpenProbes p <= 32 /\
  SFleb (FailureRatio p) float64_zero = false.
Proof. unfold Validate. intros H. go_inv H. bprop. repeat split; (assumption || lia). Qed.

Lemma refresh_open_stays c now :
  OpenDuration (policy c) <= hour -> second <= OpenDuration (policy c) ->
  state c = StateOpen -> instant now - instant (openedAt c) < OpenDuration (policy c) ->
  refresh c now = prune c now.
Proof.
  intros Hh Hs Hopen Hlt. unfold refresh. cbn [policy openedAt prune].
  rewrite (sub_ge now (openedAt c)) by (unfold min_int64, max_int64, hour, minute, second in *; lia).
  rewrite (proj2 (Z.leb_gt _ _)) by lia. by rewrite !andb_false_r.
Qed.

(** The circuit is open, since [t]. *)
Definition open_since (t : Time) (c : Circuit) : Prop := state c = StateOpen /\ openedAt c = t.

Lemma run_call_open c t k :
  second <= OpenDuration (policy c) <= hour -> open_since t c ->
  instant (clock_of k) < instant t + OpenDuration (policy c) ->
  open_since t (fst (run_call c k)) /\ snd (run_call c k) <> Some true.
Proof.
  intros [Hs Hh] [Hopen Ht] Hk.
  assert (Hr : refresh c (clock_of k) = prune c (clock_of k)).
  { apply refresh_open_stays; try done. rewrite Ht. lia. }
  destruct k as [n | n | b n | s u n]; cbn [run_call clock_of] in *.
  - unfold State_. rewrite Hr. done.
  - unfold Allow. rewrite Hr. cbn [state prune]. rewrite Hopen. done.
  - unfold Record_. rewrite Hr. cbn [state prune]. by rewrite Hopen.
  - unfold Seed. rewrite Hr. cbn [state prune]. rewrite Hopen. by destruct (_ && _).
Qed.

Lemma run_open c t ks :
  second <= OpenDuration (policy c) <= hour -> open_since t c ->
  Forall (fun k => instant (clock_of k) < instant t + OpenDuration (policy c)) ks ->
  open_since t (fst (run c ks)) /\ Forall (fun b => b = false) (snd (run c ks)).
Proof.
  revert c. induction ks as [|k ks IH]; intros c Hd Ht Hks; [done|].
  inversion Hks as [|? ? Hk Hks']; subst.
  destruct (run_call_open c t k Hd Ht Hk) as [Ht' Hb].
  rewrite <- (run_call_policy c k) in Hd, Hks'.
  destruct (IH _ Hd Ht' Hks') as [IH1 IH2].
  rewrite run_cons. cbn [fst snd]. split; [done|].
  destruct (snd (run_call c k)) as [[]|]; [done | by constructor | done].
Qed.

(** In binary64, 0/n is +0, which is below every valid failure ratio. *)
Lemma zero_ratio_below ratio n :
  SFleb ratio float64_zero = false -> SFleb ratio (float64_div (float64_of_int 0) (float64_of_int n)) = false.
Proof.
  change (float64_of_int 0) with float64_zero. unfold float64_div, float64_zero. cbn [SFdiv].
  intros Hr. destruct (float64_of_int n) as [s | s | | s m e]; cbn [xorb]; try destruct s; try done.
  all: destruct ratio as [sr | sr | | sr mr er]; cbn in *; try destruct sr; done.
Qed.

(** *** Half-open circuits *)

Definition is_allow (k : call) : Prop := match k with CAllow _ => True | _ => False end.

Lemma Allow_half_open c now :
  state c = StateHalfOpen ->
  state (fst (Allow c now)) = StateHalfOpen /\
  halfOpenInFlight (fst (Allow c now)) = halfOpenInFlight c + (if snd (Allow c now) then 1 else 0) /\
  (snd (Allow c now) = true -> halfOpenInFlight c < HalfOpenProbes (policy c)).
Proof.
  intros Hh. unfold Allow. rewrite refresh_not_open by congruence. cbn [state prune policy halfOpenInFlight].
  rewrite Hh. destruct (_ <=? _) eqn:E; bprop; cbn [fst snd prune state halfOpenInFlight];
    repeat split; (done || lia).
Qed.

Lemma run_allows_bounded c ks :
  state c = StateHalfOpen -> Forall is_allow ks -> probe_ok c ->
  admitted (snd (run c ks)) <= HalfOpenProbes (policy c) - halfOpenInFlight c.
Proof.
  revert c. induction ks as [|k ks IH]; intros c Hh Hall Hc.
  - unfold probe_ok in Hc. cbn. unfold admitted, llen. cbn. lia.
  - inversion Hall as [|? ? Hk Hall']; subst. destruct k as [|n | |]; try done.
    pose proof (run_call_policy c (CAllow n)) as Hpol.
    pose proof (run_call_probe_ok c (CAllow n) ltac:(unfold probe_ok in Hc; lia) Hc) as Hc'.
    destruct (Allow_half_open c n Hh) as (Hh' & Hin & Hlt).
    rewrite run_cons. cbn [run_call] in *. destruct (Allow c n) as [c' b]. cbn [fst snd] in *.
    specialize (IH c' Hh' Hall' Hc'). rewrite Hpol in IH.
    destruct b; unfold admitted, llen in *; cbn [List.filter id length]; lia.
Qed.

End Circuit.

(** ** The bounded registry *)
Module Registry.
Section Registry.
Context {K : Type} `{Countable K}.

(** Circuits are shared by pointer: [heap] holds them, [circuits] is the map of
    the registry.  [next] is the allocator. *)
Abbreviation loc := nat.
Record World := mk_world {
  circuits : gmap K loc;
  heap : gmap loc Circuit;
  next : loc;
}.

Record Registry := mk_registry {
  r_policy : Policy;
  r_limit : Z;
  r_validKey : K -> bool;
}.

Definition NewRegistry (p : Policy) (limit : Z) (validKey : K -> bool) : result Error (Registry * World) :=
  reject negb (is_ok (Validate p)) || (limit <? 1) || (1000000 <? limit) with ErrInvalidConfiguration ;;
  Ok (mk_registry p limit validKey, mk_world ∅ ∅ 0%nat).

(** The loop of [evictOldest] over the map, in the unspecified iteration order
    [order] of Go: it refreshes every circuit and keeps the first one with the
    least opening time. *)
Fixpoint evict_scan (w : World) (now : Time) (order : list K) (best : option (K * Time)) : World * option (K * Time) :=
  match order with
  | [] => (w, best)
  | key :: rest =>
      match circuits w !! key with
      | None => evict_scan w now rest best
      | Some l =>
          match heap w !! l with
          | None => evict_scan w now rest best
          | Some c0 =>
              let c := Circuit.refresh c0 now in
              let w' := mk_world (circuits w) (<[l := c]> (heap w)) (next w) in
              let opened := if is_zero (openedAt c) then add now (- Window (policy c)) else openedAt c in
              let best' := match best with
                           | None => Some (key, opened)
                           | Some (k0, t0) => if before opened t0 then Some (key, opened) else Some (k0, t0)
                           end in
              evict_scan w' now rest best'
          end
      end
  end.

Definition evictOldest (w : World) (now : Time) (order : list K) : World :=
  let '(w', best) := evict_scan w now order None in
  match best with
  | Some (key, _) => mk_world (delete key (circuits w')) (heap w') (next w')
  | None => w'
  end.

(** [Breaker(key)]: [None] is the nil circuit of an invalid key. *)
Definition Breaker (r : Registry) (w : World) (key : K) (now : Time) (order : list K) : World * option loc :=
  if negb (r_validKey r key) then (w, None)
  else
    match circuits w !! key with
    | Some l =>
        (mk_world (circuits w) (alter (fun c => Circuit.refresh c now) l (heap w)) (next w), Some l)
    | None =>
        let w1 := if r_limit r <=? Z.of_nat (size (circuits w)) then evictOldest w now order else w in
        let l := next w1 in
        (mk_world (<[key := l]> (circuits w1)) (<[l := new_circuit (r_policy r)]> (heap w1)) (S l), Some l)
    end.

(** [State(key)]: does not create a circuit. *)
Definition RState (r : Registry) (w : World) (key : K) (now : Time) : World * (State * bool) :=
  if negb (r_validKey r key) then (w, (StateUnknown, false))
  else
    match circuits w !! key with
    | None => (w, (StateUnknown, false))
    | Some l =>
        match heap w !! l with
        | None => (w, (StateUnknown, false))
        | Some c =>
            let c' := Circuit.refresh c now in
            (mk_world (circuits w) (<[l := c']> (heap w)) (next w), (state c', true))
        end
    end.

(** [Seed(key, state, at)]: [Breaker] and then [Seed] on the circuit, each with
    its own clock reading. *)
Definition RSeed (r : Registry) (w : World) (key : K) (s : State) (t now now' : Time) (order : list K) : World :=
  if negb (r_validKey r key) || is_zero t then w
  else
    let '(w1, p) := Breaker r w key now order in
    match p with
    | None => w1
    | Some l => mk_world (circuits w1) (alter (fun c => Circuit.Seed c s t now') l (heap w1)) (next w1)
    end.

(** A call of the registry, or of a circuit pointer it handed out. *)
Inductive rcall :=
| RBreaker (key : K) (now : Time) (order : list K)
| RStateOf (key : K) (now : Time)
| RSeedOf (key : K) (s : State) (t now now' : Time) (order : list K)
| RCircuit (l : loc) (k : Circuit.call).

Definition rrun (r : Registry) (w : World) (k : rcall) : World :=
  match k with
  | RBreaker key now order => fst (Breaker r w key now order)
  | RStateOf key now => fst (RState r w key now)
  | RSeedOf key s t now now' order => RSeed r w key s t now now' order
  | RCircuit l c => mk_world (circuits w) (alter (fun x => fst (Circuit.run_call x c)) l (heap w)) (next w)
  end.

(** The iteration order the runtime picked lists the keys of the map. *)
Definition order_ok (w : World) (k : rcall) : Prop :=
  match k with
  | RBreaker _ _ order | RSeedOf _ _ _ _ _ order => order ≡ₚ (map_to_list (circuits w)).*1
  | _ => True
  end.

Inductive rstep (r : Registry) : World -> World -> Prop :=
| rstep_call w k : order_ok w k -> rstep r w (rrun r w k).

(** Every map entry points to a live circuit of the registry's policy, no two
    keys share one, and the registry is never over its limit. *)
Record registry_inv (r : Registry) (w : World) : Prop := {
  inv_size : Z.of_nat (size (circuits w)) <= r_limit r;
  inv_live : forall key l, circuits w !! key = Some l -> is_Some (heap w !! l);
  inv_distinct : forall k1 k2 l, circuits w !! k1 = Some l -> circuits w !! k2 = Some l -> k1 = k2;
  inv_fresh : forall l, (next w <= l)%nat -> heap w !! l = None;
  inv_policy : forall l c, heap w !! l = Some c -> policy c = r_policy r /\ Circuit.probe_ok c;
  inv_valid : forall key l, circuits w !! key = Some l -> r_validKey r key = true;
}.

(** *** Lemmas *)

(** The part of the invariant that does not depend on the size. *)
Record live_inv (r : Registry) (w : World) : Prop := {
  l_live : forall key l, circuits w !! key = Some l -> is_Some (heap w !! l);
  l_distinct : forall k1 k2 l, circuits w !! k1 = Some l -> circuits w !! k2 = Some l -> k1 = k2;
  l_fresh : forall l, (next w <= l)%nat -> heap w !! l = None;
  l_policy : forall l c, heap w !! l = Some c -> policy c = r_policy r /\ Circuit.probe_ok c;
  l_valid : forall key l, circuits w !! key = Some l -> r_validKey r key = true;
}.

Lemma registry_inv_split r w :
  registry_inv r w <-> Z.of_nat (size (circuits w)) <= r_limit r /\ live_inv r w.
Proof. split; [intros []; split; [done | by constructor] | intros [? []]; by constructor]. Qed.

(** Rewriting one live circuit by a policy- and probe-preserving function. *)
Definition circuit_update (r : Registry) (f : Circuit -> Circuit) : Prop :=
  forall c, policy c = r_policy r -> Circuit.probe_ok c -> policy (f c) = r_policy r /\ Circuit.probe_ok (f c).

Lemma live_inv_alter r w f l :
  circuit_update r f -> live_inv r w -> live_inv r (mk_world (circuits w) (alter f l (heap w)) (next w)).
Proof.
  intros Hf [Hl Hd Hn Hp Hv]. constructor; cbn.
  - intros key l' Hk. destruct (Hl key l' Hk) as [c Hc]. rewrite lookup_alter_is_Some. by exists c.
  - done.
  - intros l' Hle. rewrite lookup_alter_None. auto.
  - intros l' c. rewrite lookup_alter. case_decide as E; [subst | by apply Hp].
    intros (c0 & Hc0 & ->)%fmap_Some. destruct (Hp _ _ Hc0). by apply Hf.
  - done.
Qed.

Lemma refresh_update r now : 0 <= HalfOpenProbes (r_policy r) -> circuit_update r (fun c => Circuit.refresh c now).
Proof.
  intros Hr c Hc Hp. rewrite Circuit.refresh_policy. split; [done|].
  apply Circuit.refresh_probe_ok; [by rewrite Hc | done].
Qed.

Lemma call_update r k : 0 <= HalfOpenProbes (r_policy r) -> circuit_update r (fun c => fst (Circuit.run_call c k)).
Proof.
  intros Hr c Hc Hp. rewrite Circuit.run_call_policy. split; [done|].
  apply Circuit.run_call_probe_ok; [by rewrite Hc | done].
Qed.

Lemma evict_scan_inv r now order w best :
  0 <= HalfOpenProbes (r_policy r) -> live_inv r w ->
  let w' := fst (evict_scan w now order best) in
  live_inv r w' /\ circuits w' = circuits w /\ next w' = next w.
Proof.
  intros Hr. revert w best. induction order as [|key rest IH]; intros w best Hw; cbn; [done|].
  destruct (circuits w !! key) as [l|]; [|by apply IH].
  destruct (heap w !! l) as [c|] eqn:Hc; [|by apply IH].
  assert (Heq : <[l := Circuit.refresh c now]> (heap w) = alter (fun c => Circuit.refresh c now) l (heap w)).
  { apply map_eq. intros i. rewrite lookup_insert, lookup_alter. case_decide; [subst|done]. by rewrite Hc. }
  rewrite Heq. set (w1 := mk_world _ _ _).
  assert (Hw1 : live_inv r w1) by (apply live_inv_alter; [by apply refresh_update | done]).
  set (best1 := match best with Some _ => _ | None => _ end).
  destruct (IH w1 best1 Hw1) as (H1 & H2 & H3). done.
Qed.

(** The key the scan selects is in the map; when the scan sees a live key it
    selects one. *)
Lemma evict_scan_key r now order w best :
  0 <= HalfOpenProbes (r_policy r) -> live_inv r w ->
  (forall k t, best = Some (k, t) -> is_Some (circuits w !! k)) ->
  (forall k t, snd (evict_scan w now order best) = Some (k, t) -> is_Some (circuits w !! k)) /\
  ((exists k, k ∈ order /\ is_Some (circuits w !! k)) \/ is_Some best ->
   is_Some (snd (evict_scan w now order best))).
Proof.
  intros Hr. revert w best. induction order as [|key rest IH]; intros w best Hw Hbest; cbn.
  - split; [done|]. intros [(k & Hk & _) | ?]; [by apply not_elem_of_nil in Hk | done].
  - destruct (circuits w !! key) as [l|] eqn:Hkey.
    2:{ destruct (IH w best Hw Hbest) as [IH1 IH2]. split; [done|].
        intros [(k & [->|Hk]%elem_of_cons & Hs) | Hs]; apply IH2; eauto.
        rewrite Hkey in Hs. by destruct Hs. }
    destruct (l_live r w Hw key l Hkey) as [c Hc]. rewrite Hc.
    assert (Heq : <[l := Circuit.refresh c now]> (heap w) = alter (fun c => Circuit.refresh c now) l (heap w)).
    { apply map_eq. intros i. rewrite lookup_insert, lookup_alter. case_decide; [subst|done]. by rewrite Hc. }
    rewrite Heq. set (w1 := mk_world _ _ _).
    assert (Hw1 : live_inv r w1) by (apply live_inv_alter; [by apply refresh_update | done]).
    set (best1 := match best with Some _ => _ | None => _ end).
    assert (Hb1 : forall k t, best1 = Some (k, t) -> is_Some (circuits w1 !! k)).
    { intros k t. unfold best1. destruct best as [[k0 t0]|].
      - case_match; intros [= <- <-]; [cbn; by rewrite Hkey | by eapply (Hbest k0)].
      - intros [= <- <-]. cbn. by rewrite Hkey. }
    destruct (IH w1 best1 Hw1 Hb1) as [IH1 IH2]. split; [done|].
    intros _. apply IH2. right. unfold best1. destruct best as [[k0 t0]|]; [case_match|]; done.
Qed.

Lemma live_inv_delete r w key :
  live_inv r w -> live_inv r (mk_world (delete key (circuits w)) (heap w) (next w)).
Proof.
  intros [Hl Hd Hn Hp Hv]. constructor; cbn; try done.
  - intros k l Hk%lookup_delete_Some. naive_solver.
  - intros k1 k2 l Hk1%lookup_delete_Some Hk2%lookup_delete_Some. naive_solver.
  - intros k l Hk%lookup_delete_Some. naive_solver.
Qed.

Lemma live_inv_new r w key :
  0 <= HalfOpenProbes (r_policy r) -> r_validKey r key = true ->
  live_inv r w ->
  live_inv r (mk_world (<[key := next w]> (circuits w)) (<[next w := new_circuit (r_policy r)]> (heap w)) (S (next w))).
Proof.
  intros Hr Hk [Hl Hd Hn Hp Hv]. constructor; cbn.
  - intros k l. rewrite lookup_insert. case_decide.
    + intros [= <-]. rewrite lookup_insert_eq. done.
    + intros (c & Hc)%Hl. rewrite lookup_insert. case_decide; done.
  - intros k1 k2 l. rewrite !lookup_insert. repeat case_decide; subst; try done.
    + intros [= <-] (c & Hc)%Hl. rewrite Hn in Hc by lia. done.
    + intros (c & Hc)%Hl [= <-]. rewrite Hn in Hc by lia. done.
    + apply Hd.
  - intros l Hle. rewrite lookup_insert_ne by lia. apply Hn. lia.
  - intros l c. rewrite lookup_insert. case_decide; [|by apply Hp].
    intros [= <-]. split; [done|]. unfold Circuit.probe_ok. cbn. lia.
  - intros k l. rewrite lookup_insert. case_decide; [by subst | by apply Hv].
Qed.

(** The age the eviction compares: circuits that never opened count as opened
    one window ago. *)
Definition opened_at (now : Time) (c : Circuit) : Time :=
  if is_zero (openedAt c) then add now (- Window (policy c)) else openedAt c.

Lemma opened_at_refresh now c : opened_at now (Circuit.refresh c now) = opened_at now c.
Proof. unfold opened_at. by rewrite Circuit.refresh_openedAt, Circuit.refresh_policy. Qed.

(** The selected opening time is a lower bound of the scanned ones. *)
Lemma evict_scan_least now order w best k t :
  snd (evict_scan w now order best) = Some (k, t) ->
  (forall k0 t0, best = Some (k0, t0) -> instant t <= instant t0) /\
  (forall key l c, key ∈ order -> circuits w !! key = Some l -> heap w !! l = Some c ->
     instant t <= instant (opened_at now c)).
Proof.
  revert w best. induction order as [|key rest IH]; intros w best; cbn.
  - intros ->. split; [by intros ? ? [= -> ->] | by intros ? ? ? ?%not_elem_of_nil].
  - destruct (circuits w !! key) as [l|] eqn:Hkey.
    2:{ intros (IH1 & IH2)%IH. split; [done|].
        intros k' l' c' [->|Hin]%elem_of_cons; [congruence | by apply IH2]. }
    destruct (heap w !! l) as [c|] eqn:Hc.
    2:{ intros (IH1 & IH2)%IH. split; [done|].
        intros k' l' c' [->|Hin]%elem_of_cons; [congruence | by apply IH2]. }
    change (if is_zero (openedAt (Circuit.refresh c now)) then _ else _)
      with (opened_at now (Circuit.refresh c now)).
    rewrite opened_at_refresh. intros (IH1 & IH2)%IH. clear IH.
    assert (Hrest : forall key' l' c', key' ∈ rest -> circuits w !! key' = Some l' ->
              heap w !! l' = Some c' -> instant t <= instant (opened_at now c')).
    { intros key' l' c' Hin Hk' Hc'. destruct (decide (l' = l)) as [->|Hne].
      - rewrite Hc in Hc'. injection Hc' as <-.
        rewrite <- (opened_at_refresh now c). eapply (IH2 key' l); [done | done|].
        cbn. by rewrite lookup_insert_eq.
      - eapply (IH2 key' l'); [done | done|]. cbn. by rewrite lookup_insert_ne. }
    split.
    + intros k0 t0 ->. cbn in IH1. destruct (before _ t0) eqn:E; bprop.
      * apply before_true in E. specialize (IH1 _ _ eq_refl). lia.
      * by eapply IH1.
    + intros key' l' c' [->|Hin]%elem_of_cons Hk' Hc'; [|by eapply Hrest].
      rewrite Hkey in Hk'. injection Hk' as <-. rewrite Hc in Hc'. injection Hc' as <-.
      destruct best as [[k0 t0]|]; [|by eapply IH1].
      destruct (before (opened_at now c) t0) eqn:E; [by eapply IH1|].
      apply before_false in E. specialize (IH1 _ _ eq_refl). lia.
Qed.

(** The time kept with the selected key is its own. *)
Lemma evict_scan_time now order w best k t :
  snd (evict_scan w now order best) = Some (k, t) ->
  best = Some (k, t) \/
  exists l c, circuits w !! k = Some l /\ heap w !! l = Some c /\ instant (opened_at now c) = instant t.
Proof.
  revert w best. induction order as [|key rest IH]; intros w best; cbn; [by left|].
  destruct (circuits w !! key) as [l|] eqn:Hkey; [|apply IH].
  destruct (heap w !! l) as [c|] eqn:Hc; [|apply IH].
  change (if is_zero (openedAt (Circuit.refresh c now)) then _ else _)
    with (opened_at now (Circuit.refresh c now)).
  rewrite opened_at_refresh. intros [Hb | (l' & c' & Hl' & Hc' & Ht)]%IH.
  - destruct best as [[k0 t0]|]; [destruct (before _ t0)|]; [| by left |];
      injection Hb as <- <-; right; eauto.
  - right. cbn in Hl', Hc'. rewrite lookup_insert in Hc'. exists l'. case_decide; [subst l'|by exists c'].
    injection Hc' as <-. exists c. rewrite opened_at_refresh in Ht. done.
Qed.

Lemma evictOldest_inv r w now order :
  0 <= HalfOpenProbes (r_policy r) -> live_inv r w -> order ≡ₚ (map_to_list (circuits w)).*1 ->
  circuits w <> ∅ ->
  exists key, is_Some (circuits w !! key) /\ live_inv r (evictOldest w now order) /\
    circuits (evictOldest w now order) = delete key (circuits w) /\
    next (evictOldest w now order) = next w.
Proof.
  intros Hr Hw Hord Hne. unfold evictOldest.
  destruct (evict_scan_inv r now order w None Hr Hw) as (Hw' & Hcirc & Hnext).
  destruct (evict_scan_key r now order w None Hr Hw ltac:(done)) as [Hin Hsome].
  destruct (map_choose _ Hne) as (k0 & l0 & Hk0).
  assert (Hex : is_Some (snd (evict_scan w now order None))).
  { apply Hsome. left. exists k0. split; [|by rewrite Hk0].
    rewrite Hord. apply list_elem_of_fmap. exists (k0, l0). split; [done|].
    by apply elem_of_map_to_list. }
  destruct (evict_scan w now order None) as [w' best] eqn:E. cbn [fst snd] in *.
  destruct Hex as [[key t] ->]. exists key. cbn [circuits next]. rewrite Hcirc, Hnext.
  split; [by eapply Hin|]. split; [|done].
  rewrite <- Hcirc, <- Hnext. by apply live_inv_delete.
Qed.

Lemma Breaker_inv r w key now order :
  0 <= HalfOpenProbes (r_policy r) -> 1 <= r_limit r -> registry_inv r w ->
  order ≡ₚ (map_to_list (circuits w)).*1 ->
  registry_inv r (fst (Breaker r w key now order)).
Proof.
  rewrite !registry_inv_split. intros Hr Hlim [Hsz Hw] Hord. unfold Breaker.
  destruct (r_validKey r key) eqn:Hk; cbn [negb]; [|done].
  destruct (circuits w !! key) as [l|] eqn:Hkey.
  { split; [done|]. apply live_inv_alter; [by apply refresh_update | done]. }
  cbn [fst circuits]. set (w1 := if _ <=? _ then _ else _).
  assert (H1 : live_inv r w1 /\ Z.of_nat (size (circuits w1)) < r_limit r /\ circuits w1 !! key = None).
  { unfold w1. destruct (_ <=? _) eqn:E; bprop; [|done].
    assert (circuits w <> ∅) as Hne by (intros Hz; rewrite Hz, map_size_empty in E; lia).
    destruct (evictOldest_inv r w now order Hr Hw Hord Hne) as (k0 & [l0 Hk0] & Hinv & Hc & _).
    split; [done|]. rewrite Hc. split.
    - rewrite map_size_delete, Hk0. cbn. pose proof (map_size_ne_0_lookup_2 (circuits w) k0 ltac:(done)). lia.
    - rewrite lookup_delete_None. by right. }
  destruct H1 as (Hinv & Hlt & Hnone). split.
  - rewrite map_size_insert, Hnone. cbn [is_Some]. lia.
  - by apply live_inv_new.
Qed.

Lemma registry_inv_empty r : 0 <= r_limit r -> registry_inv r (mk_world ∅ ∅ 0%nat).
Proof. intros Hl. by constructor. Qed.

Lemma Seed_update r s t now : 0 <= HalfOpenProbes (r_policy r) -> circuit_update r (fun c => Circuit.Seed c s t now).
Proof. intros Hr. exact (call_update r (Circuit.CSeed s t now) Hr). Qed.

Lemma rrun_inv r w k :
  0 <= HalfOpenProbes (r_policy r) -> 1 <= r_limit r -> order_ok w k ->
  registry_inv r w -> registry_inv r (rrun r w k).
Proof.
  intros Hr Hlim Hord Hw. destruct k as [key now order | key now | key s t now now' order | l c]; cbn in *.
  - by apply Breaker_inv.
  - unfold RState. destruct (r_validKey r key); cbn; [|done].
    destruct (circuits w !! key) as [l|]; [|done]. destruct (heap w !! l) as [c|] eqn:Hc; [|done].
    apply registry_inv_split in Hw as [Hsz Hw]. apply registry_inv_split. split; [done|].
    replace (<[l := Circuit.refresh c now]> (heap w)) with (alter (fun c => Circuit.refresh c now) l (heap w)).
    + apply live_inv_alter; [by apply refresh_update | done].
    + apply map_eq. intros i. rewrite lookup_insert, lookup_alter. case_decide; [subst|done]. by rewrite Hc.
  - unfold RSeed. destruct (_ || _); [done|].
    pose proof (Breaker_inv r w key now order Hr Hlim Hw Hord) as Hb.
    destruct (Breaker r w key now order) as [w1 [l|]]; cbn [fst] in Hb; [|done].
    apply registry_inv_split in Hb as [Hsz Hb]. apply registry_inv_split. split; [done|].
    apply live_inv_alter; [by apply Seed_update | done].
  - apply registry_inv_split in Hw as [Hsz Hw]. apply registry_inv_split. split; [done|].
    apply live_inv_alter; [by apply call_update | done].
Qed.

(** The evicted key, and why it is an oldest one. *)
Lemma evictOldest_least r w now order :
  0 <= HalfOpenProbes (r_policy r) -> live_inv r w -> order ≡ₚ (map_to_list (circuits w)).*1 ->
  circuits w <> ∅ ->
  exists old lo co, circuits w !! old = Some lo /\ heap w !! lo = Some co /\
    circuits (evictOldest w now order) = delete old (circuits w) /\
    forall k lk ck, circuits w !! k = Some lk -> heap w !! lk = Some ck ->
      instant (opened_at now co) <= instant (opened_at now ck).
Proof.
  intros Hr Hw Hord Hne. unfold evictOldest.
  destruct (evict_scan_inv r now order w None Hr Hw) as (_ & Hcirc & _).
  destruct (evict_scan_key r now order w None Hr Hw ltac:(done)) as [Hin Hsome].
  assert (Hall : forall k l, circuits w !! k = Some l -> k ∈ order).
  { intros k l Hk. rewrite Hord. apply list_elem_of_fmap. exists (k, l). split; [done|].
    by apply elem_of_map_to_list. }
  destruct (map_choose _ Hne) as (k0 & l0 & Hk0).
  assert (Hex : is_Some (snd (evict_scan w now order None))) by (apply Hsome; left; eauto).
  destruct Hex as [[old t] Hbest].
  destruct (evict_scan_least now order w None old t Hbest) as [_ Hle].
  destruct (evict_scan_time now order w None old t Hbest) as [?|(lo & co & Ho & Hc & Ht)]; [done|].
  destruct (evict_scan w now order None) as [w' best] eqn:E. cbn [fst snd] in *. subst best.
  exists old, lo, co. cbn [circuits]. rewrite Hcirc. split_and!; try done.
  intros k lk ck Hk Hck. rewrite Ht. eauto.
Qed.
End Registry.
Arguments World K {_ _}.
Arguments Registry K : clear implicits.
End Registry.

(** ** Properties *)
Module BreakerSpec.
Import Circuit Registry.

(** C17: an open circuit fails fast.  Whatever calls are made, in whatever
    order, as long as every clock reading is earlier than the opening time plus
    the open duration, the circuit stays open since that time and [Allow]
    answers false every time. *)
Theorem open_fails_fast (c : Circuit) (t : Time) (ks : list call)
    (Hpolicy : Validate (policy c) = Ok ()) (Hopen : state c = StateOpen /\ openedAt c = t)
    (Hclock : Forall (fun k => instant (clock_of k) < instant t + OpenDuration (policy c)) ks) :
  (state (fst (run c ks)) = StateOpen /\ openedAt (fst (run c ks)) = t) /\
  Forall (fun b => b = false) (snd (run c ks)).
Proof.
  apply Validate_bounds in Hpolicy as (_ & _ & Hd & _ & _).
  by apply (run_open c t ks).
Qed.

(** Probes are bounded.  In any circuit reached from a fresh one by any
    calls, a half-open circuit admits at most [HalfOpenProbes] operations
    (less the probes already in flight) before one of them records. *)
Theorem half_open_probes_bounded (p : Policy) (ks allows : list call)
    (Hpolicy : Validate p = Ok ())
    (Hhalf : state (fst (run (new_circuit p) ks)) = StateHalfOpen)
    (Hallows : Forall is_allow allows) :
  let c := fst (run (new_circuit p) ks) in
  0 <= halfOpenInFlight c /\
  admitted (snd (run c allows)) <= HalfOpenProbes p - halfOpenInFlight c.
Proof.
  apply Validate_bounds in Hpolicy as (_ & _ & _ & Hp & _). intros c.
  destruct (run_probe_ok (new_circuit p) ks) as [Hok Hpol]; [cbn; lia | split; cbn; lia |].
  fold c in Hok, Hpol, Hhalf. change (policy (new_circuit p)) with p in Hpol.
  split; [apply Hok|]. rewrite <- Hpol. by apply run_allows_bounded.
Qed.

(** Recovery.  An open circuit whose open duration has elapsed admits the
    next operation as its first probe, and the outcome of that probe decides:
    success closes the circuit and forgets the recorded outcomes, failure opens
    it again from the time of the recording. *)
Theorem elapsed_circuit_probes (c : Circuit) (now later : Time)
    (Hpolicy : Validate (policy c) = Ok ()) (Hopen : state c = StateOpen)
    (Hseen : is_zero (openedAt c) = false)
    (Helapsed : OpenDuration (policy c) <= instant now - instant (openedAt c)) :
  let c' := fst (Allow c now) in
  snd (Allow c now) = true /\ state c' = StateHalfOpen /\ halfOpenInFlight c' = 1 /\
  (let '(closed, tr) := Record_ c' true later in
   state closed = StateClosed /\ outcomes closed = [] /\ halfOpenInFlight closed = 0 /\
   From tr = StateHalfOpen /\ To tr = StateClosed /\ Changed tr = true) /\
  (let '(reopened, tr) := Record_ c' false later in
   state reopened = StateOpen /\ openedAt reopened = later /\ halfOpenInFlight reopened = 0 /\
   From tr = StateHalfOpen /\ To tr = StateOpen /\ Changed tr = true).
Proof.
  apply Validate_bounds in Hpolicy as (_ & _ & Hd & Hp & _).
  assert (Hr : refresh c now = mk_circuit (policy c) StateHalfOpen (openedAt c) 0 (outcomes (prune c now))).
  { unfold refresh. cbn [policy state openedAt prune].
    rewrite (bool_decide_eq_true_2 _ Hopen), Hseen, sub_ge by (unfold min_int64, max_int64, hour, minute, second in *; lia).
    by rewrite (proj2 (Z.leb_le _ _) Helapsed). }
  assert (Ha : Allow c now = (mk_circuit (policy c) StateHalfOpen (openedAt c) 1 (outcomes (prune c now)), true)).
  { unfold Allow. rewrite Hr. cbn [state policy halfOpenInFlight openedAt outcomes].
    by rewrite (proj2 (Z.leb_gt _ _)) by lia. }
  rewrite Ha. cbn [fst snd]. split_and!; try done.
Qed.

(** The threshold.  Recording on a closed circuit opens it, at the time of
    the recording, exactly when the outcomes still inside the window together
    with the new one reach [MinimumSamples] and their binary64 failure ratio
    reaches [FailureRatio]. *)
Theorem closed_record_opens_iff (c : Circuit) (ok : bool) (now : Time)
    (Hpolicy : Validate (policy c) = Ok ()) (Hclosed : state c = StateClosed) :
  let kept := List.filter (fun o => negb (before (at_ o) (add now (- Window (policy c))))) (outcomes c)
              ++ [mk_outcome now ok] in
  let c' := fst (Record_ c ok now) in
  outcomes c' = kept /\
  (state c' = StateOpen <->
     MinimumSamples (policy c) <= llen kept /\
     SFleb (FailureRatio (policy c))
       (float64_div (float64_of_int (failures kept)) (float64_of_int (llen kept))) = true) /\
  (state c' = StateOpen -> openedAt c' = now) /\ (state c' <> StateOpen -> state c' = StateClosed).
Proof.
  apply Validate_bounds in Hpolicy as (Hw & _ & _ & _ & _). intros kept c'.
  assert (Hk : outcomes (prune (mk_circuit (policy c) (state c) (openedAt c) (halfOpenInFlight c)
                 (outcomes (prune c now) ++ [mk_outcome now ok])) now) = kept).
  { cbn [outcomes prune policy]. unfold kept. rewrite List.filter_app. f_equal.
    - rewrite filter_filter_id. done.
    - cbn [List.filter at_]. rewrite (proj2 (before_false now _)); [done|].
      unfold add. cbn [instant]. unfold second in *. lia. }
  unfold c', Record_. rewrite refresh_not_open by congruence.
  cbn [state prune policy openedAt halfOpenInFlight]. rewrite Hclosed. cbn [bool_decide decide_rel].
  rewrite !bool_decide_eq_false_2 by done.
  unfold shouldOpen. cbn [policy state openedAt halfOpenInFlight].
  rewrite <- Hclosed, Hk. cbn [policy prune].
  destruct (llen kept <? MinimumSamples (policy c)) eqn:E; bprop; cbn [fst].
  { rewrite Hk. cbn [state prune]. rewrite Hclosed. split_and!; try done. split; [done | lia]. }
  destruct (SFleb _ _) eqn:Er; cbn [fst]; rewrite ?Hk; cbn [state prune outcomes openedAt]; rewrite ?Hk.
  - split_and!; try done.
  - rewrite Hclosed. split_and!; try done. by split; [| intros []].
Qed.

(** A window without failures never opens the circuit: the outcome [true]
    recorded on a closed circuit whose retained outcomes all succeeded leaves it
    closed, for every valid policy (the ratio is 0/n in binary64). *)
Theorem successes_never_open (c : Circuit) (now : Time)
    (Hpolicy : Validate (policy c) = Ok ()) (Hclosed : state c = StateClosed)
    (Hok : Forall (fun o => success o = true) (outcomes c)) :
  state (fst (Record_ c true now)) = StateClosed /\ Changed (snd (Record_ c true now)) = false.
Proof.
  apply Validate_bounds in Hpolicy as (_ & _ & _ & _ & Hratio).
  unfold Record_. rewrite refresh_not_open by congruence. cbn [state prune policy openedAt halfOpenInFlight].
  rewrite Hclosed. rewrite !bool_decide_eq_false_2 by done.
  set (c1 := prune _ now).
  assert (Hf : failures (outcomes c1) = 0).
  { unfold failures. rewrite (Forall_filter_nil _ (outcomes c1)); [done|].
    apply Forall_forall. intros o Ho.
    assert (Hin : o ∈ outcomes c ++ [mk_outcome now true]).
    { unfold c1 in Ho. cbn [outcomes prune] in Ho.
      apply list_elem_of_In, filter_In in Ho as [[Ho | Ho]%in_app_iff _];
        apply elem_of_app; [left | right]; apply list_elem_of_In; [by apply filter_In in Ho as [Ho _] | done]. }
    apply elem_of_app in Hin as [Hin | ->%list_elem_of_singleton]; [|done].
    rewrite Forall_forall in Hok. by rewrite (Hok o Hin). }
  assert (Hs : shouldOpen c1 = false).
  { unfold shouldOpen. destruct (_ <? _) eqn:E; bprop; [done|]. rewrite Hf.
    by apply zero_ratio_below. }
  rewrite Hs. done.
Qed.

(** The registry stays within its limit.  From a new registry, after any
    calls on it and on the circuits it handed out, with every map iteration in
    any order, the map holds at most [limit] circuits, each under a valid key,
    each key has its own live circuit, and every circuit (evicted ones
    included) keeps the registry's policy and its probe bound. *)
Theorem registry_bounded {K : Type} `{Countable K} (p : Policy) (limit : Z) (validKey : K -> bool)
    (r : Registry K) (w0 w : World K)
    (Hnew : NewRegistry p limit validKey = Ok (r, w0)) (Hrun : steps (rstep r) w0 w) :
  registry_inv r w /\ r_limit r = limit /\ r_policy r = p.
Proof.
  unfold NewRegistry in Hnew. go_inv Hnew. bprop.
  assert (Hv : Validate p = Ok ()) by (destruct (Validate p) as [[]|]; done).
  apply Validate_bounds in Hv as (_ & _ & _ & Hp & _).
  split; [|done].
  refine (steps_invariant _ (registry_inv (mk_registry p limit validKey)) _ _ _ _ Hrun).
  - intros x y Hx Hstep. destruct Hstep as [w' k Hk].
    apply rrun_inv; [cbn; lia | cbn; lia | done | done].
  - apply registry_inv_empty. cbn. lia.
Qed.

(** Lookup and eviction.  For a valid key [Breaker] hands out the circuit
    the map already holds, refreshed; for a new key a fresh closed circuit, and
    when the registry is full the evicted key is one whose circuit opened no
    later than any other (never-opened circuits count as opened one window
    ago), while every other key keeps its pointer. *)
Theorem breaker_lookup_or_evict {K : Type} `{Countable K} (r : Registry K) (w : World K) (key : K)
    (now : Time) (order : list K)
    (Hpolicy : Validate (r_policy r) = Ok ()) (Hlimit : 1 <= r_limit r) (Hinv : registry_inv r w)
    (Horder : order ≡ₚ (map_to_list (circuits w)).*1) (Hvalid : r_validKey r key = true) :
  let '(w', ptr) := Breaker r w key now order in
  match circuits w !! key with
  | Some l => ptr = Some l /\ circuits w' = circuits w /\
              heap w' !! l = (fun c => refresh c now) <$> heap w !! l
  | None =>
      exists l, ptr = Some l /\ circuits w' !! key = Some l /\ heap w' !! l = Some (new_circuit (r_policy r)) /\
        (Z.of_nat (size (circuits w)) < r_limit r /\ circuits w' = <[key := l]> (circuits w) \/
         r_limit r <= Z.of_nat (size (circuits w)) /\
         exists old lo co, circuits w !! old = Some lo /\ heap w !! lo = Some co /\
           circuits w' = <[key := l]> (delete old (circuits w)) /\
           forall k lk ck, circuits w !! k = Some lk -> heap w !! lk = Some ck ->
             instant (opened_at now co) <= instant (opened_at now ck))
  end.
Proof.
  apply Validate_bounds in Hpolicy as (_ & _ & _ & Hp & _).
  apply registry_inv_split in Hinv as [Hsz Hw].
  unfold Breaker. rewrite Hvalid. cbn [negb].
  destruct (circuits w !! key) as [l|] eqn:Hkey.
  { split_and!; [done | done |]. cbn [heap]. rewrite lookup_alter. by case_decide. }
  destruct (_ <=? _) eqn:E; bprop; cbn [circuits heap].
  - assert (circuits w <> ∅) as Hne by (intros Hz; rewrite Hz, map_size_empty in E; lia).
    destruct (evictOldest_least r w now order ltac:(lia) Hw Horder Hne) as (old & lo & co & Ho & Hc & Hcirc & Hle).
    eexists. split_and!; [done | by rewrite lookup_insert_eq.. |]. right. split; [done|].
    exists old, lo, co. rewrite Hcirc. done.
  - eexists. split_and!; [done | by rewrite lookup_insert_eq.. |]. by left.
Qed.

(** *** Witnesses *)

Definition at_second (n : Z) : Time := mk_time (1000000 * second + n * second) true.
Definition open_circuit : Circuit := mk_circuit DefaultPolicy StateOpen (at_second 0) 0 [].
Definition tripped : list call :=
  [CRecord true (at_second 1); CRecord true (at_second 2); CRecord false (at_second 3); CRecord false (at_second 4)].
Definition one_slot : Registry string := mk_registry DefaultPolicy 1 (fun _ => true).

Lemma open_fails_fast_witness :
  (state (fst (run open_circuit [CAllow (at_second 1); CRecord true (at_second 2); CAllow (at_second 29)])) = StateOpen /\
   openedAt (fst (run open_circuit [CAllow (at_second 1); CRecord true (at_second 2); CAllow (at_second 29)])) = at_second 0) /\
  Forall (fun b => b = false) (snd (run open_circuit [CAllow (at_second 1); CRecord true (at_second 2); CAllow (at_second 29)])).
Proof. apply open_fails_fast; [reflexivity | split; reflexivity | repeat constructor]. Defined.

Lemma half_open_probes_bounded_witness :
  let c := fst (run (new_circuit DefaultPolicy) (tripped ++ [CState (at_second 40)])) in
  0 <= halfOpenInFlight c /\
  admitted (snd (run c [CAllow (at_second 41); CAllow (at_second 42)])) <= 1 - halfOpenInFlight c.
Proof.
  apply (half_open_probes_bounded DefaultPolicy (tripped ++ [CState (at_second 40)])
           [CAllow (at_second 41); CAllow (at_second 42)]);
    [reflexivity | vm_compute; reflexivity | repeat constructor].
Defined.

Lemma elapsed_circuit_probes_witness :
  snd (Allow open_circuit (at_second 30)) = true /\ Validate (policy open_circuit) = Ok ().
Proof.
  split; [| reflexivity].
  refine (proj1 (elapsed_circuit_probes open_circuit (at_second 30) (at_second 31) _ _ _ _));
    [reflexivity | reflexivity | reflexivity | vm_compute; discriminate].
Defined.

Lemma closed_record_opens_iff_witness :
  state (fst (Record_ (fst (run (new_circuit DefaultPolicy) (take 3 tripped))) false (at_second 4))) = StateOpen.
Proof.
  refine (proj2 (proj1 (proj2 (closed_record_opens_iff
            (fst (run (new_circuit DefaultPolicy) (take 3 tripped))) false (at_second 4) _ _))) _);
    [vm_compute; reflexivity | vm_compute; reflexivity |
     split; [vm_compute; discriminate | vm_compute; reflexivity]].
Defined.

Lemma successes_never_open_witness :
  state (fst (Record_ (fst (run (new_circuit DefaultPolicy) (take 2 tripped))) true (at_second 4))) = StateClosed /\
  Changed (snd (Record_ (fst (run (new_circuit DefaultPolicy) (take 2 tripped))) true (at_second 4))) = false.
Proof.
  apply successes_never_open; [reflexivity | vm_compute; reflexivity |].
  vm_compute. repeat constructor.
Defined.

Lemma registry_bounded_witness :
  registry_inv one_slot
    (rrun one_slot (rrun one_slot (mk_world ∅ ∅ 0%nat) (RBreaker "a"%string (at_second 1) [])) (RBreaker "b"%string (at_second 2) ["a"%string])) /\
  r_limit one_slot = 1 /\ r_policy one_slot = DefaultPolicy.
Proof.
  apply (registry_bounded DefaultPolicy 1 (fun _ => true) one_slot (mk_world ∅ ∅ 0%nat)).
  - reflexivity.
  - eapply steps_cons; [apply (rstep_call one_slot _ (RBreaker "a"%string (at_second 1) [])); vm_compute; reflexivity|].
    eapply steps_cons; [| apply steps_refl].
    apply (rstep_call one_slot _ (RBreaker "b"%string (at_second 2) ["a"%string])); vm_compute; reflexivity.
Defined.

Definition full_world : World string :=
  rrun one_slot (mk_world ∅ ∅ 0%nat) (RBreaker "a"%string (at_second 1) []).

Lemma breaker_lookup_or_evict_witness :
  circuits full_world !! "b"%string = None /\ r_limit one_slot <= Z.of_nat (size (circuits full_world)) /\
  let '(w', ptr) := Breaker one_slot full_world "b"%string (at_second 2) ["a"%string] in
  exists l, ptr = Some l /\ circuits w' !! "b"%string = Some l.
Proof.
  assert (Hnone : circuits full_world !! "b"%string = None) by (vm_compute; reflexivity).
  split; [done|]. split; [vm_compute; discriminate|].
  assert (Hinv : registry_inv one_slot full_world).
  { apply (rrun_inv one_slot); [done | done | vm_compute; reflexivity | by apply registry_inv_empty]. }
  pose proof (breaker_lookup_or_evict one_slot full_world "b"%string (at_second 2) ["a"%string]
    eq_refl ltac:(done) Hinv ltac:(vm_compute; reflexivity) eq_refl) as Hb.
  rewrite Hnone in Hb. destruct (Breaker one_slot full_world _ _ _) as [w' ptr].
  destruct Hb as (l & Hp & Hl & _). by exists l.
Defined.

End BreakerSpec.
