(* ===== verification/Lifecycle.v ===== *)
(** * Verification-session lifecycle

    [internal/verification]: the state machine of [lifecycle.go], the
    operational failure of [failure.go], the input-request projection of
    [input_request.go], the principal and region grammars of [session.go], and
    the transactional store of [postgres/lifecycle.go] that applies one command
    exactly once.

    Identifiers are their printed text, the empty string being Go's zero value
    (Ident: the printed form determines the identifier).  Go's open string type
    [SessionState] has a constructor [SessionStateOther] for every label outside
    the vocabulary. *)

From S2P Require Import Prelude GoTime Ident.
From Stdlib Require Import Ascii.

(** ** Vocabulary *)

Inductive SessionState :=
| SessionStateCreated | SessionStateCollecting | SessionStateAwaitingInput
| SessionStateProcessing | SessionStateAwaitingExternal | SessionStateManualReview
| SessionStateCompleted | SessionStateCancelled | SessionStateExpired | SessionStateFailed
| SessionStateOther (label : string).

#[export] Instance SessionState_eq_dec : EqDecision SessionState.
Proof. solve_decision. Defined.

Definition state_is (s t : SessionState) : bool := bool_decide (s = t).

Definition Valid (state : SessionState) : bool :=
  match state with SessionStateOther _ => false | _ => true end.

Definition Terminal (state : SessionState) : bool :=
  state_is state SessionStateCompleted || state_is state SessionStateCancelled ||
  state_is state SessionStateExpired || state_is state SessionStateFailed.

Inductive Error :=
| ErrSessionNotFound | ErrSessionConflict | ErrIsolation | ErrEncode | ErrConstraint
| ErrInputRequest | ErrFailureInvalid | ErrPrincipal.

(** ** [failure.go] *)

Record SessionFailure := mk_failure { Class_ : string; Code : string }.

#[export] Instance SessionFailure_eq_dec : EqDecision SessionFailure.
Proof. solve_decision. Defined.

Definition no_failure : SessionFailure := mk_failure "" "".

Definition token_char (c : ascii) : bool := is_lower c || is_digit c || byte_of "_" c.
Definition failureClassPattern (s : string) : bool := match_head_tail is_lower token_char s && (slen s <=? 32).
Definition failureCodePattern (s : string) : bool := match_head_tail is_lower token_char s && (slen s <=? 64).

(** [failure.Validate() == nil]. *)
Definition failure_valid (f : SessionFailure) : bool :=
  failureClassPattern (Class_ f) && failureCodePattern (Code f).

(** ** [lifecycle.go] *)

Record Lifecycle := mk_lifecycle {
  State : SessionState;
  Version : Z;
  CreatedAt : Time;
  UpdatedAt : Time;
  ExpiresAt : Time;
  DecisionID : string;
  Failure : SessionFailure;
}.

Record LifecycleCommand := mk_command {
  EventID : string;
  VerificationID : string;
  ExpectedVersion : Z;
  Target : SessionState;
  CDecisionID : string;
  ActorID : string;
  OccurredAt : Time;
  CFailure : SessionFailure;
}.

Record LifecycleReceipt := mk_receipt {
  R_EventID : string;
  R_VerificationID : string;
  R_From : SessionState;
  R_To : SessionState;
  R_Version : Z;
  R_DecisionID : string;
  R_OccurredAt : Time;
}.

#[export] Instance LifecycleCommand_eq_dec : EqDecision LifecycleCommand.
Proof. solve_decision. Defined.

Definition lifecycleEdge (from to : SessionState) : bool :=
  if state_is to SessionStateCancelled || state_is to SessionStateFailed
  then Valid from && negb (Terminal from)
  else if state_is to SessionStateExpired
  then Valid from && negb (Terminal from) && negb (state_is from SessionStateCreated)
  else match from with
  | SessionStateCreated => state_is to SessionStateCollecting
  | SessionStateCollecting => state_is to SessionStateAwaitingInput || state_is to SessionStateProcessing
  | SessionStateAwaitingInput => state_is to SessionStateCollecting || state_is to SessionStateManualReview
  | SessionStateProcessing =>
      state_is to SessionStateAwaitingExternal || state_is to SessionStateAwaitingInput ||
      state_is to SessionStateManualReview || state_is to SessionStateCompleted
  | SessionStateAwaitingExternal => state_is to SessionStateProcessing
  | SessionStateManualReview => state_is to SessionStateAwaitingInput || state_is to SessionStateCompleted
  | _ => false
  end.

(** UTC, non-zero and with microsecond precision. *)
Definition utc_micro (t : Time) : bool := utc_non_zero t && (nanosecond t mod 1000 =? 0).

Section Machine.
Context `{Ulid}.

Definition lifecycleActor (value : string) : bool :=
  is_ok (ParseAPIKey value) || is_ok (ParseCaptureToken value) || is_ok (ParseTask value).

(** [LifecycleCommand.Validate() == nil]. *)
Definition Validate (command : LifecycleCommand) : bool :=
  let failureRequired := state_is (Target command) SessionStateFailed in
  negb (empty_string (EventID command) || empty_string (VerificationID command) ||
    (ExpectedVersion command <? 1) || (ExpectedVersion command =? max_int64) ||
    negb (Valid (Target command)) || negb (utc_non_zero (OccurredAt command)) ||
    negb (nanosecond (OccurredAt command) mod 1000 =? 0) ||
    Bool.eqb (state_is (Target command) SessionStateCompleted) (empty_string (CDecisionID command)) ||
    negb (Bool.eqb failureRequired (failure_valid (CFailure command))) ||
    negb (lifecycleActor (ActorID command))).

Definition AdvanceLifecycle (current : Lifecycle) (command : LifecycleCommand) : result Error Lifecycle :=
  reject negb (Validate command) with ErrSessionConflict ;;
  reject negb (Valid (State current)) || Terminal (State current) ||
         negb (bool_decide (Failure current = no_failure)) ||
         negb (Version current =? ExpectedVersion command) || negb (empty_string (DecisionID current)) ||
         negb (utc_non_zero (CreatedAt current)) || negb (utc_non_zero (UpdatedAt current)) ||
         negb (utc_non_zero (ExpiresAt current)) ||
         before (UpdatedAt current) (CreatedAt current) ||
         negb (after (ExpiresAt current) (CreatedAt current)) ||
         before (OccurredAt command) (UpdatedAt current) ||
         negb (lifecycleEdge (State current) (Target command)) with ErrSessionConflict ;;
  reject (if state_is (Target command) SessionStateExpired
          then before (OccurredAt command) (ExpiresAt current)
          else negb (before (OccurredAt command) (ExpiresAt current))) with ErrSessionConflict ;;
  Ok {| State := Target command;
        Version := wrap_int64 (Version current + 1);
        CreatedAt := CreatedAt current;
        UpdatedAt := OccurredAt command;
        ExpiresAt := ExpiresAt current;
        DecisionID := CDecisionID command;
        Failure := CFailure command |}.
End Machine.

(** ** [input_request.go] *)

Definition InputRequestFallbackReason : string := "policy_request_input".
Definition MaximumInputRequestReasons : Z := 8.

(** The anchored pattern [^\[a-z\]\[a-z0-9._:-\]{0,63}$]. *)
Definition validInputRequestReason (value : string) : bool :=
  match_head_tail is_lower (fun c => is_lower c || is_digit c || byte_of "._:-" c) value && (slen value <=? 64).

Record InputRequest := mk_input_request {
  ir_id : string;
  ir_verificationID : string;
  ir_caseID : string;
  ir_reasonCodes : list string;
  ir_actorID : string;
  ir_requestedAt : Time;
}.

(** The copying loop: every code valid and not among the earlier ones. *)
Fixpoint copy_reasons (seen codes : list string) : result Error (list string) :=
  match codes with
  | [] => Ok seen
  | code :: rest =>
      reject negb (validInputRequestReason code) || bool_decide (code ∈ seen) with ErrSessionConflict ;;
      copy_reasons (seen ++ [code]) rest
  end.

Definition NewInputRequest `{Ulid} (identifier verificationID caseID : string) (reasonCodes : list string)
    (actorID : string) (requestedAt : Time) : result Error InputRequest :=
  reject empty_string identifier || empty_string verificationID || negb (lifecycleActor actorID) ||
         negb (utc_non_zero requestedAt) || negb (nanosecond requestedAt mod 1000 =? 0) with ErrSessionConflict ;;
  reject (llen reasonCodes =? 0) || (MaximumInputRequestReasons <? llen reasonCodes) with ErrSessionConflict ;;
  let? reasons := copy_reasons [] reasonCodes in
  Ok (mk_input_request identifier verificationID caseID reasons actorID (utc requestedAt)).

(** The filtering loop, with its [continue] and its [break]. *)
Fixpoint bounded_reasons (acc values : list string) : list string :=
  match values with
  | [] => acc
  | value :: rest =>
      if negb (validInputRequestReason value) || bool_decide (value ∈ acc) then bounded_reasons acc rest
      else let acc' := acc ++ [value] in
           if llen acc' =? MaximumInputRequestReasons then acc' else bounded_reasons acc' rest
  end.

Definition BoundedInputRequestReasons (values : list string) : list string :=
  let result := bounded_reasons [] values in
  if llen result =? 0 then [InputRequestFallbackReason] else result.

(** ** Grammars of [session.go] *)

Definition workload_char (c : ascii) : bool := is_lower c || is_upper c || is_digit c || byte_of "_-" c.

(** [strings.TrimSpace(value) != value] can only hold when a character is a
    space; every character after the prefix is then rejected by the loop, so the
    trimming guard is the test of the first and last character for ASCII space. *)
Definition ascii_space (c : ascii) : bool := byte_of (String "009" (String "010" (String "011" (String "012" (String "013" " "))))) c.
Fixpoint last_char (s : string) : option ascii :=
  match s with
  | EmptyString => None
  | String c EmptyString => Some c
  | String _ rest => last_char rest
  end.

Definition SessionPrincipal : Type := string * bool.

Definition validWorkloadPrincipal (value : string) : bool :=
  match strip_prefix "wld_" value with
  | None => false
  | Some tail =>
      if (slen value <? 8) || (128 <? slen value) ||
         (match last_char value with Some c => ascii_space c | None => false end) then false
      else string_forall workload_char tail
  end.

Definition NewWorkloadSessionPrincipal (value : string) : result Error SessionPrincipal :=
  reject negb (validWorkloadPrincipal value) with ErrPrincipal ;;
  Ok (value, true).

Definition APIKeySessionPrincipal (identifier : string) : SessionPrincipal :=
  if empty_string identifier then ("", false) else (identifier, false).

Definition validRegion (region : string) : bool :=
  match region with
  | EmptyString => false
  | String first tail =>
      if (63 <? slen region) || negb (is_lower first) then false
      else string_forall (fun c => is_lower c || is_digit c || byte_of "-" c) tail
  end.

(** ** The transactional store of [postgres/lifecycle.go]

    The tables are finite maps; an SQL constraint the statements can violate is
    a test before the write that fails the transaction with [ErrConstraint].
    A failing transaction leaves the database unchanged, so a function returns
    the next database only on success.  The audit append and the webhook
    emission belong to other packages: a call is recorded with its arguments. *)
Module LifecycleStore.

Record SessionRow := mk_session_row {
  row_state : SessionState;
  row_version : Z;
  row_created_at : Time;
  row_updated_at : Time;
  row_expires_at : Time;
  row_decision : option string;
  row_failure_class : option string;
  row_failure_code : option string;
  row_region : option string;
}.

(** The struct [lifecycleCommandDigest] encodes. *)
Record Canonical := mk_canonical {
  can_event : string;
  can_verification : string;
  can_expected : Z;
  can_target : SessionState;
  can_decision : option string;
  can_actor : string;
  can_occurred : Time;
  can_failure : option SessionFailure;
}.

Record TransitionRow := mk_transition_row {
  tr_verification : string;
  tr_from : SessionState;
  tr_to : SessionState;
  tr_expected : Z;
  tr_resulting : Z;
  tr_decision : option string;
  tr_actor : string;
  tr_digest : string;
  tr_occurred_at : Time;
}.

Record OutboxRow := mk_outbox_row {
  ob_tenant : string;
  ob_aggregate : string;
  ob_version : Z;
  ob_payload : Canonical;
  ob_occurred_at : Time;
}.

Inductive Call :=
| AuditAppend (tenant event aggregate actor digest : string) (occurredAt : Time)
| EmitCatalogueEvent (tenant region eventType verification : string) (version : Z) (status : SessionState) (occurredAt : Time).

Record Database := mk_database {
  verification_sessions : gmap (string * string) SessionRow;
  verification_transitions : gmap (string * string) TransitionRow;
  (** tenant, verification and decision to decision time and outcome label *)
  verification_decisions : gmap (string * string * string) (Time * string);
  (** keyed by the event identifier alone, the primary key of the table *)
  outbox_events : gmap string OutboxRow;
  calls : list Call;
}.

Definition null_if_empty (s : string) : option string := if empty_string s then None else Some s.

Definition lifecycleWebhookEvents (state : SessionState) : option string :=
  match state with
  | SessionStateCreated => Some "verification.created"
  | SessionStateCollecting => Some "verification.collecting"
  | SessionStateProcessing => Some "verification.processing"
  | SessionStateAwaitingInput => Some "verification.requires_input"
  | SessionStateManualReview => Some "verification.requires_review"
  | SessionStateCancelled => Some "verification.cancelled"
  | SessionStateFailed => Some "verification.failed"
  | SessionStateExpired => Some "verification.expired"
  | _ => None
  end%string.

Definition canonical_command (command : LifecycleCommand) : Canonical :=
  mk_canonical (EventID command) (VerificationID command) (ExpectedVersion command) (Target command)
    (null_if_empty (CDecisionID command)) (ActorID command) (OccurredAt command)
    (if bool_decide (CFailure command = no_failure) then None else Some (CFailure command)).

Definition lifecycleReceipt (command : LifecycleCommand) (from : SessionState) : LifecycleReceipt :=
  mk_receipt (EventID command) (VerificationID command) from (Target command)
    (ExpectedVersion command + 1) (CDecisionID command) (OccurredAt command).

Section Store.
Context `{Ulid}.
(** The hexadecimal SHA-256 of the JSON text of a canonical command. *)
Variable sha256_json : Canonical -> string.

(** [json.Marshal] of a time fails outside the years 0 to 9999. *)
Definition lifecycleCommandDigest (command : LifecycleCommand) : result Error (Canonical * string) :=
  reject (year (OccurredAt command) <? 0) || (9999 <? year (OccurredAt command)) with ErrEncode ;;
  let canonical := canonical_command command in
  Ok (canonical, sha256_json canonical).

Definition lockLifecycle (db : Database) (tenant verificationID : string) : result Error (Lifecycle * string) :=
  match verification_sessions db !! (tenant, verificationID) with
  | None => Err ErrSessionNotFound
  | Some row =>
      let? decision :=
        match row_decision row with
        | None => Ok ""%string
        | Some d => if is_ok (ParseDecision d) then Ok d else Err ErrSessionConflict
        end in
      let? failure :=
        match row_failure_class row, row_failure_code row with
        | None, None => Ok no_failure
        | Some class, Some code => Ok (mk_failure class code)
        | _, _ => Err ErrSessionConflict
        end in
      Ok (mk_lifecycle (row_state row) (row_version row) (utc (row_created_at row)) (utc (row_updated_at row))
            (utc (row_expires_at row)) decision failure,
          default ""%string (row_region row))
  end.

Definition replayLifecycle (db : Database) (tenant : string) (command : LifecycleCommand) (digest : string)
  : result Error (option LifecycleReceipt) :=
  match verification_transitions db !! (tenant, EventID command) with
  | None => Ok None
  | Some row =>
      reject negb (String.eqb (tr_digest row) digest) with ErrSessionConflict ;;
      Ok (Some (lifecycleReceipt command (tr_from row)))
  end.

Definition conclusive_label (outcome : string) : bool :=
  String.eqb outcome "verified" || String.eqb outcome "not_verified" || String.eqb outcome "inconclusive".

Definition validateCompletion (db : Database) (tenant : string) (command : LifecycleCommand) : result Error unit :=
  if negb (state_is (Target command) SessionStateCompleted) then Ok () else
  match verification_decisions db !! (tenant, VerificationID command, CDecisionID command) with
  | Some (decidedAt, outcome) =>
      reject after decidedAt (OccurredAt command) || negb (conclusive_label outcome) with ErrSessionConflict ;;
      Ok ()
  | None => Err ErrSessionConflict
  end.

(** The check constraints and the update trigger of the sessions table. *)
Definition session_row_ok (old new : SessionRow) : bool :=
  Valid (row_state new) &&
  Bool.eqb (state_is (row_state new) SessionStateCompleted) (negb (bool_decide (row_decision new = None))) &&
  (if state_is (row_state new) SessionStateFailed
   then match row_failure_class new, row_failure_code new with
        | Some class, Some code => failureClassPattern class && failureCodePattern code
        | _, _ => false
        end
   else bool_decide (row_failure_class new = None) && bool_decide (row_failure_code new = None)) &&
  negb (Terminal (row_state old) && (negb (state_is (row_state new) (row_state old)) ||
        negb (row_version new =? row_version old) || negb (bool_decide (row_updated_at new = row_updated_at old)))) &&
  (state_is (row_state new) (row_state old) ||
   ((row_version new =? row_version old + 1) && negb (before (row_updated_at new) (row_updated_at old)))).

(** The unique index on tenant, verification and resulting version. *)
Definition version_taken (db : Database) (tenant verificationID : string) (version : Z) : bool :=
  bool_decide (Exists (fun e : (string * string) * TransitionRow =>
    e.1.1 = tenant /\ tr_verification e.2 = verificationID /\ tr_resulting e.2 = version)
    (map_to_list (verification_transitions db))).

Definition emitLifecycleWebhook (row : SessionRow) (tenant : string) (command : LifecycleCommand) (next : Lifecycle)
  : list Call :=
  match lifecycleWebhookEvents (State next) with
  | None => []
  | Some eventType =>
      let region := default ""%string (row_region row) in
      if empty_string region then []
      else [EmitCatalogueEvent tenant region eventType (VerificationID command) (Version next) (State next) (OccurredAt command)]
  end.

Definition persistLifecycle (db : Database) (tenant : string) (command : LifecycleCommand)
    (current next : Lifecycle) (canonical : Canonical) (digest : string) : result Error Database :=
  let decision := null_if_empty (CDecisionID command) in
  let has_failure := negb (bool_decide (CFailure command = no_failure)) in
  let failureClass := if has_failure then Some (Class_ (CFailure command)) else None in
  let failureCode := if has_failure then Some (Code (CFailure command)) else None in
  match verification_sessions db !! (tenant, VerificationID command) with
  | None => Err ErrSessionConflict
  | Some old =>
      reject negb (row_version old =? ExpectedVersion command) with ErrSessionConflict ;;
      let row := mk_session_row (State next) (Version next) (row_created_at old) (UpdatedAt next)
                   (row_expires_at old) decision failureClass failureCode (row_region old) in
      reject negb (session_row_ok old row) with ErrConstraint ;;
      reject negb (bool_decide (verification_transitions db !! (tenant, EventID command) = None)) ||
             version_taken db tenant (VerificationID command) (Version next) with ErrConstraint ;;
      reject negb (bool_decide (outbox_events db !! EventID command = None)) with ErrConstraint ;;
      Ok {| verification_sessions := <[(tenant, VerificationID command) := row]> (verification_sessions db);
            verification_transitions :=
              <[(tenant, EventID command) :=
                mk_transition_row (VerificationID command) (State current) (State next) (Version current)
                  (Version next) decision (ActorID command) digest (OccurredAt command)]>
                (verification_transitions db);
            verification_decisions := verification_decisions db;
            outbox_events :=
              <[EventID command :=
                mk_outbox_row tenant (VerificationID command) (Version next) canonical (OccurredAt command)]>
                (outbox_events db);
            calls := calls db ++
              AuditAppend tenant (EventID command) (VerificationID command) (ActorID command) digest (OccurredAt command)
              :: emitLifecycleWebhook row tenant command next |}
  end.

Definition ApplyWithin (db : Database) (now : Time) (isolation tenant : string) (command : LifecycleCommand)
  : result Error (Database * LifecycleReceipt) :=
  reject empty_string tenant || negb (Validate command) with ErrSessionConflict ;;
  reject negb (String.eqb isolation "serializable") with ErrIsolation ;;
  let? (canonical, digest) := lifecycleCommandDigest command in
  let? (current, region) := lockLifecycle db tenant (VerificationID command) in
  let? replay := replayLifecycle db tenant command digest in
  match replay with
  | Some receipt => Ok (db, receipt)
  | None =>
      let observedAt := utc now in
      reject is_zero observedAt || after (OccurredAt command) observedAt ||
             (negb (state_is (Target command) SessionStateExpired) && negb (before observedAt (ExpiresAt current)))
        with ErrSessionConflict ;;
      let? next := AdvanceLifecycle current command in
      let? _ := validateCompletion db tenant command in
      let? db' := persistLifecycle db tenant command current next canonical digest in
      Ok (db', lifecycleReceipt command (State current))
  end.

(** [Apply]: the serializable transaction around [ApplyWithin]. *)
Definition Apply (db : Database) (now : Time) (tenant : string) (command : LifecycleCommand)
  : Database * result Error LifecycleReceipt :=
  match ApplyWithin db now "serializable" tenant command with
  | Ok (db', receipt) => (db', Ok receipt)
  | Err e => (db, Err e)
  end.

(** [StopStore.ExpireWithin]: the event identity comes from the generator, and
    [now] and [now'] are the two successive clock readings. *)
Definition ExpireWithin (db : Database) (now now' : Time) (tenant verificationID actor eventID : string) : result Error Database :=
  reject empty_string tenant || empty_string verificationID || empty_string actor with ErrSessionConflict ;;
  match lockLifecycle db tenant verificationID with
  | Err ErrSessionNotFound => Ok db
  | Err e => Err e
  | Ok (current, _) =>
      let at_ := truncate (utc now) microsecond in
      if Terminal (State current) || state_is (State current) SessionStateCreated || before at_ (ExpiresAt current)
      then Ok db
      else
        let? (db', _) := ApplyWithin db now' "serializable" tenant
              (mk_command eventID verificationID (Version current) SessionStateExpired "" actor at_ no_failure) in
        Ok db'
  end.
End Store.
End LifecycleStore.

(** ** Specification *)

Definition live (s : SessionState) : Prop := Valid s = true /\ Terminal s = false.

(** The transition graph of version 0.6 as an inductive relation. *)
Inductive edge : SessionState -> SessionState -> Prop :=
| edge_collect : edge SessionStateCreated SessionStateCollecting
| edge_ask : edge SessionStateCollecting SessionStateAwaitingInput
| edge_process : edge SessionStateCollecting SessionStateProcessing
| edge_resume : edge SessionStateAwaitingInput SessionStateCollecting
| edge_input_review : edge SessionStateAwaitingInput SessionStateManualReview
| edge_external : edge SessionStateProcessing SessionStateAwaitingExternal
| edge_more_input : edge SessionStateProcessing SessionStateAwaitingInput
| edge_review : edge SessionStateProcessing SessionStateManualReview
| edge_decide : edge SessionStateProcessing SessionStateCompleted
| edge_callback : edge SessionStateAwaitingExternal SessionStateProcessing
| edge_review_input : edge SessionStateManualReview SessionStateAwaitingInput
| edge_review_decide : edge SessionStateManualReview SessionStateCompleted
| edge_cancel s : live s -> edge s SessionStateCancelled
| edge_fail s : live s -> edge s SessionStateFailed
| edge_expire s : live s -> s <> SessionStateCreated -> edge s SessionStateExpired.
#[export] Hint Constructors edge : idenqa.

Lemma state_is_true s t : state_is s t = true <-> s = t.
Proof. apply bool_decide_true. Qed.
Lemma state_is_false s t : state_is s t = false <-> s <> t.
Proof. apply bool_decide_false. Qed.
Lemma state_is_refl s : state_is s s = true.
Proof. by apply state_is_true. Qed.

Lemma lifecycleEdge_edge from to : lifecycleEdge from to = true <-> edge from to.
Proof.
  split.
  - destruct from, to; cbn; intros Hd; try discriminate; constructor; done.
  - destruct 1 as [| | | | | | | | | | | | s [Hv Ht] | s [Hv Ht] | s [Hv Ht] Hc]; try done;
      destruct s; done.
Qed.

Lemma edge_live from to : edge from to -> live from.
Proof. by destruct 1. Qed.
Lemma edge_valid from to : edge from to -> Valid to = true.
Proof. by destruct 1. Qed.
Lemma edge_not_created from to : edge from to -> to <> SessionStateCreated.
Proof. by destruct 1. Qed.

(** A command is well formed when [Validate] accepts it. *)
Record wf_command `{Ulid} (c : LifecycleCommand) : Prop := {
  wf_event : EventID c <> ""%string;
  wf_verification : VerificationID c <> ""%string;
  wf_version : 1 <= ExpectedVersion c /\ ExpectedVersion c <> max_int64;
  wf_target : Valid (Target c) = true;
  wf_time : instant (OccurredAt c) <> 0 /\ in_utc (OccurredAt c) = true;
  wf_micro : nanosecond (OccurredAt c) mod 1000 = 0;
  wf_decision : Target c = SessionStateCompleted <-> CDecisionID c <> ""%string;
  wf_failure : Target c = SessionStateFailed <-> failure_valid (CFailure c) = true;
  wf_actor : lifecycleActor (ActorID c) = true;
}.

Lemma empty_string_true s : empty_string s = true <-> s = ""%string.
Proof. apply String.eqb_eq. Qed.
Lemma empty_string_false s : empty_string s = false <-> s <> ""%string.
Proof. apply String.eqb_neq. Qed.

Lemma eqb_false_iff (a b : bool) : Bool.eqb a b = false <-> (a = true <-> b = false).
Proof. destruct a, b; cbn; naive_solver. Qed.
Lemma eqb_true_iff' (a b : bool) : Bool.eqb a b = true <-> (a = true <-> b = true).
Proof. destruct a, b; cbn; naive_solver. Qed.

Lemma Validate_wf `{Ulid} c : Validate c = true <-> wf_command c.
Proof.
  unfold Validate. rewrite negb_true_iff, !orb_false_iff, !negb_false_iff, !empty_string_false,
    Z.ltb_ge, Z.eqb_neq, utc_non_zero_true, Z.eqb_eq, eqb_false_iff, eqb_true_iff', !state_is_true, empty_string_false.
  split; [intros Hg; bprop; by constructor | intros []; naive_solver].
Qed.

(** What [AdvanceLifecycle] asks of the current state beyond the command. *)
Record admits (l : Lifecycle) (c : LifecycleCommand) : Prop := {
  ad_failure : Failure l = no_failure;
  ad_version : Version l = ExpectedVersion c;
  ad_decision : DecisionID l = ""%string;
  ad_created : instant (CreatedAt l) <> 0 /\ in_utc (CreatedAt l) = true;
  ad_updated : instant (UpdatedAt l) <> 0 /\ in_utc (UpdatedAt l) = true;
  ad_expires : instant (ExpiresAt l) <> 0 /\ in_utc (ExpiresAt l) = true;
  ad_order : instant (CreatedAt l) <= instant (UpdatedAt l) /\ instant (CreatedAt l) < instant (ExpiresAt l);
  ad_monotone : instant (UpdatedAt l) <= instant (OccurredAt c);
  ad_edge : edge (State l) (Target c);
  ad_deadline : Target c = SessionStateExpired <-> instant (ExpiresAt l) <= instant (OccurredAt c);
}.

Definition advanced (l : Lifecycle) (c : LifecycleCommand) : Lifecycle :=
  mk_lifecycle (Target c) (wrap_int64 (Version l + 1)) (CreatedAt l) (OccurredAt c) (ExpiresAt l) (CDecisionID c) (CFailure c).

Lemma AdvanceLifecycle_Ok `{Ulid} l c n :
  AdvanceLifecycle l c = Ok n <-> wf_command c /\ admits l c /\ n = advanced l c.
Proof.
  unfold AdvanceLifecycle. rewrite !reject_Ok, negb_false_iff, Validate_wf.
  rewrite !orb_false_iff, !negb_false_iff, bool_decide_true, Z.eqb_eq, empty_string_true, !utc_non_zero_true,
    !before_false, after_true, lifecycleEdge_edge.
  assert (Hdead : (if state_is (Target c) SessionStateExpired then before (OccurredAt c) (ExpiresAt l)
            else negb (before (OccurredAt c) (ExpiresAt l))) = false <->
          (Target c = SessionStateExpired <-> instant (ExpiresAt l) <= instant (OccurredAt c))).
  { destruct (state_is _ _) eqn:E; [apply state_is_true in E | apply state_is_false in E].
    - rewrite before_false. naive_solver.
    - rewrite negb_false_iff, before_true. split; [intros; split; [done | lia] | intros [_ Hx]].
      destruct (Z.lt_ge_cases (instant (OccurredAt c)) (instant (ExpiresAt l))); [done | naive_solver]. }
  rewrite Hdead. clear Hdead. split.
  - intros (Hwf & Hg & Hd & [= <-]). bprop. split_and!; [done | by constructor | done].
  - intros (Hwf & [? ? ? ? ? ? Ho ? He ?] & ->). pose proof (edge_live _ _ He) as [? ?].
    destruct Ho. naive_solver.
Qed.

(** *** Invariant of reachable lifecycles *)

(** The fields are consistent with the state.  [lifecycle_ok] holds of a new
    session and every accepted command keeps it. *)
Record lifecycle_ok (l : Lifecycle) : Prop := {
  ok_state : Valid (State l) = true;
  ok_version : 1 <= Version l <= max_int64;
  ok_created : instant (CreatedAt l) <> 0 /\ in_utc (CreatedAt l) = true;
  ok_updated : instant (UpdatedAt l) <> 0 /\ in_utc (UpdatedAt l) = true;
  ok_expires : instant (ExpiresAt l) <> 0 /\ in_utc (ExpiresAt l) = true;
  ok_order : instant (CreatedAt l) <= instant (UpdatedAt l) /\ instant (CreatedAt l) < instant (ExpiresAt l);
  ok_deadline : State l = SessionStateExpired <-> instant (ExpiresAt l) <= instant (UpdatedAt l);
  ok_decision : State l = SessionStateCompleted <-> DecisionID l <> ""%string;
  ok_failure : State l = SessionStateFailed <-> failure_valid (Failure l) = true;
}.

(** One accepted command whose version field is a 64-bit integer. *)
Inductive lifecycle_step `{Ulid} (l n : Lifecycle) : Prop :=
| lifecycle_step_command c : ExpectedVersion c <= max_int64 -> AdvanceLifecycle l c = Ok n -> lifecycle_step l n.

Lemma advanced_version `{Ulid} l c :
  wf_command c -> admits l c -> ExpectedVersion c <= max_int64 -> wrap_int64 (Version l + 1) = Version l + 1.
Proof.
  intros Hwf Had Hmax. destruct (wf_version c Hwf). pose proof (ad_version l c Had).
  apply wrap_int64_id. unfold min_int64, max_int64 in *. lia.
Qed.

Lemma lifecycle_step_ok `{Ulid} l n :
  1 <= Version l -> lifecycle_step l n ->
  lifecycle_ok n /\ Version n = Version l + 1 /\ edge (State l) (State n) /\
  CreatedAt n = CreatedAt l /\ ExpiresAt n = ExpiresAt l /\ instant (UpdatedAt l) <= instant (UpdatedAt n).
Proof.
  intros Hv [c Hmax (Hwf & Had & ->)%AdvanceLifecycle_Ok].
  pose proof (advanced_version l c Hwf Had Hmax) as Hwrap.
  destruct Had as [? Hver ? ? ? ? Ho ? He ?], Hwf as [? ? [? Hne] ? ? ? ? ? ?]. unfold advanced in *. rewrite Hwrap.
  split_and!; try done. constructor; cbn; try done; lia.
Qed.

Lemma lifecycle_steps_ok `{Ulid} k l n :
  lifecycle_ok l -> nsteps lifecycle_step k l n ->
  lifecycle_ok n /\ Version n = Version l + Z.of_nat k /\
  CreatedAt n = CreatedAt l /\ ExpiresAt n = ExpiresAt l /\ instant (UpdatedAt l) <= instant (UpdatedAt n).
Proof.
  intros Hl Hsteps. revert Hl. induction Hsteps as [l | k l m n Hstep _ IH]; intros Hl.
  - split_and!; [done | lia | done | done | lia].
  - destruct (lifecycle_step_ok l m) as (Hm & Hv & _ & Hc & He & Hu); [by apply ok_version|done|].
    destruct (IH Hm) as (Hn & Hv' & Hc' & He' & Hu'). split_and!; [done | lia | congruence | congruence | lia].
Qed.

Lemma no_failure_invalid : failure_valid no_failure = false.
Proof. reflexivity. Qed.

(** A live lifecycle whose failure is cleared admits every well-formed command
    on an edge of the graph, inside the window its target requires. *)
Lemma live_admits l c :
  lifecycle_ok l -> live (State l) -> Failure l = no_failure -> edge (State l) (Target c) ->
  Version l = ExpectedVersion c -> instant (UpdatedAt l) <= instant (OccurredAt c) ->
  (Target c = SessionStateExpired <-> instant (ExpiresAt l) <= instant (OccurredAt c)) -> admits l c.
Proof.
  intros [] [Hv Ht] Hf He Hver Hm Hd. constructor; try done.
  destruct (decide (DecisionID l = ""%string)) as [Hn|Hn]; [done|].
  exfalso. apply ok_decision0 in Hn. rewrite Hn in Ht. discriminate.
Qed.

Lemma AdvanceLifecycle_rejects `{Ulid} l c :
  ~ admits l c -> AdvanceLifecycle l c = Err ErrSessionConflict.
Proof.
  intros Hn. destruct (AdvanceLifecycle l c) as [n|e] eqn:E.
  - exfalso. apply Hn. by apply AdvanceLifecycle_Ok in E as (_ & ? & _).
  - unfold AdvanceLifecycle in E. repeat case_match; congruence.
Qed.

(** Any event, verification and actor with any microsecond UTC instant make a
    well-formed command for a state other than completed or failed. *)
Lemma wf_plain_command `{Ulid} ev ver v target actor t :
  ev <> ""%string -> ver <> ""%string -> 1 <= v < max_int64 -> Valid target = true ->
  target <> SessionStateCompleted -> target <> SessionStateFailed ->
  utc_micro t = true -> lifecycleActor actor = true ->
  wf_command (mk_command ev ver v target "" actor t no_failure).
Proof.
  intros Hev Hver Hv Hval Hc Hf Ht Ha. unfold utc_micro in Ht. apply andb_true_iff in Ht as [Ht Hmicro].
  apply utc_non_zero_true in Ht. apply Z.eqb_eq in Hmicro. constructor; cbn; try done; try lia; naive_solver.
Qed.

(** ** Properties of the state machine *)
Module LifecycleSpec.

(** C1: the state machine is the transition graph.  A command is accepted
    exactly when it is well formed and the current state admits it (an edge of
    the graph, the exact version, monotone time, expiry at or after the deadline
    and everything else before it), and the next state is then determined. *)
Theorem advance_refines_graph `{Ulid} (l n : Lifecycle) (c : LifecycleCommand) :
  AdvanceLifecycle l c = Ok n <-> wf_command c /\ admits l c /\ n = advanced l c.
Proof. apply AdvanceLifecycle_Ok. Qed.

(** Reachable lifecycles are consistent.  After any number [k] of accepted
    commands the version has grown by exactly [k] and stays a 64-bit integer, the
    decision is set exactly in completed, a valid failure exactly in failed, the
    update time has not gone back and is at or after the deadline only when
    expired, and a terminal state admits no further command. *)
Theorem lifecycle_reachable `{Ulid} (k : nat) (l n : Lifecycle)
    (Hl : lifecycle_ok l) (Hsteps : nsteps lifecycle_step k l n) :
  lifecycle_ok n /\ Version n = Version l + Z.of_nat k /\
  CreatedAt n = CreatedAt l /\ ExpiresAt n = ExpiresAt l /\ instant (UpdatedAt l) <= instant (UpdatedAt n) /\
  (Terminal (State n) = true -> forall c, AdvanceLifecycle n c = Err ErrSessionConflict).
Proof.
  destruct (lifecycle_steps_ok k l n Hl Hsteps) as (? & ? & ? & ? & ?). split_and!; try done.
  intros Ht c. apply AdvanceLifecycle_rejects. intros [_ _ _ _ _ _ _ _ He _].
  apply edge_live in He as [_ He]. congruence.
Qed.


(** A malformed failure outside the failed state strands the session.
    [Validate] only rejects a well-formed failure there, so a command towards
    another state may carry a malformed non-empty one; the resulting lifecycle
    keeps it and accepts no command any more, not even a cancellation. *)
Theorem malformed_failure_strands `{Ulid} (l n : Lifecycle) (c : LifecycleCommand)
    (Hadv : AdvanceLifecycle l c = Ok n) (Hbad : CFailure c <> no_failure) :
  (Target c <> SessionStateFailed <-> failure_valid (CFailure c) = false) /\
  Failure n = CFailure c /\ forall c', AdvanceLifecycle n c' = Err ErrSessionConflict.
Proof.
  apply AdvanceLifecycle_Ok in Hadv as (Hwf & Had & ->). split_and!; [| done |].
  - pose proof (wf_failure c Hwf). destruct (failure_valid (CFailure c)); naive_solver.
  - intros c'. apply AdvanceLifecycle_rejects. intros [Hf _ _ _ _ _ _ _ _ _]. done.
Qed.

Import UlidText.
Definition sample_key : string := "key_01ARZ3NDEKTSV4RRFFQ69G5FAV".
Definition t0 : Time := date 2026 1 1.
Definition sample_lifecycle (s : SessionState) : Lifecycle :=
  mk_lifecycle s 1 t0 t0 (add t0 hour) "" no_failure.
Definition sample_command (target : SessionState) (failure : SessionFailure) : LifecycleCommand :=
  mk_command "evt_1" "ver_1" 1 target "" sample_key (add t0 minute) failure.

Lemma sample_ok s : live s -> lifecycle_ok (sample_lifecycle s).
Proof.
  intros [Hv Ht]. constructor; cbn; try done.
  - split; [intros -> | intros Hd; vm_compute in Hd]; done.
  - split; [intros -> | intros Hd]; done.
  - split; [intros -> | intros Hd]; done.
Qed.

Lemma lifecycle_reachable_witness :
  exists n, nsteps lifecycle_step 1 (sample_lifecycle SessionStateCollecting) n /\ lifecycle_ok n /\ Version n = 2.
Proof.
  exists (advanced (sample_lifecycle SessionStateCollecting) (sample_command SessionStateProcessing no_failure)).
  assert (Hs : nsteps lifecycle_step 1 (sample_lifecycle SessionStateCollecting)
    (advanced (sample_lifecycle SessionStateCollecting) (sample_command SessionStateProcessing no_failure))).
  { eapply nsteps_l; [|apply nsteps_O].
    apply (lifecycle_step_command _ _ (sample_command SessionStateProcessing no_failure));
      [by vm_compute | vm_compute; reflexivity]. }
  pose proof (lifecycle_reachable 1 _ _ (sample_ok SessionStateCollecting (conj eq_refl eq_refl)) Hs) as (Hok & Hv & _).
  split; [exact Hs|]. split; [exact Hok | exact Hv].
Defined.


Lemma malformed_failure_strands_witness :
  exists n, AdvanceLifecycle (sample_lifecycle SessionStateCollecting)
      (sample_command SessionStateProcessing (mk_failure "Upstream" "lost")) = Ok n /\
    State n = SessionStateProcessing /\ forall c', AdvanceLifecycle n c' = Err ErrSessionConflict.
Proof.
  assert (Ha : AdvanceLifecycle (sample_lifecycle SessionStateCollecting)
      (sample_command SessionStateProcessing (mk_failure "Upstream" "lost")) =
      Ok (advanced (sample_lifecycle SessionStateCollecting)
            (sample_command SessionStateProcessing (mk_failure "Upstream" "lost"))))
    by (vm_compute; reflexivity).
  eexists. split; [exact Ha|]. split; [reflexivity|].
  apply (malformed_failure_strands _ _ _ Ha). intros Hd. discriminate Hd.
Defined.
End LifecycleSpec.

(** ** Input-request reasons *)

Lemma copy_reasons_Ok (seen codes out : list string) :
  NoDup seen ->
  (copy_reasons seen codes = Ok out <->
   out = seen ++ codes /\ NoDup (seen ++ codes) /\ Forall (fun c => validInputRequestReason c = true) codes).
Proof.
  revert seen. induction codes as [|c codes IH]; intros seen Hseen; cbn.
  - rewrite app_nil_r. split; [intros [= <-]; auto | intros (-> & _ & _); done].
  - rewrite reject_Ok, orb_false_iff, negb_false_iff, bool_decide_false, Forall_cons. split.
    + intros ((Hc & Hni) & Hrest). apply IH in Hrest as (-> & Hnd & Hall).
      2:{ apply NoDup_app. split_and!; [done | set_solver | apply NoDup_singleton]. }
      rewrite <- app_assoc in *. by cbn in *.
    + intros (-> & Hnd & Hc & Hall). apply NoDup_app in Hnd as Hnd'. split; [split; [done | set_solver]|].
      apply IH; [apply NoDup_app; split_and!; [done | set_solver | apply NoDup_singleton]|].
      rewrite <- app_assoc. done.
Qed.

(** The filter keeps an accumulator of distinct valid reasons within the bound
    and only takes from the values. *)
Lemma bounded_reasons_spec (acc values : list string) :
  NoDup acc -> Forall (fun c => validInputRequestReason c = true) acc -> llen acc < 8 ->
  NoDup (bounded_reasons acc values) /\
  Forall (fun c => validInputRequestReason c = true) (bounded_reasons acc values) /\
  llen (bounded_reasons acc values) <= 8 /\
  (exists extra, bounded_reasons acc values = acc ++ extra /\ extra ⊆ values) /\
  (llen (bounded_reasons acc values) < 8 ->
   forall v, v ∈ values -> validInputRequestReason v = true -> v ∈ bounded_reasons acc values).
Proof.
  revert acc. induction values as [|v values IH]; intros acc Hnd Hall Hlen; cbn.
  { split_and!; try done; [lia | exists []; rewrite app_nil_r; set_solver | set_solver]. }
  destruct (validInputRequestReason v) eqn:Hv; cbn.
  2:{ destruct (IH acc Hnd Hall Hlen) as (? & ? & ? & (extra & Heq & Hsub) & Hfull).
      split_and!; try done; [exists extra; set_solver |].
      intros Hl w Hw Hvw. apply Hfull; [done | | done]. apply elem_of_cons in Hw as [->|Hw]; [congruence|done]. }
  destruct (bool_decide (v ∈ acc)) eqn:Hin; bprop.
  { destruct (IH acc Hnd Hall Hlen) as (? & ? & ? & (extra & Heq & Hsub) & Hfull).
    split_and!; try done; [exists extra; set_solver |].
    intros Hl w Hw Hvw. apply elem_of_cons in Hw as [->|Hw]; [rewrite Heq; set_solver | by apply Hfull]. }
  assert (Hnd' : NoDup (acc ++ [v])) by (apply NoDup_app; split_and!; [done | set_solver | apply NoDup_singleton]).
  assert (Hall' : Forall (fun c => validInputRequestReason c = true) (acc ++ [v]))
    by (apply Forall_app; split; [done | by constructor]).
  assert (Hl1 : llen (acc ++ [v]) = llen acc + 1) by (rewrite llen_app; done).
  destruct (llen (acc ++ [v]) =? MaximumInputRequestReasons) eqn:E; bprop; unfold MaximumInputRequestReasons in *.
  { split_and!; try done; [lia | exists [v]; set_solver | lia]. }
  destruct (IH (acc ++ [v]) Hnd' Hall') as (? & ? & ? & (extra & Heq & Hsub) & Hfull); [lia|].
  split_and!; try done.
  - exists (v :: extra). rewrite Heq, <- app_assoc. split; [done | set_solver].
  - intros Hl w Hw Hvw. apply elem_of_cons in Hw as [->|Hw]; [rewrite Heq; set_solver | by apply Hfull].
Qed.

Module InputRequestSpec.

(** The projected reason codes are always acceptable.  Whatever the policy
    evaluation reports, the bounded list is between one and eight distinct valid
    codes, each of them reported or the fallback, no valid code is lost below the
    bound, and [NewInputRequest] accepts the list for every attributed request. *)
Theorem bounded_reasons_accepted `{Ulid} (values : list string) (identifier ver case actor : string) (at_ : Time)
    (Hid : identifier <> ""%string) (Hver : ver <> ""%string) (Ha : lifecycleActor actor = true)
    (Ht : utc_micro at_ = true) :
  let reasons := BoundedInputRequestReasons values in
  1 <= llen reasons <= 8 /\ NoDup reasons /\
  (reasons ⊆ values \/ (reasons = [InputRequestFallbackReason] /\
      forall v, v ∈ values -> validInputRequestReason v = false)) /\
  (llen reasons < 8 -> forall v, v ∈ values -> validInputRequestReason v = true -> v ∈ reasons) /\
  NewInputRequest identifier ver case reasons actor at_ =
    Ok (mk_input_request identifier ver case reasons actor (utc at_)).
Proof.
  intros reasons.
  destruct (bounded_reasons_spec [] values) as (Hnd & Hall & Hlen & (extra & Heq & Hsub) & Hfull);
    [constructor | constructor | done |]. cbn in Heq. rewrite <- Heq in Hsub.
  assert (Hr : 1 <= llen reasons <= 8 /\ NoDup reasons /\ Forall (fun c => validInputRequestReason c = true) reasons).
  { unfold reasons, BoundedInputRequestReasons. destruct (llen _ =? 0) eqn:E; bprop.
    - split_and!; [done | done | apply NoDup_singleton | by repeat constructor].
    - pose proof (llen_nonneg (bounded_reasons [] values)). split_and!; try done; lia. }
  destruct Hr as (Hlr & Hndr & Hallr). split_and!; try done; try lia.
  - unfold reasons, BoundedInputRequestReasons. destruct (llen _ =? 0) eqn:E; bprop; [right; split; [done|]|by left].
    intros v Hv. destruct (validInputRequestReason v) eqn:Hvv; [|done].
    apply (Hfull ltac:(lia) v Hv) in Hvv. apply llen_nil_inv in E. rewrite E in Hvv. set_solver.
  - intros Hl v Hv Hvv. unfold reasons, BoundedInputRequestReasons in *.
    destruct (llen (bounded_reasons [] values) =? 0) eqn:E; bprop; [|by apply Hfull].
    apply (Hfull ltac:(lia) v Hv) in Hvv. apply llen_nil_inv in E. rewrite E in Hvv. set_solver.
  - unfold utc_micro in Ht. apply andb_true_iff in Ht as [Hu Hm].
    unfold NewInputRequest. apply empty_string_false in Hid, Hver.
    rewrite Hid, Hver, Ha, Hu, Hm. cbn -[copy_reasons llen].
    rewrite (proj2 (Z.eqb_neq _ _)), (proj2 (Z.ltb_ge _ _)) by (unfold MaximumInputRequestReasons; lia).
    cbn -[copy_reasons]. rewrite (proj2 (copy_reasons_Ok [] reasons reasons (NoDup_nil_2))) by done. done.
Qed.

Lemma bounded_reasons_accepted_witness :
  1 <= llen (BoundedInputRequestReasons ["Bad"; "document.front"; "document.front"]%string).
Proof.
  refine (proj1 (proj1 (bounded_reasons_accepted (H:=UlidText.ulid_text) ["Bad"; "document.front"; "document.front"]%string
    "inp_1" "ver_1" "" LifecycleSpec.sample_key LifecycleSpec.t0 _ _ _ _))); try done; by vm_compute.
Defined.
End InputRequestSpec.

(** ** The store applies each command once and logs a path of the graph *)
Module StoreSpec.
Import LifecycleStore.
Section StoreSpec.
Context `{Ulid}.
Variable sha256_json : Canonical -> string.

(** A command value of Go's types: the version is a 64-bit integer and the
    decision reference is zero or a parsed identifier. *)
Definition typed_command (c : LifecycleCommand) : Prop :=
  ExpectedVersion c <= max_int64 /\ (CDecisionID c = ""%string \/ is_ok (ParseDecision (CDecisionID c)) = true).

Inductive store_step (a b : Database) : Prop :=
| store_step_apply now isolation tenant c r :
    typed_command c -> ApplyWithin sha256_json a now isolation tenant c = Ok (b, r) -> store_step a b.

Definition committed_row (old : SessionRow) (current next : Lifecycle) (c : LifecycleCommand) (digest : string)
  : SessionRow * TransitionRow :=
  let has_failure := negb (bool_decide (CFailure c = no_failure)) in
  (mk_session_row (State next) (Version next) (row_created_at old) (UpdatedAt next) (row_expires_at old)
     (null_if_empty (CDecisionID c)) (if has_failure then Some (Class_ (CFailure c)) else None)
     (if has_failure then Some (Code (CFailure c)) else None) (row_region old),
   mk_transition_row (VerificationID c) (State current) (State next) (Version current) (Version next)
     (null_if_empty (CDecisionID c)) (ActorID c) digest (OccurredAt c)).

(** A successful call is a replay that changes nothing, or a fresh transition
    that writes one session row and one new log row. *)
Inductive applied (db : Database) (tenant : string) (c : LifecycleCommand) : Database -> LifecycleReceipt -> Prop :=
| applied_replay row :
    verification_transitions db !! (tenant, EventID c) = Some row ->
    tr_digest row = sha256_json (canonical_command c) ->
    applied db tenant c db (lifecycleReceipt c (tr_from row))
| applied_fresh db' old current region rows :
    verification_transitions db !! (tenant, EventID c) = None ->
    verification_sessions db !! (tenant, VerificationID c) = Some old ->
    lockLifecycle db tenant (VerificationID c) = Ok (current, region) ->
    wf_command c -> admits current c ->
    rows = committed_row old current (advanced current c) c (sha256_json (canonical_command c)) ->
    verification_sessions db' = <[(tenant, VerificationID c) := rows.1]> (verification_sessions db) ->
    verification_transitions db' = <[(tenant, EventID c) := rows.2]> (verification_transitions db) ->
    applied db tenant c db' (lifecycleReceipt c (State current)).

Lemma ApplyWithin_applied db now isolation tenant c db' r :
  ApplyWithin sha256_json db now isolation tenant c = Ok (db', r) ->
  applied db tenant c db' r /\ isolation = "serializable"%string /\
  exists cur, lockLifecycle db tenant (VerificationID c) = Ok cur.
Proof.
  unfold ApplyWithin. intros Ha. go_inv Ha. bprop.
  destruct v as [canonical digest]. unfold lifecycleCommandDigest in Hv. go_inv Hv.
  go_inv Ha. destruct v as [current region]. go_inv Ha.
  split; [| by split; [|eexists]].
  unfold replayLifecycle in Hv0.
  destruct (verification_transitions db !! (tenant, EventID c)) as [row|] eqn:Hrow; go_inv Hv0.
  - injection Ha as <- <-. bprop. by eapply applied_replay.
  - go_inv Ha. apply AdvanceLifecycle_Ok in Hv0 as (Hwf & Had & ->).
    unfold persistLifecycle in Hv2.
    destruct (verification_sessions db !! (tenant, VerificationID c)) as [old|] eqn:Hold; [|done].
    go_inv Hv2. bprop. by eapply (applied_fresh _ _ _ _ old).
Qed.

Lemma null_if_empty_inj s t : null_if_empty s = null_if_empty t -> s = t.
Proof.
  unfold null_if_empty. destruct (empty_string s) eqn:Es, (empty_string t) eqn:Et; try done.
  - apply empty_string_true in Es, Et. congruence.
  - congruence.
Qed.

Lemma canonical_command_inj c d : canonical_command c = canonical_command d -> c = d.
Proof.
  destruct c as [ev ver n tgt dec act t f], d as [ev' ver' n' tgt' dec' act' t' f'].
  unfold canonical_command. cbn. intros [= -> -> -> -> Hd -> -> Hf].
  apply null_if_empty_inj in Hd as ->. f_equal.
  destruct (bool_decide (f = no_failure)) eqn:E1, (bool_decide (f' = no_failure)) eqn:E2; bprop; congruence.
Qed.

(** Log rows are immutable, and a readable session stays readable. *)
Lemma store_step_transitions a b k row :
  store_step a b -> verification_transitions a !! k = Some row -> verification_transitions b !! k = Some row.
Proof.
  intros [now iso ten c r _ (Happ & _ & _)%ApplyWithin_applied] Hk.
  destruct Happ as [|b old cur reg rows Hnone _ _ _ _ _ _ ->]; [done|].
  rewrite lookup_insert_ne; [done | congruence].
Qed.

Lemma lock_committed db tenant c db' old current next digest :
  typed_command c ->
  verification_sessions db' =
    <[(tenant, VerificationID c) := (committed_row old current next c digest).1]> (verification_sessions db) ->
  exists x, lockLifecycle db' tenant (VerificationID c) = Ok x.
Proof.
  intros [_ Hd] Heq. unfold lockLifecycle. rewrite Heq, lookup_insert_eq. cbn.
  assert (Hdec : exists d, match null_if_empty (CDecisionID c) with
    | None => Ok ""%string
    | Some d => if is_ok (ParseDecision d) then Ok d else Err ErrSessionConflict end = Ok d).
  { unfold null_if_empty. destruct Hd as [-> | Hd]; [by eexists|]. destruct (empty_string _); [by eexists|].
    rewrite Hd. by eexists. }
  destruct Hdec as [d ->]. cbn. destruct (bool_decide (CFailure c = no_failure)); cbn; by eexists.
Qed.

Lemma store_step_lock a b tenant ver :
  store_step a b -> (exists x, lockLifecycle a tenant ver = Ok x) ->
  exists x, lockLifecycle b tenant ver = Ok x.
Proof.
  intros [now iso ten c r Hty (Happ & _ & _)%ApplyWithin_applied] Hx.
  destruct Happ as [|b old cur reg rows _ _ _ _ _ -> Hs _]; [done|].
  destruct (decide ((tenant, ver) = (ten, VerificationID c))) as [Heq|Hne].
  - injection Heq as -> ->. by eapply lock_committed.
  - unfold lockLifecycle in *. rewrite Hs, lookup_insert_ne by done. exact Hx.
Qed.

(** [ApplyWithin] on a logged command is a replay. *)
Lemma ApplyWithin_replay db now tenant c row :
  empty_string tenant = false -> Validate c = true ->
  0 <= year (OccurredAt c) <= 9999 ->
  (exists x, lockLifecycle db tenant (VerificationID c) = Ok x) ->
  verification_transitions db !! (tenant, EventID c) = Some row ->
  tr_digest row = sha256_json (canonical_command c) ->
  ApplyWithin sha256_json db now "serializable" tenant c = Ok (db, lifecycleReceipt c (tr_from row)).
Proof.
  intros Ht Hwf Hy [[cur reg] Hl] Hrow Hdig. unfold ApplyWithin, lifecycleCommandDigest.
  rewrite Ht, Hwf. change (String.eqb "serializable" "serializable") with true.
  rewrite (proj2 (Z.ltb_ge _ _)), (proj2 (Z.ltb_ge _ _)) by lia. cbn [negb orb rbind].
  rewrite Hl. cbn [rbind]. unfold replayLifecycle. rewrite Hrow, Hdig, String.eqb_refl. done.
Qed.

(** A list of logged transitions that leads from one state and version to
    another along the edges of the graph, one version at a time. *)
Inductive path (s : SessionState) (n : Z) : list (string * TransitionRow) -> SessionState -> Z -> Prop :=
| path_nil : path s n [] s n
| path_snoc log e tr :
    path s n log (tr_from tr) (tr_expected tr) -> tr_resulting tr = tr_expected tr + 1 ->
    edge (tr_from tr) (tr_to tr) -> path s n (log ++ [(e, tr)]) (tr_to tr) (tr_resulting tr).

Lemma path_length s n log m k : path s n log m k -> k = n + llen log.
Proof. induction 1 as [|log e tr _ IH Hr _]; [unfold llen; cbn; lia|]. rewrite llen_app, Hr, IH. unfold llen. cbn. lia. Qed.

Definition logged_for (db : Database) (tenant ver : string) (log : list (string * TransitionRow)) : Prop :=
  forall e tr, (e, tr) ∈ log <-> verification_transitions db !! (tenant, e) = Some tr /\ tr_verification tr = ver.

Definition log_ok (db0 db : Database) : Prop :=
  forall tenant ver row, verification_sessions db !! (tenant, ver) = Some row ->
  exists row0 log, verification_sessions db0 !! (tenant, ver) = Some row0 /\
    path (row_state row0) (row_version row0) log (row_state row) (row_version row) /\
    logged_for db tenant ver log.

(** The row behind a locked lifecycle. *)
Lemma lockLifecycle_row db tenant ver current region :
  lockLifecycle db tenant ver = Ok (current, region) ->
  exists row, verification_sessions db !! (tenant, ver) = Some row /\
    State current = row_state row /\ Version current = row_version row.
Proof.
  unfold lockLifecycle. destruct (verification_sessions db !! (tenant, ver)) as [row|]; [|done].
  intros Hl. go_inv Hl. by exists row.
Qed.

Lemma log_ok_step db0 a b : log_ok db0 a -> store_step a b -> log_ok db0 b.
Proof.
  intros Hok [now iso ten c r [Hmax _] (Happ & _ & _)%ApplyWithin_applied].
  destruct Happ as [|b old cur reg rows Hnone Hold Hlock Hwf Had Hrows Hs Ht]; [done|].
  intros tenant ver row Hrow. rewrite Hs in Hrow.
  destruct (decide ((tenant, ver) = (ten, VerificationID c))) as [Heq|Hne].
  - injection Heq as -> ->. rewrite lookup_insert_eq in Hrow. injection Hrow as <-.
    destruct (Hok ten (VerificationID c) old Hold) as (row0 & log & H0 & Hpath & Hlog).
    exists row0, (log ++ [(EventID c, rows.2)]). subst rows.
    pose proof (advanced_version cur c Hwf Had Hmax) as Hv. split_and!; [done | |].
    + apply (path_snoc _ _ log (EventID c)); cbn; [| done | apply (ad_edge _ _ Had)].
      destruct (lockLifecycle_row _ _ _ _ _ Hlock) as (old' & Hold' & -> & ->).
      rewrite Hold in Hold'. injection Hold' as <-. exact Hpath.
    + intros e tr. rewrite elem_of_app, list_elem_of_singleton, Ht, (Hlog e tr), lookup_insert_Some. naive_solver.
  - rewrite lookup_insert_ne in Hrow by done.
    destruct (Hok tenant ver row Hrow) as (row0 & log & H0 & Hpath & Hlog).
    exists row0, log. split_and!; [done | done |].
    intros e tr. rewrite (Hlog e tr), Ht, lookup_insert_Some. subst rows. naive_solver.
Qed.

(** C2: a command takes effect exactly once.  Once a command has been applied,
    repeating it at any later time, after any other transitions, returns the
    original receipt and changes nothing; and a different command under the same
    event identity never succeeds, unless it exhibits a digest collision. *)
Theorem apply_exactly_once (db db1 db2 : Database) (now : Time) (isolation tenant : string)
    (c : LifecycleCommand) (r : LifecycleReceipt) (Hty : typed_command c)
    (Happ : ApplyWithin sha256_json db now isolation tenant c = Ok (db1, r)) (Hlater : rtc store_step db1 db2) :
  (forall now', ApplyWithin sha256_json db2 now' "serializable" tenant c = Ok (db2, r)) /\
  (forall now' isolation' c' db3 r', EventID c' = EventID c ->
     ApplyWithin sha256_json db2 now' isolation' tenant c' = Ok (db3, r') ->
     db3 = db2 /\ ((c' = c /\ r' = r) \/ exists x y, x <> y /\ sha256_json x = sha256_json y)).
Proof.
  assert (Hguards : empty_string tenant = false /\ Validate c = true /\ 0 <= year (OccurredAt c) <= 9999).
  { unfold ApplyWithin, lifecycleCommandDigest in Happ. repeat go_inv Happ. bprop. go_inv Hv. bprop. done. }
  destruct Hguards as (Hten & Hval & Hyear).
  destruct (ApplyWithin_applied _ _ _ _ _ _ _ Happ) as (Heff & _ & Hlk).
  assert (Hlogged : exists row, verification_transitions db1 !! (tenant, EventID c) = Some row /\
     tr_digest row = sha256_json (canonical_command c) /\ r = lifecycleReceipt c (tr_from row)).
  { destruct Heff as [row|b old cur reg rows _ _ _ _ _ -> _ Ht]; [by exists row|].
    eexists. split; [rewrite Ht; apply lookup_insert_eq | done]. }
  assert (Hlk1 : exists x, lockLifecycle db1 tenant (VerificationID c) = Ok x).
  { apply (store_step_lock db db1); [by econstructor | done]. }
  destruct Hlogged as (row & Hrow & Hdig & ->).
  assert (Hrow2 : verification_transitions db2 !! (tenant, EventID c) = Some row /\
                  exists x, lockLifecycle db2 tenant (VerificationID c) = Ok x).
  { clear - Hrow Hlk1 Hlater. induction Hlater; [done|].
    apply IHHlater; [by eapply store_step_transitions | by eapply store_step_lock]. }
  destruct Hrow2 as [Hrow2 Hlk2]. split; [intros now'; by apply ApplyWithin_replay|].
  intros now' iso' c' db3 r' Hev Happ'. apply ApplyWithin_applied in Happ' as (Heff' & _ & _).
  destruct Heff' as [row' Hr' Hd'|]; [|congruence]. split; [done|].
  rewrite Hev, Hrow2 in Hr'. injection Hr' as <-. rewrite Hdig in Hd'.
  destruct (decide (c' = c)) as [->|E]; [by left|].
  right. exists (canonical_command c'), (canonical_command c).
  split; [by intros ->%canonical_command_inj | done].
Qed.

End StoreSpec.

Import UlidText LifecycleSpec.
Definition sample_digest (c : Canonical) : string := can_event c.
Definition sample_row : SessionRow :=
  mk_session_row SessionStateCollecting 1 t0 t0 (add t0 hour) None None None (Some "eu-west"%string).
Definition sample_db : Database :=
  mk_database {[("ten_1", "ver_1")%string := sample_row]} ∅ ∅ ∅ [].
Definition sample_effect : result Error (Database * LifecycleReceipt) :=
  ApplyWithin sample_digest sample_db (add t0 minute) "serializable" "ten_1"
    (sample_command SessionStateProcessing no_failure).
Definition sample_after : Database := match sample_effect with Ok (db, _) => db | Err _ => sample_db end.

Lemma sample_effect_ok :
  sample_effect = Ok (sample_after, lifecycleReceipt (sample_command SessionStateProcessing no_failure) SessionStateCollecting).
Proof. vm_compute. reflexivity. Qed.

Lemma sample_typed : typed_command (sample_command SessionStateProcessing no_failure).
Proof. split; [by vm_compute | by left]. Qed.

Lemma apply_exactly_once_witness :
  ApplyWithin sample_digest sample_after (add t0 hour) "serializable" "ten_1"
    (sample_command SessionStateProcessing no_failure) =
  Ok (sample_after, lifecycleReceipt (sample_command SessionStateProcessing no_failure) SessionStateCollecting).
Proof.
  refine (proj1 (apply_exactly_once sample_digest sample_db sample_after sample_after (add t0 minute) "serializable" "ten_1"
    (sample_command SessionStateProcessing no_failure) _ sample_typed sample_effect_ok (rtc_refl _ _)) (add t0 hour)).
Defined.

End StoreSpec.
