(* ===== verification/Execution.v ===== *)
(** * Verification checks and attempts

    [internal/verification/execution.go]: the check aggregate, its immutable
    attempt history and the classification of duplicate, conflicting and stale
    deliveries; [execution_service.go]: the application service that loads,
    mutates and saves one aggregate under an optimistic version, and the
    in-memory repository.

    The Go methods have a pointer receiver and may change the aggregate and
    still return an error, so a method is a function from a check to the next
    check, a disposition and an optional error.  A nil slice of reason codes and
    an empty one encode differently, so reason codes are optional lists. *)

From S2P Require Import Prelude GoTime Ident.
From Stdlib Require Import Ascii.

(** ** Vocabulary *)

Inductive CheckState :=
| CheckQueued | CheckRunning | CheckAwaitingInput | CheckAwaitingProvider | CheckCompleted
| CheckSkippedByPolicy | CheckTimedOut | CheckCancelled | CheckFailed | CheckStateOther (label : string).

(** The empty label is [CheckOutcomeOther ""]. *)
Inductive CheckOutcome := CheckPassed | CheckNotPassed | CheckInconclusive | CheckOutcomeOther (label : string).
Inductive RunnerKind := RunnerProvider | RunnerModel | RunnerOther (label : string).
Inductive SignalOutcome := SignalSatisfied | SignalNotSatisfied | SignalInconclusive | SignalOther (label : string).
Inductive RetryDisposition := RetryNever | RetryBackoff | RetryReconcile | RetryOther (label : string).
Inductive AttemptState :=
| AttemptRunning | AttemptCompleted | AttemptFailed | AttemptTimedOut | AttemptCancelled
| AttemptStateOther (label : string).

#[export] Instance CheckState_eq_dec : EqDecision CheckState. Proof. solve_decision. Defined.
#[export] Instance CheckOutcome_eq_dec : EqDecision CheckOutcome. Proof. solve_decision. Defined.
#[export] Instance RunnerKind_eq_dec : EqDecision RunnerKind. Proof. solve_decision. Defined.
#[export] Instance SignalOutcome_eq_dec : EqDecision SignalOutcome. Proof. solve_decision. Defined.
#[export] Instance RetryDisposition_eq_dec : EqDecision RetryDisposition. Proof. solve_decision. Defined.
#[export] Instance AttemptState_eq_dec : EqDecision AttemptState. Proof. solve_decision. Defined.

Definition no_outcome : CheckOutcome := CheckOutcomeOther "".

Definition maximumSignals : Z := 64.
Definition maximumReasonCodes : Z := 16.

Inductive Error := ErrInvalidCheck | ErrAttemptConflict | ErrStaleAttempt | ErrEncode | ErrCheckNotFound | ErrCheckVersion
| ErrEvent | ErrHook | ErrPublish.
#[export] Instance Error_eq_dec : EqDecision Error. Proof. solve_decision. Defined.

Record Provenance := mk_provenance {
  RunnerID : string;
  RunnerVersion : string;
  PackageDigest : string;
  ContractMajor : Z;
  ContractMinor : Z;
  RequestDigest : string;
  Configuration : string;
}.

Record Signal := mk_signal {
  Name : string;
  SOutcome : SignalOutcome;
  ReasonCodes : option (list string);
}.

Record Observation := mk_observation {
  O_ID : string;
  O_AttemptID : string;
  O_RunnerKind : RunnerKind;
  O_Provenance : Provenance;
  O_Signal : Signal;
  RecordedAt : Time;
}.

Record Failure := mk_failure { FClass : string; FCode : string; Retry : RetryDisposition; RetryAfter : Z }.

Record Attempt := mk_attempt {
  A_ID : string;
  Number : Z;
  Fence : Z;
  A_RunnerKind : RunnerKind;
  A_Provenance : Provenance;
  A_State : AttemptState;
  StartedAt : Time;
  Deadline : Time;
  FinishedAt : Time;
  A_Failure : option Failure;
  Observations : list Observation;
  resultDigest : string;
}.

Record Diagnostic := mk_diagnostic { D_AttemptID : string; Kind : string; D_Code : string; D_RecordedAt : Time }.

Record Check := mk_check {
  ID : string;
  TenantID : string;
  VerificationID : string;
  C_Name : string;
  C_State : CheckState;
  Outcome : CheckOutcome;
  Version : Z;
  CreatedAt : Time;
  UpdatedAt : Time;
  attempts : list Attempt;
  diagnostics : list Diagnostic;
}.

#[export] Instance Provenance_eq_dec : EqDecision Provenance. Proof. solve_decision. Defined.
#[export] Instance Signal_eq_dec : EqDecision Signal. Proof. solve_decision. Defined.
#[export] Instance Observation_eq_dec : EqDecision Observation. Proof. solve_decision. Defined.
#[export] Instance Failure_eq_dec : EqDecision Failure. Proof. solve_decision. Defined.
#[export] Instance Attempt_eq_dec : EqDecision Attempt. Proof. solve_decision. Defined.
#[export] Instance Diagnostic_eq_dec : EqDecision Diagnostic. Proof. solve_decision. Defined.
#[export] Instance Check_eq_dec : EqDecision Check. Proof. solve_decision. Defined.

(** ** Validation *)

Definition utcNonZero (value : Time) : bool := utc_non_zero value.

(** Sixty-four lower-case hexadecimal digits. *)
Definition digestToken (value : string) : bool := is_hex_digest value.

Definition safeExecutionToken (value : string) (maximum : Z) : bool :=
  if empty_string value || (maximum <? slen value) then false
  else string_forall (fun c => is_lower c || is_digit c || byte_of "._-:" c) value.

Definition known_runner (kind : RunnerKind) : bool :=
  match kind with RunnerOther _ => false | _ => true end.
Definition known_retry (retry : RetryDisposition) : bool :=
  match retry with RetryOther _ => false | _ => true end.
Definition known_signal (outcome : SignalOutcome) : bool :=
  match outcome with SignalOther _ => false | _ => true end.

Definition validCheckState (state : CheckState) : bool :=
  match state with CheckStateOther _ => false | _ => true end.
Definition validCheckOutcome (outcome : CheckOutcome) : bool :=
  match outcome with CheckOutcomeOther _ => false | _ => true end.

(** [validateProvenance(value) == nil]. *)
Definition validateProvenance (value : Provenance) : bool :=
  safeExecutionToken (RunnerID value) 128 && safeExecutionToken (RunnerVersion value) 64 &&
  digestToken (PackageDigest value) && negb (ContractMajor value =? 0) &&
  digestToken (RequestDigest value) && digestToken (Configuration value).

Definition reason_list (signal : Signal) : list string := default [] (ReasonCodes signal).

(** [validateObservation(value, attempt, at) == nil]. *)
Definition validateObservation (value : Observation) (attempt : Attempt) (at_ : Time) : bool :=
  negb (empty_string (O_ID value)) && String.eqb (O_AttemptID value) (A_ID attempt) &&
  bool_decide (O_RunnerKind value = A_RunnerKind attempt) &&
  bool_decide (O_Provenance value = A_Provenance attempt) &&
  utcNonZero (RecordedAt value) && negb (after (RecordedAt value) at_) &&
  safeExecutionToken (Name (O_Signal value)) 128 && known_signal (SOutcome (O_Signal value)) &&
  (llen (reason_list (O_Signal value)) <=? maximumReasonCodes) &&
  forallb (fun code => safeExecutionToken code 100) (reason_list (O_Signal value)) &&
  no_dupb (reason_list (O_Signal value)).

(** The failure guards shared by [FailAttempt] and [validateStoredAttempt]. *)
Definition valid_failure (failure : Failure) : bool :=
  safeExecutionToken (FClass failure) 100 && safeExecutionToken (FCode failure) 100 &&
  known_retry (Retry failure) && (0 <=? RetryAfter failure).

Definition cloneObservation (value : Observation) : Observation :=
  mk_observation (O_ID value) (O_AttemptID value) (O_RunnerKind value) (O_Provenance value)
    (mk_signal (Name (O_Signal value)) (SOutcome (O_Signal value)) (Some (reason_list (O_Signal value))))
    (RecordedAt value).

Definition cloneAttempt (value : Attempt) : Attempt :=
  mk_attempt (A_ID value) (Number value) (Fence value) (A_RunnerKind value) (A_Provenance value)
    (A_State value) (StartedAt value) (Deadline value) (FinishedAt value) (A_Failure value)
    (map cloneObservation (Observations value)) (resultDigest value).

(** What [digestResult] encodes of one observation: not its identifier, and the
    recording time to the microsecond. *)
Record SemanticObservation := mk_semantic {
  S_AttemptID : string;
  S_RunnerKind : RunnerKind;
  S_Provenance : Provenance;
  S_Signal : Signal;
  S_RecordedAt : Time;
}.
#[export] Instance SemanticObservation_eq_dec : EqDecision SemanticObservation. Proof. solve_decision. Defined.

Definition semantic (o : Observation) : SemanticObservation :=
  mk_semantic (O_AttemptID o) (O_RunnerKind o) (O_Provenance o) (O_Signal o) (truncate (utc (RecordedAt o)) microsecond).

Definition json_time_ok (t : Time) : bool := (0 <=? year t) && (year t <=? 9999).

(** The loop: the first unsatisfied signal returns, an inconclusive one is
    remembered in [result]. *)
Fixpoint aggregate_from (result : CheckOutcome) (observations : list Observation) : CheckOutcome :=
  match observations with
  | [] => result
  | observation :: rest =>
      if bool_decide (SOutcome (O_Signal observation) = SignalNotSatisfied) then CheckNotPassed
      else aggregate_from (if bool_decide (SOutcome (O_Signal observation) = SignalInconclusive)
                           then CheckInconclusive else result) rest
  end.

Definition aggregateOutcome (observations : list Observation) : CheckOutcome :=
  aggregate_from CheckPassed observations.

Lemma aggregate_from_valid result observations :
  validCheckOutcome result = true -> validCheckOutcome (aggregate_from result observations) = true.
Proof.
  revert result. induction observations as [|o rest IH]; intros result Hr; cbn; [done|].
  case_match; [done|]. apply IH. by case_match.
Qed.

(** [validateCheckAttemptState(state, attempts) == nil]. *)
Definition validateCheckAttemptState (state : CheckState) (attempts : list Attempt) : bool :=
  match last attempts with
  | None => bool_decide (state = CheckQueued) || bool_decide (state = CheckSkippedByPolicy)
  | Some latest =>
      forallb (fun attempt => negb (bool_decide (A_State attempt = AttemptRunning))) (removelast attempts) &&
      match state with
      | CheckRunning | CheckAwaitingProvider => bool_decide (A_State latest = AttemptRunning)
      | CheckCompleted => bool_decide (A_State latest = AttemptCompleted)
      | CheckFailed => bool_decide (A_State latest = AttemptFailed)
      | CheckTimedOut => bool_decide (A_State latest = AttemptTimedOut)
      | CheckCancelled => bool_decide (A_State latest = AttemptCancelled)
      | CheckSkippedByPolicy => bool_decide (A_State latest = AttemptCancelled)
      | _ => true
      end
  end.

(** ** The aggregate *)
Section Aggregate.

(** Hexadecimal SHA-256 of the JSON text of the observations and the failure. *)
Variable sha256_json : list SemanticObservation * option Failure -> string.

(** [None] when JSON refuses a time outside the years 0 to 9999. *)
Definition digestResult (observations : list Observation) (failure : option Failure) : option string :=
  let semantics := map semantic observations in
  if forallb (fun s => json_time_ok (S_RecordedAt s)) semantics then Some (sha256_json (semantics, failure)) else None.

(** [validateStoredAttempt(attempt, expectedNumber) == nil]. *)
Definition validateStoredAttempt (attempt : Attempt) (expectedNumber : Z) : bool :=
  if empty_string (A_ID attempt) || negb (Number attempt =? expectedNumber) || (Fence attempt =? 0) ||
     negb (known_runner (A_RunnerKind attempt)) || negb (validateProvenance (A_Provenance attempt)) ||
     negb (utcNonZero (StartedAt attempt)) || negb (utcNonZero (Deadline attempt)) ||
     negb (after (Deadline attempt) (StartedAt attempt))
  then false
  else if bool_decide (A_State attempt = AttemptRunning)
  then is_zero (FinishedAt attempt) && bool_decide (A_Failure attempt = None) &&
       bool_decide (Observations attempt = []) && empty_string (resultDigest attempt)
  else
    match A_State attempt with
    | AttemptCompleted | AttemptFailed | AttemptTimedOut | AttemptCancelled =>
        utcNonZero (FinishedAt attempt) && negb (before (FinishedAt attempt) (StartedAt attempt)) &&
        digestToken (resultDigest attempt) &&
        (if bool_decide (A_State attempt = AttemptCompleted)
         then bool_decide (A_Failure attempt = None) && negb (bool_decide (Observations attempt = [])) &&
              forallb (fun o => validateObservation o attempt (FinishedAt attempt)) (Observations attempt)
         else match A_Failure attempt with
              | None => false
              | Some failure => bool_decide (Observations attempt = []) && valid_failure failure
              end) &&
        bool_decide (digestResult (Observations attempt) (A_Failure attempt) = Some (resultDigest attempt))
    | _ => false
    end.

Definition NewCheck (identifier tenantID verificationID name : string) (now : Time) : result Error Check :=
  reject empty_string identifier || empty_string tenantID || empty_string verificationID ||
         negb (safeExecutionToken name 128) || negb (utcNonZero now) with ErrInvalidCheck ;;
  Ok (mk_check identifier tenantID verificationID name CheckQueued no_outcome 1 now now [] []).

(** The loop over the stored attempts: numbers count from one, as [uint32]. *)
Fixpoint restore_attempts (index : Z) (attempts : list Attempt) : result Error (list Attempt) :=
  match attempts with
  | [] => Ok []
  | attempt :: rest =>
      reject negb (validateStoredAttempt attempt ((index + 1) mod 2 ^ 32)) with ErrInvalidCheck ;;
      let? copies := restore_attempts (index + 1) rest in
      Ok (cloneAttempt attempt :: copies)
  end.

Definition valid_diagnostic (diagnostic : Diagnostic) : bool :=
  negb (empty_string (D_AttemptID diagnostic)) &&
  (String.eqb (Kind diagnostic) "duplicate" || String.eqb (Kind diagnostic) "conflict" ||
   String.eqb (Kind diagnostic) "stale") &&
  safeExecutionToken (D_Code diagnostic) 100 && utcNonZero (D_RecordedAt diagnostic).

Definition RestoreCheck (identifier tenantID verificationID name : string) (state : CheckState)
    (outcome : CheckOutcome) (version : Z) (createdAt updatedAt : Time)
    (attempts : list Attempt) (diagnostics : list Diagnostic) : result Error Check :=
  reject empty_string identifier || empty_string tenantID || empty_string verificationID ||
         negb (safeExecutionToken name 128) || negb (validCheckState state) || (version <? 1) ||
         negb (utcNonZero createdAt) || negb (utcNonZero updatedAt) || before updatedAt createdAt ||
         negb (Bool.eqb (bool_decide (state = CheckCompleted)) (validCheckOutcome outcome)) with ErrInvalidCheck ;;
  let? copyOfAttempts := restore_attempts 0 attempts in
  reject negb (validateCheckAttemptState state copyOfAttempts) with ErrInvalidCheck ;;
  reject negb (forallb valid_diagnostic diagnostics) with ErrInvalidCheck ;;
  Ok (mk_check identifier tenantID verificationID name state outcome version createdAt updatedAt
        copyOfAttempts diagnostics).

(** [check.Attempts()] is the list of clones. *)
Definition Attempts (check : Check) : list Attempt := map cloneAttempt (attempts check).

Definition Validate (check : Check) : result Error Check :=
  RestoreCheck (ID check) (TenantID check) (VerificationID check) (C_Name check) (C_State check) (Outcome check)
    (Version check) (CreatedAt check) (UpdatedAt check) (Attempts check) (diagnostics check).

Definition RestoreAttempt (attempt : Attempt) (digest : string) : result Error Attempt :=
  let attempt := mk_attempt (A_ID attempt) (Number attempt) (Fence attempt) (A_RunnerKind attempt)
    (A_Provenance attempt) (A_State attempt) (StartedAt attempt) (Deadline attempt) (FinishedAt attempt)
    (A_Failure attempt) (Observations attempt) digest in
  reject negb (validateStoredAttempt attempt (Number attempt)) with ErrInvalidCheck ;;
  Ok (cloneAttempt attempt).

(** The assignments the methods make. *)
Definition with_progress (check : Check) (state : CheckState) (outcome : CheckOutcome) (at_ : Time)
    (attempts' : list Attempt) : Check :=
  mk_check (ID check) (TenantID check) (VerificationID check) (C_Name check) state outcome
    (wrap_int64 (Version check + 1)) (CreatedAt check) at_ attempts' (diagnostics check).

Definition with_diagnostics (check : Check) (at_ : Time) (version : Z) (diagnostics' : list Diagnostic) : Check :=
  mk_check (ID check) (TenantID check) (VerificationID check) (C_Name check) (C_State check) (Outcome check)
    version (CreatedAt check) at_ (attempts check) diagnostics'.

(** Writing through the pointer to the last attempt. *)
Definition set_last {A : Type} (xs : list A) (x : A) : list A := removelast xs ++ [x].

Definition finish (attempt : Attempt) (state : AttemptState) (at_ : Time) (failure : option Failure)
    (observations : list Observation) (digest : string) : Attempt :=
  mk_attempt (A_ID attempt) (Number attempt) (Fence attempt) (A_RunnerKind attempt) (A_Provenance attempt)
    state (StartedAt attempt) (Deadline attempt) at_ failure observations digest.

Definition BeginAttempt (check : Check) (attempt : Attempt) : Check * option Error :=
  if negb (bool_decide (C_State check = CheckQueued) || bool_decide (C_State check = CheckFailed) ||
           bool_decide (C_State check = CheckTimedOut)) ||
     empty_string (A_ID attempt) || negb (Number attempt =? (llen (attempts check) + 1) mod 2 ^ 32) ||
     (Fence attempt =? 0) || negb (known_runner (A_RunnerKind attempt)) ||
     negb (bool_decide (A_State attempt = AttemptRunning)) || negb (utcNonZero (StartedAt attempt)) ||
     negb (utcNonZero (Deadline attempt)) || negb (after (Deadline attempt) (StartedAt attempt)) ||
     negb (validateProvenance (A_Provenance attempt))
  then (check, Some ErrInvalidCheck)
  else (with_progress check CheckRunning no_outcome (StartedAt attempt) (attempts check ++ [cloneAttempt attempt]), None).

Definition SkipRunning (check : Check) (at_ : Time) (code : string) : Check * option Error :=
  match last (attempts check) with
  | None => (check, Some ErrInvalidCheck)
  | Some attempt =>
      if negb (bool_decide (C_State check = CheckRunning)) || negb (utcNonZero at_) ||
         before at_ (UpdatedAt check) || negb (safeExecutionToken code 100)
      then (check, Some ErrInvalidCheck)
      else if negb (bool_decide (A_State attempt = AttemptRunning)) || before at_ (StartedAt attempt)
      then (check, Some ErrInvalidCheck)
      else
        let failure := mk_failure "cancelled" code RetryNever 0 in
        match digestResult [] (Some failure) with
        | None => (check, Some ErrEncode)
        | Some digest =>
            (with_progress check CheckSkippedByPolicy no_outcome at_
               (set_last (attempts check)
                  (finish attempt AttemptCancelled at_ (Some failure) (Observations attempt) digest)), None)
        end
  end.

(** [currentAttempt]: the next check with, when there is no error, the last
    attempt and whether the delivery is to be applied or is a duplicate. *)
Definition currentAttempt (check : Check) (attemptID : string) (fence : Z) (at_ : Time)
  : Check * (option Attempt * string * option Error) :=
  match last (attempts check) with
  | None => (check, (None, ""%string, Some ErrInvalidCheck))
  | Some current =>
      if empty_string attemptID || (fence =? 0) || negb (utcNonZero at_)
      then (check, (None, ""%string, Some ErrInvalidCheck))
      else if negb (String.eqb (A_ID current) attemptID) || negb (Fence current =? fence) ||
              negb (bool_decide (C_State check = CheckRunning))
      then
        let kind := if String.eqb (A_ID current) attemptID && (Fence current =? fence) &&
                       negb (bool_decide (A_State current = AttemptRunning)) then "duplicate"%string else "stale"%string in
        let check' := with_diagnostics check at_ (wrap_int64 (Version check + 1))
                        (diagnostics check ++ [mk_diagnostic attemptID kind "terminal_delivery"%string at_]) in
        if String.eqb kind "duplicate"%string then (check', (Some current, kind, None))
        else (check', (None, kind, Some ErrStaleAttempt))
      else if before at_ (StartedAt current) then (check, (None, ""%string, Some ErrInvalidCheck))
      else (check, (Some current, "apply"%string, None))
  end.

(** [check.diagnostics\[len-1\].Kind = "conflict"]. *)
Definition mark_conflict (check : Check) : Check :=
  match last (diagnostics check) with
  | None => check
  | Some d =>
      with_diagnostics check (UpdatedAt check) (Version check)
        (set_last (diagnostics check) (mk_diagnostic (D_AttemptID d) "conflict" (D_Code d) (D_RecordedAt d)))
  end.

(** The comparison both delivery methods make once the digest is known. *)
Definition replay (check : Check) (attempt : Attempt) (digest : string) : Check * string * option Error :=
  if negb (String.eqb (resultDigest attempt) digest)
  then (mark_conflict check, "conflict"%string, Some ErrAttemptConflict)
  else (check, "duplicate"%string, None).

Definition CompleteAttempt (check : Check) (attemptID : string) (fence : Z) (observations : list Observation)
    (at_ : Time) : Check * string * option Error :=
  match currentAttempt check attemptID fence at_ with
  | (check, (_, disposition, Some e)) => (check, disposition, Some e)
  | (check, (None, disposition, None)) => (check, disposition, None)
  | (check, (Some attempt, disposition, None)) =>
      if (llen observations =? 0) || (maximumSignals <? llen observations)
      then (check, ""%string, Some ErrInvalidCheck)
      else if negb (forallb (fun o => validateObservation o attempt at_) observations)
      then (check, ""%string, Some ErrInvalidCheck)
      else
        let copyOfObservations := map cloneObservation observations in
        match digestResult copyOfObservations None with
        | None => (check, ""%string, Some ErrEncode)
        | Some digest =>
            if String.eqb disposition "duplicate" then replay check attempt digest
            else (with_progress check CheckCompleted (aggregateOutcome copyOfObservations) at_
                    (set_last (attempts check)
                       (finish attempt AttemptCompleted at_ (A_Failure attempt) copyOfObservations digest)),
                  "applied"%string, None)
        end
  end.

Definition failure_states (class : string) : AttemptState * CheckState :=
  if String.eqb class "deadline_exceeded" then (AttemptTimedOut, CheckTimedOut)
  else if String.eqb class "cancelled" then (AttemptCancelled, CheckCancelled)
  else (AttemptFailed, CheckFailed).

Definition FailAttempt (check : Check) (attemptID : string) (fence : Z) (failure : Failure) (at_ : Time)
  : Check * string * option Error :=
  match currentAttempt check attemptID fence at_ with
  | (check, (_, disposition, Some e)) => (check, disposition, Some e)
  | (check, (None, disposition, None)) => (check, disposition, None)
  | (check, (Some attempt, disposition, None)) =>
      if negb (valid_failure failure) then (check, ""%string, Some ErrInvalidCheck)
      else
        match digestResult [] (Some failure) with
        | None => (check, ""%string, Some ErrEncode)
        | Some digest =>
            if String.eqb disposition "duplicate" then replay check attempt digest
            else
              let '(attempt_state, check_state) := failure_states (FClass failure) in
              (with_progress check check_state no_outcome at_
                 (set_last (attempts check)
                    (finish attempt attempt_state at_ (Some failure) (Observations attempt) digest)),
               "applied"%string, None)
        end
  end.

(** [Cancel] panics on an empty history in Go; [CheckRunning] excludes it for a
    valid check. *)
Definition Cancel (check : Check) (at_ : Time) : Check * option Error :=
  if negb (bool_decide (C_State check = CheckRunning)) || negb (utcNonZero at_) || before at_ (UpdatedAt check)
  then (check, Some ErrInvalidCheck)
  else match last (attempts check) with
  | None => (check, Some ErrInvalidCheck)
  | Some current =>
      let '(check', _, err) := FailAttempt check (A_ID current) (Fence current)
        (mk_failure "cancelled" "verification_cancelled" RetryNever 0) at_ in
      (check', err)
  end.
End Aggregate.

(** ** What an operation can do to a check

    Every operation leaves the check alone, notes a delivery, appends a running
    attempt or closes the last attempt; the lemmas below reduce each method to
    these effects, so that a theorem about all methods has four cases. *)
Section Effects.
Variable sha256_json : list SemanticObservation * option Failure -> string.

Inductive closure (cur : Attempt) (at_ : Time)
  : AttemptState -> CheckState -> CheckOutcome -> option Failure -> list Observation -> string -> Prop :=
| closure_completed observations digest :
    observations <> [] -> llen observations <= maximumSignals ->
    forallb (fun o => validateObservation o cur at_) observations = true ->
    digestResult sha256_json (map cloneObservation observations) None = Some digest ->
    closure cur at_ AttemptCompleted CheckCompleted (aggregateOutcome (map cloneObservation observations))
      (A_Failure cur) (map cloneObservation observations) digest
| closure_failed st state failure digest :
    (st, state) ∈ [(AttemptFailed, CheckFailed); (AttemptTimedOut, CheckTimedOut);
                   (AttemptCancelled, CheckCancelled); (AttemptCancelled, CheckSkippedByPolicy)] ->
    valid_failure failure = true ->
    digestResult sha256_json [] (Some failure) = Some digest ->
    closure cur at_ st state no_outcome (Some failure) (Observations cur) digest.

(** The index is the instant the operation was given and the attempt it begins. *)
Inductive effect (c : Check) : Time * option Attempt -> Check -> Prop :=
| effect_none ev : effect c ev c
| effect_note id kind at_ :
    id <> ""%string -> kind ∈ ["duplicate"; "conflict"; "stale"]%string -> utcNonZero at_ = true ->
    effect c (at_, None) (with_diagnostics c at_ (wrap_int64 (Version c + 1))
                (diagnostics c ++ [mk_diagnostic id kind "terminal_delivery" at_]))
| effect_begin attempt :
    C_State c = CheckQueued \/ C_State c = CheckFailed \/ C_State c = CheckTimedOut ->
    A_ID attempt <> ""%string -> Number attempt = (llen (attempts c) + 1) mod 2 ^ 32 -> Fence attempt <> 0 ->
    known_runner (A_RunnerKind attempt) = true -> A_State attempt = AttemptRunning ->
    utcNonZero (StartedAt attempt) = true -> utcNonZero (Deadline attempt) = true ->
    after (Deadline attempt) (StartedAt attempt) = true -> validateProvenance (A_Provenance attempt) = true ->
    effect c (StartedAt attempt, Some attempt)
      (with_progress c CheckRunning no_outcome (StartedAt attempt) (attempts c ++ [cloneAttempt attempt]))
| effect_close cur st state outcome at_ failure observations digest :
    last (attempts c) = Some cur -> C_State c = CheckRunning ->
    utcNonZero at_ = true -> instant (StartedAt cur) <= instant at_ ->
    closure cur at_ st state outcome failure observations digest ->
    effect c (at_, None) (with_progress c state outcome at_
                (set_last (attempts c) (finish cur st at_ failure observations digest))).

(** The four outcomes of [currentAttempt]. *)
Inductive delivery (c : Check) (id : string) (fence : Z) (at_ : Time)
  : Check * (option Attempt * string * option Error) -> Prop :=
| delivery_invalid : delivery c id fence at_ (c, (None, ""%string, Some ErrInvalidCheck))
| delivery_stale cur :
    id <> ""%string -> utcNonZero at_ = true -> last (attempts c) = Some cur ->
    A_ID cur <> id \/ Fence cur <> fence \/ (A_State cur = AttemptRunning /\ C_State c <> CheckRunning) ->
    delivery c id fence at_
      (with_diagnostics c at_ (wrap_int64 (Version c + 1)) (diagnostics c ++ [mk_diagnostic id "stale" "terminal_delivery" at_]),
       (None, "stale"%string, Some ErrStaleAttempt))
| delivery_duplicate cur :
    id <> ""%string -> utcNonZero at_ = true -> last (attempts c) = Some cur ->
    A_ID cur = id -> Fence cur = fence -> A_State cur <> AttemptRunning -> C_State c <> CheckRunning ->
    delivery c id fence at_
      (with_diagnostics c at_ (wrap_int64 (Version c + 1)) (diagnostics c ++ [mk_diagnostic id "duplicate" "terminal_delivery" at_]),
       (Some cur, "duplicate"%string, None))
| delivery_apply cur :
    id <> ""%string -> utcNonZero at_ = true -> last (attempts c) = Some cur ->
    A_ID cur = id -> Fence cur = fence -> C_State c = CheckRunning -> instant (StartedAt cur) <= instant at_ ->
    delivery c id fence at_ (c, (Some cur, "apply"%string, None)).

Lemma currentAttempt_delivery c id fence at_ : delivery c id fence at_ (currentAttempt c id fence at_).
Proof.
  unfold currentAttempt. destruct (last (attempts c)) as [cur|] eqn:Hlast; [|constructor].
  destruct (empty_string id || (fence =? 0) || negb (utcNonZero at_)) eqn:Hg; [constructor|]. bprop.
  assert (Hid : id <> ""%string) by (by apply String.eqb_neq).
  destruct (String.eqb (A_ID cur) id) eqn:E1, (Fence cur =? fence) eqn:E2,
    (bool_decide (C_State c = CheckRunning)) eqn:E3, (bool_decide (A_State cur = AttemptRunning)) eqn:E4;
    cbn [negb orb andb]; bprop;
    try (apply (delivery_stale _ _ _ _ cur); tauto);
    try (apply (delivery_duplicate _ _ _ _ cur); tauto);
    (destruct (before at_ (StartedAt cur)) eqn:E5; [constructor|]; apply before_false in E5;
     apply (delivery_apply _ _ _ _ cur); tauto).
Qed.

Lemma mark_conflict_note c id at_ :
  let noted := with_diagnostics c at_ (wrap_int64 (Version c + 1)) (diagnostics c ++ [mk_diagnostic id "duplicate" "terminal_delivery" at_]) in
  mark_conflict noted =
  with_diagnostics c at_ (wrap_int64 (Version c + 1)) (diagnostics c ++ [mk_diagnostic id "conflict" "terminal_delivery" at_]).
Proof.
  cbn. unfold mark_conflict. cbn. rewrite last_snoc. cbn. unfold with_diagnostics, set_last. cbn.
  by rewrite removelast_last.
Qed.

Lemma CompleteAttempt_effect c id fence obs at_ :
  effect c (at_, None) (fst (fst (CompleteAttempt sha256_json c id fence obs at_))).
Proof.
  unfold CompleteAttempt.
  destruct (currentAttempt_delivery c id fence at_) as [| cur | cur Hid Hat Hl | cur Hid Hat Hl H1 H2 Hs Hst]; cbn [fst snd].
  - constructor.
  - apply effect_note; set_solver.
  - assert (Hn : forall k, k ∈ ["duplicate"; "conflict"; "stale"]%string ->
      effect c (at_, None) (with_diagnostics c at_ (wrap_int64 (Version c + 1)) (diagnostics c ++ [mk_diagnostic id k "terminal_delivery" at_])))
      by (intros; by apply effect_note).
    repeat case_match; simplify_eq; cbn [fst]; try (apply Hn; set_solver).
    unfold replay. case_match; cbn [fst]; [rewrite mark_conflict_note|]; apply Hn; set_solver.
  - destruct ((llen obs =? 0) || (maximumSignals <? llen obs)) eqn:El; [constructor|].
    destruct (forallb _ obs) eqn:Eo; [|constructor]. cbn [negb].
    destruct (digestResult _ _ _) as [digest|] eqn:Ed; [|constructor]. cbn [String.eqb fst].
    bprop. change (String.eqb "apply" "duplicate") with false. cbn [fst].
    apply effect_close with (cur := cur); try done. apply closure_completed; try done.
    intros ->. done.
Qed.

Lemma FailAttempt_effect c id fence failure at_ :
  effect c (at_, None) (fst (fst (FailAttempt sha256_json c id fence failure at_))).
Proof.
  unfold FailAttempt.
  destruct (currentAttempt_delivery c id fence at_) as [| cur | cur Hid Hat Hl | cur Hid Hat Hl H1 H2 Hs Hst]; cbn [fst snd].
  - constructor.
  - apply effect_note; set_solver.
  - assert (Hn : forall k, k ∈ ["duplicate"; "conflict"; "stale"]%string ->
      effect c (at_, None) (with_diagnostics c at_ (wrap_int64 (Version c + 1)) (diagnostics c ++ [mk_diagnostic id k "terminal_delivery" at_])))
      by (intros; by apply effect_note).
    repeat case_match; simplify_eq; cbn [fst]; try (apply Hn; set_solver).
    unfold replay. case_match; cbn [fst]; [rewrite mark_conflict_note|]; apply Hn; set_solver.
  - destruct (valid_failure failure) eqn:Ef; [|constructor]. cbn [negb].
    destruct (digestResult _ _ _) as [digest|] eqn:Ed; [|constructor].
    change (String.eqb "apply" "duplicate") with false.
    destruct (failure_states (FClass failure)) as [st state] eqn:Es. cbn [fst].
    apply effect_close with (cur := cur); try done. apply closure_failed; try done.
    unfold failure_states in Es. repeat case_match; simplify_eq; set_solver.
Qed.

Lemma BeginAttempt_effect c attempt : effect c (StartedAt attempt, Some attempt) (fst (BeginAttempt c attempt)).
Proof.
  unfold BeginAttempt. match goal with |- context [if ?b then _ else _] => destruct b eqn:E end; [constructor|].
  cbn [fst]. bprop.
  apply effect_begin; try done; [|by apply String.eqb_neq].
  repeat match goal with Hor : _ \/ _ |- _ => destruct Hor; bprop end; tauto.
Qed.

Lemma SkipRunning_effect c at_ code : effect c (at_, None) (fst (SkipRunning sha256_json c at_ code)).
Proof.
  unfold SkipRunning. destruct (last (attempts c)) as [cur|] eqn:Hl; [|constructor].
  match goal with |- context [if ?b then _ else _] => destruct b eqn:E1 end; [constructor|].
  match goal with |- context [if ?b then _ else _] => destruct b eqn:E2 end; [constructor|].
  destruct (digestResult _ _ _) as [digest|] eqn:Ed; [|constructor]. cbn [fst].
  bprop. match goal with Hb : before at_ (StartedAt cur) = false |- _ => apply before_false in Hb end.
  apply effect_close with (cur := cur); try done.
  apply closure_failed; [set_solver | | done]. unfold valid_failure. cbn. by rewrite !andb_true_r.
Qed.

Lemma Cancel_effect c at_ : effect c (at_, None) (fst (Cancel sha256_json c at_)).
Proof.
  unfold Cancel. case_match; [constructor|]. destruct (last (attempts c)) as [cur|] eqn:Hl; [|constructor].
  pose proof (FailAttempt_effect c (A_ID cur) (Fence cur) (mk_failure "cancelled" "verification_cancelled" RetryNever 0) at_) as He.
  destruct (FailAttempt _ _ _ _ _ _) as [[c' d] e]. exact He.
Qed.
End Effects.

(** ** Histories and valid checks *)

Lemma history_snoc state l cur :
  validateCheckAttemptState state (l ++ [cur]) =
  forallb (fun a => negb (bool_decide (A_State a = AttemptRunning))) l &&
  match state with
  | CheckRunning | CheckAwaitingProvider => bool_decide (A_State cur = AttemptRunning)
  | CheckCompleted => bool_decide (A_State cur = AttemptCompleted)
  | CheckFailed => bool_decide (A_State cur = AttemptFailed)
  | CheckTimedOut => bool_decide (A_State cur = AttemptTimedOut)
  | CheckCancelled => bool_decide (A_State cur = AttemptCancelled)
  | CheckSkippedByPolicy => bool_decide (A_State cur = AttemptCancelled)
  | _ => true
  end.
Proof. unfold validateCheckAttemptState. by rewrite last_snoc, removelast_last. Qed.

Lemma history_clone state l : validateCheckAttemptState state (map cloneAttempt l) = validateCheckAttemptState state l.
Proof.
  destruct l as [|cur l _] using rev_ind; [done|].
  rewrite map_app. cbn [map]. rewrite !history_snoc. f_equal. induction l as [|x l IH]; cbn; [done|]. by rewrite IH.
Qed.

(** The attempts agree with the state: only the last one may be running, it is
    running exactly as the state says, and never under a queued check. *)
Definition history_ok (c : Check) : Prop :=
  validateCheckAttemptState (C_State c) (attempts c) = true /\
  (C_State c = CheckQueued -> forall cur, last (attempts c) = Some cur -> A_State cur <> AttemptRunning).

Lemma set_last_snoc {A : Type} (l : list A) x y : set_last (l ++ [x]) y = l ++ [y].
Proof. unfold set_last. by rewrite removelast_last. Qed.

Lemma closed_states sha cur at_ st state outcome failure obs digest :
  closure sha cur at_ st state outcome failure obs digest ->
  st <> AttemptRunning /\ state <> CheckQueued /\ state <> CheckRunning /\
  validateCheckAttemptState state [finish cur st at_ failure obs digest] = true.
Proof.
  destruct 1 as [|st state f d Hin]; cbn; [done|].
  repeat (apply elem_of_cons in Hin as [Hin|Hin]; [injection Hin as -> ->; done|]). by apply not_elem_of_nil in Hin.
Qed.

Lemma effect_history sha c ev c' : history_ok c -> effect sha c ev c' -> history_ok c'.
Proof.
  intros [Hh Hq] He. destruct He as [| | attempt Hs | cur st state outcome at_ failure obs digest Hl Hs _ _ Hc]; [done | done | |].
  - split; [|done]. cbn. destruct (attempts c) as [|cur l _] using rev_ind; [cbn; by rewrite H3|].
    rewrite history_snoc. cbn. rewrite (bool_decide_eq_true_2 _ H3), andb_true_r, forallb_app.
    rewrite history_snoc in Hh. apply andb_true_iff in Hh as [Hl Hst]. rewrite Hl. cbn. rewrite andb_true_r.
    apply negb_true_iff, bool_decide_eq_false_2. intros Hrun.
    destruct Hs as [Hs | [Hs | Hs]]; rewrite Hs in *; rewrite ?Hrun in Hst; try done.
    apply (Hq eq_refl cur); [apply last_snoc | done].
  - apply last_Some in Hl as [l Hl]. cbn. rewrite Hl in *. rewrite set_last_snoc, Hs in *.
    destruct (closed_states _ _ _ _ _ _ _ _ _ Hc) as (Hst & Hq' & _ & Hv). split; [|done]. cbn.
    rewrite history_snoc in Hh |- *. apply andb_true_iff in Hh as [-> _].
    change [finish cur st at_ failure obs digest] with ([] ++ [finish cur st at_ failure obs digest]) in Hv.
    rewrite history_snoc in Hv. done.
Qed.

(** [Validate] accepts the check. *)
Section Valid.
Variable sha256_json : list SemanticObservation * option Failure -> string.

Record valid_check (c : Check) : Prop := {
  vc_identity : ID c <> ""%string /\ TenantID c <> ""%string /\ VerificationID c <> ""%string;
  vc_name : safeExecutionToken (C_Name c) 128 = true;
  vc_state : validCheckState (C_State c) = true;
  vc_version : 1 <= Version c;
  vc_created : utcNonZero (CreatedAt c) = true;
  vc_updated : utcNonZero (UpdatedAt c) = true;
  vc_order : instant (CreatedAt c) <= instant (UpdatedAt c);
  vc_outcome : C_State c = CheckCompleted <-> validCheckOutcome (Outcome c) = true;
  vc_attempts : forall i a, attempts c !! i = Some a ->
    validateStoredAttempt sha256_json (cloneAttempt a) ((Z.of_nat i + 1) mod 2 ^ 32) = true;
  vc_history : validateCheckAttemptState (C_State c) (attempts c) = true;
  vc_diagnostics : forallb valid_diagnostic (diagnostics c) = true;
}.

Lemma restore_attempts_Ok index l out :
  restore_attempts sha256_json index l = Ok out <->
  out = map cloneAttempt l /\
  forall i a, l !! i = Some a -> validateStoredAttempt sha256_json a ((index + Z.of_nat i + 1) mod 2 ^ 32) = true.
Proof.
  revert index out. induction l as [|x l IH]; intros index out; cbn [restore_attempts].
  - split; [intros [= <-]; split; [done | intros i a; by rewrite lookup_nil] | by intros [-> _]].
  - rewrite reject_Ok, negb_false_iff, rbind_Ok. split.
    + intros (Hx & copies & Hc & [= <-]). apply IH in Hc as [-> Hl]. split; [done|].
      intros [|i] a Ha; cbn in Ha; [injection Ha as <-; by rewrite Z.add_0_r |].
      rewrite <- (Hl i a Ha). do 2 f_equal. lia.
    + intros [-> Hl]. split; [rewrite <- (Hl 0%nat x eq_refl); do 2 f_equal; lia|].
      eexists. split; [apply IH; split; [done|] | done].
      intros i a Ha. rewrite <- (Hl (S i) a Ha). do 2 f_equal. lia.
Qed.

Lemma Validate_valid c : is_ok (Validate sha256_json c) = true <-> valid_check c.
Proof.
  assert (Hok : is_ok (Validate sha256_json c) = true <-> exists c', Validate sha256_json c = Ok c').
  { destruct (Validate sha256_json c); cbn; [split; [by eexists | done] | split; [done | by intros [? ?]]]. }
  rewrite Hok. clear Hok. unfold Validate, RestoreCheck, Attempts. setoid_rewrite reject_Ok.
  setoid_rewrite rbind_Ok. do 2 setoid_rewrite reject_Ok. setoid_rewrite restore_attempts_Ok. split.
  - intros (c' & Hg & copies & [-> Ha] & Hh & Hd & _). rewrite !history_clone in Hh. bprop.
    constructor; try done; try (split_and!; by apply String.eqb_neq).
    + by apply before_false.
    + destruct (bool_decide _) eqn:E, (validCheckOutcome _); bprop; done.
    + intros i a Hi. apply (Ha i (cloneAttempt a)). rewrite list_lookup_fmap. by rewrite Hi.
  - intros [(H1 & H2 & H3) H4 H5 H6 H7 H8 H9 H10 H11 H12 H13]. eexists.
    split.
    { unfold empty_string. rewrite (proj2 (String.eqb_neq _ _) H1), (proj2 (String.eqb_neq _ _) H2),
        (proj2 (String.eqb_neq _ _) H3), H4, H5, H7, H8, (proj2 (Z.ltb_ge _ _) H6), (proj2 (before_false _ _) H9).
      cbn. destruct (validCheckOutcome _) eqn:E1, (bool_decide _) eqn:E2; bprop; naive_solver. }
    eexists. split.
    { split; [reflexivity|]. intros i a Hi. apply list_lookup_fmap_Some in Hi as (b & -> & Hb).
      by apply (H11 i b). }
    rewrite !history_clone, H12, H13. done.
Qed.

Lemma cloneObservation_idem o : cloneObservation (cloneObservation o) = cloneObservation o.
Proof. reflexivity. Qed.

Lemma cloneAttempt_idem a : cloneAttempt (cloneAttempt a) = cloneAttempt a.
Proof.
  unfold cloneAttempt. cbn. f_equal. rewrite map_map. apply map_ext. intros o. apply cloneObservation_idem.
Qed.

(** A running attempt as the code starts it: no result yet. *)
Definition fresh_attempt (a : Attempt) : Prop :=
  is_zero (FinishedAt a) = true /\ A_Failure a = None /\ Observations a = [] /\ resultDigest a = ""%string.

Lemma stored_running a n :
  A_State a = AttemptRunning -> validateStoredAttempt sha256_json (cloneAttempt a) n = true -> fresh_attempt a.
Proof.
  intros Hs. unfold validateStoredAttempt, cloneAttempt. cbn. rewrite Hs. cbn.
  match goal with |- context [if ?b then _ else _] => destruct b end; [done|].
  rewrite (bool_decide_eq_true_2 _ eq_refl). intros Hv. bprop.
  split_and!; try done; by eapply map_eq_nil.
Qed.

Lemma stored_fresh a n :
  fresh_attempt a -> A_ID a <> ""%string -> Number a = n -> Fence a <> 0 -> known_runner (A_RunnerKind a) = true ->
  A_State a = AttemptRunning -> utcNonZero (StartedAt a) = true -> utcNonZero (Deadline a) = true ->
  after (Deadline a) (StartedAt a) = true -> validateProvenance (A_Provenance a) = true ->
  validateStoredAttempt sha256_json (cloneAttempt a) n = true.
Proof.
  intros (Hf & Hfl & Ho & Hd) Hid Hn Hfe Hr Hs Hst Hde Ha Hp.
  unfold validateStoredAttempt, cloneAttempt. cbn. rewrite Hs, Hf, Hfl, Ho, Hd, Hr, Hst, Hde, Ha, Hp, Hn, Z.eqb_refl.
  unfold empty_string. by rewrite (proj2 (String.eqb_neq _ _) Hid), (proj2 (Z.eqb_neq _ _) Hfe).
Qed.

(** Validity of an observation only looks at the attempt's identity. *)
Lemma validateObservation_clone o a b at_ :
  A_ID a = A_ID b -> A_RunnerKind a = A_RunnerKind b -> A_Provenance a = A_Provenance b ->
  validateObservation (cloneObservation o) a at_ = validateObservation o b at_.
Proof. intros Hi Hk Hp. unfold validateObservation. cbn. by rewrite Hi, Hk, Hp. Qed.

Hypothesis sha_hex : forall x, digestToken (sha256_json x) = true.

Lemma digestResult_hex obs failure digest :
  digestResult sha256_json obs failure = Some digest -> digestToken digest = true.
Proof. unfold digestResult. case_match; [intros [= <-]; apply sha_hex | done]. Qed.

Lemma stored_close cur n at_ st state outcome failure obs digest :
  A_State cur = AttemptRunning -> validateStoredAttempt sha256_json (cloneAttempt cur) n = true ->
  utcNonZero at_ = true -> instant (StartedAt cur) <= instant at_ ->
  closure sha256_json cur at_ st state outcome failure obs digest ->
  validateStoredAttempt sha256_json (cloneAttempt (finish cur st at_ failure obs digest)) n = true.
Proof.
  intros Hs Hv Hat Hle Hc. pose proof (stored_running cur n Hs Hv) as (_ & Hfl & Ho & _).
  unfold validateStoredAttempt in *. cbn in *.
  match type of Hv with context [if ?b then _ else _] => destruct b; [done|] end. clear Hv.
  rewrite Hat, (proj2 (before_false _ _) Hle).
  destruct Hc as [observations digest Hne _ Hall Hd | st state f digest Hin Hf Hd].
  - rewrite bool_decide_eq_false_2 by done. cbn. rewrite Hfl, (digestResult_hex _ _ _ Hd), map_map. cbn.
    rewrite (map_ext _ cloneObservation) by apply cloneObservation_idem.
    rewrite Hd, !(bool_decide_eq_true_2 (_ = _)) by done. rewrite (bool_decide_eq_false_2 (_ = [])) by (by intros ?%map_eq_nil).
    cbn. apply andb_true_iff. split; [|by apply bool_decide_true]. rewrite forallb_forall in Hall |- *. intros o [o' [<- Ho']]%in_map_iff.
    by rewrite (validateObservation_clone o' _ cur) by done; apply Hall.
  - rewrite Ho. cbn [map]. rewrite (digestResult_hex _ _ _ Hd), Hf, Hd.
    rewrite !elem_of_cons, elem_of_nil in Hin.
    destruct_or! Hin; simplify_eq; cbn; by apply bool_decide_true.
Qed.

(** An effect keeps a check valid when it does not date the check before its
    creation, a begun attempt carries no result, and the version can grow. *)
Lemma effect_valid c ev c' :
  valid_check c -> history_ok c -> effect sha256_json c ev c' -> Version c < max_int64 ->
  instant (CreatedAt c) <= instant ev.1 -> from_option fresh_attempt True ev.2 -> valid_check c'.
Proof.
  intros [Hid Hnm Hst Hv Hcr Hup Hor Hout Hat Hhi Hdi] Hh He Hmax Hle Hfresh.
  pose proof (proj1 (effect_history _ _ _ _ Hh He)) as Hh'.
  assert (Hw : wrap_int64 (Version c + 1) = Version c + 1)
    by (apply wrap_int64_id; unfold min_int64, max_int64 in *; lia).
  destruct He as [| id kind at_ Hne Hk Hu | a Hs H1 H2 H3 H4 H5 H6 H7 H8 H9
    | cur st state outcome at_ failure obs digest Hl Hs Hu Ht Hc]; [by constructor | ..]; cbn in Hle, Hh', Hfresh.
  - constructor; cbn; try done; [lia|]. rewrite forallb_app, Hdi. cbn. unfold valid_diagnostic. cbn.
    unfold empty_string. rewrite (proj2 (String.eqb_neq _ _) Hne), Hu.
    rewrite !elem_of_cons, elem_of_nil in Hk. by destruct_or! Hk; subst.
  - constructor; cbn; try done; [lia|].
    intros i b [Hi | [Hge Hi]]%lookup_app_Some; [by apply Hat|].
    apply list_lookup_singleton_Some in Hi as [Hz <-].
    rewrite cloneAttempt_idem. apply stored_fresh; try done.
    rewrite H2. unfold llen. do 2 f_equal. lia.
  - destruct (closed_states _ _ _ _ _ _ _ _ _ Hc) as (Hnr & _ & _ & _).
    apply last_Some in Hl as [l Hl]. rewrite Hl, set_last_snoc in *.
    assert (Hrun : A_State cur = AttemptRunning).
    { rewrite history_snoc, Hs in Hhi. bprop. done. }
    constructor; cbn; try done; try lia.
    + destruct Hc as [| ? ? ? ? Hin]; [done|]. rewrite !elem_of_cons, elem_of_nil in Hin. by destruct_or! Hin; simplify_eq.
    + destruct Hc as [observations d Hne _ Hall _ | ? ? ? ? Hin _ _].
      * split; [intros _ | done]. by apply aggregate_from_valid.
      * rewrite !elem_of_cons, elem_of_nil in Hin. by destruct_or! Hin; simplify_eq.
    + intros i b [Hi | [Hge Hi]]%lookup_app_Some; [apply Hat; by apply lookup_app_l_Some|].
      apply list_lookup_singleton_Some in Hi as [Hz <-].
      apply (stored_close cur _ at_ st state outcome failure obs digest); try done.
      apply (Hat i cur). rewrite lookup_app_r by done. by rewrite Hz.
Qed.
End Valid.

(** ** Operations as a step relation *)

Inductive op :=
| OpBegin (attempt : Attempt)
| OpSkip (at_ : Time) (code : string)
| OpComplete (id : string) (fence : Z) (observations : list Observation) (at_ : Time)
| OpFail (id : string) (fence : Z) (failure : Failure) (at_ : Time)
| OpCancel (at_ : Time).

Section Steps.
Variable sha256_json : list SemanticObservation * option Failure -> string.

Definition run (o : op) (c : Check) : Check :=
  match o with
  | OpBegin attempt => fst (BeginAttempt c attempt)
  | OpSkip at_ code => fst (SkipRunning sha256_json c at_ code)
  | OpComplete id fence observations at_ => fst (fst (CompleteAttempt sha256_json c id fence observations at_))
  | OpFail id fence failure at_ => fst (fst (FailAttempt sha256_json c id fence failure at_))
  | OpCancel at_ => fst (Cancel sha256_json c at_)
  end.

Definition op_event (o : op) : Time * option Attempt :=
  match o with
  | OpBegin attempt => (StartedAt attempt, Some attempt)
  | OpSkip at_ _ | OpComplete _ _ _ at_ | OpFail _ _ _ at_ | OpCancel at_ => (at_, None)
  end.

(** What the callers owe: no instant before the creation of the check, a begun
    attempt without a result, and a version that is not the last integer. *)
Definition obliged (o : op) (c : Check) : Prop :=
  instant (CreatedAt c) <= instant (op_event o).1 /\ from_option fresh_attempt True (op_event o).2 /\
  Version c < max_int64.

Inductive any_step (a b : Check) : Prop :=
| any_step_run o : b = run o a -> any_step a b.

Inductive check_step (a b : Check) : Prop :=
| check_step_run o : obliged o a -> b = run o a -> check_step a b.

Lemma run_effect o c : effect sha256_json c (op_event o) (run o c).
Proof.
  destruct o; [apply BeginAttempt_effect | apply SkipRunning_effect | apply CompleteAttempt_effect
    | apply FailAttempt_effect | apply Cancel_effect].
Qed.

(** Two stages of one attempt: everything but the result is the same, and a
    closed attempt is the same in full. *)
Definition continues (x y : Attempt) : Prop :=
  A_ID y = A_ID x /\ Number y = Number x /\ Fence y = Fence x /\ A_RunnerKind y = A_RunnerKind x /\
  A_Provenance y = A_Provenance x /\ StartedAt y = StartedAt x /\ Deadline y = Deadline x /\
  (A_State x <> AttemptRunning -> y = x).

Lemma continues_refl x : continues x x.
Proof. done. Qed.
Lemma continues_trans x y z : continues x y -> continues y z -> continues x z.
Proof.
  unfold continues. intros (? & ? & ? & ? & ? & ? & ? & Hx) (? & ? & ? & ? & ? & ? & ? & Hy).
  split_and!; try congruence. intros Hs. specialize (Hx Hs) as ->. by apply Hy.
Qed.

(** The three states no operation leaves. *)
Definition closed_state (s : CheckState) : Prop :=
  s = CheckCompleted \/ s = CheckCancelled \/ s = CheckSkippedByPolicy.

Definition grows (a b : Check) : Prop :=
  (forall i x, attempts a !! i = Some x -> exists y, attempts b !! i = Some y /\ continues x y) /\
  (closed_state (C_State a) -> attempts b = attempts a /\ C_State b = C_State a /\ Outcome b = Outcome a) /\
  (exists extra, (map D_AttemptID (diagnostics b)) = map D_AttemptID (diagnostics a) ++ extra).

Lemma grows_refl a : grows a a.
Proof. split_and!; [intros i x Hi; exists x; split; [done | apply continues_refl] | done | exists []; by rewrite app_nil_r]. Qed.

Lemma grows_trans a b c : grows a b -> grows b c -> grows a c.
Proof.
  intros (H1 & H2 & [e1 H3]) (K1 & K2 & [e2 K3]). split_and!.
  - intros i x Hx. destruct (H1 i x Hx) as (y & Hy & Hxy). destruct (K1 i y Hy) as (z & Hz & Hyz).
    exists z. split; [done | by eapply continues_trans].
  - intros Hc. destruct (H2 Hc) as (Ha & Hs & Ho). destruct K2 as (? & ? & ?); [by rewrite Hs|]. split_and!; congruence.
  - exists (e1 ++ e2). by rewrite K3, H3, app_assoc.
Qed.

Lemma effect_grows c ev c' : history_ok c -> effect sha256_json c ev c' -> grows c c'.
Proof.
  intros [Hh _] He. destruct He as [ev | id kind at_ | a Hs | cur st state outcome at_ failure obs digest Hl Hs _ _ Hc].
  - apply grows_refl.
  - split_and!; cbn; [intros i x Hi; by exists x | done | rewrite map_app; by eexists].
  - split_and!; cbn; [| | by exists []; rewrite app_nil_r].
    + intros i x Hi. exists x. split; [by apply lookup_app_l_Some | apply continues_refl].
    + intros [Hc | [Hc | Hc]]; destruct Hs as [Hs | [Hs | Hs]]; congruence.
  - apply last_Some in Hl as [l Hl]. split_and!; cbn; [| | by exists []; rewrite app_nil_r].
    + rewrite Hl, set_last_snoc. intros i x [Hi | [Hge Hi]]%lookup_app_Some.
      * exists x. split; [by apply lookup_app_l_Some | apply continues_refl].
      * apply list_lookup_singleton_Some in Hi as [Hz <-]. eexists. split.
        { rewrite lookup_app_r by done. rewrite Hz. reflexivity. }
        rewrite Hl, Hs, history_snoc in Hh. bprop. done.
    + intros [Hx | [Hx | Hx]]; congruence.
Qed.

End Steps.

(** ** Properties of the aggregate *)
Module ExecutionSpec.
Section ExecutionSpec.
Variable sha256_json : list SemanticObservation * option Failure -> string.

(** Checks stay valid.  Starting from a new check, any operations whose
    callers meet the obligations, successful or rejected, give a check that
    [Validate] accepts before it is saved; SHA-256 is used only as a function to
    64 hexadecimal digits. *)
Theorem checks_stay_valid (sha_hex : forall x, digestToken (sha256_json x) = true)
    (identifier tenantID verificationID name : string) (now : Time) (c0 c : Check)
    (Hnew : NewCheck identifier tenantID verificationID name now = Ok c0)
    (Hsteps : rtc (check_step sha256_json) c0 c) :
  is_ok (Validate sha256_json c) = true /\ CreatedAt c = now /\ TenantID c = tenantID /\ ID c = identifier.
Proof.
  assert (H0 : valid_check sha256_json c0 /\ history_ok c0 /\ CreatedAt c0 = now /\ TenantID c0 = tenantID /\ ID c0 = identifier).
  { unfold NewCheck in Hnew. go_inv Hnew. bprop. split_and!; [|done ..].
    constructor; cbn; try done. split_and!; by apply String.eqb_neq. }
  rewrite Validate_valid.
  cut (valid_check sha256_json c /\ history_ok c /\ CreatedAt c = now /\ TenantID c = tenantID /\ ID c = identifier); [tauto|].
  induction Hsteps as [|a b c [o (Hle & Hfr & Hmax) ->] _ IH] in H0 |- *; [done|].
  destruct H0 as (Hv & Hh & Hc & Ht & Hi). apply IH. pose proof (run_effect sha256_json o a) as He. split_and!.
  - by eapply effect_valid.
  - by eapply effect_history.
  - rewrite <- Hc. by destruct He.
  - rewrite <- Ht. by destruct He.
  - rewrite <- Hi. by destruct He.
Qed.

(** Attempt history is immutable.  Under any operations at all, no attempt
    is ever dropped, reordered or renamed, a closed attempt never changes, the
    diagnostics only grow, and a completed, cancelled or skipped check keeps its
    attempts, state and outcome for good. *)
Theorem history_immutable (a b : Check) (Hh : history_ok a) (Hsteps : rtc (any_step sha256_json) a b) :
  history_ok b /\
  (forall i x, attempts a !! i = Some x -> exists y, attempts b !! i = Some y /\ continues x y) /\
  (closed_state (C_State a) -> attempts b = attempts a /\ C_State b = C_State a /\ Outcome b = Outcome a) /\
  (exists extra, map D_AttemptID (diagnostics b) = map D_AttemptID (diagnostics a) ++ extra).
Proof.
  change (history_ok b /\ grows a b).
  induction Hsteps as [a|a b c [o ->] _ IH]; [split; [done | apply grows_refl]|].
  pose proof (run_effect sha256_json o a) as He.
  destruct IH as [Hc Hg]; [by eapply effect_history|]. split; [done|].
  eapply grows_trans; [by eapply effect_grows | done].
Qed.

Lemma validateObservation_later o a b at_ at' :
  A_ID a = A_ID b -> A_RunnerKind a = A_RunnerKind b -> A_Provenance a = A_Provenance b ->
  instant at_ <= instant at' -> validateObservation o a at_ = true -> validateObservation o b at' = true.
Proof.
  intros Hi Hk Hp Hle. unfold validateObservation. rewrite Hi, Hk, Hp. rewrite !andb_true_iff, !negb_true_iff, !after_false.
  intuition lia.
Qed.

(** What an applied completion leaves behind. *)
Lemma applied_completion c c1 id fence obs at_ :
  CompleteAttempt sha256_json c id fence obs at_ = (c1, "applied"%string, None) ->
  exists cur digest, last (attempts c) = Some cur /\ A_ID cur = id /\ Fence cur = fence /\ id <> ""%string /\ fence <> 0 /\
    (llen obs =? 0) || (maximumSignals <? llen obs) = false /\
    forallb (fun o => validateObservation o cur at_) obs = true /\
    digestResult sha256_json (map cloneObservation obs) None = Some digest /\
    c1 = with_progress c CheckCompleted (aggregateOutcome (map cloneObservation obs)) at_
           (set_last (attempts c) (finish cur AttemptCompleted at_ (A_Failure cur) (map cloneObservation obs) digest)).
Proof.
  unfold CompleteAttempt. assert (Hf : forall x, currentAttempt c id fence at_ = x -> x.2.2 = None -> fence <> 0).
  { intros x <-. unfold currentAttempt. destruct (last _); [|done]. destruct (empty_string id), (fence =? 0) eqn:E; bprop; done. }
  specialize (Hf _ eq_refl).
  destruct (currentAttempt_delivery sha256_json c id fence at_) as [| cur | cur Hid Hat Hl | cur Hid Hat Hl H1 H2 Hs Hst]; cbn [fst snd] in *.
  - done.
  - done.
  - intros Hc. repeat case_match; unfold replay in *; repeat case_match; simplify_eq.
  - destruct ((llen obs =? 0) || (maximumSignals <? llen obs)) eqn:El; [done|].
    destruct (forallb _ obs) eqn:Eo; [|done]. cbn [negb].
    destruct (digestResult _ _ _) as [digest|] eqn:Ed; [|done].
    change (String.eqb "apply" "duplicate") with false. intros [= <-]. exists cur, digest. split_and!; try done. by apply Hf.
Qed.

(** Delivering to a completed check: a note, and the comparison of digests. *)
Lemma deliver_completed c cur id fence obs at_ digest :
  C_State c = CheckCompleted -> last (attempts c) = Some cur -> A_State cur = AttemptCompleted ->
  A_ID cur = id -> Fence cur = fence -> id <> ""%string -> fence <> 0 -> utcNonZero at_ = true ->
  (llen obs =? 0) || (maximumSignals <? llen obs) = false ->
  forallb (fun o => validateObservation o cur at_) obs = true ->
  digestResult sha256_json (map cloneObservation obs) None = Some digest ->
  CompleteAttempt sha256_json c id fence obs at_ =
  replay (with_diagnostics c at_ (wrap_int64 (Version c + 1))
            (diagnostics c ++ [mk_diagnostic id "duplicate" "terminal_delivery" at_])) cur digest.
Proof.
  intros Hs Hl Hst Hi Hf Hid Hf0 Hat Hlen Hobs Hd. unfold CompleteAttempt, currentAttempt.
  rewrite Hl. unfold empty_string.
  rewrite (proj2 (String.eqb_neq _ _) Hid), (proj2 (Z.eqb_neq _ _) Hf0), Hat, Hi, Hf, Hs, Hst, String.eqb_refl, Z.eqb_refl.
  rewrite (bool_decide_eq_false_2 (CheckCompleted = CheckRunning)), (bool_decide_eq_false_2 (AttemptCompleted = AttemptRunning)) by done.
  cbn -[replay validateObservation digestResult]. rewrite Hlen, Hobs. cbn -[replay digestResult]. rewrite Hd. done.
Qed.

Lemma semantic_collision obs obs' d :
  digestResult sha256_json obs None = Some d -> digestResult sha256_json obs' None = Some d ->
  map semantic obs = map semantic obs' \/ exists x y, x <> y /\ sha256_json x = sha256_json y.
Proof.
  unfold digestResult. repeat case_match; try done. intros [= Hx] [= Hy].
  destruct (decide (map semantic obs = map semantic obs')) as [E|E]; [by left|].
  right. eexists _, _. split; [|by rewrite Hx, Hy]. congruence.
Qed.

(** C6: one result per attempt.  Once a completion has been applied, at any
    later time and after any other operations: the check is completed with the
    aggregate of that result; delivering the same observations again is reported
    as a duplicate; no delivery changes the attempts, the state or the outcome;
    and a delivery reported as a duplicate carries the same normalised content,
    short of a digest collision. *)
Theorem completion_applied_once (c c1 c2 : Check) (id : string) (fence : Z) (obs : list Observation) (at_ : Time)
    (Hh : history_ok c) (Happ : CompleteAttempt sha256_json c id fence obs at_ = (c1, "applied"%string, None))
    (Hlater : rtc (any_step sha256_json) c1 c2) :
  C_State c2 = CheckCompleted /\ Outcome c2 = aggregateOutcome obs /\ attempts c2 = attempts c1 /\
  (forall at', utcNonZero at' = true -> instant at_ <= instant at' ->
     exists c3, CompleteAttempt sha256_json c2 id fence obs at' = (c3, "duplicate"%string, None)) /\
  (forall obs' at' c3 e, CompleteAttempt sha256_json c2 id fence obs' at' = (c3, "duplicate"%string, e) ->
     e = None /\ (map semantic (map cloneObservation obs') = map semantic (map cloneObservation obs) \/
                  exists x y, x <> y /\ sha256_json x = sha256_json y)).
Proof.
  destruct (applied_completion _ _ _ _ _ _ Happ) as (cur & digest & Hl & Hi & Hf & Hid & Hf0 & Hlen & Hobs & Hd & Hc1).
  pose proof (run_effect sha256_json (OpComplete id fence obs at_) c) as He. cbn in He. rewrite Happ in He.
  pose proof (effect_history _ _ _ _ Hh He) as Hh1. cbn in Hh1.
  destruct (history_immutable c1 c2 Hh1 Hlater) as (_ & _ & Hclosed & _).
  destruct Hclosed as (Hat2 & Hst2 & Hout2); [left; by rewrite Hc1|].
  apply last_Some in Hl as [l Hl]. rewrite Hc1 in Hst2, Hout2. cbn in Hst2, Hout2.
  assert (Hl2 : last (attempts c2) = Some (finish cur AttemptCompleted at_ (A_Failure cur) (map cloneObservation obs) digest)).
  { rewrite Hat2, Hc1. cbn. rewrite Hl, set_last_snoc. apply last_snoc. }
  split_and!; try done.
  - rewrite Hout2. unfold aggregateOutcome. generalize CheckPassed. clear.
    induction obs as [|o obs IH]; intros r; [done|]. cbn. by rewrite IH.
  - intros at' Hu Hle. eexists. rewrite (deliver_completed c2 _ id fence obs at' digest Hst2 Hl2); try done.
    + unfold replay. cbn. by rewrite String.eqb_refl.
    + rewrite forallb_forall in Hobs |- *. intros o Ho. by eapply validateObservation_later; [.. | apply Hobs].
  - intros obs' at' c3 e. unfold CompleteAttempt.
    destruct (currentAttempt_delivery sha256_json c2 id fence at') as [| cur' | cur' _ _ Hl' | cur' _ _ Hl' _ _ Hrun];
      cbn [fst snd]; try done; [|congruence].
    rewrite Hl2 in Hl'. injection Hl' as <-.
    destruct ((llen obs' =? 0) || _); [by intros [=]|]. destruct (forallb _ obs'); [|by intros [=]]. cbn [negb].
    destruct (digestResult _ (map cloneObservation obs') _) as [digest'|] eqn:Ed; [|by intros [=]]. change (String.eqb "duplicate" "duplicate") with true.
    unfold replay. cbn. destruct (String.eqb digest digest') eqn:E; [|by intros [=]]. bprop. subst digest'.
    intros [= _ <-]. split; [done|]. by eapply semantic_collision.
Qed.

(** The outcome of a completed check is the conjunction of its signals, in
    any order: not passed when some signal is not satisfied, otherwise
    inconclusive when some signal is inconclusive, otherwise passed. *)
Theorem aggregate_outcome_spec (obs : list Observation) :
  aggregateOutcome obs =
    (if bool_decide (Exists (fun o => SOutcome (O_Signal o) = SignalNotSatisfied) obs) then CheckNotPassed
     else if bool_decide (Exists (fun o => SOutcome (O_Signal o) = SignalInconclusive) obs) then CheckInconclusive
     else CheckPassed) /\
  forall obs', obs ≡ₚ obs' -> aggregateOutcome obs' = aggregateOutcome obs.
Proof.
  assert (Hspec : forall obs r, aggregate_from r obs =
    (if bool_decide (Exists (fun o => SOutcome (O_Signal o) = SignalNotSatisfied) obs) then CheckNotPassed
     else if bool_decide (Exists (fun o => SOutcome (O_Signal o) = SignalInconclusive) obs) then CheckInconclusive
     else r)).
  { intros os. induction os as [|o os IH]; intros r; cbn [aggregate_from]; [done|].
    rewrite (bool_decide_ext _ _ (Exists_cons (fun o => SOutcome (O_Signal o) = SignalNotSatisfied) o os)).
    rewrite (bool_decide_ext _ _ (Exists_cons (fun o => SOutcome (O_Signal o) = SignalInconclusive) o os)).
    rewrite !bool_decide_or. destruct (bool_decide (SOutcome (O_Signal o) = SignalNotSatisfied)); [done|]. cbn.
    rewrite IH. destruct (bool_decide (Exists _ os)); [done|]. destruct (bool_decide (SOutcome (O_Signal o) = SignalInconclusive)); cbn;
      by case_match. }
  split; [apply Hspec|]. intros obs' Hp. unfold aggregateOutcome. rewrite !Hspec.
  assert (Hex : forall P : Observation -> Prop, Exists P obs' <-> Exists P obs).
  { intros P. rewrite !Exists_exists. by setoid_rewrite Hp. }
  by rewrite (bool_decide_ext _ _ (Hex (fun o => SOutcome (O_Signal o) = SignalNotSatisfied))),
    (bool_decide_ext _ _ (Hex (fun o => SOutcome (O_Signal o) = SignalInconclusive))).
Qed.

(** [BeginAttempt] checks less than [Validate].  On a valid check it accepts
    an attempt that starts before the check was created or that already carries a
    finish time, a failure, observations or a digest; the check it then leaves is
    one [Validate] refuses, and these are the only such attempts. *)
Theorem begin_attempt_validity (sha_hex : forall x, digestToken (sha256_json x) = true)
    (c c' : Check) (attempt : Attempt) (Hv : is_ok (Validate sha256_json c) = true) (Hh : history_ok c)
    (Hmax : Version c < max_int64) (Hb : BeginAttempt c attempt = (c', None)) :
  is_ok (Validate sha256_json c') = true <->
  instant (CreatedAt c) <= instant (StartedAt attempt) /\ fresh_attempt attempt.
Proof.
  rewrite Validate_valid in Hv |- *. pose proof (BeginAttempt_effect sha256_json c attempt) as He.
  rewrite Hb in He. cbn in He. split.
  - intros Hv'. unfold BeginAttempt in Hb. case_match; [done|]. injection Hb as <-. bprop.
    split; [apply (vc_order _ _ Hv')|].
    assert (Hlast : validateStoredAttempt sha256_json (cloneAttempt (cloneAttempt attempt))
               ((Z.of_nat (length (attempts c)) + 1) mod 2 ^ 32) = true).
    { apply (vc_attempts _ _ Hv'). cbn. by rewrite lookup_app_r, Nat.sub_diag. }
    apply stored_running in Hlast as (? & ? & Ho & ?); [|done].
    cbn in Ho. apply map_eq_nil in Ho. done.
  - intros [Hle Hf]. by apply (effect_valid sha256_json sha_hex c (StartedAt attempt, Some attempt)).
Qed.
End ExecutionSpec.
End ExecutionSpec.

(** ** [execution_service.go]: the repository boundary *)

Record ResultReceipt := mk_receipt { RR_AttemptID : string; Fingerprint : string; ReceivedAt : Time }.
#[export] Instance ResultReceipt_eq_dec : EqDecision ResultReceipt. Proof. solve_decision. Defined.

Definition receipt_valid (receipt : ResultReceipt) : bool :=
  negb (empty_string (RR_AttemptID receipt) || negb (digestToken (Fingerprint receipt)) ||
        negb (utcNonZero (ReceivedAt receipt))).

Definition NewResultReceipt (attemptID fingerprint : string) (receivedAt : Time) : result Error ResultReceipt :=
  reject empty_string attemptID || negb (digestToken fingerprint) || negb (utcNonZero receivedAt) with ErrInvalidCheck ;;
  Ok (mk_receipt attemptID fingerprint receivedAt).

Record CheckCommit := mk_commit {
  CC_Check : Check;
  ExpectedVersion : Z;
  EventID : string;
  Receipt : option ResultReceipt;
}.

Definition cloneCheck (value : Check) : Check :=
  mk_check (ID value) (TenantID value) (VerificationID value) (C_Name value) (C_State value) (Outcome value)
    (Version value) (CreatedAt value) (UpdatedAt value) (Attempts value) (diagnostics value).

(** Identifiers contain no NUL byte, the separator of the map keys. *)
Definition plain_id (s : string) : bool := string_forall (fun c => negb (Ascii.eqb c zero)) s.

(** The interface [CheckRepository] on a store [S].  [SaveCheck] answers whether
    the receipt was already claimed; [claimed] is the inbox. *)
Class CheckRepository (S : Type) := {
  FindCheck : S -> string -> string -> result Error Check;
  SaveCheck : S -> string -> CheckCommit -> S * result Error bool;
  claimed : S -> string -> ResultReceipt -> Prop;
}.

(** What the service relies on. *)
Class CheckRepositoryLaws (S : Type) `{CheckRepository S} := {
  save_applied s scope commit s' : SaveCheck s scope commit = (s', Ok false) ->
    (exists cur, FindCheck s scope (ID (CC_Check commit)) = Ok cur /\ Version cur = ExpectedVersion commit) /\
    ExpectedVersion commit < Version (CC_Check commit) /\ TenantID (CC_Check commit) = scope /\
    FindCheck s' scope (ID (CC_Check commit)) = Ok (cloneCheck (cloneCheck (CC_Check commit))) /\
    (forall r, Receipt commit = Some r -> claimed s' scope r);
  save_refused s scope commit s' x : SaveCheck s scope commit = (s', x) -> x <> Ok false -> s' = s;
  save_frame s scope commit scope' id : plain_id scope = true -> plain_id scope' = true ->
    (scope', id) <> (scope, ID (CC_Check commit)) ->
    FindCheck (SaveCheck s scope commit).1 scope' id = FindCheck s scope' id;
  save_claimed s scope commit r : claimed s scope r -> Receipt commit = Some r ->
    (SaveCheck s scope commit).1 = s /\ (SaveCheck s scope commit).2 <> Ok false;
  claimed_mono s scope commit scope' r : claimed s scope' r -> claimed (SaveCheck s scope commit).1 scope' r;
}.

(** ** The application service *)
Section Service.
Context {S : Type} `{CheckRepository S}.

(** The injected collaborators, and the calls made to them. *)
Variable NewEvent : S -> option string.
Variable RequestReconciliation : string -> string -> string -> string -> option Error.
Variable PublishCheckProgress : string -> Check -> option Error.

Inductive ServiceCall :=
| CallReconciliation (scope check attempt disposition : string)
| CallProgress (scope verification check : string) (state : CheckState) (version : Z) (occurredAt : Time).

Definition is_delivery_error (e : option Error) : bool :=
  bool_decide (e = Some ErrStaleAttempt) || bool_decide (e = Some ErrAttemptConflict).

(** The last diagnostic's attempt, or the zero identifier. *)
Definition diagnosed_attempt (check : Check) : string :=
  match last (diagnostics check) with Some d => D_AttemptID d | None => "" end.

(** The statements after the save: reconciliation or progress. *)
Definition announce (s : S) (scope : string) (check : Check) (disposition : string) (mutationErr : option Error)
  : S * list ServiceCall * (option Check * string * option Error) :=
  if is_delivery_error mutationErr then
    let calls := [CallReconciliation scope (ID check) (diagnosed_attempt check) disposition] in
    match RequestReconciliation scope (ID check) (diagnosed_attempt check) disposition with
    | Some _ => (s, calls, (None, disposition, Some ErrHook))
    | None => (s, calls, (Some check, disposition, mutationErr))
    end
  else
    let calls := [CallProgress scope (VerificationID check) (ID check) (C_State check) (Version check) (UpdatedAt check)] in
    match PublishCheckProgress scope check with
    | Some _ => (s, calls, (None, disposition, Some ErrPublish))
    | None => (s, calls, (Some check, disposition, None))
    end.

Definition apply_ (s : S) (scope checkID : string) (receipt : option ResultReceipt)
    (mutate : Check -> Check * string * option Error) : S * list ServiceCall * (option Check * string * option Error) :=
  if empty_string checkID then (s, [], (None, ""%string, Some ErrInvalidCheck))
  else match FindCheck s scope checkID with
  | Err e => (s, [], (None, ""%string, Some e))
  | Ok check0 =>
      let expected := Version check0 in
      let '(check, disposition, mutationErr) := mutate check0 in
      if negb (bool_decide (mutationErr = None)) && negb (is_delivery_error mutationErr)
      then (s, [], (None, disposition, mutationErr))
      else if Version check =? expected then announce s scope check disposition mutationErr
      else match NewEvent s with
      | None => (s, [], (None, disposition, Some ErrEvent))
      | Some eventID =>
          match SaveCheck s scope (mk_commit check expected eventID receipt) with
          | (s', Err e) => (s', [], (None, disposition, Some e))
          | (s', Ok true) =>
              match FindCheck s' scope checkID with
              | Ok authoritative => (s', [], (Some authoritative, "duplicate"%string, None))
              | Err e => (s', [], (None, "duplicate"%string, Some e))
              end
          | (s', Ok false) => announce s' scope check disposition mutationErr
          end
      end
  end.

Definition Apply (s : S) (scope checkID : string) (mutate : Check -> Check * string * option Error) :=
  apply_ s scope checkID None mutate.

Definition ApplyResult (s : S) (scope checkID : string) (receipt : ResultReceipt)
    (mutate : Check -> Check * string * option Error) : S * list ServiceCall * (option Check * string * option Error) :=
  if negb (receipt_valid receipt) then (s, [], (None, ""%string, Some ErrInvalidCheck))
  else apply_ s scope checkID (Some receipt) mutate.
End Service.

(** ** The in-memory repository *)
Module Memory.

Record MemoryCheckRepository := mk_memory { checks : gmap string Check; receipts : gset string }.

Definition NewMemoryCheckRepository : MemoryCheckRepository := mk_memory ∅ ∅.

Definition key (scope id : string) : string := scope +:+ String zero id.
Definition receipt_key (scope : string) (receipt : ResultReceipt) : string :=
  key (key scope (RR_AttemptID receipt)) (Fingerprint receipt).

Definition Insert (m : MemoryCheckRepository) (check : Check) : MemoryCheckRepository * option Error :=
  if empty_string (ID check) || empty_string (TenantID check) || (Version check <? 1) then (m, Some ErrInvalidCheck)
  else match checks m !! key (TenantID check) (ID check) with
  | Some _ => (m, Some ErrCheckVersion)
  | None => (mk_memory (<[key (TenantID check) (ID check) := cloneCheck check]> (checks m)) (receipts m), None)
  end.

Definition FindCheck_memory (m : MemoryCheckRepository) (scope checkID : string) : result Error Check :=
  match checks m !! key scope checkID with
  | None => Err ErrCheckNotFound
  | Some check => Ok (cloneCheck check)
  end.

Definition SaveCheck_memory (m : MemoryCheckRepository) (scope : string) (commit : CheckCommit)
  : MemoryCheckRepository * result Error bool :=
  let check := CC_Check commit in
  let expected := ExpectedVersion commit in
  if negb (String.eqb (TenantID check) scope) || (Version check <=? expected) then (m, Err ErrInvalidCheck)
  else if empty_string (EventID commit) then (m, Err ErrInvalidCheck)
  else if match Receipt commit with
          | Some receipt => bool_decide (receipt_key scope receipt ∈ receipts m)
          | None => false
          end then (m, Ok true)
  else match checks m !! key scope (ID check) with
  | None => (m, Err ErrCheckNotFound)
  | Some current =>
      if negb (Version current =? expected) then (m, Err ErrCheckVersion)
      else
        let receipts' := match Receipt commit with
          | Some receipt => {[receipt_key scope receipt]} ∪ receipts m
          | None => receipts m
          end in
        (mk_memory (<[key scope (ID check) := cloneCheck check]> (checks m)) receipts', Ok false)
  end.

#[export] Instance memory_repository : CheckRepository MemoryCheckRepository := {|
  FindCheck := FindCheck_memory;
  SaveCheck := SaveCheck_memory;
  claimed := fun m scope receipt => receipt_key scope receipt ∈ receipts m;
|}.

Lemma key_inj a b x y : plain_id a = true -> plain_id b = true -> key a x = key b y -> a = b /\ x = y.
Proof.
  unfold key, plain_id. revert b. induction a as [|c a IH]; intros [|d b] Ha Hb Heq.
  - by injection Heq as ->.
  - injection Heq as <- _. done.
  - injection Heq as -> _. done.
  - change (String c (a +:+ String zero x) = String d (b +:+ String zero y)) in Heq.
    injection Heq as -> Heq. cbn in Ha, Hb. bprop. destruct (IH b) as [-> ->]; done.
Qed.

#[export] Instance memory_laws : CheckRepositoryLaws MemoryCheckRepository.
Proof.
  split; cbn; unfold SaveCheck_memory.
  - intros s scope commit s' Hs. repeat case_match; simplify_eq; bprop; unfold FindCheck_memory; cbn;
      rewrite ?lookup_insert_eq.
    all: match goal with Hc : checks _ !! _ = Some _ |- _ => rewrite Hc end.
    all: split_and!; [by eexists | lia | done | done |].
  all: intros rr; try done; intros [= ->]; set_solver.
  - intros s scope commit s' x Hs. repeat case_match; simplify_eq; done.
  - intros s scope commit scope' id Hp Hp' Hne. repeat case_match; simplify_eq; try done;
      unfold FindCheck_memory; cbn; rewrite lookup_insert_ne; try done;
      intros [-> <-]%key_inj; done.
  - intros s scope commit r Hr Hc. rewrite Hc. repeat case_match; simplify_eq; bprop; try done.
  - intros s scope commit scope' r Hr. repeat case_match; simplify_eq; try done; cbn; set_solver.
Qed.
End Memory.

(** ** Properties of the service against the interface *)
Module ServiceSpec.
Section ServiceSpec.
Context {S : Type} `{CheckRepositoryLaws S}.

(** Any save by any client under identifiers without a separator. *)
Inductive save_step (a b : S) : Prop :=
| save_step_commit scope commit :
    plain_id scope = true -> plain_id (ID (CC_Check commit)) = true ->
    b = (SaveCheck a scope commit).1 -> save_step a b.

Lemma save_step_find a b scope id c :
  save_step a b -> plain_id scope = true -> plain_id id = true -> FindCheck a scope id = Ok c ->
  exists c', FindCheck b scope id = Ok c' /\ (c' = c \/ Version c < Version c').
Proof.
  intros [sc commit Hp Hp' ->] Hps Hpi Hf.
  destruct (SaveCheck a sc commit) as [s' r] eqn:Hs. cbn.
  destruct (decide (r = Ok false)) as [->|Hr].
  2:{ rewrite (save_refused _ _ _ _ _ Hs Hr). exists c. auto. }
  destruct (decide ((scope, id) = (sc, ID (CC_Check commit)))) as [Heq|Hne].
  - injection Heq as -> ->. destruct (save_applied _ _ _ _ Hs) as ((cur & Hcur & Hv) & Hlt & _ & Hnew & _).
    rewrite Hf in Hcur. injection Hcur as <-. eexists. split; [exact Hnew|]. right. cbn. lia.
  - exists c. split; [|by left]. rewrite <- Hf, <- (save_frame a sc commit scope id) by done. by rewrite Hs.
Qed.

(** No lost update.  Under any interleaving of saves by any number of
    clients a stored check only changes to a strictly higher version, so a client
    that read a version which has since been replaced can never save over it. *)
Theorem no_lost_update (s s' : S) (scope id : string) (c c' : Check) (commit : CheckCommit)
    (Hps : plain_id scope = true) (Hpi : plain_id id = true) (Hsteps : rtc save_step s s')
    (Hread : FindCheck s scope id = Ok c) (Hnow : FindCheck s' scope id = Ok c') :
  (c' = c \/ Version c < Version c') /\
  (c' <> c -> ID (CC_Check commit) = id -> ExpectedVersion commit = Version c ->
   (SaveCheck s' scope commit).1 = s' /\ (SaveCheck s' scope commit).2 <> Ok false).
Proof.
  assert (Hmono : c' = c \/ Version c < Version c').
  { revert c Hread. induction Hsteps as [s | s t u Hstep _ IH]; intros c Hread; [left; congruence|].
    destruct (save_step_find s t scope id c Hstep Hps Hpi Hread) as (d & Hd & Hcd).
    destruct (IH Hnow d Hd) as [->|Hlt]; [done|]. destruct Hcd as [->|?]; [by right | right; lia]. }
  split; [done|]. intros Hne <- Hexp. destruct Hmono as [->|Hlt]; [done|].
  destruct (SaveCheck s' scope commit) as [t r] eqn:Hs. cbn.
  assert (Hr : r <> Ok false).
  { intros ->. destruct (save_applied _ _ _ _ Hs) as ((cur & Hcur & Hv) & _).
    rewrite Hnow in Hcur. injection Hcur as <-. lia. }
  split; [by eapply save_refused | done].
Qed.

Variable NewEvent : S -> option string.
Variable RequestReconciliation : string -> string -> string -> string -> option Error.
Variable PublishCheckProgress : string -> Check -> option Error.
Notation apply_result := (ApplyResult NewEvent RequestReconciliation PublishCheckProgress).

Lemma announce_store (s : S) scope check d e :
  (announce RequestReconciliation PublishCheckProgress s scope check d e).1.1 = s.
Proof. unfold announce. repeat case_match; done. Qed.

(** [ApplyResult] leaves the store alone or saves once with its receipt. *)
Lemma ApplyResult_store s scope checkID receipt mutate :
  (apply_result s scope checkID receipt mutate).1.1 = s \/
  exists commit, Receipt commit = Some receipt /\
    (apply_result s scope checkID receipt mutate).1.1 = (SaveCheck s scope commit).1.
Proof.
  unfold ApplyResult, apply_. repeat case_match; cbn; auto; rewrite ?announce_store; auto;
    right; eexists; (split; [|match goal with Hs : SaveCheck _ _ _ = _ |- _ => rewrite Hs end]); done.
Qed.

(** A result delivery takes effect once.  When [ApplyResult] has changed the
    store for a receipt, then after any further saves a repetition with the same
    receipt changes nothing, whatever the mutation computes, for this check or
    another of the same tenant. *)
Theorem result_delivered_once (s s1 s2 : S) (scope checkID checkID' : string) (receipt : ResultReceipt)
    (mutate mutate' : Check -> Check * string * option Error)
    (Hfirst : (apply_result s scope checkID receipt mutate).1.1 = s1) (Hchanged : s1 <> s)
    (Hsteps : rtc save_step s1 s2) :
  (apply_result s2 scope checkID' receipt mutate').1.1 = s2.
Proof.
  assert (Hclaim : claimed s1 scope receipt).
  { destruct (ApplyResult_store s scope checkID receipt mutate) as [Hs | (commit & Hr & Hs)]; [congruence|].
    rewrite Hfirst in Hs. destruct (SaveCheck s scope commit) as [t r] eqn:Hsave. cbn in Hs. subst t.
    destruct (decide (r = Ok false)) as [->|Hne].
    - destruct (save_applied _ _ _ _ Hsave) as (_ & _ & _ & _ & Hc). by apply Hc.
    - by apply save_refused in Hsave. }
  assert (Hclaim2 : claimed s2 scope receipt).
  { clear - Hclaim Hsteps H0. induction Hsteps as [|a b c [sc commit _ _ ->] _ IH]; [done|]. apply IH. by apply claimed_mono. }
  destruct (ApplyResult_store s2 scope checkID' receipt mutate') as [Hs | (commit & Hr & Hs)]; [done|].
  rewrite Hs. by apply (save_claimed s2 scope commit receipt).
Qed.
End ServiceSpec.
End ServiceSpec.

(** ** Concrete runs *)
Module ExecutionWitness.
Import ExecutionSpec ServiceSpec Memory.

Definition hex64 : string := "aaaaaaaaaaaaaaaaaaaaaaaaaaaaaaaaaaaaaaaaaaaaaaaaaaaaaaaaaaaaaaaa".
Definition sample_sha (x : list SemanticObservation * option Failure) : string := hex64.
Lemma sample_sha_hex x : digestToken (sample_sha x) = true.
Proof. vm_compute. reflexivity. Qed.

Definition t0 : Time := date 2026 1 1.
Definition sample_provenance : Provenance := mk_provenance "runner" "v1" hex64 1 0 hex64 hex64.
Definition sample_attempt : Attempt :=
  mk_attempt "atm_1" 1 7 RunnerProvider sample_provenance AttemptRunning (add t0 minute) (add t0 hour) zero_time
    None [] "".
Definition sample_observation : Observation :=
  mk_observation "obs_1" "atm_1" RunnerProvider sample_provenance (mk_signal "face.match" SignalSatisfied None)
    (add t0 (2 * minute)).
Definition queued : Check :=
  mk_check "chk_1" "ten_1" "ver_1" "face" CheckQueued no_outcome 1 t0 t0 [] [].
Definition running : Check := run sample_sha (OpBegin sample_attempt) queued.
Definition completed : Check :=
  run sample_sha (OpComplete "atm_1" 7 [sample_observation] (add t0 (3 * minute))) running.

Lemma queued_new : NewCheck "chk_1" "ten_1" "ver_1" "face" t0 = Ok queued.
Proof. vm_compute. reflexivity. Qed.
Lemma running_history : history_ok running.
Proof. split; [vm_compute; reflexivity | intros Hq; vm_compute in Hq; discriminate Hq]. Qed.
Lemma queued_history : history_ok queued.
Proof. split; [vm_compute; reflexivity | intros _ cur Hc; vm_compute in Hc; discriminate Hc]. Qed.
Lemma completed_applied :
  CompleteAttempt sample_sha running "atm_1" 7 [sample_observation] (add t0 (3 * minute)) =
  (completed, "applied"%string, None).
Proof. vm_compute. reflexivity. Qed.

Lemma checks_stay_valid_witness :
  rtc (check_step sample_sha) queued completed /\ is_ok (Validate sample_sha completed) = true.
Proof.
  assert (Hs : rtc (check_step sample_sha) queued completed).
  { eapply rtc_l; [apply (check_step_run _ _ _ (OpBegin sample_attempt)); [|reflexivity]|].
    - unfold obliged. split_and!; by vm_compute.
    - apply rtc_once. apply (check_step_run _ _ _ (OpComplete "atm_1" 7 [sample_observation] (add t0 (3 * minute)))); [|reflexivity].
      unfold obliged. split_and!; by vm_compute. }
  split; [exact Hs|].
  refine (proj1 (checks_stay_valid sample_sha sample_sha_hex "chk_1" "ten_1" "ver_1" "face" t0 queued completed _ Hs)).
  exact queued_new.
Defined.

Lemma history_immutable_witness :
  attempts (run sample_sha (OpFail "atm_1" 7 (mk_failure "lost" "gone" RetryNever 0) (add t0 hour)) completed) =
  attempts completed.
Proof.
  assert (Hc : history_ok completed) by (split; [vm_compute; reflexivity | intros Hq; vm_compute in Hq; discriminate Hq]).
  destruct (history_immutable sample_sha completed
    (run sample_sha (OpFail "atm_1" 7 (mk_failure "lost" "gone" RetryNever 0) (add t0 hour)) completed) Hc) as (_ & _ & Hk & _).
  - apply rtc_once. by eapply any_step_run.
  - destruct Hk as [Hk _]; [left; vm_compute; reflexivity | exact Hk].
Defined.

Lemma completion_applied_once_witness :
  exists c3, CompleteAttempt sample_sha completed "atm_1" 7 [sample_observation] (add t0 hour) = (c3, "duplicate"%string, None).
Proof.
  destruct (completion_applied_once sample_sha running completed completed "atm_1" 7 [sample_observation]
    (add t0 (3 * minute)) running_history completed_applied (rtc_refl _ _)) as (_ & _ & _ & Hd & _).
  apply Hd; by vm_compute.
Defined.

Definition early_attempt : Attempt :=
  mk_attempt "atm_1" 1 7 RunnerProvider sample_provenance AttemptRunning (date 2025 12 31) (add t0 hour) zero_time
    None [] "".

Lemma begin_attempt_validity_witness :
  (BeginAttempt queued early_attempt).2 = None /\
  is_ok (Validate sample_sha (BeginAttempt queued early_attempt).1) <> true.
Proof.
  split; [vm_compute; reflexivity|]. intros Hv.
  assert (Hb : BeginAttempt queued early_attempt = ((BeginAttempt queued early_attempt).1, None))
    by (vm_compute; reflexivity).
  destruct (proj1 (begin_attempt_validity sample_sha sample_sha_hex queued _ early_attempt
    ltac:(vm_compute; reflexivity) queued_history ltac:(by vm_compute) Hb) Hv) as [Hle _].
  vm_compute in Hle. by apply Hle.
Defined.

Definition stored (c : Check) : MemoryCheckRepository := (Insert NewMemoryCheckRepository c).1.

Lemma no_lost_update_witness :
  (SaveCheck (SaveCheck (stored queued) "ten_1" (mk_commit running 1 "evt_1" None)).1 "ten_1"
     (mk_commit running 1 "evt_2" None)).2 <> Ok false.
Proof.
  refine (proj2 (proj2 (no_lost_update (stored queued) (SaveCheck (stored queued) "ten_1" (mk_commit running 1 "evt_1" None)).1
    "ten_1" "chk_1" (cloneCheck (cloneCheck queued)) (cloneCheck (cloneCheck running)) (mk_commit running 1 "evt_2" None)
    _ _ _ _ _) _ _ _)); try (vm_compute; reflexivity).
  - apply rtc_once. eapply (save_step_commit _ _ "ten_1" (mk_commit running 1 "evt_1" None)); reflexivity.
  - intros Heq. apply (f_equal Version) in Heq. vm_compute in Heq. discriminate Heq.
Defined.

Definition sample_receipt : ResultReceipt := mk_receipt "atm_1" hex64 t0.
Definition deliver (s : MemoryCheckRepository) :=
  ApplyResult (fun _ => Some "evt_1"%string) (fun _ _ _ _ => None) (fun _ _ => None) s "ten_1" "chk_1" sample_receipt
    (fun c => CompleteAttempt sample_sha c "atm_1" 7 [sample_observation] (add t0 (3 * minute))).

Lemma result_delivered_once_witness :
  (deliver (stored running)).1.1 <> stored running /\
  (deliver (deliver (stored running)).1.1).1.1 = (deliver (stored running)).1.1.
Proof.
  assert (Hne : (deliver (stored running)).1.1 <> stored running).
  { intros Heq. apply (f_equal (fun m => bool_decide (receipts m = ∅))) in Heq. vm_compute in Heq. discriminate Heq. }
  split; [exact Hne|].
  exact (result_delivered_once (fun _ => Some "evt_1"%string) (fun _ _ _ _ => None) (fun _ _ => None)
    (stored running) (deliver (stored running)).1.1 (deliver (stored running)).1.1 "ten_1" "chk_1" "chk_1" sample_receipt
    _ _ eq_refl Hne (rtc_refl _ _)).
Defined.
End ExecutionWitness.
