(* ===== verification/Assurance.v ===== *)
(** * Typed assurance

    [internal/policy/assurance.go] and [assurance_capability.go], with the
    tokens and requirement states of [contract.go] they use: the canonical
    assurance profile, the canonical decision context, and the count of
    independently rooted sources, a union-find over shared provenance roots.

    JSON texts only serve as sort keys, as a size and as the input of SHA-256;
    they are section variables.  The Go code copies a context through JSON; the
    model's values are immutable, so the copy is the value itself: contexts are
    those that JSON keeps, with UTF-8 strings and no local time zone of offset
    zero, which the copy would turn into UTC. *)

From S2P Require Import Prelude GoTime.
From Stdlib Require Import Ascii.

(** ** Tokens and vocabulary of [contract.go] *)

Inductive Error := ErrInvalid | ErrConflict | ErrVersion | ErrStaleFact | ErrReproduction | ErrEncode.
#[export] Instance Error_eq_dec : EqDecision Error. Proof. solve_decision. Defined.

Inductive RequirementState :=
| RequirementSatisfied | RequirementNotSatisfied | RequirementInconclusive
| RequirementUnavailable | RequirementProhibited | RequirementOther (label : string).
#[export] Instance RequirementState_eq_dec : EqDecision RequirementState. Proof. solve_decision. Defined.

Definition validRequirementState (value : RequirementState) : bool :=
  match value with RequirementOther _ => false | _ => true end.

(** The anchored pattern [^\[a-z\]\[a-z0-9._:-\]*$]. *)
Definition token_rest (c : ascii) : bool := is_lower c || is_digit c || byte_of "._:-" c.
Definition tokenPattern (s : string) : bool := match_head_tail is_lower token_rest s.

Definition validToken (value : string) (maximum : Z) : bool :=
  (0 <? slen value) && (slen value <=? maximum) && tokenPattern value.

Definition validDigest (value : string) : bool := is_hex_digest value.
Definition validUTC (value : Time) : bool := utc_non_zero value.

(** The anchored pattern of fact keys: two or more dotted segments, each a lower
    letter followed by lower letters, digits and underscores. *)
Fixpoint key_segment (dotted : bool) (s : string) : bool :=
  match s with
  | EmptyString => dotted
  | String c rest =>
      if Ascii.eqb c "." then
        match rest with
        | String d rest' => is_lower d && key_segment true rest'
        | EmptyString => false
        end
      else (is_lower c || is_digit c || byte_of "_" c) && key_segment dotted rest
  end.
Definition factKeyPattern (s : string) : bool :=
  match s with
  | String c rest => is_lower c && key_segment false rest
  | EmptyString => false
  end.

Definition NewFactKey (value : string) : result Error string :=
  reject (slen value =? 0) || (128 <? slen value) || negb (factKeyPattern value) with ErrInvalid ;;
  Ok value.

(** [canonicalTokens]: valid, sorted and distinct. *)
Definition canonicalTokens (values : list string) : result Error (list string) :=
  reject negb (forallb (fun value => validToken value 100) values) with ErrInvalid ;;
  let result := sort_strings values in
  reject negb (no_dupb result) with ErrInvalid ;;
  Ok result.

Definition MaximumFacts : Z := 128.
Definition MaximumObservations : Z := 64.
Definition MaximumSnapshotBytes : Z := 256 * 1024.

(** ** Data *)

Record AssuranceRequirement := mk_requirement {
  Dimension : string;
  Property : string;
  MinimumSources : Z;
  MaximumAgeSeconds : Z;
  Capabilities : list string;
}.

Record AssuranceMapping := mk_mapping {
  Capability : string;
  M_Signal : string;
  M_RunnerKind : string;
  M_RunnerID : string;
  M_PackageDigest : string;
  M_ConfigurationDigest : string;
  M_ThresholdDigest : string;
}.

Record AssuranceProfile := mk_profile {
  P_Name : string;
  P_Revision : Z;
  Requirements : list AssuranceRequirement;
  Mappings : list AssuranceMapping;
}.

Record AssuranceSource := mk_source {
  ExpiresAt : option Time;
  CaptureAssurances : list string;
  Reference : string;
  S_Signal : string;
  S_State : RequirementState;
  S_RunnerKind : string;
  S_RunnerID : string;
  S_PackageDigest : string;
  S_ConfigurationDigest : string;
  S_ThresholdDigest : string;
  CollectedAt : Time;
  Roots : list string;
  EvaluationOnly : bool;
}.

Record DecisionReference := mk_reference {
  R_Kind : string;
  R_ID : string;
  R_Version : string;
  R_Digest : string;
  Parents : list string;
}.

Record DecisionContext := mk_context {
  C_Version : Z;
  References : list DecisionReference;
  C_Profile : option AssuranceProfile;
  ProfileDigest : string;
  Sources : list AssuranceSource;
}.

Record AssuranceDimensionResult := mk_dimension {
  D_Dimension : string;
  D_Property : string;
  Satisfied : bool;
  IndependentSources : Z;
  SourceReferences : list string;
}.

Record AssuranceAchievement := mk_achievement {
  RequestedDigest : string;
  Achieved : bool;
  Dimensions : list AssuranceDimensionResult;
}.

#[export] Instance AssuranceMapping_eq_dec : EqDecision AssuranceMapping. Proof. solve_decision. Defined.
#[export] Instance AssuranceRequirement_eq_dec : EqDecision AssuranceRequirement. Proof. solve_decision. Defined.
#[export] Instance AssuranceProfile_eq_dec : EqDecision AssuranceProfile. Proof. solve_decision. Defined.
#[export] Instance DecisionReference_eq_dec : EqDecision DecisionReference. Proof. solve_decision. Defined.
#[export] Instance AssuranceSource_eq_dec : EqDecision AssuranceSource. Proof. solve_decision. Defined.
#[export] Instance DecisionContext_eq_dec : EqDecision DecisionContext. Proof. solve_decision. Defined.

(** ** The capability catalogue of [assurance_capability.go] *)

Record AssuranceCapability := mk_capability {
  AC_Name : string;
  AC_Dimensions : list string;
  AC_Signals : list string;
  AC_SignalPrefix : string;
  AC_RunnerKinds : list string;
  RequiredCaptureAssurances : list string;
}.

Definition live : list string := ["idenqa.assurance.freshness"; "idenqa.assurance.live_capture"]%string.

Definition AssuranceCapabilities : list AssuranceCapability := [
  mk_capability "idenqa.assurance.authority_record" ["identity_resolution"; "evidence_validation"; "source_independence"]
    ["idenqa.signal.authority_record"] "" ["provider"] [];
  mk_capability "idenqa.assurance.document_authenticity" ["evidence_validation"; "source_independence"]
    ["idenqa.signal.document_authenticity"] "" ["provider"; "model"] [];
  mk_capability "idenqa.assurance.capture_quality" ["evidence_validation"]
    ["idenqa.signal.document_quality"] "" ["provider"; "model"] [];
  mk_capability "idenqa.assurance.face_match_1to1" ["applicant_binding"]
    ["idenqa.signal.face_match_1to1"] "" ["provider"; "model"] live;
  mk_capability "idenqa.assurance.passive_liveness" ["liveness"]
    ["idenqa.signal.passive_liveness"; "idenqa.signal.passive_pad"] "" ["provider"; "model"] live;
  mk_capability "idenqa.assurance.active_liveness" ["liveness"]
    ["idenqa.signal.liveness"; "idenqa.signal.active_liveness"] "" ["provider"; "model"]
    (live ++ ["idenqa.assurance.active_liveness"]);
  mk_capability "idenqa.assurance.freshness" ["freshness"] ["capture.freshness"] "" ["capture"] live;
  mk_capability "idenqa.assurance.live_capture" ["provenance"] ["capture.live_capture"] "" ["capture"] live;
  mk_capability "idenqa.assurance.capture_integrity" ["integrity"] ["capture.capture_integrity"] "" ["capture"]
    ["idenqa.assurance.capture_integrity"];
  mk_capability "idenqa.assurance.human_review" ["human_oversight"] ["review.resolution"] "" ["review"] [];
  mk_capability "idenqa.assurance.identity_corroboration" ["identity_resolution"; "evidence_validation"]
    [] "identity." ["identity"] [];
  mk_capability "idenqa.assurance.fraud_controls" ["fraud_resistance"] [] "fraud." ["fraud"] []
]%string.

Definition assuranceCapability (name : string) : option AssuranceCapability :=
  List.find (fun c => String.eqb (AC_Name c) name) AssuranceCapabilities.

Definition contains (values : list string) (value : string) : bool := bool_decide (value ∈ values).

Definition capabilityMappingValid (m : AssuranceMapping) : bool :=
  match assuranceCapability (Capability m) with
  | None => false
  | Some c =>
      contains (AC_RunnerKinds c) (M_RunnerKind m) &&
      (contains (AC_Signals c) (M_Signal m) ||
       (negb (empty_string (AC_SignalPrefix c)) && String.prefix (AC_SignalPrefix c) (M_Signal m)))
  end.

Definition sourceCapabilityEligible (s : AssuranceSource) (m : AssuranceMapping) : bool :=
  match assuranceCapability (Capability m) with
  | None => false
  | Some c => forallb (contains (CaptureAssurances s)) (RequiredCaptureAssurances c)
  end.

(** ** Canonical forms *)

Definition known_dimensions : list string :=
  ["identity_resolution"; "evidence_validation"; "applicant_binding"; "source_independence"; "fraud_resistance";
   "human_oversight"; "provenance"; "freshness"; "liveness"; "integrity"]%string.

Definition known_reference_kinds : list string :=
  ["decision"; "snapshot"; "claim"; "identifier"; "observation"; "fact"; "evidence"; "lineage"; "check"; "attempt";
   "signal"; "review_finding"; "authority"; "subject_response"; "region"; "transfer_policy"; "capture_profile";
   "identity_receipt"; "fraud_receipt"; "provider"; "model"; "runtime"; "preprocessing"; "configuration"; "threshold";
   "policy"; "evaluator"]%string.

Definition known_runner_kinds : list string :=
  ["provider"; "model"; "capture"; "identity"; "fraud"; "review"]%string.

(** The anchored pattern [^\[A-Za-z0-9\]\[A-Za-z0-9._:-\]*$]. *)
Definition assuranceRootPattern (s : string) : bool :=
  let head c := is_lower c || is_upper c || is_digit c in
  match_head_tail head (fun c => head c || byte_of "._:-" c) s.

Definition canonicalAssuranceRoots (values : list string) : result Error (list string) :=
  reject negb (forallb (fun v => (slen v <=? 256) && assuranceRootPattern v) values) with ErrInvalid ;;
  let r := sort_strings values in
  reject negb (no_dupb r) with ErrInvalid ;;
  Ok r.

Section Canonical.
(** JSON texts as sort keys, the size of a context's JSON ([None] when it cannot
    be encoded), and the SHA-256 of a profile's JSON. *)
Variable json_mapping : AssuranceMapping -> string.
Variable json_reference : DecisionReference -> string.
Variable json_size : DecisionContext -> option Z.
Variable profile_digest : AssuranceProfile -> string.

Definition mapping_valid (m : AssuranceMapping) : bool :=
  validToken (Capability m) 100 && validToken (M_RunnerID m) 128 && capabilityMappingValid m &&
  validDigest (M_PackageDigest m) && validDigest (M_ConfigurationDigest m) &&
  (empty_string (M_ThresholdDigest m) || validDigest (M_ThresholdDigest m)) && is_ok (NewFactKey (M_Signal m)).

(** One iteration of the requirement loop. *)
Definition canonical_requirement (capabilities seen : list string) (r : AssuranceRequirement)
  : result Error AssuranceRequirement :=
  reject negb (contains known_dimensions (Dimension r)) with ErrInvalid ;;
  reject contains seen (Dimension r) || negb (validToken (Property r) 64) || (MinimumSources r =? 0) ||
         (32 <? MinimumSources r) || (MaximumAgeSeconds r =? 0) || (31536000 <? MaximumAgeSeconds r) ||
         (llen (Capabilities r) =? 0) || (32 <? llen (Capabilities r)) with ErrInvalid ;;
  let? c := canonicalTokens (Capabilities r) in
  reject negb (forallb (fun v => contains capabilities v &&
           match assuranceCapability v with
           | Some capability => contains (AC_Dimensions capability) (Dimension r)
           | None => false
           end) c) with ErrInvalid ;;
  Ok (mk_requirement (Dimension r) (Property r) (MinimumSources r) (MaximumAgeSeconds r) c).

Fixpoint canonical_requirements (capabilities seen : list string) (rs : list AssuranceRequirement)
  : result Error (list AssuranceRequirement) :=
  match rs with
  | [] => Ok []
  | r :: rest =>
      let? r' := canonical_requirement capabilities seen r in
      let? rest' := canonical_requirements capabilities (seen ++ [Dimension r]) rest in
      Ok (r' :: rest')
  end.

Definition CanonicalAssuranceProfile (p : AssuranceProfile) : result Error (AssuranceProfile * string) :=
  reject negb (validToken (P_Name p) 64) || (P_Revision p =? 0) || (llen (Requirements p) =? 0) ||
         (16 <? llen (Requirements p)) || (llen (Mappings p) =? 0) || (128 <? llen (Mappings p)) with ErrInvalid ;;
  reject negb (forallb mapping_valid (Mappings p)) with ErrInvalid ;;
  let mappings := sort_by json_mapping (Mappings p) in
  reject negb (no_dupb mappings) with ErrInvalid ;;
  let? requirements := canonical_requirements (map Capability (Mappings p)) [] (Requirements p) in
  let canonical := mk_profile (P_Name p) (P_Revision p) (sort_by Dimension requirements) mappings in
  Ok (canonical, profile_digest canonical).

Definition reference_valid (r : DecisionReference) : bool :=
  contains known_reference_kinds (R_Kind r) && negb (empty_string (R_ID r)) && (slen (R_ID r) <=? 256) &&
  (slen (R_Version r) <=? 128) && (empty_string (R_Digest r) || validDigest (R_Digest r)) &&
  (llen (Parents r) <=? 128) &&
  forallb (fun parent => negb (empty_string parent) && (slen parent <=? 256)) (Parents r).

Definition canonical_reference (r : DecisionReference) : DecisionReference :=
  mk_reference (R_Kind r) (R_ID r) (R_Version r) (R_Digest r) (compact (sort_strings (Parents r))).

(** [slices.CompactFunc] on equal JSON texts. *)
Fixpoint compact_references (previous : option string) (rs : list DecisionReference) : list DecisionReference :=
  match rs with
  | [] => []
  | r :: rest =>
      if bool_decide (previous = Some (json_reference r)) then compact_references previous rest
      else r :: compact_references (Some (json_reference r)) rest
  end.

Definition canonical_source (s : AssuranceSource) : result Error AssuranceSource :=
  reject negb (contains known_runner_kinds (S_RunnerKind s)) with ErrInvalid ;;
  let? _ := NewFactKey (S_Signal s) in
  reject negb (validToken (S_RunnerID s) 128) ||
         (negb (empty_string (S_ThresholdDigest s)) && negb (validDigest (S_ThresholdDigest s))) ||
         negb (validUTC (CollectedAt s)) || negb (validRequirementState (S_State s)) || empty_string (Reference s) ||
         (256 <? slen (Reference s)) || (llen (Roots s) =? 0) || (128 <? llen (Roots s)) ||
         negb (validDigest (S_PackageDigest s)) || negb (validDigest (S_ConfigurationDigest s)) with ErrInvalid ;;
  reject match ExpiresAt s with
         | Some e => negb (validUTC e) || negb (after e (CollectedAt s))
         | None => false
         end with ErrInvalid ;;
  let? roots := canonicalAssuranceRoots (Roots s) in
  let? assurances := canonicalTokens (CaptureAssurances s) in
  Ok (mk_source (ExpiresAt s) assurances (Reference s) (S_Signal s) (S_State s) (S_RunnerKind s) (S_RunnerID s)
        (S_PackageDigest s) (S_ConfigurationDigest s) (S_ThresholdDigest s) (CollectedAt s) roots (EvaluationOnly s)).

Definition canonicalDecisionContext (c : option DecisionContext) : result Error (option DecisionContext) :=
  match c with
  | None => Ok None
  | Some c =>
      reject negb (C_Version c =? 1) || (8192 <? llen (References c)) ||
             (MaximumFacts * MaximumObservations <? llen (Sources c)) with ErrInvalid ;;
      reject match json_size c with Some n => MaximumSnapshotBytes / 2 <? n | None => true end with ErrInvalid ;;
      let? profile :=
        match C_Profile c with
        | Some p =>
            match CanonicalAssuranceProfile p with
            | Ok (p', d) => if String.eqb d (ProfileDigest c) then Ok (Some p') else Err ErrInvalid
            | Err _ => Err ErrInvalid
            end
        | None => if empty_string (ProfileDigest c) then Ok None else Err ErrInvalid
        end in
      reject negb (forallb reference_valid (References c)) with ErrInvalid ;;
      let references := compact_references None (sort_by json_reference (map canonical_reference (References c))) in
      let? sources := rmap canonical_source (Sources c) in
      let sources := sort_by Reference sources in
      reject negb (no_dupb (map Reference sources)) with ErrConflict ;;
      Ok (Some (mk_context (C_Version c) references profile (ProfileDigest c) sources))
  end.

(** ** Independent sources *)

Definition source_counts (profile : AssuranceProfile) (r : AssuranceRequirement) (at_ : Time) (s : AssuranceSource) : bool :=
  negb (EvaluationOnly s || match ExpiresAt s with Some e => negb (before at_ e) | None => false end ||
        negb (bool_decide (S_State s = RequirementSatisfied)) || after (CollectedAt s) at_ ||
        (MaximumAgeSeconds r * second <=? sub at_ (CollectedAt s))) &&
  existsb (fun m => contains (Capabilities r) (Capability m) && String.eqb (S_Signal s) (M_Signal m) &&
             String.eqb (S_RunnerKind s) (M_RunnerKind m) && String.eqb (S_RunnerID s) (M_RunnerID m) &&
             String.eqb (S_PackageDigest s) (M_PackageDigest m) &&
             String.eqb (S_ConfigurationDigest s) (M_ConfigurationDigest m) &&
             String.eqb (S_ThresholdDigest s) (M_ThresholdDigest m) && sourceCapabilityEligible s m) (Mappings profile).

(** The closure [root]: follow parents up to a fixed point.  The fuel is the
    number of sources; [root_total] shows that the Go loop stops within it. *)
Fixpoint root_from (fuel : nat) (parents : list nat) (i : nat) : nat :=
  match fuel with
  | O => i
  | S fuel =>
      match parents !! i with
      | Some p => if Nat.eqb p i then i else root_from fuel parents p
      | None => i
      end
  end.
Definition root (parents : list nat) (i : nat) : nat := root_from (length parents) parents i.

Definition add_root (i : nat) (state : list nat * gmap string nat) (v : string) : list nat * gmap string nat :=
  let '(parents, roots) := state in
  match roots !! v with
  | Some prior => (<[root parents i := root parents prior]> parents, roots)
  | None => (parents, <[v := i]> roots)
  end.

Fixpoint add_sources (i : nat) (state : list nat * gmap string nat) (sources : list AssuranceSource)
  : list nat * gmap string nat :=
  match sources with
  | [] => state
  | s :: rest => add_sources (S i) (fold_left (add_root i) (Roots s) state) rest
  end.

Definition independent_groups (sources : list AssuranceSource) : gset nat :=
  let parents := (add_sources 0 (seq 0 (length sources), ∅) sources).1 in
  list_to_set (map (root parents) (seq 0 (length sources))).

Definition achieve_dimension (profile : AssuranceProfile) (sources : list AssuranceSource) (at_ : Time)
    (r : AssuranceRequirement) : AssuranceDimensionResult :=
  let counted := List.filter (source_counts profile r at_) sources in
  let independent := Z.of_nat (size (independent_groups counted)) in
  mk_dimension (Dimension r) (Property r) (MinimumSources r <=? independent) independent (map Reference counted).

Definition AchieveAssurance (c : option DecisionContext) (at_ : Time) : result Error AssuranceAchievement :=
  let? c := canonicalDecisionContext c in
  reject negb (validUTC at_) with ErrInvalid ;;
  match c with
  | None => Ok (mk_achievement "" false [])
  | Some c =>
      match C_Profile c with
      | None => Ok (mk_achievement "" false [])
      | Some profile =>
          let dimensions := map (achieve_dimension profile (Sources c) at_) (Requirements profile) in
          Ok (mk_achievement (ProfileDigest c) (forallb Satisfied dimensions) dimensions)
      end
  end.
End Canonical.

(** ** The parent forest *)
Section Forest.
Implicit Types (ps : list nat) (i p r x : nat).

(** [path ps l i r]: from [i], following parents through the nodes [l], to the
    root [r]. *)
Inductive path ps : list nat -> nat -> nat -> Prop :=
| path_here i : ps !! i = Some i -> path ps [i] i i
| path_up l i p r : ps !! i = Some p -> p <> i -> path ps l p r -> path ps (i :: l) i r.

Definition forest ps : Prop := forall i, (i < length ps)%nat -> exists l r, path ps l i r.

Lemma path_det ps l i r l' r' : path ps l i r -> path ps l' i r' -> l = l' /\ r = r'.
Proof.
  intros Hp. revert l' r'. induction Hp as [i Hi | l i p r Hi Hne _ IH]; intros l' r' Hp'.
  - inversion Hp'; simplify_eq; done.
  - inversion Hp' as [| l'' ? p' ? Hi' Hne' Hp'']; simplify_eq. by destruct (IH _ _ Hp'') as [-> ->].
Qed.

Lemma path_suffix ps l i r x : path ps l i r -> x ∈ l -> exists l', path ps l' x r /\ (length l' <= length l)%nat.
Proof.
  induction 1 as [i Hi | l i p r Hi Hne Hp IH]; intros Hx.
  - apply list_elem_of_singleton in Hx as ->. exists [i]. split; [by constructor | done].
  - apply elem_of_cons in Hx as [-> | Hx].
    + exists (i :: l). split; [by econstructor | done].
    + destruct (IH Hx) as (l' & Hl' & Hlen). exists l'. split; [done | cbn; lia].
Qed.

Lemma path_NoDup ps l i r : path ps l i r -> NoDup l.
Proof.
  induction 1 as [i Hi | l i p r Hi Hne Hp IH]; [apply NoDup_singleton|].
  apply NoDup_cons. split; [|done]. intros Hin.
  destruct (path_suffix _ _ _ _ _ Hp Hin) as (l' & Hl' & Hlen).
  assert (Hfull : path ps (i :: l) i r) by by econstructor.
  destruct (path_det _ _ _ _ _ _ Hl' Hfull) as [-> _]. cbn in Hlen. lia.
Qed.

Lemma path_bounds ps l i r : path ps l i r -> Forall (fun x => (x < length ps)%nat) l /\ ps !! r = Some r /\ r ∈ l /\ i ∈ l.
Proof.
  induction 1 as [i Hi | l i p r Hi Hne Hp (IH & Hr & Hrl & Hpl)].
  - split_and!; try done; try set_solver. constructor; [by eapply lookup_lt_Some | constructor].
  - split_and!; try done; try set_solver. constructor; [by eapply lookup_lt_Some | done].
Qed.

(** A path visits distinct sources, so the loop ends within their number. *)
Lemma parent_path_length ps l i r : path ps l i r -> (length l <= length ps)%nat.
Proof.
  intros Hp. replace (length ps) with (length (seq 0 (length ps))) by apply length_seq. apply NoDup_incl_length.
  - apply NoDup_ListNoDup. by eapply path_NoDup.
  - intros x Hx%list_elem_of_In. apply path_bounds in Hp as (Hb & _). rewrite Forall_forall in Hb.
    apply in_seq. specialize (Hb x Hx). lia.
Qed.

Lemma root_from_path ps l i r fuel : path ps l i r -> (length l <= S fuel)%nat -> root_from fuel ps i = r.
Proof.
  intros Hp. revert fuel. induction Hp as [i Hi | l i p r Hi Hne Hp IH]; intros fuel Hf; cbn in Hf.
  - destruct fuel; cbn; [done|]. rewrite Hi. by rewrite (proj2 (Nat.eqb_eq i i)).
  - destruct fuel as [|fuel]; [destruct Hp; cbn in Hf; lia|]. cbn. rewrite Hi.
    rewrite (proj2 (Nat.eqb_neq p i)) by done. apply IH. lia.
Qed.

Lemma root_path ps l i r : path ps l i r -> root ps i = r.
Proof. intros Hp. unfold root. eapply root_from_path; [done|]. apply parent_path_length in Hp. lia. Qed.

Lemma forest_root ps i : forest ps -> (i < length ps)%nat ->
  exists l, path ps l i (root ps i).
Proof. intros Hf Hi. destruct (Hf i Hi) as (l & r & Hp). exists l. by rewrite (root_path _ _ _ _ Hp). Qed.

Lemma root_fixed ps i : forest ps -> (i < length ps)%nat ->
  ps !! root ps i = Some (root ps i) /\ (root ps i < length ps)%nat /\ root ps (root ps i) = root ps i.
Proof.
  intros Hf Hi. destruct (forest_root ps i Hf Hi) as [l Hp]. apply path_bounds in Hp as (Hb & Hr & Hrl & _).
  split_and!; [done | by eapply lookup_lt_Some | by eapply root_path, path_here].
Qed.

(** Redirecting one root to another merges the two trees and nothing else. *)
Lemma path_union ps ri rp l x r :
  ps !! ri = Some ri -> ps !! rp = Some rp -> path ps l x r ->
  exists l', path (<[ri := rp]> ps) l' x (if decide (r = ri) then rp else r).
Proof.
  intros Hri Hrp Hp. destruct (decide (ri = rp)) as [<-|Hne].
  { rewrite list_insert_id by done. exists l. by destruct (decide (r = ri)) as [->|]. }
  assert (Hlt : (ri < length ps)%nat) by by eapply lookup_lt_Some.
  induction Hp as [i Hi | l i p r Hi Hpi _ [l' IH]].
  - destruct (decide (i = ri)) as [->|Hi'].
    + exists [ri; rp]. eapply path_up; [by apply list_lookup_insert_eq | done|].
      apply path_here. by rewrite list_lookup_insert_ne.
    + exists [i]. apply path_here. by rewrite list_lookup_insert_ne.
  - exists (i :: l'). eapply path_up; [|done|done]. rewrite list_lookup_insert_ne; [done|]. congruence.
Qed.

Lemma union_forest ps i p :
  forest ps -> (i < length ps)%nat -> (p < length ps)%nat ->
  let ps' := <[root ps i := root ps p]> ps in
  forest ps' /\ length ps' = length ps /\
  forall x, (x < length ps)%nat -> root ps' x = if decide (root ps x = root ps i) then root ps p else root ps x.
Proof.
  intros Hf Hi Hp ps'. destruct (root_fixed ps i Hf Hi) as (Hri & _ & _), (root_fixed ps p Hf Hp) as (Hrp & _ & _).
  assert (Hu : forall x, (x < length ps)%nat -> exists l, path ps' l x (if decide (root ps x = root ps i) then root ps p else root ps x)).
  { intros x Hx. destruct (forest_root ps x Hf Hx) as [l Hl]. by eapply path_union. }
  split_and!; [| apply length_insert |].
  - intros x Hx. unfold ps' in Hx. rewrite length_insert in Hx. destruct (Hu x Hx) as [l Hl]. by eexists _, _.
  - intros x Hx. destruct (Hu x Hx) as [l Hl]. by eapply root_path.
Qed.

Lemma forest_seq n : forest (seq 0 n) /\ forall x, (x < n)%nat -> root (seq 0 n) x = x.
Proof.
  assert (Hx : forall x, (x < n)%nat -> path (seq 0 n) [x] x x).
  { intros x Hx. apply path_here. rewrite lookup_seq_lt by done. done. }
  split; [intros x Hx'; rewrite length_seq in Hx'; by eexists _, _; apply Hx | intros x Hx'; by eapply root_path, Hx].
Qed.
End Forest.

(** ** The union-find computes connected components *)
Section Components.

(** Two sources share a root among the source-root pairs processed so far. *)
Definition share (done_ : list (nat * string)) (i j : nat) : Prop :=
  exists v, (i, v) ∈ done_ /\ (j, v) ∈ done_.
Notation conn done_ := (rtsc (share done_)).

Lemma conn_mono (d d' : list (nat * string)) i j : d ⊆ d' -> conn d i j -> conn d' i j.
Proof.
  intros Hsub. apply rtc_subrel. intros x y [(v & ? & ?) | (v & ? & ?)]; [left | right]; exists v; set_solver.
Qed.
Lemma conn_share d i j : share d i j -> conn d i j.
Proof. intros Hs. apply rtc_once. by left. Qed.
Lemma conn_sym d i j : conn d i j -> conn d j i.
Proof. apply symmetry. Qed.

Record state_ok (n : nat) (d : list (nat * string)) (ps : list nat) (roots : gmap string nat) : Prop := {
  so_length : length ps = n;
  so_forest : forest ps;
  so_pairs : forall i v, (i, v) ∈ d -> (i < n)%nat;
  so_first : forall v i, roots !! v = Some i -> (i, v) ∈ d;
  so_none : forall v i, roots !! v = None -> (i, v) ∉ d;
  so_conn : forall i j, (i < n)%nat -> (j < n)%nat -> (root ps i = root ps j <-> conn d i j);
}.

Lemma add_root_ok n d ps roots i v :
  state_ok n d ps roots -> (i < n)%nat ->
  state_ok n ((i, v) :: d) (add_root i (ps, roots) v).1 (add_root i (ps, roots) v).2.
Proof.
  intros [Hlen Hf Hpairs Hfirst Hnone Hconn] Hi. unfold add_root.
  assert (Hpairs' : forall j w, (j, w) ∈ (i, v) :: d -> (j < n)%nat).
  { intros j w [[= -> ->] | Hj]%elem_of_cons; [done | by eapply Hpairs]. }
  destruct (roots !! v) as [p|] eqn:Hv; cbn.
  - assert (Hpd : (p, v) ∈ d) by by apply Hfirst. assert (Hp : (p < n)%nat) by by eapply Hpairs.
    destruct (union_forest ps i p Hf) as (Hf' & Hlen' & Hroot); [lia | lia|]. set (ps' := <[root ps i:=root ps p]> ps) in *.
    constructor; try done; [lia | set_solver | | ].
    + intros w j Hw [[= -> ->] | Hj]%elem_of_cons; [congruence | by eapply Hnone].
    + assert (Hip : conn ((i, v) :: d) i p) by (apply conn_share; exists v; set_solver).
      assert (Hold : forall x y, (x < n)%nat -> (y < n)%nat -> root ps x = root ps y -> conn ((i, v) :: d) x y).
      { intros x y Hx Hy He. apply (conn_mono d); [set_solver|]. by apply Hconn. }
      intros x y Hx Hy. rewrite !Hroot by lia. split.
      * intros He. destruct (decide (root ps x = root ps i)) as [Ex|Ex], (decide (root ps y = root ps i)) as [Ey|Ey].
        -- apply Hold; [done | done | congruence].
        -- transitivity i; [by apply Hold|]. transitivity p; [done | by apply Hold].
        -- transitivity p; [by apply Hold|]. transitivity i; [by apply conn_sym | by apply Hold].
        -- by apply Hold.
      * assert (Hshare : forall a b, share ((i, v) :: d) a b ->
          (if decide (root ps a = root ps i) then root ps p else root ps a) =
          (if decide (root ps b = root ps i) then root ps p else root ps b)).
        { assert (Hd : forall a b, share d a b -> root ps a = root ps b).
          { intros a b (w & Ha & Hb). apply Hconn; [by eapply Hpairs .. | by apply conn_share; exists w]. }
          assert (Hv' : forall b, (b, v) ∈ d -> (if decide (root ps b = root ps i) then root ps p else root ps b) = root ps p).
          { intros b Hb. rewrite (Hd b p) by (by exists v). by case_decide. }
          intros a b (w & Ha & Hb). apply elem_of_cons in Ha as [[= -> ->]|Ha], Hb as Hb'; [destruct Hb' as [[= ->]|Hb']|].
          - done.
          - rewrite (Hv' b Hb'). by rewrite decide_True.
          - apply elem_of_cons in Hb as [[= -> ->]|Hb]; [rewrite (Hv' a Ha); by rewrite decide_True|].
            rewrite (Hd a b) by (by exists w). done. }
        intros Hc. clear Hx Hy. induction Hc as [x | x y z [Hs|Hs] _ IH]; [done | |];
          rewrite <- IH; [by apply Hshare | symmetry; by apply Hshare].
  - constructor; try done.
    + intros w j. rewrite lookup_insert_Some. intros [[<- <-] | [Hne Hw]]; [set_solver|]. apply Hfirst in Hw. set_solver.
    + intros w j [Hne Hw]%lookup_insert_None [[= -> ->] | Hj]%elem_of_cons; [done|]. by apply (Hnone w j Hne).
    + intros x y Hx Hy. rewrite Hconn by done. split; [apply conn_mono; set_solver|].
      intros Hc. clear Hx Hy. induction Hc as [x | x y z Hs _ IH]; [reflexivity|]. transitivity y; [|exact IH]. clear IH.
      assert (Hshare : forall a b, share ((i, v) :: d) a b -> conn d a b).
      { intros a b (w & Ha & Hb). apply elem_of_cons in Ha as [[= -> ->]|Ha], Hb as Hb'; [destruct Hb' as [[= ->]|Hb']|].
        - reflexivity.
        - by apply Hnone in Hb'.
        - apply elem_of_cons in Hb as [[= -> ->]|Hb]; [by apply Hnone in Ha|]. apply conn_share. by exists w. }
      destruct Hs as [Hs|Hs]; [by apply Hshare | apply conn_sym; by apply Hshare].
Qed.

Lemma fold_roots_ok n i vs : forall d ps roots, state_ok n d ps roots -> (i < n)%nat ->
  exists d', state_ok n d' (fold_left (add_root i) vs (ps, roots)).1 (fold_left (add_root i) vs (ps, roots)).2 /\
    forall j v, (j, v) ∈ d' <-> (j, v) ∈ d \/ (j = i /\ v ∈ vs).
Proof.
  induction vs as [|v vs IH]; intros d ps roots Hok Hi.
  - exists d. split; [done | set_solver].
  - pose proof (add_root_ok n d ps roots i v Hok Hi) as Hstep. cbn [fold_left].
    destruct (add_root i (ps, roots) v) as [ps' roots'] eqn:E. cbn [fst snd] in Hstep.
    destruct (IH _ _ _ Hstep Hi) as (d' & Hd' & Hin). exists d'. split; [done|]. intros j w. rewrite Hin. set_solver.
Qed.

Lemma add_sources_ok n sources : forall i d ps roots, state_ok n d ps roots -> (i + length sources <= n)%nat ->
  exists d', state_ok n d' (add_sources i (ps, roots) sources).1 (add_sources i (ps, roots) sources).2 /\
    forall j v, (j, v) ∈ d' <-> (j, v) ∈ d \/ exists k s, sources !! k = Some s /\ j = (i + k)%nat /\ v ∈ Roots s.
Proof.
  induction sources as [|s sources IH]; intros i d ps roots Hok Hlen; cbn in Hlen.
  - exists d. split; [done|]. intros j v. split; [by left | intros [?|(k & s & Hk & _)]; [done | by rewrite lookup_nil in Hk]].
  - destruct (fold_roots_ok n i (Roots s) d ps roots Hok) as (d1 & H1 & Hin1); [lia|]. cbn [add_sources].
    destruct (fold_left (add_root i) (Roots s) (ps, roots)) as [ps' roots']. cbn [fst snd] in H1.
    destruct (IH (S i) d1 ps' roots' H1) as (d' & Hd' & Hin'); [lia|]. exists d'. split; [done|].
    intros j v. rewrite Hin', Hin1. split.
    + intros [[Hd | [-> Hv]] | (k & t & Hk & -> & Hv)]; [by left | |].
      * right. exists 0%nat, s. split_and!; [done | lia | done].
      * right. exists (S k), t. split_and!; [done | lia | done].
    + intros [Hd | ([|k] & t & Hk & -> & Hv)]; [by left; left | |].
      * injection Hk as <-. left. right. split; [lia | done].
      * right. exists k, t. split_and!; [done | lia | done].
Qed.

(** Two sources name a common root. *)
Definition linked (sources : list AssuranceSource) (i j : nat) : Prop :=
  exists s t v, sources !! i = Some s /\ sources !! j = Some t /\ v ∈ Roots s /\ v ∈ Roots t.

(** The groups are one representative for each class of the equivalence that
    [linked] generates. *)
Lemma independent_groups_classes (sources : list AssuranceSource) :
  (forall r, r ∈ independent_groups sources -> (r < length sources)%nat) /\
  (forall i, (i < length sources)%nat -> exists r, r ∈ independent_groups sources /\ rtsc (linked sources) i r) /\
  (forall r r', r ∈ independent_groups sources -> r' ∈ independent_groups sources ->
     rtsc (linked sources) r r' -> r = r').
Proof.
  set (n := length sources). destruct (forest_seq n) as [Hf0 Hr0].
  assert (H0 : state_ok n [] (seq 0 n) ∅).
  { constructor; [apply length_seq | done | set_solver | intros v i; by rewrite lookup_empty | set_solver |].
    intros i j Hi Hj. rewrite !Hr0 by done. split; [by intros -> |].
    intros Hc. destruct Hc as [x|x y z [Hs|Hs] _]; [done | |]; destruct Hs as (v & ? & ?); set_solver. }
  destruct (add_sources_ok n sources 0 [] (seq 0 n) ∅ H0) as (d & [Hlen Hf _ _ _ Hconn] & Hd); [done|].
  assert (Hshare : forall i j, share d i j <-> linked sources i j).
  { intros i j. unfold share, linked. setoid_rewrite Hd. split.
    - intros (v & [Hx | (k & s & Hk & -> & Hv)] & [Hy | (k' & t & Hk' & -> & Hv')]); set_solver.
    - intros (s & t & v & Hs & Ht & Hv & Hv'). exists v. split; right; [by exists i, s | by exists j, t]. }
  assert (Heq : forall i j, rtsc (share d) i j <-> rtsc (linked sources) i j).
  { intros i j. split; apply rtc_subrel; intros x y [Hs|Hs]; [left | right | left | right]; by apply Hshare. }
  unfold independent_groups. change (length sources) with n. set (ps := (add_sources 0 (seq 0 n, ∅) sources).1) in *.
  assert (Hg : forall r, r ∈ (list_to_set (map (root ps) (seq 0 n)) : gset nat) <-> exists i, (i < n)%nat /\ r = root ps i).
  { intros r. rewrite elem_of_list_to_set, list_elem_of_fmap. setoid_rewrite elem_of_seq.
    split; intros (i & H1 & H2); exists i; [split; [lia | done] | split; [done | lia]]. }
  split_and!.
  - intros r (i & Hi & ->)%Hg. destruct (root_fixed ps i Hf) as (_ & Hlt & _); lia.
  - intros i Hi. exists (root ps i). split; [apply Hg; by exists i|]. apply Heq, Hconn; [done | |].
    + destruct (root_fixed ps i Hf) as (_ & Hlt & _); lia.
    + symmetry. apply (root_fixed ps i Hf). lia.
  - intros r r' (i & Hi & ->)%Hg (j & Hj & ->)%Hg Hc. apply Heq in Hc.
    destruct (root_fixed ps i Hf) as (_ & Hli & Hi'); [lia|]. destruct (root_fixed ps j Hf) as (_ & Hlj & Hj'); [lia|].
    apply Hconn in Hc; [congruence | lia | lia].
Qed.
End Components.

Lemma NewFactKey_Ok value key : NewFactKey value = Ok key -> key = value /\ value <> ""%string.
Proof. unfold NewFactKey. intros Hk. go_inv Hk. bprop. split; [done | by intros ->]. Qed.

Lemma validToken_spec value maximum :
  validToken value maximum = true -> value <> ""%string /\ slen value <= maximum /\ tokenPattern value = true.
Proof. unfold validToken. intros Hv. bprop. split_and!; try done; try lia. by intros ->. Qed.

(** What canonicalisation keeps of a source. *)
Lemma canonical_source_Ok s s' :
  canonical_source s = Ok s' ->
  s' = mk_source (ExpiresAt s) (sort_strings (CaptureAssurances s)) (Reference s) (S_Signal s) (S_State s)
         (S_RunnerKind s) (S_RunnerID s) (S_PackageDigest s) (S_ConfigurationDigest s) (S_ThresholdDigest s)
         (CollectedAt s) (sort_strings (Roots s)) (EvaluationOnly s).
Proof.
  unfold canonical_source, canonicalAssuranceRoots, canonicalTokens. intros Hs.
  go_inv Hs. go_inv Hv0. go_inv Hv1. done.
Qed.

Lemma canonical_requirements_bounds capabilities seen rs rs' :
  canonical_requirements capabilities seen rs = Ok rs' -> Forall (fun r => MaximumAgeSeconds r <= 31536000) rs'.
Proof.
  revert seen rs'. induction rs as [|r rs IH]; intros seen rs'; cbn; [by intros [= <-]|].
  intros Hr. go_inv Hr. constructor; [|by eapply IH]. unfold canonical_requirement in Hv. go_inv Hv. bprop. cbn. lia.
Qed.

(** The parts of a canonical context the evaluation reads. *)
Lemma canonical_context_parts jm jr js pd c oc :
  canonicalDecisionContext jm jr js pd (Some c) = Ok oc ->
  exists c', oc = Some c' /\
    (forall s', s' ∈ Sources c' -> exists s, s ∈ Sources c /\ canonical_source s = Ok s') /\
    (forall profile r, C_Profile c' = Some profile -> r ∈ Requirements profile -> MaximumAgeSeconds r <= 31536000).
Proof.
  unfold canonicalDecisionContext. intros Hc. go_inv Hc. eexists. split; [reflexivity|]. cbn. split.
  - intros s' Hs'. rewrite elem_of_sort_by in Hs'. apply rmap_Ok in Hv0.
    apply list_elem_of_lookup in Hs' as [i Hi]. destruct (Forall2_lookup_r _ _ _ _ _ Hv0 Hi) as (s & Hs & Hcan).
    exists s. split; [by eapply list_elem_of_lookup_2 | done].
  - intros profile r -> Hr. destruct (C_Profile c) as [p|]; [|by destruct (empty_string _)].
    destruct (CanonicalAssuranceProfile jm pd p) as [[p' d]|] eqn:Hp; [|done].
    destruct (String.eqb d (ProfileDigest c)); [|done]. injection Hv as ->.
    unfold CanonicalAssuranceProfile in Hp. go_inv Hp. cbn in Hr. rewrite elem_of_sort_by in Hr.
    apply canonical_requirements_bounds in Hv. rewrite Forall_forall in Hv. by apply Hv.
Qed.

(** ** Properties *)
Module AssuranceSpec.
Section AssuranceSpec.
Variable json_mapping : AssuranceMapping -> string.
Variable json_reference : DecisionReference -> string.
Variable json_size : DecisionContext -> option Z.
Variable profile_digest : AssuranceProfile -> string.
Notation canonicalDecisionContext := (canonicalDecisionContext json_mapping json_reference json_size profile_digest).
Notation AchieveAssurance := (AchieveAssurance json_mapping json_reference json_size profile_digest).

(** C20: independent sources are connected components.  For every requirement of
    the requested profile the reported count is the number of classes of counted
    sources under sharing a provenance root, directly or through other sources:
    there are as many representatives, every counted source is linked to one and
    no two representatives are linked.  The dimension is satisfied exactly when
    that number reaches the minimum, and assurance is achieved exactly when every
    dimension is. *)
Theorem independent_sources_are_components (c : option DecisionContext) (at_ : Time) (a : AssuranceAchievement)
    (Ha : AchieveAssurance c at_ = Ok a) :
  match canonicalDecisionContext c with
  | Ok (Some c') =>
      match C_Profile c' with
      | Some profile =>
          Forall2 (fun r d => exists (counted : list AssuranceSource) (reps : list nat),
            counted = List.filter (source_counts profile r at_) (Sources c') /\
            SourceReferences d = map Reference counted /\ D_Dimension d = Dimension r /\
            NoDup reps /\ IndependentSources d = llen reps /\
            (forall x, x ∈ reps -> (x < length counted)%nat) /\
            (forall i, (i < length counted)%nat -> exists x, x ∈ reps /\ rtsc (linked counted) i x) /\
            (forall x y, x ∈ reps -> y ∈ reps -> rtsc (linked counted) x y -> x = y) /\
            (Satisfied d = true <-> MinimumSources r <= llen reps)) (Requirements profile) (Dimensions a) /\
          (Achieved a = true <-> Forall (fun d => Satisfied d = true) (Dimensions a))
      | None => Achieved a = false /\ Dimensions a = []
      end
  | Ok None => Achieved a = false /\ Dimensions a = []
  | Err _ => False
  end.
Proof.
  unfold Assurance.AchieveAssurance in Ha. go_inv Ha. rewrite Hv. destruct v as [c'|]; [|go_inv Ha; done].
  destruct (C_Profile c') as [profile|]; [|go_inv Ha; done]. injection Ha as <-. cbn. split.
  - induction (Requirements profile) as [|r rs IH]; cbn; constructor; [|done].
    set (counted := List.filter (source_counts profile r at_) (Sources c')).
    destruct (independent_groups_classes counted) as (Hlt & Hex & Hun).
    exists counted, (elements (independent_groups counted)). unfold llen. fold (size (independent_groups counted)).
    split_and!; try done; cbn.
    + apply NoDup_elements.
    + intros x Hx%elem_of_elements. by apply Hlt.
    + intros i Hi. destruct (Hex i Hi) as (x & Hx & Hl). exists x. split; [by apply elem_of_elements | done].
    + intros x y Hx%elem_of_elements Hy%elem_of_elements. by apply Hun.
    + apply Z.leb_le.
  - rewrite forallb_forall, Forall_forall. setoid_rewrite list_elem_of_In. done.
Qed.

(** Only qualifying sources count.  A source counted for a dimension is one
    of the submitted ones, is no evaluation-only source, is satisfied, was
    collected no later than the evaluation and less than the maximum age before
    it, has not expired, and its signal, runner, package, configuration and
    threshold are exactly those mapped to a capability the dimension accepts. *)
Theorem counted_source_qualifies (c : DecisionContext) (at_ : Time) (a : AssuranceAchievement)
    (d : AssuranceDimensionResult) (ref : string)
    (Ha : AchieveAssurance (Some c) at_ = Ok a) (Hd : d ∈ Dimensions a) (Href : ref ∈ SourceReferences d) :
  exists s c' profile r m, s ∈ Sources c /\ Reference s = ref /\
    EvaluationOnly s = false /\ S_State s = RequirementSatisfied /\
    instant (CollectedAt s) <= instant at_ /\ (forall e, ExpiresAt s = Some e -> instant at_ < instant e) /\
    canonicalDecisionContext (Some c) = Ok (Some c') /\ C_Profile c' = Some profile /\
    r ∈ Requirements profile /\ Dimension r = D_Dimension d /\
    instant at_ - instant (CollectedAt s) < MaximumAgeSeconds r * second /\
    m ∈ Mappings profile /\ Capability m ∈ Capabilities r /\
    (S_Signal s, S_RunnerKind s, S_RunnerID s) = (M_Signal m, M_RunnerKind m, M_RunnerID m) /\
    (S_PackageDigest s, S_ConfigurationDigest s, S_ThresholdDigest s) =
      (M_PackageDigest m, M_ConfigurationDigest m, M_ThresholdDigest m).
Proof.
  unfold Assurance.AchieveAssurance in Ha. go_inv Ha. rename v into oc.
  destruct (canonical_context_parts _ _ _ _ _ _ Hv) as (c' & -> & Hsrc & Hage).
  destruct (C_Profile c') as [profile|] eqn:Hp; [|go_inv Ha; set_solver].
  injection Ha as <-. cbn in Hd. apply list_elem_of_fmap in Hd as (r & -> & Hr). cbn in Href.
  apply list_elem_of_fmap in Href as (s' & -> & Hs'). apply list_elem_of_In, filter_In in Hs' as [Hs' Hcount].
  apply list_elem_of_In in Hs'. destruct (Hsrc s' Hs') as (s & Hs & Hcan). specialize (Hage profile r eq_refl Hr).
  apply canonical_source_Ok in Hcan as ->. unfold source_counts in Hcount. cbn in Hcount.
  apply andb_true_iff in Hcount as [Hfresh (m & Hm & Hmatch)%existsb_exists]. apply list_elem_of_In in Hm. bprop.
  exists s, c', profile, r, m. split_and!; try done; cbn.
  - by apply after_false.
  - intros e He. rewrite He in *. bprop. by apply before_true.
  - apply sub_lt; [unfold second, max_int64 in *; lia | done].
  - unfold contains in *. by bprop.
  - congruence.
  - congruence.
Qed.
End AssuranceSpec.

Definition hex64 : string := "aaaaaaaaaaaaaaaaaaaaaaaaaaaaaaaaaaaaaaaaaaaaaaaaaaaaaaaaaaaaaaaa".
Definition t0 : Time := date 2026 1 1.
Definition sample_mapping : AssuranceMapping :=
  mk_mapping "idenqa.assurance.authority_record" "idenqa.signal.authority_record" "provider" "registry" hex64 hex64 "".
Definition sample_profile : AssuranceProfile :=
  mk_profile "basic" 1
    [mk_requirement "identity_resolution" "resolved" 2 3600 ["idenqa.assurance.authority_record"%string]] [sample_mapping].
Definition sample_source (reference : string) (roots : list string) : AssuranceSource :=
  mk_source None [] reference "idenqa.signal.authority_record" RequirementSatisfied "provider" "registry" hex64 hex64 ""
    (add t0 minute) roots false.
(** The first two sources share the root [evd_2] through the second. *)
Definition sample_context : DecisionContext :=
  mk_context 1 [] (Some sample_profile) hex64
    [sample_source "obs_1" ["evd_1"]; sample_source "obs_2" ["evd_2"; "evd_1"]; sample_source "obs_3" ["evd_3"];
     sample_source "obs_4" ["evd_2"]]%string.
Definition sample_achieve (c : DecisionContext) : result Error AssuranceAchievement :=
  AchieveAssurance Capability R_ID (fun _ => Some 1000) (fun _ => hex64) (Some c) (add t0 hour).
Definition sample_dimension : AssuranceDimensionResult :=
  mk_dimension "identity_resolution" "resolved" true 2 ["obs_1"; "obs_2"; "obs_3"; "obs_4"]%string.

Lemma sample_achieved : sample_achieve sample_context = Ok (mk_achievement hex64 true [sample_dimension]).
Proof. vm_compute. reflexivity. Qed.

Lemma independent_sources_are_components_witness :
  exists c' : DecisionContext, canonicalDecisionContext Capability R_ID (fun _ => Some 1000) (fun _ => hex64) (Some sample_context) = Ok (Some c') /\
  (Achieved (mk_achievement hex64 true [sample_dimension]) = true <->
   Forall (fun d => Satisfied d = true) [sample_dimension]).
Proof.
  pose proof (independent_sources_are_components Capability R_ID (fun _ => Some 1000) (fun _ => hex64)
    (Some sample_context) (add t0 hour) _ sample_achieved) as Hc.
  assert (He : exists c' p, canonicalDecisionContext Capability R_ID (fun _ => Some 1000) (fun _ => hex64)
    (Some sample_context) = Ok (Some c') /\ C_Profile c' = Some p)
    by (eexists _, _; split; [vm_compute; reflexivity | reflexivity]).
  destruct He as (c' & p & He & Hp). exists c'. split; [exact He|]. rewrite He, Hp in Hc. exact (proj2 Hc).
Defined.

Lemma counted_source_qualifies_witness :
  exists s, s ∈ Sources sample_context /\ Reference s = "obs_3"%string /\ EvaluationOnly s = false.
Proof.
  destruct (counted_source_qualifies Capability R_ID (fun _ => Some 1000) (fun _ => hex64) sample_context (add t0 hour)
    _ sample_dimension "obs_3" sample_achieved) as (s & c' & profile & r & m & Hs & Hr & He & _).
  - cbn. set_solver.
  - cbn. set_solver.
  - exists s. split; [exact Hs|]. split; [exact Hr | exact He].
Defined.
End AssuranceSpec.
