(* ===== verification/Policy.v ===== *)
(** * Deterministic policy evaluation and decisions

    [internal/policy]: facts and requirement results of [contract.go],
    immutable snapshots of [snapshot.go] with the provenance context bound by
    [assurance.go], the resolution of prioritised results and the reproducible
    decisions of [evaluate.go], and the loader of authoritative input of
    [input.go].

    A canonical JSON text only serves as the input of SHA-256 and in equality
    tests, so the model keeps the encoded struct and digests are section
    variables over it; [None] is an encoding error. *)

From S2P Require Import Prelude GoTime Assurance.
From Stdlib Require Import Ascii.

(** ** Vocabulary of [contract.go] *)

Inductive Directive :=
| DirectiveCompleteVerified | DirectiveCompleteNotVerified | DirectiveCompleteInconclusive
| DirectiveRequestInput | DirectiveRunCheck | DirectiveRetryCheck | DirectiveUseFallback
| DirectiveRouteManualReview | DirectiveFailWorkflow | DirectiveOther (label : string).
#[export] Instance Directive_eq_dec : EqDecision Directive. Proof. solve_decision. Defined.

(** [OutcomeOther ""] is the zero value. *)
Inductive Outcome := OutcomeVerified | OutcomeNotVerified | OutcomeInconclusive | OutcomeOther (label : string).
#[export] Instance Outcome_eq_dec : EqDecision Outcome. Proof. solve_decision. Defined.
Definition no_outcome : Outcome := OutcomeOther "".

Inductive ActorClass := ActorMachine | ActorHuman | ActorOther (label : string).
#[export] Instance ActorClass_eq_dec : EqDecision ActorClass. Proof. solve_decision. Defined.

Definition validDirective (value : Directive) : bool :=
  match value with DirectiveOther _ => false | _ => true end.
Definition validActor (value : ActorClass) : bool :=
  match value with ActorOther _ => false | _ => true end.

Definition MaximumRequirements : Z := 128.
Definition MaximumReasonsPerItem : Z := 16.
Definition MaximumSnapshotReasons : Z := 256.
Definition MaximumPriority : Z := 1000.

Record PolicyReference := mk_policy_reference {
  PR_ID : string; Revision : Z; SchemaMajor : Z; SchemaMinor : Z; PR_Digest : string }.
Record EvaluatorReference := mk_evaluator { Major : Z; Minor : Z; E_Digest : string }.
#[export] Instance PolicyReference_eq_dec : EqDecision PolicyReference. Proof. solve_decision. Defined.
#[export] Instance EvaluatorReference_eq_dec : EqDecision EvaluatorReference. Proof. solve_decision. Defined.

Record CheckSource := mk_check_source {
  CheckID : string;
  CheckVersion : Z;
  AttemptID : string;
  ObservationIDs : list string;
  ContractDigest : string;
  ImplementationDigest : string;
}.
#[export] Instance CheckSource_eq_dec : EqDecision CheckSource. Proof. solve_decision. Defined.

Inductive FactSourceKind :=
| FactSourceCheck | FactSourceProcessingAuthority | FactSourceSubjectResponse
| FactSourceReviewFinding | FactSourceFraud | FactSourceIdentity | FactSourceOther (label : string).
#[export] Instance FactSourceKind_eq_dec : EqDecision FactSourceKind. Proof. solve_decision. Defined.

(** The struct of optional pointers with its tag; the identity, authority,
    response, finding and fraud sources are their single string field. *)
Record FactSource := mk_fact_source {
  FS_Identity : option string;
  FS_Kind : FactSourceKind;
  FS_Check : option CheckSource;
  FS_Authority : option string;
  FS_SubjectResponse : option string;
  FS_ReviewFinding : option string;
  FS_Fraud : option string;
}.
#[export] Instance FactSource_eq_dec : EqDecision FactSource. Proof. solve_decision. Defined.

Record Fact := mk_fact {
  Key : string;
  F_State : RequirementState;
  Source : FactSource;
  ObservedAt : Time;
  F_ExpiresAt : option Time;
  F_ReasonCodes : list string;
}.
#[export] Instance Fact_eq_dec : EqDecision Fact. Proof. solve_decision. Defined.

Record RequirementResult := mk_result {
  RR_Name : string;
  RR_State : RequirementState;
  ContributingFacts : list string;
  Candidate : Directive;
  Priority : Z;
  RR_ReasonCodes : list string;
}.
#[export] Instance RequirementResult_eq_dec : EqDecision RequirementResult. Proof. solve_decision. Defined.

(** [reference.validate() == nil]. *)
Definition policy_reference_valid (reference : PolicyReference) : bool :=
  negb (empty_string (PR_ID reference) || (Revision reference =? 0) || negb (SchemaMajor reference =? 1) ||
        negb (SchemaMinor reference =? 0) || negb (validDigest (PR_Digest reference))).
Definition evaluator_reference_valid (reference : EvaluatorReference) : bool :=
  negb (negb (Major reference =? 1) || negb (Minor reference =? 0) || negb (validDigest (E_Digest reference))).

(** ** Facts *)

Definition is_some {A : Type} (o : option A) : bool := match o with Some _ => true | None => false end.
Definition count_some (bs : list bool) : Z := llen (List.filter (fun b => b) bs).

Definition validateSource (value : FactSource) : result Error FactSource :=
  reject negb (count_some [is_some (FS_Check value); is_some (FS_Authority value); is_some (FS_SubjectResponse value);
                           is_some (FS_ReviewFinding value); is_some (FS_Fraud value); is_some (FS_Identity value)] =? 1)
    with ErrInvalid ;;
  match FS_Kind value, FS_Identity value, FS_Fraud value, FS_Check value, FS_Authority value,
        FS_SubjectResponse value, FS_ReviewFinding value with
  | FactSourceIdentity, Some receipt, _, _, _, _, _ =>
      reject negb (validDigest receipt) with ErrInvalid ;; Ok value
  | FactSourceFraud, _, Some receipt, _, _, _, _ =>
      reject negb (validDigest receipt) with ErrInvalid ;; Ok value
  | FactSourceCheck, _, _, Some check, None, None, None =>
      reject empty_string (CheckID check) || (CheckVersion check <? 1) || empty_string (AttemptID check) ||
             (llen (ObservationIDs check) =? 0) || (MaximumObservations <? llen (ObservationIDs check)) ||
             negb (validDigest (ContractDigest check)) || negb (validDigest (ImplementationDigest check))
        with ErrInvalid ;;
      let observations := sort_strings (ObservationIDs check) in
      reject existsb empty_string observations || negb (no_dupb observations) with ErrInvalid ;;
      Ok (mk_fact_source (FS_Identity value) (FS_Kind value)
            (Some (mk_check_source (CheckID check) (CheckVersion check) (AttemptID check) observations
                     (ContractDigest check) (ImplementationDigest check)))
            None None None (FS_Fraud value))
  | FactSourceProcessingAuthority, _, _, None, Some authority, None, None =>
      reject empty_string authority with ErrInvalid ;; Ok value
  | FactSourceSubjectResponse, _, _, None, None, Some acknowledgement, None =>
      reject empty_string acknowledgement with ErrInvalid ;; Ok value
  | FactSourceReviewFinding, _, _, None, None, None, Some reference =>
      reject negb (validToken reference 128) with ErrInvalid ;; Ok value
  | _, _, _, _, _, _, _ => Err ErrInvalid
  end.

Definition validateFact (value : Fact) (evaluatedAt : Time) : result Error Fact :=
  reject negb (is_ok (NewFactKey (Key value))) || negb (validRequirementState (F_State value)) ||
         negb (validUTC (ObservedAt value)) || after (ObservedAt value) evaluatedAt ||
         (MaximumReasonsPerItem <? llen (F_ReasonCodes value)) with ErrInvalid ;;
  reject match F_ExpiresAt value with
         | Some e => negb (validUTC e) || negb (after e (ObservedAt value))
         | None => false
         end with ErrInvalid ;;
  reject match F_ExpiresAt value with Some e => negb (before evaluatedAt e) | None => false end with ErrStaleFact ;;
  let? reasons := canonicalTokens (F_ReasonCodes value) in
  let? source := validateSource (Source value) in
  Ok (mk_fact (Key value) (F_State value) source (ObservedAt value) (F_ExpiresAt value) reasons).

(** The loop over the facts: each validated in turn, with the running total of
    reason codes checked after each. *)
Fixpoint validate_facts (count : Z) (facts : list Fact) (evaluatedAt : Time) : result Error (list Fact) :=
  match facts with
  | [] => Ok []
  | fact :: rest =>
      let? validated := validateFact fact evaluatedAt in
      let count := count + llen (F_ReasonCodes validated) in
      reject MaximumSnapshotReasons <? count with ErrInvalid ;;
      let? rest' := validate_facts count rest evaluatedAt in
      Ok (validated :: rest')
  end.

(** ** Snapshots *)

Record SnapshotInput := mk_snapshot_input {
  SI_Context : option DecisionContext;
  SI_TenantID : string;
  SI_VerificationID : string;
  SI_AuthorityID : string;
  SI_AcknowledgementID : string;
  SI_Region : string;
  SI_Policy : PolicyReference;
  SI_Evaluator : EvaluatorReference;
  SI_EvaluatedAt : Time;
  SI_Facts : list Fact;
}.
#[export] Instance SnapshotInput_eq_dec : EqDecision SnapshotInput. Proof. solve_decision. Defined.

(** A snapshot is its canonical input, which is also what is encoded, and its
    digest. *)
Record Snapshot := mk_snapshot { canonical_input : SnapshotInput; digest : string }.
#[export] Instance Snapshot_eq_dec : EqDecision Snapshot. Proof. solve_decision. Defined.

(** ** Evaluations and decisions: data *)

(** The canonical evaluation: what is encoded, which has every field. *)
Record CanonicalEvaluation := mk_canonical_evaluation {
  snapshotDigest : string;
  results : list RequirementResult;
  considered : list Directive;
  selected : Directive;
  outcome : Outcome;
  assurance : string;
  reasonCodes : list string;
}.
#[export] Instance CanonicalEvaluation_eq_dec : EqDecision CanonicalEvaluation. Proof. solve_decision. Defined.
Record Evaluation := mk_evaluation { meaning : CanonicalEvaluation; evaluation_digest : string }.

Record DecisionInput := mk_decision_input {
  DI_ID : string;
  DI_Snapshot : Snapshot;
  DI_Evaluation : Evaluation;
  DI_Actor : ActorClass;
  DI_Supersedes : string;
  DI_DecidedAt : Time;
}.

Record CanonicalDecision := mk_canonical_decision {
  CD_ID : string;
  CD_TenantID : string;
  CD_VerificationID : string;
  CD_SnapshotDigest : string;
  CD_EvaluationDigest : string;
  CD_Actor : ActorClass;
  CD_Supersedes : string;
  CD_DecidedAt : Time;
}.

Record Decision := mk_decision {
  decision_id : string;
  decision_snapshot : Snapshot;
  decision_evaluation : Evaluation;
  actor : ActorClass;
  supersedes : string;
  decidedAt : Time;
  decision_digest : string;
}.

(** The summary of an achievement: the requested profile's name, revision and
    digest, and per dimension its name, property, verdict and count. *)
Record AssuranceSummary := mk_summary {
  AS_Requested : option (string * Z * string);
  AS_Achieved : bool;
  AS_Dimensions : list (string * string * bool * Z);
}.

Section Policy.
Variable json_mapping : AssuranceMapping -> string.
Variable json_reference : DecisionReference -> string.
Variable json_size : DecisionContext -> option Z.
Variable profile_digest : AssuranceProfile -> string.
(** JSON text of a canonical fact, digest of a canonical snapshot. *)
Variable json_fact : Fact -> option string.
Variable snapshot_sha : SnapshotInput -> option string.

Notation canonicalDecisionContext := (canonicalDecisionContext json_mapping json_reference json_size profile_digest).

Definition option_to_list {A : Type} (o : option A) : list A := match o with Some x => [x] | None => [] end.

Definition fact_parents (f : Fact) : list string :=
  match FS_Check (Source f) with Some check => ObservationIDs check | None => [] end ++
  option_to_list (FS_Authority (Source f)) ++ option_to_list (FS_SubjectResponse (Source f)) ++
  option_to_list (FS_Identity (Source f)) ++ option_to_list (FS_Fraud (Source f)) ++
  option_to_list (FS_ReviewFinding (Source f)).

Definition fact_references (f : Fact) : list DecisionReference :=
  match FS_ReviewFinding (Source f) with Some reference => [mk_reference "review_finding" reference "" "" []] | None => [] end ++
  [mk_reference "fact" (Key f) "" "" (fact_parents f)].

Definition bindSnapshotContext (input : SnapshotInput) : result Error (option DecisionContext) :=
  let? c := canonicalDecisionContext (SI_Context input) in
  match c with
  | None => Ok None
  | Some c =>
      let references := References c ++
        [mk_reference "policy" (PR_ID (SI_Policy input)) (decimal (Revision (SI_Policy input))) (PR_Digest (SI_Policy input)) [];
         mk_reference "evaluator" (E_Digest (SI_Evaluator input))
           (decimal (Major (SI_Evaluator input)) +:+ "." +:+ decimal (Minor (SI_Evaluator input)))
           (E_Digest (SI_Evaluator input)) []] ++
        concat (map fact_references (SI_Facts input)) in
      canonicalDecisionContext (Some (mk_context (C_Version c) references (C_Profile c) (ProfileDigest c) (Sources c)))
  end.

(** The first pair of neighbours with the same key decides the error. *)
Fixpoint duplicate_facts (facts : list Fact) : option Error :=
  match facts with
  | a :: ((b :: _) as rest) =>
      if String.eqb (Key a) (Key b) then
        match json_fact a, json_fact b with
        | Some x, Some y => if String.eqb x y then Some ErrInvalid else Some ErrConflict
        | _, _ => Some ErrInvalid
        end
      else duplicate_facts rest
  | _ => None
  end.

Definition NewSnapshot (input : SnapshotInput) : result Error Snapshot :=
  reject empty_string (SI_TenantID input) || empty_string (SI_VerificationID input) ||
         empty_string (SI_AuthorityID input) || empty_string (SI_AcknowledgementID input) ||
         negb (validToken (SI_Region input) 64) || negb (validUTC (SI_EvaluatedAt input)) ||
         (llen (SI_Facts input) =? 0) || (MaximumFacts <? llen (SI_Facts input)) with ErrInvalid ;;
  reject negb (policy_reference_valid (SI_Policy input)) with ErrVersion ;;
  reject negb (evaluator_reference_valid (SI_Evaluator input)) with ErrVersion ;;
  let? context := bindSnapshotContext input in
  let? validated := validate_facts 0 (SI_Facts input) (SI_EvaluatedAt input) in
  let facts := sort_by Key validated in
  match duplicate_facts facts with
  | Some e => Err e
  | None =>
      let canonical := mk_snapshot_input context (SI_TenantID input) (SI_VerificationID input) (SI_AuthorityID input)
        (SI_AcknowledgementID input) (SI_Region input) (SI_Policy input) (SI_Evaluator input) (SI_EvaluatedAt input) facts in
      match snapshot_sha canonical with
      | None => Err ErrEncode
      | Some d => Ok (mk_snapshot canonical d)
      end
  end.

Definition RestoreSnapshot (input : SnapshotInput) (d : string) : result Error Snapshot :=
  reject negb (validDigest d) with ErrReproduction ;;
  let? snapshot := NewSnapshot input in
  reject negb (String.eqb (digest snapshot) d) with ErrReproduction ;;
  Ok snapshot.

(** [snapshot.Context()] drops the error of a context that cannot be copied. *)
Definition Context (snapshot : Snapshot) : option DecisionContext :=
  match canonicalDecisionContext (SI_Context (canonical_input snapshot)) with Ok c => c | Err _ => None end.

Definition snapshotInput (snapshot : Snapshot) : SnapshotInput :=
  let i := canonical_input snapshot in
  mk_snapshot_input (Context snapshot) (SI_TenantID i) (SI_VerificationID i) (SI_AuthorityID i) (SI_AcknowledgementID i)
    (SI_Region i) (SI_Policy i) (SI_Evaluator i) (SI_EvaluatedAt i) (SI_Facts i).

Definition validateSnapshot (snapshot : Snapshot) : result Error unit :=
  let? _ := RestoreSnapshot (snapshotInput snapshot) (digest snapshot) in Ok ().

Definition Achievement (snapshot : Snapshot) : result Error AssuranceAchievement :=
  AchieveAssurance json_mapping json_reference json_size profile_digest
    (SI_Context (canonical_input snapshot)) (SI_EvaluatedAt (canonical_input snapshot)).

(** ** Resolution *)

Variable evaluation_sha : CanonicalEvaluation -> string.
Variable decision_sha : CanonicalDecision -> option string.

Definition validateResult (value : RequirementResult) (facts : list string) : result Error RequirementResult :=
  reject negb (validToken (RR_Name value) 128) || negb (validRequirementState (RR_State value)) ||
         negb (validDirective (Candidate value)) || (Priority value =? 0) || (MaximumPriority <? Priority value) ||
         (llen (ContributingFacts value) =? 0) || (MaximumFacts <? llen (ContributingFacts value)) ||
         (MaximumReasonsPerItem <? llen (RR_ReasonCodes value)) with ErrInvalid ;;
  let contributing := sort_strings (ContributingFacts value) in
  reject negb (forallb (fun fact => is_ok (NewFactKey fact) && contains facts fact) contributing) ||
         negb (no_dupb contributing) with ErrInvalid ;;
  let? reasons := canonicalTokens (RR_ReasonCodes value) in
  Ok (mk_result (RR_Name value) (RR_State value) contributing (Candidate value) (Priority value) reasons).

(** The selection loop over the results ordered by name. *)
Fixpoint select_directive (selectedPriority : Z) (selected : Directive) (rest : list RequirementResult)
  : result Error Directive :=
  match rest with
  | [] => Ok selected
  | r :: rest =>
      if Priority r <? selectedPriority then select_directive (Priority r) (Candidate r) rest
      else if (Priority r =? selectedPriority) && negb (bool_decide (Candidate r = selected)) then Err ErrConflict
      else select_directive selectedPriority selected rest
  end.

Definition has_state (state : RequirementState) (rs : list RequirementResult) : bool :=
  existsb (fun r => bool_decide (RR_State r = state)) rs.

Definition terminalOutcome (selected : Directive) (rs : list RequirementResult) : result Error Outcome :=
  let hasNotSatisfied := has_state RequirementNotSatisfied rs in
  let hasInconclusive := has_state RequirementInconclusive rs in
  let hasUnavailable := has_state RequirementUnavailable rs in
  let hasProhibited := has_state RequirementProhibited rs in
  let allSatisfied := forallb (fun r => bool_decide (RR_State r = RequirementSatisfied)) rs in
  reject hasProhibited && negb (bool_decide (selected = DirectiveFailWorkflow)) with ErrInvalid ;;
  match selected with
  | DirectiveCompleteVerified => reject negb allSatisfied with ErrInvalid ;; Ok OutcomeVerified
  | DirectiveCompleteNotVerified =>
      reject negb hasNotSatisfied || hasProhibited with ErrInvalid ;; Ok OutcomeNotVerified
  | DirectiveCompleteInconclusive =>
      reject (negb hasInconclusive && negb hasUnavailable) || hasNotSatisfied || hasProhibited with ErrInvalid ;;
      Ok OutcomeInconclusive
  | _ => Ok no_outcome
  end.

Definition uniqueTokens (values : list string) (maximum : Z) : result Error (list string) :=
  reject maximum <? llen values with ErrInvalid ;;
  Ok (compact (sort_strings values)).

(** The selected directive after the assurance gate, and whether it was gated. *)
Definition gate (achievement : AssuranceAchievement) (selected : Directive) : Directive * bool :=
  if bool_decide (selected = DirectiveCompleteVerified) && negb (empty_string (RequestedDigest achievement)) &&
     negb (Achieved achievement)
  then (DirectiveRouteManualReview, true) else (selected, false).

Definition profile_label (profile : AssuranceProfile) : string := P_Name profile +:+ ".v" +:+ decimal (P_Revision profile).

(** The assurance of the evaluation: the caller's, or the profile's label. *)
Definition bound_assurance (snapshot : Snapshot) (selected : Directive) (assurance : string) : string :=
  match SI_Context (canonical_input snapshot) with
  | Some c =>
      match C_Profile c with
      | Some profile =>
          if bool_decide (selected = DirectiveCompleteVerified) then profile_label profile else ""%string
      | None => assurance
      end
  | None => assurance
  end.

Definition Resolve (snapshot : Snapshot) (rs : list RequirementResult) (assurance : string) : result Error Evaluation :=
  let? _ := validateSnapshot snapshot in
  reject (llen rs =? 0) || (MaximumRequirements <? llen rs) ||
         (negb (empty_string assurance) && negb (validToken assurance 128)) with ErrInvalid ;;
  let facts := map Key (SI_Facts (canonical_input snapshot)) in
  let? validated := rmap (fun r => validateResult r facts) rs in
  let ordered := sort_by RR_Name validated in
  reject negb (no_dupb (map RR_Name ordered)) with ErrConflict ;;
  match ordered with
  | [] => Err ErrInvalid
  | first :: rest =>
      let? selected := select_directive (Priority first) (Candidate first) rest in
      let? achievement := Achievement snapshot in
      let '(selected, assuranceGated) := gate achievement selected in
      let assurance := bound_assurance snapshot selected assurance in
      let? outcome := terminalOutcome selected ordered in
      reject bool_decide (selected = DirectiveCompleteVerified) && empty_string assurance with ErrInvalid ;;
      let considered := map Candidate ordered ++ (if assuranceGated then [DirectiveRouteManualReview] else []) in
      let allReasons := concat (map RR_ReasonCodes ordered) ++
                        (if assuranceGated then ["assurance.not_achieved"%string] else []) in
      let? reasons := uniqueTokens allReasons MaximumSnapshotReasons in
      let canonical := mk_canonical_evaluation (digest snapshot) ordered considered selected outcome assurance reasons in
      Ok (mk_evaluation canonical (evaluation_sha canonical))
  end.

Definition AuthorisesCompletion (evaluation : Evaluation) : bool :=
  match selected (meaning evaluation) with
  | DirectiveCompleteVerified => bool_decide (outcome (meaning evaluation) = OutcomeVerified)
  | DirectiveCompleteNotVerified => bool_decide (outcome (meaning evaluation) = OutcomeNotVerified)
  | DirectiveCompleteInconclusive => bool_decide (outcome (meaning evaluation) = OutcomeInconclusive)
  | _ => false
  end.

(** ** Decisions *)

Definition NewDecision (input : DecisionInput) : result Error Decision :=
  let snapshot := DI_Snapshot input in
  let evaluation := DI_Evaluation input in
  reject empty_string (DI_ID input) || negb (validActor (DI_Actor input)) || negb (validUTC (DI_DecidedAt input)) ||
         before (DI_DecidedAt input) (SI_EvaluatedAt (canonical_input snapshot)) ||
         negb (AuthorisesCompletion evaluation) ||
         negb (String.eqb (snapshotDigest (meaning evaluation)) (digest snapshot)) ||
         (negb (empty_string (DI_Supersedes input)) && String.eqb (DI_Supersedes input) (DI_ID input)) with ErrInvalid ;;
  let? _ := validateSnapshot snapshot in
  match Resolve snapshot (results (meaning evaluation)) (assurance (meaning evaluation)) with
  | Err _ => Err ErrReproduction
  | Ok reproduced =>
      reject negb (String.eqb (evaluation_digest reproduced) (evaluation_digest evaluation)) with ErrReproduction ;;
      let canonical := mk_canonical_decision (DI_ID input) (SI_TenantID (canonical_input snapshot))
        (SI_VerificationID (canonical_input snapshot)) (digest snapshot) (evaluation_digest evaluation)
        (DI_Actor input) (DI_Supersedes input) (DI_DecidedAt input) in
      match decision_sha canonical with
      | None => Err ErrEncode
      | Some d =>
          Ok (mk_decision (DI_ID input) snapshot evaluation (DI_Actor input) (DI_Supersedes input) (DI_DecidedAt input) d)
      end
  end.

Definition RestoreDecision (input : DecisionInput) (snapshotDigest evaluationDigest : string) : result Error Decision :=
  reject negb (String.eqb (digest (DI_Snapshot input)) snapshotDigest) ||
         negb (String.eqb (evaluation_digest (DI_Evaluation input)) evaluationDigest) ||
         negb (validDigest snapshotDigest) || negb (validDigest evaluationDigest) with ErrReproduction ;;
  NewDecision input.

Definition Reproduce (decision : Decision) : result Error Evaluation :=
  reject empty_string (decision_id decision) || negb (validActor (actor decision)) || negb (validUTC (decidedAt decision))
    with ErrReproduction ;;
  let stored := decision_evaluation decision in
  let? reproduced := Resolve (decision_snapshot decision) (results (meaning stored)) (assurance (meaning stored)) in
  reject negb (String.eqb (evaluation_digest reproduced) (evaluation_digest stored)) ||
         negb (bool_decide (selected (meaning reproduced) = selected (meaning stored))) ||
         negb (bool_decide (outcome (meaning reproduced) = outcome (meaning stored))) ||
         negb (bool_decide (reasonCodes (meaning reproduced) = reasonCodes (meaning stored))) with ErrReproduction ;;
  Ok reproduced.

(** ** Recapture and summaries *)

Definition SameAssuranceRequest (a b : Snapshot) : bool :=
  let requested (s : Snapshot) :=
    match SI_Context (canonical_input s) with Some c => ProfileDigest c | None => ""%string end in
  String.eqb (requested a) (requested b).

(** The sources of the child whose reference is not yet seen. *)
Fixpoint import_sources (seen : list string) (sources : list AssuranceSource) : list AssuranceSource :=
  match sources with
  | [] => []
  | s :: rest =>
      if contains seen (Reference s) then import_sources seen rest
      else s :: import_sources (seen ++ [Reference s]) rest
  end.

Definition MergeRecaptureContext (parent : Snapshot) (child : Decision) : result Error (option DecisionContext) :=
  reject negb (SameAssuranceRequest parent (decision_snapshot child)) with ErrConflict ;;
  match Context parent with
  | None => Ok None
  | Some c =>
      match Context (decision_snapshot child) with
      | None => Ok (Some c)
      | Some other =>
          let references := References c ++ References other ++
            [mk_reference "decision" (decision_id child) "" (decision_digest child) [];
             mk_reference "snapshot" (digest (decision_snapshot child)) "" (digest (decision_snapshot child)) []] in
          let sources := Sources c ++ import_sources (map Reference (Sources c)) (Sources other) in
          canonicalDecisionContext (Some (mk_context (C_Version c) references (C_Profile c) (ProfileDigest c) sources))
      end
  end.

Definition Summary (snapshot : Snapshot) : option AssuranceSummary :=
  match SI_Context (canonical_input snapshot) with
  | None => None
  | Some c =>
      match Achievement snapshot with
      | Err _ => None
      | Ok achievement =>
          Some (mk_summary (match C_Profile c with
                            | Some p => Some (P_Name p, P_Revision p, ProfileDigest c)
                            | None => None
                            end) (Achieved achievement)
                  (map (fun d => (D_Dimension d, D_Property d, Satisfied d, IndependentSources d)) (Dimensions achievement)))
      end
  end.
End Policy.

(** ** [input.go] *)

Record AuthoritativeState := mk_state {
  AS_Context : option DecisionContext;
  AS_PolicyID : string;
  PinnedPolicy : option PolicyReference;
  AS_AuthorityID : string;
  AS_AcknowledgementID : string;
  AS_Region : string;
  AS_Facts : list Fact;
}.

Record AuthorInput := mk_author_input {
  AI_AuthorityID : string;
  AI_AcknowledgementID : string;
  AI_Region : string;
  AI_Policy : PolicyReference;
  AI_Facts : list Fact;
  AI_Context : option DecisionContext;
}.

Inductive LoadError := LoadInvalid (e : Error) | LoadSource | LoadActive | ErrRevisionConflict.

Fixpoint validate_state_facts (seen : list string) (reasons : Z) (facts : list Fact) (evaluatedAt : Time)
  : result Error unit :=
  match facts with
  | [] => Ok ()
  | fact :: rest =>
      let? _ := validateFact fact evaluatedAt in
      reject contains seen (Key fact) with ErrConflict ;;
      let reasons := reasons + llen (F_ReasonCodes fact) in
      reject MaximumSnapshotReasons <? reasons with ErrInvalid ;;
      validate_state_facts (seen ++ [Key fact]) reasons rest evaluatedAt
  end.

Definition validateAuthoritativeState (state : AuthoritativeState) (evaluatedAt : Time) : result Error unit :=
  reject empty_string (AS_PolicyID state) || empty_string (AS_AuthorityID state) ||
         empty_string (AS_AcknowledgementID state) || negb (validToken (AS_Region state) 64) ||
         (llen (AS_Facts state) =? 0) || (MaximumFacts <? llen (AS_Facts state)) with ErrInvalid ;;
  validate_state_facts [] 0 (AS_Facts state) evaluatedAt.

(** The two interfaces are the answers of one call each. *)
Definition LoadPolicyInput (scope verificationID : string) (evaluatedAt : Time)
    (LoadAuthoritativeState : option AuthoritativeState) (FindActive : string -> option PolicyReference)
  : result LoadError AuthorInput :=
  reject empty_string scope || empty_string verificationID || negb (validUTC evaluatedAt) with LoadInvalid ErrInvalid ;;
  match LoadAuthoritativeState with
  | None => Err LoadSource
  | Some state =>
      match validateAuthoritativeState state evaluatedAt with
      | Err e => Err (LoadInvalid e)
      | Ok _ =>
          let? reference :=
            match PinnedPolicy state with
            | Some reference =>
                if negb (String.eqb (PR_ID reference) (AS_PolicyID state)) || negb (policy_reference_valid reference)
                then Err ErrRevisionConflict else Ok reference
            | None =>
                match FindActive (AS_PolicyID state) with
                | None => Err LoadActive
                | Some reference =>
                    if negb (String.eqb (PR_ID reference) (AS_PolicyID state)) then Err ErrRevisionConflict else Ok reference
                end
            end in
          Ok (mk_author_input (AS_AuthorityID state) (AS_AcknowledgementID state) (AS_Region state) reference
                (AS_Facts state) (AS_Context state))
      end
  end.

(** ** Lemmas on the components *)

Lemma empty_string_neq s : s <> ""%string -> empty_string s = false.
Proof. apply String.eqb_neq. Qed.

Lemma canonicalTokens_Ok values out :
  canonicalTokens values = Ok out <->
  out = sort_strings values /\ forallb (fun v => validToken v 100) values = true /\ NoDup values.
Proof.
  unfold canonicalTokens. rewrite !reject_Ok, !negb_false_iff, no_dupb_NoDup, sort_strings_NoDup.
  split; [intros (? & ? & [= <-]) | intros (-> & ? & ?)]; done.
Qed.

Lemma canonicalTokens_error values e : canonicalTokens values = Err e -> e = ErrInvalid.
Proof. unfold canonicalTokens. repeat case_match; congruence. Qed.

Lemma forallb_perm {A : Type} (p : A -> bool) (l k : list A) : l ≡ₚ k -> forallb p l = forallb p k.
Proof.
  induction 1 as [|x l k _ IH|x y l|l k m _ IH1 _ IH2]; cbn; [done | by rewrite IH | | congruence].
  by rewrite !andb_assoc, (andb_comm (p y)).
Qed.

Lemma canonicalTokens_idem values out : canonicalTokens values = Ok out -> canonicalTokens out = Ok out.
Proof.
  rewrite !canonicalTokens_Ok. intros (-> & Hv & Hn).
  rewrite sort_strings_idem, sort_strings_NoDup, (forallb_perm _ _ _ (sort_strings_perm values)). done.
Qed.

Lemma validateResult_error r facts e : validateResult r facts = Err e -> e = ErrInvalid.
Proof.
  unfold validateResult. repeat case_match; try congruence. unfold rbind. case_match; [congruence|].
  intros [= <-]. by eapply canonicalTokens_error.
Qed.

(** Validation keeps the meaning of a result and is idempotent. *)
Lemma validateResult_Ok r facts r' :
  validateResult r facts = Ok r' ->
  RR_Name r' = RR_Name r /\ RR_State r' = RR_State r /\ Candidate r' = Candidate r /\ Priority r' = Priority r /\
  validateResult r' facts = Ok r'.
Proof.
  unfold validateResult. intros Hr. go_inv Hr. split_and!; try done. cbn.
  pose proof (canonicalTokens_idem _ _ Hv) as Hi. apply canonicalTokens_Ok in Hv as (-> & _).
  by rewrite !llen_sort_strings, Hg, sort_strings_idem, Hg0, Hi.
Qed.

(** The selected directive belongs to a lowest priority on which all agree. *)
Lemma select_directive_minimum p d rs s :
  select_directive p d rs = Ok s ->
  exists m, m <= p /\ (m = p -> s = d) /\ ((m = p /\ s = d) \/ exists r, r ∈ rs /\ Priority r = m /\ Candidate r = s) /\
    forall r, r ∈ rs -> m <= Priority r /\ (Priority r = m -> Candidate r = s).
Proof.
  revert p d. induction rs as [|r rs IH]; intros p d; cbn [select_directive].
  - intros [= ->]. exists p. split_and!; [lia | done | by left | set_solver].
  - destruct (Priority r <? p) eqn:Hlt; bprop.
    + intros Hs. destruct (IH _ _ Hs) as (m & Hm & Heq & Hex & Hall). exists m. split_and!; [lia | lia | |].
      * right. destruct Hex as [[-> ->] | (x & Hx & ?)]; [exists r; set_solver | exists x; set_solver].
      * intros x [->|Hx]%elem_of_cons; [split; [lia | intros; symmetry; by apply Heq] | by apply Hall].
    + destruct (Priority r =? p) eqn:Heqp; cbn [andb]; bprop.
      * destruct (bool_decide (Candidate r = d)) eqn:Hc; cbn; [bprop | done].
        intros Hs. destruct (IH _ _ Hs) as (m & Hm & Heq & Hex & Hall). exists m. split_and!; try done.
        -- destruct Hex as [?|(x & Hx & ?)]; [by left | right; exists x; set_solver].
        -- intros x [->|Hx]%elem_of_cons; [split; [lia|] | by apply Hall].
           intros Hpm. rewrite Hc. symmetry. apply Heq. lia.
      * intros Hs. destruct (IH _ _ Hs) as (m & Hm & Heq & Hex & Hall). exists m. split_and!; try done.
        -- destruct Hex as [?|(x & Hx & ?)]; [by left | right; exists x; set_solver].
        -- intros x [->|Hx]%elem_of_cons; [split; lia | by apply Hall].
Qed.

Lemma has_state_true state rs : has_state state rs = true <-> exists r, r ∈ rs /\ RR_State r = state.
Proof.
  unfold has_state. rewrite existsb_exists. setoid_rewrite <- list_elem_of_In. by setoid_rewrite bool_decide_true.
Qed.

(** What each terminal conclusion says of the results. *)
Lemma terminalOutcome_Ok s rs o :
  terminalOutcome s rs = Ok o ->
  (has_state RequirementProhibited rs = true -> s = DirectiveFailWorkflow) /\
  match s with
  | DirectiveCompleteVerified => o = OutcomeVerified /\ Forall (fun r => RR_State r = RequirementSatisfied) rs
  | DirectiveCompleteNotVerified => o = OutcomeNotVerified /\ has_state RequirementNotSatisfied rs = true
  | DirectiveCompleteInconclusive =>
      o = OutcomeInconclusive /\ has_state RequirementNotSatisfied rs = false /\
      (has_state RequirementInconclusive rs || has_state RequirementUnavailable rs) = true
  | _ => o = no_outcome
  end.
Proof.
  unfold terminalOutcome. intros Ho. go_inv Ho. split.
  - intros Hp. rewrite Hp in Hg. cbn in Hg. by bprop.
  - destruct s; go_inv Ho; try done.
    + split; [done|]. bprop. apply Forall_forall. intros r Hr%list_elem_of_In.
      rewrite forallb_forall in Hg0. specialize (Hg0 r Hr). by bprop.
    + by bprop.
    + split; [done|]. destruct (has_state RequirementNotSatisfied rs), (has_state RequirementInconclusive rs),
        (has_state RequirementUnavailable rs); done.
Qed.

Lemma profile_label_valid profile :
  validToken (P_Name profile) 64 = true -> validToken (profile_label profile) 128 = true.
Proof.
  intros (Hne & Hlen & Hpat)%validToken_spec. unfold profile_label. destruct (decimal_spec (P_Revision profile)) as [Hd Hl].
  pose proof (slen_nonneg (decimal (P_Revision profile))) as Hnn.
  assert (Hs : slen (P_Name profile +:+ ".v" +:+ decimal (P_Revision profile)) =
               slen (P_Name profile) + 2 + slen (decimal (P_Revision profile))).
  { rewrite !slen_app. change (slen ".v") with 2. lia. }
  unfold validToken. rewrite Hs. destruct (P_Name profile) as [|c name] eqn:En; [done|].
  rewrite (proj2 (Z.ltb_lt _ _)), (proj2 (Z.leb_le _ _)) by (unfold slen in *; cbn in *; lia). cbn [andb].
  change (String c name +:+ ".v" +:+ decimal (P_Revision profile)) with
    (String c (name +:+ (".v" +:+ decimal (P_Revision profile)))).
  unfold tokenPattern in *. cbn [match_head_tail] in *. apply andb_true_iff in Hpat as [-> Hrest].
  rewrite !string_forall_app, Hrest. cbn. apply (string_forall_impl is_digit); [|done].
  intros x Hx. unfold token_rest. rewrite Hx. by rewrite orb_true_r.
Qed.

(** ** Snapshots restore *)

Lemma validateSource_idem v v' : validateSource v = Ok v' -> validateSource v' = Ok v'.
Proof.
  unfold validateSource. intros Hv. destruct v as [[i|] k [c|] [a|] [s|] [f|] [r|]]; try (cbn in Hv; discriminate Hv);
    cbn [FS_Identity FS_Kind FS_Check FS_Authority FS_SubjectResponse FS_ReviewFinding FS_Fraud is_some] in Hv;
    apply reject_Ok in Hv as [Hc Hv]; destruct k; try discriminate Hv; go_inv Hv; try subst v';
    try rewrite <- Hv; cbn [FS_Identity FS_Kind FS_Check FS_Authority FS_SubjectResponse FS_ReviewFinding FS_Fraud is_some];
    rewrite ?Hc; try by rewrite Hg.
  cbn [CheckID CheckVersion AttemptID ObservationIDs ContractDigest ImplementationDigest].
  by rewrite llen_sort_strings, Hg, sort_strings_idem, Hg0.
Qed.

Lemma validateFact_idem f at_ f' : validateFact f at_ = Ok f' -> validateFact f' at_ = Ok f' /\ Key f' = Key f.
Proof.
  unfold validateFact. intros Hf. go_inv Hf. split; [|done].
  cbn [Key F_State ObservedAt F_ExpiresAt F_ReasonCodes Source].
  rewrite (validateSource_idem _ _ Hv0), (canonicalTokens_idem _ _ Hv). apply canonicalTokens_Ok in Hv as (-> & _).
  by rewrite llen_sort_strings, Hg, Hg0, Hg1.
Qed.

Definition total_reasons (facts : list Fact) : Z := foldr (fun f n => llen (F_ReasonCodes f) + n) 0 facts.

Lemma total_reasons_nonneg facts : 0 <= total_reasons facts.
Proof.
  induction facts as [|f facts IH]; [done|]. cbn [total_reasons foldr]. fold (total_reasons facts). unfold llen. lia.
Qed.

Lemma total_reasons_perm facts facts' : facts ≡ₚ facts' -> total_reasons facts = total_reasons facts'.
Proof. unfold total_reasons. induction 1; cbn; lia. Qed.

(** The running total exceeds the bound at some point if it does at the end. *)
Lemma validate_facts_Ok n facts at_ out :
  validate_facts n facts at_ = Ok out <->
  Forall2 (fun f o => validateFact f at_ = Ok o) facts out /\ (facts = [] \/ n + total_reasons out <= MaximumSnapshotReasons).
Proof.
  revert n out. induction facts as [|f facts IH]; intros n out; cbn [validate_facts].
  - split; [intros [= <-]; split; [constructor | by left] | intros [H _]; by inversion H].
  - rewrite rbind_Ok. split.
    + intros (o & Ho & Hr). go_inv Hr. apply IH in Hv as [Hall Hsum]. split; [by constructor|]. right. bprop.
      cbn [total_reasons foldr]. fold (total_reasons v).
      destruct Hsum as [-> | Hsum]; [inversion Hall; cbn|]; lia.
    + intros [Hall Hsum]. inversion Hall as [|? o ? out' Ho Hall']; subst. exists o. split; [done|].
      destruct Hsum as [|Hsum]; [done|]. cbn [total_reasons foldr] in Hsum. fold (total_reasons out') in Hsum.
      pose proof (total_reasons_nonneg out'). rewrite (proj2 (Z.ltb_ge _ _)) by lia.
      rewrite (proj2 (IH _ out')) by (split; [done | right; lia]). done.
Qed.

Lemma duplicate_facts_NoDup (jf : Fact -> option string) facts :
  StronglySorted String.le (map Key facts) -> duplicate_facts jf facts = None -> NoDup (map Key facts).
Proof.
  induction facts as [|a [|b rest] IH]; intros Hs Hd; [constructor | repeat constructor; set_solver |].
  apply StronglySorted_inv in Hs as [Hs Hall]. cbn [duplicate_facts] in Hd.
  destruct (String.eqb_spec (Key a) (Key b)) as [|Hne]; [repeat case_match; done|].
  specialize (IH Hs Hd). constructor; [|done]. intros Hin. cbn in Hin, Hs, Hall.
  apply elem_of_cons in Hin as [?|Hin]; [done|]. apply Hne. apply (anti_symm String.le).
  - by apply Forall_inv in Hall.
  - apply StronglySorted_inv in Hs as [_ Hb]. rewrite Forall_forall in Hb. by apply Hb.
Qed.

(** ** Properties *)
Module PolicySpec.
Section PolicySpec.
Variable json_mapping : AssuranceMapping -> string.
Variable json_reference : DecisionReference -> string.
Variable json_size : DecisionContext -> option Z.
Variable profile_digest : AssuranceProfile -> string.
Variable json_fact : Fact -> option string.
Variable snapshot_sha : SnapshotInput -> option string.
Variable evaluation_sha : CanonicalEvaluation -> string.
Variable decision_sha : CanonicalDecision -> option string.
#[local] Notation validate_snapshot := (validateSnapshot json_mapping json_reference json_size profile_digest json_fact snapshot_sha).
#[local] Notation achievement_of := (Achievement json_mapping json_reference json_size profile_digest).
#[local] Notation resolve := (Resolve json_mapping json_reference json_size profile_digest json_fact snapshot_sha evaluation_sha).
#[local] Notation new_decision := (NewDecision json_mapping json_reference json_size profile_digest json_fact snapshot_sha evaluation_sha decision_sha).
#[local] Notation reproduce := (Reproduce json_mapping json_reference json_size profile_digest json_fact snapshot_sha evaluation_sha).
#[local] Notation new_snapshot := (NewSnapshot json_mapping json_reference json_size profile_digest json_fact snapshot_sha).
#[local] Notation restore_snapshot := (RestoreSnapshot json_mapping json_reference json_size profile_digest json_fact snapshot_sha).
#[local] Notation snapshot_input := (snapshotInput json_mapping json_reference json_size profile_digest).

Definition with_facts (input : SnapshotInput) (facts : list Fact) : SnapshotInput :=
  mk_snapshot_input (SI_Context input) (SI_TenantID input) (SI_VerificationID input) (SI_AuthorityID input)
    (SI_AcknowledgementID input) (SI_Region input) (SI_Policy input) (SI_Evaluator input) (SI_EvaluatedAt input) facts.

(** What a snapshot is made of. *)
Lemma new_snapshot_parts input s :
  new_snapshot input = Ok s ->
  exists validated context, Forall2 (fun f o => validateFact f (SI_EvaluatedAt input) = Ok o) (SI_Facts input) validated /\
    total_reasons validated <= MaximumSnapshotReasons /\ NoDup (map Key validated) /\
    bindSnapshotContext json_mapping json_reference json_size profile_digest input = Ok context /\
    canonical_input s = mk_snapshot_input context (SI_TenantID input) (SI_VerificationID input) (SI_AuthorityID input)
      (SI_AcknowledgementID input) (SI_Region input) (SI_Policy input) (SI_Evaluator input) (SI_EvaluatedAt input)
      (sort_by Key validated).
Proof.
  intros Hs. unfold NewSnapshot in Hs. go_inv Hs. apply validate_facts_Ok in Hv0 as [Hall Hsum].
  destruct (duplicate_facts json_fact (sort_by Key v0)) eqn:Hdup; [done|].
  destruct (snapshot_sha _) as [d|]; [|done]. injection Hs as <-. exists v0, v. split_and!; [done | | | done | done].
  - destruct Hsum as [Hnil|?]; [|lia]. unfold llen in Hg. rewrite Hnil in Hg. bprop. done.
  - apply duplicate_facts_NoDup in Hdup; [by rewrite sort_by_perm in Hdup|]. rewrite sort_by_keys. apply sort_strings_sorted.
Qed.

Lemma new_snapshot_facts input s :
  SI_Context input = None -> new_snapshot input = Ok s ->
  exists validated, Forall2 (fun f o => validateFact f (SI_EvaluatedAt input) = Ok o) (SI_Facts input) validated /\
    total_reasons validated <= MaximumSnapshotReasons /\ NoDup (map Key validated) /\
    canonical_input s = with_facts input (sort_by Key validated).
Proof.
  intros Hc Hs. destruct (new_snapshot_parts _ _ Hs) as (validated & context & Hall & Hsum & Hn & Hb & Hcan).
  unfold bindSnapshotContext in Hb. rewrite Hc in Hb. injection Hb as <-. exists validated. split_and!; [done .. |].
  unfold with_facts. by rewrite Hc.
Qed.

(** The facts of a snapshot, validated in any order, give the same snapshot. *)
Lemma new_snapshot_same input s facts' validated' :
  SI_Context input = None -> new_snapshot input = Ok s ->
  Forall2 (fun f o => validateFact f (SI_EvaluatedAt input) = Ok o) facts' validated' ->
  validated' ≡ₚ SI_Facts (canonical_input s) ->
  new_snapshot (with_facts input facts') = Ok s.
Proof.
  intros Hc Hs Hall' Hp.
  destruct (new_snapshot_facts _ _ Hc Hs) as (validated & Hall & Hsum & Hn & Hcan).
  rewrite Hcan in Hp. cbn in Hp. rewrite sort_by_perm in Hp.
  unfold NewSnapshot in *. go_inv Hs. cbn [with_facts SI_Context SI_TenantID SI_VerificationID SI_AuthorityID
    SI_AcknowledgementID SI_Region SI_Policy SI_Evaluator SI_EvaluatedAt SI_Facts].
  assert (Hlen : llen facts' = llen (SI_Facts input)).
  { apply Forall2_length in Hall, Hall'. unfold llen. by rewrite Hall, Hall', Hp. }
  rewrite Hlen, Hg, Hg0, Hg1. unfold bindSnapshotContext in *. cbn [with_facts SI_Context]. rewrite Hc in *. cbn [rbind] in *.
  cbn in Hv. injection Hv as <-. cbn [canonicalDecisionContext rbind].
  apply validate_facts_Ok in Hv0 as [Hall0 _].
  assert (v0 = validated) as ->.
  { clear -Hall Hall0. revert validated Hall. induction Hall0; intros ? Hall; inversion Hall; subst; [done|]. f_equal; [congruence | auto]. }
  rewrite (proj2 (validate_facts_Ok 0 facts' _ validated')) by (split; [done | right; by rewrite (total_reasons_perm _ _ Hp)]).
  cbn [rbind]. rewrite (sort_by_unique Key validated' validated Hp) by (by rewrite Hp). done.
Qed.

(** Snapshots are canonical.  The same facts in any order give the same
    snapshot, its facts are sorted by distinct keys, and restoring its stored
    input gives it back under its own digest and under no other. *)
Theorem snapshot_canonical (input : SnapshotInput) (s : Snapshot) (facts' : list Fact)
    (Hcontext : SI_Context input = None) (Hs : new_snapshot input = Ok s) (Hp : facts' ≡ₚ SI_Facts input)
    (Hsha : validDigest (digest s) = true) :
  new_snapshot (with_facts input facts') = Ok s /\
  StronglySorted String.le (map Key (SI_Facts (canonical_input s))) /\ NoDup (map Key (SI_Facts (canonical_input s))) /\
  (forall d, validDigest d = true ->
     restore_snapshot (snapshot_input s) d = if String.eqb (digest s) d then Ok s else Err ErrReproduction).
Proof.
  destruct (new_snapshot_facts _ _ Hcontext Hs) as (validated & Hall & Hsum & Hn & Hcan).
  pose proof (new_snapshot_same _ _ facts' (omap (fun f => ok_option (validateFact f (SI_EvaluatedAt input))) facts')
                Hcontext Hs) as Hsame.
  rewrite Hcan in Hsame |- *. cbn [with_facts SI_Facts] in Hsame |- *. split_and!.
  - assert (Hall' : Forall (fun f => exists o, validateFact f (SI_EvaluatedAt input) = Ok o) facts').
    { rewrite Hp. clear -Hall. induction Hall; constructor; eauto. }
    apply Hsame.
    + clear -Hall'. induction Hall' as [|f l (o & Ho) _ IH]; cbn; [constructor|]. rewrite Ho. cbn. by constructor.
    + rewrite Hp, sort_by_perm. erewrite <- rmap_omap; [reflexivity|]. by apply rmap_Ok.
  - rewrite sort_by_keys. apply sort_strings_sorted.
  - by rewrite sort_by_perm.
  - intros d Hd. unfold RestoreSnapshot. rewrite Hd. cbn [negb].
    assert (Hi : snapshot_input s = with_facts input (sort_by Key validated)).
    { unfold snapshotInput, Context, with_facts. rewrite Hcan. cbn. by rewrite Hcontext. }
    rewrite Hi, (new_snapshot_same _ _ _ (sort_by Key validated) Hcontext Hs); cbn [rbind].
    + by destruct (String.eqb (digest s) d).
    + assert (Hidem : Forall (fun o => validateFact o (SI_EvaluatedAt input) = Ok o) (sort_by Key validated)).
      { rewrite sort_by_perm. clear -Hall. induction Hall as [|f o l k Hf _ IH]; constructor; [|done].
        by apply validateFact_idem in Hf as [? _]. }
      clear -Hidem. induction Hidem; by constructor.
    + by rewrite Hcan.
Qed.

(** The facts behind a successful resolution. *)
Record resolved (snapshot : Snapshot) (rs : list RequirementResult) (a : string) (e : Evaluation)
    (first : RequirementResult) (rest : list RequirementResult) (sel : Directive) (ach : AssuranceAchievement) : Prop := {
  rs_snapshot : validate_snapshot snapshot = Ok ();
  rs_guard : (llen rs =? 0) || (MaximumRequirements <? llen rs) || (negb (empty_string a) && negb (validToken a 128)) = false;
  rs_validated : exists validated, rmap (fun r => validateResult r (map Key (SI_Facts (canonical_input snapshot)))) rs = Ok validated /\
    sort_by RR_Name validated = first :: rest;
  rs_results : results (meaning e) = first :: rest;
  rs_names : NoDup (map RR_Name (first :: rest));
  rs_select : select_directive (Priority first) (Candidate first) rest = Ok sel;
  rs_achievement : achievement_of snapshot = Ok ach;
  rs_selected : selected (meaning e) = (gate ach sel).1;
  rs_label : assurance (meaning e) = bound_assurance snapshot (selected (meaning e)) a;
  rs_outcome : terminalOutcome (selected (meaning e)) (first :: rest) = Ok (outcome (meaning e));
  rs_named : selected (meaning e) = DirectiveCompleteVerified -> assurance (meaning e) <> ""%string;
  rs_considered : considered (meaning e) = map Candidate (first :: rest) ++ (if (gate ach sel).2 then [DirectiveRouteManualReview] else []);
  rs_reasons : uniqueTokens (concat (map RR_ReasonCodes (first :: rest)) ++
     (if (gate ach sel).2 then ["assurance.not_achieved"%string] else [])) MaximumSnapshotReasons = Ok (reasonCodes (meaning e));
  rs_snapshot_digest : snapshotDigest (meaning e) = digest snapshot;
  rs_digest : evaluation_digest e = evaluation_sha (meaning e);
}.

Lemma Resolve_resolved snapshot rs a e :
  resolve snapshot rs a = Ok e <-> exists first rest sel ach, resolved snapshot rs a e first rest sel ach.
Proof.
  unfold Resolve. split.
  - intros Hr. go_inv Hr. destruct v.
    match type of Hr with context [sort_by RR_Name ?x] => destruct (sort_by RR_Name x) as [|first rest] eqn:Hsort end; [done|].
    go_inv Hr. destruct (gate v1 v) as [sel' g] eqn:Hgate. go_inv Hr.
    exists first, rest, v, v1. constructor; cbn; rewrite ?Hgate; try done.
    + by exists v0.
    + apply no_dupb_NoDup. by apply negb_false_iff.
    + intros -> He. rewrite He in *. done.
  - intros (first & rest & sel & ach & [Hs Hg (validated & Hv & Hsort) Hres Hn Hsel Hach Hselected Hlabel Hout Hnamed Hcons Hreas Hsd Hd]).
    rewrite Hs. cbn [rbind]. rewrite Hg, Hv. cbn [rbind]. rewrite Hsort, (proj2 (no_dupb_NoDup _) Hn).
    cbn [negb]. rewrite Hsel. cbn [rbind]. rewrite Hach. cbn [rbind].
    destruct (gate ach sel) as [sel' g]. cbn in Hselected, Hcons, Hreas. rewrite <- Hselected, <- Hlabel, Hout. cbn [rbind].
    assert (Hno : bool_decide (selected (meaning e) = DirectiveCompleteVerified) && empty_string (assurance (meaning e)) = false).
    { destruct (bool_decide _) eqn:Eb; [|done]. bprop. apply empty_string_neq. by apply Hnamed. }
    change (map Candidate (first :: rest)) with (Candidate first :: map Candidate rest) in Hcons.
    change (concat (map RR_ReasonCodes (first :: rest))) with (RR_ReasonCodes first ++ concat (map RR_ReasonCodes rest)) in *.
    cbn [andb]. rewrite Hno, Hreas. cbn [rbind]. destruct e as [[sd re co se ou la rc] dg]. cbn in *. by subst.
Qed.

Lemma achievement_profile_name snapshot ach c profile :
  achievement_of snapshot = Ok ach -> SI_Context (canonical_input snapshot) = Some c -> C_Profile c = Some profile ->
  validToken (P_Name profile) 64 = true.
Proof.
  unfold Achievement, AchieveAssurance. intros Ha Hc Hp. go_inv Ha. clear Ha. rewrite Hc in Hv.
  unfold canonicalDecisionContext in Hv. go_inv Hv. rewrite Hp in Hv0.
  destruct (CanonicalAssuranceProfile json_mapping profile_digest profile) as [[p d]|] eqn:Hcan; [|done].
  unfold CanonicalAssuranceProfile in Hcan. go_inv Hcan. by bprop.
Qed.

(** Resolution of recorded results and assurance. *)
Lemma resolve_idempotent snapshot rs a e :
  resolve snapshot rs a = Ok e -> resolve snapshot (results (meaning e)) (assurance (meaning e)) = Ok e.
Proof.
  intros He%Resolve_resolved. destruct He as (first & rest & sel & ach & He). apply Resolve_resolved.
  exists first, rest, sel, ach. destruct He as [Hs Hg (validated & Hv & Hsort) Hres Hn Hsel Hach Hselected Hlabel Hout Hnamed ? ? ? ?].
  assert (Hlen : llen (first :: rest) = llen rs).
  { rewrite <- Hsort. unfold llen. rewrite length_sort_by. apply rmap_Ok, Forall2_length in Hv. by rewrite Hv. }
  assert (Hall : Forall (fun r => validateResult r (map Key (SI_Facts (canonical_input snapshot))) = Ok r) (first :: rest)).
  { rewrite <- Hsort, sort_by_perm. apply rmap_Ok in Hv. clear -Hv.
    induction Hv as [|x y xs ys Hx _ IH]; constructor; [by apply validateResult_Ok in Hx as (? & ? & ? & ? & ?) | done]. }
  constructor; try done.
  - rewrite Hres, Hlen. apply orb_false_iff in Hg as [-> Hg]. cbn [orb].
    destruct (empty_string (assurance (meaning e))) eqn:Hem; [done|]. cbn [negb andb]. rewrite Hlabel in *. unfold bound_assurance in *.
    destruct (SI_Context (canonical_input snapshot)) as [c|] eqn:Hc; [|by rewrite Hem in *].
    destruct (C_Profile c) as [profile|] eqn:Hp; [|by rewrite Hem in *].
    case_match; [|done]. apply negb_false_iff, profile_label_valid. by eapply achievement_profile_name.
  - exists (first :: rest). rewrite Hres. split.
    + apply rmap_Ok. clear -Hall. induction Hall; by constructor.
    + rewrite <- Hsort at 1. rewrite sort_by_idem; [done|]. rewrite <- Hsort, sort_by_perm in Hn. done.
  - rewrite Hlabel. unfold bound_assurance. destruct (SI_Context _) as [c|]; [|done]. by destruct (C_Profile c).
Qed.

(** Resolution does not depend on the order of the results.  Permuting the
    requirement results gives the same evaluation, digest included, or the same
    error. *)
Theorem resolve_order_independent (snapshot : Snapshot) (rs rs' : list RequirementResult) (a : string)
    (Hp : rs ≡ₚ rs') :
  resolve snapshot rs a = resolve snapshot rs' a.
Proof.
  unfold Resolve. destruct (validate_snapshot snapshot) as [[]|e]; cbn [rbind]; [|done].
  assert (Hl : llen rs = llen rs') by (unfold llen; by rewrite Hp). rewrite Hl.
  destruct (_ || _); [done|].
  destruct (rmap_perm (fun r => validateResult r (map Key (SI_Facts (canonical_input snapshot)))) ErrInvalid rs rs')
    as [(ys & ys' & Hys & Hys' & Hyp) | [Hys Hys']]; [intros x e; apply validateResult_error | done | |];
    rewrite Hys, Hys'; cbn [rbind]; [|done].
  assert (Hnames : map RR_Name (sort_by RR_Name ys) ≡ₚ map RR_Name (sort_by RR_Name ys')) by (by rewrite !sort_by_perm, Hyp).
  destruct (no_dupb (map RR_Name (sort_by RR_Name ys))) eqn:E.
  - apply no_dupb_NoDup in E as Hn. rewrite sort_by_perm in Hn.
    by rewrite <- (sort_by_unique RR_Name ys ys' Hyp Hn), E.
  - destruct (no_dupb (map RR_Name (sort_by RR_Name ys'))) eqn:E'; [|done].
    apply no_dupb_NoDup in E'. rewrite <- Hnames in E'. apply no_dupb_NoDup in E'. congruence.
Qed.

(** The selected directive is the one of the lowest priority.  A resolved
    evaluation has a result of lowest priority, every result of that priority
    proposes the same directive, and the evaluation selects it, except that a
    verified completion whose requested assurance was not achieved is routed to
    manual review with the reason recorded. *)
Theorem resolve_selects_lowest_priority (snapshot : Snapshot) (rs : list RequirementResult) (a : string) (e : Evaluation)
    (He : resolve snapshot rs a = Ok e) :
  exists r ach, r ∈ results (meaning e) /\ achievement_of snapshot = Ok ach /\
    (forall x, x ∈ results (meaning e) -> Priority r <= Priority x /\ (Priority x = Priority r -> Candidate x = Candidate r)) /\
    if bool_decide (Candidate r = DirectiveCompleteVerified) && negb (empty_string (RequestedDigest ach)) && negb (Achieved ach)
    then selected (meaning e) = DirectiveRouteManualReview /\ "assurance.not_achieved"%string ∈ reasonCodes (meaning e)
    else selected (meaning e) = Candidate r.
Proof.
  apply Resolve_resolved in He as (first & rest & sel & ach & [_ _ _ Hres _ Hsel Hach Hs _ _ _ _ Hreas _ _]).
  destruct (select_directive_minimum _ _ _ _ Hsel) as (m & Hm & Hfirst & Hex & Hall).
  assert (Hr : exists r, r ∈ first :: rest /\ Priority r = m /\ Candidate r = sel).
  { destruct Hex as [[-> ->] | (r & Hr & ?)]; [exists first | exists r]; set_solver. }
  destruct Hr as (r & Hr & <- & <-). exists r, ach. rewrite Hres. split_and!; [done | done | |].
  - intros x [->|Hx]%elem_of_cons; [split; [done | intros Heq; symmetry; by apply Hfirst] | by apply Hall].
  - unfold gate in *. destruct (_ && _) eqn:Hgate; cbn in Hs, Hreas; [|done]. split; [done|].
    unfold uniqueTokens in Hreas. go_inv Hreas. rewrite <- Hreas, elem_of_compact, elem_of_sort_strings, elem_of_app. set_solver.
Qed.

(** C18: conclusions are sound.  An evaluation concludes verified only when every
    requirement is satisfied, an assurance is named, and any requested assurance
    was achieved; not verified only when some requirement is not satisfied;
    inconclusive only when none is not satisfied and some is inconclusive or
    unavailable; it concludes nothing otherwise.  A prohibited requirement admits
    only the failure of the workflow. *)
Theorem conclusions_are_sound (snapshot : Snapshot) (rs : list RequirementResult) (a : string) (e : Evaluation)
    (He : resolve snapshot rs a = Ok e) :
  (outcome (meaning e) = OutcomeVerified ->
     Forall (fun r => RR_State r = RequirementSatisfied) (results (meaning e)) /\ assurance (meaning e) <> ""%string /\
     exists ach, achievement_of snapshot = Ok ach /\ (RequestedDigest ach <> ""%string -> Achieved ach = true)) /\
  (outcome (meaning e) = OutcomeNotVerified -> has_state RequirementNotSatisfied (results (meaning e)) = true) /\
  (outcome (meaning e) = OutcomeInconclusive ->
     has_state RequirementNotSatisfied (results (meaning e)) = false /\
     has_state RequirementInconclusive (results (meaning e)) || has_state RequirementUnavailable (results (meaning e)) = true) /\
  (has_state RequirementProhibited (results (meaning e)) = true ->
     selected (meaning e) = DirectiveFailWorkflow /\ outcome (meaning e) = no_outcome) /\
  (AuthorisesCompletion e = true <-> outcome (meaning e) <> no_outcome).
Proof.
  apply Resolve_resolved in He as (first & rest & sel & ach & [_ _ _ -> _ _ Hach Hs _ Hout Hnamed _ _ _ _]).
  destruct (terminalOutcome_Ok _ _ _ Hout) as [Hprohibited Hmeaning].
  unfold AuthorisesCompletion. unfold gate in Hs. generalize dependent (first :: rest). intros ordered Hout Hprohibited Hmeaning.
  destruct (selected (meaning e)) eqn:Esel;
    first [rewrite Hmeaning | destruct Hmeaning as [-> Hmeaning]]; split_and!; try done; try tauto;
    try (intros Hp; specialize (Hprohibited Hp); discriminate).
  intros _. split_and!; [done | by apply Hnamed|]. exists ach. split; [done|]. intros Hreq.
  destruct (Achieved ach) eqn:Ea; [done|]. exfalso. revert Hs.
  destruct (bool_decide (sel = DirectiveCompleteVerified)) eqn:Eb; bprop; [|intros Hs; cbn in Hs; congruence].
  rewrite (empty_string_neq _ Hreq). cbn. done.
Qed.


(** A tie that priority does not decide is still a conflict, or not,
    depending on names.  Take three results, two of equal priority with
    different directives and a third of lower priority: reached in the order of
    their names the loop reports a conflict, although the third alone decides,
    while with the third named first it selects the third's directive. *)
Theorem superseded_tie_depends_on_names (x y z : RequirementResult)
    (Htie : Priority x = Priority y) (Hdiff : Candidate x <> Candidate y) (Hwins : Priority z < Priority x) :
  select_directive (Priority x) (Candidate x) [y; z] = Err ErrConflict /\
  select_directive (Priority x) (Candidate x) [z; y] = Ok (Candidate z) /\
  select_directive (Priority z) (Candidate z) [x; y] = Ok (Candidate z).
Proof.
  cbn [select_directive]. rewrite Htie, Z.ltb_irrefl, Z.eqb_refl, bool_decide_eq_false_2 by done. cbn.
  rewrite Htie in Hwins.
  rewrite (proj2 (Z.ltb_lt _ _) Hwins), !(proj2 (Z.ltb_ge (Priority y) (Priority z))) by lia.
  by rewrite (proj2 (Z.eqb_neq _ _)) by lia.
Qed.

Lemma compact_references_keeps rs : forall previous r, r ∈ rs ->
  previous = Some (json_reference r) \/
  exists r', r' ∈ compact_references json_reference previous rs /\ json_reference r' = json_reference r.
Proof.
  induction rs as [|x rs IH]; intros previous r [->|Hr]%elem_of_cons || set_solver; cbn [compact_references];
    destruct (bool_decide (previous = Some (json_reference x))) eqn:Hb; bprop.
  - by left.
  - right. exists x. split; [apply elem_of_cons; by left | done].
  - by apply IH.
  - right. destruct (IH (Some (json_reference x)) r Hr) as [[= He] | (r' & Hr' & He)].
    + exists x. split; [apply elem_of_cons; by left | done].
    + exists r'. split; [apply elem_of_cons; by right | done].
Qed.

Lemma canonical_context_references c c' r :
  canonicalDecisionContext json_mapping json_reference json_size profile_digest (Some c) = Ok (Some c') ->
  r ∈ References c -> reference_valid r = true /\
  exists r', r' ∈ References c' /\ json_reference r' = json_reference (canonical_reference r).
Proof.
  unfold canonicalDecisionContext. intros Hc Hr. go_inv Hc. cbn [References]. split.
  - bprop. rewrite forallb_forall in Hg1. by apply Hg1, list_elem_of_In.
  - destruct (compact_references_keeps (sort_by json_reference (map canonical_reference (References c))) None
      (canonical_reference r)) as [? | ?]; [|done | done].
    rewrite elem_of_sort_by. by apply list_elem_of_fmap_2.
Qed.

(** A snapshot binds its provenance.  With a decision context, the context
    stored in the snapshot names, with the same encoding, every reference of
    the input, the pinned policy and evaluator, and every fact with the
    identifiers it came from. *)
Theorem snapshot_binds_provenance (input : SnapshotInput) (s : Snapshot) (c : DecisionContext)
    (Hcontext : SI_Context input = Some c) (Hs : new_snapshot input = Ok s) :
  exists c0 c', canonicalDecisionContext json_mapping json_reference json_size profile_digest (Some c) = Ok (Some c0) /\
    SI_Context (canonical_input s) = Some c' /\
    let named r := reference_valid r = true /\
      exists r', r' ∈ References c' /\ json_reference r' = json_reference (canonical_reference r) in
    (forall r, r ∈ References c0 -> named r) /\
    named (mk_reference "policy" (PR_ID (SI_Policy input)) (decimal (Revision (SI_Policy input))) (PR_Digest (SI_Policy input)) []) /\
    named (mk_reference "evaluator" (E_Digest (SI_Evaluator input))
      (decimal (Major (SI_Evaluator input)) +:+ "." +:+ decimal (Minor (SI_Evaluator input))) (E_Digest (SI_Evaluator input)) []) /\
    forall f, f ∈ SI_Facts input -> named (mk_reference "fact" (Key f) "" "" (fact_parents f)).
Proof.
  unfold NewSnapshot in Hs. go_inv Hs. unfold bindSnapshotContext in Hv. rewrite Hcontext in Hv. go_inv Hv.
  destruct v1 as [c0|]; [|unfold canonicalDecisionContext in Hv1; go_inv Hv1; done].
  destruct v as [c'|]; [|unfold canonicalDecisionContext in Hv; go_inv Hv; done].
  destruct (duplicate_facts _ _); [done|]. destruct (snapshot_sha _); [|done]. injection Hs as <-.
  exists c0, c'. split_and!; [done | done|]. cbn zeta.
  pose proof (fun r => canonical_context_references _ _ r Hv) as Hrefs. cbn [References] in Hrefs.
  setoid_rewrite elem_of_app in Hrefs.
  split; [intros r Hr | split; [|split; [|intros f Hf]]]; apply Hrefs;
    [by left | right; apply elem_of_app; left; apply elem_of_cons; by left
    | right; apply elem_of_app; left; apply elem_of_cons; right; by apply list_elem_of_singleton |].
  right. apply elem_of_app. right. apply list_elem_of_In, in_concat. exists (fact_references f). split.
  - apply in_map. by apply list_elem_of_In.
  - unfold fact_references. apply in_app_iff. right. by left.
Qed.

Lemma import_sources_spec sources : forall seen,
  (forall s, s ∈ import_sources seen sources -> s ∈ sources /\ Reference s ∉ seen) /\
  (forall s, s ∈ sources -> Reference s ∈ seen \/ Reference s ∈ map Reference (import_sources seen sources)).
Proof.
  induction sources as [|x sources IH]; intros seen; cbn [import_sources]; [split; set_solver|].
  unfold contains. destruct (bool_decide (Reference x ∈ seen)) eqn:Hx; bprop.
  - destruct (IH seen) as [Hin Hall]. split; [set_solver|]. intros s [->|Hs]%elem_of_cons; [by left | by apply Hall].
  - destruct (IH (seen ++ [Reference x])) as [Hin Hall]. split.
    + intros s [->|Hs]%elem_of_cons; [set_solver|]. apply Hin in Hs as [? Hs]. set_solver.
    + intros s [->|Hs]%elem_of_cons; cbn [map]; [right; set_solver|]. destruct (Hall s Hs) as [Hseen|?]; [|right; set_solver].
      apply elem_of_app in Hseen as [?|Hx']; [by left | apply list_elem_of_singleton in Hx' as ->; right; set_solver].
Qed.

(** Recapture never replaces evidence.  Merging the context of an accepted
    recapture into its parent's requires the same requested profile and keeps
    it, keeps exactly one source per reference, takes every source of the
    parent, takes a source of the child only under a reference the parent does
    not have, and names every reference of both. *)
Theorem recapture_never_replaces (parent : Snapshot) (child : Decision) (cp co c : DecisionContext)
    (Hparent : Context json_mapping json_reference json_size profile_digest parent = Some cp)
    (Hchild : Context json_mapping json_reference json_size profile_digest (decision_snapshot child) = Some co)
    (Hmerge : MergeRecaptureContext json_mapping json_reference json_size profile_digest parent child = Ok (Some c)) :
  SameAssuranceRequest parent (decision_snapshot child) = true /\ ProfileDigest c = ProfileDigest cp /\
  NoDup (map Reference (Sources c)) /\
  (forall x, x ∈ map Reference (Sources c) <-> x ∈ map Reference (Sources cp) \/ x ∈ map Reference (Sources co)) /\
  (forall s', s' ∈ Sources c -> exists s, canonical_source s = Ok s' /\
     (s ∈ Sources cp \/ s ∈ Sources co /\ Reference s ∉ map Reference (Sources cp))) /\
  (forall r, r ∈ References cp \/ r ∈ References co ->
     exists r', r' ∈ References c /\ json_reference r' = json_reference (canonical_reference r)).
Proof.
  unfold MergeRecaptureContext in Hmerge. rewrite Hparent, Hchild in Hmerge. go_inv Hmerge. bprop.
  pose proof (fun r => canonical_context_references _ _ r Hmerge) as Hrefs.
  destruct (import_sources_spec (Sources co) (map Reference (Sources cp))) as [Hin Hall].
  unfold canonicalDecisionContext in Hmerge. go_inv Hmerge. cbn [ProfileDigest Sources References] in *. bprop.
  apply no_dupb_NoDup in Hg3 as Hn. apply rmap_Ok in Hv0.
  set (imported := import_sources _ _) in *.
  assert (Hrefeq : map Reference v0 = map Reference (Sources cp ++ imported)).
  { clear -Hv0. induction Hv0 as [|s s' l l' Hs _ IH]; cbn; [done|]. apply canonical_source_Ok in Hs as ->. by rewrite IH. }
  split_and!; [done | done | done | | |].
  - intros x. rewrite sort_by_perm, Hrefeq, map_app, elem_of_app. split; (intros [Hx|Hx]; [by left|]).
    + right. apply list_elem_of_fmap in Hx as (s & -> & Hs). apply Hin in Hs as [Hs _]. by apply list_elem_of_fmap_2.
    + apply list_elem_of_fmap in Hx as (s & -> & Hs). by apply Hall.
  - intros s' Hs'. rewrite elem_of_sort_by in Hs'. apply list_elem_of_lookup in Hs' as [i Hi].
    destruct (Forall2_lookup_r _ _ _ _ _ Hv0 Hi) as (s & Hs & Hcan). exists s. split; [done|].
    apply list_elem_of_lookup_2, elem_of_app in Hs as [Hs|Hs]; [by left | right; by apply Hin].
  - intros r Hr. apply Hrefs. rewrite !elem_of_app. tauto.
Qed.

Lemma validate_state_facts_Ok seen n facts at_ :
  validate_state_facts seen n facts at_ = Ok () <->
  Forall (fun f => is_ok (validateFact f at_) = true /\ Key f ∉ seen) facts /\ NoDup (map Key facts) /\
  (facts = [] \/ n + total_reasons facts <= MaximumSnapshotReasons).
Proof.
  revert seen n. induction facts as [|f facts IH]; intros seen n; cbn [validate_state_facts].
  - split; [intros _; split_and!; [constructor | constructor | by left] | done].
  - pose proof (total_reasons_nonneg facts) as Hnn. cbn [total_reasons foldr map]. fold (total_reasons facts).
    unfold contains. rewrite rbind_Ok, Forall_cons, NoDup_cons. split.
    + intros (o & Ho & Hr). go_inv Hr. apply IH in Hr as (Hall & Hn & Hsum). bprop. rewrite Ho. split_and!; try done.
      * eapply Forall_impl; [exact Hall|]. intros x (Hx & Hseen). split; [done | set_solver].
      * rewrite list_elem_of_fmap. intros (x & Hk & Hx). rewrite Forall_forall in Hall. apply Hall in Hx as [_ Hx]. set_solver.
      * right. destruct Hsum as [->|]; cbn; lia.
    + intros ([[Ho Hs] Hall] & [Hf Hn] & Hsum). destruct (validateFact f at_) as [o|] eqn:Hfo; [|done]. exists o.
      split; [done|]. destruct Hsum as [|Hsum]; [done|].
      rewrite bool_decide_eq_false_2, (proj2 (Z.ltb_ge _ _)) by (done || lia). apply IH. split_and!; [|done | right; lia].
      rewrite Forall_forall in Hall |- *. intros x Hx. destruct (Hall x Hx) as [Hok Hxs]. split; [done|].
      rewrite not_elem_of_app, list_elem_of_singleton. split; [done|]. intros He. apply Hf. rewrite <- He. by apply list_elem_of_fmap_2.
Qed.

(** Authoritative input is pinned and checked.  Loading succeeds exactly for
    a complete state of distinct current facts within the bounds whose policy
    revision, pinned if it has a pin and active otherwise, belongs to the named
    policy; it passes on that revision, the facts and the context unchanged. *)
Theorem loaded_input_is_pinned (scope verificationID : string) (t : Time) (state : AuthoritativeState)
    (active : string -> option PolicyReference) (out : AuthorInput) :
  LoadPolicyInput scope verificationID t (Some state) active = Ok out <->
  (scope <> "" /\ verificationID <> "")%string /\ validUTC t = true /\
  (AS_PolicyID state <> "" /\ AS_AuthorityID state <> "" /\ AS_AcknowledgementID state <> "")%string /\
  validToken (AS_Region state) 64 = true /\ 0 < llen (AS_Facts state) <= MaximumFacts /\
  Forall (fun f => is_ok (validateFact f t) = true) (AS_Facts state) /\ NoDup (map Key (AS_Facts state)) /\
  total_reasons (AS_Facts state) <= MaximumSnapshotReasons /\
  exists reference, PR_ID reference = AS_PolicyID state /\
    match PinnedPolicy state with
    | Some pinned => reference = pinned /\ policy_reference_valid pinned = true
    | None => active (AS_PolicyID state) = Some reference
    end /\
    out = mk_author_input (AS_AuthorityID state) (AS_AcknowledgementID state) (AS_Region state) reference
            (AS_Facts state) (AS_Context state).
Proof.
  unfold LoadPolicyInput. rewrite reject_Ok. unfold empty_string. rewrite !orb_false_iff, !String.eqb_neq, negb_false_iff.
  assert (Hval : validateAuthoritativeState state t = Ok () <->
    (AS_PolicyID state <> "" /\ AS_AuthorityID state <> "" /\ AS_AcknowledgementID state <> "")%string /\
    validToken (AS_Region state) 64 = true /\ 0 < llen (AS_Facts state) <= MaximumFacts /\
    Forall (fun f => is_ok (validateFact f t) = true) (AS_Facts state) /\ NoDup (map Key (AS_Facts state)) /\
    total_reasons (AS_Facts state) <= MaximumSnapshotReasons).
  { unfold validateAuthoritativeState. rewrite reject_Ok, validate_state_facts_Ok. unfold empty_string.
    rewrite !orb_false_iff, !String.eqb_neq, negb_false_iff, Z.eqb_neq, Z.ltb_ge.
    assert (Hf : Forall (fun f => is_ok (validateFact f t) = true /\ Key f ∉ []) (AS_Facts state) <->
                 Forall (fun f => is_ok (validateFact f t) = true) (AS_Facts state)).
    { apply Forall_proper; [|done]. intros f. set_solver. }
    rewrite Hf. assert (0 <= llen (AS_Facts state)) by (unfold llen; lia).
    assert (AS_Facts state = [] -> llen (AS_Facts state) = 0) by (by intros ->).
    intuition lia. }
  destruct (validateAuthoritativeState state t) as [[]|] eqn:Hv.
  2: { split; [intros (_ & [=]) | intros (_ & _ & H1 & H2 & H3 & H4 & H5 & H6 & _)].
       exfalso. enough (Err e = Ok ()) by done. apply Hval. split_and!; tauto. }
  rewrite rbind_Ok. split.
  - intros (((Hs & Hi) & Ht) & reference & Href & [= <-]). destruct (proj1 Hval eq_refl) as (H1 & H2 & H3 & H4 & H5 & H6).
    split_and!; try tauto. exists reference. destruct (PinnedPolicy state) as [pinned|].
    + destruct (_ || _) eqn:Hc; [done|]. injection Href as <-. by bprop.
    + destruct (active _); [|done]. destruct (negb _) eqn:Hc; [done|]. injection Href as <-. by bprop.
  - intros (Hne & Ht & _ & _ & _ & _ & _ & _ & reference & Hid & Hp & ->). split; [tauto|]. exists reference. split; [|done].
    destruct (PinnedPolicy state) as [pinned|].
    + destruct Hp as [-> ->]. by rewrite Hid, String.eqb_refl.
    + by rewrite Hp, Hid, String.eqb_refl.
Qed.
End PolicySpec.
End PolicySpec.

(** ** Witnesses: a verification of two facts, with and without provenance *)
Module PolicyWitness.
Definition hex64 : string := AssuranceSpec.hex64.
Definition t0 : Time := AssuranceSpec.t0.
Definition t1 : Time := add t0 hour.

Definition authority_fact (key : string) : Fact :=
  mk_fact key RequirementSatisfied
    (mk_fact_source None FactSourceProcessingAuthority None (Some "aut_1"%string) None None None) t0 None [].
Definition check_fact (key : string) : Fact :=
  mk_fact key RequirementSatisfied
    (mk_fact_source None FactSourceCheck
       (Some (mk_check_source "chk_1" 1 "att_1" ["obs_2"; "obs_1"]%string hex64 hex64)) None None None None)
    t0 (Some (add t1 hour)) ["check.passed"%string].

Definition fact_list : list Fact := [check_fact "document.genuine"; authority_fact "authority.valid"].
Definition policy : PolicyReference := mk_policy_reference "pol_1" 3 1 0 hex64.
Definition sample_input (c : option DecisionContext) : SnapshotInput :=
  mk_snapshot_input c "tnt_1" "ver_1" "aut_1" "ack_1" "eu-west" policy (mk_evaluator 1 0 hex64) t1 fact_list.

Definition json_mapping (m : AssuranceMapping) : string := Capability m.
Definition json_reference (r : DecisionReference) : string := R_Kind r +:+ ":" +:+ R_ID r.
Definition json_size (c : DecisionContext) : option Z := Some (100 * llen (References c)).
Definition json_fact (f : Fact) : option string := Some (Key f).
Definition sha {A : Type} (x : A) : string := hex64.

Definition take (c : option DecisionContext) : result Error Snapshot :=
  NewSnapshot json_mapping json_reference json_size sha json_fact (fun i => Some (sha i)) (sample_input c).
Definition resolve_ (s : Snapshot) (rs : list RequirementResult) (a : string) : result Error Evaluation :=
  Resolve json_mapping json_reference json_size sha json_fact (fun i => Some (sha i)) sha s rs a.

Definition snapshot : Snapshot := match take None with Ok s => s | Err _ => mk_snapshot (sample_input None) "" end.
Lemma snapshot_taken : take None = Ok snapshot.
Proof. vm_compute. reflexivity. Qed.

(** The context of [Assurance.v]: its profile needs two independent sources. *)
Definition context_snapshot : Snapshot :=
  match take (Some AssuranceSpec.sample_context) with Ok s => s | Err _ => mk_snapshot (sample_input None) "" end.
Lemma context_snapshot_taken : take (Some AssuranceSpec.sample_context) = Ok context_snapshot.
Proof. vm_compute. reflexivity. Qed.

Definition satisfied_result (name : string) (d : Directive) (p : Z) : RequirementResult :=
  mk_result name RequirementSatisfied ["document.genuine"; "authority.valid"]%string d p ["check.passed"%string].
Definition result_list : list RequirementResult :=
  [satisfied_result "b.document" DirectiveRunCheck 20; satisfied_result "a.authority" DirectiveCompleteVerified 10].
Definition evaluation : Evaluation :=
  match resolve_ snapshot result_list "basic" with
  | Ok e => e
  | Err _ => mk_evaluation (mk_canonical_evaluation "" [] [] DirectiveFailWorkflow no_outcome "" []) ""
  end.
Lemma evaluated : resolve_ snapshot result_list "basic" = Ok evaluation.
Proof. vm_compute. reflexivity. Qed.

(** With the profile, the label of the profile is the assurance. *)
Example evaluated_with_profile :
  match resolve_ context_snapshot result_list "" with
  | Ok e => (selected (meaning e), outcome (meaning e), assurance (meaning e))
  | Err _ => (DirectiveFailWorkflow, no_outcome, ""%string)
  end = (DirectiveCompleteVerified, OutcomeVerified, "basic.v1"%string).
Proof. vm_compute. reflexivity. Qed.

Lemma resolve_order_independent_witness :
  resolve_ snapshot (rev result_list) "basic" = Ok evaluation.
Proof.
  rewrite <- evaluated. symmetry.
  exact (PolicySpec.resolve_order_independent json_mapping json_reference json_size sha json_fact (fun i => Some (sha i)) sha
    snapshot result_list (rev result_list) "basic" (perm_swap _ _ [])).
Defined.

Lemma resolve_selects_lowest_priority_witness :
  exists r, r ∈ results (meaning evaluation) /\ forall x, x ∈ results (meaning evaluation) -> Priority r <= Priority x.
Proof.
  destruct (PolicySpec.resolve_selects_lowest_priority json_mapping json_reference json_size sha json_fact
    (fun i => Some (sha i)) sha snapshot result_list "basic" evaluation evaluated) as (r & ach & Hr & _ & Hmin & _).
  exists r. split; [exact Hr|]. intros x Hx. exact (proj1 (Hmin x Hx)).
Defined.

Lemma conclusions_are_sound_witness :
  outcome (meaning evaluation) = OutcomeVerified /\
  Forall (fun r => RR_State r = RequirementSatisfied) (results (meaning evaluation)).
Proof.
  split; [vm_compute; reflexivity|].
  refine (proj1 (proj1 (PolicySpec.conclusions_are_sound json_mapping json_reference json_size sha json_fact
    (fun i => Some (sha i)) sha snapshot result_list "basic" evaluation evaluated) _)).
  vm_compute. reflexivity.
Defined.

Definition decision_input : DecisionInput := mk_decision_input "dec_1" snapshot evaluation ActorHuman "" (add t1 minute).


Lemma snapshot_canonical_witness :
  NewSnapshot json_mapping json_reference json_size sha json_fact (fun i => Some (sha i))
    (PolicySpec.with_facts (sample_input None) (rev fact_list)) = Ok snapshot /\
  map Key (SI_Facts (canonical_input snapshot)) = ["authority.valid"; "document.genuine"]%string.
Proof.
  split; [|vm_compute; reflexivity].
  refine (proj1 (PolicySpec.snapshot_canonical json_mapping json_reference json_size sha json_fact (fun i => Some (sha i))
    (sample_input None) snapshot (rev fact_list) eq_refl snapshot_taken (perm_swap _ _ []) _)).
  vm_compute. reflexivity.
Defined.

(** Two orders of names, one meaning: a conflict and a verified completion. *)
Lemma superseded_tie_depends_on_names_witness :
  resolve_ snapshot [satisfied_result "a" DirectiveRunCheck 20; satisfied_result "b" DirectiveRetryCheck 20;
                     satisfied_result "c" DirectiveCompleteVerified 10] "basic" = Err ErrConflict /\
  is_ok (resolve_ snapshot [satisfied_result "b" DirectiveRunCheck 20; satisfied_result "c" DirectiveRetryCheck 20;
                            satisfied_result "a" DirectiveCompleteVerified 10] "basic") = true /\
  select_directive 20 DirectiveRunCheck
    [satisfied_result "b" DirectiveRetryCheck 20; satisfied_result "c" DirectiveCompleteVerified 10] = Err ErrConflict.
Proof.
  split; [vm_compute; reflexivity|]. split; [vm_compute; reflexivity|].
  refine (proj1 (PolicySpec.superseded_tie_depends_on_names (satisfied_result "a" DirectiveRunCheck 20)
    (satisfied_result "b" DirectiveRetryCheck 20) (satisfied_result "c" DirectiveCompleteVerified 10) eq_refl _ _)).
  - discriminate.
  - reflexivity.
Defined.

Lemma snapshot_binds_provenance_witness :
  exists c', SI_Context (canonical_input context_snapshot) = Some c' /\
    exists r', r' ∈ References c' /\ json_reference r' = "fact:document.genuine"%string.
Proof.
  destruct (PolicySpec.snapshot_binds_provenance json_mapping json_reference json_size sha json_fact (fun i => Some (sha i))
    (sample_input (Some AssuranceSpec.sample_context)) context_snapshot AssuranceSpec.sample_context eq_refl
    context_snapshot_taken) as (c0 & c' & _ & Hc' & _ & _ & _ & Hfacts).
  exists c'. split; [exact Hc'|].
  destruct (Hfacts (check_fact "document.genuine")) as [_ (r' & Hr' & He)]; [apply elem_of_cons; by left|].
  exists r'. split; [exact Hr' | exact He].
Defined.

(** A recapture that brings [obs_5] and repeats [obs_1]. *)
Definition child_context : DecisionContext :=
  mk_context 1 [] (Some AssuranceSpec.sample_profile) hex64
    [AssuranceSpec.sample_source "obs_5" ["evd_5"]; AssuranceSpec.sample_source "obs_1" ["evd_9"]]%string.
Definition child_snapshot : Snapshot :=
  match take (Some child_context) with Ok s => s | Err _ => mk_snapshot (sample_input None) "" end.
Definition child : Decision := mk_decision "dec_2" child_snapshot evaluation ActorHuman "" t1 hex64.

Lemma recapture_never_replaces_witness :
  exists c, MergeRecaptureContext json_mapping json_reference json_size sha context_snapshot child = Ok (Some c) /\
    "obs_5"%string ∈ map Reference (Sources c) /\
    map Roots (Sources c) = [["evd_1"]; ["evd_1"; "evd_2"]; ["evd_3"]; ["evd_2"]; ["evd_5"]]%string.
Proof.
  assert (Hm : exists c cp co, Context json_mapping json_reference json_size sha context_snapshot = Some cp /\
    Context json_mapping json_reference json_size sha child_snapshot = Some co /\
    MergeRecaptureContext json_mapping json_reference json_size sha context_snapshot child = Ok (Some c) /\
    contains (map Reference (Sources co)) "obs_5" = true /\
    map Roots (Sources c) = [["evd_1"]; ["evd_1"; "evd_2"]; ["evd_3"]; ["evd_2"]; ["evd_5"]]%string)
    by (eexists _, _, _; split_and!; vm_compute; reflexivity).
  destruct Hm as (c & cp & co & Hp & Hc & Hm & H5 & Hroots). exists c. split; [exact Hm|]. split; [|exact Hroots].
  destruct (PolicySpec.recapture_never_replaces json_mapping json_reference json_size sha context_snapshot child cp co c
    Hp Hc Hm) as (_ & _ & _ & Hrefs & _).
  apply Hrefs. right. exact (proj1 (bool_decide_eq_true _) H5).
Defined.
End PolicyWitness.
