(* ===== verification/CaptureOutcome.v ===== *)
(** * The subject-safe outcome of a verification

    [internal/verification/capture_outcome.go]: the projection of the workflow
    state and of the decision's outcome to the one state a subject may see.  It
    is where the lifecycle ([Lifecycle.v]) meets the policy ([Policy.v]).

    The repository is one answer per call, an argument of [Find]; the
    authenticated context is the pair of its tenant and its verification. *)

From S2P Require Import Prelude GoTime Lifecycle Assurance Policy.

Inductive CaptureOutcomeState :=
| CaptureOutcomeCaptureRequired | CaptureOutcomeProcessing | CaptureOutcomeActionRequired
| CaptureOutcomeVerified | CaptureOutcomeNotVerified | CaptureOutcomeInconclusive
| CaptureOutcomeCancelled | CaptureOutcomeExpired | CaptureOutcomeFailed.
#[export] Instance CaptureOutcomeState_eq_dec : EqDecision CaptureOutcomeState. Proof. solve_decision. Defined.

Record CaptureOutcomeRecord := mk_record {
  CR_VerificationID : string;
  CR_SessionState : SessionState;
  CR_SessionVersion : Z;
  CR_UpdatedAt : Time;
  DecisionOutcome : Outcome;
}.

Record CaptureOutcome := mk_outcome {
  CO_VerificationID : string;
  CO_State : CaptureOutcomeState;
  CO_SessionVersion : Z;
  CO_UpdatedAt : Time;
}.

Definition captureOutcomeState (state : SessionState) (outcome : Outcome) : result Lifecycle.Error CaptureOutcomeState :=
  let undecided answer := if bool_decide (outcome = no_outcome) then Ok answer else Err ErrSessionConflict in
  match state with
  | SessionStateCreated | SessionStateCollecting => undecided CaptureOutcomeCaptureRequired
  | SessionStateAwaitingInput => undecided CaptureOutcomeActionRequired
  | SessionStateProcessing | SessionStateAwaitingExternal | SessionStateManualReview => undecided CaptureOutcomeProcessing
  | SessionStateCompleted =>
      match outcome with
      | OutcomeVerified => Ok CaptureOutcomeVerified
      | OutcomeNotVerified => Ok CaptureOutcomeNotVerified
      | OutcomeInconclusive => Ok CaptureOutcomeInconclusive
      | OutcomeOther _ => Err ErrSessionConflict
      end
  | SessionStateCancelled => undecided CaptureOutcomeCancelled
  | SessionStateExpired => undecided CaptureOutcomeExpired
  | SessionStateFailed => undecided CaptureOutcomeFailed
  | SessionStateOther _ => Err ErrSessionConflict
  end.

Definition projectCaptureOutcome (record : CaptureOutcomeRecord) : result Lifecycle.Error CaptureOutcome :=
  reject empty_string (CR_VerificationID record) || negb (Valid (CR_SessionState record)) ||
         (CR_SessionVersion record <? 1) || negb (utc_non_zero (CR_UpdatedAt record)) with ErrSessionConflict ;;
  let? state := captureOutcomeState (CR_SessionState record) (DecisionOutcome record) in
  Ok (mk_outcome (CR_VerificationID record) state (CR_SessionVersion record) (CR_UpdatedAt record)).

Definition Find (FindCaptureOutcome : string -> string -> result Lifecycle.Error CaptureOutcomeRecord)
    (authority : string * string) : result Lifecycle.Error CaptureOutcome :=
  let? record := FindCaptureOutcome authority.1 authority.2 in
  reject negb (String.eqb (CR_VerificationID record) authority.2) with ErrSessionNotFound ;;
  projectCaptureOutcome record.

(** The three conclusions as the subject sees them. *)
Definition shown (o : Outcome) : option CaptureOutcomeState :=
  match o with
  | OutcomeVerified => Some CaptureOutcomeVerified
  | OutcomeNotVerified => Some CaptureOutcomeNotVerified
  | OutcomeInconclusive => Some CaptureOutcomeInconclusive
  | OutcomeOther _ => None
  end.

Definition conclusive (s : CaptureOutcomeState) : bool :=
  match s with CaptureOutcomeVerified | CaptureOutcomeNotVerified | CaptureOutcomeInconclusive => true | _ => false end.
Definition ended (s : CaptureOutcomeState) : bool :=
  conclusive s || match s with CaptureOutcomeCancelled | CaptureOutcomeExpired | CaptureOutcomeFailed => true | _ => false end.

(** ** Properties *)
Module CaptureOutcomeSpec.
(** The subject is shown the truth and nothing else.  The projection exists
    exactly for a well-formed record whose decision outcome is one of the three
    conclusions when the session is completed and absent otherwise; it shows a
    conclusion exactly when the session is completed, and then the conclusion
    of the decision; it shows an end exactly when the session is terminal; it
    copies the identity, version and time of the record. *)
Theorem projection_faithful (record : CaptureOutcomeRecord) :
  let well_formed := CR_VerificationID record <> ""%string /\ Valid (CR_SessionState record) = true /\
    1 <= CR_SessionVersion record /\ utc_non_zero (CR_UpdatedAt record) = true /\
    if bool_decide (CR_SessionState record = SessionStateCompleted) then is_some (shown (DecisionOutcome record)) = true
    else DecisionOutcome record = no_outcome in
  match projectCaptureOutcome record with
  | Ok o => well_formed /\ CO_VerificationID o = CR_VerificationID record /\
      CO_SessionVersion o = CR_SessionVersion record /\ CO_UpdatedAt o = CR_UpdatedAt record /\
      ended (CO_State o) = Terminal (CR_SessionState record) /\
      (conclusive (CO_State o) = true <-> CR_SessionState record = SessionStateCompleted) /\
      (conclusive (CO_State o) = true -> shown (DecisionOutcome record) = Some (CO_State o))
  | Err e => ~ well_formed /\ e = ErrSessionConflict
  end.
Proof.
  intros well_formed. unfold projectCaptureOutcome. destruct (_ || _) eqn:Hg.
  - split; [|done]. intros (Hid & Hv & Hn & Ht & _). unfold empty_string in Hg.
    apply String.eqb_neq in Hid. rewrite Hid, Hv, Ht, (proj2 (Z.ltb_ge _ _)) in Hg by lia. done.
  - rewrite !orb_false_iff, !negb_false_iff in Hg. destruct Hg as (((Hid & Hv) & Hn) & Ht).
    unfold empty_string in Hid. apply String.eqb_neq in Hid. apply Z.ltb_ge in Hn. subst well_formed.
    destruct (CR_SessionState record) eqn:Hs; try discriminate Hv; cbn [captureOutcomeState];
      [.. | destruct (DecisionOutcome record) eqn:Ho | | |];
      try match goal with |- context [bool_decide (DecisionOutcome record = no_outcome)] =>
        destruct (decide (DecisionOutcome record = no_outcome)) as [Ho|Ho];
        [rewrite !(bool_decide_eq_true_2 _ Ho) | rewrite (bool_decide_eq_false_2 _ Ho)] end;
      rewrite ?(bool_decide_eq_true_2 (SessionStateCompleted = SessionStateCompleted) eq_refl), ?bool_decide_eq_false_2 by done;
      cbn [rbind CO_VerificationID CO_State CO_SessionVersion CO_UpdatedAt].
    all: first [split; [by intros (_ & _ & _ & _ & Hx) | done] | split_and!; try done].
Qed.

Lemma project_completed record o :
  projectCaptureOutcome record = Ok o -> CR_SessionState record = SessionStateCompleted ->
  captureOutcomeState SessionStateCompleted (DecisionOutcome record) = Ok (CO_State o).
Proof. unfold projectCaptureOutcome. intros Ho Hs. rewrite Hs in Ho. go_inv Ho. exact Hv. Qed.

Section Earned.
Variable json_mapping : AssuranceMapping -> string.
Variable json_reference : DecisionReference -> string.
Variable json_size : DecisionContext -> option Z.
Variable profile_digest : AssuranceProfile -> string.
Variable json_fact : Fact -> option string.
Variable snapshot_sha : SnapshotInput -> option string.
Variable evaluation_sha : CanonicalEvaluation -> string.

End Earned.

Definition sample_record : CaptureOutcomeRecord :=
  mk_record "ver_1" SessionStateCompleted 4 (add PolicyWitness.t1 hour) OutcomeVerified.
End CaptureOutcomeSpec.
