(* ===== verification/Review.v ===== *)
(** * Manual review, correction and appeal

    [internal/review/case.go]: the review case with its claim, findings and
    correction, and the appeal with its independent resolver.
    [internal/review/evaluation.go]: the fact a resolved case contributes and
    the policy snapshot it enters.

    Identifiers are their printed text, empty for Go's zero value.  The SHA-256
    of a JSON text is a section variable over the encoded struct; [None] is an
    encoding error. *)

From S2P Require Import Prelude GoTime Assurance Policy.
From Stdlib Require Import Ascii.

(** ** Vocabulary *)

Inductive Error := ErrInvalid | ErrConflict | ErrForbidden | ErrEncode | ErrPolicy (e : Assurance.Error).
#[export] Instance Error_eq_dec : EqDecision Error. Proof. solve_decision. Defined.

Inductive Permission := PermissionClaim | PermissionFind | PermissionResolve | PermissionAppeal | PermissionOther (label : string).
#[export] Instance Permission_eq_dec : EqDecision Permission. Proof. solve_decision. Defined.

Record Principal := mk_principal { PrincipalID : string; Permissions : list Permission; Certifications : list string }.

Definition permits (principal : Principal) (permission : Permission) : bool :=
  negb (empty_string (PrincipalID principal)) && bool_decide (permission ∈ Permissions principal).

Inductive CaseState := CaseOpen | CaseClaimed | CaseAwaitingSecond | CaseResolved | CaseEscalated | CaseOther (label : string).
#[export] Instance CaseState_eq_dec : EqDecision CaseState. Proof. solve_decision. Defined.

Inductive Oversight := OversightSingle | OversightDual | OversightOther (label : string).
#[export] Instance Oversight_eq_dec : EqDecision Oversight. Proof. solve_decision. Defined.

Inductive Resolution := ResolutionSatisfy | ResolutionNotSatisfy | ResolutionRequestInput | ResolutionOther (label : string).
#[export] Instance Resolution_eq_dec : EqDecision Resolution. Proof. solve_decision. Defined.

Record EvidenceGrant := mk_grant {
  GrantID : string; G_ReviewerID : string; G_Region : string; G_ExpiresAt : Time; RevokedAt : Time }.

Record Finding := mk_finding {
  FindingID : string;
  ReviewerID : string;
  FindingResolution : Resolution;
  ReasonCode : string;
  GrantIDs : list string;
  RecordedAt : Time;
}.

Record PermittedFinding := mk_permitted { PF_Resolution : Resolution; PF_ReasonCode : string }.
#[export] Instance PermittedFinding_eq_dec : EqDecision PermittedFinding. Proof. solve_decision. Defined.

Record Case := mk_case {
  CaseID : string;
  CaseVerificationID : string;
  ChallengedDecision : string;
  RoutingRequest : string;
  SupersedesDecision : string;
  Region : string;
  RequiredCertificate : string;
  CaseOversight : Oversight;
  State : CaseState;
  AssignedReviewer : string;
  Findings : list Finding;
  PermittedFindings : list PermittedFinding;
  Version : Z;
  CreatedAt : Time;
  UpdatedAt : Time;
}.

(** A case with another state, assignment, findings, version and time. *)
Definition advance (c : Case) (state : CaseState) (assigned : string) (findings : list Finding)
    (supersedes : string) (updated : Time) : Case :=
  mk_case (CaseID c) (CaseVerificationID c) (ChallengedDecision c) (RoutingRequest c) supersedes (Region c)
    (RequiredCertificate c) (CaseOversight c) state assigned findings (PermittedFindings c)
    (wrap_int64 (Version c + 1)) (CreatedAt c) updated.

(** ** Guards *)

Definition validResolution (value : Resolution) : bool := match value with ResolutionOther _ => false | _ => true end.
Definition bounded (value : string) (maximum : Z) : bool := (0 <? slen value) && (slen value <=? maximum).

Definition findingReasonPattern (s : string) : bool :=
  match_head_tail is_lower (fun c => is_lower c || is_digit c || byte_of "._:-" c) s && (slen s <=? 128).

Fixpoint validate_rules (seen rules : list PermittedFinding) : bool :=
  match rules with
  | [] => true
  | rule :: rest =>
      validResolution (PF_Resolution rule) && findingReasonPattern (PF_ReasonCode rule) &&
      negb (bool_decide (rule ∈ seen)) && validate_rules (seen ++ [rule]) rest
  end.

(** [ValidateFindingRules(rules) == nil]. *)
Definition ValidateFindingRules (rules : list PermittedFinding) : bool := (llen rules <=? 64) && validate_rules [] rules.

Definition ValidTime (t : Time) : bool := utc_non_zero t && (nanosecond t mod microsecond =? 0).

(** [review.Validate() == nil]. *)
Definition Validate (review : Case) : bool :=
  ValidateFindingRules (PermittedFindings review) &&
  negb (empty_string (CaseID review) || empty_string (CaseVerificationID review) ||
        Bool.eqb (empty_string (ChallengedDecision review)) (empty_string (RoutingRequest review)) ||
        negb (bounded (Region review) 64) || negb (bounded (RequiredCertificate review) 128) ||
        (negb (bool_decide (CaseOversight review = OversightSingle)) && negb (bool_decide (CaseOversight review = OversightDual))) ||
        (Version review <? 1) || is_zero (CreatedAt review) || negb (in_utc (CreatedAt review)) ||
        before (UpdatedAt review) (CreatedAt review) || negb (in_utc (UpdatedAt review))).

(** ** The case *)

Definition NewCase (identifier verification challenged region certificate : string) (oversight : Oversight) (now : Time)
  : result Error Case :=
  let c := mk_case identifier verification challenged "" "" region certificate oversight CaseOpen "" [] [] 1 now now in
  reject negb (Validate c) with ErrInvalid ;; Ok c.

Definition NewRoutedCase (identifier verification request region certificate : string) (oversight : Oversight) (now : Time)
  : result Error Case :=
  let c := mk_case identifier verification "" request "" region certificate oversight CaseOpen "" [] [] 1 now now in
  reject negb (Validate c) with ErrInvalid ;; Ok c.

Definition Claim (review : Case) (principal : Principal) (expectedVersion : Z) (now : Time) : result Error Case :=
  reject negb (Validate review) || negb (expectedVersion =? Version review) ||
         negb (bool_decide (State review = CaseOpen)) || before now (UpdatedAt review) || negb (in_utc now) with ErrConflict ;;
  reject negb (permits principal PermissionClaim) ||
         negb (contains (Certifications principal) (RequiredCertificate review)) with ErrForbidden ;;
  Ok (advance review CaseClaimed (PrincipalID principal) (Findings review) (SupersedesDecision review) now).

(** A grant covers a grant identifier of the finding. *)
Definition covers (review : Case) (principal : Principal) (finding : Finding) (grantID : string) (grant : EvidenceGrant) : bool :=
  String.eqb (GrantID grant) grantID && String.eqb (G_ReviewerID grant) (PrincipalID principal) &&
  String.eqb (G_Region grant) (Region review) && after (G_ExpiresAt grant) (RecordedAt finding) && is_zero (RevokedAt grant).

Definition permitted (review : Case) (finding : Finding) : bool :=
  bool_decide (mk_permitted (FindingResolution finding) (ReasonCode finding) ∈ PermittedFindings review).

Definition SubmitFinding (review : Case) (principal : Principal) (finding : Finding) (grants : list EvidenceGrant)
    (expectedVersion : Z) : result Error Case :=
  reject negb (Validate review) || negb (expectedVersion =? Version review) ||
         (negb (bool_decide (State review = CaseClaimed)) && negb (bool_decide (State review = CaseAwaitingSecond)))
    with ErrConflict ;;
  reject negb (contains (Certifications principal) (RequiredCertificate review)) || negb (permits principal PermissionFind) ||
         negb (String.eqb (PrincipalID principal) (ReviewerID finding)) || empty_string (FindingID finding) ||
         negb (validResolution (FindingResolution finding)) || negb (bounded (ReasonCode finding) 128) ||
         before (RecordedAt finding) (UpdatedAt review) || negb (in_utc (RecordedAt finding)) ||
         (llen (GrantIDs finding) =? 0) with ErrForbidden ;;
  reject negb (empty_string (RoutingRequest review)) &&
         (negb (ValidTime (RecordedAt finding)) || negb (permitted review finding)) with ErrForbidden ;;
  reject bool_decide (State review = CaseClaimed) && negb (String.eqb (PrincipalID principal) (AssignedReviewer review))
    with ErrForbidden ;;
  reject bool_decide (State review = CaseAwaitingSecond) &&
         (negb (llen (Findings review) =? 1) ||
          match Findings review with
          | f :: _ => String.eqb (PrincipalID principal) (ReviewerID f)
          | [] => false
          end) with ErrForbidden ;;
  reject negb (forallb (fun grantID => existsb (covers review principal finding grantID) grants) (GrantIDs finding))
    with ErrForbidden ;;
  let findings := Findings review ++ [finding] in
  let dual := bool_decide (CaseOversight review = OversightDual) in
  let '(state, assigned) :=
    if dual && (llen findings =? 1) then (CaseAwaitingSecond, ""%string)
    else if dual && match findings with
                    | f :: _ => negb (bool_decide (FindingResolution f = FindingResolution finding))
                    | [] => false
                    end then (CaseEscalated, AssignedReviewer review)
    else (CaseResolved, AssignedReviewer review) in
  Ok (advance review state assigned findings (SupersedesDecision review) (RecordedAt finding)).

Definition AuthorCorrection (review : Case) (principal : Principal) (superseding : string) (expectedVersion : Z) (now : Time)
  : result Error Case :=
  reject negb (Validate review) || empty_string (ChallengedDecision review) || negb (bool_decide (State review = CaseResolved)) ||
         negb (expectedVersion =? Version review) || empty_string superseding ||
         String.eqb superseding (ChallengedDecision review) || before now (UpdatedAt review) || negb (in_utc now)
    with ErrConflict ;;
  reject negb (permits principal PermissionResolve) ||
         existsb (fun f => String.eqb (ReviewerID f) (PrincipalID principal)) (Findings review) with ErrForbidden ;;
  Ok (advance review (State review) (AssignedReviewer review) (Findings review) superseding now).

(** ** The appeal *)

Inductive AppealState := AppealRequested | AppealIndependentReview | AppealResolved | AppealAwaitingInput | AppealStateOther (label : string).
#[export] Instance AppealState_eq_dec : EqDecision AppealState. Proof. solve_decision. Defined.
(** [AppealOutcomeOther ""] is the zero value. *)
Inductive AppealOutcome := AppealUpheld | AppealOverturned | AppealMoreInput | AppealOutcomeOther (label : string).
#[export] Instance AppealOutcome_eq_dec : EqDecision AppealOutcome. Proof. solve_decision. Defined.

Record Appeal := mk_appeal {
  AppealID : string;
  A_CaseID : string;
  A_ChallengedDecision : string;
  OriginalReviewers : list string;
  A_AssignedReviewer : string;
  A_State : AppealState;
  A_Outcome : AppealOutcome;
  A_ReasonCode : string;
  SupersedingDecision : string;
  Deadline : Time;
  A_Version : Z;
}.

Definition Assign (appeal : Appeal) (principal : Principal) (expectedVersion : Z) (now : Time) : result Error Appeal :=
  reject empty_string (AppealID appeal) || empty_string (A_CaseID appeal) || empty_string (A_ChallengedDecision appeal) ||
         negb (bool_decide (A_State appeal = AppealRequested)) || negb (A_Version appeal =? expectedVersion) ||
         negb (before now (Deadline appeal)) with ErrConflict ;;
  reject negb (permits principal PermissionAppeal) || contains (OriginalReviewers appeal) (PrincipalID principal) with ErrForbidden ;;
  Ok (mk_appeal (AppealID appeal) (A_CaseID appeal) (A_ChallengedDecision appeal) (OriginalReviewers appeal)
        (PrincipalID principal) AppealIndependentReview (A_Outcome appeal) (A_ReasonCode appeal)
        (SupersedingDecision appeal) (Deadline appeal) (wrap_int64 (A_Version appeal + 1))).

Definition Resolve (appeal : Appeal) (principal : Principal) (outcome : AppealOutcome) (reasonCode superseding : string)
    (expectedVersion : Z) (now : Time) : result Error Appeal :=
  reject empty_string (AppealID appeal) || empty_string (A_CaseID appeal) || empty_string (A_ChallengedDecision appeal) ||
         (negb (bool_decide (A_State appeal = AppealIndependentReview)) && negb (bool_decide (A_State appeal = AppealAwaitingInput))) ||
         negb (A_Version appeal =? expectedVersion) || is_zero now || negb (in_utc now) || negb (before now (Deadline appeal))
    with ErrConflict ;;
  reject negb (permits principal PermissionAppeal) || negb (String.eqb (PrincipalID principal) (A_AssignedReviewer appeal)) ||
         contains (OriginalReviewers appeal) (PrincipalID principal) || negb (bounded reasonCode 128) ||
         match outcome with AppealOutcomeOther _ => true | _ => false end ||
         xorb (bool_decide (outcome = AppealOverturned)) (negb (empty_string superseding)) ||
         String.eqb superseding (A_ChallengedDecision appeal) with ErrForbidden ;;
  let state := if bool_decide (outcome = AppealMoreInput) then AppealAwaitingInput else AppealResolved in
  Ok (mk_appeal (AppealID appeal) (A_CaseID appeal) (A_ChallengedDecision appeal) (OriginalReviewers appeal)
        (A_AssignedReviewer appeal) state outcome reasonCode superseding (Deadline appeal)
        (wrap_int64 (A_Version appeal + 1))).

(** ** [evaluation.go] *)

Record FindingReference := mk_finding_reference {
  FR_ID : string; FR_ReviewerID : string; FR_Resolution : Resolution; FR_Reason : string; FR_Grants : list string; FR_At : Time }.

Definition finding_reference (f : Finding) : FindingReference :=
  mk_finding_reference (FindingID f) (ReviewerID f) (FindingResolution f) (ReasonCode f) (sort_strings (GrantIDs f)) (RecordedAt f).

Definition resolution_state (resolution : Resolution) : RequirementState :=
  match resolution with
  | ResolutionSatisfy => RequirementSatisfied
  | ResolutionNotSatisfy => RequirementNotSatisfied
  | _ => RequirementInconclusive
  end.

Section Evaluation.
(** SHA-256 of the JSON of the case's identifier, version and findings; of a
    string; and the section variables of [Policy.v]. *)
Variable case_sha : string * Z * list FindingReference -> option string.
Variable sha_text : string -> string.
Variable json_mapping : AssuranceMapping -> string.
Variable json_reference : DecisionReference -> string.
Variable json_size : DecisionContext -> option Z.
Variable profile_digest : AssuranceProfile -> string.
Variable json_fact : Fact -> option string.
Variable snapshot_sha : SnapshotInput -> option string.

Definition BuiltinAssuranceDigest (kind : string) : string := sha_text ("idenqa.assurance." +:+ kind +:+ ".v1").

(** The loop over the findings: independent reviewers, one resolution, all
    permitted; it collects the reason codes. *)
Fixpoint accepted_findings (review : Case) (resolution : Resolution) (reviewers : list string) (findings : list Finding)
  : result Error (list string) :=
  match findings with
  | [] => Ok []
  | f :: rest =>
      reject contains reviewers (ReviewerID f) || negb (bool_decide (FindingResolution f = resolution)) ||
             negb (permitted review f) with ErrForbidden ;;
      let? reasons := accepted_findings review resolution (reviewers ++ [ReviewerID f]) rest in
      Ok (ReasonCode f :: reasons)
  end.

Definition AcceptedFact (value : Case) : result Error (Fact * string) :=
  reject negb (Validate value) || empty_string (RoutingRequest value) || negb (bool_decide (State value = CaseResolved)) ||
         (llen (Findings value) =? 0) with ErrConflict ;;
  let required := if bool_decide (CaseOversight value = OversightDual) then 2 else 1 in
  reject negb (llen (Findings value) =? required) with ErrConflict ;;
  match Findings value with
  | [] => Err ErrConflict
  | first :: _ =>
      let resolution := FindingResolution first in
      let? reasons := accepted_findings value resolution [] (Findings value) in
      let references := sort_by FR_ID (map finding_reference (Findings value)) in
      match case_sha (CaseID value, Version value, references) with
      | None => Err ErrEncode
      | Some d =>
          match NewFactKey "review.resolution" with
          | Err e => Err (ErrPolicy e)
          | Ok key =>
              Ok (mk_fact key (resolution_state resolution)
                    (mk_fact_source None FactSourceReviewFinding None None None (Some ("review:" +:+ d)) None)
                    (UpdatedAt value) None (compact (sort_strings reasons)), d)
          end
      end
  end.

Definition finding_context_reference (value : Case) (d : string) (f : Finding) : DecisionReference :=
  mk_reference "review_finding" (FindingID f) "" d [CaseID value; ReviewerID f].
Definition finding_source (state : RequirementState) (f : Finding) : AssuranceSource :=
  mk_source None [] (FindingID f) "review.resolution" state "review" "idenqa.review" (BuiltinAssuranceDigest "review")
    (BuiltinAssuranceDigest "review") "" (RecordedAt f) ["reviewer." +:+ BuiltinAssuranceDigest (ReviewerID f)] false.

(** [routing] is its request's decision and its snapshot. *)
Definition Snapshot (value : Case) (routing : string * Policy.Snapshot) : result Error (Policy.Snapshot * string) :=
  let? (fact, d) := AcceptedFact value in
  let original := routing.2 in
  let input := canonical_input original in
  reject negb (String.eqb (RoutingRequest value) routing.1) ||
         negb (String.eqb (CaseVerificationID value) (SI_VerificationID input)) ||
         before (UpdatedAt value) (SI_EvaluatedAt input) || negb (nanosecond (UpdatedAt value) mod 1000 =? 0) with ErrInvalid ;;
  reject existsb (fun prior => String.eqb (Key prior) (Key fact)) (SI_Facts input) with ErrInvalid ;;
  let complete :=
    match Context json_mapping json_reference json_size profile_digest original with
    | None => None
    | Some c =>
        Some (mk_context (C_Version c) (References c ++ map (finding_context_reference value d) (Findings value))
                (C_Profile c) (ProfileDigest c) (Sources c ++ map (finding_source (F_State fact)) (Findings value)))
    end in
  match NewSnapshot json_mapping json_reference json_size profile_digest json_fact snapshot_sha
          (mk_snapshot_input complete (SI_TenantID input) (SI_VerificationID input) (SI_AuthorityID input)
             (SI_AcknowledgementID input) (SI_Region input) (SI_Policy input) (SI_Evaluator input) (UpdatedAt value)
             (SI_Facts input ++ [fact])) with
  | Ok s => Ok (s, d)
  | Err e => Err (ErrPolicy e)
  end.
End Evaluation.

(** ** Reachable cases *)

Inductive review_step : Case -> Case -> Prop :=
| step_claim c p v t c' : Claim c p v t = Ok c' -> review_step c c'
| step_finding c p f gs v c' : SubmitFinding c p f gs v = Ok c' -> review_step c c'
| step_correction c p d v t c' : AuthorCorrection c p d v t = Ok c' -> review_step c c'.

(** A case as it is opened: new, with the findings its policy permits. *)
Definition with_permitted (c : Case) (rules : list PermittedFinding) : Case :=
  mk_case (CaseID c) (CaseVerificationID c) (ChallengedDecision c) (RoutingRequest c) (SupersedesDecision c) (Region c)
    (RequiredCertificate c) (CaseOversight c) (State c) (AssignedReviewer c) (Findings c) rules (Version c)
    (CreatedAt c) (UpdatedAt c).
Inductive opened : Case -> Prop :=
| opened_case i v d r cert o now c rules :
    NewCase i v d r cert o now = Ok c -> ValidateFindingRules rules = true -> opened (with_permitted c rules)
| opened_routed i v d r cert o now c rules :
    NewRoutedCase i v d r cert o now = Ok c -> ValidateFindingRules rules = true -> opened (with_permitted c rules).

(** The findings a state admits. *)
Definition state_ok (c : Case) : Prop :=
  match State c with
  | CaseOpen => Findings c = [] /\ AssignedReviewer c = ""%string
  | CaseClaimed => Findings c = [] /\ AssignedReviewer c <> ""%string
  | CaseAwaitingSecond => CaseOversight c = OversightDual /\ exists f, Findings c = [f]
  | CaseResolved =>
      (CaseOversight c = OversightSingle /\ exists f, Findings c = [f]) \/
      (CaseOversight c = OversightDual /\ exists f g, Findings c = [f; g] /\ ReviewerID f <> ReviewerID g /\
         FindingResolution f = FindingResolution g)
  | CaseEscalated =>
      CaseOversight c = OversightDual /\ exists f g, Findings c = [f; g] /\ ReviewerID f <> ReviewerID g /\
        FindingResolution f <> FindingResolution g
  | CaseOther _ => False
  end.

Definition finding_ok (c : Case) (f : Finding) : Prop :=
  ReviewerID f <> ""%string /\ FindingID f <> ""%string /\ validResolution (FindingResolution f) = true /\
  GrantIDs f <> [] /\
  (RoutingRequest c <> ""%string -> permitted c f = true /\ ValidTime (RecordedAt f) = true).

Record consistent (c : Case) : Prop := {
  co_valid : Validate c = true;
  co_state : state_ok c;
  co_findings : Forall (finding_ok c) (Findings c);
  co_updated : forall f, RoutingRequest c <> ""%string -> last (Findings c) = Some f -> UpdatedAt c = RecordedAt f;
}.

(** What no operation changes. *)
Definition terms (c : Case) :=
  (CaseID c, CaseVerificationID c, (ChallengedDecision c, RoutingRequest c), (Region c, RequiredCertificate c),
   CaseOversight c, PermittedFindings c, CreatedAt c).

Record progress (c c' : Case) : Prop := {
  pr_terms : terms c' = terms c;
  pr_findings : Findings c `prefix_of` Findings c';
  pr_time : before (UpdatedAt c') (UpdatedAt c) = false;
  pr_escalated : State c = CaseEscalated -> c' = c;
  pr_resolved : State c = CaseResolved -> State c' = CaseResolved /\ Findings c' = Findings c;
}.

#[export] Instance progress_preorder : PreOrder progress.
Proof.
  split.
  - intros c. constructor; try done. apply before_false. lia.
  - intros c d e [T F B E R] [T' F' B' E' R']. constructor.
    + congruence.
    + by etrans.
    + apply before_false in B, B'. apply before_false. lia.
    + intros He. specialize (E He). subst d. by apply E'.
    + intros Hr. destruct (R Hr) as [Hd Hf]. destruct (R' Hd) as [? ?]. split; [done | congruence].
Qed.

Lemma Validate_advance c state assigned findings supersedes updated :
  Validate c = true -> Version c < max_int64 -> before updated (UpdatedAt c) = false -> in_utc updated = true ->
  Validate (advance c state assigned findings supersedes updated) = true /\
  Version (advance c state assigned findings supersedes updated) = Version c + 1.
Proof.
  intros Hv Hmax Hb Hu. unfold Validate in *. unfold advance.
  cbn [CaseID CaseVerificationID ChallengedDecision RoutingRequest Region RequiredCertificate CaseOversight PermittedFindings
    Version CreatedAt UpdatedAt].
  apply andb_true_iff in Hv as [Hrules Hv].
  rewrite negb_true_iff, !orb_false_iff in Hv. destruct Hv as ((((((((((H1 & H2) & H3) & H4) & H5) & H6) & H7) & H8) & H9) & H10) & H11).
  apply Z.ltb_ge in H7. rewrite wrap_int64_id by (unfold min_int64, max_int64 in *; lia). split; [|done].
  rewrite Hrules, H1, H2, H3, H4, H5, H6, H8, H9, Hu, (proj2 (Z.ltb_ge _ _)) by lia.
  apply before_false in Hb, H10. by rewrite (proj2 (before_false _ _)) by lia.
Qed.

Lemma permits_named p q : permits p q = true -> PrincipalID p <> ""%string.
Proof. unfold permits, empty_string. intros Hp. bprop. done. Qed.

Lemma finding_ok_advance c state assigned findings supersedes updated f :
  finding_ok (advance c state assigned findings supersedes updated) f <-> finding_ok c f.
Proof. done. Qed.

Lemma Claim_step c p v t c' :
  consistent c -> Version c < max_int64 -> Claim c p v t = Ok c' ->
  consistent c' /\ progress c c' /\ Version c' = Version c + 1.
Proof.
  intros [Hv Hs Hf _] Hmax Hc. unfold Claim in Hc. go_inv Hc. rewrite !orb_false_iff, !negb_false_iff in Hg. rewrite !orb_false_iff, !negb_false_iff in Hg0.
  destruct Hg as ((((_ & _) & Hst) & Hb) & Hu), Hg0 as (Hp & _). bprop. unfold state_ok in Hs. rewrite Hst in Hs.
  destruct Hs as [Hnil _].
  destruct (Validate_advance c CaseClaimed (PrincipalID p) (Findings c) (SupersedesDecision c) t) as [Hv' Hn]; try done.
  split_and!; [constructor | constructor | done]; try done; cbn; rewrite ?Hnil; try done; try congruence.
  split; [done | by eapply permits_named].
Qed.

Lemma AuthorCorrection_step c p d v t c' :
  consistent c -> Version c < max_int64 -> AuthorCorrection c p d v t = Ok c' ->
  consistent c' /\ progress c c' /\ Version c' = Version c + 1.
Proof.
  intros [Hv Hs Hf _] Hmax Hc. unfold AuthorCorrection in Hc. go_inv Hc.
  rewrite !orb_false_iff, !negb_false_iff in Hg. destruct Hg as (((((((_ & Hch) & Hst) & _) & _) & _) & Hb) & Hu). bprop.
  destruct (Validate_advance c (State c) (AssignedReviewer c) (Findings c) d t) as [Hv' Hn]; try done.
  assert (Hrouted : RoutingRequest c = ""%string).
  { unfold Validate in Hv. apply andb_true_iff in Hv as [_ Hv]. rewrite negb_true_iff, !orb_false_iff in Hv.
    destruct Hv as ((((((((((_ & _) & Hx) & _) & _) & _) & _) & _) & _) & _) & _). rewrite Hch in Hx.
    unfold empty_string in Hx. by destruct (String.eqb_spec (RoutingRequest c) ""). }
  split_and!; [constructor | constructor | done]; try done; cbn; try congruence.
Qed.

(** A submitted finding and the state it leads to. *)
Lemma SubmitFinding_Ok c p f gs v c' :
  SubmitFinding c p f gs v = Ok c' ->
  (State c = CaseClaimed \/ State c = CaseAwaitingSecond) /\
  before (RecordedAt f) (UpdatedAt c) = false /\ in_utc (RecordedAt f) = true /\ finding_ok c f /\
  (State c = CaseClaimed -> ReviewerID f = AssignedReviewer c) /\
  (State c = CaseAwaitingSecond -> exists g, Findings c = [g] /\ ReviewerID f <> ReviewerID g) /\
  forallb (fun g => existsb (covers c p f g) gs) (GrantIDs f) = true /\
  exists state assigned, c' = advance c state assigned (Findings c ++ [f]) (SupersedesDecision c) (RecordedAt f) /\
    ((state = CaseAwaitingSecond /\ CaseOversight c = OversightDual /\ Findings c = []) \/
     (state = CaseEscalated /\ CaseOversight c = OversightDual /\
      exists g rest, Findings c = g :: rest /\ FindingResolution g <> FindingResolution f) \/
     (state = CaseResolved /\
      (CaseOversight c = OversightDual ->
       exists g rest, Findings c = g :: rest /\ FindingResolution g = FindingResolution f))).
Proof.
  unfold SubmitFinding. intros Hs. go_inv Hs. rewrite !orb_false_iff in Hg. rewrite !orb_false_iff in Hg0.
  destruct Hg as [[_ _] Hst]. destruct Hg0 as ((((((((Hcert & Hp) & Hid) & Hfid) & Hres) & Hb) & Hbefore) & Hutc) & Hgr).
  rewrite negb_false_iff in *. apply String.eqb_eq in Hid.
  split_and!; [apply andb_false_iff in Hst as [Hst|Hst]; bprop; tauto | done | done | | | | done |].
  - split_and!; [rewrite <- Hid; by eapply permits_named | by apply String.eqb_neq | done | | ].
    + intros Hnil. by rewrite Hnil in Hgr.
    + intros Hr. apply empty_string_neq in Hr. rewrite Hr in Hg1. cbn in Hg1. rewrite orb_false_iff, !negb_false_iff in Hg1. tauto.
  - intros Hc. rewrite Hc in Hg2. rewrite bool_decide_eq_true_2 in Hg2 by done. cbn in Hg2. bprop. congruence.
  - intros Hc. rewrite Hc in Hg3. rewrite bool_decide_eq_true_2 in Hg3 by done. cbn [andb] in Hg3.
    rewrite orb_false_iff, negb_false_iff, Z.eqb_eq in Hg3. destruct Hg3 as [Hl Hne]. unfold llen in Hl.
    destruct (Findings c) as [|g [|? ?]]; cbn in Hl; [lia | | lia]. exists g. split; [done|].
    apply String.eqb_neq in Hne. congruence.
  - destruct (bool_decide (CaseOversight c = OversightDual)) eqn:Hd; cbn [andb] in Hs.
    + bprop. destruct (llen (Findings c ++ [f]) =? 1) eqn:Hl.
      * go_inv Hs. eexists _, _. split; [reflexivity|]. left. split_and!; try done.
        rewrite llen_app in Hl. unfold llen in Hl. cbn in Hl. destruct (Findings c); [done | cbn in Hl; bprop; lia].
      * destruct (Findings c) as [|g rest] eqn:Hfs; [done|]. cbn [app] in Hs.
        destruct (bool_decide (FindingResolution g = FindingResolution f)) eqn:Hsame; cbn [negb] in Hs; go_inv Hs; bprop;
          (eexists _, _; split; [reflexivity|]); [right; right | right; left]; eauto 10.
    + go_inv Hs. bprop. eexists _, _. split; [reflexivity|]. right. right. done.
Qed.

Lemma SubmitFinding_step c p f gs v c' :
  consistent c -> Version c < max_int64 -> SubmitFinding c p f gs v = Ok c' ->
  consistent c' /\ progress c c' /\ Version c' = Version c + 1.
Proof.
  intros [Hv Hs Hf _] Hmax Hsub.
  destruct (SubmitFinding_Ok _ _ _ _ _ _ Hsub) as (Hst & Hb & Hu & Hok & Hclaimed & Hsecond & _ & state & assigned & -> & Hnext).
  destruct (Validate_advance c state assigned (Findings c ++ [f]) (SupersedesDecision c) (RecordedAt f)) as [Hv' Hn]; try done.
  assert (Hov : CaseOversight c = OversightSingle \/ CaseOversight c = OversightDual).
  { unfold Validate in Hv. apply andb_true_iff in Hv as [_ Hv]. rewrite negb_true_iff, !orb_false_iff in Hv.
    destruct Hv as ((((((_ & Ho) & _) & _) & _) & _) & _). apply andb_false_iff in Ho. rewrite !negb_false_iff in Ho.
    by rewrite !bool_decide_eq_true in Ho. }
  split_and!; [constructor | constructor | done]; try done.
  - unfold state_ok in Hs |- *. cbn [advance State Findings CaseOversight AssignedReviewer]. destruct Hst as [Hst|Hst]; rewrite Hst in Hs.
    + destruct Hs as [Hnil _]. rewrite Hnil in *. cbn [app].
      destruct Hnext as [(-> & Hd & _) | [(_ & _ & g & rest & ? & _) | (-> & Hd)]]; [by eauto | done |].
      left. destruct Hov as [Hov|Hov]; [by eauto|]. by destruct (Hd Hov) as (? & ? & ? & _).
    + destruct Hs as [Hd (g & Hg)]. destruct (Hsecond Hst) as (g' & Hg' & Hne). rewrite Hg in *. injection Hg' as <-. cbn [app].
      destruct Hnext as [(_ & _ & ?) | [(-> & _ & g' & rest & [= <- <-] & ?) | (-> & Hsame)]]; [done | |].
      * split; [done|]. exists g, f. split_and!; congruence.
      * right. split; [done|]. exists g, f. destruct (Hsame Hd) as (g' & rest & [= <- <-] & ?). split_and!; congruence.
  - apply Forall_app. split; [done|]. by constructor.
  - intros g _. cbn. rewrite last_snoc. by intros [= ->].
  - by apply prefix_app_r.
  - intros He. destruct Hst; congruence.
  - intros Hr. destruct Hst; congruence.
Qed.

Lemma review_step_ok c c' :
  consistent c -> Version c < max_int64 -> review_step c c' -> consistent c' /\ progress c c' /\ Version c' = Version c + 1.
Proof. intros Hc Hv Hs. destruct Hs; eauto using Claim_step, SubmitFinding_step, AuthorCorrection_step. Qed.

Lemma review_steps_ok n c c' :
  consistent c -> Version c + Z.of_nat n <= max_int64 -> nsteps review_step n c c' ->
  consistent c' /\ progress c c' /\ Version c' = Version c + Z.of_nat n.
Proof.
  intros Hc Hn Hsteps. revert Hc Hn. induction Hsteps as [c | n c d e Hstep _ IH]; intros Hc Hn.
  - split_and!; [done | done | lia].
  - destruct (review_step_ok c d Hc) as (Hd & Hp & Hv); [lia | done|].
    destruct (IH Hd) as (He & Hp' & Hv'); [lia|]. split_and!; [done | by etrans | lia].
Qed.

Lemma opened_consistent c : opened c -> consistent c /\ State c = CaseOpen /\ Version c = 1.
Proof.
  intros [i v d r cert o now c0 rules Hn Hr | i v d r cert o now c0 rules Hn Hr]; unfold NewCase, NewRoutedCase in Hn;
    go_inv Hn; apply negb_false_iff in Hg; unfold Validate in Hg; apply andb_true_iff in Hg as [_ Hg];
    (split_and!; [constructor; try done; apply andb_true_iff; split; [exact Hr | exact Hg] | done | done]).
Qed.

(** ** The accepted fact *)

Lemma validate_rules_reason rule : forall rules seen,
  validate_rules seen rules = true -> rule ∈ rules ->
  validResolution (PF_Resolution rule) = true /\ findingReasonPattern (PF_ReasonCode rule) = true.
Proof.
  induction rules as [|r rules IH]; intros seen Hv Hin; [set_solver|]. cbn [validate_rules] in Hv.
  apply andb_true_iff in Hv as [Hv Hrest]. apply andb_true_iff in Hv as [Hv _]. apply andb_true_iff in Hv as [Hr Hp].
  apply elem_of_cons in Hin as [->|Hin]; [done | by eapply IH].
Qed.

Lemma permitted_reason c f :
  Validate c = true -> permitted c f = true ->
  validResolution (FindingResolution f) = true /\ findingReasonPattern (ReasonCode f) = true.
Proof.
  intros Hv Hp. unfold Validate, ValidateFindingRules in Hv. apply andb_true_iff in Hv as [Hv _].
  apply andb_true_iff in Hv as [_ Hv]. unfold permitted in Hp. bprop. by apply (validate_rules_reason _ _ _ Hv Hp).
Qed.

(** The reason patterns of the two packages differ in the length alone. *)
Lemma reason_token s : findingReasonPattern s = true -> validToken s 100 = (slen s <=? 100).
Proof.
  unfold findingReasonPattern, validToken, tokenPattern, token_rest. intros Hp. apply andb_true_iff in Hp as [Hp _].
  rewrite Hp, andb_true_r. destruct s as [|a s]; [done|]. unfold slen. cbn [String.length]. by rewrite (proj2 (Z.ltb_lt _ _)) by lia.
Qed.

Lemma accepted_findings_Ok c resolution : forall findings reviewers,
  Forall (fun f => FindingResolution f = resolution /\ permitted c f = true /\ ReviewerID f ∉ reviewers) findings ->
  NoDup (map ReviewerID findings) ->
  accepted_findings c resolution reviewers findings = Ok (map ReasonCode findings).
Proof.
  induction findings as [|f findings IH]; intros reviewers Hall Hn; [done|]. cbn [accepted_findings map].
  apply Forall_cons in Hall as [(Hr & Hp & Hnew) Hall]. cbn in Hn. apply NoDup_cons in Hn as [Hf Hn].
  unfold contains. rewrite bool_decide_eq_false_2, bool_decide_eq_true_2, Hp by done. cbn [orb negb].
  rewrite IH; [done | | done]. rewrite Forall_forall in Hall |- *. intros g Hg. destruct (Hall g Hg) as (? & ? & ?).
  split_and!; [done | done |]. rewrite not_elem_of_app, list_elem_of_singleton. split; [done|]. intros He. apply Hf.
  rewrite <- He. by apply list_elem_of_fmap_2.
Qed.

(** A resolved case: as many findings as required, independent and agreeing. *)
Lemma resolved_findings c :
  consistent c -> State c = CaseResolved -> RoutingRequest c <> ""%string ->
  exists first rest, Findings c = first :: rest /\ llen (Findings c) = (if bool_decide (CaseOversight c = OversightDual) then 2 else 1) /\
    Forall (fun f => FindingResolution f = FindingResolution first /\ permitted c f = true) (Findings c) /\
    NoDup (map ReviewerID (Findings c)) /\ ValidTime (UpdatedAt c) = true /\ llen (Findings c) <= 2.
Proof.
  intros [_ Hs Hf Hu] Hr Hrouted. unfold state_ok in Hs. rewrite Hr in Hs.
  assert (Ht : forall f, last (Findings c) = Some f -> ValidTime (UpdatedAt c) = true).
  { intros f Hl. rewrite (Hu f Hrouted Hl). rewrite Forall_forall in Hf. apply last_Some_elem_of, Hf in Hl as (_ & _ & _ & _ & Hp). by apply Hp. }
  assert (Hp : Forall (fun f => permitted c f = true) (Findings c)).
  { eapply Forall_impl; [exact Hf|]. intros f (_ & _ & _ & _ & Hp). by apply Hp. }
  destruct Hs as [[Hov (f & Heq)] | [Hov (f & g & Heq & Hne & Hsame)]]; rewrite Heq in *.
  - exists f, []. rewrite Hov. split_and!; try done.
    + repeat constructor. by apply Forall_cons in Hp as [? _].
    + repeat constructor. set_solver.
    + by eapply Ht.
  - exists f, [g]. rewrite Hov. apply Forall_cons in Hp as [Hpf Hpg]. apply Forall_cons in Hpg as [Hpg _]. split_and!; try done.
    + repeat constructor; done.
    + repeat constructor; set_solver.
    + by eapply Ht.
Qed.

Lemma review_reference_token d : validDigest d = true -> validToken ("review:" +:+ d) 128 = true.
Proof.
  unfold validDigest, is_hex_digest. intros Hd. apply andb_true_iff in Hd as [Hl Hd]. apply Z.eqb_eq in Hl.
  unfold validToken. rewrite slen_app, Hl. change (slen "review:") with 7. cbn [Z.add Z.ltb Z.leb Z.compare andb].
  change ("review:" +:+ d) with (String "r" ("eview:" +:+ d)). unfold tokenPattern. cbn [match_head_tail].
  rewrite string_forall_app. change (string_forall token_rest "eview:") with true.
  change (is_lower "r") with true. cbn [andb]. revert Hd. apply string_forall_impl. intros x Hx. unfold token_rest.
  apply orb_true_iff in Hx as [Hx|Hx]; [by rewrite Hx, orb_true_r|].
  assert (is_lower x = true) as ->; [|done]. unfold is_lower, byte_in in *. apply andb_true_iff in Hx as [H1 H2].
  apply N.leb_le in H1, H2. apply andb_true_iff. split; apply N.leb_le; [exact H1|].
  etrans; [exact H2 | by vm_compute].
Qed.

(** Policy's view of the fact of a review. *)
Lemma review_fact_accepted findings resolution d t :
  utc_non_zero t = true -> validDigest d = true -> llen findings <= 2 ->
  Forall (fun g => findingReasonPattern (ReasonCode g) = true) findings ->
  is_ok (validateFact (mk_fact "review.resolution" (resolution_state resolution)
    (mk_fact_source None FactSourceReviewFinding None None None (Some ("review:" +:+ d)) None) t None
    (compact (sort_strings (map ReasonCode findings)))) t) = true <->
  forall g, g ∈ findings -> slen (ReasonCode g) <= 100.
Proof.
  intros Ht Hd Hl Hp. unfold validateFact. cbn [Key F_State ObservedAt F_ExpiresAt F_ReasonCodes Source].
  assert (Hg : negb (is_ok (NewFactKey "review.resolution")) || negb (validRequirementState (resolution_state resolution)) ||
    negb (validUTC t) || after t t || (MaximumReasonsPerItem <? llen (compact (sort_strings (map ReasonCode findings)))) = false).
  { unfold validUTC. rewrite Ht. assert (after t t = false) as -> by (by apply after_false).
    rewrite (proj2 (Z.ltb_ge _ _)); [by destruct resolution|].
    pose proof (compact_length (sort_strings (map ReasonCode findings))) as Hc. rewrite llen_sort_strings in Hc.
    unfold llen, MaximumReasonsPerItem in *. rewrite length_map in Hc. lia. }
  rewrite Hg. cbn iota.
  assert (Hsrc : validateSource (mk_fact_source None FactSourceReviewFinding None None None (Some ("review:" +:+ d)) None) =
    Ok (mk_fact_source None FactSourceReviewFinding None None None (Some ("review:" +:+ d)) None)).
  { unfold validateSource. cbn. assert (validToken ("review:" +:+ d) 128 = true) as ->; [|done]. by apply review_reference_token. }
  unfold canonicalTokens. rewrite (proj2 (no_dupb_NoDup _)) by (rewrite sort_strings_NoDup; apply compact_NoDup).
  destruct (forallb (fun v => validToken v 100) (compact (sort_strings (map ReasonCode findings)))) eqn:Hf; cbn [negb rbind].
  - rewrite Hsrc. cbn [rbind is_ok]. split; [|done]. intros _ g Hin. rewrite forallb_forall in Hf.
    specialize (Hf (ReasonCode g)). rewrite <- list_elem_of_In, elem_of_compact, elem_of_sort_strings in Hf.
    specialize (Hf (list_elem_of_fmap_2 _ _ _ Hin)). rewrite Forall_forall in Hp. rewrite (reason_token _ (Hp g Hin)) in Hf. by bprop.
  - split; [done|]. intros Hall. exfalso. apply not_true_iff_false in Hf. apply Hf, forallb_forall. intros x Hx.
    apply list_elem_of_In, elem_of_compact, elem_of_sort_strings, list_elem_of_fmap in Hx as (g & -> & Hin).
    rewrite Forall_forall in Hp. rewrite (reason_token _ (Hp g Hin)). apply Z.leb_le. by apply Hall.
Qed.

(** ** Appeals *)

Inductive appeal_step : Appeal -> Appeal -> Prop :=
| step_assign a p v t a' : Assign a p v t = Ok a' -> appeal_step a a'
| step_resolve a p o r s v t a' : Resolve a p o r s v t = Ok a' -> appeal_step a a'.

(** An appeal as it is requested. *)
Definition requested (a : Appeal) : Prop :=
  A_State a = AppealRequested /\ A_AssignedReviewer a = ""%string /\ SupersedingDecision a = ""%string /\ A_Version a = 1.

Definition independent (a : Appeal) : Prop :=
  A_AssignedReviewer a <> ""%string /\ A_AssignedReviewer a ∉ OriginalReviewers a.

Definition appeal_ok (a : Appeal) : Prop :=
  match A_State a with
  | AppealRequested => A_AssignedReviewer a = ""%string /\ SupersedingDecision a = ""%string
  | AppealIndependentReview => independent a /\ SupersedingDecision a = ""%string
  | AppealAwaitingInput => independent a /\ A_Outcome a = AppealMoreInput /\ SupersedingDecision a = ""%string
  | AppealResolved =>
      independent a /\
      ((A_Outcome a = AppealUpheld /\ SupersedingDecision a = ""%string) \/
       (A_Outcome a = AppealOverturned /\ SupersedingDecision a <> ""%string /\ SupersedingDecision a <> A_ChallengedDecision a))
  | AppealStateOther _ => False
  end.

Definition appeal_terms (a : Appeal) :=
  (AppealID a, A_CaseID a, A_ChallengedDecision a, OriginalReviewers a, Deadline a).

Lemma Assign_Ok a p v t a' :
  Assign a p v t = Ok a' ->
  A_State a = AppealRequested /\ A_State a' = AppealIndependentReview /\ independent a' /\
  SupersedingDecision a' = SupersedingDecision a /\ appeal_terms a' = appeal_terms a /\ A_Version a' = wrap_int64 (A_Version a + 1).
Proof.
  unfold Assign. intros Ha. go_inv Ha. rewrite !orb_false_iff, !negb_false_iff in Hg. rewrite !orb_false_iff, !negb_false_iff in Hg0.
  destruct Hg as (((((_ & _) & _) & Hs) & _) & _), Hg0 as [Hp Hi]. unfold contains in Hi. bprop. split_and!; try done.
  split; [by eapply permits_named | done].
Qed.

Lemma Resolve_Ok a p o r s v t a' :
  Resolve a p o r s v t = Ok a' ->
  (A_State a = AppealIndependentReview \/ A_State a = AppealAwaitingInput) /\ independent a' /\
  A_AssignedReviewer a' = A_AssignedReviewer a /\
  ((A_State a' = AppealAwaitingInput /\ A_Outcome a' = AppealMoreInput /\ SupersedingDecision a' = ""%string) \/
   (A_State a' = AppealResolved /\ A_Outcome a' = AppealUpheld /\ SupersedingDecision a' = ""%string) \/
   (A_State a' = AppealResolved /\ A_Outcome a' = AppealOverturned /\ SupersedingDecision a' <> ""%string /\
    SupersedingDecision a' <> A_ChallengedDecision a')) /\
  appeal_terms a' = appeal_terms a /\ A_Version a' = wrap_int64 (A_Version a + 1).
Proof.
  unfold Resolve. intros Ha. go_inv Ha. rewrite !orb_false_iff in Hg. rewrite !orb_false_iff in Hg0.
  destruct Hg as (((((((_ & _) & _) & Hs) & _) & _) & _) & _).
  destruct Hg0 as ((((((Hp & Hid) & Hi) & _) & Ho) & Hx) & Hne). rewrite negb_false_iff in *.
  apply String.eqb_eq in Hid. apply String.eqb_neq in Hne. unfold contains in Hi. apply xorb_eq in Hx. unfold empty_string in Hx.
  split_and!; try done; cbn [A_AssignedReviewer A_State A_Outcome SupersedingDecision A_ChallengedDecision].
  - apply andb_false_iff in Hs. rewrite !negb_false_iff, !bool_decide_eq_true in Hs. exact Hs.
  - unfold independent. cbn. rewrite <- Hid. split; [by eapply permits_named | by bprop].
  - destruct o; try discriminate Ho; cbn in Hx |- *; destruct (String.eqb_spec s ""); try discriminate Hx; subst; [| |]; tauto.
Qed.

(** The operations preserve the meaning of an appeal, and a resolved one is final. *)
Lemma appeal_step_ok a a' :
  appeal_ok a -> appeal_step a a' ->
  appeal_ok a' /\ appeal_terms a' = appeal_terms a /\ A_Version a' = wrap_int64 (A_Version a + 1) /\
  A_State a <> AppealResolved /\
  (A_AssignedReviewer a = ""%string \/ A_AssignedReviewer a' = A_AssignedReviewer a).
Proof.
  intros Hok Hstep. destruct Hstep as [a p v t a' Hs | a p o r s v t a' Hs]; unfold appeal_ok in *.
  - destruct (Assign_Ok _ _ _ _ _ Hs) as (Hst & Hst' & Hi & Hsup & Ht & Hv). rewrite Hst in Hok. rewrite Hst'.
    destruct Hok as [Hnone Hsup0]. split_and!; try done; try congruence. by left.
  - destruct (Resolve_Ok _ _ _ _ _ _ _ _ Hs) as (Hst & Hi & Hsame & Hres & Ht & Hv).
    split_and!; try done; [| destruct Hst; congruence | by right].
    destruct Hres as [(-> & ? & ?) | [(-> & ? & ?) | (-> & ? & ? & ?)]]; tauto.
Qed.

(** ** A review enters a snapshot *)

(** What validation gives does not depend on the instant of evaluation. *)
Lemma validateFact_time_free f t t' o o' : validateFact f t = Ok o -> validateFact f t' = Ok o' -> o = o'.
Proof. unfold validateFact. intros Ho Ho'. go_inv Ho. go_inv Ho'. congruence. Qed.

Lemma validateFact_current f t o :
  validateFact f t = Ok o -> match F_ExpiresAt f with Some e => before t e = true | None => True end.
Proof. unfold validateFact. intros Ho. go_inv Ho. destruct (F_ExpiresAt f); [by bprop | done]. Qed.

(** ** Properties *)
Module ReviewSpec.

(** C22: a review case stays coherent.  A case is opened coherent, at version
    one.  Any number of claims, findings and corrections keeps it so: a resolved
    case has exactly the one finding, or the two agreeing findings of distinct
    reviewers, its oversight asks for, an escalated one two disagreeing findings
    of distinct reviewers, and the findings of a routed case are permitted ones
    at durable times; versions count the operations, findings are only appended,
    time does not go back, the terms of the case never change, an escalated case
    is final and a resolved one keeps its findings. *)
Theorem review_reachable (n : nat) (c c' : Case)
    (Hopen : opened c) (Hsteps : nsteps review_step n c c') (Hn : 1 + Z.of_nat n <= max_int64) :
  consistent c' /\ Version c' = 1 + Z.of_nat n /\ progress c c' /\
  forall m d, nsteps review_step m c' d -> Version c' + Z.of_nat m <= max_int64 -> consistent d /\ progress c' d.
Proof.
  destruct (opened_consistent c Hopen) as (Hc & _ & Hv).
  destruct (review_steps_ok n c c' Hc) as (Hc' & Hp & Hv'); [lia | done|].
  split_and!; [done | lia | done|]. intros m d Hd Hm.
  destruct (review_steps_ok m c' d Hc' Hm Hd) as (? & ? & _). done.
Qed.

Section Facts.
Variable case_sha : string * Z * list FindingReference -> option string.

(** A resolved review contributes its fact.  A routed case that was opened
    and operated on yields no fact before it is resolved.  Resolved, it yields
    one: the reserved key, the state of the agreed resolution, the time of the
    last finding and every reason code.  Policy accepts that fact exactly when no
    reason code is longer than 100 bytes, although findings admit 128. *)
Theorem resolved_review_yields_fact (n : nat) (c0 c : Case)
    (Hopen : opened c0) (Hsteps : nsteps review_step n c0 c) (Hn : 1 + Z.of_nat n <= max_int64)
    (Hrouted : RoutingRequest c <> ""%string)
    (Hsha : forall x, exists d, case_sha x = Some d /\ validDigest d = true) :
  (State c <> CaseResolved -> AcceptedFact case_sha c = Err ErrConflict) /\
  (State c = CaseResolved -> exists f d, AcceptedFact case_sha c = Ok (f, d) /\
     Key f = "review.resolution"%string /\ ObservedAt f = UpdatedAt c /\
     (forall g, g ∈ Findings c -> F_State f = resolution_state (FindingResolution g) /\ ReasonCode g ∈ F_ReasonCodes f) /\
     (is_ok (validateFact f (UpdatedAt c)) = true <-> forall g, g ∈ Findings c -> slen (ReasonCode g) <= 100)).
Proof.
  destruct (opened_consistent c0 Hopen) as (Hc0 & _ & Hv0).
  destruct (review_steps_ok n c0 c Hc0) as (Hc & _ & _); [lia | done|].
  pose proof (empty_string_neq _ Hrouted) as Hr. unfold AcceptedFact. rewrite (co_valid c Hc), Hr. cbn [negb orb]. split.
  - intros Hne. by rewrite (bool_decide_eq_false_2 _ Hne).
  - intros Hres. destruct (resolved_findings c Hc Hres Hrouted) as (first & rest & Heq & Hlen & Hall & Hnd & Hut & Hle).
    rewrite Hres, bool_decide_eq_true_2 by done. cbn [negb orb].
    rewrite (proj2 (Z.eqb_neq _ _)) by (rewrite Heq; unfold llen; cbn; lia). rewrite Hlen, Z.eqb_refl. cbn [negb].
    rewrite Heq. cbn iota. rewrite <- !Heq. assert (Hall' : Forall (fun f => FindingResolution f = FindingResolution first /\ permitted c f = true /\ ReviewerID f ∉ []) (Findings c)).
    { eapply Forall_impl; [exact Hall | intros f [? ?]; split_and!; [done | done | set_solver]]. }
    rewrite (accepted_findings_Ok c (FindingResolution first) (Findings c) [] Hall' Hnd). cbn [rbind].
    destruct (Hsha (CaseID c, Version c, sort_by FR_ID (map finding_reference (Findings c)))) as (d & -> & Hd).
    change (NewFactKey "review.resolution") with (Ok (E := Assurance.Error) "review.resolution"%string). cbn iota.
    eexists _, d. split; [reflexivity|]. cbn [Key ObservedAt F_State F_ReasonCodes]. split_and!; [done | done | |].
    + rewrite Forall_forall in Hall. intros g Hg. destruct (Hall g Hg) as [-> _]. split; [done|].
      rewrite elem_of_compact, elem_of_sort_strings. by apply list_elem_of_fmap_2.
    + assert (Hreasons : forall x, x ∈ compact (sort_strings (map ReasonCode (Findings c))) <-> x ∈ map ReasonCode (Findings c)).
      { intros x. by rewrite elem_of_compact, elem_of_sort_strings. }
      unfold ValidTime in Hut. apply andb_true_iff in Hut as [Hutc _].
      apply (review_fact_accepted (Findings c) (FindingResolution first) d (UpdatedAt c)); try done.
      eapply Forall_impl; [exact Hall|]. intros g [_ Hg]. by apply (permitted_reason c g (co_valid c Hc)) in Hg as [_ ?].
Qed.
End Facts.

Section Snapshots.
Variable case_sha : string * Z * list FindingReference -> option string.
Variable sha_text : string -> string.
Variable json_mapping : AssuranceMapping -> string.
Variable json_reference : DecisionReference -> string.
Variable json_size : DecisionContext -> option Z.
Variable profile_digest : AssuranceProfile -> string.
Variable json_fact : Fact -> option string.
Variable snapshot_sha : SnapshotInput -> option string.
#[local] Notation new_snapshot := (NewSnapshot json_mapping json_reference json_size profile_digest json_fact snapshot_sha).
#[local] Notation review_snapshot :=
  (Snapshot case_sha sha_text json_mapping json_reference json_size profile_digest json_fact snapshot_sha).

(** A review adds one fact and changes nothing else.  The snapshot of a
    resolved case on its routing holds exactly the original facts and the
    accepted fact, all current at the time of the last finding, under the tenant,
    verification, authority, acknowledgement, region, policy revision and
    evaluator of the original, for the case's own verification and request. *)
Theorem review_snapshot_adds_one_fact (c : Case) (request : string) (input : SnapshotInput)
    (original s : Policy.Snapshot) (d : string)
    (Horiginal : new_snapshot input = Ok original) (Hs : review_snapshot c (request, original) = Ok (s, d)) :
  RoutingRequest c = request /\ CaseVerificationID c = SI_VerificationID (canonical_input original) /\
  before (UpdatedAt c) (SI_EvaluatedAt (canonical_input original)) = false /\
  (exists f f', AcceptedFact case_sha c = Ok (f, d) /\ validateFact f (UpdatedAt c) = Ok f' /\
     SI_Facts (canonical_input s) ≡ₚ f' :: SI_Facts (canonical_input original)) /\
  Forall (fun g => match F_ExpiresAt g with Some e => before (UpdatedAt c) e = true | None => True end)
    (SI_Facts (canonical_input original)) /\
  exists context, canonical_input s =
    mk_snapshot_input context (SI_TenantID (canonical_input original)) (SI_VerificationID (canonical_input original))
      (SI_AuthorityID (canonical_input original)) (SI_AcknowledgementID (canonical_input original))
      (SI_Region (canonical_input original)) (SI_Policy (canonical_input original)) (SI_Evaluator (canonical_input original))
      (UpdatedAt c) (SI_Facts (canonical_input s)).
Proof.
  unfold Snapshot in Hs. go_inv Hs. destruct v as [f d']. go_inv Hs. cbn [fst snd] in *.
  destruct (new_snapshot (mk_snapshot_input _ _ _ _ _ _ _ _ _ _)) as [s'|] eqn:Hnew; [|done]. injection Hs as -> ->.
  rewrite !orb_false_iff, !negb_false_iff in Hg. destruct Hg as (((Hreq & Hver) & Hbefore) & _). bprop.
  destruct (PolicySpec.new_snapshot_parts _ _ _ _ _ _ _ _ Horiginal) as (validated & ? & Hall & _ & _ & _ & Hcan0).
  destruct (PolicySpec.new_snapshot_parts _ _ _ _ _ _ _ _ Hnew) as (validated' & context & Hall' & _ & _ & _ & Hcan).
  cbn [SI_EvaluatedAt SI_Facts SI_TenantID SI_VerificationID SI_AuthorityID SI_AcknowledgementID SI_Region SI_Policy SI_Evaluator] in Hall', Hcan.
  apply Forall2_app_inv_l in Hall' as (olds & news & Holds & Hnews & ->).
  inversion Hnews as [|? f' ? ? Hf' Hnil]; subst. inversion Hnil; subst.
  assert (Hsame : olds = SI_Facts (canonical_input original)).
  { assert (Hcanon : Forall (fun g => validateFact g (SI_EvaluatedAt input) = Ok g) (SI_Facts (canonical_input original))).
    { rewrite Hcan0. cbn [SI_Facts]. rewrite sort_by_perm. clear -Hall. induction Hall as [|g o l k Hf _ IH]; constructor; [|done].
      by apply validateFact_idem in Hf as [? _]. }
    clear -Holds Hcanon. revert Hcanon. induction Holds as [|g o l k Hg _ IH]; intros Hcanon; [done|].
    apply Forall_cons in Hcanon as [Hc Hcanon]. f_equal; [by eapply validateFact_time_free | by apply IH]. }
  split_and!; try done.
  - exists f, f'. split_and!; [done | done|]. rewrite Hcan. cbn [SI_Facts]. rewrite sort_by_perm, Hsame. by rewrite Permutation_app_comm.
  - clear -Holds. induction Holds as [|g o l k Hg _ IH]; constructor; [by eapply validateFact_current | done].
  - exists context. rewrite Hcan. done.
Qed.
End Snapshots.

End ReviewSpec.

(** ** Witnesses: a dual review of the verification of [PolicyWitness] *)
Module ReviewWitness.
Definition t1 : Time := PolicyWitness.t1.
Definition long_reason : string := "document.a-reason-code-of-more-than-one-hundred-bytes-that-the-review-allows-and-that-policy-does-not-accept".
Definition rules : list PermittedFinding :=
  [mk_permitted ResolutionSatisfy "document.match"; mk_permitted ResolutionSatisfy long_reason;
   mk_permitted ResolutionNotSatisfy "document.mismatch"].
Definition reviewer (name : string) : Principal :=
  mk_principal name [PermissionClaim; PermissionFind; PermissionResolve; PermissionAppeal] ["document"%string].
Definition finding (identifier name reason : string) (t : Time) : Finding :=
  mk_finding identifier name ResolutionSatisfy reason ["grn_1"%string] t.
Definition grants (name : string) : list EvidenceGrant := [mk_grant "grn_1" name "eu-west" (add t1 hour) zero_time].
Definition value (r : result Error Case) (c : Case) : Case := match r with Ok x => x | Err _ => c end.

Definition blank : Case := mk_case "" "" "" "" "" "" "" OversightDual CaseOpen "" [] [] 0 zero_time zero_time.
Definition new_case : Case := value (NewRoutedCase "rev_1" "ver_1" "dec_9" "eu-west" "document" OversightDual t1) blank.
Definition case0 : Case := with_permitted new_case rules.
Definition case1 : Case := value (Claim case0 (reviewer "ann") 1 (add t1 minute)) blank.
Definition case2 : Case :=
  value (SubmitFinding case1 (reviewer "ann") (finding "fnd_1" "ann" "document.match" (add t1 (2 * minute))) (grants "ann") 2) blank.
Definition case3 (reason : string) : Case :=
  value (SubmitFinding case2 (reviewer "bob") (finding "fnd_2" "bob" reason (add t1 (3 * minute))) (grants "bob") 3) blank.

Lemma case_opened : opened case0.
Proof. apply (opened_routed "rev_1" "ver_1" "dec_9" "eu-west" "document" OversightDual t1); vm_compute; reflexivity. Qed.
Lemma case_reached reason : reason = "document.match"%string \/ reason = long_reason -> nsteps review_step 3 case0 (case3 reason).
Proof.
  intros Hr. apply (nsteps_l _ _ _ case1); [apply (step_claim _ (reviewer "ann") 1 (add t1 minute)); vm_compute; reflexivity|].
  apply (nsteps_l _ _ _ case2).
  { apply (step_finding _ (reviewer "ann") (finding "fnd_1" "ann" "document.match" (add t1 (2 * minute))) (grants "ann") 2);
      vm_compute; reflexivity. }
  apply nsteps_once.
  apply (step_finding _ (reviewer "bob") (finding "fnd_2" "bob" reason (add t1 (3 * minute))) (grants "bob") 3).
  destruct Hr as [->| ->]; vm_compute; reflexivity.
Qed.

Lemma review_reachable_witness :
  consistent (case3 "document.match") /\ State (case3 "document.match") = CaseResolved /\ Version (case3 "document.match") = 4.
Proof.
  destruct (ReviewSpec.review_reachable 3 case0 (case3 "document.match") case_opened
    (case_reached _ (or_introl eq_refl)) ltac:(vm_compute; discriminate)) as (Hc & Hv & _).
  split; [exact Hc|]. split; [vm_compute; reflexivity | exact Hv].
Defined.

Definition case_sha (x : string * Z * list FindingReference) : option string := Some PolicyWitness.hex64.

(** The same review with and without a reason that only findings admit. *)
Lemma resolved_review_yields_fact_witness :
  (exists f d, AcceptedFact case_sha (case3 "document.match") = Ok (f, d) /\
     is_ok (validateFact f (UpdatedAt (case3 "document.match"))) = true) /\
  (exists f d, AcceptedFact case_sha (case3 long_reason) = Ok (f, d) /\
     is_ok (validateFact f (UpdatedAt (case3 long_reason))) <> true).
Proof.
  assert (Hsha : forall x, exists d, case_sha x = Some d /\ validDigest d = true).
  { intros x. exists PolicyWitness.hex64. split; [reflexivity | vm_compute; reflexivity]. }
  split.
  - destruct (ReviewSpec.resolved_review_yields_fact case_sha 3 case0 (case3 "document.match") case_opened
      (case_reached _ (or_introl eq_refl)) ltac:(vm_compute; discriminate) ltac:(vm_compute; discriminate) Hsha) as [_ Hok].
    destruct Hok as (f & d & Hf & _ & _ & _ & Hiff); [vm_compute; reflexivity|]. exists f, d. split; [exact Hf|].
    apply Hiff. change (Findings (case3 "document.match")) with
      [finding "fnd_1" "ann" "document.match" (add t1 (2 * minute)); finding "fnd_2" "bob" "document.match" (add t1 (3 * minute))].
    intros g Hg. apply elem_of_cons in Hg as [->|Hg]; [vm_compute; discriminate|].
    apply list_elem_of_singleton in Hg as ->. vm_compute. discriminate.
  - destruct (ReviewSpec.resolved_review_yields_fact case_sha 3 case0 (case3 long_reason) case_opened
      (case_reached _ (or_intror eq_refl)) ltac:(vm_compute; discriminate) ltac:(vm_compute; discriminate) Hsha) as [_ Hok].
    destruct Hok as (f & d & Hf & _ & _ & _ & Hiff); [vm_compute; reflexivity|]. exists f, d. split; [exact Hf|].
    intros Hv. assert (Hin : finding "fnd_2" "bob" long_reason (add t1 (3 * minute)) ∈ Findings (case3 long_reason)).
    { change (Findings (case3 long_reason)) with [finding "fnd_1" "ann" "document.match" (add t1 (2 * minute));
        finding "fnd_2" "bob" long_reason (add t1 (3 * minute))]. apply elem_of_cons. right. by apply list_elem_of_singleton. }
    pose proof (proj1 Hiff Hv _ Hin) as Hl. vm_compute in Hl. by apply Hl.
Defined.

Definition routing : string * Policy.Snapshot := ("dec_9"%string, PolicyWitness.snapshot).
Definition reviewed : result Error (Policy.Snapshot * string) :=
  Snapshot case_sha PolicyWitness.sha PolicyWitness.json_mapping PolicyWitness.json_reference PolicyWitness.json_size
    PolicyWitness.sha PolicyWitness.json_fact (fun i => Some (PolicyWitness.sha i)) (case3 "document.match") routing.
Definition reviewed_snapshot : Policy.Snapshot * string :=
  match reviewed with Ok x => x | Err _ => (PolicyWitness.snapshot, ""%string) end.

Lemma review_snapshot_adds_one_fact_witness :
  exists f', SI_Facts (canonical_input reviewed_snapshot.1) ≡ₚ f' :: SI_Facts (canonical_input PolicyWitness.snapshot) /\
    map Key (SI_Facts (canonical_input reviewed_snapshot.1)) =
      ["authority.valid"; "document.genuine"; "review.resolution"]%string.
Proof.
  destruct (ReviewSpec.review_snapshot_adds_one_fact case_sha PolicyWitness.sha PolicyWitness.json_mapping
    PolicyWitness.json_reference PolicyWitness.json_size PolicyWitness.sha PolicyWitness.json_fact
    (fun i => Some (PolicyWitness.sha i)) (case3 "document.match") "dec_9" (PolicyWitness.sample_input None)
    PolicyWitness.snapshot reviewed_snapshot.1 reviewed_snapshot.2 PolicyWitness.snapshot_taken
    ltac:(vm_compute; reflexivity)) as (_ & _ & _ & (f & f' & _ & _ & Hp) & _).
  exists f'. split; [exact Hp | vm_compute; reflexivity].
Defined.

Definition appeal0 : Appeal :=
  mk_appeal "apl_1" "rev_1" "dec_1" ["ann"; "bob"]%string "" AppealRequested (AppealOutcomeOther "") "" "" (add t1 (10 * hour)) 1.
Definition appeal_value (r : result Error Appeal) : Appeal := match r with Ok a => a | Err _ => appeal0 end.
Definition appeal1 : Appeal := appeal_value (Assign appeal0 (reviewer "cy") 1 (add t1 hour)).
Definition appeal2 : Appeal := appeal_value (Resolve appeal1 (reviewer "cy") AppealMoreInput "evidence.blurred" "" 2 (add t1 hour)).
Definition appeal3 : Appeal :=
  appeal_value (Resolve appeal2 (reviewer "cy") AppealOverturned "evidence.accepted" "dec_2" 3 (add t1 (2 * hour))).

End ReviewWitness.
