(* ===== verification/AuditChain.v ===== *)
(** * The audit chain

    [internal/audit/chain.go]: records chained by hash, signed checkpoints and
    the verification of a portable export; [export.go] and [read.go]: the
    authorised export and the paged reader; [postgres/store.go]: the store that
    appends, registers and retires keys, signs checkpoints and exports, over the
    tables and constraints of its migration.

    SHA-256, Ed25519 and the JSON texts that are hashed or signed are the class
    [AuditCrypto], with the laws of a digest's form and of a signature that
    verifies; [None] is an encoding error, which the code drops. *)

From S2P Require Import Prelude GoTime.
From Stdlib Require Import Ascii.

Inductive Error := ErrInvalid | ErrChain | ErrForbidden | ErrConstraint | ErrQuery.
#[export] Instance Error_eq_dec : EqDecision Error. Proof. solve_decision. Defined.

Definition SchemaVersion : Z := 1.
Definition initialChainHash : string := "0000000000000000000000000000000000000000000000000000000000000000".
Definition max_uint64 : Z := 18446744073709551615.

Definition tokenPattern (s : string) : bool :=
  match_head_tail is_lower (fun c => is_lower c || is_digit c || byte_of "_.:-" c) s && (slen s <=? 128)%Z.

(** ** Records *)

(** The fields that are hashed. *)
Record RecordBody := mk_body {
  Sequence : Z;
  EventID : string;
  EventType : string;
  AggregateID : string;
  ActorID : string;
  OccurredAt : Time;
  EventDigest : string;
  PreviousHash : string;
}.
#[export] Instance RecordBody_eq_dec : EqDecision RecordBody. Proof. solve_decision. Defined.
Record Record_ := mk_record { body : RecordBody; Hash : string }.
#[export] Instance Record_eq_dec : EqDecision Record_. Proof. solve_decision. Defined.

(** The fields that are signed. *)
Record CheckpointBody := mk_checkpoint_body {
  TenantID : string; ThroughSequence : Z; ChainHash : string; KeyID : string; CreatedAt : Time }.
#[export] Instance CheckpointBody_eq_dec : EqDecision CheckpointBody. Proof. solve_decision. Defined.
Record Checkpoint := mk_checkpoint { signed : CheckpointBody; Signature : string }.
#[export] Instance Checkpoint_eq_dec : EqDecision Checkpoint. Proof. solve_decision. Defined.

Class AuditCrypto := {
  sha256_hex : string -> string;
  record_json : RecordBody -> option string;
  checkpoint_json : CheckpointBody -> option string;
  ed25519_key : string -> bool;
  ed25519_public : string -> string;
  ed25519_sign : string -> string -> string;
  ed25519_verify : string -> string -> string -> bool;
  sha256_hex_digest s : is_hex_digest (sha256_hex s) = true;
  ed25519_key_size k : ed25519_key k = true -> slen k = 64%Z /\ slen (ed25519_public k) = 32%Z;
  ed25519_sign_size k m : ed25519_key k = true -> slen (ed25519_sign k m) = 64%Z;
  ed25519_sign_verify k m : ed25519_key k = true -> ed25519_verify (ed25519_public k) m (ed25519_sign k m) = true;
}.

Record Export := mk_export { E_SchemaVersion : Z; E_TenantID : string; Records : list Record_; Checkpoints : list Checkpoint }.
Record Report := mk_report { R_TenantID : string; R_Records : Z; R_Checkpoints : Z; LastSequence : Z; R_ChainHash : string }.

Definition last_of {A : Type} (l : list A) : option A := last l.

Section Chain.
Context `{AuditCrypto}.

(** [validateRecordFields(record) == nil]. *)
Definition validateRecordFields (b : RecordBody) : bool :=
  negb ((Sequence b =? 0) || negb (tokenPattern (EventType b)) || String.eqb (EventID b) "" || String.eqb (AggregateID b) "" ||
        String.eqb (ActorID b) "" || negb (utc_non_zero (OccurredAt b)) || negb (is_hex_digest (EventDigest b)) ||
        negb (is_hex_digest (PreviousHash b))).

(** The error of the encoder is dropped: the digest is then that of no bytes. *)
Definition recordHash (b : RecordBody) : string := sha256_hex (default ""%string (record_json b)).

Definition checkpointMessage (c : CheckpointBody) : string := default ""%string (checkpoint_json c).

Definition Append (previous : option (Z * string)) (eventID eventType aggregateID actorID eventDigest : string)
    (occurredAt : Time) : result Error Record_ :=
  let '(sequence, previousHash) :=
    match previous with
    | Some (n, h) => (wrap_uint64 (n + 1), h)
    | None => (1, initialChainHash)
    end in
  let b := mk_body sequence eventID eventType aggregateID actorID occurredAt eventDigest previousHash in
  reject negb (validateRecordFields b) with ErrInvalid ;;
  Ok (mk_record b (recordHash b)).

Definition validCheckpoint (value : CheckpointBody) (signature : option string) : bool :=
  negb (String.eqb (TenantID value) "") && (0 <? ThroughSequence value) && is_hex_digest (ChainHash value) &&
  tokenPattern (KeyID value) && utc_non_zero (CreatedAt value) &&
  match signature with Some s => slen s =? 128 | None => true end.

Definition SignCheckpoint (tenantID keyID : string) (head : Z * string) (createdAt : Time) (privateKey : string)
  : result Error Checkpoint :=
  let c := mk_checkpoint_body tenantID head.1 head.2 keyID createdAt in
  reject negb (slen privateKey =? 64) || negb (validCheckpoint c None) with ErrInvalid ;;
  Ok (mk_checkpoint c (hex_encode (ed25519_sign privateKey (checkpointMessage c)))).

Fixpoint verify_records (index : Z) (previousHash : string) (records : list Record_) : bool :=
  match records with
  | [] => true
  | r :: rest =>
      (Sequence (body r) =? index) && String.eqb (PreviousHash (body r)) previousHash && validateRecordFields (body r) &&
      String.eqb (Hash r) (recordHash (body r)) && verify_records (index + 1) (Hash r) rest
  end.

Definition verify_checkpoint (export : Export) (keys : gmap string string) (c : Checkpoint) : bool :=
  let b := signed c in
  String.eqb (TenantID b) (E_TenantID export) && validCheckpoint b (Some (Signature c)) &&
  (ThroughSequence b <=? llen (Records export)) &&
  match Records export !! Z.to_nat (ThroughSequence b - 1) with
  | Some r => String.eqb (Hash r) (ChainHash b)
  | None => false
  end &&
  match keys !! KeyID b, hex_decode (Signature c) with
  | Some key, Some signature => (slen key =? 32) && ed25519_verify key (checkpointMessage b) signature
  | _, _ => false
  end.

Fixpoint ascending_checkpoints (cs : list Checkpoint) : bool :=
  match cs with
  | a :: ((b :: _) as rest) =>
      (ThroughSequence (signed a) <? ThroughSequence (signed b)) &&
      negb (before (CreatedAt (signed b)) (CreatedAt (signed a))) && ascending_checkpoints rest
  | _ => true
  end.

Definition Verify (export : Export) (keys : gmap string string) : result Error Report :=
  reject negb (E_SchemaVersion export =? SchemaVersion) || String.eqb (E_TenantID export) "" || (llen (Records export) =? 0) ||
         (llen (Checkpoints export) =? 0) with ErrInvalid ;;
  reject negb (verify_records 1 initialChainHash (Records export)) with ErrChain ;;
  reject negb (forallb (verify_checkpoint export keys) (Checkpoints export)) with ErrChain ;;
  reject negb (ascending_checkpoints (Checkpoints export)) with ErrChain ;;
  match last_of (Records export) with
  | Some head =>
      Ok (mk_report (E_TenantID export) (llen (Records export)) (llen (Checkpoints export)) (Sequence (body head)) (Hash head))
  | None => Err ErrInvalid
  end.

(** [Exporter.Export]: the authorizer and the repository are one answer each. *)
Definition Exporter_Export (tenantID actorID : string) (Authorize : result Error unit)
    (repository : result Error (Export * gmap string string)) : result Error (Export * gmap string string) :=
  reject String.eqb actorID "" || String.eqb tenantID "" with ErrInvalid ;;
  let? _ := Authorize in
  let? (exported, keys) := repository in
  match Verify exported keys with
  | Ok _ => Ok (exported, keys)
  | Err _ => Err ErrChain
  end.

Fixpoint descending (records : list Record_) : bool :=
  match records with
  | a :: ((b :: _) as rest) => (Sequence (body b) <? Sequence (body a)) && descending rest
  | _ => true
  end.

(** [Reader.List]: [Require] and the repository are one answer each. *)
Definition Reader_List (tenantID : string) (before_ limit : Z) (Require : result Error unit)
    (repository : Z -> Z -> result Error (list Record_)) : result Error (list Record_) :=
  reject String.eqb tenantID "" || (limit <? 1) || (100 <? limit) with ErrInvalid ;;
  let? _ := Require in
  let? records := repository before_ limit in
  reject negb (forallb (fun r => validateRecordFields (body r)) records) || negb (descending records) with ErrChain ;;
  Ok records.
End Chain.

(** ** The store *)
Module AuditStore.
Record CheckpointRow := mk_checkpoint_row { cp_chain_hash : string; cp_key_id : string; cp_created_at : Time; cp_signature : string }.
Record KeyRow := mk_key_row { public_key : string; valid_from : Time; retired_at : option Time }.

(** The tables, those with a tenant column by tenant and then sequence. *)
Record Database := mk_database {
  tenants : gset string;
  audit_heads : gmap string (Z * string);
  audit_records : gmap string (gmap Z Record_);
  audit_keys : gmap string KeyRow;
  audit_checkpoints : gmap string (gmap Z CheckpointRow);
}.

Definition records_of (db : Database) (tenant : string) : gmap Z Record_ := default ∅ (audit_records db !! tenant).
Definition checkpoints_of (db : Database) (tenant : string) : gmap Z CheckpointRow := default ∅ (audit_checkpoints db !! tenant).

(** A timestamptz column keeps microseconds; the store reads it back as UTC. *)
Definition timestamptz (t : Time) : Time := utc (truncate t microsecond).

Section Store.
Context `{AuditCrypto}.

(** The constraints of [audit_records]. *)
Definition record_row_ok (db : Database) (tenant : string) (r : Record_) : bool :=
  bool_decide (tenant ∈ tenants db) && bool_decide (records_of db tenant !! Sequence (body r) = None) &&
  forallb (fun kv => negb (String.eqb (EventID (body kv.2)) (EventID (body r)))) (map_to_list (records_of db tenant)) &&
  (0 <? Sequence (body r)) && is_hex_digest (EventDigest (body r)) && is_hex_digest (PreviousHash (body r)) &&
  is_hex_digest (Hash r).

Definition AppendInTransaction (db : Database) (scope eventID eventType aggregateID actorID eventDigest : string)
    (occurredAt : Time) : result Error (Database * Record_) :=
  let occurredAt := timestamptz occurredAt in
  reject String.eqb scope "" with ErrInvalid ;;
  reject negb (bool_decide (scope ∈ tenants db)) with ErrConstraint ;;
  let '(sequence, previousHash) := default (0, initialChainHash) (audit_heads db !! scope) in
  reject (0 <? sequence) && (sequence =? max_int64) with ErrInvalid ;;
  let previous := if 0 <? sequence then Some (sequence, previousHash) else None in
  let? record := Append previous eventID eventType aggregateID actorID eventDigest occurredAt in
  reject negb (record_row_ok db scope record) with ErrConstraint ;;
  let n := Sequence (body record) in
  Ok (mk_database (tenants db) (<[scope := (n, Hash record)]> (audit_heads db))
        (<[scope := <[n := record]> (records_of db scope)]> (audit_records db)) (audit_keys db) (audit_checkpoints db), record).

Definition RegisterKey (db : Database) (keyID key : string) (validFrom : Time) : result Error Database :=
  reject String.eqb keyID "" || negb (slen key =? 32) || is_zero validFrom || negb (in_utc validFrom) with ErrInvalid ;;
  match audit_keys db !! keyID with
  | Some _ => Ok db
  | None =>
      Ok (mk_database (tenants db) (audit_heads db) (audit_records db)
            (<[keyID := mk_key_row key (timestamptz validFrom) None]> (audit_keys db)) (audit_checkpoints db))
  end.

Definition RetireKey (db : Database) (keyID : string) (retiredAt : Time) : result Error Database :=
  reject String.eqb keyID "" || is_zero retiredAt || negb (in_utc retiredAt) with ErrInvalid ;;
  match audit_keys db !! keyID with
  | Some row =>
      reject negb (bool_decide (retired_at row = None)) || negb (before (valid_from row) (timestamptz retiredAt)) with ErrInvalid ;;
      Ok (mk_database (tenants db) (audit_heads db) (audit_records db)
            (<[keyID := mk_key_row (public_key row) (valid_from row) (Some (timestamptz retiredAt))]> (audit_keys db))
            (audit_checkpoints db))
  | None => Err ErrInvalid
  end.

(** The transaction of [Checkpoint]; [created_at] is bound to its column, the
    signature was made over [at_] itself. *)
Definition Checkpoint_ (db : Database) (scope keyID privateKey : string) (at_ : Time) : result Error (Database * Checkpoint) :=
  reject String.eqb scope "" with ErrInvalid ;;
  match audit_keys db !! keyID with
  | None => Err ErrInvalid
  | Some row =>
      reject negb (slen (public_key row) =? 32) || negb (String.eqb (public_key row) (ed25519_public privateKey)) ||
             before at_ (valid_from row) || match retired_at row with Some r => negb (before at_ r) | None => false end
        with ErrInvalid ;;
      match audit_heads db !! scope with
      | None => Err ErrQuery
      | Some (sequence, hash) =>
          reject sequence <=? 0 with ErrInvalid ;;
          let? checkpoint := SignCheckpoint scope keyID (sequence, hash) at_ privateKey in
          match checkpoints_of db scope !! sequence with
          | Some _ => Ok (db, checkpoint)
          | None =>
              reject negb (bool_decide (is_Some (records_of db scope !! sequence))) || negb (is_hex_digest hash) ||
                     negb ((slen (Signature checkpoint) =? 128) &&
                           string_forall (fun c => is_digit c || byte_in "a" "f" c) (Signature checkpoint)) with ErrConstraint ;;
              Ok (mk_database (tenants db) (audit_heads db) (audit_records db) (audit_keys db)
                    (<[scope := <[sequence := mk_checkpoint_row hash keyID (timestamptz at_) (Signature checkpoint)]>
                       (checkpoints_of db scope)]> (audit_checkpoints db)), checkpoint)
          end
      end
  end.

Definition with_sequence (n : Z) (r : Record_) : Record_ :=
  let b := body r in
  mk_record (mk_body n (EventID b) (EventType b) (AggregateID b) (ActorID b) (OccurredAt b) (EventDigest b) (PreviousHash b)) (Hash r).

Definition Export_ (db : Database) (scope : string) : result Error (Export * gmap string string) :=
  reject String.eqb scope "" with ErrInvalid ;;
  let rows := order_by fst (map_to_list (records_of db scope)) in
  reject existsb (fun row => row.1 <=? 0) rows || (100000 <? llen rows) with ErrInvalid ;;
  let checkpoints := order_by fst (map_to_list (checkpoints_of db scope)) in
  reject existsb (fun row => row.1 <=? 0) checkpoints || (10000 <? llen checkpoints) with ErrInvalid ;;
  let used := map (fun row => cp_key_id row.2) checkpoints in
  let keys := filter (fun kv => kv.1 ∈ used) (public_key <$> audit_keys db) in
  reject existsb (fun kv => negb (slen kv.2 =? 32)) (map_to_list keys) with ErrInvalid ;;
  Ok (mk_export SchemaVersion scope (map (fun row => with_sequence row.1 row.2) rows)
        (map (fun row => mk_checkpoint
                (mk_checkpoint_body scope row.1 (cp_chain_hash row.2) (cp_key_id row.2) (cp_created_at row.2))
                (cp_signature row.2)) checkpoints), keys).
End Store.
End AuditStore.

(** ** Chains *)
Section Chains.
Context `{AuditCrypto}.

(** The hash the next record names. *)
Definition head_hash (h : string) (rs : list Record_) : string := default h (Hash <$> last rs).

Lemma verify_records_snoc rs r : forall i h,
  verify_records i h (rs ++ [r]) = true <->
  verify_records i h rs = true /\ Sequence (body r) = i + llen rs /\ PreviousHash (body r) = head_hash h rs /\
  validateRecordFields (body r) = true /\ Hash r = recordHash (body r).
Proof.
  induction rs as [|x rs IH]; intros i h; cbn [app verify_records].
  - rewrite andb_true_r, !andb_true_iff, Z.eqb_eq, !String.eqb_eq. unfold head_hash, llen. cbn. rewrite Z.add_0_r. tauto.
  - rewrite !andb_true_iff, IH, !Z.eqb_eq, !String.eqb_eq.
    assert (Hh : head_hash (Hash x) rs = head_hash h (x :: rs)).
    { unfold head_hash. rewrite last_cons. by destruct (last rs). }
    rewrite Hh. unfold llen. cbn [length]. rewrite Nat2Z.inj_succ. split; intuition lia.
Qed.

Lemma verify_records_lookup rs : forall i h k r,
  verify_records i h rs = true -> rs !! k = Some r ->
  Sequence (body r) = i + Z.of_nat k /\ validateRecordFields (body r) = true /\ Hash r = recordHash (body r) /\
  PreviousHash (body r) = head_hash h (take k rs).
Proof.
  induction rs as [|x rs IH]; intros i h [|k] r; [done | done | |]; cbn [verify_records lookup list_lookup take].
  - intros Hv [= ->]. rewrite !andb_true_iff, Z.eqb_eq, !String.eqb_eq in Hv. unfold head_hash. cbn. split_and!; try tauto. lia.
  - intros Hv Hk. rewrite !andb_true_iff in Hv. destruct Hv as [_ Hv]. destruct (IH _ _ _ _ Hv Hk) as (Hs & Hf & Hh & Hp).
    split_and!; [lia | done | done |]. rewrite Hp. unfold head_hash. rewrite last_cons. by destruct (last (take k rs)).
Qed.

Lemma recordHash_digest b : is_hex_digest (recordHash b) = true.
Proof. apply sha256_hex_digest. Qed.

Lemma valid_fields b :
  validateRecordFields b = true ->
  Sequence b <> 0 /\ EventID b <> ""%string /\ is_hex_digest (EventDigest b) = true /\ is_hex_digest (PreviousHash b) = true.
Proof.
  unfold validateRecordFields. rewrite negb_true_iff, !orb_false_iff, !negb_false_iff, Z.eqb_neq, !String.eqb_neq. tauto.
Qed.

(** A record appended to a chain extends it; the sequence stays a uint64. *)
Lemma Append_extends rs eventID eventType aggregateID actorID eventDigest t r :
  verify_records 1 initialChainHash rs = true -> llen rs < max_uint64 ->
  Append (match rs with [] => None | _ => Some (llen rs, head_hash initialChainHash rs) end)
    eventID eventType aggregateID actorID eventDigest t = Ok r ->
  verify_records 1 initialChainHash (rs ++ [r]) = true /\ Sequence (body r) = llen rs + 1 /\
  body r = mk_body (llen rs + 1) eventID eventType aggregateID actorID t eventDigest (head_hash initialChainHash rs).
Proof.
  intros Hv Hmax Ha. unfold Append in Ha.
  assert (Hp : (match (match rs with [] => None | _ => Some (llen rs, head_hash initialChainHash rs) end) with
                | Some (n, h) => (wrap_uint64 (n + 1), h) | None => (1, initialChainHash) end) =
               (llen rs + 1, head_hash initialChainHash rs)).
  { destruct rs as [|x rs]; [done|]. rewrite wrap_uint64_id; [done|]. pose proof (llen_nonneg (x :: rs)). unfold max_uint64 in Hmax. lia. }
  rewrite Hp in Ha. go_inv Ha. cbn [body Sequence]. split_and!; [|done | done].
  apply negb_false_iff in Hg. apply verify_records_snoc. cbn [body Sequence PreviousHash Hash]. split_and!; try done. lia.
Qed.

(** The hash of a position determines the records up to it, or exhibits two
    different bodies with one digest. *)
Definition collision : Prop := exists x y : RecordBody, x <> y /\ recordHash x = recordHash y.

Lemma chain_determined rs rs' k : forall r r',
  verify_records 1 initialChainHash rs = true -> verify_records 1 initialChainHash rs' = true ->
  rs !! k = Some r -> rs' !! k = Some r' -> Hash r = Hash r' ->
  take (S k) rs = take (S k) rs' \/ collision.
Proof.
  induction k as [|k IH]; intros r r' Hv Hv' Hr Hr' Hh;
    destruct (verify_records_lookup _ _ _ _ _ Hv Hr) as (_ & _ & H1 & H2), (verify_records_lookup _ _ _ _ _ Hv' Hr') as (_ & _ & H1' & H2');
    (destruct (decide (body r = body r')) as [Heq|Hne]; [|right; exists (body r), (body r'); split; [done | congruence]]);
    assert (Hsame : r = r') by (destruct r, r'; cbn in *; congruence);
    rewrite (take_S_r _ _ _ Hr), (take_S_r _ _ _ Hr'), <- Hsame.
  - left. by rewrite !take_0.
  - assert (Hk : is_Some (rs !! k)) by (apply lookup_lt_is_Some; apply lookup_lt_Some in Hr; lia).
    assert (Hk' : is_Some (rs' !! k)) by (apply lookup_lt_is_Some; apply lookup_lt_Some in Hr'; lia).
    destruct Hk as [x Hx], Hk' as [x' Hx']. rewrite (take_S_r _ _ _ Hx) in H2. rewrite (take_S_r _ _ _ Hx') in H2'.
    unfold head_hash in H2, H2'. rewrite last_snoc in H2, H2'. cbn in H2, H2'.
    destruct (IH x x' Hv Hv' Hx Hx') as [Ht|?]; [congruence | left; by rewrite Ht | by right].
Qed.
End Chains.

(** ** Reachable databases *)
Module AuditInvariant.
Import AuditStore.
Section Invariant.
Context `{AuditCrypto}.

(** A checkpoint call of a well-behaved caller: a generated key, a UTC instant
    in whole microseconds that is not before the tenant's earlier checkpoints. *)
Definition well_timed (db : Database) (scope : string) (at_ : Time) : Prop :=
  timestamptz at_ = at_ /\
  forall n row, checkpoints_of db scope !! n = Some row -> before at_ (cp_created_at row) = false.

Inductive store_step : Database -> Database -> Prop :=
| step_append db scope e ty a ac d t db' r : AppendInTransaction db scope e ty a ac d t = Ok (db', r) -> store_step db db'
| step_register db k key t db' : RegisterKey db k key t = Ok db' -> store_step db db'
| step_retire db k t db' : RetireKey db k t = Ok db' -> store_step db db'
| step_checkpoint db scope k priv t db' c :
    Checkpoint_ db scope k priv t = Ok (db', c) -> ed25519_key priv = true -> well_timed db scope t -> store_step db db'.

Definition empty_database (ts : gset string) : Database := mk_database ts ∅ ∅ ∅ ∅.

(** The row of a checkpoint, as the export shows it. *)
Definition shown_checkpoint (scope : string) (n : Z) (row : CheckpointRow) : Checkpoint :=
  mk_checkpoint (mk_checkpoint_body scope n (cp_chain_hash row) (cp_key_id row) (cp_created_at row)) (cp_signature row).

Definition checkpoint_ok (db : Database) (scope : string) (rs : list Record_) (n : Z) (row : CheckpointRow) : Prop :=
  let c := shown_checkpoint scope n row in
  0 < n <= llen rs /\ (exists r, rs !! Z.to_nat (n - 1) = Some r /\ Hash r = cp_chain_hash row) /\
  validCheckpoint (signed c) (Some (Signature c)) = true /\
  exists key sig, audit_keys db !! cp_key_id row = Some key /\ hex_decode (Signature c) = Some sig /\
    ed25519_verify (public_key key) (checkpointMessage (signed c)) sig = true.

(** A tenant's rows are a chain that starts at sequence one, its head is the
    chain's, and its checkpoints are on it in the order of time. *)
Record tenant_ok (db : Database) (scope : string) (rs : list Record_) : Prop := {
  tk_chain : verify_records 1 initialChainHash rs = true;
  tk_size : llen rs <= max_int64;
  tk_records : forall n, records_of db scope !! n = if 0 <? n then rs !! Z.to_nat (n - 1) else None;
  tk_head : default (0, initialChainHash) (audit_heads db !! scope) = (llen rs, head_hash initialChainHash rs);
  tk_checkpoints : forall n row, checkpoints_of db scope !! n = Some row -> checkpoint_ok db scope rs n row;
  tk_ascending : forall n m x y, checkpoints_of db scope !! n = Some x -> checkpoints_of db scope !! m = Some y ->
    n < m -> before (cp_created_at y) (cp_created_at x) = false;
}.

Definition keys_ok (db : Database) : Prop := forall k row, audit_keys db !! k = Some row -> slen (public_key row) = 32.

Definition database_ok (db : Database) : Prop := keys_ok db /\ forall scope, exists rs, tenant_ok db scope rs.

Lemma empty_ok ts : database_ok (empty_database ts).
Proof.
  split; [done|]. intros scope. exists []. constructor; try done. intros n. unfold records_of. cbn.
  rewrite lookup_empty. cbn. by destruct (0 <? n).
Qed.

Lemma checkpoint_ok_mono db db' scope rs rs' n row :
  (forall k key, audit_keys db !! k = Some key -> exists key', audit_keys db' !! k = Some key' /\ public_key key' = public_key key) ->
  rs `prefix_of` rs' -> checkpoint_ok db scope rs n row -> checkpoint_ok db' scope rs' n row.
Proof.
  intros Hkeys Hp (Hn & (r & Hr & Hh) & Hv & key & sig & Hk & Hs & Hver). unfold checkpoint_ok.
  destruct (Hkeys _ _ Hk) as (key' & Hk' & Heq). split_and!; try lia.
  - pose proof (prefix_length _ _ Hp). unfold llen in *. lia.
  - exists r. split; [by eapply prefix_lookup_Some | done].
  - exact Hv.
  - exists key', sig. split_and!; [done | done | by rewrite Heq].
Qed.

(** Databases that agree on a tenant's rows and keep the public keys. *)
Lemma tenant_ok_same db db' scope rs :
  records_of db' scope = records_of db scope -> checkpoints_of db' scope = checkpoints_of db scope ->
  audit_heads db' !! scope = audit_heads db !! scope ->
  (forall k key, audit_keys db !! k = Some key -> exists key', audit_keys db' !! k = Some key' /\ public_key key' = public_key key) ->
  tenant_ok db scope rs -> tenant_ok db' scope rs.
Proof.
  intros Hr Hc Hh Hk [T1 T2 T3 T4 T5 T6]. constructor; rewrite ?Hr, ?Hc, ?Hh; try done.
  intros n row Hrow. eapply checkpoint_ok_mono; [exact Hk | reflexivity | by apply T5].
Qed.

Lemma AppendInTransaction_ok db scope e ty a ac d t db' r :
  database_ok db -> AppendInTransaction db scope e ty a ac d t = Ok (db', r) -> database_ok db'.
Proof.
  intros [Hk Hall] Happ. unfold AppendInTransaction in Happ. go_inv Happ.
  destruct (Hall scope) as (rs & [T1 T2 T3 T4 T5 T6]). rewrite T4 in Happ. go_inv Happ.
  split; [exact Hk|]. intros other. destruct (decide (other = scope)) as [->|Hne].
  2: { destruct (Hall other) as (rs' & Hrs'). exists rs'.
       eapply tenant_ok_same; [| | | | exact Hrs']; [| done | | by eauto];
         unfold records_of; cbn [audit_records audit_heads]; by rewrite lookup_insert_ne by congruence. }
  assert (Hprev : (if 0 <? llen rs then Some (llen rs, head_hash initialChainHash rs) else None) =
    match rs with [] => None | _ => Some (llen rs, head_hash initialChainHash rs) end).
  { destruct rs as [|x rs]; [done|]. rewrite (proj2 (Z.ltb_lt _ _)); [done|]. unfold llen. cbn. lia. }
  rewrite Hprev in Hv. assert (Hlt : llen rs < max_int64).
  { destruct (0 <? llen rs) eqn:Hpos; cbn [andb] in Hg1; bprop; [lia | unfold max_int64; lia]. }
  destruct (Append_extends rs e ty a ac d (timestamptz t) r T1 ltac:(unfold max_int64, max_uint64 in *; lia) Hv) as (Hchain & Hseq & _).
  exists (rs ++ [r]). constructor; try done.
  - rewrite llen_app. unfold llen at 2. cbn. lia.
  - intros n. unfold records_of at 1. cbn [audit_records]. rewrite lookup_insert_eq. cbn [from_option id]. rewrite Hseq.
    pose proof (llen_nonneg rs). destruct (decide (n = llen rs + 1)) as [->|Hne].
    + rewrite lookup_insert_eq, (proj2 (Z.ltb_lt _ _)) by lia. replace (Z.to_nat (llen rs + 1 - 1)) with (length rs) by (unfold llen; lia).
      by rewrite lookup_app_r, Nat.sub_diag by lia.
    + rewrite lookup_insert_ne by lia. rewrite T3. destruct (0 <? n) eqn:Hpos; [|done]. bprop. unfold llen in *.
      destruct (decide (n < Z.of_nat (length rs) + 1)) as [?|?]; [by rewrite lookup_app_l by lia|].
      rewrite !lookup_ge_None_2; [done | rewrite length_app; cbn; lia | lia].
  - cbn [audit_heads]. rewrite lookup_insert_eq. cbn. rewrite Hseq. unfold head_hash. rewrite last_snoc, llen_app. done.
  - intros n row Hrow. eapply checkpoint_ok_mono; [|by apply prefix_app_r | by apply T5]. intros k key Hkey. by exists key.
Qed.

Lemma keys_update db scope rs k old new :
  audit_keys db !! k = old -> (forall o, old = Some o -> public_key new = public_key o) -> tenant_ok db scope rs ->
  tenant_ok (mk_database (tenants db) (audit_heads db) (audit_records db) (<[k := new]> (audit_keys db)) (audit_checkpoints db)) scope rs.
Proof.
  intros Hold Hpub. apply tenant_ok_same; try done. intros k' key Hkey. cbn [audit_keys].
  destruct (decide (k' = k)) as [->|Hne]; [rewrite lookup_insert_eq | rewrite lookup_insert_ne by done; eauto].
  exists new. split; [done|]. rewrite <- Hold in Hpub. by apply Hpub.
Qed.

Lemma RegisterKey_ok db k key t db' : database_ok db -> RegisterKey db k key t = Ok db' -> database_ok db'.
Proof.
  intros [Hk Hall] Hr. unfold RegisterKey in Hr. go_inv Hr. destruct (audit_keys db !! k) as [row|] eqn:Hrow; go_inv Hr; [done|].
  rewrite !orb_false_iff, negb_false_iff, Z.eqb_eq in Hg. split.
  - intros k' row'. cbn [audit_keys]. intros [[<- <-]|[_ ?]]%lookup_insert_Some; [cbn; tauto | by eapply Hk].
  - intros scope. destruct (Hall scope) as (rs & Hrs). exists rs. by eapply keys_update.
Qed.

Lemma RetireKey_ok db k t db' : database_ok db -> RetireKey db k t = Ok db' -> database_ok db'.
Proof.
  intros [Hk Hall] Hr. unfold RetireKey in Hr. go_inv Hr. destruct (audit_keys db !! k) as [row|] eqn:Hrow; [|done]. go_inv Hr. split.
  - intros k' row'. cbn [audit_keys]. intros [[<- <-]|[_ ?]]%lookup_insert_Some; [cbn; by eapply Hk | by eapply Hk].
  - intros scope. destruct (Hall scope) as (rs & Hrs). exists rs. eapply keys_update; [exact Hrow | by intros o [= <-] | done].
Qed.

Lemma last_lookup (rs : list Record_) : 0 < llen rs -> exists r, rs !! Z.to_nat (llen rs - 1) = Some r /\ last rs = Some r.
Proof.
  intros Hpos. assert (Hn : Z.to_nat (llen rs - 1) = pred (length rs)) by (unfold llen in *; lia). rewrite Hn, <- last_lookup.
  destruct (last rs) as [r|] eqn:Hl; [by exists r|]. apply last_None in Hl. subst. done.
Qed.

Lemma Checkpoint_ok db scope k priv t db' c :
  database_ok db -> ed25519_key priv = true -> well_timed db scope t -> Checkpoint_ db scope k priv t = Ok (db', c) ->
  database_ok db'.
Proof.
  intros [Hk Hall] Hpriv [Hus Hlate] Hc. unfold Checkpoint_ in Hc. go_inv Hc.
  destruct (audit_keys db !! k) as [key|] eqn:Hkey; [|done]. go_inv Hc.
  destruct (audit_heads db !! scope) as [[n h]|] eqn:Hhead; [|done]. go_inv Hc.
  destruct (checkpoints_of db scope !! n) eqn:Hold; go_inv Hc; [done|].
  destruct (Hall scope) as (rs & Hrs). pose proof Hrs as [T1 T2 T3 T4 T5 T6]. rewrite Hhead in T4. cbn in T4. injection T4 as -> ->.
  destruct (last_lookup rs) as (r & Hr & Hlast); [bprop; lia|].
  assert (Hgood : checkpoint_ok db scope rs (llen rs) (mk_checkpoint_row (head_hash initialChainHash rs) k (timestamptz t) (Signature c))).
  { unfold SignCheckpoint in Hv. cbn [fst snd] in Hv. go_inv Hv. rewrite Hus in *. rewrite !orb_false_iff, !negb_false_iff in *.
    destruct Hg0 as (((_ & Hpub) & _) & _), Hg3 as [_ Hvalid]. apply String.eqb_eq in Hpub. bprop.
    unfold checkpoint_ok, shown_checkpoint. cbn [signed Signature cp_chain_hash cp_key_id cp_created_at cp_signature].
    split_and!; try lia.
    - exists r. split; [done|]. unfold head_hash. by rewrite Hlast.
    - unfold validCheckpoint in *. cbn [TenantID ThroughSequence ChainHash KeyID CreatedAt] in *. rewrite andb_true_r in Hvalid.
      rewrite Hvalid, hex_encode_length, ed25519_sign_size by done. done.
    - eexists key, _. split_and!; [done | apply hex_roundtrip |]. rewrite Hpub. by apply ed25519_sign_verify. }
  split; [exact Hk|]. intros other. destruct (decide (other = scope)) as [->|Hne].
  2: { destruct (Hall other) as (rs' & Hrs'). exists rs'. apply (tenant_ok_same db); [done | | done | by eauto | exact Hrs'].
       unfold checkpoints_of. cbn [audit_checkpoints]. by rewrite lookup_insert_ne by congruence. }
  assert (Hrows : forall m x, checkpoints_of (mk_database (tenants db) (audit_heads db) (audit_records db) (audit_keys db)
      (<[scope := <[llen rs := mk_checkpoint_row (head_hash initialChainHash rs) k (timestamptz t) (Signature c)]>
         (checkpoints_of db scope)]> (audit_checkpoints db))) scope !! m = Some x ->
    (m = llen rs /\ x = mk_checkpoint_row (head_hash initialChainHash rs) k (timestamptz t) (Signature c)) \/
    checkpoints_of db scope !! m = Some x).
  { intros m x. unfold checkpoints_of at 1. cbn [audit_checkpoints]. rewrite lookup_insert_eq. cbn [from_option id].
    intros [[<- <-]|[_ ?]]%lookup_insert_Some; [by left | by right]. }
  exists rs. constructor; try done.
  - cbn [audit_heads]. by rewrite Hhead.
  - intros m x Hx. apply Hrows in Hx as [[-> ->]|Hx]; [exact Hgood | by apply T5].
  - intros m m' x y Hx Hy Hlt. apply Hrows in Hx, Hy. destruct Hy as [[-> ->]|Hy]; destruct Hx as [[-> ->]|Hx].
    + lia.
    + cbn [cp_created_at]. rewrite Hus. by eapply Hlate.
    + apply T5 in Hy as ((_ & ?) & _). lia.
    + by eapply (T6 m m').
Qed.

Lemma store_step_ok db db' : database_ok db -> store_step db db' -> database_ok db'.
Proof.
  intros Hok Hs. destruct Hs; eauto using AppendInTransaction_ok, RegisterKey_ok, RetireKey_ok, Checkpoint_ok.
Qed.

Lemma store_reachable_ok ts db : rtc store_step (empty_database ts) db -> database_ok db.
Proof.
  intros Hs. pose proof (empty_ok ts) as Hok. revert Hok. generalize (empty_database ts) as d0, Hs. clear Hs.
  intros d0 Hs Hok. induction Hs; eauto using store_step_ok.
Qed.

(** ** Exports of a reachable database *)

Lemma positions_sorted n : forall i, StronglySorted Z.le (map (fun k => Z.of_nat k + 1) (seq i n)) /\ NoDup (map (fun k => Z.of_nat k + 1) (seq i n)).
Proof.
  induction n as [|n IH]; intros i; cbn [seq map]; [split; constructor|]. destruct (IH (S i)) as [Hs Hn].
  split; constructor; try done.
  - apply Forall_forall. intros x Hx. apply list_elem_of_fmap in Hx as (k & -> & Hk). apply elem_of_seq in Hk. lia.
  - intros Hx. apply list_elem_of_fmap in Hx as (k & Heq & Hk). apply elem_of_seq in Hk. lia.
Qed.

Lemma exported_rows db scope rs :
  tenant_ok db scope rs ->
  order_by fst (map_to_list (records_of db scope)) = imap (fun i r => (Z.of_nat i + 1, r)) rs.
Proof.
  intros Hrs. assert (Hfst : map fst (imap (fun i r => (Z.of_nat i + 1, r)) rs) = map (fun k => Z.of_nat k + 1) (seq 0 (length rs))).
  { transitivity (imap (fun j (_ : Record_) => Z.of_nat j + 1) rs); [|exact (imap_seq_0 rs (fun k => Z.of_nat k + 1))].
    transitivity (fst <$> imap (fun i r => (Z.of_nat i + 1, r)) rs); [done|]. rewrite fmap_imap. by apply imap_ext. }
  destruct (positions_sorted (length rs) 0) as [Hsorted Hnd].
  apply order_by_unique; [|by rewrite Hfst .. ]. apply NoDup_Permutation.
  - apply NoDup_map_to_list.
  - apply (NoDup_fmap_1 fst). rewrite <- Hfst in Hnd. exact Hnd.
  - intros [n r]. rewrite elem_of_map_to_list, (tk_records _ _ _ Hrs), list_elem_of_lookup. setoid_rewrite list_lookup_imap_Some. split.
    + destruct (0 <? n) eqn:Hn; [|done]. bprop. intros Hr. exists (Z.to_nat (n - 1)), r. split; [done|]. f_equal. lia.
    + intros (i & r' & Hr & [= -> ->]). rewrite (proj2 (Z.ltb_lt _ _)) by lia. by replace (Z.to_nat (Z.of_nat i + 1 - 1)) with i by lia.
Qed.

Lemma exported_records rs i :
  verify_records i initialChainHash rs = true -> 
  map (fun row : Z * Record_ => with_sequence row.1 row.2) (imap (fun k r => (Z.of_nat k + i, r)) rs) = rs.
Proof.
  intros Hv. apply list_eq. intros k.
  etrans; [apply (list_lookup_fmap (fun row : Z * Record_ => with_sequence row.1 row.2))|]. rewrite list_lookup_imap.
  destruct (rs !! k) as [r|] eqn:Hr; cbn; [|done]. destruct (verify_records_lookup _ _ _ _ _ Hv Hr) as (Hs & _).
  unfold with_sequence. cbn. rewrite Z.add_comm, <- Hs. by destruct r as [[] ?].
Qed.

Lemma ascending_export db scope rs l :
  tenant_ok db scope rs -> StronglySorted Z.le (map fst l) -> NoDup (map fst l) ->
  (forall n row, (n, row) ∈ l -> checkpoints_of db scope !! n = Some row) ->
  ascending_checkpoints (map (fun row => shown_checkpoint scope row.1 row.2) l) = true.
Proof.
  intros Hrs. induction l as [|[n x] [|[m y] l] IH]; intros Hs Hn Hin; [done | done |].
  apply StronglySorted_inv in Hs as [Hs Hall]. apply NoDup_cons in Hn as [Hnot Hn].
  change (map (fun row => shown_checkpoint scope row.1 row.2) ((n, x) :: (m, y) :: l)) with
    (shown_checkpoint scope n x :: shown_checkpoint scope m y :: map (fun row => shown_checkpoint scope row.1 row.2) l).
  cbn [ascending_checkpoints]. rewrite !andb_true_iff. split; [split|].
  - cbn. apply Forall_cons in Hall as [Hle _]. apply Z.ltb_lt. cbn in Hle, Hnot. destruct (decide (n = m)) as [->|?]; [set_solver | lia].
  - apply negb_true_iff. cbn. apply Forall_cons in Hall as [Hle _]. cbn in Hle, Hnot.
    apply (tk_ascending _ _ _ Hrs n m); [apply Hin; set_solver | apply Hin; set_solver |].
    destruct (decide (n = m)) as [->|?]; [set_solver | lia].
  - apply IH; [done | done |]. intros k row Hk. apply Hin. by right.
Qed.

Lemma exported_checkpoint db scope rs keys n row :
  tenant_ok db scope rs -> scope <> ""%string -> checkpoint_ok db scope rs n row ->
  (forall key, audit_keys db !! cp_key_id row = Some key -> keys !! cp_key_id row = Some (public_key key) /\ slen (public_key key) = 32) ->
  forall cs, verify_checkpoint (mk_export SchemaVersion scope rs cs) keys (shown_checkpoint scope n row) = true.
Proof.
  intros _ _ (Hn & (r & Hr & Hh) & Hv & key & sig & Hk & Hs & Hver) Hkeys cs. destruct (Hkeys key Hk) as [Hkey Hsize].
  unfold verify_checkpoint. cbn [E_TenantID Records]. rewrite Hv. unfold shown_checkpoint in *.
  cbn [signed Signature TenantID ThroughSequence ChainHash KeyID] in *. rewrite String.eqb_refl, (proj2 (Z.leb_le _ _)) by lia.
  rewrite Hr, Hh, String.eqb_refl, Hkey, Hs, Hsize, Hver. done.
Qed.

(** The rows of a tenant's checkpoints and the keys they use. *)
Definition checkpoint_rows (db : Database) (scope : string) : list (Z * CheckpointRow) :=
  order_by fst (map_to_list (checkpoints_of db scope)).
Definition used_keys (db : Database) (scope : string) : gmap string string :=
  filter (fun kv => kv.1 ∈ map (fun row => cp_key_id row.2) (checkpoint_rows db scope)) (public_key <$> audit_keys db).
Definition shown_checkpoints (db : Database) (scope : string) : list Checkpoint :=
  map (fun row => shown_checkpoint scope row.1 row.2) (checkpoint_rows db scope).

Lemma elem_of_checkpoint_rows db scope n row :
  (n, row) ∈ checkpoint_rows db scope <-> checkpoints_of db scope !! n = Some row.
Proof. unfold checkpoint_rows. by rewrite order_by_perm, elem_of_map_to_list. Qed.

Lemma llen_checkpoint_rows db scope : llen (checkpoint_rows db scope) = Z.of_nat (size (checkpoints_of db scope)).
Proof. unfold llen, checkpoint_rows. by rewrite order_by_perm, length_map_to_list. Qed.

Lemma llen_tenant db scope rs : tenant_ok db scope rs -> llen rs = Z.of_nat (size (records_of db scope)).
Proof.
  intros Hrs. rewrite <- length_map_to_list, <- (order_by_perm fst (map_to_list _)), (exported_rows _ _ _ Hrs).
  unfold llen. by rewrite length_imap.
Qed.

Lemma used_key db scope n row key :
  keys_ok db -> checkpoints_of db scope !! n = Some row -> audit_keys db !! cp_key_id row = Some key ->
  used_keys db scope !! cp_key_id row = Some (public_key key) /\ slen (public_key key) = 32.
Proof.
  intros Hk Hrow Hkey. split; [|by eapply Hk]. unfold used_keys. apply map_lookup_filter_Some. split.
  - rewrite lookup_fmap, Hkey. done.
  - cbn. apply list_elem_of_fmap. exists (n, row). split; [done | by apply elem_of_checkpoint_rows].
Qed.

(** [Export] of a tenant within the bounds. *)
Lemma Export_tenant db scope rs :
  keys_ok db -> tenant_ok db scope rs -> scope <> ""%string -> llen rs <= 100000 -> llen (checkpoint_rows db scope) <= 10000 ->
  Export_ db scope = Ok (mk_export SchemaVersion scope rs (shown_checkpoints db scope), used_keys db scope).
Proof.
  intros Hk Hrs Hscope Hr Hc. unfold Export_. rewrite (proj2 (String.eqb_neq _ _) Hscope), (exported_rows _ _ _ Hrs).
  fold (checkpoint_rows db scope) (used_keys db scope).
  assert (Hlen : llen (imap (fun i (r : Record_) => (Z.of_nat i + 1, r)) rs) = llen rs) by (unfold llen; by rewrite length_imap).
  rewrite Hlen, !(proj2 (Z.ltb_ge _ _)) by done. rewrite !orb_false_r.
  assert (Hpos : existsb (fun row : Z * Record_ => row.1 <=? 0) (imap (fun i r => (Z.of_nat i + 1, r)) rs) = false).
  { apply not_true_iff_false. rewrite existsb_exists. intros ([n r] & Hin & Hn). apply list_elem_of_In, list_elem_of_lookup in Hin as [i Hi].
    apply list_lookup_imap_Some in Hi as (? & _ & [= -> ->]). cbn in Hn. bprop. lia. }
  assert (Hpos' : existsb (fun row : Z * CheckpointRow => row.1 <=? 0) (checkpoint_rows db scope) = false).
  { apply not_true_iff_false. rewrite existsb_exists. intros ([n row] & Hin & Hn).
    apply list_elem_of_In, elem_of_checkpoint_rows, (tk_checkpoints _ _ _ Hrs) in Hin as [Hin _]. cbn in Hn. bprop. lia. }
  rewrite Hpos, Hpos'.
  assert (Hsize : existsb (fun kv : string * string => negb (slen kv.2 =? 32)) (map_to_list (used_keys db scope)) = false).
  { apply not_true_iff_false. rewrite existsb_exists. intros ([k v] & Hin & Hn).
    apply list_elem_of_In, elem_of_map_to_list, map_lookup_filter_Some in Hin as [Hin _]. rewrite lookup_fmap in Hin.
    destruct (audit_keys db !! k) as [key|] eqn:Hkey; [|done]. injection Hin as <-. cbn in Hn. by rewrite (Hk _ _ Hkey) in Hn. }
  rewrite Hsize. by rewrite (exported_records rs 1 (tk_chain _ _ _ Hrs)).
Qed.

(** ... verifies. *)
Lemma Verify_tenant db scope rs head :
  keys_ok db -> tenant_ok db scope rs -> scope <> ""%string -> last rs = Some head -> 0 < llen (checkpoint_rows db scope) ->
  Verify (mk_export SchemaVersion scope rs (shown_checkpoints db scope)) (used_keys db scope) =
  Ok (mk_report scope (llen rs) (llen (checkpoint_rows db scope)) (Sequence (body head)) (Hash head)).
Proof.
  intros Hk Hrs Hscope Hlast Hpos. unfold Verify. cbn [E_SchemaVersion E_TenantID Records Checkpoints].
  assert (Hlen : llen (shown_checkpoints db scope) = llen (checkpoint_rows db scope)) by (unfold llen, shown_checkpoints; by rewrite length_map).
  rewrite Z.eqb_refl, (proj2 (String.eqb_neq _ _) Hscope), Hlen, (tk_chain _ _ _ Hrs). cbn [negb orb].
  rewrite !(proj2 (Z.eqb_neq _ _)) by (destruct rs; [done | unfold llen in *; cbn; lia] || lia). cbn [orb].
  assert (Hcs : forallb (verify_checkpoint (mk_export SchemaVersion scope rs (shown_checkpoints db scope)) (used_keys db scope))
    (shown_checkpoints db scope) = true).
  { apply forallb_forall. intros c Hc. apply in_map_iff in Hc as ([n row] & <- & Hin). apply list_elem_of_In, elem_of_checkpoint_rows in Hin.
    apply (exported_checkpoint db scope rs _ n row Hrs Hscope); [by apply (tk_checkpoints _ _ _ Hrs)|].
    intros key Hkey. by eapply used_key. }
  rewrite Hcs. unfold shown_checkpoints at 1. rewrite (ascending_export db scope rs _ Hrs).
  - cbn [negb]. unfold last_of. by rewrite Hlast.
  - apply order_by_sorted.
  - unfold checkpoint_rows. rewrite order_by_perm. apply NoDup_fst_map_to_list.
  - intros n row. apply elem_of_checkpoint_rows.
Qed.
End Invariant.
End AuditInvariant.

(** ** Properties *)
Module AuditSpec.
Import AuditStore AuditInvariant.
Section AuditSpec.
Context `{AuditCrypto}.

(** C24: what the store writes verifies.  In a database reached by any appends,
    registrations, retirements and well-timed checkpoints, of any tenants, a
    tenant with a checkpoint and within the export bounds exports; the export
    holds exactly the tenant's rows in sequence, verifies under the exported
    keys, and is reported to end at the tenant's head. *)
Theorem exported_chain_verifies (ts : gset string) (db : Database) (scope : string)
    (Hreach : rtc store_step (empty_database ts) db) (Hscope : scope <> ""%string)
    (Hsize : Z.of_nat (size (records_of db scope)) <= 100000)
    (Hchecked : 0 < Z.of_nat (size (checkpoints_of db scope)) <= 10000) :
  exists e keys report, Export_ db scope = Ok (e, keys) /\ Verify e keys = Ok report /\
    audit_heads db !! scope = Some (LastSequence report, R_ChainHash report) /\
    R_Records report = Z.of_nat (size (records_of db scope)) /\
    forall n r, records_of db scope !! n = Some r <-> 0 < n /\ Records e !! Z.to_nat (n - 1) = Some r.
Proof.
  destruct (store_reachable_ok ts db Hreach) as [Hkeys Hall]. destruct (Hall scope) as (rs & Hrs).
  pose proof (llen_tenant _ _ _ Hrs) as Hlen. pose proof (llen_checkpoint_rows db scope) as Hclen.
  assert (Hpos : 0 < llen rs).
  { destruct (checkpoint_rows db scope) as [|[n row] l] eqn:Hc; [unfold llen in Hclen; cbn in Hclen; lia|].
    destruct (tk_checkpoints _ _ _ Hrs n row) as [Hn _]; [apply elem_of_checkpoint_rows; rewrite Hc; by left | lia]. }
  destruct (last_lookup rs Hpos) as (head & Hhead & Hlast).
  eexists _, _, _. split_and!; [apply Export_tenant; [done.. | lia | lia] | apply (Verify_tenant db scope rs head); [done.. | lia] | | done |].
  - cbn [LastSequence R_ChainHash]. pose proof (tk_head _ _ _ Hrs) as Hh. unfold head_hash in Hh. rewrite Hlast in Hh. cbn in Hh.
    destruct (verify_records_lookup _ _ _ _ _ (tk_chain _ _ _ Hrs) Hhead) as (-> & _).
    destruct (audit_heads db !! scope) as [hd|]; cbn in Hh; [rewrite Hh; do 2 f_equal; lia | injection Hh as Hh _; lia].
  - intros n r. rewrite (tk_records _ _ _ Hrs). cbn [Records]. destruct (0 <? n) eqn:Hn; bprop; split; try tauto; try lia.
    done.
Qed.


(** Calls of the store with any arguments. *)
Inductive any_step : Database -> Database -> Prop :=
| any_append db scope e ty a ac d t db' r : AppendInTransaction db scope e ty a ac d t = Ok (db', r) -> any_step db db'
| any_register db k key t db' : RegisterKey db k key t = Ok db' -> any_step db db'
| any_retire db k t db' : RetireKey db k t = Ok db' -> any_step db db'
| any_checkpoint db scope k priv t db' c : Checkpoint_ db scope k priv t = Ok (db', c) -> any_step db db'.

Lemma checkpoint_row_kept db db' scope n row :
  any_step db db' -> checkpoints_of db scope !! n = Some row -> checkpoints_of db' scope !! n = Some row.
Proof.
  intros Hs Hrow. destruct Hs as [db sc e ty a ac d t db' r H0 | db k key t db' H0 | db k t db' H0 | db sc k priv t db' c H0].
  - unfold AppendInTransaction in H0. go_inv H0. destruct (default _ _) as [sequence previousHash]. go_inv H0. done.
  - unfold RegisterKey in H0. go_inv H0. destruct (audit_keys db !! k); go_inv H0; done.
  - unfold RetireKey in H0. go_inv H0. destruct (audit_keys db !! k); go_inv H0; done.
  - unfold Checkpoint_ in H0. go_inv H0. destruct (audit_keys db !! k); [|done]. go_inv H0.
    destruct (audit_heads db !! sc) as [[m h]|]; [|done]. go_inv H0. destruct (checkpoints_of db sc !! m) eqn:Hm; go_inv H0; [done|].
    unfold checkpoints_of at 1. cbn [audit_checkpoints]. destruct (decide (sc = scope)) as [->|Hne].
    + rewrite lookup_insert_eq. cbn [from_option id]. rewrite lookup_insert_ne by congruence. done.
    + by rewrite lookup_insert_ne by done.
Qed.

(** Checkpoints in ascending order are in order pairwise. *)
Lemma ascending_pairwise cs : ascending_checkpoints cs = true ->
  forall i j c d, (i < j)%nat -> cs !! i = Some c -> cs !! j = Some d -> instant (CreatedAt (signed c)) <= instant (CreatedAt (signed d)).
Proof.
  induction cs as [|a cs IH]; intros Ha [|i] [|j] c d Hij Hi Hj; try done; try lia; cbn in Hi, Hj.
  - injection Hi as ->. destruct cs as [|b cs]; [done|]. cbn [ascending_checkpoints] in Ha.
    rewrite !andb_true_iff, negb_true_iff, before_false in Ha. destruct Ha as [[_ Hab] Hrest]. destruct j as [|j].
    + injection Hj as ->. done.
    + etrans; [exact Hab|]. apply (IH Hrest 0%nat (S j)); [lia | done | done].
  - assert (Hrest : ascending_checkpoints cs = true) by (destruct cs; [done|]; cbn [ascending_checkpoints] in Ha; bprop; done).
    apply (IH Hrest i j); [lia | done | done].
Qed.

Lemma Export_checkpoints db scope e keys : Export_ db scope = Ok (e, keys) -> Checkpoints e = shown_checkpoints db scope.
Proof. unfold Export_. intros He. go_inv He. done. Qed.

(** A checkpoint dated before an earlier one is never repaired.  The store
    signs a checkpoint at any instant within its key's validity, without looking
    at the tenant's earlier checkpoints, while [Verify] wants their times in
    order; rows are append-only, so once a later sequence carries an earlier
    time no call of the store leads to an export that verifies. *)
Theorem regressing_checkpoint_never_verifies (db db' : Database) (scope : string) (n m : Z) (x y : CheckpointRow)
    (Hx : checkpoints_of db scope !! n = Some x) (Hy : checkpoints_of db scope !! m = Some y)
    (Hnm : n < m) (Hback : before (cp_created_at y) (cp_created_at x) = true) (Hlater : rtc any_step db db') :
  forall e keys, Export_ db' scope = Ok (e, keys) -> is_ok (Verify e keys) = false.
Proof.
  intros e keys He. assert (Hkept : checkpoints_of db' scope !! n = Some x /\ checkpoints_of db' scope !! m = Some y).
  { clear He. induction Hlater; [done|]. apply IHHlater; by eapply checkpoint_row_kept. }
  destruct Hkept as [Hx' Hy']. clear Hx Hy. apply Export_checkpoints in He.
  apply elem_of_checkpoint_rows, list_elem_of_lookup in Hx' as [i Hi]. apply elem_of_checkpoint_rows, list_elem_of_lookup in Hy' as [j Hj].
  destruct (Verify e keys) eqn:Hv; [|done]. exfalso. unfold Verify in Hv. go_inv Hv. apply negb_false_iff in Hg2. rewrite He in Hg2.
  assert (Hsorted := order_by_sorted fst (map_to_list (checkpoints_of db' scope))). fold (checkpoint_rows db' scope) in Hsorted.
  assert (Hij : (i < j)%nat).
  { destruct (decide (i < j)%nat) as [?|Hge]; [done|]. exfalso. destruct (decide (i = j)) as [->|Hne]; [rewrite Hi in Hj; injection Hj as -> ->; lia|].
    pose proof (sorted_lookup Z.le _ Hsorted j i m n ltac:(lia)) as Hmn. rewrite !(list_lookup_fmap fst) in Hmn.
    rewrite Hi, Hj in Hmn. specialize (Hmn eq_refl eq_refl). lia. }
  unfold shown_checkpoints in Hg2.
  pose proof (ascending_pairwise _ Hg2 i j (shown_checkpoint scope n x) (shown_checkpoint scope m y) Hij) as Hp.
  rewrite !(list_lookup_fmap (fun row => shown_checkpoint scope row.1 row.2)), Hi, Hj in Hp. specialize (Hp eq_refl eq_refl).
  apply before_true in Hback. cbn in Hp. lia.
Qed.
End AuditSpec.
End AuditSpec.

(** ** Witnesses *)
Module AuditWitness.
Import AuditStore AuditInvariant AuditSpec.

(** A toy scheme: the digest and the signature tag repeat the sum of the bytes. *)
Fixpoint byte_sum (s : string) : N :=
  match s with EmptyString => 0%N | String c rest => (N_of_ascii c + byte_sum rest)%N end.
Fixpoint repeated (c : ascii) (n : nat) : string :=
  match n with O => ""%string | S n => String c (repeated c n) end.
Definition prefix_of (n : nat) (s : string) : string := String.substring 0 n s.
Definition tag (m : string) : string := repeated (ascii_of_N (byte_sum m mod 256)) 32.

Lemma repeated_length c n : slen (repeated c n) = Z.of_nat n.
Proof. induction n as [|n IH]; [done|]. unfold slen in *. cbn [repeated String.length]. lia. Qed.

Lemma prefix_of_length n : forall s, (n <= String.length s)%nat -> String.length (prefix_of n s) = n.
Proof.
  unfold prefix_of. induction n as [|n IH]; intros [|c s] Hn; cbn in *; try done; try lia. rewrite IH; lia.
Qed.

Definition public_of (k : string) : string := prefix_of 32 k.

Definition toy_digest (s : string) : string := hex_encode (tag s).
Definition toy_sign (k m : string) : string := public_of k +:+ tag m.

Lemma toy_digest_form s : is_hex_digest (toy_digest s) = true.
Proof.
  unfold is_hex_digest, toy_digest, tag. by rewrite hex_encode_length, repeated_length, hex_encode_digits.
Qed.

Lemma toy_key_size k : (slen k =? 64) = true -> slen k = 64 /\ slen (public_of k) = 32.
Proof. intros Hk. bprop. split; [done|]. unfold public_of, slen in *. rewrite prefix_of_length; lia. Qed.

Lemma toy_sign_size k m : (slen k =? 64) = true -> slen (toy_sign k m) = 64.
Proof. intros Hk. unfold toy_sign, tag. rewrite slen_app, repeated_length. destruct (toy_key_size k Hk) as [_ ->]. done. Qed.

#[local] Instance toy_crypto : AuditCrypto.
Proof.
  refine {|
  sha256_hex := toy_digest;
  record_json b := Some (decimal (Sequence b) +:+ EventID b +:+ EventType b +:+ AggregateID b +:+ ActorID b +:+
                         decimal (instant (OccurredAt b)) +:+ EventDigest b +:+ PreviousHash b);
  checkpoint_json c := Some (TenantID c +:+ decimal (ThroughSequence c) +:+ ChainHash c +:+ KeyID c +:+ decimal (instant (CreatedAt c)));
  ed25519_key k := slen k =? 64;
  ed25519_public := public_of;
  ed25519_sign := toy_sign;
  ed25519_verify p m s := String.eqb s (p +:+ tag m);
  sha256_hex_digest := toy_digest_form; ed25519_key_size := toy_key_size; ed25519_sign_size := toy_sign_size |}.
  intros k m _. apply String.eqb_refl.
Defined.

Definition key64 : string := repeated "k" 64.
Definition at_hour (n : Z) : Time := mk_time (n * hour) true.
Definition digest_a : string := repeated "a" 64.
Definition start : Database := empty_database {[ "ten_1"%string ]}.
Definition ok_db {A : Type} (r : result Error (Database * A)) : Database := match r with Ok (db, _) => db | Err _ => start end.
Definition appended (db : Database) (event : string) : Database :=
  ok_db (AppendInTransaction db "ten_1" event "verification.created" "ver_1" "actor_1" digest_a (at_hour 2)).
Definition signed_at (db : Database) (t : Time) : Database := ok_db (Checkpoint_ db "ten_1" "audit_key" key64 t).
Definition keyed : Database := match RegisterKey start "audit_key" (public_of key64) (at_hour 1) with Ok db => db | Err _ => start end.
Definition chained : Database := appended (appended keyed "evt_1") "evt_2".
Definition checked : Database := signed_at chained (at_hour 3).
Definition regressed : Database := signed_at (appended checked "evt_3") (at_hour 2).

Lemma step_ok {A : Type} (r : result Error (Database * A)) : is_ok r = true -> exists a, r = Ok (ok_db r, a).
Proof. destruct r as [[db a]|]; [|done]. intros _. by exists a. Qed.

Lemma checked_reachable : rtc store_step start checked.
Proof.
  apply (rtc_l _ _ keyed). { refine (step_register start "audit_key" (public_of key64) (at_hour 1) keyed _). vm_compute. reflexivity. }
  apply (rtc_l _ _ (appended keyed "evt_1")).
  { destruct (step_ok (AppendInTransaction keyed "ten_1" "evt_1" "verification.created" "ver_1" "actor_1" digest_a (at_hour 2))) as [r Hr];
      [by vm_compute|]. eapply step_append; exact Hr. }
  apply (rtc_l _ _ chained).
  { destruct (step_ok (AppendInTransaction (appended keyed "evt_1") "ten_1" "evt_2" "verification.created" "ver_1" "actor_1" digest_a (at_hour 2)))
      as [r Hr]; [by vm_compute|]. eapply step_append; exact Hr. }
  apply rtc_once. destruct (step_ok (Checkpoint_ chained "ten_1" "audit_key" key64 (at_hour 3))) as [c Hc]; [by vm_compute|].
  eapply step_checkpoint; [exact Hc | done |]. split; [by vm_compute|]. intros n row Hrow.
  assert (Hnone : checkpoints_of chained "ten_1" = ∅) by (by vm_compute). rewrite Hnone, lookup_empty in Hrow. discriminate Hrow.
Qed.

Lemma exported_chain_verifies_witness :
  exists e keys report, Export_ checked "ten_1" = Ok (e, keys) /\ Verify e keys = Ok report /\ R_Records report = 2.
Proof.
  assert (Hr : Z.of_nat (size (records_of checked "ten_1")) = 2) by (by vm_compute).
  assert (Hc : Z.of_nat (size (checkpoints_of checked "ten_1")) = 1) by (by vm_compute).
  destruct (exported_chain_verifies {[ "ten_1"%string ]} checked "ten_1" checked_reachable) as (e & keys & report & He & Hv & _ & Hn & _);
    [discriminate | lia | lia |].
  exists e, keys, report. rewrite Hn, Hr. split; [exact He | split; [exact Hv | reflexivity]].
Defined.

Definition exported (db : Database) : Export * gmap string string :=
  match Export_ db "ten_1" with Ok e => e | Err _ => (mk_export 0 "" [] [], ∅) end.
Definition checked_export : Export := (exported checked).1.
Definition later_export : Export := (exported (appended checked "evt_3")).1.
Definition exported_keys : gmap string string := (exported checked).2.
Definition no_checkpoint : Checkpoint := mk_checkpoint (mk_checkpoint_body "" 0 "" "" zero_time) "".
Definition only_checkpoint : Checkpoint := default no_checkpoint (Checkpoints checked_export !! 0%nat).
Definition report_of (e : Export) : Report :=
  match Verify e exported_keys with Ok r => r | Err _ => mk_report "" 0 0 0 "" end.


(** A database the store reaches in which no export verifies any more. *)
Lemma regressing_checkpoint_never_verifies_witness :
  rtc any_step checked regressed /\ is_ok (Verify (exported regressed).1 (exported regressed).2) = false.
Proof.
  split.
  - apply (rtc_l _ _ (appended checked "evt_3")).
    + destruct (step_ok (AppendInTransaction checked "ten_1" "evt_3" "verification.created" "ver_1" "actor_1" digest_a (at_hour 2)))
        as [r Hr]; [vm_compute; reflexivity|]. eapply any_append. exact Hr.
    + apply rtc_once. destruct (step_ok (Checkpoint_ (appended checked "evt_3") "ten_1" "audit_key" key64 (at_hour 2))) as [c Hc];
        [vm_compute; reflexivity|]. eapply any_checkpoint. exact Hc.
  - assert (He : Export_ regressed "ten_1" = Ok ((exported regressed).1, (exported regressed).2)) by (vm_compute; reflexivity).
    assert (Hx : is_Some (checkpoints_of regressed "ten_1" !! 2)) by (vm_compute; by eexists).
    assert (Hy : is_Some (checkpoints_of regressed "ten_1" !! 3)) by (vm_compute; by eexists).
    assert (Hback : (y ← checkpoints_of regressed "ten_1" !! 3; x ← checkpoints_of regressed "ten_1" !! 2;
      Some (before (cp_created_at y) (cp_created_at x))) = Some true) by (vm_compute; reflexivity).
    destruct Hx as [x Hx], Hy as [y Hy]. rewrite Hx, Hy in Hback. cbn in Hback. injection Hback as Hback.
    apply (regressing_checkpoint_never_verifies regressed regressed "ten_1" 2 3 x y Hx Hy); [reflexivity | exact Hback | apply rtc_refl | exact He].
Defined.
End AuditWitness.
