(* ===== verification/Mrz.v ===== *)
(** * Machine-readable zones

    [internal/document/mrz/mrz.go]: the ICAO 9303 check digit, the three zone
    layouts and the resolution of two-digit dates at a reference instant.

    A slice or an index out of range is [None], a panic; [Parse] is shown to have
    none.  [strings.ToUpper] and the classes of [unicode] are the class
    [UnicodeTables]: upper case is known for ASCII text, and nothing is assumed
    of the rest.  [strings.Fields] and [strings.TrimSpace] are only applied to
    normalised text, which is ASCII, and are modelled there. *)

From S2P Require Import Prelude GoTime.
From Stdlib Require Import Ascii.

Class UnicodeTables := {
  to_upper : string -> string;
  rune_upper : Z -> Z;
  rune_mark : Z -> bool;
  rune_separator : Z -> bool;
}.

Inductive Format := TD1 | TD2 | TD3.
#[export] Instance Format_eq_dec : EqDecision Format. Proof. solve_decision. Defined.

Inductive IssueCode := IssueLengthInvalid | IssueCharacterInvalid | IssueCheckDigitInvalid | IssueCompositeInvalid | IssueDateAbsent |
  IssueDateInvalid | IssueDateUnresolved | IssueNameAbsent | IssueDocumentNumberAbsent | IssueCountryInvalid | IssueSexInvalid.
#[export] Instance IssueCode_eq_dec : EqDecision IssueCode. Proof. solve_decision. Defined.

Inductive FieldLabel := FieldZone | FieldDocumentNumber | FieldDateOfBirth | FieldDateOfExpiry | FieldPersonalNumber | FieldComposite |
  FieldIssuingState | FieldNationality | FieldSex | FieldName.
#[export] Instance FieldLabel_eq_dec : EqDecision FieldLabel. Proof. solve_decision. Defined.

Inductive Error := ErrUnparsable.

Definition td1Length : Z := 30.
Definition td2Length : Z := 36.
Definition td3Length : Z := 44.
Definition maximumIssues : Z := 32.
Definition maximumAge : Z := 120.

Record Issue := mk_issue { Code : IssueCode; Field : FieldLabel }.
#[export] Instance Issue_eq_dec : EqDecision Issue. Proof. solve_decision. Defined.
Record Date := mk_date { Valid : bool; Value : Time }.
Record Name := mk_name { Primary : string; Secondary : string }.
Record Zone := mk_zone {
  Format_ : Format;
  DocumentCode : string;
  IssuingState : string;
  DocumentNumber : string;
  Nationality : string;
  Sex : string;
  PersonalNumber : string;
  DateOfBirth : Date;
  DateOfExpiry : Date;
  Name_ : Name;
  Issues : list Issue;
}.

Definition no_date : Date := mk_date false zero_time.

(** ** Check digits *)

Definition char_value (c : ascii) : option Z :=
  if Ascii.eqb c "<" then Some 0
  else if is_digit c then Some (Z.of_N (N_of_ascii c) - 48)
  else if is_upper c then Some (Z.of_N (N_of_ascii c) - 65 + 10)
  else None.

Definition weight (index : nat) : Z := match (index mod 3)%nat with O => 7 | S O => 3 | _ => 1 end.

Fixpoint digit_sum (index : nat) (value : string) : option Z :=
  match value with
  | EmptyString => Some 0
  | String c rest =>
      digit ← char_value c; sum ← digit_sum (S index) rest; Some (digit * weight index + sum)
  end.

Definition CheckDigit (value : string) : option ascii :=
  sum ← digit_sum 0 value; Some (digit_char (Z.to_N (sum mod 10))).

(** ** Issues *)

Definition appendIssue (issues : list Issue) (issue : Issue) : list Issue :=
  if maximumIssues <=? llen issues then issues
  else if bool_decide (issue ∈ issues) then issues
  else issues ++ [issue].

Definition appendIssues (issues extra : list Issue) : list Issue := fold_left appendIssue extra issues.

(** ** Text *)

(** [s[lo:hi]] and [s[i]]. *)
Definition slice (s : string) (lo hi : nat) : option string :=
  if ((lo <=? hi) && (hi <=? String.length s))%nat then Some (String.substring lo (hi - lo) s) else None.
Definition byte_at (s : string) (i : nat) : option ascii := String.get i s.

Fixpoint string_map (f : ascii -> ascii) (s : string) : string :=
  match s with EmptyString => EmptyString | String c rest => String (f c) (string_map f rest) end.
Fixpoint string_filter (p : ascii -> bool) (s : string) : string :=
  match s with EmptyString => EmptyString | String c rest => if p c then String c (string_filter p rest) else string_filter p rest end.

(** [strings.TrimRight] with a set of bytes, [strings.TrimLeft] likewise. *)
Fixpoint trim_right (p : ascii -> bool) (s : string) : string :=
  match s with
  | EmptyString => EmptyString
  | String c rest =>
      match trim_right p rest with
      | EmptyString => if p c then EmptyString else String c EmptyString
      | rest' => String c rest'
      end
  end.
Fixpoint trim_left (p : ascii -> bool) (s : string) : string :=
  match s with EmptyString => EmptyString | String c rest => if p c then trim_left p rest else s end.

Definition is_space (c : ascii) : bool := Ascii.eqb c " " || byte_in "009" "013" c.
Definition TrimSpace (s : string) : string := trim_left is_space (trim_right is_space s).
Definition is_filler (c : ascii) : bool := Ascii.eqb c "<".

(** [strings.Fields] joined by single spaces: [word] is the field being read. *)
Fixpoint join_fields (started : bool) (pending : bool) (s : string) : string :=
  match s with
  | EmptyString => EmptyString
  | String c rest =>
      if is_space c then join_fields started started rest
      else if pending then String " " (String c (join_fields true false rest))
      else String c (join_fields true false rest)
  end.

(** [strings.Cut(raw, "<<")]. *)
Fixpoint cut_fillers (raw : string) : option (string * string) :=
  match raw with
  | String a ((String b rest) as tail) =>
      if is_filler a && is_filler b then Some (EmptyString, rest)
      else '(before, after) ← cut_fillers tail; Some (String a before, after)
  | _ => None
  end.

Definition validCharacter (c : ascii) : bool := is_filler c || is_digit c || is_upper c.
Definition letters (value : string) : bool := string_forall is_upper value.
Definition allFillers (value : string) : bool := String.eqb (trim_left is_filler (trim_right is_filler value)) "".
Definition allDigits (value : string) : bool := negb (String.eqb value "") && string_forall is_digit value.
Definition cleanField (raw : string) : string := TrimSpace (string_filter (fun c => negb (is_filler c)) raw).
Definition cleanNamePart (raw : string) : string :=
  join_fields false false (string_map (fun c => if is_filler c then " "%char else c) raw).

(** ** Normalisation and layout *)

Fixpoint clean_issues (upper : string) (issues : list Issue) : list Issue :=
  match upper with
  | EmptyString => issues
  | String c rest =>
      clean_issues rest (if validCharacter c then issues else appendIssue issues (mk_issue IssueCharacterInvalid FieldZone))
  end.

Definition clean_line (upper : string) : string := string_map (fun c => if validCharacter c then c else "<"%char) upper.

Definition trimmed (line : string) : string := trim_right (fun c => Ascii.eqb c " " || Ascii.eqb c "009") line.

Definition normaliseLines `{UnicodeTables} (lines : list string) : list string * list Issue :=
  let upper := map (fun line => to_upper (trimmed line)) lines in
  (map clean_line upper, fold_left (fun issues line => clean_issues line issues) upper []).

Definition detectFormat (lines : list string) : option Format :=
  match lines with
  | [a; b; c] => if (slen a =? td1Length) && (slen b =? td1Length) && (slen c =? td1Length) then Some TD1 else None
  | [a; b] =>
      if (slen a =? td2Length) && (slen b =? td2Length) then Some TD2
      else if (slen a =? td3Length) && (slen b =? td3Length) then Some TD3 else None
  | _ => None
  end.

(** ** Fields *)

Definition verifyField (raw : string) (expected : ascii) (label : FieldLabel) (issues : list Issue) : list Issue :=
  match CheckDigit raw with
  | Some computed =>
      if Ascii.eqb expected computed || (allFillers raw && is_filler expected) then issues
      else appendIssue issues (mk_issue IssueCheckDigitInvalid label)
  | None => appendIssue issues (mk_issue IssueCheckDigitInvalid label)
  end.

Definition verifyComposite (raw : string) (expected : ascii) (issues : list Issue) : list Issue :=
  match CheckDigit raw with
  | Some computed => if Ascii.eqb expected computed then issues else appendIssue issues (mk_issue IssueCompositeInvalid FieldComposite)
  | None => appendIssue issues (mk_issue IssueCompositeInvalid FieldComposite)
  end.

Inductive dateKind := dateOfBirthKind | dateOfExpiryKind.

Definition calendarValid (candidate : Time) (m d : Z) : bool := (month candidate =? m) && (day candidate =? d).

Definition ageAt (birth now : Time) : Z :=
  let years := year now - year birth in
  if (month now <? month birth) || ((month now =? month birth) && (day now <? day birth)) then years - 1 else years.

(** [strconv.Atoi] of two digits. *)
Definition two_digits (raw : string) (i : nat) : Z :=
  match byte_at raw i, byte_at raw (S i) with
  | Some a, Some b => 10 * (Z.of_N (N_of_ascii a) - 48) + (Z.of_N (N_of_ascii b) - 48)
  | _, _ => 0
  end.

Definition latest_birth (reference : Time) (candidates : list Time) : Time :=
  fold_left (fun resolved candidate =>
    if after candidate reference || (maximumAge <? ageAt candidate reference) then resolved else candidate) candidates zero_time.

(** The magnitude of [reference.Sub(candidate)], whose negation may overflow. *)
Definition distance_to (reference candidate : Time) : Z :=
  let distance := sub reference candidate in if distance <? 0 then wrap_int64 (- distance) else distance.

Definition nearest (reference : Time) (candidates : list Time) : Time * Z :=
  fold_left (fun '(best, bestDistance) candidate =>
    let distance := distance_to reference candidate in
    if distance <? bestDistance then (candidate, distance) else (best, bestDistance)) candidates (zero_time, max_int64).

Definition maximum_distance : Z := 100 * 365 * day_ns.

Definition resolve (raw : string) (kind : dateKind) (reference : Time) (issues : list Issue) : Date * list Issue :=
  let label := match kind with dateOfBirthKind => FieldDateOfBirth | dateOfExpiryKind => FieldDateOfExpiry end in
  let refuse code := (no_date, appendIssue issues (mk_issue code label)) in
  if allFillers raw then refuse IssueDateAbsent
  else if negb (allDigits raw) then refuse IssueDateInvalid
  else if is_zero reference then refuse IssueDateUnresolved
  else
    let y := two_digits raw 0 in
    let m := two_digits raw 2 in
    let d := two_digits raw 4 in
    if (m <? 1) || (12 <? m) || (d <? 1) || (31 <? d) then refuse IssueDateInvalid
    else
      let candidates := List.filter (fun c => calendarValid c m d) [date (1900 + y) m d; date (2000 + y) m d] in
      match candidates, kind with
      | [], _ => refuse IssueDateInvalid
      | _, dateOfBirthKind =>
          let resolved := latest_birth reference candidates in
          if is_zero resolved then refuse IssueDateUnresolved else (mk_date true resolved, issues)
      | _, dateOfExpiryKind =>
          let '(best, bestDistance) := nearest reference candidates in
          if is_zero best || (maximum_distance <? bestDistance) then refuse IssueDateUnresolved else (mk_date true best, issues)
      end.

Definition parseName (raw : string) (issues : list Issue) : Name * list Issue :=
  let '(primary, secondary) := default (raw, ""%string) (cut_fillers raw) in
  let name := mk_name (cleanNamePart primary) (cleanNamePart secondary) in
  (name, if String.eqb (Primary name) "" && String.eqb (Secondary name) "" then appendIssue issues (mk_issue IssueNameAbsent FieldName) else issues).

Definition parseSex (raw : ascii) (issues : list Issue) : string * list Issue :=
  if Ascii.eqb raw "M" || Ascii.eqb raw "F" then (String raw "", issues)
  else if is_filler raw then (""%string, issues)
  else (""%string, appendIssue issues (mk_issue IssueSexInvalid FieldSex)).

Definition parseCountry (raw : string) (label : FieldLabel) (issues : list Issue) : string * list Issue :=
  let value := cleanField raw in
  if String.eqb value "" then (""%string, issues)
  else if (3 <? slen value) || negb (letters value) then (""%string, appendIssue issues (mk_issue IssueCountryInvalid label))
  else (value, issues).

Definition cleanDocumentNumber (raw : string) (issues : list Issue) : string * list Issue :=
  let value := cleanField raw in
  (value, if String.eqb value "" then appendIssue issues (mk_issue IssueDocumentNumberAbsent FieldDocumentNumber) else issues).

Definition parseTD1 (line1 line2 line3 : string) (reference : Time) (issues : list Issue) : option Zone :=
  code ← slice line1 0 2;
  state ← slice line1 2 5;
  let '(issuingState, issues) := parseCountry state FieldIssuingState issues in
  documentNumber ← slice line1 5 14;
  numberDigit ← byte_at line1 14;
  let issues := verifyField documentNumber numberDigit FieldDocumentNumber issues in
  let '(number, issues) := cleanDocumentNumber documentNumber issues in
  dateOfBirth ← slice line2 0 6;
  birthDigit ← byte_at line2 6;
  let issues := verifyField dateOfBirth birthDigit FieldDateOfBirth issues in
  let '(birth, issues) := resolve dateOfBirth dateOfBirthKind reference issues in
  sex ← byte_at line2 7;
  let '(sex, issues) := parseSex sex issues in
  dateOfExpiry ← slice line2 8 14;
  expiryDigit ← byte_at line2 14;
  let issues := verifyField dateOfExpiry expiryDigit FieldDateOfExpiry issues in
  let '(expiry, issues) := resolve dateOfExpiry dateOfExpiryKind reference issues in
  nation ← slice line2 15 18;
  let '(nationality, issues) := parseCountry nation FieldNationality issues in
  c1 ← slice line1 5 30; c2 ← slice line2 0 7; c3 ← slice line2 8 15; c4 ← slice line2 18 29;
  compositeDigit ← byte_at line2 29;
  let issues := verifyComposite (c1 +:+ c2 +:+ c3 +:+ c4) compositeDigit issues in
  let '(name, issues) := parseName line3 issues in
  Some (mk_zone TD1 (cleanField code) issuingState number nationality sex "" birth expiry name issues).

Definition parseTD2 (line1 line2 : string) (reference : Time) (issues : list Issue) : option Zone :=
  code ← slice line1 0 2;
  state ← slice line1 2 5;
  let '(issuingState, issues) := parseCountry state FieldIssuingState issues in
  documentNumber ← slice line2 0 9;
  numberDigit ← byte_at line2 9;
  let issues := verifyField documentNumber numberDigit FieldDocumentNumber issues in
  let '(number, issues) := cleanDocumentNumber documentNumber issues in
  nation ← slice line2 10 13;
  let '(nationality, issues) := parseCountry nation FieldNationality issues in
  dateOfBirth ← slice line2 13 19;
  birthDigit ← byte_at line2 19;
  let issues := verifyField dateOfBirth birthDigit FieldDateOfBirth issues in
  let '(birth, issues) := resolve dateOfBirth dateOfBirthKind reference issues in
  sex ← byte_at line2 20;
  let '(sex, issues) := parseSex sex issues in
  dateOfExpiry ← slice line2 21 27;
  expiryDigit ← byte_at line2 27;
  let issues := verifyField dateOfExpiry expiryDigit FieldDateOfExpiry issues in
  let '(expiry, issues) := resolve dateOfExpiry dateOfExpiryKind reference issues in
  c1 ← slice line2 0 10; c2 ← slice line2 13 20; c3 ← slice line2 21 28; c4 ← slice line2 28 35;
  compositeDigit ← byte_at line2 35;
  let issues := verifyComposite (c1 +:+ c2 +:+ c3 +:+ c4) compositeDigit issues in
  names ← slice line1 5 36;
  let '(name, issues) := parseName names issues in
  Some (mk_zone TD2 (cleanField code) issuingState number nationality sex "" birth expiry name issues).

Definition parseTD3 (line1 line2 : string) (reference : Time) (issues : list Issue) : option Zone :=
  code ← slice line1 0 2;
  state ← slice line1 2 5;
  let '(issuingState, issues) := parseCountry state FieldIssuingState issues in
  documentNumber ← slice line2 0 9;
  numberDigit ← byte_at line2 9;
  let issues := verifyField documentNumber numberDigit FieldDocumentNumber issues in
  let '(number, issues) := cleanDocumentNumber documentNumber issues in
  nation ← slice line2 10 13;
  let '(nationality, issues) := parseCountry nation FieldNationality issues in
  dateOfBirth ← slice line2 13 19;
  birthDigit ← byte_at line2 19;
  let issues := verifyField dateOfBirth birthDigit FieldDateOfBirth issues in
  let '(birth, issues) := resolve dateOfBirth dateOfBirthKind reference issues in
  sex ← byte_at line2 20;
  let '(sex, issues) := parseSex sex issues in
  dateOfExpiry ← slice line2 21 27;
  expiryDigit ← byte_at line2 27;
  let issues := verifyField dateOfExpiry expiryDigit FieldDateOfExpiry issues in
  let '(expiry, issues) := resolve dateOfExpiry dateOfExpiryKind reference issues in
  personalNumber ← slice line2 28 42;
  personalDigit ← byte_at line2 42;
  let issues := verifyField personalNumber personalDigit FieldPersonalNumber issues in
  c1 ← slice line2 0 10; c2 ← slice line2 13 20; c3 ← slice line2 21 28; c4 ← slice line2 28 43;
  compositeDigit ← byte_at line2 43;
  let issues := verifyComposite (c1 +:+ c2 +:+ c3 +:+ c4) compositeDigit issues in
  names ← slice line1 5 44;
  let '(name, issues) := parseName names issues in
  Some (mk_zone TD3 (cleanField code) issuingState number nationality sex (cleanField personalNumber) birth expiry name issues).

(** [Parse]: the outer option is a panic; the issues of an error are those of
    the layout and the normalisation, those of a zone are its own. *)
Definition Parse `{UnicodeTables} (lines : list string) (reference : Time) : option (result (Error * list Issue) (Zone * list Issue)) :=
  let '(normalised, normalisationIssues) := normaliseLines lines in
  let reference := utc reference in
  let issues := appendIssues [] normalisationIssues in
  let done zone := Some (Ok (zone, Issues zone)) in
  match detectFormat normalised, normalised with
  | None, _ => Some (Err (ErrUnparsable, appendIssues [mk_issue IssueLengthInvalid FieldZone] normalisationIssues))
  | Some TD1, [line1; line2; line3] => zone ← parseTD1 line1 line2 line3 reference issues; done zone
  | Some TD2, line1 :: line2 :: _ => zone ← parseTD2 line1 line2 reference issues; done zone
  | Some TD3, line1 :: line2 :: _ => zone ← parseTD3 line1 line2 reference issues; done zone
  | _, _ => None
  end.

Definition zone_valid (zone : Zone) : bool := llen (Issues zone) =? 0.

(** ** Transliteration

    A text is the sequence of its runes. *)
Definition transliteration : list (Z * string) := [
  (198, "AE"); (338, "OE"); (223, "SS"); (222, "TH"); (197, "AA"); (196, "AE"); (214, "OE"); (220, "UE"); (216, "OE"); (208, "D"); (209, "N");
  (199, "C"); (201, "E"); (200, "E"); (202, "E"); (203, "E"); (193, "A"); (192, "A"); (194, "A"); (195, "A");
  (205, "I"); (204, "I"); (206, "I"); (207, "I"); (211, "O"); (210, "O"); (212, "O"); (213, "O");
  (218, "U"); (217, "U"); (219, "U"); (221, "Y"); (376, "Y"); (352, "S"); (381, "Z"); (321, "L"); (262, "C"); (268, "C"); (272, "D")]%string.

Definition transliterate_rune `{UnicodeTables} (rune : Z) : option string :=
  let upper := rune_upper rune in
  match List.find (fun entry => entry.1 =? upper) transliteration with
  | Some (_, mapped) => Some mapped
  | None =>
      if ((65 <=? upper) && (upper <=? 90)) || ((48 <=? upper) && (upper <=? 57)) || (upper =? 60) then
        Some (String (ascii_of_N (Z.to_N upper)) "")
      else if (upper =? 39) || (upper =? 8217) || (upper =? 700) then Some ""%string
      else if rune_mark upper then Some ""%string
      else if rune_separator upper then Some "<"%string
      else None
  end.

Fixpoint Transliterate `{UnicodeTables} (value : list Z) : option string :=
  match value with
  | [] => Some ""%string
  | rune :: rest => mapped ← transliterate_rune rune; tail ← Transliterate rest; Some (mapped +:+ tail)
  end.

(** ** Check digits detect errors *)

Lemma digit_sum_app s : forall i t, digit_sum i (s +:+ t) = (a ← digit_sum i s; b ← digit_sum (i + String.length s) t; Some (a + b)).
Proof.
  induction s as [|c s IH]; intros i t.
  - change ("" +:+ t) with t. cbn. rewrite Nat.add_0_r. by destruct (digit_sum i t).
  - change (String c s +:+ t) with (String c (s +:+ t)). cbn [digit_sum String.length]. destruct (char_value c); cbn; [|done].
    rewrite IH. replace (S i + String.length s)%nat with (i + S (String.length s))%nat by lia.
    destruct (digit_sum (S i) s); cbn; [|done]. destruct (digit_sum _ t); cbn; [f_equal; lia | done].
Qed.

Lemma weight_cases i : weight i = 7 \/ weight i = 3 \/ weight i = 1.
Proof. unfold weight. destruct (i mod 3)%nat as [|[|]]; auto. Qed.

Lemma weight_step i :
  (weight i = 7 /\ weight (S i) = 3) \/ (weight i = 3 /\ weight (S i) = 1) \/ (weight i = 1 /\ weight (S i) = 7).
Proof.
  unfold weight. pose proof (Nat.div_mod_eq i 3). pose proof (Nat.mod_upper_bound i 3 ltac:(lia)).
  assert (Hs : (S i mod 3 = match i mod 3 with 0 => 1 | 1 => 2 | _ => 0 end)%nat).
  { replace (S i) with (i mod 3 + 1 + (i / 3) * 3)%nat by lia. rewrite Nat.Div0.mod_add. destruct (i mod 3)%nat as [|[|[|]]]; [done..|lia]. }
  rewrite Hs. destruct (i mod 3)%nat as [|[|[|]]]; auto; lia.
Qed.

Lemma digit_char_inj a b : 0 <= a < 10 -> 0 <= b < 10 -> digit_char (Z.to_N a) = digit_char (Z.to_N b) <-> a = b.
Proof.
  intros Ha Hb. split; [|by intros ->]. unfold digit_char. intros Heq. apply (f_equal N_of_ascii) in Heq.
  rewrite !N_ascii_embedding in Heq by lia. lia.
Qed.

(** Two texts have one check digit iff their sums agree modulo ten. *)
Lemma CheckDigit_same s t x y :
  digit_sum 0 s = Some x -> digit_sum 0 t = Some y -> CheckDigit s = CheckDigit t <-> (x - y) mod 10 = 0.
Proof.
  intros Hx Hy. unfold CheckDigit. rewrite Hx, Hy. cbn.
  pose proof (Z.mod_pos_bound x 10 eq_refl). pose proof (Z.mod_pos_bound y 10 eq_refl). split.
  - intros [= Heq]. apply digit_char_inj in Heq; [|lia|lia]. Z.to_euclidean_division_equations. lia.
  - intros Heq. assert (x mod 10 = y mod 10) as -> by (Z.to_euclidean_division_equations; lia). done.
Qed.

Lemma CheckDigit_sum s c : CheckDigit s = Some c -> exists x, digit_sum 0 s = Some x.
Proof. unfold CheckDigit. destruct (digit_sum 0 s) as [x|]; [by exists x | done]. Qed.

(** A digit is a digit. *)
Lemma CheckDigit_digit s c : CheckDigit s = Some c -> is_digit c = true.
Proof.
  intros Hc. destruct (CheckDigit_sum _ _ Hc) as [x Hx]. unfold CheckDigit in Hc. rewrite Hx in Hc. injection Hc as <-.
  apply digit_char_digit. pose proof (Z.mod_pos_bound x 10 eq_refl). lia.
Qed.

Lemma char_value_valid c : validCharacter c = true <-> is_Some (char_value c).
Proof.
  unfold validCharacter, char_value, is_filler. destruct (Ascii.eqb c "<"), (is_digit c), (is_upper c); cbn; split; try done; by eexists.
Qed.

Lemma digit_sum_valid s : forall i, string_forall validCharacter s = true <-> is_Some (digit_sum i s).
Proof.
  induction s as [|c s IH]; intros i; cbn [string_forall digit_sum]; [split; [by eexists | done]|].
  rewrite andb_true_iff, char_value_valid, (IH (S i)). split.
  - intros [[x ->] [y ->]]. by eexists.
  - destruct (char_value c), (digit_sum (S i) s); cbn; try by intros [? ?].
Qed.

Lemma CheckDigit_valid s : string_forall validCharacter s = true <-> is_Some (CheckDigit s).
Proof. rewrite (digit_sum_valid s 0). unfold CheckDigit. destruct (digit_sum 0 s) as [x|]; cbn; [split; intros _; by eexists | split; by intros [? ?]]. Qed.

(** The sums of two texts that differ in one character. *)
Lemma digit_sum_substitution pre post a b da db x :
  char_value a = Some da -> char_value b = Some db -> digit_sum 0 (pre +:+ String a post) = Some x ->
  digit_sum 0 (pre +:+ String b post) = Some (x - (da - db) * weight (String.length pre)).
Proof.
  intros Ha Hb. rewrite !digit_sum_app. destruct (digit_sum 0 pre) as [p|]; [|done]. cbn [mbind option_bind].
  cbn [digit_sum Nat.add]. rewrite Ha, Hb. cbn. destruct (digit_sum (S (String.length pre)) post) as [q|]; [|done]. cbn. intros [= <-]. f_equal. lia.
Qed.

Lemma digit_sum_transposition pre post a b da db x :
  char_value a = Some da -> char_value b = Some db -> digit_sum 0 (pre +:+ String a (String b post)) = Some x ->
  digit_sum 0 (pre +:+ String b (String a post)) = Some (x - (da - db) * (weight (String.length pre) - weight (S (String.length pre)))).
Proof.
  intros Ha Hb. rewrite !digit_sum_app. destruct (digit_sum 0 pre) as [p|]; [|done]. cbn [mbind option_bind].
  cbn [digit_sum Nat.add]. rewrite Ha, Hb. cbn. destruct (digit_sum (S (S (String.length pre))) post) as [q|]; [|done]. cbn. intros [= <-]. f_equal. lia.
Qed.

(** ** Issues *)

Lemma appendIssue_nil issues issue : appendIssue issues issue <> [].
Proof.
  unfold appendIssue. destruct (maximumIssues <=? llen issues) eqn:Hl; [by destruct issues|].
  destruct (bool_decide _) eqn:Hb; [|by destruct issues]. apply bool_decide_eq_true in Hb. by destruct issues; [apply not_elem_of_nil in Hb|].
Qed.

Definition issues_ok (issues : list Issue) : Prop := llen issues <= maximumIssues /\ NoDup issues.

Lemma appendIssue_ok issues issue : issues_ok issues -> issues_ok (appendIssue issues issue).
Proof.
  intros [Hl Hn]. unfold appendIssue. destruct (maximumIssues <=? llen issues) eqn:Hm; [done|]. bprop.
  case_bool_decide as Hin; [done|]. split.
  - rewrite llen_app. unfold llen at 2. cbn. lia.
  - apply NoDup_app. split_and!; [done | set_solver | apply NoDup_singleton].
Qed.

Lemma appendIssues_ok extra : forall issues, issues_ok issues -> issues_ok (appendIssues issues extra).
Proof. induction extra as [|x extra IH]; intros issues Hi; [done|]. cbn. by apply IH, appendIssue_ok. Qed.

Lemma appendIssues_grow extra : forall issues, appendIssues issues extra = [] -> issues = [] /\ extra = [].
Proof.
  induction extra as [|x extra IH]; intros issues Hi; [done|]. cbn in Hi. apply IH in Hi as [Hi _]. by apply appendIssue_nil in Hi.
Qed.

(** ** Slices *)

Definition piece (s : string) (lo hi : nat) : string := String.substring lo (hi - lo) s.
Definition byte (s : string) (i : nat) : ascii := default "<"%char (byte_at s i).

Lemma slice_piece s lo hi : (lo <= hi)%nat -> (hi <= String.length s)%nat -> slice s lo hi = Some (piece s lo hi).
Proof. intros H1 H2. unfold slice. by rewrite !(proj2 (Nat.leb_le _ _)) by done. Qed.

Lemma byte_at_byte s : forall i, (i < String.length s)%nat -> byte_at s i = Some (byte s i).
Proof.
  unfold byte. induction s as [|c s IH]; intros [|i] Hi; cbn in Hi; try lia; [done|]. cbn [byte_at String.get]. apply IH. lia.
Qed.

(** ** What a clean field is *)

(** A field and its check digit; a field of fillers may have a filler. *)
Definition field_checked (raw : string) (c : ascii) : Prop :=
  CheckDigit raw = Some c \/ (is_Some (CheckDigit raw) /\ allFillers raw = true /\ c = "<"%char).

(** The calendar date of a six-digit field, in one of two centuries. *)
Definition real_date (raw : string) (t : Time) : Prop :=
  exists century, (century = 1900 \/ century = 2000) /\
    let y := century + two_digits raw 0 in
    let m := two_digits raw 2 in
    let d := two_digits raw 4 in
    1 <= m <= 12 /\ 1 <= d <= days_in_month y m /\ t = date y m d.

(** The distance of an accepted expiry; the second case is the overflow of the
    negated duration, for a reference more than 292 years before the date. *)
Definition near (reference t : Time) : Prop :=
  Z.abs (instant reference - instant t) <= maximum_distance \/ instant reference - instant t <= min_int64.

Definition date_ok (kind : dateKind) (raw : string) (reference : Time) (d : Date) : Prop :=
  Valid d = true /\ real_date raw (Value d) /\
  match kind with
  | dateOfBirthKind => instant (Value d) <= instant reference /\ ageAt (Value d) reference <= maximumAge
  | dateOfExpiryKind => near reference (Value d)
  end.

Lemma verifyField_ok raw c label issues : issues_ok issues -> issues_ok (verifyField raw c label issues).
Proof. intros Hi. unfold verifyField. repeat case_match; eauto using appendIssue_ok. Qed.

Lemma verifyField_clean raw c label issues : verifyField raw c label issues = [] -> issues = [] /\ field_checked raw c.
Proof.
  unfold verifyField, field_checked. destruct (CheckDigit raw) as [computed|]; [|by intros ?%appendIssue_nil].
  destruct (_ || _) eqn:Hc; [|by intros ?%appendIssue_nil]. intros ->. split; [done|].
  apply orb_true_iff in Hc as [Hc|Hc]; [apply Ascii.eqb_eq in Hc; left; congruence|].
  apply andb_true_iff in Hc as [Ha Hf]. right. split_and!; [by eexists | done | by apply Ascii.eqb_eq].
Qed.

Lemma verifyComposite_ok raw c issues : issues_ok issues -> issues_ok (verifyComposite raw c issues).
Proof. intros Hi. unfold verifyComposite. repeat case_match; eauto using appendIssue_ok. Qed.

Lemma verifyComposite_clean raw c issues : verifyComposite raw c issues = [] -> issues = [] /\ CheckDigit raw = Some c.
Proof.
  unfold verifyComposite. destruct (CheckDigit raw) as [computed|]; [|by intros ?%appendIssue_nil].
  destruct (Ascii.eqb c computed) eqn:Hc; [|by intros ?%appendIssue_nil]. intros ->. apply Ascii.eqb_eq in Hc. by subst.
Qed.

Lemma parseCountry_spec raw label issues value issues' :
  parseCountry raw label issues = (value, issues') ->
  (issues_ok issues -> issues_ok issues') /\ (issues' = [] -> issues = []) /\ letters value = true /\ slen value <= 3.
Proof.
  unfold parseCountry. destruct (String.eqb _ "") eqn:He; [by intros [= <- <-]|].
  destruct (_ || _) eqn:Hv; intros [= <- <-]; split_and!; eauto using appendIssue_ok; try done; try by intros ?%appendIssue_nil.
  all: rewrite orb_false_iff, negb_false_iff in Hv; destruct Hv as [Hv1 Hv2]; bprop; done.
Qed.

Lemma cleanDocumentNumber_spec raw issues value issues' :
  cleanDocumentNumber raw issues = (value, issues') ->
  value = cleanField raw /\ (issues_ok issues -> issues_ok issues') /\ (issues' = [] -> issues = [] /\ value <> ""%string).
Proof.
  unfold cleanDocumentNumber. destruct (String.eqb _ "") eqn:He; intros [= <- <-]; split_and!; eauto using appendIssue_ok.
  - by intros ?%appendIssue_nil.
  - intros Hi. bprop. done.
Qed.

Lemma parseSex_spec raw issues value issues' :
  parseSex raw issues = (value, issues') -> (issues_ok issues -> issues_ok issues') /\ (issues' = [] -> issues = []).
Proof.
  unfold parseSex. destruct (_ || _); [by intros [= <- <-]|]. destruct (is_filler raw); intros [= <- <-]; split; eauto using appendIssue_ok.
  by intros ?%appendIssue_nil.
Qed.

Definition name_present (name : Name) : Prop := Primary name <> ""%string \/ Secondary name <> ""%string.

Lemma parseName_spec raw issues name issues' :
  parseName raw issues = (name, issues') ->
  (issues_ok issues -> issues_ok issues') /\ (issues' = [] -> issues = [] /\ name_present name).
Proof.
  unfold parseName. destruct (default _ _) as [primary secondary]. destruct (_ && _) eqn:He; intros [= <- <-]; split; eauto using appendIssue_ok.
  - by intros ?%appendIssue_nil.
  - intros ->. split; [done|]. unfold name_present. apply andb_false_iff in He as [He|He]; bprop; auto.
Qed.

(** ** Dates *)

Lemma latest_birth_spec reference candidates :
  let t := latest_birth reference candidates in
  t = zero_time \/ (t ∈ candidates /\ instant t <= instant reference /\ ageAt t reference <= maximumAge).
Proof.
  unfold latest_birth. cbv zeta. induction candidates as [|c l IH] using rev_ind; [by left|]. rewrite fold_left_app. cbn [fold_left].
  destruct (after c reference || _) eqn:Hc.
  - destruct IH as [->|(Hin & ?)]; [by left | right]. split; [set_solver | done].
  - rewrite orb_false_iff, after_false, Z.ltb_ge in Hc. right. split; [set_solver | done].
Qed.

Lemma nearest_spec reference candidates best bestDistance :
  nearest reference candidates = (best, bestDistance) ->
  best = zero_time \/ (best ∈ candidates /\ bestDistance = distance_to reference best).
Proof.
  revert best bestDistance. unfold nearest. induction candidates as [|c l IH] using rev_ind; intros best bestDistance; [intros [= <- <-]; by left|].
  rewrite fold_left_app. cbn [fold_left]. destruct (fold_left _ l _) as [b bd]. specialize (IH _ _ eq_refl).
  destruct (distance_to reference c <? bd); intros [= <- <-].
  - right. split; [set_solver | done].
  - destruct IH as [->|[Hin ->]]; [by left | right]. split; [set_solver | done].
Qed.

Lemma distance_near reference t : distance_to reference t <= maximum_distance -> near reference t.
Proof.
  unfold near, distance_to, sub, wrap_int64, min_int64, max_int64, maximum_distance, day_ns, hour, minute, second. cbv zeta.
  set (d := instant reference - instant t). destruct (Z.le_gt_cases d (-9223372036854775808)) as [?|?]; [by right|]. intros Hd. left.
  destruct (_ <? 0) eqn:Hneg; bprop; [|lia]. rewrite Z.mod_small in Hd by lia. lia.
Qed.

Lemma calendarValid_date y m d :
  1 <= m <= 12 -> 1 <= d <= 31 -> calendarValid (date y m d) m d = true -> d <= days_in_month y m.
Proof.
  intros Hm Hd Hc. destruct (Z.le_gt_cases d (days_in_month y m)) as [?|Hgt]; [done|]. exfalso.
  destruct (civil_date_overflow y m d Hm ltac:(lia)) as [?|?]; unfold calendarValid in Hc; bprop; lia.
Qed.

Lemma candidates_real raw t :
  let m := two_digits raw 2 in
  let d := two_digits raw 4 in
  (m <? 1) || (12 <? m) || (d <? 1) || (31 <? d) = false ->
  t ∈ List.filter (fun c => calendarValid c m d) [date (1900 + two_digits raw 0) m d; date (2000 + two_digits raw 0) m d] ->
  real_date raw t.
Proof.
  cbv zeta. intros Hr Hin. rewrite !orb_false_iff, !Z.ltb_ge in Hr. apply list_elem_of_In, filter_In in Hin as [Hin Hc].
  destruct Hin as [<-|[<-|[]]]; [exists 1900 | exists 2000]; split; auto; cbv zeta; apply calendarValid_date in Hc; split_and!; lia || done.
Qed.

Lemma resolve_spec raw kind reference issues d issues' :
  resolve raw kind reference issues = (d, issues') ->
  (issues_ok issues -> issues_ok issues') /\ (issues' = [] -> issues = [] /\ date_ok kind raw reference d).
Proof.
  unfold resolve. assert (Hrefuse : forall code label, (no_date, appendIssue issues (mk_issue code label)) = (d, issues') ->
    (issues_ok issues -> issues_ok issues') /\ (issues' = [] -> issues = [] /\ date_ok kind raw reference d)).
  { intros code label [= <- <-]. split; [apply appendIssue_ok | by intros ?%appendIssue_nil]. }
  destruct (allFillers raw); [apply Hrefuse|]. destruct (allDigits raw); [cbn [negb] | apply Hrefuse].
  destruct (is_zero reference); [apply Hrefuse|]. cbv zeta.
  destruct (_ || _) eqn:Hr; [apply Hrefuse|].
  generalize (fun t => candidates_real raw t Hr). cbv zeta.
  generalize (List.filter (fun c => calendarValid c (two_digits raw 2) (two_digits raw 4))
    [date (1900 + two_digits raw 0) (two_digits raw 2) (two_digits raw 4); date (2000 + two_digits raw 0) (two_digits raw 2) (two_digits raw 4)]).
  intros cs Hreal. destruct cs as [|c cs']; [apply Hrefuse|]. generalize dependent (c :: cs'). clear c cs'. intros cs Hreal. destruct kind.
  - pose proof (latest_birth_spec reference cs) as Hb. cbv zeta in Hb. destruct (is_zero _) eqn:Hz; [apply Hrefuse|].
    intros Heq. apply pair_equal_spec in Heq as [<- <-]. split; [done|]. intros ->. split; [done|].
    destruct Hb as [Hb|(Hin & Hb)]; [by rewrite Hb in Hz|]. split; [done|]. split; [by apply Hreal | apply Hb].
  - destruct (nearest _ _) as [best bestDistance] eqn:Hn. apply nearest_spec in Hn.
    destruct (is_zero best || (maximum_distance <? bestDistance)) eqn:Hz; [apply Hrefuse|].
    intros Heq. apply pair_equal_spec in Heq as [<- <-]. split; [done|]. intros ->. split; [done|].
    rewrite orb_false_iff, Z.ltb_ge in Hz. destruct Hz as [Hz Hd].
    destruct Hn as [->|[Hin ->]]; [done|]. split; [done|]. split; [by apply Hreal | by apply distance_near].
Qed.

(** ** The layouts of ICAO 9303

    A field is a line and the positions [lo] to [hi]; its check digit is at
    [hi].  The composite digit covers the concatenated segments. *)
Record Layout := mk_layout {
  number_field : nat * nat * nat;
  birth_field : nat * nat * nat;
  expiry_field : nat * nat * nat;
  personal_field : option (nat * nat * nat);
  composite_fields : list (nat * nat * nat);
  composite_digit : nat * nat;
}.

Definition layout (f : Format) : Layout :=
  match f with
  | TD1 => mk_layout (0, 5, 14) (1, 0, 6) (1, 8, 14) None [(0, 5, 30); (1, 0, 7); (1, 8, 15); (1, 18, 29)] (1, 29)
  | TD2 => mk_layout (1, 0, 9) (1, 13, 19) (1, 21, 27) None [(1, 0, 10); (1, 13, 20); (1, 21, 28); (1, 28, 35)] (1, 35)
  | TD3 => mk_layout (1, 0, 9) (1, 13, 19) (1, 21, 27) (Some (1, 28, 42)) [(1, 0, 10); (1, 13, 20); (1, 21, 28); (1, 28, 43)] (1, 43)
  end%nat.

Definition field_text (lines : list string) (f : nat * nat * nat) : string :=
  let '(l, lo, hi) := f in piece (default ""%string (lines !! l)) lo hi.
Definition field_digit (lines : list string) (f : nat * nat * nat) : ascii :=
  let '(l, _, hi) := f in byte (default ""%string (lines !! l)) hi.
Definition digit_text (lines : list string) (p : nat * nat) : ascii := byte (default ""%string (lines !! p.1)) p.2.
Definition concat_fields (lines : list string) (fs : list (nat * nat * nat)) : string :=
  match map (field_text lines) fs with
  | [a; b; c; d] => a +:+ b +:+ c +:+ d
  | _ => ""%string
  end.

(** What a zone without issues promises of the lines it was read from. *)
Record zone_sound (lines : list string) (reference : Time) (z : Zone) : Prop := {
  zs_number : field_checked (field_text lines (number_field (layout (Format_ z)))) (field_digit lines (number_field (layout (Format_ z))));
  zs_birth : field_checked (field_text lines (birth_field (layout (Format_ z)))) (field_digit lines (birth_field (layout (Format_ z))));
  zs_expiry : field_checked (field_text lines (expiry_field (layout (Format_ z)))) (field_digit lines (expiry_field (layout (Format_ z))));
  zs_personal : forall f, personal_field (layout (Format_ z)) = Some f -> field_checked (field_text lines f) (field_digit lines f);
  zs_composite : CheckDigit (concat_fields lines (composite_fields (layout (Format_ z)))) = Some (digit_text lines (composite_digit (layout (Format_ z))));
  zs_document : DocumentNumber z = cleanField (field_text lines (number_field (layout (Format_ z)))) /\ DocumentNumber z <> ""%string;
  zs_born : date_ok dateOfBirthKind (field_text lines (birth_field (layout (Format_ z)))) reference (DateOfBirth z);
  zs_expires : date_ok dateOfExpiryKind (field_text lines (expiry_field (layout (Format_ z)))) reference (DateOfExpiry z);
  zs_name : name_present (Name_ z);
}.

(** Codes of countries are at most three letters, whatever the issues. *)
Definition countries_ok (z : Zone) : Prop :=
  Forall (fun code => letters code = true /\ slen code <= 3) [IssuingState z; Nationality z].

Definition zone_spec (f : Format) (lines : list string) (reference : Time) (issues : list Issue) (z : Zone) : Prop :=
  Format_ z = f /\ countries_ok z /\ (issues_ok issues -> issues_ok (Issues z)) /\
  (Issues z = [] -> issues = [] /\ zone_sound lines reference z).

Ltac range_side := unfold td1Length, td2Length, td3Length, slen in *; lia.
Ltac in_range :=
  repeat first [rewrite slice_piece by range_side | rewrite byte_at_byte by range_side]; cbn [mbind option_bind].

(** Name every step of a parse by its specification. *)
Ltac parse_steps :=
  repeat match goal with
  | |- context [let '(_, _) := parseCountry ?r ?l ?i in _] =>
      let v := fresh "code" in let i' := fresh "i" in let H := fresh "Hc" in
      destruct (parseCountry r l i) as [v i'] eqn:H; apply parseCountry_spec in H as (? & ? & ? & ?)
  | |- context [let '(_, _) := cleanDocumentNumber ?r ?i in _] =>
      let v := fresh "number" in let i' := fresh "i" in let H := fresh "Hn" in
      destruct (cleanDocumentNumber r i) as [v i'] eqn:H; apply cleanDocumentNumber_spec in H as (? & ? & ?)
  | |- context [let '(_, _) := resolve ?r ?k ?t ?i in _] =>
      let v := fresh "date" in let i' := fresh "i" in let H := fresh "Hd" in
      destruct (resolve r k t i) as [v i'] eqn:H; apply resolve_spec in H as (? & ?)
  | |- context [let '(_, _) := parseSex ?r ?i in _] =>
      let v := fresh "sex" in let i' := fresh "i" in let H := fresh "Hs" in
      destruct (parseSex r i) as [v i'] eqn:H; apply parseSex_spec in H as (? & ?)
  | |- context [let '(_, _) := parseName ?r ?i in _] =>
      let v := fresh "name" in let i' := fresh "i" in let H := fresh "Hm" in
      destruct (parseName r i) as [v i'] eqn:H; apply parseName_spec in H as (? & ?)
  end.

(** From a clean end back to a clean start. *)
Ltac peel :=
  repeat match goal with
  | H : ?i = [] -> _, E : ?i = [] |- _ => specialize (H E); destruct_and? H
  | E : verifyField _ _ _ _ = [] |- _ => apply verifyField_clean in E as [? ?]
  | E : verifyComposite _ _ _ = [] |- _ => apply verifyComposite_clean in E as [? ?]
  end.

Lemma parseTD1_spec line1 line2 line3 reference issues :
  slen line1 = td1Length -> slen line2 = td1Length -> slen line3 = td1Length ->
  exists z, parseTD1 line1 line2 line3 reference issues = Some z /\ zone_spec TD1 [line1; line2; line3] reference issues z.
Proof.
  intros H1 H2 H3. unfold parseTD1. in_range. parse_steps. eexists. split; [reflexivity|].
  unfold zone_spec, countries_ok. cbn [Issues Format_ IssuingState Nationality]. split; [done|]. split; [by repeat constructor|]. split.
  - intros ?. eauto 20 using verifyField_ok, verifyComposite_ok.
  - intros Hnil. peel. split; [done|]. constructor; try done.
Qed.

Lemma parseTD2_spec line1 line2 reference issues :
  slen line1 = td2Length -> slen line2 = td2Length ->
  exists z, parseTD2 line1 line2 reference issues = Some z /\ zone_spec TD2 [line1; line2] reference issues z.
Proof.
  intros H1 H2. unfold parseTD2. in_range. parse_steps. eexists. split; [reflexivity|].
  unfold zone_spec, countries_ok. cbn [Issues Format_ IssuingState Nationality]. split; [done|]. split; [by repeat constructor|]. split.
  - intros ?. eauto 20 using verifyField_ok, verifyComposite_ok.
  - intros Hnil. peel. split; [done|]. constructor; try done.
Qed.

Lemma parseTD3_spec line1 line2 reference issues :
  slen line1 = td3Length -> slen line2 = td3Length ->
  exists z, parseTD3 line1 line2 reference issues = Some z /\ zone_spec TD3 [line1; line2] reference issues z.
Proof.
  intros H1 H2. unfold parseTD3. in_range. parse_steps. eexists. split; [reflexivity|].
  unfold zone_spec, countries_ok. cbn [Issues Format_ IssuingState Nationality]. split; [done|]. split; [by repeat constructor|]. split.
  - intros ?. eauto 20 using verifyField_ok, verifyComposite_ok.
  - intros Hnil. peel. split; [done|]. constructor; try done. cbn. by intros f [= <-].
Qed.

(** ** Normalised lines *)

Lemma clean_issues_ok upper : forall issues, issues_ok issues -> issues_ok (clean_issues upper issues).
Proof. induction upper as [|c s IH]; intros issues Hi; cbn; [done|]. apply IH. case_match; eauto using appendIssue_ok. Qed.

Lemma clean_issues_clean upper : forall issues, clean_issues upper issues = [] -> issues = [] /\ string_forall validCharacter upper = true.
Proof.
  induction upper as [|c s IH]; intros issues Hi; cbn in *; [done|]. apply IH in Hi as [Hi ->].
  destruct (validCharacter c); [done | by apply appendIssue_nil in Hi].
Qed.

Lemma clean_line_id upper : string_forall validCharacter upper = true -> clean_line upper = upper.
Proof.
  unfold clean_line. induction upper as [|c s IH]; cbn; [done|]. rewrite andb_true_iff. intros [-> Hs]. by rewrite IH.
Qed.

Lemma fold_clean_clean lines : forall issues,
  fold_left (fun issues line => clean_issues line issues) lines issues = [] ->
  issues = [] /\ Forall (fun line => string_forall validCharacter line = true) lines.
Proof.
  induction lines as [|x lines IH]; intros issues Hi; cbn in Hi; [by split|].
  apply IH in Hi as [Hi ?]. apply clean_issues_clean in Hi as [? ?]. split; [done | by constructor].
Qed.

Lemma detectFormat_lines lines f : detectFormat lines = Some f ->
  match f with
  | TD1 => exists a b c, lines = [a; b; c] /\ slen a = td1Length /\ slen b = td1Length /\ slen c = td1Length
  | TD2 => exists a b, lines = [a; b] /\ slen a = td2Length /\ slen b = td2Length
  | TD3 => exists a b, lines = [a; b] /\ slen a = td3Length /\ slen b = td3Length
  end.
Proof.
  unfold detectFormat. destruct lines as [|a [|b [|c [|d l]]]]; try done.
  - destruct (_ && _) eqn:H2; [intros [= <-]; exists a, b; bprop; done|].
    destruct ((slen a =? td3Length) && _) eqn:H3; [|done]. intros [= <-]. exists a, b. bprop. done.
  - destruct (_ && _) eqn:H1; [|done]. intros [= <-]. exists a, b, c. bprop. done.
Qed.

Lemma Parse_spec `{UnicodeTables} lines reference f :
  detectFormat (normaliseLines lines).1 = Some f ->
  exists z, Parse lines reference = Some (Ok (z, Issues z)) /\
    zone_spec f (normaliseLines lines).1 (utc reference) (appendIssues [] (normaliseLines lines).2) z.
Proof.
  unfold Parse. destruct (normaliseLines lines) as [ns issues]. cbn [fst snd]. intros Hf. rewrite Hf. apply detectFormat_lines in Hf.
  destruct f.
  - destruct Hf as (a & b & c & -> & ? & ? & ?).
    destruct (parseTD1_spec a b c (utc reference) (appendIssues [] issues)) as (z & -> & Hz); [done..|]. by exists z.
  - destruct Hf as (a & b & -> & ? & ?).
    destruct (parseTD2_spec a b (utc reference) (appendIssues [] issues)) as (z & -> & Hz); [done..|]. by exists z.
  - destruct Hf as (a & b & -> & ? & ?).
    destruct (parseTD3_spec a b (utc reference) (appendIssues [] issues)) as (z & -> & Hz); [done..|]. by exists z.
Qed.

Lemma empty_issues_ok : issues_ok [].
Proof. split; [done | constructor]. Qed.

(** What [Transliterate] accepts has a check digit. *)
Lemma Transliterate_valid `{UnicodeTables} value : forall s, Transliterate value = Some s -> string_forall validCharacter s = true.
Proof.
  induction value as [|r rest IH]; cbn [Transliterate]; intros s; [by intros [= <-]|].
  destruct (transliterate_rune r) as [mapped|] eqn:Hr; [|done]. cbn [mbind option_bind].
  destruct (Transliterate rest) as [tail|]; [|done]. cbn. intros [= <-]. rewrite string_forall_app, (IH tail eq_refl), andb_true_r.
  unfold transliterate_rune in Hr. destruct (List.find _ transliteration) as [[k m]|] eqn:Hf.
  - injection Hr as ->. apply List.find_some in Hf as [Hin _].
    assert (Hall : Forall (fun entry => string_forall validCharacter entry.2 = true) transliteration) by (by repeat constructor).
    rewrite Forall_forall in Hall. by apply (Hall (k, mapped)), list_elem_of_In.
  - destruct (_ || (rune_upper r =? 60)) eqn:Hc.
    + injection Hr as <-. cbn [string_forall]. rewrite andb_true_r. unfold validCharacter, is_filler, is_digit, is_upper, byte_in.
      rewrite !orb_true_iff, !andb_true_iff, !Z.leb_le, Z.eqb_eq in Hc. destruct Hc as [[Hc|Hc]|Hc].
      * apply orb_true_iff. right. rewrite N_ascii_embedding by lia. apply andb_true_iff. split; apply N.leb_le; cbn; lia.
      * apply orb_true_iff. left. apply orb_true_iff. right. rewrite N_ascii_embedding by lia. apply andb_true_iff. split; apply N.leb_le; cbn; lia.
      * by rewrite Hc.
    + repeat case_match; by simplify_eq/=.
Qed.

(** ** Properties *)
Module MrzSpec.

(** C27: what the check digit detects.  Replacing one character keeps the check
    digit exactly when the two values agree modulo ten, and exchanging two
    adjacent characters keeps it exactly when they agree modulo five; with digits
    only, every single misread digit is found. *)
Theorem check_digit_detects (pre post : string) (a b : ascii) (da db : Z) (c c' : ascii)
    (Ha : char_value a = Some da) (Hb : char_value b = Some db)
    (Hc : CheckDigit (pre +:+ String a post) = Some c) (Hc' : CheckDigit (pre +:+ String a (String b post)) = Some c') :
  (CheckDigit (pre +:+ String b post) = Some c <-> (da - db) mod 10 = 0) /\
  (CheckDigit (pre +:+ String b (String a post)) = Some c' <-> (da - db) mod 5 = 0) /\
  (is_digit a = true -> is_digit b = true -> CheckDigit (pre +:+ String b post) = Some c -> a = b).
Proof.
  destruct (CheckDigit_sum _ _ Hc) as [x Hx]. destruct (CheckDigit_sum _ _ Hc') as [y Hy].
  pose proof (digit_sum_substitution pre post a b da db x Ha Hb Hx) as Hs.
  pose proof (digit_sum_transposition pre post a b da db y Ha Hb Hy) as Ht.
  assert (Hsub : CheckDigit (pre +:+ String b post) = Some c <-> (da - db) mod 10 = 0).
  { rewrite <- Hc, (CheckDigit_same _ _ _ _ Hs Hx). destruct (weight_cases (String.length pre)) as [-> | [-> | ->]];
      Z.to_euclidean_division_equations; lia. }
  split; [exact Hsub|]. split.
  - rewrite <- Hc', (CheckDigit_same _ _ _ _ Ht Hy).
    destruct (weight_step (String.length pre)) as [[-> ->] | [[-> ->] | [-> ->]]]; Z.to_euclidean_division_equations; lia.
  - intros Hda Hdb Heq. apply Hsub in Heq. unfold char_value in Ha, Hb.
    assert (Hf : forall d, is_digit d = true -> Ascii.eqb d "<" = false) by (intros [[] [] [] [] [] [] [] []]; done).
    rewrite (Hf a Hda), Hda in Ha. rewrite (Hf b Hdb), Hdb in Hb. injection Ha as <-. injection Hb as <-.
    unfold is_digit, byte_in in Hda, Hdb. rewrite !andb_true_iff, !N.leb_le in *. cbn in Hda, Hdb.
    rewrite <- (ascii_N_embedding a), <- (ascii_N_embedding b). f_equal. Z.to_euclidean_division_equations. lia.
Qed.

Section MrzSpec.
Context `{UnicodeTables}.

(** C26: parsing is total.  No slice or index of the three layouts is out of
    range, whatever the lines; an error is returned exactly when the normalised
    lines have none of the three shapes, a zone has the format of their shape,
    carries the issues returned with it, and in both cases these are at most 32
    and distinct; country codes are always at most three letters. *)
Theorem parse_total (lines : list string) (reference : Time) :
  exists r, Parse lines reference = Some r /\
    match r with
    | Ok (z, issues) =>
        detectFormat (normaliseLines lines).1 = Some (Format_ z) /\ issues = Issues z /\ issues_ok issues /\ countries_ok z
    | Err (_, issues) => detectFormat (normaliseLines lines).1 = None /\ issues_ok issues
    end.
Proof.
  destruct (detectFormat (normaliseLines lines).1) as [f|] eqn:Hf.
  - destruct (Parse_spec lines reference f Hf) as (z & Hp & Hz & Hc & Hok & _). eexists. split; [exact Hp|].
    split_and!; [by rewrite Hz | done | apply Hok, appendIssues_ok, empty_issues_ok | done].
  - unfold Parse. destruct (normaliseLines lines) as [ns issues]. cbn [fst] in Hf. rewrite Hf. eexists. split; [reflexivity|].
    split; [done|]. apply appendIssues_ok. split; [done | apply NoDup_singleton].
Qed.

(** A zone without issues is sound.  The lines were clean but for case and
    trailing blanks; the document number, both dates and the personal number have
    their check digits at the positions of ICAO 9303 and the composite digit
    covers its segments; the number is not empty and a name is present; both
    dates are real calendar dates of the six digits read, the birth not after
    the reference and at most 120 years before it, the expiry within 36500 days
    of it (or the reference is more than 292 years before it). *)
Theorem valid_zone_sound (lines : list string) (reference : Time) (z : Zone) (issues : list Issue)
    (Hp : Parse lines reference = Some (Ok (z, issues))) (Hvalid : zone_valid z = true) :
  (normaliseLines lines).1 = map (fun line => to_upper (trimmed line)) lines /\
  zone_sound (normaliseLines lines).1 (utc reference) z.
Proof.
  assert (Hnil : Issues z = []) by (apply llen_nil_inv, Z.eqb_eq; exact Hvalid).
  destruct (detectFormat (normaliseLines lines).1) as [f|] eqn:Hf.
  - destruct (Parse_spec lines reference f Hf) as (z' & Hp' & _ & _ & _ & Hz). rewrite Hp in Hp'. injection Hp' as <- ->.
    destruct (Hz Hnil) as [Hi Hsound]. split; [|done]. apply appendIssues_grow in Hi as [_ Hi]. unfold normaliseLines in *. cbn [fst snd] in *.
    apply fold_clean_clean in Hi as [_ Hi]. rewrite <- (map_id (map _ lines)) at 2. apply map_ext_Forall.
    eapply Forall_impl; [exact Hi|]. intros line. apply clean_line_id.
  - unfold Parse in Hp. destruct (normaliseLines lines) as [ns iss]. cbn [fst] in Hf. rewrite Hf in Hp. discriminate Hp.
Qed.
End MrzSpec.
End MrzSpec.

(** ** Witnesses: the specimen of ICAO 9303 *)
Module MrzWitness.
Import MrzSpec.

Definition ascii_upper (c : ascii) : ascii := if is_lower c then ascii_of_N (N_of_ascii c - 32) else c.
#[local] Instance ascii_tables : UnicodeTables := {
  to_upper := string_map ascii_upper;
  rune_upper r := if (97 <=? r) && (r <=? 122) then r - 32 else r;
  rune_mark _ := false;
  rune_separator r := r =? 32 }.

Definition specimen : list string :=
  ["P<UTOERIKSSON<<ANNA<MARIA<<<<<<<<<<<<<<<<<<<"; "L898902C36UTO7408122F1204159ZE184226B<<<<<10  "]%string.
Definition at_2012 : Time := date 2012 1 1.

Definition parsed (lines : list string) (reference : Time) : option Zone :=
  match Parse lines reference with Some (Ok (z, _)) => Some z | _ => None end.

Example specimen_parsed :
  (fun z => (Issues z, DocumentNumber z, Primary (Name_ z), Secondary (Name_ z), civil (Value (DateOfBirth z)), civil (Value (DateOfExpiry z))))
    <$> parsed specimen at_2012 = Some ([], "L898902C3", "ERIKSSON", "ANNA MARIA", (1974, 8, 12), (2012, 4, 15))%string.
Proof. vm_compute. reflexivity. Qed.

(** A reference in 1500: the negated distance overflows and an expiry more than
    four centuries later is accepted. *)
Example overflowing_distance :
  (fun z => (civil (Value (DateOfExpiry z)), Valid (DateOfExpiry z))) <$> parsed specimen (date 1500 1 1) = Some ((1912, 4, 15), true).
Proof. vm_compute. reflexivity. Qed.

(** One digit misread, and two adjacent digits exchanged. *)
Lemma check_digit_detects_witness :
  CheckDigit "L898902C3" = Some "6"%char /\ CheckDigit "L998902C3" <> Some "6"%char /\
  CheckDigit "L8998902C3" = Some "5"%char /\ CheckDigit "L9898902C3" <> Some "5"%char.
Proof.
  destruct (check_digit_detects "L" "98902C3" "8" "9" 8 9 "6" "5") as (Hs & Ht & _); try (vm_compute; reflexivity).
  split; [vm_compute; reflexivity|]. split; [|split; [vm_compute; reflexivity|]].
  - intros Hc. change "L998902C3"%string with ("L" +:+ String "9" "98902C3")%string in Hc. apply Hs in Hc. discriminate Hc.
  - intros Hc. change "L9898902C3"%string with ("L" +:+ String "9" (String "8" "98902C3"))%string in Hc. apply Ht in Hc. discriminate Hc.
Defined.

Definition no_zone : Zone := mk_zone TD1 "" "" "" "" "" "" no_date no_date (mk_name "" "") [].
Definition specimen_zone : Zone := default no_zone (parsed specimen at_2012).

Lemma valid_zone_sound_witness :
  Format_ specimen_zone = TD3 /\
  zone_sound (normaliseLines specimen).1 (utc at_2012) specimen_zone.
Proof.
  split; [vm_compute; reflexivity|].
  refine (proj2 (valid_zone_sound specimen at_2012 specimen_zone (Issues specimen_zone) _ _)); vm_compute; reflexivity.
Defined.
End MrzWitness.
