(* ===== verification/Deletion.v ===== *)
(** * Retention, legal holds and erasure

    [internal/privacy/lifecycle.go]: the resolution of a retention period, legal
    holds and the deletion workflow; [service.go] and [postgres/store.go]: the
    worker that drives it and the row it is stored in.

    A worker is a small automaton, one transaction per step, over the row all
    workers share; a step takes its clock readings, the holds it was shown, the
    answer of the eraser and whether its transaction commits, and may be a crash.
    The digest of a proof is a parameter.  Instants are stored exactly; the
    columns keep microseconds. *)

From S2P Require Import Prelude GoTime.
From Stdlib Require Import Ascii.

Inductive Error := ErrInvalid | ErrHeld | ErrConflict | ErrUnavailable | ErrQuery.
#[export] Instance Error_eq_dec : EqDecision Error. Proof. solve_decision. Defined.

(** [token]: printable ASCII without spaces.  A byte above 0x7e starts or is a
    rune above 0x7e, so runes and bytes agree. *)
Definition token (value : string) (maximum : Z) : bool :=
  negb ((slen value =? 0) || (maximum <? slen value)) && string_forall (byte_in "!" "~") value.
Definition validRegion (value : string) : bool := token value 63.

(** ** Retention *)

Definition DataClass := string.
Definition DataClassRawEvidence : DataClass := "raw_evidence".
Definition DataClassDerivedEvidence : DataClass := "derived_evidence".
Definition DataClassWebhookPayload : DataClass := "webhook_payload".
Definition DataClassWorkflowMetadata : DataClass := "workflow_metadata".
Definition DataClassAuditRecord : DataClass := "audit_record".
Definition DataClassDeletionProof : DataClass := "deletion_proof".
Definition DataClassBackup : DataClass := "backup".

Definition SelectedDefaults : gmap DataClass Z := list_to_map [
  (DataClassRawEvidence, 30 * day_ns); (DataClassDerivedEvidence, 30 * day_ns); (DataClassWebhookPayload, 7 * day_ns);
  (DataClassWorkflowMetadata, 365 * day_ns); (DataClassAuditRecord, 7 * 365 * day_ns); (DataClassDeletionProof, 7 * 365 * day_ns);
  (DataClassBackup, 35 * day_ns)].
Definition backup_default : Z := default 0 (SelectedDefaults !! DataClassBackup).

Record RetentionRule := mk_rule {
  Authority : string; RuleVersion : string; RuleClass : DataClass; RuleRegion : string; Minimum : Z; Maximum : Z }.
Record Resolution := mk_resolution { Class_ : DataClass; ResolvedRegion : string; Duration : Z; ExpiresAt : Time; Rules : list RetentionRule }.

Definition rule_valid (class : DataClass) (region : string) (rule : RetentionRule) : bool :=
  negb (String.eqb (Authority rule) "" || String.eqb (RuleVersion rule) "" || negb (String.eqb (RuleClass rule) class) ||
        negb (String.eqb (RuleRegion rule) region) || (Minimum rule <? 0) || (Maximum rule <? 0)).

(** The loop over the rules: the largest minimum, the smallest positive maximum
    (zero for none). *)
Definition widen_minimum (minimum : Z) (rule : RetentionRule) : Z := Z.max minimum (Minimum rule).
Definition narrow_maximum (maximum : Z) (rule : RetentionRule) : Z :=
  if (0 <? Maximum rule) && ((maximum =? 0) || (Maximum rule <? maximum)) then Maximum rule else maximum.

(** Authority first, then version. *)
Definition rule_le (a b : RetentionRule) : Prop :=
  if decide (Authority a = Authority b) then String.le (RuleVersion a) (RuleVersion b) else String.le (Authority a) (Authority b).
#[export] Instance rule_le_dec : RelDecision rule_le.
Proof. intros a b. unfold rule_le. case_decide; apply _. Defined.

Definition Resolve (class : DataClass) (region : string) (createdAt : Time) (tenantRequested deploymentCap : Z) (rules : list RetentionRule)
  : result Error Resolution :=
  match SelectedDefaults !! class with
  | None => Err ErrInvalid
  | Some selected =>
      reject negb (validRegion region) || is_zero createdAt || negb (in_utc createdAt) with ErrInvalid ;;
      reject (tenantRequested <? 0) || (deploymentCap <? 0) with ErrInvalid ;;
      reject (0 <? tenantRequested) && (selected <? tenantRequested) && ((deploymentCap =? 0) || (deploymentCap <? tenantRequested))
        with ErrInvalid ;;
      let selected := if 0 <? tenantRequested then tenantRequested else selected in
      reject negb (forallb (rule_valid class region) rules) with ErrInvalid ;;
      let minimum := fold_left widen_minimum rules 0 in
      let maximum := fold_left narrow_maximum rules 0 in
      reject (0 <? maximum) && (maximum <? minimum) with ErrInvalid ;;
      let selected := Z.max selected minimum in
      let selected := if 0 <? maximum then Z.min selected maximum else selected in
      reject selected <=? 0 with ErrInvalid ;;
      Ok (mk_resolution class region selected (add createdAt selected) (merge_sort rule_le rules))
  end.

(** ** Legal holds *)

Record Hold := mk_hold {
  CoveredAggregateID : string; HoldID : string; HoldAggregateID : string; HoldAuthority : string; Reason : string;
  StartsAt : Time; ReviewAt : Time; ReleasedAt : Time }.

Definition hold_valid (hold : Hold) : bool :=
  negb (String.eqb (HoldID hold) "" || negb (token (HoldAggregateID hold) 200) || negb (token (HoldAuthority hold) 128) ||
        negb (token (Reason hold) 256) || is_zero (StartsAt hold) || negb (in_utc (StartsAt hold)) ||
        negb (after (ReviewAt hold) (StartsAt hold)) || negb (in_utc (ReviewAt hold)) ||
        (negb (is_zero (ReleasedAt hold)) && (negb (in_utc (ReleasedAt hold)) || before (ReleasedAt hold) (StartsAt hold)))).

Definition ActiveAt (hold : Hold) (at_ : Time) : bool :=
  hold_valid hold && negb (before at_ (StartsAt hold)) && (is_zero (ReleasedAt hold) || before at_ (ReleasedAt hold)).

(** ** Deletions *)

Inductive DeletionState := DeletionRequested | DeletionBlockedByLegalHold | DeletionInProgress | DeletionAwaitingBackup |
  DeletionCompleted | DeletionFailed.
#[export] Instance DeletionState_eq_dec : EqDecision DeletionState. Proof. solve_decision. Defined.
Definition state_is (a b : DeletionState) : bool := bool_decide (a = b).

Record Target := mk_target {
  Kind : string; Reference : string; TargetRegion : string; DeletedAt : Time; Attempts : Z; LastFailureClass : string }.
#[export] Instance Target_eq_dec : EqDecision Target. Proof. solve_decision. Defined.

Record Deletion := mk_deletion {
  BackupRetention : Z;
  ID : string;
  AggregateID : string;
  Region : string;
  State : DeletionState;
  Targets : list Target;
  RequestedAt : Time;
  UpdatedAt : Time;
  BackupExpiresAt : Time;
  FailureClass : string;
  Version : Z;
}.
#[export] Instance Deletion_eq_dec : EqDecision Deletion. Proof. solve_decision. Defined.

Definition target_key (t : Target) : string := Kind t +:+ String "000" (Reference t).

Definition target_valid (region : string) (t : Target) : bool :=
  token (Kind t) 64 && token (Reference t) 2048 && String.eqb (TargetRegion t) region.

Definition Validate (d : Deletion) : bool :=
  negb ((BackupRetention d <? 0) || (backup_default <? BackupRetention d) || String.eqb (ID d) "" || negb (token (AggregateID d) 200) ||
        negb (validRegion (Region d)) || (Version d <? 1) || is_zero (RequestedAt d) || negb (in_utc (RequestedAt d)) ||
        before (UpdatedAt d) (RequestedAt d) || negb (in_utc (UpdatedAt d)) || negb (after (BackupExpiresAt d) (RequestedAt d)) ||
        negb (in_utc (BackupExpiresAt d)) || (llen (Targets d) =? 0) || (256 <? llen (Targets d))) &&
  forallb (target_valid (Region d)) (Targets d) && no_dupb (map target_key (Targets d)).

Definition NewDeletion (identifier aggregateID region : string) (targets : list Target) (requestedAt backupExpiresAt : Time)
  : result Error Deletion :=
  let deletion := mk_deletion 0 identifier aggregateID region DeletionRequested targets requestedAt requestedAt backupExpiresAt "" 1 in
  reject negb (Validate deletion) with ErrInvalid ;;
  Ok deletion.

(** The fields a transition changes. *)
Definition next_deletion (d : Deletion) (state : DeletionState) (targets : list Target) (updatedAt backupExpiresAt : Time) (failure : string)
  : Deletion :=
  mk_deletion (BackupRetention d) (ID d) (AggregateID d) (Region d) state targets (RequestedAt d) updatedAt backupExpiresAt failure
    (wrap_int64 (Version d + 1)).

Definition covers (d : Deletion) (now : Time) (hold : Hold) : bool :=
  (String.eqb (HoldAggregateID hold) (AggregateID d) || String.eqb (CoveredAggregateID hold) (AggregateID d)) && ActiveAt hold now.

(** The flag is the error [ErrHeld] returned along with the blocked deletion. *)
Definition Begin (d : Deletion) (now : Time) (holds : list Hold) : result Error (Deletion * bool) :=
  reject negb (Validate d) || is_zero now || negb (in_utc now) || before now (UpdatedAt d) with ErrInvalid ;;
  reject negb (state_is (State d) DeletionRequested) && negb (state_is (State d) DeletionBlockedByLegalHold) &&
         negb (state_is (State d) DeletionFailed) with ErrConflict ;;
  if existsb (covers d now) holds then
    Ok (next_deletion d DeletionBlockedByLegalHold (Targets d) now (BackupExpiresAt d) "", true)
  else Ok (next_deletion d DeletionInProgress (Targets d) now (BackupExpiresAt d) "", false).

Definition matches (kind reference : string) (t : Target) : bool := String.eqb (Kind t) kind && String.eqb (Reference t) reference.
Definition deleted (t : Target) : bool := negb (is_zero (DeletedAt t)).
Definition next_attempt (t : Target) : Z := (Attempts t + 1) mod 65536.

Definition mark_deleted (kind reference : string) (now : Time) (t : Target) : Target :=
  if matches kind reference t && negb (deleted t) then mk_target (Kind t) (Reference t) (TargetRegion t) now (next_attempt t) "" else t.
Definition mark_failed (kind reference failureClass : string) (t : Target) : Target :=
  if matches kind reference t && negb (deleted t)
  then mk_target (Kind t) (Reference t) (TargetRegion t) (DeletedAt t) (next_attempt t) failureClass else t.

Definition extend_backup (d : Deletion) (now : Time) : Time :=
  if (0 <? BackupRetention d) && after (add now (BackupRetention d)) (BackupExpiresAt d) then add now (BackupRetention d)
  else BackupExpiresAt d.

Definition MarkTargetDeleted (d : Deletion) (kind reference : string) (now : Time) : result Error Deletion :=
  reject negb (Validate d) || negb (state_is (State d) DeletionInProgress) || before now (UpdatedAt d) || negb (in_utc now)
    with ErrConflict ;;
  reject negb (existsb (matches kind reference) (Targets d)) with ErrInvalid ;;
  let expires := if existsb (fun t => matches kind reference t && negb (deleted t)) (Targets d) then extend_backup d now
                 else BackupExpiresAt d in
  let targets := map (mark_deleted kind reference now) (Targets d) in
  let state := if forallb deleted targets then DeletionAwaitingBackup else State d in
  Ok (next_deletion d state targets now expires (FailureClass d)).

Definition MarkTargetFailed (d : Deletion) (kind reference failureClass : string) (now : Time) : result Error Deletion :=
  reject negb (Validate d) || negb (state_is (State d) DeletionInProgress) || negb (token failureClass 128) || before now (UpdatedAt d) ||
         negb (in_utc now) with ErrConflict ;;
  reject negb (existsb (matches kind reference) (Targets d)) with ErrInvalid ;;
  Ok (next_deletion d DeletionFailed (map (mark_failed kind reference failureClass) (Targets d)) now (BackupExpiresAt d) failureClass).

Definition Complete (d : Deletion) (now : Time) : result Error Deletion :=
  reject negb (Validate d) || negb (state_is (State d) DeletionAwaitingBackup) || before now (BackupExpiresAt d) || negb (in_utc now)
    with ErrConflict ;;
  Ok (next_deletion d DeletionCompleted (Targets d) now (BackupExpiresAt d) (FailureClass d)).

Definition SuspendForHold (d : Deletion) (now : Time) : result Error Deletion :=
  reject negb (Validate d) || negb (state_is (State d) DeletionInProgress) || before now (UpdatedAt d) || negb (in_utc now)
    with ErrConflict ;;
  Ok (next_deletion d DeletionBlockedByLegalHold (Targets d) now (BackupExpiresAt d) (FailureClass d)).

(** ** The read model *)

Inductive TargetState := TargetPending | TargetDeleted | TargetFailed.
Definition target_state (t : Target) : TargetState :=
  if deleted t then TargetDeleted else if negb (String.eqb (LastFailureClass t) "") then TargetFailed else TargetPending.

(** ** The store *)
Module DeletionStore.

Record Tombstone := mk_tombstone {
  DeletionID : string; TombstoneAggregateID : string; TombstoneRegion : string; TargetCount : Z; ProofDigest : string;
  CompletedAt : Time; RetainUntil : Time }.
#[export] Instance Tombstone_eq_dec : EqDecision Tombstone. Proof. solve_decision. Defined.

Record Database := mk_database { row : Deletion; tombstone : option Tombstone }.

(** [Create]; the row lists its targets by kind and reference. *)
Definition Create (d : Deletion) (actor : string) : result Error Database :=
  reject negb (Validate d) || String.eqb actor "" with ErrInvalid ;;
  Ok (mk_database (mk_deletion (BackupRetention d / second * second) (ID d) (AggregateID d) (Region d) (State d) (sort_by target_key (Targets d))
       (RequestedAt d) (UpdatedAt d) (BackupExpiresAt d) "" (Version d)) None).

Definition Find (db : Database) : result Error Deletion :=
  reject negb (Validate (row db)) with ErrInvalid ;;
  Ok (row db).

(** One [UPDATE] of [deletion_targets] per target of the saved deletion. *)
Definition same_target (a b : Target) : bool := matches (Kind a) (Reference a) b.
Definition write_target (saved : list Target) (t : Target) : Target :=
  match List.find (same_target t) saved with
  | Some s => mk_target (Kind t) (Reference t) (TargetRegion t) (DeletedAt s) (Attempts s) (LastFailureClass s)
  | None => t
  end.

(** [commit]: whether the database accepts and commits the transaction. *)
Definition Save (db : Database) (d : Deletion) (expectedVersion : Z) (commit : bool) : result Error Database :=
  reject negb (Validate d) || (expectedVersion <? 1) || negb (Version d =? wrap_int64 (expectedVersion + 1)) with ErrInvalid ;;
  reject negb commit with ErrQuery ;;
  reject negb (String.eqb (ID d) (ID (row db))) || negb (Version (row db) =? expectedVersion) with ErrConflict ;;
  reject negb (forallb (fun s => existsb (same_target s) (Targets (row db))) (Targets d)) with ErrConflict ;;
  let r := row db in
  Ok (mk_database (mk_deletion (BackupRetention r) (ID r) (AggregateID r) (Region r) (State d) (map (write_target (Targets d)) (Targets r))
        (RequestedAt r) (UpdatedAt d) (BackupExpiresAt d) (FailureClass d) (Version d)) (tombstone db)).

Section Worker.
(** The SHA-256 of the proof text. *)
Context (proof_digest : Deletion -> string).

Definition tombstoneFor (d : Deletion) : Tombstone :=
  mk_tombstone (ID d) (AggregateID d) (Region d) (llen (Targets d)) (proof_digest d) (UpdatedAt d) (add (UpdatedAt d) (7 * 365 * day_ns)).

(** [Complete] of the store: the transition and its tombstone together; the
    table wants a positive version. *)
Definition CompleteWithTombstone (db : Database) (d : Deletion) (value : Tombstone) (expectedVersion : Z) (commit : bool)
  : result Error Database :=
  reject negb commit || (Version d <? 1) with ErrConflict ;;
  reject negb (String.eqb (ID d) (ID (row db))) || negb (Version (row db) =? expectedVersion) with ErrConflict ;;
  let r := row db in
  let completed := mk_deletion (BackupRetention r) (ID r) (AggregateID r) (Region r) (State d) (Targets r) (RequestedAt r) (UpdatedAt d)
                     (BackupExpiresAt r) (FailureClass r) (Version d) in
  match tombstone db with
  | None => Ok (mk_database completed (Some value))
  | Some existing =>
      reject negb (bool_decide (existing = value)) with ErrConflict ;;
      Ok (mk_database completed (Some existing))
  end.

(** ** The worker *)

Inductive Answer := Erased | HeldBack | Unavailable (class : string).

(** Where a worker is in [Run]. *)
Inductive Local :=
| Idle
| Loaded (d : Deletion) (now : Time)
| Erasing (d : Deletion) (todo : list Target)
| Returned (r : result Error Deletion).

Record Input := mk_input {
  crash : bool;
  clock : Time;
  clock_again : Time;
  holds : result Error (list Hold);
  answer : Answer;
  commit : bool;
}.

Definition zero_deletion : Deletion := mk_deletion 0 "" "" "" DeletionRequested [] zero_time zero_time zero_time "" 0.

(** Save and go on, or return the error. *)
Definition save_then (db : Database) (d : Deletion) (expected : Z) (commit : bool) (k : Local) : Local * Database :=
  match Save db d expected commit with
  | Ok db' => (k, db')
  | Err e => (Returned (Err e), db)
  end.

Definition complete_then (db : Database) (d : Deletion) (now : Time) (commit : bool) : Local * Database :=
  match Complete d now with
  | Err e => (Returned (Err e), db)
  | Ok d' =>
      match CompleteWithTombstone db d' (tombstoneFor d') (Version d) commit with
      | Ok db' => (Returned (Ok d'), db')
      | Err e => (Returned (Err e), db)
      end
  end.

(** [Run] from [ActiveHolds] to the first target. *)
Definition begin_erasure (db : Database) (d : Deletion) (now : Time) (i : Input) : Local * Database :=
  match holds i with
  | Err e => (Returned (Err e), db)
  | Ok hs =>
      match Begin d now hs with
      | Err _ => save_then db zero_deletion (Version d) (commit i) (Erasing zero_deletion [])
      | Ok (d', true) => save_then db d' (Version d) (commit i) (Returned (Err ErrHeld))
      | Ok (d', false) => save_then db d' (Version d) (commit i) (Erasing d' (Targets d'))
      end
  end.

(** One turn of the loop over the targets, or what follows it. *)
Definition erase_target (db : Database) (d : Deletion) (target : Target) (rest : list Target) (i : Input) : Local * Database :=
  if deleted target then (Erasing d rest, db)
  else
    match answer i with
    | HeldBack =>
        match SuspendForHold d (clock i) with
        | Err e => (Returned (Err e), db)
        | Ok paused => save_then db paused (Version d) (commit i) (Returned (Err ErrHeld))
        end
    | Unavailable class =>
        let failed := match MarkTargetFailed d (Kind target) (Reference target) class (clock i) with Ok f => f | Err _ => zero_deletion end in
        save_then db failed (Version d) (commit i) (Returned (Err ErrUnavailable))
    | Erased =>
        match MarkTargetDeleted d (Kind target) (Reference target) (clock i) with
        | Err e => (Returned (Err e), db)
        | Ok d' => save_then db d' (Version d) (commit i) (Erasing d' rest)
        end
    end.

Definition work (l : Local) (i : Input) (db : Database) : Local * Database :=
  if crash i then (Idle, db)
  else
    match l with
    | Idle => match Find db with Ok d => (Loaded d (clock i), db) | Err e => (Returned (Err e), db) end
    | Loaded d now =>
        if state_is (State d) DeletionCompleted then (Returned (Ok d), db)
        else if state_is (State d) DeletionAwaitingBackup then
          if before now (BackupExpiresAt d) then (Returned (Ok d), db) else complete_then db d now (commit i)
        else begin_erasure db d now i
    | Erasing d (target :: rest) => erase_target db d target rest i
    | Erasing d [] =>
        if before (clock i) (BackupExpiresAt d) then (Returned (Ok d), db) else complete_then db d (clock_again i) (commit i)
    | Returned _ => (Idle, db)
    end.

(** Any number of workers over one database, in any interleaving. *)
Record World := mk_world { database : Database; workers : list Local }.

Inductive world_step : World -> World -> Prop :=
| world_work w k l i l' db' :
    workers w !! k = Some l -> in_utc (clock i) = true -> in_utc (clock_again i) = true -> work l i (database w) = (l', db') ->
    world_step w (mk_world db' (<[k := l']> (workers w))).

Definition start_world (db : Database) (n : nat) : World := mk_world db (repeat Idle n).
End Worker.
End DeletionStore.

(** ** Retention periods *)

Lemma fold_minimum rules : forall m, m <= fold_left widen_minimum rules m /\
  Forall (fun r => Minimum r <= fold_left widen_minimum rules m) rules /\
  (fold_left widen_minimum rules m = m \/ Exists (fun r => fold_left widen_minimum rules m = Minimum r) rules).
Proof.
  induction rules as [|r rules IH]; intros m; cbn [fold_left]; [split_and!; auto; lia|].
  assert (Hw : m <= widen_minimum m r /\ Minimum r <= widen_minimum m r /\ (widen_minimum m r = m \/ widen_minimum m r = Minimum r))
    by (unfold widen_minimum; lia).
  destruct (IH (widen_minimum m r)) as (Hle & Hall & Hex). revert Hle Hall Hex. generalize (fold_left widen_minimum rules (widen_minimum m r)).
  intros x Hle Hall Hex. split_and!; [lia | constructor; [lia | done] |].
  destruct Hex as [->|Hex]; [|right; by constructor 2]. destruct Hw as (_ & _ & [Hw|Hw]); [by left | right; by constructor 1].
Qed.

(** The maximum in force, zero for none. *)
Lemma fold_maximum rules : forall m, 0 <= m -> Forall (fun r => 0 <= Maximum r) rules ->
  let x := fold_left narrow_maximum rules m in
  0 <= x /\ (0 < m -> 0 < x <= m) /\ Forall (fun r => 0 < Maximum r -> 0 < x <= Maximum r) rules /\
  (x = m \/ Exists (fun r => 0 < Maximum r /\ x = Maximum r) rules).
Proof.
  induction rules as [|r rules IH]; intros m Hm Hall; cbn [fold_left]; [split_and!; auto; lia|].
  apply Forall_cons in Hall as [Hr Hall].
  assert (Hn : (narrow_maximum m r = Maximum r /\ 0 < Maximum r /\ (m = 0 \/ Maximum r < m)) \/
               (narrow_maximum m r = m /\ (0 < Maximum r -> 0 < m <= Maximum r))).
  { unfold narrow_maximum. destruct (0 <? Maximum r) eqn:H1, (m =? 0) eqn:H2, (Maximum r <? m) eqn:H3; cbn [andb orb]; bprop; lia. }
  destruct (IH (narrow_maximum m r) ltac:(lia) Hall) as (H0 & Hpos & Hr' & Hex). cbv zeta in *. revert H0 Hpos Hr' Hex.
  generalize (fold_left narrow_maximum rules (narrow_maximum m r)). intros x H0 Hpos Hr' Hex.
  split_and!; [lia | lia | constructor; [lia | done] |].
  destruct Hex as [->|Hex]; [|right; by constructor 2]. destruct Hn as [(Hn & ? & _)|[Hn _]]; [right; by constructor 1 | by left].
Qed.

Lemma fold_minimum_perm rules rules' m : rules ≡ₚ rules' -> fold_left widen_minimum rules m = fold_left widen_minimum rules' m.
Proof.
  intros Hp. revert m. induction Hp as [|r l l' _ IH|r r' l|l l' l'' _ IH _ IH']; intros m; cbn [fold_left]; [done | by rewrite IH | | by rewrite IH, IH'].
  f_equal. unfold widen_minimum. lia.
Qed.

Lemma fold_maximum_perm rules rules' m :
  0 <= m -> Forall (fun r => 0 <= Maximum r) rules -> rules ≡ₚ rules' ->
  fold_left narrow_maximum rules m = fold_left narrow_maximum rules' m.
Proof.
  intros Hm Hall Hp. revert m Hm. induction Hp as [|r l l' _ IH|r r' l|l l' l'' Hp IH _ IH']; intros m Hm; cbn [fold_left]; [done | | |].
  - apply Forall_cons in Hall as [Hr Hall]. apply IH; [done|]. unfold narrow_maximum. by repeat case_match; lia.
  - apply Forall_cons in Hall as [Hr' Hall]. apply Forall_cons in Hall as [Hr _]. f_equal. unfold narrow_maximum.
    destruct (0 <? Maximum r) eqn:?, (0 <? Maximum r') eqn:?, (m =? 0) eqn:?, (Maximum r <? m) eqn:?, (Maximum r' <? m) eqn:?; cbn [andb orb];
      repeat case_match; bprop; try lia; try discriminate.
  - rewrite IH by done. apply IH'; [by rewrite <- Hp | done].
Qed.

Lemma defaults_positive class base : SelectedDefaults !! class = Some base -> 0 < base.
Proof.
  assert (Hall : map_Forall (fun _ v => 0 < v) SelectedDefaults) by (refine (proj1 (bool_decide_eq_true (map_Forall (fun _ v => 0 < v) SelectedDefaults)) _); vm_compute; reflexivity).
  apply Hall.
Qed.

Definition rules_authorised (class : DataClass) (region : string) (rules : list RetentionRule) : Prop :=
  Forall (fun r => Authority r <> ""%string /\ RuleVersion r <> ""%string /\ RuleClass r = class /\ RuleRegion r = region /\
    0 <= Minimum r /\ 0 <= Maximum r) rules.

Lemma rules_valid class region rules : forallb (rule_valid class region) rules = true <-> rules_authorised class region rules.
Proof.
  unfold rules_authorised. rewrite forallb_forall, Forall_forall. setoid_rewrite list_elem_of_In. apply forall_proper. intros r.
  apply forall_proper. intros _. unfold rule_valid. rewrite negb_true_iff, !orb_false_iff, !negb_false_iff, !String.eqb_neq, !String.eqb_eq, !Z.ltb_ge.
  tauto.
Qed.

(** ** Transitions *)

Lemma del_state_is_true a b : state_is a b = true <-> a = b.
Proof. apply bool_decide_eq_true. Qed.
Lemma del_state_is_false a b : state_is a b = false <-> a <> b.
Proof. apply bool_decide_eq_false. Qed.

Definition ident (t : Target) : string * string * string := (Kind t, Reference t, TargetRegion t).

(** The fields no transition changes. *)
Definition same_identity (a b : Deletion) : Prop :=
  BackupRetention a = BackupRetention b /\ ID a = ID b /\ AggregateID a = AggregateID b /\ Region a = Region b /\
  RequestedAt a = RequestedAt b /\ map ident (Targets a) = map ident (Targets b).

#[export] Instance same_identity_equiv : Equivalence same_identity.
Proof.
  split; unfold same_identity.
  - intros a. split_and!; done.
  - intros a b (? & ? & ? & ? & ? & ?). split_and!; done.
  - intros a b c (? & ? & ? & ? & ? & ?) (? & ? & ? & ? & ? & ?). split_and!; congruence.
Qed.

(** Copies are not dropped, and an erased copy is final. *)
Definition kept : relation (list Target) := Forall2 (fun t t' => ident t = ident t' /\ (deleted t = true -> t' = t)).

#[export] Instance kept_refl : Reflexive kept.
Proof. intros l. apply Forall_Forall2_diag, Forall_forall. auto. Qed.
#[export] Instance kept_trans : Transitive kept.
Proof.
  intros a b c Hab. revert c. induction Hab as [|x y a b [Hi Hf] _ IH]; intros c Hbc; inversion Hbc as [|? z ? c' [Hi' Hf'] Hbc']; subst; constructor.
  - split; [congruence|]. intros Hd. specialize (Hf Hd). subst y. by apply Hf'.
  - by apply IH.
Qed.

Lemma kept_map f l : (forall t, ident (f t) = ident t /\ (deleted t = true -> f t = t)) -> kept l (map f l).
Proof. intros Hf. induction l as [|t l IH]; constructor; [|done]. destruct (Hf t) as [Hi Hd]. split; [done | exact Hd]. Qed.

Lemma kept_ident l l' : kept l l' -> map ident l = map ident l'.
Proof. induction 1 as [|x y l l' [Hi _] _ IH]; cbn; congruence. Qed.

Lemma mark_deleted_spec kind reference now t :
  ident (mark_deleted kind reference now t) = ident t /\ (deleted t = true -> mark_deleted kind reference now t = t).
Proof. unfold mark_deleted. destruct (matches _ _ t), (deleted t); cbn; auto; split; auto; discriminate. Qed.

Lemma mark_failed_spec kind reference class t :
  ident (mark_failed kind reference class t) = ident t /\ (deleted t = true -> mark_failed kind reference class t = t).
Proof. unfold mark_failed. destruct (matches _ _ t), (deleted t); cbn; auto; split; auto; discriminate. Qed.

(** Erased copies are covered by the backup boundary. *)
Definition covered (d : Deletion) : Prop :=
  0 < BackupRetention d ->
  Forall (fun t => deleted t = true -> instant (DeletedAt t) + BackupRetention d <= instant (BackupExpiresAt d)) (Targets d).

Definition at_rest (s : DeletionState) : Prop := s = DeletionAwaitingBackup \/ s = DeletionCompleted.

(** What every transition of the worker other than completion does. *)
Record advanced (d d' : Deletion) : Prop := {
  adv_identity : same_identity d d';
  adv_version : Version d' = wrap_int64 (Version d + 1);
  adv_kept : kept (Targets d) (Targets d');
  adv_from : ~ at_rest (State d);
  adv_to : State d' <> DeletionCompleted /\ (State d' = DeletionAwaitingBackup -> forallb deleted (Targets d') = true);
  adv_expires : instant (BackupExpiresAt d) <= instant (BackupExpiresAt d');
  adv_covered : covered d -> covered d';
  adv_updated : instant (UpdatedAt d) <= instant (UpdatedAt d');
}.

Lemma next_advanced d state targets now expires failure :
  kept (Targets d) targets -> ~ at_rest (State d) ->
  state <> DeletionCompleted /\ (state = DeletionAwaitingBackup -> forallb deleted targets = true) ->
  instant (BackupExpiresAt d) <= instant expires -> (covered d -> covered (next_deletion d state targets now expires failure)) ->
  before now (UpdatedAt d) = false -> advanced d (next_deletion d state targets now expires failure).
Proof.
  intros Hk Hr Hs He Hc Hu. constructor; cbn; try done.
  - unfold same_identity. cbn. split_and!; try done. by apply kept_ident.
  - by apply before_false.
Qed.

Lemma Begin_spec d now holds d' held : Begin d now holds = Ok (d', held) ->
  advanced d d' /\ Targets d' = Targets d /\ in_utc now = true /\
  (if held then State d' = DeletionBlockedByLegalHold else State d' = DeletionInProgress) /\
  held = existsb (covers d now) holds.
Proof.
  unfold Begin. intros Hb. go_inv Hb. rewrite !orb_false_iff, !negb_false_iff in Hg. destruct Hg as (((Hv & Hz) & Hu) & Hn).
  assert (Hr : ~ at_rest (State d)).
  { unfold at_rest. intros [Hs|Hs]; rewrite Hs in Hg0; discriminate Hg0. }
  destruct (existsb (covers d now) holds) eqn:He; injection Hb as <- <-; (split; [|done]).
  all: apply next_advanced; [reflexivity | done | done | done | by intros Hc ?; apply Hc | done].
Qed.

Lemma covered_kept d targets state now failure :
  covered d -> (forall t, t ∈ targets -> deleted t = true -> t ∈ Targets d) ->
  covered (next_deletion d state targets now (BackupExpiresAt d) failure).
Proof.
  intros Hc Hin Hpos. specialize (Hc Hpos). rewrite Forall_forall in Hc |- *. intros t Ht Hd. cbn in *. apply Hc; auto.
Qed.

Lemma MarkTargetFailed_spec d kind reference class now d' : MarkTargetFailed d kind reference class now = Ok d' -> advanced d d'.
Proof.
  unfold MarkTargetFailed. intros Hm. go_inv Hm. rewrite !orb_false_iff, !negb_false_iff, del_state_is_true in Hg.
  destruct Hg as ((((Hv & Hs) & Ht) & Hn) & Hu). apply next_advanced; [| | | done | | done].
  - apply kept_map, mark_failed_spec.
  - rewrite Hs. by intros [?|?].
  - done.
  - intros Hc. apply covered_kept; [done|]. intros t Hin Hd. apply list_elem_of_fmap in Hin as (t0 & -> & Hin).
    unfold mark_failed in *. destruct (matches kind reference t0 && negb (deleted t0)) eqn:Hb; [|done].
    unfold deleted in Hd, Hb. cbn in Hd. rewrite Hd in Hb. by rewrite andb_false_r in Hb.
Qed.

Lemma SuspendForHold_spec d now d' : SuspendForHold d now = Ok d' -> advanced d d' /\ Targets d' = Targets d.
Proof.
  unfold SuspendForHold. intros Hm. go_inv Hm. rewrite !orb_false_iff, !negb_false_iff, del_state_is_true in Hg.
  destruct Hg as (((Hv & Hs) & Hn) & Hu). split; [|done]. apply next_advanced; [reflexivity | | done | done | by intros Hc ?; apply Hc | done].
  rewrite Hs. by intros [?|?].
Qed.

Lemma extend_backup_ge d now : instant (BackupExpiresAt d) <= instant (extend_backup d now) /\
  (0 < BackupRetention d -> instant now + BackupRetention d <= instant (extend_backup d now)).
Proof.
  unfold extend_backup. destruct (0 <? BackupRetention d) eqn:Hp, (after (add now (BackupRetention d)) (BackupExpiresAt d)) eqn:Ha;
    cbn [andb]; time_solve.
Qed.

Lemma MarkTargetDeleted_spec d kind reference now d' : MarkTargetDeleted d kind reference now = Ok d' -> advanced d d'.
Proof.
  unfold MarkTargetDeleted. intros Hm. go_inv Hm. rewrite !orb_false_iff, !negb_false_iff, del_state_is_true in Hg.
  destruct Hg as (((Hv & Hs) & Hn) & Hu). destruct (extend_backup_ge d now) as [He Hret].
  set (fresh := existsb _ (Targets d)). apply next_advanced; [| | | | | done].
  - apply kept_map, mark_deleted_spec.
  - rewrite Hs. by intros [?|?].
  - destruct (forallb deleted _) eqn:Hall; [done|]. by rewrite Hs.
  - by destruct fresh.
  - intros Hc Hpos. specialize (Hc Hpos). cbn in Hpos |- *. rewrite Forall_forall in Hc |- *. intros t Hin Hd.
    apply list_elem_of_fmap in Hin as (t0 & -> & Hin). unfold mark_deleted in *.
    destruct (matches kind reference t0 && negb (deleted t0)) eqn:Hb.
    + assert (fresh = true) as ->; [|cbn; auto]. apply existsb_exists. exists t0. split; [by apply list_elem_of_In | done].
    + specialize (Hc t0 Hin Hd). cbn. destruct fresh; lia.
Qed.

Lemma Complete_spec d now d' : Complete d now = Ok d' ->
  State d = DeletionAwaitingBackup /\ instant (BackupExpiresAt d) <= instant now /\ in_utc now = true /\ Validate d = true /\
  d' = next_deletion d DeletionCompleted (Targets d) now (BackupExpiresAt d) (FailureClass d).
Proof.
  unfold Complete. intros Hm. go_inv Hm. rewrite !orb_false_iff, !negb_false_iff, del_state_is_true, before_false in Hg. tauto.
Qed.

(** ** The stored row *)
Module DeletionInvariant.
Import DeletionStore.

Lemma valid_parts d : Validate d = true ->
  1 <= Version d /\ NoDup (map target_key (Targets d)) /\ 0 <= BackupRetention d /\ forallb (target_valid (Region d)) (Targets d) = true /\
  Targets d <> [] /\ instant (RequestedAt d) <> 0 /\ ID d <> ""%string.
Proof.
  unfold Validate. rewrite !andb_true_iff, negb_true_iff, !orb_false_iff, no_dupb_NoDup. intros [[H Ht] Hn].
  destruct H as (((((((((((((H1 & _) & H3) & _) & _) & H6) & H7) & _) & _) & _) & _) & _) & H13) & _). bprop. unfold is_zero in H7. bprop.
  split_and!; try done; try lia. intros Hnil. by rewrite Hnil in *.
Qed.

(** The targets saved under the same keys are the targets written. *)
Lemma find_same ts : NoDup (map target_key ts) -> forall r i t, ts !! i = Some t -> ident r = ident t ->
  List.find (same_target r) ts = Some t.
Proof.
  intros Hn. induction ts as [|x ts IH]; intros r i t Hi Hid; [done|]. cbn [map] in Hn. apply NoDup_cons in Hn as [Hx Hn].
  injection Hid as Hk Hr Hg. cbn [List.find]. destruct i as [|i]; cbn in Hi.
  - injection Hi as ->. assert (same_target r t = true) as ->; [|done]. unfold same_target, matches. by rewrite Hk, Hr, !String.eqb_refl.
  - destruct (same_target r x) eqn:Hs.
    + exfalso. apply Hx. unfold same_target, matches in Hs. apply andb_true_iff in Hs as [Hk' Hr'].
      apply String.eqb_eq in Hk', Hr'. apply list_elem_of_fmap. exists t. split; [|by eapply list_elem_of_lookup_2].
      unfold target_key. congruence.
    + apply (IH Hn r i); [done|]. unfold ident. congruence.
Qed.

Lemma write_targets rs ts : NoDup (map target_key ts) -> map ident rs = map ident ts -> map (write_target ts) rs = ts.
Proof.
  intros Hn Hid. apply list_eq. intros i. etrans; [apply (list_lookup_fmap (write_target ts))|].
  assert (Hi : ident <$> rs !! i = ident <$> ts !! i) by (rewrite <- !list_lookup_fmap; exact (f_equal (fun m => m !! i) Hid)).
  destruct (rs !! i) as [r|] eqn:Hr, (ts !! i) as [t|] eqn:Ht; try done. injection Hi as Hk Href Hg. cbn. f_equal.
  unfold write_target. rewrite (find_same ts Hn r i t Ht) by (unfold ident; congruence). destruct t. cbn in *. by subst.
Qed.

Lemma Save_spec db d expected c db' :
  Save db d expected c = Ok db' -> same_identity (row db) d ->
  db' = mk_database d (tombstone db) /\ Version (row db) = expected /\ Validate d = true.
Proof.
  unfold Save. intros Hs (H1 & H2 & H3 & H4 & H5 & H6). go_inv Hs. rewrite !orb_false_iff, !negb_false_iff in *. bprop.
  destruct (valid_parts d ltac:(done)) as (_ & Hn & _). split; [|done]. f_equal. rewrite write_targets by done. destruct d. cbn in *. by subst.
Qed.

Lemma wrap_step v : 1 <= v <= max_int64 -> 1 <= wrap_int64 (v + 1) -> wrap_int64 (v + 1) = v + 1 /\ v + 1 <= max_int64.
Proof.
  intros Hv Hw. destruct (Z.eq_dec v max_int64) as [->|Hne]; [done|]. unfold max_int64 in *.
  rewrite wrap_int64_id by (unfold min_int64, max_int64; lia). lia.
Qed.

Lemma Validate_alt d : Validate d = true <->
  0 <= BackupRetention d <= backup_default /\ ID d <> ""%string /\ token (AggregateID d) 200 = true /\ validRegion (Region d) = true /\
  1 <= Version d /\ instant (RequestedAt d) <> 0 /\ in_utc (RequestedAt d) = true /\ instant (RequestedAt d) <= instant (UpdatedAt d) /\
  in_utc (UpdatedAt d) = true /\ instant (RequestedAt d) < instant (BackupExpiresAt d) /\ in_utc (BackupExpiresAt d) = true /\
  0 < llen (Targets d) <= 256 /\ Forall (fun t => target_valid (Region d) t = true) (Targets d) /\ NoDup (map target_key (Targets d)).
Proof.
  unfold Validate, is_zero. rewrite !andb_true_iff, negb_true_iff, !orb_false_iff, !negb_false_iff, no_dupb_NoDup, forallb_forall, Forall_forall.
  rewrite !Z.ltb_ge, !Z.eqb_neq, String.eqb_neq, before_false, after_true. setoid_rewrite list_elem_of_In.
  pose proof (llen_nonneg (Targets d)). intuition lia.
Qed.

Lemma Complete_valid d now d' : Complete d now = Ok d' -> 1 <= Version d' -> Validate d' = true.
Proof.
  intros Hc Hver. destruct (Complete_spec _ _ _ Hc) as (_ & Hb & Hu & Hv & ->). apply Validate_alt in Hv as
    (? & ? & ? & ? & ? & ? & ? & ? & ? & ? & ? & ? & ? & ?). apply Validate_alt. cbn in *. split_and!; try done; lia.
Qed.

Lemma next_valid d state targets now expires failure :
  Validate d = true -> map ident targets = map ident (Targets d) -> instant (UpdatedAt d) <= instant now -> in_utc now = true ->
  instant (BackupExpiresAt d) <= instant expires -> in_utc expires = true -> Version d < max_int64 ->
  Validate (next_deletion d state targets now expires failure) = true.
Proof.
  intros Hv Hid Hnow Hutc Hexp Hexpu Hver. apply Validate_alt in Hv as (? & ? & ? & ? & ? & ? & ? & ? & ? & ? & ? & Hl & Hall & Hn).
  apply Validate_alt. cbn. rewrite wrap_int64_id by (unfold min_int64, max_int64 in *; lia).
  assert (Hlen : llen targets = llen (Targets d)) by (unfold llen; rewrite <- (length_map ident), Hid; by rewrite length_map).
  assert (Hkeys : map target_key targets = map target_key (Targets d)).
  { assert (Hf : forall l, map target_key l = map (fun x : string * string * string => x.1.1 +:+ String "000" x.1.2) (map ident l))
      by (intros l; rewrite map_map; by apply map_ext). by rewrite !Hf, Hid. }
  assert (Hvalid : Forall (fun t => target_valid (Region d) t = true) targets).
  { assert (Hf : forall l, Forall (fun t => target_valid (Region d) t = true) l <->
      Forall (fun x : string * string * string => token x.1.1 64 && token x.1.2 2048 && String.eqb x.2 (Region d) = true) (map ident l))
      by (intros l; rewrite Forall_map; done). rewrite Hf, Hid. by apply Hf. }
  rewrite Hlen, Hkeys. split_and!; try done; lia.
Qed.

Section Workers.
Context (proof_digest : Deletion -> string).

(** The invariant of the row, relative to the row first stored. *)
Record row_ok (d0 : Deletion) (db : Database) : Prop := {
  ro_valid : Validate (row db) = true;
  ro_int64 : Version (row db) <= max_int64;
  ro_identity : same_identity d0 (row db);
  ro_covered : covered (row db);
  ro_rest : at_rest (State (row db)) -> forallb deleted (Targets (row db)) = true;
  ro_tombstone : tombstone db = if state_is (State (row db)) DeletionCompleted then Some (tombstoneFor proof_digest (row db)) else None;
  ro_boundary : State (row db) = DeletionCompleted -> instant (BackupExpiresAt (row db)) <= instant (UpdatedAt (row db));
}.

(** The deletion a worker holds is the row, or an older version of it. *)
Definition snapshot_ok (r d : Deletion) : Prop := Version d <= Version r /\ (Version d = Version r -> d = r).

Definition local_ok (r : Deletion) (l : Local) : Prop :=
  match l with
  | Loaded d now => snapshot_ok r d /\ in_utc now = true
  | Erasing d _ => snapshot_ok r d
  | Idle | Returned _ => True
  end.

(** What a step does to the row. *)
Inductive row_step (db : Database) : Database -> Prop :=
| row_same : row_step db db
| row_advance d' : advanced (row db) d' -> Validate d' = true -> row_step db (mk_database d' (tombstone db))
| row_complete now d' : Complete (row db) now = Ok d' -> 1 <= Version d' -> tombstone db = None ->
    row_step db (mk_database d' (Some (tombstoneFor proof_digest d'))).

Lemma Save_version db d expected c db' : Save db d expected c = Ok db' -> Version (row db) = expected /\ Validate d = true.
Proof. unfold Save. intros Hs. go_inv Hs. rewrite !orb_false_iff, !negb_false_iff in *. bprop. done. Qed.

Lemma save_then_spec db d d' c k l' db' :
  save_then db d' (Version d) c k = (l', db') -> snapshot_ok (row db) d -> (d = row db -> Validate d' = true -> advanced d d') ->
  row_step db db' /\ ((l' = k /\ row db' = d') \/ (db' = db /\ exists e, l' = Returned (Err e))).
Proof.
  unfold save_then. intros Hs [_ Hsnap] Hadv. destruct (Save db d' (Version d) c) as [db1|e] eqn:Hsave; injection Hs as <- <-.
  - destruct (Save_version _ _ _ _ _ Hsave) as [Hver Hval]. symmetry in Hver. specialize (Hsnap Hver).
    specialize (Hadv Hsnap Hval). rewrite Hsnap in Hadv. destruct (Save_spec _ _ _ _ _ Hsave (adv_identity _ _ Hadv)) as (-> & _).
    split; [by apply row_advance | by left].
  - split; [apply row_same | right; split; [done | by exists e]].
Qed.

Lemma complete_then_spec d0 db d now c l' db' :
  row_ok d0 db -> complete_then proof_digest db d now c = (l', db') -> snapshot_ok (row db) d ->
  row_step db db' /\ exists r, l' = Returned r.
Proof.
  intros Hok Hc [_ Hsnap]. unfold complete_then in Hc. destruct (Complete d now) as [d'|e] eqn:Hd; [|injection Hc as <- <-; split; [apply row_same | eauto]].
  destruct (CompleteWithTombstone _ _ _ _ _) as [db1|e] eqn:Hct; injection Hc as <- <-; [|split; [apply row_same | eauto]].
  split; [|eauto]. unfold CompleteWithTombstone in Hct. go_inv Hct. rewrite !orb_false_iff, !negb_false_iff in *. bprop.
  assert (d = row db) as -> by (by apply Hsnap). destruct (Complete_spec _ _ _ Hd) as (Hs & _ & _ & _ & Heq).
  pose proof (ro_tombstone _ _ Hok) as Ht. rewrite Hs in Ht. change (state_is DeletionAwaitingBackup DeletionCompleted) with false in Ht.
  rewrite Ht in Hct. injection Hct as <-.
  match goal with |- row_step _ ?x => assert (x = mk_database d' (Some (tombstoneFor proof_digest d'))) as -> by (by rewrite Heq) end.
  by apply (row_complete db now).
Qed.

Lemma work_spec d0 db l i l' db' :
  row_ok d0 db -> local_ok (row db) l -> in_utc (clock i) = true -> work proof_digest l i db = (l', db') ->
  row_step db db' /\ local_ok (row db') l'.
Proof.
  intros Hok Hl Hclock Hw. unfold work in Hw. destruct (crash i); [injection Hw as <- <-; split; [apply row_same | done]|].
  assert (Hself : forall r, snapshot_ok r r) by (by split).
  destruct l as [|d now|d [|target rest]|r].
  - unfold Find in Hw. destruct (negb (Validate (row db))); injection Hw as <- <-; (split; [apply row_same|]); [done | by split].
  - destruct Hl as [Hsnap Hnow]. destruct (state_is (State d) DeletionCompleted); [injection Hw as <- <-; split; [apply row_same | done]|].
    destruct (state_is (State d) DeletionAwaitingBackup).
    + destruct (before now (BackupExpiresAt d)); [injection Hw as <- <-; split; [apply row_same | done]|].
      destruct (complete_then_spec _ _ _ _ _ _ _ Hok Hw Hsnap) as [? [r ->]]. done.
    + unfold begin_erasure in Hw. destruct (holds i) as [hs|e]; [|injection Hw as <- <-; split; [apply row_same | done]].
      destruct (Begin d now hs) as [[d' held]|e] eqn:Hb.
      * assert (Hadv : d = row db -> Validate d' = true -> advanced d d') by (intros _ _; by apply (Begin_spec d now hs d' held)).
        destruct held; destruct (save_then_spec _ _ _ _ _ _ _ Hw Hsnap Hadv) as [Hstep [[-> Hrow]|(-> & e & ->)]]; (split; [done|]); try done.
        cbn. rewrite Hrow. apply Hself.
      * unfold save_then in Hw. destruct (Save _ _ _ _) as [db1|e1] eqn:Hsave; [|injection Hw as <- <-; split; [apply row_same | done]].
        apply Save_version in Hsave as [_ Hz]. discriminate Hz.
  - destruct (before (clock i) (BackupExpiresAt d)); [injection Hw as <- <-; split; [apply row_same | done]|].
    destruct (complete_then_spec _ _ _ _ _ _ _ Hok Hw Hl) as [? [r ->]]. done.
  - unfold erase_target in Hw. destruct (deleted target); [injection Hw as <- <-; split; [apply row_same | done]|].
    destruct (answer i) as [| |class].
    + destruct (MarkTargetDeleted _ _ _ _) as [d'|e] eqn:Hm; [|injection Hw as <- <-; split; [apply row_same | done]].
      assert (Hadv : d = row db -> Validate d' = true -> advanced d d') by (intros _ _; by eapply MarkTargetDeleted_spec).
      destruct (save_then_spec _ _ _ _ _ _ _ Hw Hl Hadv) as [Hstep [[-> Hrow]|(-> & e & ->)]]; (split; [done|]); try done.
      cbn. rewrite Hrow. apply Hself.
    + destruct (SuspendForHold _ _) as [d'|e] eqn:Hm; [|injection Hw as <- <-; split; [apply row_same | done]].
      assert (Hadv : d = row db -> Validate d' = true -> advanced d d') by (intros _ _; by apply (SuspendForHold_spec d (clock i))).
      destruct (save_then_spec _ _ _ _ _ _ _ Hw Hl Hadv) as [Hstep [[-> Hrow]|(-> & e & ->)]]; (split; [done|]); done.
    + destruct (MarkTargetFailed _ _ _ _ _) as [d'|e] eqn:Hm.
      * assert (Hadv : d = row db -> Validate d' = true -> advanced d d') by (intros _ _; by eapply MarkTargetFailed_spec).
        destruct (save_then_spec _ _ _ _ _ _ _ Hw Hl Hadv) as [Hstep [[-> Hrow]|(-> & e & ->)]]; (split; [done|]); done.
      * unfold save_then in Hw. destruct (Save _ _ _ _) as [db1|e1] eqn:Hsave; [|injection Hw as <- <-; split; [apply row_same | done]].
        apply Save_version in Hsave as [_ Hz]. discriminate Hz.
  - injection Hw as <- <-. split; [apply row_same | done].
Qed.

Lemma Create_ok d actor db : Create d actor = Ok db -> State d = DeletionRequested -> Version d <= max_int64 ->
  forallb (fun t => negb (deleted t)) (Targets d) = true -> row_ok (row db) db.
Proof.
  unfold Create. intros Hc Hs Hver Hfresh. go_inv Hc. rewrite orb_false_iff, negb_false_iff in Hg. destruct Hg as [Hv _].
  assert (Hp := sort_by_perm target_key (Targets d)). constructor; cbn [row tombstone State Version Targets]; try done.
  - apply Validate_alt in Hv as (Hret & ? & ? & ? & ? & ? & ? & ? & ? & ? & ? & Hl & ? & ?). apply Validate_alt. cbn.
    assert (Hdiv : BackupRetention d / second * second <= BackupRetention d).
    { pose proof (Z.mul_div_le (BackupRetention d) second eq_refl). lia. }
    assert (0 <= BackupRetention d / second * second).
    { pose proof (Z.div_pos (BackupRetention d) second ltac:(lia) ltac:(done)). unfold second in *. lia. }
    unfold llen in *. rewrite !Hp. split_and!; try done; lia.
  - intros Hpos. apply Forall_forall. intros t Hin Hd. exfalso. cbn in Hin. rewrite elem_of_sort_by in Hin. rewrite forallb_forall in Hfresh.
    apply list_elem_of_In in Hin. specialize (Hfresh t Hin). by rewrite Hd in Hfresh.
  - rewrite Hs. by intros [?|?].
  - by rewrite Hs.
  - by rewrite Hs.
Qed.

(** A step of the row keeps the invariant, the copies and the order of versions. *)
Lemma row_step_ok d0 db db' : row_ok d0 db -> row_step db db' ->
  row_ok d0 db' /\ kept (Targets (row db)) (Targets (row db')) /\
  (db' = db \/ (Version (row db') = Version (row db) + 1 /\ State (row db) <> DeletionCompleted)).
Proof.
  intros Hok Hs. pose proof Hok as [Hv Hmax Hid Hc Hr Ht Hb]. assert (Hpos := Hv). apply valid_parts in Hpos as (Hpos & _).
  destruct Hs as [|d' [Ai Av Ak Af At Ae Ac Au] Hval|now d' Hco Hver Hnone]; [split_and!; [done | reflexivity | by left] | |].
  - destruct (valid_parts d' Hval) as (Hpos' & _). destruct (wrap_step (Version (row db)) ltac:(lia) ltac:(rewrite <- Av; lia)) as [Hw Hle].
    split_and!; [| done |].
    + constructor; cbn [row tombstone]; try done; try lia.
      * by rewrite Hid.
      * by apply Ac.
      * intros [Hw'|Hw']; [by apply At | by destruct At].
      * rewrite Ht. destruct (state_is (State (row db)) DeletionCompleted) eqn:Hsd; [apply del_state_is_true in Hsd; exfalso; apply Af; by right|].
        destruct At as [At _]. by rewrite (proj2 (del_state_is_false _ _) At).
      * intros Hw'. by destruct At.
    + right. cbn. split; [lia|]. intros Hw'. apply Af. by right.
  - destruct (Complete_spec _ _ _ Hco) as (Hstate & Hexp & Hutc & _ & Heq). pose proof (Complete_valid _ _ _ Hco Hver) as Hval.
    assert (Hvd : Version d' = wrap_int64 (Version (row db) + 1)) by (by rewrite Heq).
    destruct (wrap_step (Version (row db)) ltac:(lia) ltac:(rewrite <- Hvd; lia)) as [Hw Hle].
    split_and!.
    + constructor; cbn [row tombstone]; try done; try lia.
      * rewrite Hid, Heq. done.
      * rewrite Heq. intros Hret. by apply Hc.
      * intros _. rewrite Heq. cbn. apply Hr. by left.
      * by rewrite Heq.
      * rewrite Heq. by cbn.
    + cbn. rewrite Heq. reflexivity.
    + right. cbn. split; [lia|]. by rewrite Hstate.
Qed.

Definition world_ok (d0 : Deletion) (w : World) : Prop :=
  row_ok d0 (database w) /\ Forall (local_ok (row (database w))) (workers w).

Lemma local_ok_later r r' l : Version r' = Version r + 1 -> local_ok r l -> local_ok r' l.
Proof.
  intros Hv. destruct l as [|d now|d todo|res]; cbn; try done; unfold snapshot_ok.
  - intros [[? _] ?]. split; [|done]. split; [lia|]. intros. lia.
  - intros [? _]. split; [lia|]. intros. lia.
Qed.

Lemma world_step_ok d0 w w' : world_ok d0 w -> world_step proof_digest w w' ->
  world_ok d0 w' /\ row_step (database w) (database w').
Proof.
  intros [Hok Hl] Hs. destruct Hs as [w k l i l' db' Hk Hc1 Hc2 Hw].
  assert (Hlk : local_ok (row (database w)) l) by (by eapply Forall_lookup_1 in Hl).
  destruct (work_spec _ _ _ _ _ _ Hok Hlk Hc1 Hw) as [Hstep Hl']. destruct (row_step_ok _ _ _ Hok Hstep) as (Hok' & _ & Hver).
  split; [|done]. split; [done|]. cbn [database workers]. apply Forall_insert; [|done].
  eapply Forall_impl; [exact Hl|]. intros x Hx. destruct Hver as [->|[Hver _]]; [done | by eapply local_ok_later].
Qed.

(** Everything later of a world. *)
Lemma world_later d0 w w' : world_ok d0 w -> rtc (world_step proof_digest) w w' ->
  world_ok d0 w' /\ kept (Targets (row (database w))) (Targets (row (database w'))) /\
  Version (row (database w)) <= Version (row (database w')) /\
  (Version (row (database w)) = Version (row (database w')) -> database w' = database w) /\
  (State (row (database w)) = DeletionCompleted -> database w' = database w).
Proof.
  intros Hok Hs. induction Hs as [w|w w1 w' Hs _ IH]; [split_and!; done || reflexivity|].
  destruct (world_step_ok _ _ _ Hok Hs) as [Hok1 Hrow]. destruct Hok as [Hrok _]. destruct (row_step_ok _ _ _ Hrok Hrow) as (_ & Hk & Hver).
  destruct (IH Hok1) as (Hok' & Hk' & Hle & Heq & Hfin). split_and!; [done | by etrans | | |].
  - destruct Hver as [Hdb|[Hv _]]; [rewrite Hdb in *; done | lia].
  - destruct Hver as [Hdb|[Hv _]]; [rewrite Hdb in *; done | lia].
  - intros Hcomp. destruct Hver as [Hdb|[_ Hv]]; [rewrite Hdb in *; auto | done].
Qed.

Lemma start_world_ok db n : row_ok (row db) db -> world_ok (row db) (start_world db n).
Proof. intros Hok. split; [done|]. apply Forall_forall. intros l Hl. apply repeat_spec with (n := n), list_elem_of_In in Hl || apply list_elem_of_In, repeat_spec in Hl; by subst. Qed.

(** ** A run that is not interrupted *)

Lemma Save_commits db d' : same_identity (row db) d' -> Validate d' = true -> Validate (row db) = true ->
  Version d' = wrap_int64 (Version (row db) + 1) -> Save db d' (Version (row db)) true = Ok (mk_database d' (tombstone db)).
Proof.
  intros Hid Hv Hvr Hver. destruct (valid_parts _ Hvr) as (Hpos & Hn & _). destruct (Save db d' (Version (row db)) true) as [db1|e] eqn:Hs.
  - by destruct (Save_spec _ _ _ _ _ Hs Hid) as (-> & _).
  - exfalso. unfold Save in Hs. rewrite Hv, Hver, (proj2 (Z.ltb_ge _ _) Hpos), !Z.eqb_refl in Hs. destruct Hid as (_ & Hi & _ & _ & _ & Ht).
    rewrite Hi, String.eqb_refl in Hs. cbn [negb orb] in Hs.
    assert (Hall : forallb (fun s => existsb (same_target s) (Targets (row db))) (Targets d') = true); [|by rewrite Hall in Hs].
    apply forallb_forall. intros s Hin. apply list_elem_of_In, list_elem_of_lookup in Hin as [k Hk].
    assert (Hk' : ident <$> Targets (row db) !! k = ident <$> Targets d' !! k) by (rewrite <- !list_lookup_fmap; exact (f_equal (fun m => m !! k) Ht)).
    rewrite Hk in Hk'. destruct (Targets (row db) !! k) as [t|] eqn:Htk; [|done]. injection Hk' as H1 H2 H3. apply existsb_exists. exists t.
    split; [by apply list_elem_of_In; eapply list_elem_of_lookup_2|]. unfold same_target, matches. by rewrite H1, H2, !String.eqb_refl.
Qed.

Fixpoint drive (l : Local) (inputs : list Input) (db : Database) : Local * Database :=
  match inputs with
  | [] => (l, db)
  | i :: rest => let '(l', db') := work proof_digest l i db in drive l' rest db'
  end.

(** Nothing goes wrong: no crash, every transaction commits, the eraser erases,
    no hold covers the aggregate and the clock does not go back. *)
Definition smooth (aggregate : string) (t : Time) (i : Input) : Prop :=
  crash i = false /\ commit i = true /\ answer i = Erased /\
  (exists hs, holds i = Ok hs /\ forall d now, AggregateID d = aggregate -> existsb (covers d now) hs = false) /\
  in_utc (clock i) = true /\ in_utc (clock_again i) = true /\ instant t <= instant (clock i) <= instant (clock_again i).
Fixpoint smooth_from (aggregate : string) (t : Time) (inputs : list Input) : Prop :=
  match inputs with
  | [] => True
  | i :: rest => smooth aggregate t i /\ smooth_from aggregate (clock i) rest
  end.

(** In the loop: the copies passed are erased, the others as they were. *)
Definition looping (d : Deletion) (db : Database) (passed todo : list Target) : Prop :=
  row db = d /\ Validate d = true /\ Targets d = passed ++ todo /\ forallb deleted passed = true /\
  State d = (if forallb deleted (Targets d) then DeletionAwaitingBackup else DeletionInProgress) /\ tombstone db = None.

Lemma mark_deleted_others now t l : NoDup (map target_key (t :: l)) -> map (mark_deleted (Kind t) (Reference t) now) l = l.
Proof.
  intros Hn. cbn [map] in Hn. apply NoDup_cons in Hn as [Hnot _]. induction l as [|x l IH]; [done|]. cbn in Hnot |- *.
  rewrite IH by set_solver. f_equal. unfold mark_deleted, matches.
  destruct (String.eqb (Kind x) (Kind t) && String.eqb (Reference x) (Reference t)) eqn:Hm; [|done]. exfalso. bprop. apply Hnot.
  assert (target_key t = target_key x) as -> by (unfold target_key; congruence). by left.
Qed.

Lemma mark_deleted_one now passed t rest :
  NoDup (map target_key (passed ++ t :: rest)) -> deleted t = false ->
  map (mark_deleted (Kind t) (Reference t) now) (passed ++ t :: rest) =
  passed ++ mk_target (Kind t) (Reference t) (TargetRegion t) now (next_attempt t) "" :: rest.
Proof.
  intros Hn Hd. rewrite map_app in Hn |- *. cbn [map] in *. apply NoDup_app in Hn as (Hp & Hdis & Hr).
  assert (Hp' : map (mark_deleted (Kind t) (Reference t) now) passed = passed).
  { apply mark_deleted_others. cbn [map]. apply NoDup_cons. split; [|done]. intros Hin. apply (Hdis (target_key t)); [done | by left]. }
  rewrite Hp'. f_equal. f_equal; [|by apply mark_deleted_others].
  unfold mark_deleted, matches. by rewrite !String.eqb_refl, Hd.
Qed.

Lemma erase_smooth d db passed target rest i :
  looping d db passed (target :: rest) -> smooth (AggregateID d) (UpdatedAt d) i -> Version d < max_int64 -> 0 < instant (UpdatedAt d) ->
  exists d' target', work proof_digest (Erasing d (target :: rest)) i db = (Erasing d' rest, mk_database d' None) /\
    looping d' (mk_database d' None) (passed ++ [target']) rest /\ Version d' <= Version d + 1 /\
    instant (UpdatedAt d') <= instant (clock i) /\ instant (UpdatedAt d) <= instant (UpdatedAt d') /\ AggregateID d' = AggregateID d.
Proof.
  intros (Hrow & Hv & Ht & Hp & Hs & Hnone) (Hcr & Hco & Ha & _ & Hu & _ & Hle) Hver Hpos. unfold work. rewrite Hcr. unfold erase_target.
  destruct (deleted target) eqn:Hd.
  - exists d, target. assert (db = mk_database d None) as Hdb by (destruct db; cbn in *; congruence). rewrite <- Hdb. split; [done|].
    split_and!; try done; try lia. split_and!; try done.
    + rewrite <- app_assoc. exact Ht.
    + by rewrite forallb_app, Hp, <- Hd; cbn; rewrite Hd.
  - rewrite Ha. set (target' := mk_target (Kind target) (Reference target) (TargetRegion target) (clock i) (next_attempt target) "").
    destruct (valid_parts d Hv) as (Hv1 & Hn & _). pose proof (mark_deleted_one (clock i) passed target rest) as Hmark.
    rewrite <- Ht in Hmark. specialize (Hmark Hn Hd). fold target' in Hmark.
    assert (Hnot : forallb deleted (Targets d) = false) by (rewrite Ht, forallb_app; cbn; by rewrite Hd, andb_false_r).
    rewrite Hnot in Hs. assert (Hfresh : existsb (fun t => matches (Kind target) (Reference target) t && negb (deleted t)) (Targets d) = true).
    { apply existsb_exists. exists target. rewrite Ht. split; [apply in_app_iff; right; by left|]. unfold matches. by rewrite !String.eqb_refl, Hd. }
    assert (Hex : existsb (matches (Kind target) (Reference target)) (Targets d) = true).
    { apply existsb_exists. exists target. rewrite Ht. split; [apply in_app_iff; right; by left|]. unfold matches. by rewrite !String.eqb_refl. }
    assert (Hd' : deleted target' = true) by (unfold deleted, is_zero; cbn; apply negb_true_iff, Z.eqb_neq; lia).
    set (d' := next_deletion d (if forallb deleted (passed ++ target' :: rest) then DeletionAwaitingBackup else DeletionInProgress)
      (passed ++ target' :: rest) (clock i) (extend_backup d (clock i)) (FailureClass d)).
    assert (Hm : MarkTargetDeleted d (Kind target) (Reference target) (clock i) = Ok d').
    { unfold MarkTargetDeleted. rewrite Hv, Hs, Hu, (proj2 (before_false _ _)) by lia. cbn [negb orb]. rewrite Hex, Hfresh, Hmark. done. }
    rewrite Hm. pose proof (MarkTargetDeleted_spec _ _ _ _ _ Hm) as Hadv.
    assert (Hval : Validate d' = true).
    { destruct (extend_backup_ge d (clock i)) as [He _]. apply next_valid; try done; try lia.
      - rewrite <- Hmark. symmetry. apply kept_ident, kept_map, mark_deleted_spec.
      - apply Validate_alt in Hv as (_ & _ & _ & _ & _ & _ & _ & _ & _ & _ & Hx & _). unfold extend_backup. by case_match. }
    unfold save_then. rewrite Hco. pose proof (Save_commits db d') as Hsave. rewrite Hrow in Hsave. specialize (Hsave (adv_identity _ _ Hadv) Hval Hv (adv_version _ _ Hadv)).
    rewrite Hsave, Hnone. exists d', target'. split; [done|]. split_and!; try done; try (cbn; lia).
    + split_and!; try done; cbn.
      * by rewrite <- app_assoc.
      * by rewrite forallb_app, Hp; cbn; rewrite Hd'.
    + cbn. rewrite wrap_int64_id by (unfold min_int64, max_int64 in *; lia). lia.
Qed.

Lemma smooth_earlier aggregate t t' inputs : smooth_from aggregate t inputs -> instant t' <= instant t -> smooth_from aggregate t' inputs.
Proof. destruct inputs as [|i l]; [done|]. cbn. intros [(? & ? & ? & ? & ? & ? & ?) Hr] Hle. split; [|done]. split_and!; done || lia. Qed.

Definition last_clock (t : Time) (inputs : list Input) : Time := default t (clock <$> last inputs).

Lemma drive_loop todo : forall d db passed inputs,
  looping d db passed todo -> length inputs = length todo -> smooth_from (AggregateID d) (UpdatedAt d) inputs ->
  Version d + llen todo <= max_int64 -> 0 < instant (UpdatedAt d) ->
  exists d', drive (Erasing d todo) inputs db = (Erasing d' [], mk_database d' None) /\ looping d' (mk_database d' None) (Targets d') [] /\
    Version d' <= Version d + llen todo /\ instant (UpdatedAt d') <= instant (last_clock (UpdatedAt d) inputs) /\ AggregateID d' = AggregateID d.
Proof.
  induction todo as [|target rest IH]; intros d db passed inputs Hl Hlen Hsm Hver Hpos.
  - destruct inputs; [|done]. exists d. destruct Hl as (Hrow & Hv & Ht & Hp & Hs & Hnone). rewrite app_nil_r in Ht.
    assert (db = mk_database d None) as -> by (destruct db; cbn in *; congruence). split; [done|]. split; [|unfold llen, last_clock; cbn; split_and!; done || lia].
    unfold looping. rewrite app_nil_r, Ht in *. split_and!; done.
  - destruct inputs as [|i inputs]; [done|]. injection Hlen as Hlen. cbn in Hsm. destruct Hsm as [Hi Hsm].
    assert (Hllen : llen (target :: rest) = llen rest + 1) by (unfold llen; cbn; lia). pose proof (llen_nonneg rest).
    assert (Hlt : Version d < max_int64) by lia.
    destruct (erase_smooth d db passed target rest i Hl Hi Hlt Hpos) as (d1 & t1 & Hw & Hl1 & Hv1 & Hu1 & Hu2 & Ha1).
    assert (Hsm1 : smooth_from (AggregateID d1) (UpdatedAt d1) inputs) by (rewrite Ha1; by apply (smooth_earlier _ (clock i))).
    destruct (IH d1 _ _ inputs Hl1 Hlen Hsm1 ltac:(lia) ltac:(lia)) as (d' & Hd & Hl' & Hv' & Hu' & Ha').
    exists d'. cbn [drive]. rewrite Hw. split; [done|]. split; [done|]. split; [lia|]. split; [|congruence].
    unfold last_clock in *. rewrite last_cons. destruct (last inputs) as [j|]; cbn in *; [done | lia].
Qed.

Lemma complete_smooth d i t :
  looping d (mk_database d None) (Targets d) [] -> smooth (AggregateID d) t i -> instant (UpdatedAt d) <= instant t ->
  forallb deleted (Targets d) = true -> Version d < max_int64 ->
  exists d', work proof_digest (Erasing d []) i (mk_database d None) =
      (Returned (Ok d'), mk_database d' (if state_is (State d') DeletionCompleted then Some (tombstoneFor proof_digest d') else None)) /\
    Targets d' = Targets d /\ at_rest (State d').
Proof.
  intros (_ & Hv & _ & _ & Hs & _) (Hcr & Hco & _ & _ & Hu & Hu' & Hle) Hupd Hall Hver. rewrite Hall in Hs. unfold work. rewrite Hcr.
  destruct (before (clock i) (BackupExpiresAt d)) eqn:Hb.
  - exists d. rewrite Hs. split; [done|]. split; [done | by left].
  - apply before_false in Hb. destruct (valid_parts d Hv) as (Hv1 & _).
    assert (Hc : Complete d (clock_again i) = Ok (next_deletion d DeletionCompleted (Targets d) (clock_again i) (BackupExpiresAt d) (FailureClass d))).
    { unfold Complete. rewrite Hv, Hs, Hu', (proj2 (before_false _ _)) by lia. done. }
    unfold complete_then. rewrite Hc, Hco. set (d' := next_deletion d _ _ _ _ _) in *.
    assert (Hpos : (Version d' <? 1) = false).
    { apply Z.ltb_ge. unfold d'. cbn. rewrite wrap_int64_id by (unfold min_int64, max_int64 in *; lia). lia. }
    unfold CompleteWithTombstone. rewrite Hpos. cbn [negb orb row tombstone]. change (ID d') with (ID d).
    rewrite String.eqb_refl, Z.eqb_refl. cbn [negb orb]. exists d'. split; [done|]. split; [done | by right].
Qed.

(** ** A row in progress that no worker holds *)
Definition stuck (r : Deletion) (l : Local) : Prop :=
  match l with Idle => True | Loaded d _ => d = r | Erasing _ _ => False | Returned res => is_ok res = false end.

Lemma stuck_step db l i l' db' :
  State (row db) = DeletionInProgress -> stuck (row db) l -> work proof_digest l i db = (l', db') -> db' = db /\ stuck (row db) l'.
Proof.
  intros Hs Hl Hw. unfold work in Hw. destruct (crash i); [by injection Hw as <- <-|]. destruct l as [|d now|d todo|r]; [| |done|].
  - unfold Find in Hw. destruct (negb (Validate (row db))); by injection Hw as <- <-.
  - cbn in Hl. subst d. rewrite Hs in Hw. cbn [state_is] in Hw. change (state_is DeletionInProgress DeletionCompleted) with false in Hw.
    change (state_is DeletionInProgress DeletionAwaitingBackup) with false in Hw. unfold begin_erasure in Hw.
    destruct (holds i) as [hs|e]; [|by injection Hw as <- <-].
    assert (Hb : exists e, Begin (row db) now hs = Err e).
    { unfold Begin. rewrite Hs. destruct (_ || _); [by eexists|]. by eexists. }
    destruct Hb as [e Hb]. rewrite Hb in Hw. unfold save_then in Hw.
    destruct (Save db zero_deletion _ _) as [db1|e1] eqn:Hsave; [|by injection Hw as <- <-]. apply Save_version in Hsave as [_ Hz]. discriminate Hz.
  - by injection Hw as <- <-.
Qed.

Lemma stuck_world w w' db : rtc (world_step proof_digest) w w' -> database w = db -> State (row db) = DeletionInProgress ->
  Forall (stuck (row db)) (workers w) -> database w' = db /\ Forall (stuck (row db)) (workers w').
Proof.
  intros Hw Hdb Hs. revert Hdb. induction Hw as [w|w w1 w' Hstep _ IH]; intros Hdb Hl; [done|].
  destruct Hstep as [w k l i l' db' Hk _ _ Hwork]. subst db.
  assert (Hlk : stuck (row (database w)) l) by (by eapply Forall_lookup_1 in Hl).
  destruct (stuck_step _ _ _ _ _ Hs Hlk Hwork) as [-> Hl']. apply IH; [done|]. by apply Forall_insert.
Qed.

Lemma drive_app l a b db : drive l (a ++ b) db = (let '(l', db') := drive l a db in drive l' b db').
Proof. revert l db. induction a as [|i a IH]; intros l db; [done|]. cbn. destruct (work proof_digest l i db). apply IH. Qed.

Lemma smooth_app aggregate t a b :
  smooth_from aggregate t (a ++ b) -> smooth_from aggregate t a /\ smooth_from aggregate (last_clock t a) b.
Proof.
  revert t. induction a as [|i a IH]; intros t; [done|]. cbn. intros [Hi Hr]. destruct (IH _ Hr) as [Ha Hb]. split; [done|].
  unfold last_clock in *. rewrite last_cons. destruct (last a) as [j|]; done.
Qed.
End Workers.
End DeletionInvariant.

(** ** Properties *)
Module DeletionSpec.
Import DeletionStore DeletionInvariant.

Section DeletionSpec.
Context (proof_digest : Deletion -> string).

(** C28: erasure under any interleaving.  From a created request, whatever any
    number of workers do, crash or are answered: the row stays valid and keeps
    its identity and its copies; an erased copy stays exactly as recorded;
    versions count the changes and one version is one content; a deletion waits
    for the backups or is completed only with every copy erased; it is completed
    exactly when its tombstone exists, which is the one of the row, not before
    its backup boundary, and for good; and a pinned backup retention has passed
    for every erased copy at that boundary. *)
Theorem erasure_reachable (d : Deletion) (actor : string) (db : Database) (n : nat) (w w' : World)
    (Hcreate : Create d actor = Ok db) (Hrequested : State d = DeletionRequested) (Hint : Version d <= max_int64)
    (Hfresh : forallb (fun t => negb (deleted t)) (Targets d) = true)
    (Hw : rtc (world_step proof_digest) (start_world db n) w) (Hw' : rtc (world_step proof_digest) w w') :
  let r := row (database w) in
  let r' := row (database w') in
  Validate r' = true /\ same_identity (row db) r' /\ kept (Targets r) (Targets r') /\
  Version r <= Version r' /\ (Version r = Version r' -> database w' = database w) /\
  (at_rest (State r') -> forallb deleted (Targets r') = true) /\
  (State r = DeletionCompleted -> database w' = database w) /\
  (State r' = DeletionCompleted -> instant (BackupExpiresAt r') <= instant (UpdatedAt r')) /\
  tombstone (database w') = (if state_is (State r') DeletionCompleted then Some (tombstoneFor proof_digest r') else None) /\
  (0 < BackupRetention r' ->
    Forall (fun t => deleted t = true -> instant (DeletedAt t) + BackupRetention r' <= instant (BackupExpiresAt r')) (Targets r')).
Proof.
  pose proof (start_world_ok proof_digest db n (Create_ok proof_digest _ _ _ Hcreate Hrequested Hint Hfresh)) as H0.
  destruct (world_later _ _ _ _ H0 Hw) as [H1 _]. destruct (world_later _ _ _ _ H1 Hw') as ([Hok' _] & Hk & Hle & Heq & Hfin).
  destruct Hok' as [Hv _ Hid Hc Hr Ht Hb]. cbv zeta. by split_and!.
Qed.

(** An interrupted erasure is stranded.  When the workers are gone while the
    row is in progress (a crash, or a transaction that failed, between two
    copies), no later run of any number of workers, with whatever answers,
    changes the row or succeeds: [Begin] refuses a deletion in progress. *)
Theorem interrupted_erasure_strands (w w' : World)
    (Hstate : State (row (database w)) = DeletionInProgress) (Hidle : Forall (fun l => l = Idle) (workers w))
    (Hw : rtc (world_step proof_digest) w w') :
  database w' = database w /\ Forall (fun l => forall d, l <> Returned (Ok d)) (workers w').
Proof.
  assert (Hl : Forall (stuck (row (database w))) (workers w)) by (eapply Forall_impl; [exact Hidle|]; by intros l ->).
  destruct (stuck_world proof_digest w w' _ Hw eq_refl Hstate Hl) as [Hdb Hl']. split; [done|].
  eapply Forall_impl; [exact Hl'|]. intros l Hs d ->. discriminate Hs.
Qed.

(** C29: an uninterrupted run erases.  From a requested, held back or failed
    deletion with a copy left, three steps more than it has copies, in which no
    transaction fails, the eraser erases, no hold covers the aggregate and the
    clock does not go back, bring the run to its end: it returns the stored row,
    every copy is erased, and it waits for the backups or is completed. *)
Theorem uninterrupted_run_erases (d : Deletion) (inputs : list Input)
    (Hvalid : Validate d = true)
    (Hstate : State d = DeletionRequested \/ State d = DeletionBlockedByLegalHold \/ State d = DeletionFailed)
    (Hleft : forallb deleted (Targets d) = false) (Hera : 0 < instant (UpdatedAt d)) (Hint : Version d + llen (Targets d) + 2 <= max_int64)
    (Hlength : length inputs = (length (Targets d) + 3)%nat) (Hsmooth : smooth_from (AggregateID d) (UpdatedAt d) inputs) :
  exists d' db', drive proof_digest Idle inputs (mk_database d None) = (Returned (Ok d'), db') /\ row db' = d' /\
    at_rest (State d') /\ forallb deleted (Targets d') = true.
Proof.
  destruct inputs as [|i0 [|i1 rest]]; [cbn in Hlength; lia.. |]. cbn in Hsmooth. destruct Hsmooth as (Hi0 & Hi1 & Hrest).
  assert (Hrl : exists loop last, rest = loop ++ [last] /\ length loop = length (Targets d)).
  { destruct (exists_last (l := rest)) as (loop & x & ->); [intros ->; cbn in Hlength; lia|]. exists loop, x. split; [done|].
    rewrite !length_cons, length_app in Hlength. cbn in Hlength. lia. }
  destruct Hrl as (loop & ilast & -> & Hloop). destruct Hi0 as (Hcr0 & _ & _ & _ & Hu0 & _ & Ht0).
  destruct Hi1 as (Hcr1 & Hco1 & _ & (hs & Hhs & Hcov) & _ & _ & Ht1). pose proof (llen_nonneg (Targets d)).
  destruct (valid_parts d Hvalid) as (Hv1 & _).
  set (d1 := next_deletion d DeletionInProgress (Targets d) (clock i0) (BackupExpiresAt d) "").
  assert (Hb : Begin d (clock i0) hs = Ok (d1, false)).
  { unfold Begin. rewrite Hvalid, Hu0, (proj2 (before_false _ _)), (Hcov d) by (done || lia).
    assert (is_zero (clock i0) = false) as -> by (apply Z.eqb_neq; lia). cbn [negb orb]. by destruct Hstate as [-> | [-> | ->]]. }
  destruct (Begin_spec _ _ _ _ _ Hb) as (Hadv & _).
  assert (Hval1 : Validate d1 = true).
  { apply Validate_alt in Hvalid as Hparts. apply next_valid; try done; try lia; tauto. }
  assert (Hfirst : drive proof_digest Idle (i0 :: i1 :: loop ++ [ilast]) (mk_database d None) =
    drive proof_digest (Erasing d1 (Targets d1)) (loop ++ [ilast]) (mk_database d1 None)).
  { cbn [drive]. unfold work at 1. rewrite Hcr0. unfold Find. cbn [row]. rewrite Hvalid. cbn [negb]. unfold work at 1. rewrite Hcr1.
    assert (Hns : state_is (State d) DeletionCompleted = false /\ state_is (State d) DeletionAwaitingBackup = false)
      by (by destruct Hstate as [-> | [-> | ->]]). destruct Hns as [-> ->]. unfold begin_erasure. rewrite Hhs, Hb. unfold save_then. rewrite Hco1.
    pose proof (Save_commits (mk_database d None) d1 (adv_identity _ _ Hadv) Hval1 Hvalid (adv_version _ _ Hadv)) as Hsave.
    cbn [row tombstone] in Hsave. by rewrite Hsave. }
  assert (Hver1 : Version d1 = Version d + 1) by (unfold d1; cbn; rewrite wrap_int64_id; unfold min_int64, max_int64 in *; lia).
  rewrite Hfirst, drive_app. apply smooth_app in Hrest as [Hsl Hslast].
  assert (Hlooping : looping d1 (mk_database d1 None) [] (Targets d1)) by (unfold looping; cbn; rewrite Hleft; by split_and!).
  destruct (drive_loop proof_digest (Targets d1) d1 _ [] loop Hlooping Hloop) as (d2 & Hd & Hl2 & Hv2 & Hu2 & Ha2).
  { change (AggregateID d1) with (AggregateID d). apply (smooth_earlier _ (clock i1)); [done|]. cbn. lia. }
  { change (Targets d1) with (Targets d). lia. }
  { cbn. lia. }
  rewrite Hd. pose proof Hl2 as (_ & _ & _ & Hall & _). change (Targets d1) with (Targets d) in Hv2. destruct Hslast as [Hlast _].
  change (AggregateID d1) with (AggregateID d) in Ha2. rewrite <- Ha2 in Hlast.
  destruct (complete_smooth proof_digest d2 ilast _ Hl2 Hlast) as (d' & Hw & Htargets & Hrest'); [|done|lia|].
  { etrans; [exact Hu2|]. unfold last_clock. destruct (last loop); cbn; lia. }
  cbn [drive]. rewrite Hw. eexists d', _. split_and!; [done | done | done | by rewrite Htargets].
Qed.
End DeletionSpec.

(** C31: a retention period meets every obligation.  An accepted resolution is at
    least every minimum and at most every positive maximum of the rules, is the
    period asked for (or the default of the class) wherever these allow it, is
    longer than the default only within the cap of the deployment or at the
    minimum of a rule, expires that long after creation, and does not depend on
    the order of the rules. *)
Theorem retention_within_obligations (class : DataClass) (region : string) (createdAt : Time) (tenantRequested deploymentCap : Z)
    (rules rules' : list RetentionRule) (r : Resolution)
    (Hr : Resolve class region createdAt tenantRequested deploymentCap rules = Ok r) (Hp : rules ≡ₚ rules') :
  exists base, SelectedDefaults !! class = Some base /\
    let asked := if 0 <? tenantRequested then tenantRequested else base in
    0 < Duration r /\ ExpiresAt r = add createdAt (Duration r) /\
    Forall (fun rule => Minimum rule <= Duration r /\ (0 < Maximum rule -> Duration r <= Maximum rule)) rules /\
    (Forall (fun rule => Minimum rule <= asked /\ (0 < Maximum rule -> asked <= Maximum rule)) rules -> Duration r = asked) /\
    (Duration r <= base \/ Duration r <= deploymentCap \/ Exists (fun rule => Duration r = Minimum rule) rules) /\
    exists r', Resolve class region createdAt tenantRequested deploymentCap rules' = Ok r' /\ Duration r' = Duration r /\
      ExpiresAt r' = ExpiresAt r.
Proof.
  unfold Resolve in *. destruct (SelectedDefaults !! class) as [base|] eqn:Hbase; [|done]. apply defaults_positive in Hbase. exists base. split; [done|]. cbv zeta in *.
  set (asked := if 0 <? tenantRequested then tenantRequested else base) in *. go_inv Hr.
  apply negb_false_iff, rules_valid in Hg2. assert (Hmaxs : Forall (fun x => 0 <= Maximum x) rules) by (eapply Forall_impl; [exact Hg2|]; intros x Hx; cbn in Hx; tauto).
  assert (Hg2' : forallb (rule_valid class region) rules' = true) by (apply rules_valid; unfold rules_authorised; by rewrite <- Hp).
  destruct (fold_minimum rules 0) as (Hmin0 & Hmin & Hminex). destruct (fold_maximum rules 0 ltac:(lia) Hmaxs) as (Hmax0 & _ & Hmax & Hmaxex).
  cbv zeta in *. rewrite Hg, Hg0, Hg1, Hg2'. cbn [negb]. rewrite <- (fold_minimum_perm _ _ 0 Hp), <- (fold_maximum_perm _ _ 0 ltac:(lia) Hmaxs Hp).
  rewrite Hg3, Hg4. revert Hg3 Hg4 Hmin0 Hmin Hminex Hmax0 Hmax Hmaxex. generalize (fold_left widen_minimum rules 0) as lo.
  generalize (fold_left narrow_maximum rules 0) as hi. intros hi lo Hlohi Hpos Hmin0 Hmin Hminex Hmax0 Hmax Hmaxex.
  cbn [Duration ExpiresAt]. set (D := if 0 <? hi then Z.min (Z.max asked lo) hi else Z.max asked lo) in *.
  assert (HD : (0 < hi -> lo <= hi) /\ ((hi = 0 /\ D = Z.max asked lo) \/ (0 < hi /\ D = Z.min (Z.max asked lo) hi))).
  { unfold D. destruct (0 <? hi) eqn:Hh; cbn [andb] in Hlohi; bprop; lia. }
  assert (Hasked : 0 < asked) by (unfold asked; destruct (0 <? tenantRequested) eqn:Hq; bprop; lia).
  apply Z.leb_gt in Hpos. split_and!; [lia | done | | | | by eexists].
  - apply Forall_forall. intros x Hx. rewrite Forall_forall in Hmin, Hmax. specialize (Hmin x Hx). specialize (Hmax x Hx). cbn in Hmin, Hmax. lia.
  - intros Hall. rewrite Forall_forall in Hall.
    assert (lo <= asked \/ lo = 0) as Hlo by (destruct Hminex as [?|Hex]; [by right | left]; apply Exists_exists in Hex as (x & Hx & ->); apply (Hall x Hx)).
    assert (0 < hi -> asked <= hi) as Hhi by (destruct Hmaxex as [->|Hex]; [lia|]; apply Exists_exists in Hex as (x & Hx & Hxp & ->); apply (Hall x Hx)).
    lia.
  - assert (Hask : asked <= base \/ asked <= deploymentCap).
    { unfold asked. destruct (0 <? tenantRequested) eqn:Hq; [|by left; lia]. destruct (base <? tenantRequested) eqn:Hb; [|bprop; lia].
      cbn [andb] in Hg1. apply orb_false_iff in Hg1 as [_ Hc]. bprop. lia. }
    destruct (Z.le_gt_cases D asked) as [?|?]; [lia|]. right. right. destruct Hminex as [->|Hex]; [lia|].
    eapply Exists_impl; [exact Hex|]. intros x Hx. cbn in Hx |- *. lia.
Qed.
End DeletionSpec.

(** ** Witnesses *)
Module DeletionWitness.
Import DeletionStore DeletionInvariant DeletionSpec.

Definition no_digest (_ : Deletion) : string := "".
Definition at_day (n : Z) : Time := mk_time (n * day_ns) true.
Definition a_target (reference : string) : Target := mk_target "raw_evidence" reference "ng-1" zero_time 0 "".
Definition requested : Deletion :=
  mk_deletion (35 * day_ns) "del_1" "ver_1" "ng-1" DeletionRequested [a_target "obj_1"; a_target "obj_2"] (at_day 1) (at_day 1) (at_day 36) "" 1.
Definition created : Database := match Create requested "actor_1" with Ok db => db | Err _ => mk_database requested None end.
Definition tick (t : Time) : Input := mk_input false t t (Ok []) Erased true.

Definition run (inputs : list Input) (w : World) : World :=
  let '(l, db) := drive no_digest (default Idle (workers w !! 0%nat)) inputs (database w) in mk_world db [l].

Lemma run_reachable inputs : forall w, length (workers w) = 1%nat ->
  Forall (fun i => in_utc (clock i) = true /\ in_utc (clock_again i) = true) inputs -> rtc (world_step no_digest) w (run inputs w).
Proof.
  unfold run. induction inputs as [|i rest IH]; intros [db [|l [|? ?]]] Hw Hall; try done; cbn [workers database lookup list_lookup default] in *.
  apply Forall_cons in Hall as [[Hc1 Hc2] Hall]. cbn [drive].
  assert (Hd : exists l' db', work no_digest l i db = (l', db')) by (destruct (work no_digest l i db) as [l' db']; by exists l', db').
  destruct Hd as (l' & db' & Hd). cbn [from_option id]. rewrite Hd. eapply rtc_l.
  - by apply (world_work no_digest (mk_world db [l]) 0 l i l' db').
  - cbn. specialize (IH (mk_world db' [l']) eq_refl Hall). cbn in IH. exact IH.
Qed.

(** Two copies erased on day two, the backups expired on day forty. *)
Definition whole_run : list Input := [tick (at_day 2); tick (at_day 2); tick (at_day 2); tick (at_day 2); tick (at_day 40)].
Definition finished : World := run whole_run (start_world created 1).

Example finished_completed :
  State (row (database finished)) = DeletionCompleted /\ bool_decide (tombstone (database finished) = None) = false.
Proof. vm_compute. split; reflexivity. Qed.

Lemma erasure_reachable_witness :
  State (row (database finished)) = DeletionCompleted /\ forallb deleted (Targets (row (database finished))) = true /\
  tombstone (database finished) = Some (tombstoneFor no_digest (row (database finished))).
Proof.
  assert (Hs : State (row (database finished)) = DeletionCompleted) by (vm_compute; reflexivity).
  assert (Hreach : rtc (world_step no_digest) (start_world created 1) finished).
  { apply run_reachable; [reflexivity|]. repeat constructor. }
  destruct (erasure_reachable no_digest requested "actor_1" created 1 (start_world created 1) finished)
    as (_ & _ & _ & _ & _ & Hrest & _ & _ & Ht & _); [vm_compute; reflexivity | reflexivity | discriminate | reflexivity | apply rtc_refl | exact Hreach |].
  rewrite Hs in Ht. split; [exact Hs|]. split; [apply Hrest; right; exact Hs | exact Ht].
Defined.

(** The worker dies after the first copy. *)
Definition killed : Input := mk_input true (at_day 2) (at_day 2) (Ok []) Erased true.
Definition interrupted : World := run [tick (at_day 2); tick (at_day 2); tick (at_day 2); killed] (start_world created 1).

Lemma interrupted_erasure_strands_witness :
  rtc (world_step no_digest) (start_world created 1) interrupted /\ State (row (database interrupted)) = DeletionInProgress /\
  database (run whole_run interrupted) = database interrupted.
Proof.
  split; [apply run_reachable; [reflexivity | repeat constructor]|]. split; [vm_compute; reflexivity|].
  refine (proj1 (interrupted_erasure_strands no_digest interrupted (run whole_run interrupted) _ _ _)).
  - vm_compute. reflexivity.
  - assert (Hw : workers interrupted = [Idle]) by (vm_compute; reflexivity). rewrite Hw. repeat constructor.
  - apply run_reachable; [vm_compute; reflexivity | repeat constructor].
Defined.

Lemma uninterrupted_run_erases_witness :
  exists d' db', drive no_digest Idle whole_run (mk_database (row created) None) = (Returned (Ok d'), db') /\ row db' = d' /\
    at_rest (State d') /\ forallb deleted (Targets d') = true.
Proof.
  apply (uninterrupted_run_erases no_digest (row created) whole_run); try (vm_compute; reflexivity).
  - left. vm_compute. reflexivity.
  - vm_compute. discriminate.
  - assert (Ha : AggregateID (row created) = "ver_1"%string) by (vm_compute; reflexivity).
    assert (Hu : UpdatedAt (row created) = at_day 1) by (vm_compute; reflexivity). rewrite Ha, Hu.
    repeat (split || reflexivity || (exists []) || discriminate || (vm_compute; discriminate)).
Defined.

Definition state_rule : RetentionRule := mk_rule "law.ng" "v1" DataClassRawEvidence "ng-1" (10 * day_ns) (20 * day_ns).
Definition tenant_rule : RetentionRule := mk_rule "tenant" "v2" DataClassRawEvidence "ng-1" (12 * day_ns) 0.

Lemma retention_within_obligations_witness :
  exists r r', Resolve DataClassRawEvidence "ng-1" (at_day 1) 0 0 [tenant_rule; state_rule] = Ok r /\ Duration r = 20 * day_ns /\
    Resolve DataClassRawEvidence "ng-1" (at_day 1) 0 0 [state_rule; tenant_rule] = Ok r' /\ Duration r' = Duration r.
Proof.
  assert (Hr : exists r, Resolve DataClassRawEvidence "ng-1" (at_day 1) 0 0 [tenant_rule; state_rule] = Ok r /\ Duration r = 20 * day_ns).
  { eexists. split; vm_compute; reflexivity. }
  destruct Hr as (r & Hr & Hd).
  destruct (retention_within_obligations DataClassRawEvidence "ng-1" (at_day 1) 0 0 [tenant_rule; state_rule] [state_rule; tenant_rule] r Hr)
    as (base & _ & _ & _ & _ & _ & _ & r' & Hr' & Hd' & _); [apply Permutation_swap|].
  exists r, r'. split; [exact Hr|]. split; [exact Hd|]. split; [exact Hr' | exact Hd'].
Defined.
End DeletionWitness.
