(* ===== verification/PrivacyRequest.v ===== *)
(** * Privacy requests and processing restrictions

    [internal/privacy/request.go] and [restriction.go]: the workflow of a data
    subject's request and the restriction or objection an approved one leaves.

    [encoding/json] is a type class over the seven-field instruction; SHA-256 a
    parameter.  An enumeration is an inductive type with one more constructor for
    the strings outside its vocabulary; reason codes stay strings. *)

From S2P Require Import Prelude GoTime Ident Deletion.
From Stdlib Require Import Ascii.

Inductive Error := ErrInvalid | ErrConflict | ErrUnavailable | ErrCancelled | ErrQuery.
#[export] Instance RequestError_eq_dec : EqDecision Error. Proof. solve_decision. Defined.

(** ** Vocabularies *)

Inductive RequestType := RequestAccess | RequestPortability | RequestCorrection | RequestRestriction | RequestObjection | RequestErasure |
  RequestOther (raw : string).
#[export] Instance RequestType_eq_dec : EqDecision RequestType. Proof. solve_decision. Defined.
Definition type_valid (t : RequestType) : bool := match t with RequestOther _ => false | _ => true end.

Inductive Channel := ChannelTenantAPI | ChannelSubjectOutcome | ChannelOther (raw : string).
#[export] Instance Channel_eq_dec : EqDecision Channel. Proof. solve_decision. Defined.
Definition channel_valid (c : Channel) : bool := match c with ChannelOther _ => false | _ => true end.

Inductive RequestState := RequestStateRequested | RequestStateInReview | RequestStateApproved | RequestStatePartiallyApproved |
  RequestStateDenied | RequestStateExecuting | RequestStateCompleted | RequestStateFailed | RequestStateWithdrawn | RequestStateExpired |
  RequestStateOther (raw : string).
#[export] Instance RequestState_eq_dec : EqDecision RequestState. Proof. solve_decision. Defined.
Definition request_state_valid (s : RequestState) : bool := match s with RequestStateOther _ => false | _ => true end.

Definition Terminal (s : RequestState) : bool :=
  match s with RequestStateDenied | RequestStateCompleted | RequestStateWithdrawn | RequestStateExpired => true | _ => false end.
Definition Decided (s : RequestState) : bool :=
  match s with RequestStateApproved | RequestStatePartiallyApproved | RequestStateDenied => true | _ => false end.
Definition rstate_is (a b : RequestState) : bool := bool_decide (a = b).

Inductive DecisionOutcome := OutcomeApproved | OutcomePartiallyApproved | OutcomeDenied | OutcomeOther (raw : string).
#[export] Instance DecisionOutcome_eq_dec : EqDecision DecisionOutcome. Proof. solve_decision. Defined.
Definition outcome_valid (o : DecisionOutcome) : bool := match o with OutcomeOther _ => false | _ => true end.

(** [state]: what is not an approval denies. *)
Definition outcome_state (o : DecisionOutcome) : RequestState :=
  match o with
  | OutcomeApproved => RequestStateApproved
  | OutcomePartiallyApproved => RequestStatePartiallyApproved
  | _ => RequestStateDenied
  end.

Definition requestTransitions (from : RequestState) : list RequestState :=
  match from with
  | RequestStateRequested => [RequestStateInReview; RequestStateWithdrawn; RequestStateExpired]
  | RequestStateInReview => [RequestStateApproved; RequestStatePartiallyApproved; RequestStateDenied; RequestStateWithdrawn; RequestStateExpired]
  | RequestStateApproved => [RequestStateExecuting]
  | RequestStatePartiallyApproved => [RequestStateExecuting]
  | RequestStateExecuting => [RequestStateCompleted; RequestStateFailed]
  | RequestStateFailed => [RequestStateExecuting]
  | _ => []
  end.
Definition canTransition (from to : RequestState) : bool := existsb (rstate_is to) (requestTransitions from).

Definition ReasonCode := string.
Definition ReasonWithdrawnByTenant : ReasonCode := "withdrawn_by_tenant".
Definition ReasonExpiredWithoutAction : ReasonCode := "expired_without_decision".
Definition approveReasonCodes : list ReasonCode :=
  ["access_approved"; "portability_approved"; "correction_approved"; "restriction_approved"; "objection_approved"; "erasure_approved";
   "partially_approved"].
Definition denyReasonCodes : list ReasonCode :=
  ["identity_unverified"; "insufficient_proof"; "legal_obligation"; "third_party_rights"; "manifestly_unfounded"; "excessive_request"].
Definition ValidWithdrawal (r : ReasonCode) : bool := String.eqb r ReasonWithdrawnByTenant.
Definition ValidExpiry (r : ReasonCode) : bool := String.eqb r ReasonExpiredWithoutAction.
Definition ValidApproval (r : ReasonCode) : bool := existsb (String.eqb r) approveReasonCodes || ValidWithdrawal r || ValidExpiry r.
Definition ValidDenial (r : ReasonCode) : bool := existsb (String.eqb r) denyReasonCodes.

Definition validDecisionReason (o : DecisionOutcome) (reason : ReasonCode) : bool :=
  match o with
  | OutcomeApproved | OutcomePartiallyApproved => ValidApproval reason
  | OutcomeDenied => ValidDenial reason
  | OutcomeOther _ => false
  end.

(** ** Data *)

Record Event := mk_event {
  Sequence : Z; EventType : string; From : RequestState; To : RequestState; EventReason : ReasonCode; ActorDigest : string;
  Detail : string; Digest : string; OccurredAt : Time }.
#[export] Instance Event_eq_dec : EqDecision Event. Proof. solve_decision. Defined.

Record Decision := mk_decision {
  DecisionID : string; Outcome : DecisionOutcome; DecisionReason : ReasonCode; DecisionActor : string; DecidedAt : Time;
  DecisionVersion : Z }.
#[export] Instance Decision_eq_dec : EqDecision Decision. Proof. solve_decision. Defined.

Record Request := mk_request {
  ID : string;
  Type_ : RequestType;
  State : RequestState;
  Channel_ : Channel;
  SubjectID : string;
  VerificationID : string;
  Region : string;
  Payload : string;
  ReasonCode_ : ReasonCode;
  FailureClass : string;
  EffectKind : string;
  EffectRef : string;
  EffectDigest : string;
  ExpiresAt : Time;
  RequestedAt : Time;
  UpdatedAt : Time;
  Version : Z;
  Decisions : list Decision;
  Events : list Event;
}.
#[export] Instance Request_eq_dec : EqDecision Request. Proof. solve_decision. Defined.

Record RequestPayload := mk_payload {
  Purpose : string; RecordID : string; PayloadDecisionID : string; Name : string; Value_ : string; Kind : string; Normalization : string }.
#[export] Instance RequestPayload_eq_dec : EqDecision RequestPayload. Proof. solve_decision. Defined.

(** [encoding/json] on the instruction.  [json_decode]: one value with unknown
    fields refused, and whether [More] sees another value after it.
    [json_unmarshal] refuses anything after the value but ignores unknown fields;
    both read the same value.  What [Marshal] prints decodes to the value printed,
    for a value that was itself decoded (its strings are valid UTF-8). *)
Class PayloadJson := {
  json_decode : string -> option (RequestPayload * bool);
  json_unmarshal : string -> option RequestPayload;
  json_marshal : RequestPayload -> string;
  json_agree p v w more : json_decode p = Some (v, more) -> json_unmarshal p = Some w -> w = v;
  json_marshal_decode p v : json_unmarshal p = Some v -> json_decode (json_marshal v) = Some (v, false);
}.

Section Payloads.
Context `{Ulid} `{PayloadJson}.

Definition ValidIdentityRecordID (value : string) : bool :=
  existsb (fun prefix => is_ok (Ident.Parse prefix value)) ["obs"; "fct"; "clm"; "idi"]%string.

(** Which of the fields beyond the purpose are set. *)
Definition only_purpose (v : RequestPayload) : bool :=
  empty_string (RecordID v) && empty_string (PayloadDecisionID v) && empty_string (Name v) && empty_string (Value_ v) &&
  empty_string (Kind v) && empty_string (Normalization v).

Definition valid_correction (v : RequestPayload) : bool :=
  if negb (empty_string (Purpose v)) then false
  else if negb (empty_string (RecordID v)) && negb (empty_string (PayloadDecisionID v)) then false
  else if empty_string (RecordID v) && empty_string (PayloadDecisionID v) then false
  else if negb (empty_string (PayloadDecisionID v)) then
    empty_string (Name v) && empty_string (Value_ v) && empty_string (Kind v) && empty_string (Normalization v) &&
    is_ok (Ident.ParseDecision (PayloadDecisionID v))
  else
    ValidIdentityRecordID (RecordID v) && token (Name v) 128 && negb (empty_string (Value_ v)) && negb (1024 <? slen (Value_ v)) &&
    existsb (String.eqb (Kind v)) ["observation"; "claim"; "fact"]%string &&
    existsb (String.eqb (Normalization v)) ["identity.exact.v1"; "identity.trim.v1"; "identity.ascii_upper.v1"]%string.

Definition valid_instruction (t : RequestType) (v : RequestPayload) : bool :=
  match t with
  | RequestCorrection => valid_correction v
  | RequestObjection => negb (empty_string (Purpose v)) && only_purpose v
  | RequestRestriction => only_purpose v
  | RequestAccess | RequestPortability | RequestErasure => empty_string (Purpose v) && only_purpose v
  | RequestOther _ => false
  end.

Definition ValidatePayload (t : RequestType) (payload : string) : result Error RequestPayload :=
  reject negb (type_valid t) || (slen payload =? 0) || (4096 <? slen payload) with ErrInvalid ;;
  match json_decode payload with
  | None => Err ErrInvalid
  | Some (value, more) =>
      reject more with ErrInvalid ;;
      reject negb (empty_string (Purpose value)) && negb (token (Purpose value) 128) with ErrInvalid ;;
      reject negb (valid_instruction t value) with ErrInvalid ;;
      Ok value
  end.

Definition canonicalPayload (t : RequestType) (payload : string) : result Error string :=
  let? _ := ValidatePayload t payload in
  match json_unmarshal payload with
  | None => Err ErrInvalid
  | Some value => Ok (json_marshal value)
  end.

(** ** The workflow *)

Definition Validate (r : Request) : bool :=
  negb (empty_string (ID r) || negb (type_valid (Type_ r)) || negb (request_state_valid (State r)) || negb (channel_valid (Channel_ r)) ||
        (negb (empty_string (SubjectID r)) && negb (token (SubjectID r) 200)) || negb (validRegion (Region r)) || (Version r <? 1) ||
        is_zero (RequestedAt r) || negb (in_utc (RequestedAt r)) || before (UpdatedAt r) (RequestedAt r) || negb (in_utc (UpdatedAt r)) ||
        negb (after (ExpiresAt r) (RequestedAt r)) || negb (in_utc (ExpiresAt r))) &&
  (empty_string (VerificationID r) || is_ok (Ident.ParseVerification (VerificationID r))) &&
  negb (bool_decide (Channel_ r = ChannelSubjectOutcome) && empty_string (VerificationID r)) &&
  is_ok (ValidatePayload (Type_ r) (Payload r)) &&
  (empty_string (ReasonCode_ r) || token (ReasonCode_ r) 64) &&
  (empty_string (FailureClass r) || token (FailureClass r) 64) &&
  negb (Terminal (State r) && (llen (Events r) =? 0)).

Definition NewPrivacyRequest (identifier : string) (requestType : RequestType) (channel : Channel) (subjectID verificationID region : string)
    (payload : string) (requestedAt expiresAt : Time) : result Error Request :=
  let request := mk_request identifier requestType RequestStateRequested channel subjectID verificationID region payload "" "" "" "" ""
                   expiresAt requestedAt requestedAt 1 [] [] in
  reject negb (Validate request) with ErrInvalid ;;
  Ok request.

(** The copy with the next state, its reason and its event. *)
Definition advance (r : Request) (to : RequestState) (reason : ReasonCode) (actorDigest detail eventType : string) (now : Time) : Request :=
  mk_request (ID r) (Type_ r) to (Channel_ r) (SubjectID r) (VerificationID r) (Region r) (Payload r) reason (FailureClass r) (EffectKind r)
    (EffectRef r) (EffectDigest r) (ExpiresAt r) (RequestedAt r) now (wrap_int64 (Version r + 1)) (Decisions r)
    (Events r ++ [mk_event (wrap_int64 (llen (Events r) + 1)) eventType (State r) to reason actorDigest detail "" now]).

Definition transition (r : Request) (to : RequestState) (reason : ReasonCode) (actorDigest detail eventType : string) (now : Time)
  : result Error Request :=
  reject negb (Validate r) || is_zero now || negb (in_utc now) || before now (UpdatedAt r) || negb (canTransition (State r) to)
    with ErrConflict ;;
  Ok (advance r to reason actorDigest detail eventType now).

Definition BeginReview (r : Request) (actorDigest : string) (now : Time) : result Error Request :=
  reject negb (Validate r) with ErrInvalid ;;
  if rstate_is (State r) RequestStateInReview then Ok r
  else
    reject negb (rstate_is (State r) RequestStateRequested) with ErrConflict ;;
    transition r RequestStateInReview "" actorDigest "" "privacy.request.review_started" now.

(** [withPayloadCopy] gives an equal value. *)
Definition replay_decision (r : Request) (outcome : DecisionOutcome) (reason : ReasonCode) : result Error Request :=
  match last (Decisions r) with
  | None => Err ErrConflict
  | Some existing =>
      if bool_decide (Outcome existing = outcome) && String.eqb (DecisionReason existing) reason then Ok r else Err ErrConflict
  end.

Definition with_decision (r : Request) (d : Decision) : Request :=
  mk_request (ID r) (Type_ r) (State r) (Channel_ r) (SubjectID r) (VerificationID r) (Region r) (Payload r) (ReasonCode_ r) (FailureClass r)
    (EffectKind r) (EffectRef r) (EffectDigest r) (ExpiresAt r) (RequestedAt r) (UpdatedAt r) (Version r) (Decisions r ++ [d]) (Events r).

Section Digests.
(** [targetReferenceDigest]. *)
Context (targetReferenceDigest : string -> string).

Definition Decide (r : Request) (identifier : string) (outcome : DecisionOutcome) (reason : ReasonCode) (actor : string) (now : Time)
  : result Error Request :=
  reject negb (Validate r) || empty_string identifier || negb (outcome_valid outcome) || negb (token actor 200) || is_zero now ||
         negb (in_utc now) with ErrInvalid ;;
  reject negb (validDecisionReason outcome reason) with ErrInvalid ;;
  if Decided (State r) then replay_decision r outcome reason
  else
    reject negb (rstate_is (State r) RequestStateInReview) with ErrConflict ;;
    let? next := transition r (outcome_state outcome) reason (targetReferenceDigest actor) identifier "privacy.request.decided" now in
    Ok (with_decision next (mk_decision identifier outcome reason actor now (Version next))).
End Digests.

Definition BeginExecution (r : Request) (actorDigest : string) (now : Time) : result Error Request :=
  reject negb (Validate r) with ErrInvalid ;;
  if rstate_is (State r) RequestStateExecuting then Ok r
  else
    reject negb (rstate_is (State r) RequestStateApproved) && negb (rstate_is (State r) RequestStatePartiallyApproved) &&
           negb (rstate_is (State r) RequestStateFailed) with ErrConflict ;;
    transition r RequestStateExecuting "" actorDigest "" "privacy.request.executing" now.

Definition with_effect (r : Request) (kind ref digest : string) : Request :=
  mk_request (ID r) (Type_ r) (State r) (Channel_ r) (SubjectID r) (VerificationID r) (Region r) (Payload r) (ReasonCode_ r) (FailureClass r)
    kind ref digest (ExpiresAt r) (RequestedAt r) (UpdatedAt r) (Version r) (Decisions r) (Events r).

Definition Complete (r : Request) (effectKind effectRef effectDigest : string) (now : Time) : result Error Request :=
  reject negb (token effectKind 64) || negb (token effectRef 512) || negb (token effectDigest 128) with ErrInvalid ;;
  let? next := transition r RequestStateCompleted effectKind "" "" "privacy.request.completed" now in
  Ok (with_effect next effectKind effectRef effectDigest).

Definition with_failure (r : Request) (failureClass : string) : Request :=
  mk_request (ID r) (Type_ r) (State r) (Channel_ r) (SubjectID r) (VerificationID r) (Region r) (Payload r) (ReasonCode_ r) failureClass
    (EffectKind r) (EffectRef r) (EffectDigest r) (ExpiresAt r) (RequestedAt r) (UpdatedAt r) (Version r) (Decisions r) (Events r).

Definition Fail_ (r : Request) (failureClass : string) (now : Time) : result Error Request :=
  reject negb (token failureClass 64) with ErrInvalid ;;
  let? next := transition r RequestStateFailed "" "" failureClass "privacy.request.failed" now in
  Ok (with_failure next failureClass).

Definition Withdraw (r : Request) (actorDigest : string) (now : Time) : result Error Request :=
  reject negb (Validate r) with ErrInvalid ;;
  if rstate_is (State r) RequestStateWithdrawn then Ok r
  else
    reject negb (rstate_is (State r) RequestStateRequested) && negb (rstate_is (State r) RequestStateInReview) with ErrConflict ;;
    transition r RequestStateWithdrawn ReasonWithdrawnByTenant actorDigest "" "privacy.request.withdrawn" now.

Definition Expire (r : Request) (now : Time) : result Error Request :=
  reject negb (Validate r) || is_zero now || negb (in_utc now) || before now (ExpiresAt r) with ErrConflict ;;
  if rstate_is (State r) RequestStateExpired then Ok r
  else
    reject negb (rstate_is (State r) RequestStateRequested) && negb (rstate_is (State r) RequestStateInReview) with ErrConflict ;;
    transition r RequestStateExpired ReasonExpiredWithoutAction "" "" "privacy.request.expired" now.

(** ** What a subject is shown *)

Inductive SubjectStatus := SubjectStatusReceived | SubjectStatusInReview | SubjectStatusInProgress | SubjectStatusCompleted |
  SubjectStatusClosed | SubjectStatusWithdrawn | SubjectStatusExpired.
Record SubjectRequest := mk_subject_request {
  ShownType : RequestType; Status : SubjectStatus; ShownRequestedAt : Time; ShownUpdatedAt : Time }.

Definition SubjectProjection (r : Request) : SubjectRequest :=
  let status :=
    match State r with
    | RequestStateRequested | RequestStateOther _ => SubjectStatusReceived
    | RequestStateInReview => SubjectStatusInReview
    | RequestStateApproved | RequestStatePartiallyApproved | RequestStateExecuting | RequestStateFailed => SubjectStatusInProgress
    | RequestStateCompleted => SubjectStatusCompleted
    | RequestStateDenied => SubjectStatusClosed
    | RequestStateWithdrawn => SubjectStatusWithdrawn
    | RequestStateExpired => SubjectStatusExpired
    end in
  mk_subject_request (Type_ r) status (RequestedAt r) (UpdatedAt r).
End Payloads.

(** ** Restrictions and objections *)
Module Restrictions.

Inductive RestrictionState := RestrictionActive | RestrictionLifted | RestrictionStateOther (raw : string).
#[export] Instance RestrictionState_eq_dec : EqDecision RestrictionState. Proof. solve_decision. Defined.
Definition restriction_state_valid (s : RestrictionState) : bool := match s with RestrictionStateOther _ => false | _ => true end.

Inductive RestrictionReason := NoReason | RestrictionRequestedBySubject | RestrictionAccuracyDispute | RestrictionLiftedByTenant |
  RestrictionLiftedBySubject | RestrictionExpired | RestrictionReasonOther (raw : string).
#[export] Instance RestrictionReason_eq_dec : EqDecision RestrictionReason. Proof. solve_decision. Defined.
Definition restriction_reason_valid (r : RestrictionReason) : bool := match r with NoReason | RestrictionReasonOther _ => false | _ => true end.

Inductive RestrictionScope := RestrictionScopeSubject | RestrictionScopePurpose | RestrictionScopeOther (raw : string).
#[export] Instance RestrictionScope_eq_dec : EqDecision RestrictionScope. Proof. solve_decision. Defined.
Definition scope_valid (s : RestrictionScope) : bool := match s with RestrictionScopeOther _ => false | _ => true end.
Definition scope_is (a b : RestrictionScope) : bool := bool_decide (a = b).

Record Restriction := mk_restriction {
  RestrictionID : string;
  RequestID : string;
  RestrictedSubject : string;
  RestrictedPurpose : string;
  Scope : RestrictionScope;
  RestrictionReason_ : RestrictionReason;
  RestrictedRegion : string;
  RState : RestrictionState;
  StartsAt : Time;
  LiftedAt : Time;
  LiftReasonCode : RestrictionReason;
  RVersion : Z;
}.
#[export] Instance Restriction_eq_dec : EqDecision Restriction. Proof. solve_decision. Defined.

Definition lifted (r : Restriction) : bool := bool_decide (RState r = RestrictionLifted).

Definition restriction_valid (r : Restriction) : bool :=
  negb (empty_string (RestrictionID r) || empty_string (RequestID r) || negb (token (RestrictedSubject r) 200) ||
        (negb (empty_string (RestrictedPurpose r)) && negb (token (RestrictedPurpose r) 128)) || negb (scope_valid (Scope r)) ||
        negb (restriction_reason_valid (RestrictionReason_ r)) || negb (validRegion (RestrictedRegion r)) ||
        negb (restriction_state_valid (RState r)) || (RVersion r <? 1) || is_zero (StartsAt r) || negb (in_utc (StartsAt r))) &&
  negb (scope_is (Scope r) RestrictionScopePurpose && empty_string (RestrictedPurpose r)) &&
  negb (scope_is (Scope r) RestrictionScopeSubject && negb (empty_string (RestrictedPurpose r))) &&
  (negb (lifted r) ||
   negb (negb (restriction_reason_valid (LiftReasonCode r)) || is_zero (LiftedAt r) || negb (in_utc (LiftedAt r)) ||
         before (LiftedAt r) (StartsAt r))).

Definition NewScoped (scope : RestrictionScope) (identifier requestID subjectID purpose : string) (reason : RestrictionReason) (region : string)
    (startsAt : Time) : result Error Restriction :=
  let restriction := mk_restriction identifier requestID subjectID purpose scope reason region RestrictionActive startsAt zero_time NoReason 1 in
  reject negb (restriction_valid restriction) with ErrInvalid ;;
  Ok restriction.
Definition NewRestriction := NewScoped RestrictionScopeSubject.
Definition NewObjection := NewScoped RestrictionScopePurpose.

Definition Lift (r : Restriction) (reason : RestrictionReason) (at_ : Time) : result Error Restriction :=
  reject negb (restriction_valid r) || negb (restriction_reason_valid reason) || is_zero at_ || negb (in_utc at_) || before at_ (StartsAt r)
    with ErrInvalid ;;
  if lifted r then if bool_decide (LiftReasonCode r = reason) then Ok r else Err ErrConflict
  else Ok (mk_restriction (RestrictionID r) (RequestID r) (RestrictedSubject r) (RestrictedPurpose r) (Scope r) (RestrictionReason_ r)
             (RestrictedRegion r) RestrictionLifted (StartsAt r) at_ reason (wrap_int64 (RVersion r + 1))).

Definition ActiveAt (r : Restriction) (at_ : Time) : bool :=
  restriction_valid r && bool_decide (RState r = RestrictionActive) && negb (before at_ (StartsAt r)).

Definition AuditTime (r : Restriction) : Time := if is_zero (LiftedAt r) then StartsAt r else LiftedAt r.
End Restrictions.

(** ** Histories of a request *)
Module RequestInvariant.
Section Histories.
Context `{Ulid} `{PayloadJson} (targetReferenceDigest : string -> string).

(** One successful call of an operation. *)
Inductive request_step (r : Request) : Request -> Prop :=
| step_review actor now r' : BeginReview r actor now = Ok r' -> request_step r r'
| step_decide identifier outcome reason actor now r' :
    Decide targetReferenceDigest r identifier outcome reason actor now = Ok r' -> request_step r r'
| step_execute actor now r' : BeginExecution r actor now = Ok r' -> request_step r r'
| step_complete kind ref digest now r' : Complete r kind ref digest now = Ok r' -> request_step r r'
| step_fail class now r' : Fail_ r class now = Ok r' -> request_step r r'
| step_withdraw actor now r' : Withdraw r actor now = Ok r' -> request_step r r'
| step_expire now r' : Expire r now = Ok r' -> request_step r r'.
End Histories.

(** The events lead from one state and instant to another along the edges, in
    order of time. *)
Fixpoint runs (s : RequestState) (t : Z) (events : list Event) (s' : RequestState) (t' : Z) : Prop :=
  match events with
  | [] => s = s' /\ t = t'
  | e :: rest => From e = s /\ canTransition s (To e) = true /\ t <= instant (OccurredAt e) /\ runs (To e) (instant (OccurredAt e)) rest s' t'
  end.

Definition numbered (events : list Event) : Prop := forall k e, events !! k = Some e -> Sequence e = wrap_int64 (Z.of_nat k + 1).

Definition undecided (s : RequestState) : bool :=
  match s with RequestStateRequested | RequestStateInReview | RequestStateWithdrawn | RequestStateExpired => true | _ => false end.

(** The decision behind a state: none before it, the only one after it, recorded
    by its event; only an approval lets anything execute. *)
Definition decided_by (r : Request) : Prop :=
  match Decisions r with
  | [] => undecided (State r) = true /\ Forall (fun e => To e <> RequestStateExecuting) (Events r)
  | [d] =>
      undecided (State r) = false /\ (Outcome d = OutcomeDenied <-> State r = RequestStateDenied) /\
      (Outcome d = OutcomeDenied -> Forall (fun e => To e <> RequestStateExecuting) (Events r)) /\
      validDecisionReason (Outcome d) (DecisionReason d) = true /\
      Exists (fun e => From e = RequestStateInReview /\ To e = outcome_state (Outcome d) /\ EventReason e = DecisionReason d /\
                       Detail e = DecisionID d /\ OccurredAt e = DecidedAt d) (Events r)
  | _ => False
  end.

Definition effect_recorded (r : Request) : Prop :=
  if rstate_is (State r) RequestStateCompleted
  then token (EffectKind r) 64 = true /\ token (EffectRef r) 512 = true /\ token (EffectDigest r) 128 = true
  else EffectKind r = ""%string /\ EffectRef r = ""%string /\ EffectDigest r = ""%string.

Definition same_instruction (i r : Request) : Prop :=
  ID r = ID i /\ Type_ r = Type_ i /\ Channel_ r = Channel_ i /\ SubjectID r = SubjectID i /\ VerificationID r = VerificationID i /\
  Region r = Region i /\ Payload r = Payload i /\ ExpiresAt r = ExpiresAt i /\ RequestedAt r = RequestedAt i.

(** What holds of a request [r] reached from a new request [i]. *)
Record workflow (i r : Request) : Prop := {
  wf_instruction : same_instruction i r;
  wf_runs : runs RequestStateRequested (instant (RequestedAt r)) (Events r) (State r) (instant (UpdatedAt r));
  wf_numbered : numbered (Events r);
  wf_version : Version r = wrap_int64 (llen (Events r) + 1);
  wf_decided : decided_by r;
  wf_effect : effect_recorded r;
  wf_expired : State r = RequestStateExpired -> instant (ExpiresAt r) <= instant (UpdatedAt r);
  wf_failed : State r = RequestStateFailed -> FailureClass r <> ""%string;
}.

Lemma rstate_is_true a b : rstate_is a b = true <-> a = b.
Proof. apply bool_decide_true. Qed.
Lemma rstate_is_false a b : rstate_is a b = false <-> a <> b.
Proof. apply bool_decide_false. Qed.

Lemma canTransition_alt s to : canTransition s to = true <-> In to (requestTransitions s).
Proof.
  unfold canTransition. rewrite existsb_exists. split.
  - intros (x & Hx & He). apply rstate_is_true in He. by subst.
  - intros Hx. exists to. split; [done|]. by apply rstate_is_true.
Qed.

Lemma runs_snoc events : forall s t s' t' e, runs s t events s' t' -> From e = s' -> canTransition s' (To e) = true ->
  t' <= instant (OccurredAt e) -> runs s t (events ++ [e]) (To e) (instant (OccurredAt e)).
Proof.
  induction events as [|x events IH]; intros s t s' t' e Hr Hf Hc Ht; cbn in *; [destruct Hr as [-> ->]; by split_and!|].
  destruct Hr as (Hx & Hcx & Htx & Hr). split_and!; try done. by eapply IH.
Qed.

Lemma numbered_snoc events e : numbered events -> Sequence e = wrap_int64 (llen events + 1) -> numbered (events ++ [e]).
Proof.
  intros Hn He k x Hx. apply lookup_app_Some in Hx as [Hx|[Hk Hx]]; [by apply Hn|].
  destruct (k - length events)%nat as [|m] eqn:Hm; [|done]. cbn in Hx. injection Hx as <-. rewrite He. unfold llen. do 2 f_equal. lia.
Qed.

Lemma wrap_int64_succ z : wrap_int64 (wrap_int64 z + 1) = wrap_int64 (z + 1).
Proof.
  unfold wrap_int64. f_equal. replace ((z + 2 ^ 63) mod 2 ^ 64 - 2 ^ 63 + 1 + 2 ^ 63) with ((z + 2 ^ 63) mod 2 ^ 64 + 1) by lia.
  rewrite Zplus_mod_idemp_l. f_equal. lia.
Qed.

(** A terminal state is one without edges. *)
Lemma terminal_no_edges s : request_state_valid s = true -> (Terminal s = true <-> requestTransitions s = []).
Proof. by destruct s. Qed.

Lemma token_nonempty v n : token v n = true -> v <> ""%string.
Proof. by intros Ht ->. Qed.

Section Steps.
Context `{Ulid} `{PayloadJson} (targetReferenceDigest : string -> string).

Lemma transition_Ok r to reason ad dt ty now r' : transition r to reason ad dt ty now = Ok r' ->
  in_utc now = true /\ instant (UpdatedAt r) <= instant now /\ canTransition (State r) to = true /\ r' = advance r to reason ad dt ty now.
Proof. unfold transition. intros Ht. go_inv Ht. unfold before in *. bprop. by split_and!. Qed.

(** What an operation adds to the copy with the next state. *)
Inductive completes (r n r' : Request) (to : RequestState) (reason : ReasonCode) (detail : string) (now : Time) : Prop :=
| adds_nothing :
    r' = n -> In to [RequestStateInReview; RequestStateExecuting; RequestStateWithdrawn; RequestStateExpired] ->
    (to = RequestStateExpired -> instant (ExpiresAt r) <= instant now) -> completes r n r' to reason detail now
| adds_decision outcome actor :
    to = outcome_state outcome -> State r = RequestStateInReview -> outcome_valid outcome = true -> validDecisionReason outcome reason = true ->
    r' = with_decision n (mk_decision detail outcome reason actor now (Version n)) -> completes r n r' to reason detail now
| adds_effect kind ref digest :
    to = RequestStateCompleted -> token kind 64 = true -> token ref 512 = true -> token digest 128 = true ->
    r' = with_effect n kind ref digest -> completes r n r' to reason detail now
| adds_failure class :
    to = RequestStateFailed -> token class 64 = true -> r' = with_failure n class -> completes r n r' to reason detail now.

Tactic Notation "advanced" "by" tactic3(tac) := right; do 6 eexists; split_and!; [tac; done | eassumption | eassumption | reflexivity].

(** Every operation returns the request as it is or advances it by one edge. *)
Lemma step_cases r r' : request_step targetReferenceDigest r r' ->
  r' = r \/ exists to reason ad dt ty now, completes r (advance r to reason ad dt ty now) r' to reason dt now /\
    instant (UpdatedAt r) <= instant now /\ canTransition (State r) to = true /\ String.prefix "privacy.request." ty = true.
Proof.
  intros [actor now x Hs|identifier outcome reason actor now x Hs|actor now x Hs|kind ref dg now x Hs|class now x Hs|actor now x Hs|now x Hs].
  - unfold BeginReview in Hs. go_inv Hs. destruct (rstate_is (State r) RequestStateInReview); [injection Hs as <-; by left|].
    go_inv Hs. apply transition_Ok in Hs as (_ & Ht & Hc & ->). advanced by (eapply adds_nothing; [reflexivity|left|]).
  - unfold Decide in Hs. go_inv Hs. destruct (Decided (State r)).
    + unfold replay_decision in Hs. destruct (last _) as [d|]; [|done]. destruct (_ && _); [|done]. injection Hs as <-. by left.
    + go_inv Hs. apply transition_Ok in Hv as (_ & Ht & Hc & ->). bprop. apply rstate_is_true in Hg1.
      advanced by (eapply adds_decision).
  - unfold BeginExecution in Hs. go_inv Hs. destruct (rstate_is (State r) RequestStateExecuting); [injection Hs as <-; by left|].
    go_inv Hs. apply transition_Ok in Hs as (_ & Ht & Hc & ->). advanced by (eapply adds_nothing; [reflexivity|right; left|]).
  - unfold Complete in Hs. go_inv Hs. apply transition_Ok in Hv as (_ & Ht & Hc & ->). bprop.
    advanced by (eapply adds_effect).
  - unfold Fail_ in Hs. go_inv Hs. apply transition_Ok in Hv as (_ & Ht & Hc & ->). bprop.
    advanced by (eapply adds_failure).
  - unfold Withdraw in Hs. go_inv Hs. destruct (rstate_is (State r) RequestStateWithdrawn); [injection Hs as <-; by left|].
    go_inv Hs. apply transition_Ok in Hs as (_ & Ht & Hc & ->). advanced by (eapply adds_nothing; [reflexivity|right; right; left|]).
  - unfold Expire in Hs. go_inv Hs. destruct (rstate_is (State r) RequestStateExpired); [injection Hs as <-; by left|].
    go_inv Hs. apply transition_Ok in Hs as (_ & Ht & Hc & ->). unfold before in Hg. bprop.
    advanced by (eapply adds_nothing; [reflexivity|right; right; right; left|]).
Qed.

Lemma completes_frame r n r' to reason dt now : completes r n r' to reason dt now ->
  same_instruction n r' /\ State r' = State n /\ UpdatedAt r' = UpdatedAt n /\ Version r' = Version n /\ Events r' = Events n.
Proof. by intros []; subst r'; repeat split. Qed.

(** The decision stays when the next state is decided exactly as the former. *)
Lemma decided_kept r r' e : Decisions r' = Decisions r -> Events r' = Events r ++ [e] -> To e = State r' ->
  canTransition (State r) (State r') = true -> State r <> RequestStateInReview \/ undecided (State r') = true ->
  decided_by r -> decided_by r'.
Proof.
  intros Hd He Ht Hc Hside. unfold decided_by. rewrite Hd, He. apply canTransition_alt in Hc. revert Ht Hc Hside. generalize (State r') as s'.
  intros s' Ht Hc Hside. destruct (Decisions r) as [|d [|? ?]]; [| |done].
  - intros [Hu Hx]. assert (Hto : undecided s' = true /\ s' <> RequestStateExecuting)
      by (destruct (State r); cbn in *; repeat destruct Hc as [<-|Hc]; try done; by destruct Hside).
    split; [apply Hto | apply Forall_app; split; [done|]; constructor; [|done]]. rewrite Ht. apply Hto.
  - intros (Hu & Hden & Hno & Hreason & Hex).
    assert (Hto : undecided s' = false /\ s' <> RequestStateDenied /\ State r <> RequestStateDenied)
      by (destruct (State r); cbn in *; repeat destruct Hc as [<-|Hc]; done).
    split_and!; [apply Hto | tauto | tauto | done | apply Exists_app; by left].
Qed.

Lemma decided_new r r' d e : Decisions r = [] -> Decisions r' = [d] -> Events r' = Events r ++ [e] -> decided_by r ->
  outcome_valid (Outcome d) = true -> validDecisionReason (Outcome d) (DecisionReason d) = true -> State r' = outcome_state (Outcome d) ->
  From e = RequestStateInReview -> To e = State r' -> EventReason e = DecisionReason d -> Detail e = DecisionID d -> OccurredAt e = DecidedAt d ->
  decided_by r'.
Proof.
  unfold decided_by. intros -> -> -> [_ Hx] Ho Hreason Hs Hf Ht Her Hdt Hoc. split_and!.
  - rewrite Hs. by destruct (Outcome d).
  - rewrite Hs. by destruct (Outcome d).
  - intros Hd. apply Forall_app. split; [done|]. constructor; [|done]. by rewrite Ht, Hs, Hd.
  - done.
  - apply Exists_app. right. constructor. by rewrite Ht, Hs.
Qed.

Lemma undecided_no_decision r : undecided (State r) = true -> decided_by r -> Decisions r = [].
Proof. unfold decided_by. intros Hu. destruct (Decisions r) as [|d [|? ?]]; [done| |done]. rewrite Hu. by intros [? _]. Qed.

Lemma not_completed_effect r to : canTransition (State r) to = true -> effect_recorded r ->
  EffectKind r = ""%string /\ EffectRef r = ""%string /\ EffectDigest r = ""%string.
Proof. unfold effect_recorded. intros Hc. destruct (rstate_is (State r) RequestStateCompleted) eqn:Hs; [|done]. apply rstate_is_true in Hs. by rewrite Hs in Hc. Qed.

Lemma completes_decided r ad ty r' to reason dt now : canTransition (State r) to = true ->
  completes r (advance r to reason ad dt ty now) r' to reason dt now -> decided_by r -> decided_by r'.
Proof.
  intros Hc Hcomp Hd. destruct Hcomp as [-> Hto Hex|outcome actor Hto Hs Ho Hr ->|kind ref dg Hto Hk Hr Hg ->|class Hto Hk ->].
  - eapply (decided_kept r); [done | done | done | done | | done]. cbn. apply canTransition_alt in Hc.
    destruct (rstate_is (State r) RequestStateInReview) eqn:Hs; [right | left; by apply rstate_is_false].
    apply rstate_is_true in Hs. rewrite Hs in Hc. cbn in Hc. repeat destruct Hto as [<-|Hto]; try done; repeat destruct Hc as [Hc|Hc]; done.
  - assert (Hnone : Decisions r = []) by (apply undecided_no_decision; [by rewrite Hs | done]).
    eapply (decided_new r); try done; cbn; by rewrite ?Hnone.
  - eapply (decided_kept r); [done | done | done | done | | done]. left. intros Hs. rewrite Hs, Hto in Hc. done.
  - eapply (decided_kept r); [done | done | done | done | | done]. left. intros Hs. rewrite Hs, Hto in Hc. done.
Qed.

Lemma completes_effect r ad ty r' to reason dt now : canTransition (State r) to = true ->
  completes r (advance r to reason ad dt ty now) r' to reason dt now -> effect_recorded r -> effect_recorded r'.
Proof.
  intros Hc Hcomp Hd. apply (not_completed_effect _ _ Hc) in Hd.
  destruct Hcomp as [-> Hto Hex|outcome actor Hto Hs Ho Hr ->|kind ref dg Hto Hk Hr Hg ->|class Hto Hk ->]; unfold effect_recorded; cbn.
  - repeat destruct Hto as [<-|Hto]; done.
  - subst to. by destruct outcome.
  - subst to. by cbn.
  - by subst to.
Qed.

Lemma step_workflow i r r' : workflow i r -> request_step targetReferenceDigest r r' -> workflow i r'.
Proof.
  intros Hw Hs. destruct (step_cases r r' Hs) as [->|(to & reason & ad & dt & ty & now & Hcomp & Ht & Hc & _)]; [done|].
  destruct Hw as [Hi Hr Hn Hv Hd He Hx Hf]. destruct (completes_frame _ _ _ _ _ _ _ Hcomp) as (Hsame & Hst & Hup & Hver & Hev).
  unfold same_instruction in *. cbn in Hsame, Hst, Hup, Hver, Hev. split; rewrite ?Hst, ?Hup, ?Hver, ?Hev.
  - unfold same_instruction. destruct Hsame as (-> & -> & -> & -> & -> & -> & -> & -> & ->). done.
  - assert (Hq : RequestedAt r' = RequestedAt r) by apply Hsame. rewrite Hq. by eapply (runs_snoc _ _ _ _ _ (mk_event _ _ _ _ _ _ _ _ _)).
  - by apply numbered_snoc.
  - rewrite Hv, wrap_int64_succ. unfold llen. rewrite length_app. cbn [length]. f_equal. lia.
  - by eapply completes_decided.
  - by eapply completes_effect.
  - intros ->. assert (Hq : ExpiresAt r' = ExpiresAt r) by apply Hsame. rewrite Hq.
    destruct Hcomp as [_ _ Hex|outcome ? Hto _ _ _ _|? ? ? Hto _ _ _ _|? Hto _ _]; [by apply Hex | by destruct outcome | done | done].
  - intros ->. destruct Hcomp as [_ Hto _|outcome ? Hto _ _ _ _|? ? ? Hto _ _ _ _|class _ Hk ->]; cbn.
    + repeat destruct Hto as [Hto|Hto]; done.
    + by destruct outcome.
    + done.
    + by apply token_nonempty in Hk.
Qed.

Lemma new_workflow identifier t channel subject verification region payload requestedAt expiresAt i :
  NewPrivacyRequest identifier t channel subject verification region payload requestedAt expiresAt = Ok i -> workflow i i.
Proof. unfold NewPrivacyRequest. intros Hn. go_inv Hn. split; done. Qed.

Lemma workflow_steps i r r' : workflow i r -> rtc (request_step targetReferenceDigest) r r' -> workflow i r'.
Proof. intros Hw Hr. induction Hr as [|x y z Hxy _ IH]; [done|]. apply IH. by eapply step_workflow. Qed.

(** A step of a request in a terminal state is no step. *)
Lemma terminal_step r r' : Terminal (State r) = true -> request_step targetReferenceDigest r r' -> r' = r.
Proof.
  intros Ht Hs. destruct (step_cases r r' Hs) as [->|(to & reason & ad & dt & ty & now & _ & _ & Hc & _)]; [done|]. by destruct (State r).
Qed.
End Steps.
End RequestInvariant.

(** ** The theorems *)
Module RequestSpec.
Import RequestInvariant.
Section Theorems.
Context `{Ulid} `{PayloadJson} (targetReferenceDigest : string -> string).

(** The workflow of a privacy request.  However its operations are called, a
    request keeps its instruction, its events are numbered from one and lead from
    requested to its state along the edges in order of time, its version counts
    them, it has the one decision its state asks for, given in review with a reason
    of its outcome and recorded by the deciding event, it has an effect exactly when
    completed and expires at its boundary only; terminal states are final, and
    nothing executes, fails or completes without an approval. *)
Theorem request_workflow_sound (identifier : string) (t : RequestType) (channel : Channel) (subjectID verificationID region payload : string)
    (requestedAt expiresAt : Time) (i r : Request)
    (Hi : NewPrivacyRequest identifier t channel subjectID verificationID region payload requestedAt expiresAt = Ok i)
    (Hr : rtc (request_step targetReferenceDigest) i r) :
  workflow i r /\
  (Terminal (State r) = true -> forall r', request_step targetReferenceDigest r r' -> r' = r) /\
  (In (State r) [RequestStateExecuting; RequestStateFailed; RequestStateCompleted] ->
   exists d, Decisions r = [d] /\ (Outcome d = OutcomeApproved \/ Outcome d = OutcomePartiallyApproved)).
Proof.
  assert (Hw : workflow i r) by (eapply workflow_steps; [by eapply new_workflow | exact Hr]).
  split; [exact Hw|]. split; [intros Ht r'; by apply terminal_step|].
  intros Hs. destruct Hw as [_ _ _ _ Hd _ _ _]. unfold decided_by in Hd. destruct (Decisions r) as [|d [|? ?]]; [|exists d; split; [done|]|done].
  - destruct Hd as [Hu _]. by repeat destruct Hs as [Hs|Hs]; [rewrite <- Hs in Hu ..|].
  - destruct Hd as (_ & Hden & _ & Hreason & _). destruct (Outcome d); [by left | by right | | done].
    destruct Hden as [Hden _]. specialize (Hden eq_refl). rewrite Hden in Hs. by repeat destruct Hs as [Hs|Hs].
Qed.
End Theorems.

End RequestSpec.

(** ** Witnesses *)
Module RequestWitness.
Import RequestInvariant RequestSpec UlidText.

Definition quoted (s : string) : string := String "034" (s +:+ String "034" "").
Definition no_instruction : RequestPayload := mk_payload "" "" "" "" "" "" "".
Definition for_marketing : RequestPayload := mk_payload "marketing" "" "" "" "" "" "".
Definition empty_text : string := "{}".
Definition marketing_text : string := "{" +:+ quoted "purpose" +:+ ":" +:+ quoted "marketing" +:+ "}".

(** The two instructions the examples use, and their text. *)
Definition sample_unmarshal (text : string) : option RequestPayload :=
  if String.eqb text empty_text then Some no_instruction else if String.eqb text marketing_text then Some for_marketing else None.
Definition sample_decode (text : string) : option (RequestPayload * bool) := match sample_unmarshal text with Some v => Some (v, false) | None => None end.
Definition sample_marshal (v : RequestPayload) : string := if bool_decide (v = no_instruction) then empty_text else marketing_text.

#[export] Instance sample_json : PayloadJson.
Proof.
  refine {| json_decode := sample_decode; json_unmarshal := sample_unmarshal; json_marshal := sample_marshal |}.
  - intros p v w more. unfold sample_decode. destruct (sample_unmarshal p); congruence.
  - intros p v. unfold sample_decode, sample_unmarshal. destruct (String.eqb p empty_text); [intros [= <-]; reflexivity|].
    destruct (String.eqb p marketing_text); [intros [= <-]; reflexivity | discriminate].
Defined.

Definition at_day (n : Z) : Time := mk_time (n * day_ns) true.
Definition no_digest (s : string) : string := s.

Definition fresh_request : result Error Request :=
  NewPrivacyRequest "prq_1" RequestErasure ChannelTenantAPI "sub_1" "" "ng-1" empty_text (at_day 1) (at_day 31).

(** Reviewed, approved, executed with a failure, executed again and completed. *)
Definition completed_request : result Error Request :=
  let? r := fresh_request in
  let? r := BeginReview r "actor" (at_day 2) in
  let? r := Decide no_digest r "prd_1" OutcomeApproved "erasure_approved" "actor" (at_day 3) in
  let? r := BeginExecution r "actor" (at_day 4) in
  let? r := Fail_ r "effect_unavailable" (at_day 5) in
  let? r := BeginExecution r "actor" (at_day 6) in
  Complete r "deletion" "del_1" "digest" (at_day 7).

Lemma completed_steps r : completed_request = Ok r -> exists i, fresh_request = Ok i /\ rtc (request_step no_digest) i r.
Proof.
  unfold completed_request. intros Hr. apply rbind_Ok in Hr as (i & Hi & Hr). apply rbind_Ok in Hr as (r1 & H1 & Hr).
  apply rbind_Ok in Hr as (r2 & H2 & Hr). apply rbind_Ok in Hr as (r3 & H3 & Hr). apply rbind_Ok in Hr as (r4 & H4 & Hr).
  apply rbind_Ok in Hr as (r5 & H5 & Hr). exists i. split; [exact Hi|].
  eapply rtc_l; [by eapply step_review|]. eapply rtc_l; [by eapply step_decide|]. eapply rtc_l; [by eapply step_execute|].
  eapply rtc_l; [by eapply step_fail|]. eapply rtc_l; [by eapply step_execute|]. eapply rtc_l; [by eapply step_complete|]. apply rtc_refl.
Qed.

Lemma request_workflow_sound_witness :
  exists i r d, fresh_request = Ok i /\ completed_request = Ok r /\ State r = RequestStateCompleted /\ workflow i r /\ Decisions r = [d] /\
    (Outcome d = OutcomeApproved \/ Outcome d = OutcomePartiallyApproved).
Proof.
  assert (Hr : exists r, completed_request = Ok r /\ State r = RequestStateCompleted) by (eexists; split; vm_compute; reflexivity).
  destruct Hr as (r & Hr & Hs). destruct (completed_steps r Hr) as (i & Hi & Hsteps).
  destruct (request_workflow_sound no_digest _ _ _ _ _ _ _ _ _ i r Hi Hsteps) as (Hw & _ & Happroved).
  destruct Happroved as (d & Hd & Ho); [rewrite Hs; right; right; left; reflexivity|].
  exists i, r, d. split; [exact Hi|]. split; [exact Hr|]. split; [exact Hs|]. split; [exact Hw|]. split; [exact Hd | exact Ho].
Defined.
End RequestWitness.
