(* ===== verification/PrivacyService.v ===== *)
(** * The privacy-request service and its store

    [internal/privacy/request_service.go] and [postgres/request.go]: one request
    row with its events, decisions and audit events, and the restrictions, shared
    by any number of workers.

    A call is a small automaton with one transaction per step, so that steps of
    different calls interleave; a step takes its clock reading, a fresh identifier,
    the answer of an external effect and the fate of its transaction, and may be a
    crash.  [IsolationSerializable] makes a transaction one step.  Columns keep the
    instants exactly; [jsonb] is a function on the payload text, SHA-256 and
    [Time.Format] are parameters. *)

From S2P Require Import Prelude GoTime Ident Deletion PrivacyRequest.
From Stdlib Require Import Ascii.

Import Restrictions.

(** ** The store *)

Record AuditEvent := mk_audit { AuditType : string; AuditReference : string; AuditVersion : Z; AuditAt : Time }.
#[export] Instance AuditEvent_eq_dec : EqDecision AuditEvent. Proof. solve_decision. Defined.

Record Database := mk_database { row : Request; restrictions : list Restriction; audits : list AuditEvent }.

Definition state_string (s : RequestState) : string :=
  match s with
  | RequestStateRequested => "requested" | RequestStateInReview => "in_review" | RequestStateApproved => "approved"
  | RequestStatePartiallyApproved => "partially_approved" | RequestStateDenied => "denied" | RequestStateExecuting => "executing"
  | RequestStateCompleted => "completed" | RequestStateFailed => "failed" | RequestStateWithdrawn => "withdrawn"
  | RequestStateExpired => "expired" | RequestStateOther raw => raw
  end.

Section Service.
Context `{Ulid} `{PayloadJson} (sha256_hex : string -> string) (format_rfc3339_nano : Time -> string) (jsonb : string -> option string).

Definition newline : string := String "010" "".
(** The hexadecimal form of the first twelve bytes. *)
Definition targetReferenceDigest (reference : string) : string := String.substring 0 24 (sha256_hex reference).

Definition eventDigest (identifier : string) (e : Event) : string :=
  sha256_hex (identifier +:+ newline +:+ EventType e +:+ newline +:+ decimal (Sequence e) +:+ newline +:+ state_string (From e) +:+ newline +:+
              state_string (To e) +:+ newline +:+ format_rfc3339_nano (OccurredAt e)).

Definition digested (identifier : string) (e : Event) : Event :=
  mk_event (Sequence e) (EventType e) (From e) (To e) (EventReason e) (ActorDigest e) (Detail e) (eventDigest identifier e) (OccurredAt e).

(** [ON CONFLICT DO NOTHING] on the sequence, and on the identifier. *)
Definition append_event (identifier : string) (stored : list Event) (e : Event) : list Event :=
  if existsb (fun x => Sequence x =? Sequence e) stored then stored else stored ++ [digested identifier e].
Definition appendPrivacyEvents (stored : list Event) (r : Request) : list Event := fold_left (append_event (ID r)) (Events r) stored.

Definition append_decision (stored : list Decision) (d : Decision) : list Decision :=
  if existsb (fun x => String.eqb (DecisionID x) (DecisionID d)) stored then stored else stored ++ [d].
Definition appendPrivacyDecisions (stored : list Decision) (r : Request) : list Decision := fold_left append_decision (Decisions r) stored.

Definition with_rows (r : Request) (payload : string) (decisions : list Decision) (events : list Event) : Request :=
  mk_request (ID r) (Type_ r) (State r) (Channel_ r) (SubjectID r) (VerificationID r) (Region r) payload (ReasonCode_ r) (FailureClass r)
    (EffectKind r) (EffectRef r) (EffectDigest r) (ExpiresAt r) (RequestedAt r) (UpdatedAt r) (Version r) decisions events.

Definition appendRequestAudit (r : Request) (eventType : string) : AuditEvent := mk_audit eventType (ID r) (Version r) (utc (UpdatedAt r)).
Definition appendRestrictionAudit (r : Restriction) (eventType : string) : AuditEvent :=
  mk_audit eventType (RestrictionID r) (RVersion r) (utc (AuditTime r)).
Definition latestEventType (r : Request) : string :=
  match last (Events r) with None => "privacy.request.updated" | Some e => EventType e end.

(** Into an empty database. *)
Definition CreatePrivacyRequest (actor : string) (r : Request) : result Error Database :=
  reject negb (Validate r) || empty_string actor with ErrInvalid ;;
  match jsonb (Payload r) with
  | None => Err ErrQuery
  | Some payload =>
      Ok (mk_database (with_rows r payload (appendPrivacyDecisions [] r) (appendPrivacyEvents [] r)) []
           [appendRequestAudit r "privacy.request.requested"])
  end.

Definition decision_le (a b : Decision) : Prop :=
  if decide (DecisionVersion a = DecisionVersion b) then String.le (DecisionID a) (DecisionID b) else DecisionVersion a <= DecisionVersion b.
#[export] Instance decision_le_dec : RelDecision decision_le.
Proof. intros a b. unfold decision_le. case_decide; apply _. Defined.

Definition FindPrivacyRequest (db : Database) (identifier : string) : result Error Request :=
  reject negb (String.eqb identifier (ID (row db))) with ErrInvalid ;;
  let r := with_rows (row db) (Payload (row db)) (merge_sort decision_le (Decisions (row db))) (order_by Sequence (Events (row db))) in
  reject negb (Validate r) with ErrInvalid ;;
  Ok r.

(** The columns of [r] that the [UPDATE] writes, in the row [s]. *)
Definition updated (s r : Request) : Request :=
  mk_request (ID s) (Type_ s) (State r) (Channel_ s) (SubjectID s) (VerificationID s) (Region s) (Payload s) (ReasonCode_ r) (FailureClass r)
    (EffectKind r) (EffectRef r) (EffectDigest r) (ExpiresAt s) (RequestedAt s) (UpdatedAt r) (Version r)
    (appendPrivacyDecisions (Decisions s) r) (appendPrivacyEvents (Events s) r).

Definition SavePrivacyRequest (db : Database) (r : Request) (expectedVersion : Z) (c : Commit) : result Error unit * Database :=
  transact ErrQuery db c (
    reject negb (Validate r) || (expectedVersion <? 1) || negb (Version r =? wrap_int64 (expectedVersion + 1)) with ErrInvalid ;;
    reject negb (String.eqb (ID r) (ID (row db))) || negb (Version (row db) =? expectedVersion) with ErrConflict ;;
    Ok (tt, mk_database (updated (row db) r) (restrictions db) (audits db ++ [appendRequestAudit r (latestEventType r)]))).

(** [DuePrivacyRequests] selects the request. *)
Definition due (db : Database) (now : Time) : bool :=
  (rstate_is (State (row db)) RequestStateRequested || rstate_is (State (row db)) RequestStateInReview) && negb (after (ExpiresAt (row db)) now).

Definition CreateRestriction (db : Database) (actor : string) (r : Restriction) (c : Commit) : result Error unit * Database :=
  transact ErrQuery db c (
    reject negb (restriction_valid r) || empty_string actor with ErrInvalid ;;
    reject existsb (fun x => String.eqb (RestrictionID x) (RestrictionID r)) (restrictions db) || negb (String.eqb (RequestID r) (ID (row db)))
      with ErrQuery ;;
    Ok (tt, mk_database (row db) (restrictions db ++ [r]) (audits db ++ [appendRestrictionAudit r "privacy.restriction.created"]))).

Definition FindRestriction (db : Database) (identifier : string) : result Error Restriction :=
  match List.find (fun x => String.eqb (RestrictionID x) identifier) (restrictions db) with
  | None => Err ErrInvalid
  | Some r => reject negb (restriction_valid r) with ErrInvalid ;; Ok r
  end.

(** The rows the [UPDATE] of a lift matches, and the columns it writes. *)
Definition liftable (r : Restriction) (expectedVersion : Z) (s : Restriction) : bool :=
  String.eqb (RestrictionID s) (RestrictionID r) && (RVersion s =? expectedVersion) && bool_decide (RState s = RestrictionActive).
Definition lift_row (r : Restriction) (expectedVersion : Z) (s : Restriction) : Restriction :=
  if liftable r expectedVersion s
  then mk_restriction (RestrictionID s) (RequestID s) (RestrictedSubject s) (RestrictedPurpose s) (Scope s) (RestrictionReason_ s)
         (RestrictedRegion s) (RState r) (StartsAt s) (LiftedAt r) (LiftReasonCode r) (RVersion r)
  else s.

Definition SaveRestriction (db : Database) (r : Restriction) (expectedVersion : Z) (c : Commit) : result Error unit * Database :=
  transact ErrQuery db c (
    reject negb (restriction_valid r) || (expectedVersion <? 1) || negb (RVersion r =? wrap_int64 (expectedVersion + 1)) with ErrInvalid ;;
    reject negb (existsb (liftable r expectedVersion) (restrictions db)) with ErrConflict ;;
    Ok (tt, mk_database (row db) (map (lift_row r expectedVersion) (restrictions db)) (audits db ++ [appendRestrictionAudit r "privacy.restriction.lifted"]))).

(** Those that start by the instant, by start and identifier, each read again. *)
Definition in_force (subjectID : string) (at_ : Time) (r : Restriction) : bool :=
  String.eqb (RestrictedSubject r) subjectID && bool_decide (RState r = RestrictionActive) && scope_is (Scope r) RestrictionScopeSubject &&
  negb (after (StartsAt r) at_).
Definition ActiveRestrictions (db : Database) (subjectID : string) (at_ : Time) : result Error (list Restriction) :=
  rmap (fun r => FindRestriction db (RestrictionID r))
    (order_by_columns (fun r => [NumberColumn (instant (StartsAt r)); TextColumn (RestrictionID r)]) (List.filter (in_force subjectID at_) (restrictions db))).

(** ** The service *)

Definition Permission := string.
Definition PermissionReadPrivacyRequests : Permission := "privacy_requests:read".
Definition PermissionWritePrivacyRequests : Permission := "privacy_requests:write".
Definition PermissionApprovePrivacyRequests : Permission := "privacy_requests:approve".
Record Actor := mk_actor { ActorID : string; Permissions : list Permission }.
Definition permits (a : Actor) (required : Permission) : bool :=
  negb (empty_string (ActorID a)) && existsb (fun p => String.eqb p required) (Permissions a).

Record RequestConfig := mk_config { DefaultExpiry : Z; MaximumExpiry : Z }.
Definition SelectedRequestConfig : RequestConfig := mk_config (30 * day_ns) (365 * day_ns).
Definition config_valid (c : RequestConfig) : bool :=
  negb ((DefaultExpiry c <=? 0) || (MaximumExpiry c <? DefaultExpiry c) || (365 * day_ns <? MaximumExpiry c)).

Record CreateRequestInput := mk_input_request {
  InType : RequestType; InSubjectID : string; InVerificationID : string; InRegion : string; InPayload : string; InExpiresAt : option Time }.

Definition expiry (config : RequestConfig) (now : Time) (requested : option Time) : result Error Time :=
  match requested with
  | None => Ok (add now (DefaultExpiry config))
  | Some candidate =>
      let candidate := utc candidate in
      reject negb (after candidate now) || after candidate (add now (MaximumExpiry config)) with ErrInvalid ;;
      Ok candidate
  end.

(** [create]: two clock readings, a fresh identifier, the tenant in scope. *)
Definition create (config : RequestConfig) (scoped : bool) (actor : string) (channel : Channel) (input : CreateRequestInput)
    (clock clock_again : Time) (fresh : option string) : result Error (Request * Database) :=
  reject negb scoped || negb (type_valid (InType input)) || negb (validRegion (InRegion input)) with ErrInvalid ;;
  reject bool_decide (channel = ChannelSubjectOutcome) && bool_decide (InType input = RequestCorrection) &&
         empty_string (InVerificationID input) with ErrInvalid ;;
  let? expiresAt := expiry config (utc clock) (InExpiresAt input) in
  let? payload := canonicalPayload (InType input) (InPayload input) in
  match fresh with
  | None => Err ErrQuery
  | Some identifier =>
      let? request := NewPrivacyRequest identifier (InType input) channel (InSubjectID input) (InVerificationID input) (InRegion input)
                        payload (utc clock_again) expiresAt in
      reject (bool_decide (Type_ request = RequestRestriction) || bool_decide (Type_ request = RequestErasure)) &&
             empty_string (SubjectID request) with ErrInvalid ;;
      let? db := CreatePrivacyRequest actor request in
      Ok (request, db)
  end.

Definition Create (config : RequestConfig) (scoped : bool) (actor : Actor) (input : CreateRequestInput) (clock clock_again : Time)
    (fresh : option string) : result Error (Request * Database) :=
  reject negb (permits actor PermissionWritePrivacyRequests) with ErrConflict ;;
  create config scoped (ActorID actor) ChannelTenantAPI input clock clock_again fresh.

(** The credential's verification, by its printed form. *)
Definition CreateSubject (config : RequestConfig) (scoped : bool) (verification : string) (input : CreateRequestInput) (clock clock_again : Time)
    (fresh : option string) : result Error (SubjectRequest * Database) :=
  reject negb scoped || empty_string verification with ErrConflict ;;
  let input := mk_input_request (InType input) (InSubjectID input) verification (InRegion input) (InPayload input) (InExpiresAt input) in
  let? created := create config scoped ("subject:" +:+ verification) ChannelSubjectOutcome input clock clock_again fresh in
  Ok (SubjectProjection (fst created), snd created).

Definition Blocked (db : Database) (scoped : bool) (subjectID : string) (clock clock_again : Time) : result Error bool :=
  reject negb scoped || negb (token subjectID 200) with ErrInvalid ;;
  let? active := ActiveRestrictions db subjectID (utc clock) in
  Ok (existsb (fun r => scope_is (Scope r) RestrictionScopeSubject && ActiveAt r (utc clock_again)) active).

(** *** Calls on an existing request *)

Inductive Op :=
| OpBeginReview
| OpDecide (outcome : DecisionOutcome) (reason : ReasonCode) (expectedVersion : Z)
| OpWithdraw (expectedVersion : Z)
| OpExecute (expectedVersion : Z)
| OpExpireDue (limit : Z)
| OpLiftRestriction (reason : RestrictionReason) (expectedVersion : Z).

(** [identifier] names the request or the restriction. *)
Record Call := mk_call { op : Op; actor : Actor; identifier : string }.

Record EffectResult := mk_effect { EKind : string; EReference : string; EDigest : string }.

Record Input := mk_input {
  crash : bool;
  call : Call;
  clock : Time;
  fresh : option string;
  (** The external executor, if there is one, and what it answers. *)
  external : option (result Error EffectResult);
  commit : Commit;
}.
Definition now (i : Input) : Time := utc (clock i).

(** Where a worker is in its call. *)
Inductive Local :=
| Idle
| Selected (c : Call)
| Loaded (c : Call) (r : Request)
| Reviewed (c : Call) (r : Request)
| Executing (c : Call) (r : Request)
| Effected (c : Call) (r : Request) (effect : result Error EffectResult)
| LoadedRestriction (c : Call) (r : Restriction)
| Returned (r : result Error Request)
| ReturnedRestriction (r : result Error Restriction).

(** The checks before the first read. *)
Definition admitted (c : Call) : bool :=
  match op c with
  | OpBeginReview => permits (actor c) PermissionWritePrivacyRequests && negb (empty_string (identifier c))
  | OpDecide outcome _ expected =>
      permits (actor c) PermissionApprovePrivacyRequests && negb (empty_string (identifier c)) && outcome_valid outcome && negb (expected <? 1)
  | OpWithdraw expected => permits (actor c) PermissionWritePrivacyRequests && negb (empty_string (identifier c)) && negb (expected <? 1)
  | OpExecute expected => permits (actor c) PermissionApprovePrivacyRequests && negb (empty_string (identifier c)) && negb (expected <? 1)
  | OpExpireDue limit => permits (actor c) PermissionWritePrivacyRequests && negb ((limit <? 1) || (1000 <? limit))
  | OpLiftRestriction _ expected => permits (actor c) PermissionApprovePrivacyRequests && negb (empty_string (identifier c)) && negb (expected <? 1)
  end.

Definition is_lift (o : Op) : bool := match o with OpLiftRestriction _ _ => true | _ => false end.
Definition refuse (c : Call) (e : Error) : Local := if is_lift (op c) then ReturnedRestriction (Err e) else Returned (Err e).

(** Store [next], when the operation made a new version of [r], and go on. *)
Definition save_then (db : Database) (r next : Request) (i : Input) (k : Local) : Local * Database :=
  if Version next =? Version r then (k, db)
  else
    match SavePrivacyRequest db next (Version r) (commit i) with
    | (Ok _, db') => (k, db')
    | (Err e, db') => (Returned (Err e), db')
    end.

Definition review (c : Call) (r : Request) (i : Input) (db : Database) : Local * Database :=
  match BeginReview r (targetReferenceDigest (ActorID (actor c))) (now i) with
  | Err e => (Returned (Err e), db)
  | Ok next => save_then db r next i (Returned (Ok next))
  end.

(** [Decide] from the decision's identifier on. *)
Definition decide_then (c : Call) (outcome : DecisionOutcome) (reason : ReasonCode) (r : Request) (i : Input) (db : Database) : Local * Database :=
  match fresh i with
  | None => (Returned (Err ErrQuery), db)
  | Some decisionID =>
      match Decide targetReferenceDigest r decisionID outcome reason (ActorID (actor c)) (now i) with
      | Err e => (Returned (Err e), db)
      | Ok next => save_then db r next i (Returned (Ok next))
      end
  end.

Definition decide_call (c : Call) (outcome : DecisionOutcome) (reason : ReasonCode) (expected : Z) (r : Request) (i : Input) (db : Database)
  : Local * Database :=
  if Decided (State r) && negb (llen (Decisions r) =? 0) then (Returned (replay_decision r outcome reason), db)
  else if rstate_is (State r) RequestStateInReview then
    if Version r =? expected then decide_then c outcome reason r i db else (Returned (Err ErrConflict), db)
  else if rstate_is (State r) RequestStateRequested then
    if (expected =? Version r) || (expected =? wrap_int64 (Version r + 1)) then
      match BeginReview r (targetReferenceDigest (ActorID (actor c))) (now i) with
      | Err e => (Returned (Err e), db)
      | Ok reviewed =>
          match SavePrivacyRequest db reviewed (Version r) (commit i) with
          | (Ok _, db') => (Reviewed c reviewed, db')
          | (Err e, db') => (Returned (Err e), db')
          end
      end
    else (Returned (Err ErrConflict), db)
  else (Returned (Err ErrConflict), db).

Definition withdraw_call (c : Call) (expected : Z) (r : Request) (i : Input) (db : Database) : Local * Database :=
  if rstate_is (State r) RequestStateWithdrawn then (Returned (Ok r), db)
  else if negb (Version r =? expected) then (Returned (Err ErrConflict), db)
  else
    match Withdraw r (targetReferenceDigest (ActorID (actor c))) (now i) with
    | Err e => (Returned (Err e), db)
    | Ok next => save_then db r next i (Returned (Ok next))
    end.

Definition expire_call (r : Request) (i : Input) (db : Database) : Local * Database :=
  match Expire r (now i) with
  | Err e => (Returned (Err e), db)
  | Ok next => save_then db r next i (Returned (Ok next))
  end.

Definition execute_call (c : Call) (expected : Z) (r : Request) (i : Input) (db : Database) : Local * Database :=
  if rstate_is (State r) RequestStateCompleted then (Returned (Ok r), db)
  else if negb (Version r =? expected) then (Returned (Err ErrConflict), db)
  else
    match BeginExecution r (targetReferenceDigest (ActorID (actor c))) (now i) with
    | Err e => (Returned (Err e), db)
    | Ok next => save_then db r next i (Executing c next)
    end.

(** The restriction of an approved request, before it is stored. *)
Definition prepare (scope : RestrictionScope) (r : Request) (i : Input) : result Error Restriction :=
  let? payload := ValidatePayload (Type_ r) (Payload r) in
  match fresh i with
  | None => Err ErrQuery
  | Some identifier =>
      let reason := if bool_decide (Channel_ r = ChannelSubjectOutcome) then RestrictionRequestedBySubject else RestrictionAccuracyDispute in
      NewScoped scope identifier (ID r) (SubjectID r) (Purpose payload) reason (Region r) (now i)
  end.

Definition restrict (scope : RestrictionScope) (kind : string) (c : Call) (r : Request) (i : Input) (db : Database)
  : result Error EffectResult * Database :=
  match prepare scope r i with
  | Err e => (Err e, db)
  | Ok restriction =>
      match CreateRestriction db (ActorID (actor c)) restriction (commit i) with
      | (Err e, db') => (Err e, db')
      | (Ok _, db') => (Ok (mk_effect kind (RestrictionID restriction) (targetReferenceDigest (RestrictionID restriction))), db')
      end
  end.

Definition executeEffect (c : Call) (r : Request) (i : Input) (db : Database) : result Error EffectResult * Database :=
  match Type_ r with
  | RequestRestriction => restrict RestrictionScopeSubject "restriction" c r i db
  | RequestObjection => restrict RestrictionScopePurpose "objection" c r i db
  | _ => match external i with None => (Err ErrUnavailable, db) | Some answer => (answer, db) end
  end.

Definition classifyRequestFailure (e : Error) : string :=
  match e with ErrCancelled => "cancelled" | ErrUnavailable => "effect_unavailable" | _ => "effect_failed" end.

(** [Execute] after the effect. *)
Definition settle (r : Request) (effect : result Error EffectResult) (i : Input) (db : Database) : Local * Database :=
  let '(outcome, answer) :=
    match effect with
    | Err e => (Fail_ r (classifyRequestFailure e) (now i), fun _ => Err e)
    | Ok e => (Complete r (EKind e) (EReference e) (EDigest e) (now i), Ok)
    end in
  match outcome with
  | Err e => (Returned (Err e), db)
  | Ok next =>
      match SavePrivacyRequest db next (Version r) (commit i) with
      | (Ok _, db') => (Returned (answer next), db')
      | (Err e, db') => (Returned (Err e), db')
      end
  end.

Definition lift_call (reason : RestrictionReason) (expected : Z) (r : Restriction) (i : Input) (db : Database) : Local * Database :=
  if lifted r then (ReturnedRestriction (if bool_decide (LiftReasonCode r = reason) then Ok r else Err ErrConflict), db)
  else if negb (RVersion r =? expected) then (ReturnedRestriction (Err ErrConflict), db)
  else
    match Lift r reason (now i) with
    | Err e => (ReturnedRestriction (Err e), db)
    | Ok next =>
        if RVersion next =? RVersion r then (ReturnedRestriction (Ok next), db)
        else
          match SaveRestriction db next (RVersion r) (commit i) with
          | (Ok _, db') => (ReturnedRestriction (Ok next), db')
          | (Err e, db') => (ReturnedRestriction (Err e), db')
          end
    end.

Definition on_loaded (c : Call) (r : Request) (i : Input) (db : Database) : Local * Database :=
  match op c with
  | OpBeginReview => review c r i db
  | OpDecide outcome reason expected => decide_call c outcome reason expected r i db
  | OpWithdraw expected => withdraw_call c expected r i db
  | OpExecute expected => execute_call c expected r i db
  | OpExpireDue _ => expire_call r i db
  | OpLiftRestriction _ _ => (Idle, db)
  end.

Definition find_call (c : Call) (db : Database) : Local :=
  if is_lift (op c) then
    match FindRestriction db (identifier c) with Ok r => LoadedRestriction c r | Err e => ReturnedRestriction (Err e) end
  else match FindPrivacyRequest db (identifier c) with Ok r => Loaded c r | Err e => Returned (Err e) end.

Definition work (l : Local) (i : Input) (db : Database) : Local * Database :=
  if crash i then (Idle, db)
  else
    match l with
    | Idle =>
        if negb (admitted (call i)) then (refuse (call i) ErrConflict, db)
        else
          match op (call i) with
          | OpExpireDue _ => if due db (now i) then (Selected (mk_call (op (call i)) (actor (call i)) (ID (row db))), db) else (Idle, db)
          | _ => (find_call (call i) db, db)
          end
    | Selected c => (find_call c db, db)
    | Loaded c r => on_loaded c r i db
    | Reviewed c r => match op c with OpDecide outcome reason _ => decide_then c outcome reason r i db | _ => (Idle, db) end
    | Executing c r => let '(effect, db') := executeEffect c r i db in (Effected c r effect, db')
    | Effected _ r effect => settle r effect i db
    | LoadedRestriction c r => match op c with OpLiftRestriction reason expected => lift_call reason expected r i db | _ => (Idle, db) end
    | Returned _ | ReturnedRestriction _ => (Idle, db)
    end.

(** Any number of workers over one database, in any interleaving. *)
Record World := mk_world { database : Database; workers : list Local }.

Inductive world_step (w : World) : World -> Prop :=
| world_work k l i l' db' :
    workers w !! k = Some l -> work l i (database w) = (l', db') -> world_step w (mk_world db' (<[k := l']> (workers w))).

Definition start_world (db : Database) (n : nat) : World := mk_world db (repeat Idle n).
End Service.

(** ** What the store keeps *)
Module ServiceInvariant.
Import RequestInvariant.
Section Invariants.
Context `{Ulid} `{PayloadJson} (sha256_hex : string -> string) (format_rfc3339_nano : Time -> string) (jsonb : string -> option string).

Notation targetReferenceDigest := (targetReferenceDigest sha256_hex).
Notation digested := (digested sha256_hex format_rfc3339_nano).
Notation appendPrivacyEvents := (appendPrivacyEvents sha256_hex format_rfc3339_nano).
Notation SavePrivacyRequest := (SavePrivacyRequest sha256_hex format_rfc3339_nano).
Notation request_step := (request_step targetReferenceDigest).

(** The request as its rows hold it: every event with its digest. *)
Definition sealed (r : Request) : Request := with_rows r (Payload r) (Decisions r) (map (digested (ID r)) (Events r)).

(** An operation of the workflow, up to the digests, that makes a new version. *)
Definition stored_step (p q : Request) : Prop :=
  exists a b, sealed a = p /\ request_step a b /\ sealed b = q /\ Version q = Version p + 1.

Lemma sealed_events r : Events (sealed r) = map (digested (ID r)) (Events r).
Proof. done. Qed.

Lemma runs_digested identifier events : forall s t s' t', runs s t (map (digested identifier) events) s' t' <-> runs s t events s' t'.
Proof. induction events as [|e events IH]; intros s t s' t'; cbn; [done|]. by rewrite IH. Qed.

Lemma numbered_digested identifier events : numbered (map (digested identifier) events) <-> numbered events.
Proof.
  unfold numbered. split; intros Hn k e He.
  - apply (Hn k (digested identifier e)). rewrite list_lookup_fmap. by rewrite He.
  - rewrite list_lookup_fmap in He. destruct (events !! k) as [x|] eqn:Hx; [|done]. cbn in He. injection He as <-. cbn. by apply Hn.
Qed.

Lemma workflow_sealed i r : workflow i (sealed r) <-> workflow i r.
Proof.
  assert (Hd : decided_by (sealed r) <-> decided_by r).
  { unfold decided_by. rewrite sealed_events. cbn [sealed with_rows Decisions State]. destruct (Decisions r) as [|d [|? ?]]; [| |done];
      by rewrite ?Forall_map, ?Exists_map. }
  split; intros [Hi Hr Hn Hv Hdec He Hx Hf]; cbn in *; rewrite ?runs_digested, ?numbered_digested, ?Hd in *; split; try done; cbn;
    rewrite ?runs_digested, ?numbered_digested; unfold llen in *; rewrite ?length_map in *; try done; by apply Hd.
Qed.

(** A stored row: a request of the workflow whose version counts its events. *)
Definition row_ok (i s : Request) : Prop :=
  workflow i s /\ sealed s = s /\ Version s = llen (Events s) + 1 /\ Version s <= max_int64.

Lemma row_sequences i s : row_ok i s -> map Sequence (Events s) = map (fun k => Z.of_nat k + 1) (seq 0 (length (Events s))).
Proof.
  intros ([_ _ Hn _ _ _ _ _] & _ & Hv & Hmax). apply list_eq. intros k. rewrite !list_lookup_fmap. destruct (decide (k < length (Events s))%nat) as [Hk|Hk].
  - destruct (lookup_lt_is_Some_2 _ _ Hk) as [e He]. rewrite He, lookup_seq_lt by done. cbn. f_equal. rewrite (Hn _ _ He). rewrite wrap_int64_id; [done|].
    unfold llen, min_int64 in *. lia.
  - rewrite (lookup_ge_None_2 (Events s)), (lookup_ge_None_2 (seq _ _)); [done | rewrite length_seq; lia | lia].
Qed.

Lemma counting_sorted n : forall a, StronglySorted Z.le (map (fun k => Z.of_nat k + 1) (seq a n)) /\ NoDup (map (fun k => Z.of_nat k + 1) (seq a n)).
Proof.
  induction n as [|n IH]; intros a; cbn; [split; constructor|]. destruct (IH (S a)) as [IHs IHn]. split; constructor; try done.
  - apply Forall_map, Forall_forall. intros k Hk%elem_of_seq. lia.
  - intros (k & He & Hk%elem_of_seq)%list_elem_of_fmap. lia.
Qed.

(** The rows are read back as they are. *)
Lemma Find_row i db identifier r : row_ok i (row db) -> FindPrivacyRequest db identifier = Ok r -> r = row db.
Proof.
  intros Hok Hf. unfold FindPrivacyRequest in Hf. go_inv Hf. pose proof (row_sequences _ _ Hok) as Hseq.
  destruct (counting_sorted (length (Events (row db))) 0) as [Hs Hn].
  rewrite (order_by_unique Sequence (Events (row db)) (Events (row db))) by (done || by rewrite Hseq).
  assert (Hd : merge_sort decision_le (Decisions (row db)) = Decisions (row db)).
  { destruct Hok as ([_ _ _ _ Hd _ _ _] & _). unfold decided_by in Hd. by destruct (Decisions (row db)) as [|d [|? ?]]. }
  rewrite Hd. by destruct (row db).
Qed.

Lemma stored_step_version p q : stored_step p q -> Version q = Version p + 1.
Proof. by intros (a & b & _ & _ & _ & Hv). Qed.

Lemma stored_steps_version p q : rtc stored_step p q -> Version p <= Version q /\ (Version p = Version q -> p = q).
Proof.
  induction 1 as [p|p x q Hx _ [IH _]]; [split; [lia|done]|]. apply stored_step_version in Hx. split; [lia|]. intros He. lia.
Qed.

(** A request a worker holds is a former state of the row. *)
Definition held (i s r : Request) : Prop := rtc stored_step (sealed r) s /\ workflow i r.

Lemma held_mono i s s' r : held i s r -> rtc stored_step s s' -> held i s' r.
Proof. intros [Hr Hw] Hs. split; [by etrans|done]. Qed.

(** *** Saving *)

Lemma append_known identifier events : forall stored, Forall (fun e => existsb (fun x => Sequence x =? Sequence e) stored = true) events ->
  fold_left (append_event sha256_hex format_rfc3339_nano identifier) events stored = stored.
Proof.
  induction events as [|e events IH]; intros stored Hall; cbn; [done|]. apply Forall_cons in Hall as [He Hall]. unfold append_event at 2.
  rewrite He. by apply IH.
Qed.

Lemma same_sequence_known events : forall e, e ∈ events -> existsb (fun x => Sequence x =? Sequence e) events = true.
Proof. intros e He. apply existsb_exists. exists e. split; [by apply list_elem_of_In|]. lia. Qed.

(** The rows gain the event of the new version, and its decision if it has one. *)
Lemma append_new_event i r next e : row_ok i (sealed r) -> ID next = ID r -> Events next = Events r ++ [e] ->
  Sequence e = wrap_int64 (llen (Events r) + 1) -> llen (Events r) + 1 <= max_int64 ->
  appendPrivacyEvents (Events (sealed r)) next = map (digested (ID next)) (Events next).
Proof.
  intros Hok Hid He Hs Hmax. unfold appendPrivacyEvents. rewrite He, fold_left_app, Hid.
  rewrite (append_known (ID r) (Events r)).
  - cbn [fold_left]. unfold append_event. rewrite map_app.
    match goal with |- context [existsb ?f ?l] => destruct (existsb f l) eqn:Hx end; [|done]. exfalso.
    apply existsb_exists in Hx as (x & Hx & Hxs). apply Z.eqb_eq in Hxs. pose proof (row_sequences _ _ Hok) as Hseq.
    assert (Hin : Sequence x ∈ map Sequence (Events (sealed r))) by (apply list_elem_of_fmap_2; by apply list_elem_of_In).
    rewrite Hseq in Hin. apply list_elem_of_fmap in Hin as (k & Hk & Hk'). apply elem_of_seq in Hk'. rewrite Hxs, Hs in Hk.
    rewrite sealed_events, length_map in Hk'. pose proof (llen_nonneg (Events r)). rewrite wrap_int64_id in Hk by (unfold min_int64; lia).
    unfold llen in *. lia.
  - apply Forall_forall. intros x Hx. rewrite sealed_events. apply existsb_exists. exists (digested (ID r) x). split; [|cbn; lia].
    by apply in_map, list_elem_of_In.
Qed.

Lemma append_same_decisions r : decided_by r -> fold_left append_decision (Decisions r) (Decisions r) = Decisions r.
Proof.
  intros Hd. unfold decided_by in Hd. destruct (Decisions r) as [|d [|? ?]]; [done| |done]. cbn. unfold append_decision. cbn.
  by rewrite String.eqb_refl.
Qed.

(** What an operation that made a new version did. *)
Lemma step_new_version r next : request_step r next -> Version next = wrap_int64 (Version r + 1) -> 1 <= Version next -> Version r <= max_int64 ->
  exists to reason ad dt ty now, completes r (advance r to reason ad dt ty now) next to reason dt now /\
    String.prefix "privacy.request." ty = true /\ Version next = Version r + 1 /\ Version next <= max_int64.
Proof.
  intros Hs Hv Hpos Hmax.
  assert (Hlt : 1 <= Version r -> Version r < max_int64 /\ wrap_int64 (Version r + 1) = Version r + 1).
  { intros H1. destruct (decide (Version r = max_int64)) as [He|He]; [rewrite Hv, He in Hpos; by vm_compute in Hpos|].
    split; [lia|]. apply wrap_int64_id. unfold min_int64, max_int64 in *. lia. }
  destruct (step_cases targetReferenceDigest r next Hs) as [->|(to & reason & ad & dt & ty & now & Hcomp & _ & _ & Hty)]; [lia|].
  exists to, reason, ad, dt, ty, now. split; [done|]. split; [done|]. rewrite Hv.
  assert (Hval : Validate r = true).
  { clear -Hs Hcomp. destruct Hs as [? ? ? Hs|? ? ? ? ? ? Hs|? ? ? Hs|? ? ? ? ? Hs|? ? ? Hs|? ? ? Hs|? ? Hs];
      (unfold BeginReview, Decide, BeginExecution, Withdraw, Expire in Hs; go_inv Hs; bprop; done) ||
      (unfold Complete, Fail_ in Hs; go_inv Hs; unfold transition in Hv; go_inv Hv; bprop; done). }
  unfold Validate in Hval. bprop. destruct Hlt as [? ->]; lia.
Qed.

Lemma new_decisions r ad ty next to reason dt now : decided_by r -> completes r (advance r to reason ad dt ty now) next to reason dt now ->
  appendPrivacyDecisions (Decisions r) next = Decisions next.
Proof.
  intros Hd Hcomp. unfold appendPrivacyDecisions.
  destruct Hcomp as [-> Hto Hex|outcome actor Hto Hs Ho Hr ->|kind ref dg Hto Hk Hr Hg ->|class Hto Hk ->]; cbn;
    [by apply append_same_decisions | | by apply append_same_decisions ..].
  assert (Hnone : Decisions r = []) by (apply undecided_no_decision; [by rewrite Hs | done]). by rewrite Hnone.
Qed.

Lemma updated_sealed i r next to reason ad dt ty now : row_ok i (sealed r) ->
  completes r (advance r to reason ad dt ty now) next to reason dt now -> llen (Events r) + 1 <= max_int64 ->
  updated sha256_hex format_rfc3339_nano (sealed r) next = sealed next.
Proof.
  intros Hok Hcomp Hmax. destruct (completes_frame _ _ _ _ _ _ _ Hcomp) as (Hsame & Hst & Hup & Hver & Hev).
  assert (Hd : decided_by r) by (destruct Hok as [Hw _]; apply (wf_decided i), workflow_sealed, Hw).
  pose proof (new_decisions _ _ _ _ _ _ _ _ Hd Hcomp) as Hdec. unfold same_instruction in Hsame. cbn in Hsame, Hev.
  destruct Hsame as (Hid & Ht & Hc & Hsub & Hver' & Hreg & Hpay & Hexp & Hreq).
  unfold updated. rewrite (append_new_event i r next _ Hok Hid Hev eq_refl Hmax). change (Decisions (sealed r)) with (Decisions r). rewrite Hdec.
  unfold sealed, with_rows. cbn. by rewrite <- Hid, <- Ht, <- Hc, <- Hsub, <- Hver', <- Hreg, <- Hpay, <- Hexp, <- Hreq.
Qed.

Definition saved (db db' : Database) (next : Request) : Prop :=
  row db' = sealed next /\ stored_step (row db) (row db') /\ restrictions db' = restrictions db /\
  audits db' = audits db ++ [appendRequestAudit next (latestEventType next)] /\
  exists e, Events next = take (length (Events (row db))) (Events next) ++ [e] /\ Events (row db') = Events (row db) ++ [digested (ID next) e] /\
    String.prefix "privacy.request." (EventType e) = true /\ OccurredAt e = UpdatedAt next.

Lemma Save_step i db r next c res db' : row_ok i (row db) -> held i (row db) r -> request_step r next ->
  SavePrivacyRequest db next (Version r) c = (res, db') ->
  (db' = db /\ is_ok res = false) \/ (saved db db' next /\ row_ok i (row db') /\ workflow i next).
Proof.
  intros Hok [Hsteps Hw] Hs Hsave. unfold SavePrivacyRequest, transact in Hsave.
  match type of Hsave with match ?b with _ => _ end = _ => destruct b as [[[] v]|e] eqn:Hbody end; [|injection Hsave as <- <-; by left].
  destruct (stored_steps_version _ _ Hsteps) as [_ Hsame]. go_inv Hbody. bprop. cbn [sealed with_rows Version] in Hsame.
  assert (Hrow : sealed r = row db) by (apply Hsame; lia). pose proof Hok as (_ & Hseal & Hcount & Hmax).
  assert (Hval : 1 <= Version next) by (match goal with Hv : Validate next = true |- _ => unfold Validate in Hv; bprop; lia end).
  destruct (step_new_version r next Hs ltac:(lia) Hval ltac:(lia)) as (to & reason & ad & dt & ty & now & Hcomp & Hty & Hsucc & Hle).
  assert (Hbound : llen (Events r) + 1 <= max_int64) by (rewrite <- Hrow in Hcount, Hmax; unfold llen in *; rewrite sealed_events, length_map in Hcount; lia).
  rewrite <- Hrow in Hsave, Hok. rewrite (updated_sealed i r next _ _ _ _ _ _ Hok Hcomp Hbound) in Hsave.
  assert (Hnext : workflow i next) by (eapply step_workflow; [exact Hw | exact Hs]).
  destruct (completes_frame _ _ _ _ _ _ _ Hcomp) as (Hid & _ & Hup & _ & Hev). cbn in Hev, Hup. destruct Hid as (Hid & _). cbn in Hid.
  assert (Hgoal : forall db'', db'' = mk_database (sealed next) (restrictions db) (audits db ++ [appendRequestAudit next (latestEventType next)]) ->
    saved db db'' next /\ row_ok i (row db'') /\ workflow i next).
  { intros db'' ->. split; [|split; [|done]].
    - unfold saved. rewrite <- Hrow. split; [done|]. split; [by exists r, next|]. split; [done|]. split; [done|]. cbn [row]. rewrite !sealed_events, Hev.
      eexists. split_and!; [by rewrite length_map, take_app_length | by rewrite map_app, Hid | done | done].
    - split; [by apply workflow_sealed|]. split; [unfold sealed, with_rows; cbn; f_equal; rewrite map_map; by apply map_ext|].
      cbn [row]. rewrite sealed_events, Hev. change (Version (sealed next)) with (Version next). rewrite <- Hrow in Hcount. rewrite sealed_events in Hcount.
      change (Version (sealed r)) with (Version r) in Hcount. unfold llen in *. rewrite length_map, length_app in *. cbn [length]. lia. }
  destruct c; cbn in Hsave; [| injection Hsave as <- <-; by left |]; injection Hsave as <- <-; right; by apply Hgoal.
Qed.

(** *** One step of a worker *)

(** What a step does to the database. *)
Inductive change (db db' : Database) : Prop :=
| unchanged : db' = db -> change db db'
| request_saved next : saved db db' next -> change db db'
| restriction_created r :
    row db' = row db -> restrictions db' = restrictions db ++ [r] -> restriction_valid r = true -> RState r = RestrictionActive ->
    audits db' = audits db ++ [appendRestrictionAudit r "privacy.restriction.created"] -> change db db'
| restriction_lifted r expected :
    row db' = row db -> restrictions db' = map (lift_row r expected) (restrictions db) -> RState r = RestrictionLifted ->
    audits db' = audits db ++ [appendRestrictionAudit r "privacy.restriction.lifted"] -> change db db'.

Definition local_ok (i s : Request) (l : Local) : Prop :=
  match l with Loaded _ r | Reviewed _ r | Executing _ r | Effected _ r _ => held i s r | _ => True end.

Lemma same_version r next : request_step r next -> Version next = Version r -> next = r.
Proof.
  intros Hs Hv. destruct (step_cases targetReferenceDigest r next Hs) as [->|(to & reason & ad & dt & ty & now & Hcomp & _)]; [done|].
  destruct (completes_frame _ _ _ _ _ _ _ Hcomp) as (_ & _ & _ & Hver & _). cbn in Hver. rewrite Hver in Hv. exfalso. revert Hv. unfold wrap_int64.
  pose proof (Z_div_mod_eq_full (Version r + 1 + 2 ^ 63) (2 ^ 64)). lia.
Qed.

Lemma Save_ok i db r next c res db' : row_ok i (row db) -> held i (row db) r -> request_step r next ->
  SavePrivacyRequest db next (Version r) c = (res, db') ->
  change db db' /\ row_ok i (row db') /\ (is_ok res = true -> held i (row db') next).
Proof.
  intros Hok Hheld Hs Hsave. destruct (Save_step i db r next c res db' Hok Hheld Hs Hsave) as [[-> Hres]|(Hsaved & Hok' & Hw)].
  - split; [by apply unchanged|]. split; [done|]. by rewrite Hres.
  - split; [by eapply request_saved|]. split; [done|]. intros _. destruct Hsaved as (Hrow & _). split; [by rewrite Hrow | done].
Qed.

Lemma save_then_ok i db r next inp k l' db' : row_ok i (row db) -> held i (row db) r -> request_step r next ->
  (forall s, held i s next -> local_ok i s k) ->
  save_then sha256_hex format_rfc3339_nano db r next inp k = (l', db') ->
  change db db' /\ row_ok i (row db') /\ local_ok i (row db') l'.
Proof.
  intros Hok Hheld Hs Hk Hsave. unfold save_then in Hsave. destruct (Version next =? Version r) eqn:Hv.
  - injection Hsave as <- <-. apply Z.eqb_eq in Hv. apply same_version in Hv as ->; [|done]. split; [by apply unchanged|]. split; [done|]. by apply Hk.
  - destruct (SavePrivacyRequest db next (Version r) (commit inp)) as [res db1] eqn:Hsv.
    destruct (Save_ok _ _ _ _ _ _ _ Hok Hheld Hs Hsv) as (Hc & Hok' & Hh). destruct res; injection Hsave as <- <-; split_and!; try done. by apply Hk, Hh.
Qed.

Lemma unchanged_ok i db l : row_ok i (row db) -> local_ok i (row db) l -> change db db /\ row_ok i (row db) /\ local_ok i (row db) l.
Proof. intros ? ?. split; [by apply unchanged | done]. Qed.

(** An operation whose result is saved and returned. *)
Lemma operation_ok i db r inp l' db' (result : result Error Request) k : row_ok i (row db) -> held i (row db) r ->
  (forall next, result = Ok next -> request_step r next) -> (forall s next, held i s next -> local_ok i s (k next)) ->
  match result with Err e => (Returned (Err e), db) | Ok next => save_then sha256_hex format_rfc3339_nano db r next inp (k next) end = (l', db') ->
  change db db' /\ row_ok i (row db') /\ local_ok i (row db') l'.
Proof.
  intros Hok Hheld Hs Hk Hm. destruct result as [next|e].
  - eapply save_then_ok; [done | exact Hheld | by apply Hs | | exact Hm]. intros s. apply Hk.
  - injection Hm as <- <-. by apply unchanged_ok.
Qed.

Lemma decide_then_ok i db c outcome reason r inp l' db' : row_ok i (row db) -> held i (row db) r ->
  decide_then sha256_hex format_rfc3339_nano c outcome reason r inp db = (l', db') ->
  change db db' /\ row_ok i (row db') /\ local_ok i (row db') l'.
Proof.
  intros Hok Hheld Hd. unfold decide_then in Hd. destruct (fresh inp) as [decisionID|]; [|injection Hd as <- <-; by apply unchanged_ok].
  eapply (operation_ok i db r inp l' db' _ (fun next => Returned (Ok next))); [done | done | | done | exact Hd].
  intros next Hn. by eapply step_decide.
Qed.

Lemma on_loaded_ok i db c r inp l' db' : row_ok i (row db) -> held i (row db) r ->
  on_loaded sha256_hex format_rfc3339_nano c r inp db = (l', db') ->
  change db db' /\ row_ok i (row db') /\ local_ok i (row db') l'.
Proof.
  intros Hok Hheld Hl. unfold on_loaded in Hl.
  destruct (op c) as [|outcome reason expected|expected|expected|limit|reason expected].
  - eapply (operation_ok i db r inp l' db' _ (fun next => Returned (Ok next))); [done | done | | done | exact Hl]. intros next Hn. by eapply step_review.
  - unfold decide_call in Hl. destruct (Decided (State r) && _); [injection Hl as <- <-; by apply unchanged_ok|].
    destruct (rstate_is (State r) RequestStateInReview).
    { destruct (Version r =? expected); [by eapply decide_then_ok | injection Hl as <- <-; by apply unchanged_ok]. }
    destruct (rstate_is (State r) RequestStateRequested); [|injection Hl as <- <-; by apply unchanged_ok].
    destruct (_ || _); [|injection Hl as <- <-; by apply unchanged_ok].
    destruct (BeginReview r _ _) as [reviewed|e] eqn:Hrev; [|injection Hl as <- <-; by apply unchanged_ok].
    destruct (SavePrivacyRequest db reviewed (Version r) (commit inp)) as [res db1] eqn:Hsv.
    destruct (Save_ok _ _ _ _ _ _ _ Hok Hheld (step_review _ _ _ _ _ Hrev) Hsv) as (Hc & Hok' & Hh). destruct res; injection Hl as <- <-; split_and!; try done.
    by apply Hh.
  - unfold withdraw_call in Hl. destruct (rstate_is _ _); [injection Hl as <- <-; by apply unchanged_ok|].
    destruct (negb _); [injection Hl as <- <-; by apply unchanged_ok|].
    eapply (operation_ok i db r inp l' db' _ (fun next => Returned (Ok next))); [done | done | | done | exact Hl]. intros next Hn. by eapply step_withdraw.
  - unfold execute_call in Hl. destruct (rstate_is _ _); [injection Hl as <- <-; by apply unchanged_ok|].
    destruct (negb _); [injection Hl as <- <-; by apply unchanged_ok|].
    eapply (operation_ok i db r inp l' db' _ (fun next => Executing c next)); [done | done | | done | exact Hl]. intros next Hn. by eapply step_execute.
  - eapply (operation_ok i db r inp l' db' _ (fun next => Returned (Ok next))); [done | done | | done | exact Hl]. intros next Hn. by eapply step_expire.
  - injection Hl as <- <-. by apply unchanged_ok.
Qed.

Lemma settle_ok i db r effect inp l' db' : row_ok i (row db) -> held i (row db) r ->
  settle sha256_hex format_rfc3339_nano r effect inp db = (l', db') -> change db db' /\ row_ok i (row db') /\ local_ok i (row db') l'.
Proof.
  intros Hok Hheld Hs. unfold settle in Hs.
  destruct effect as [e|e]; cbn in Hs; match type of Hs with match ?x with _ => _ end = _ => destruct x as [next|err] eqn:Ho end;
    try (injection Hs as <- <-; by apply unchanged_ok).
  all: match type of Hs with match ?x with _ => _ end = _ => destruct x as [res db1] eqn:Hsv end.
  1: destruct (Save_ok _ _ _ _ _ _ _ Hok Hheld (step_complete _ _ _ _ _ _ _ Ho) Hsv) as (Hc & Hok' & _).
  2: destruct (Save_ok _ _ _ _ _ _ _ Hok Hheld (step_fail _ _ _ _ _ Ho) Hsv) as (Hc & Hok' & _).
  all: destruct res; injection Hs as <- <-; by split_and!.
Qed.

Lemma NewScoped_active scope identifier requestID subject purpose reason region startsAt r :
  NewScoped scope identifier requestID subject purpose reason region startsAt = Ok r ->
  r = mk_restriction identifier requestID subject purpose scope reason region RestrictionActive startsAt zero_time NoReason 1 /\ restriction_valid r = true.
Proof. unfold NewScoped. intros Hn. go_inv Hn. by bprop. Qed.

Lemma CreateRestriction_change db a r c res db' : RState r = RestrictionActive -> CreateRestriction db a r c = (res, db') ->
  change db db' /\ row db' = row db.
Proof.
  intros Hr Hc. unfold CreateRestriction, transact in Hc.
  match type of Hc with match ?b with _ => _ end = _ => destruct b as [[[] v]|e] eqn:Hb end; [|injection Hc as <- <-; split; [by apply unchanged | done]].
  go_inv Hb. bprop. destruct c; injection Hc as <- <-; (split; [|done]); [|by apply unchanged|]; by eapply restriction_created.
Qed.

Lemma SaveRestriction_change db r expected c res db' : RState r = RestrictionLifted -> SaveRestriction db r expected c = (res, db') ->
  change db db' /\ row db' = row db.
Proof.
  intros Hr Hc. unfold SaveRestriction, transact in Hc.
  match type of Hc with match ?b with _ => _ end = _ => destruct b as [[[] v]|e] eqn:Hb end; [|injection Hc as <- <-; split; [by apply unchanged | done]].
  go_inv Hb. destruct c; injection Hc as <- <-; (split; [|done]); [|by apply unchanged|]; by eapply restriction_lifted.
Qed.

Lemma executeEffect_change db c r inp res db' : executeEffect sha256_hex c r inp db = (res, db') -> change db db' /\ row db' = row db.
Proof.
  assert (Hsame : change db db /\ row db = row db) by (split; [by apply unchanged | done]).
  assert (Hrestrict : forall scope kind, restrict sha256_hex scope kind c r inp db = (res, db') -> change db db' /\ row db' = row db).
  { intros scope kind. unfold restrict. destruct (prepare scope r inp) as [x|e] eqn:Hp; [|by intros [= <- <-]].
    destruct (CreateRestriction db _ x _) as [res1 db1] eqn:Hc. intros Hr.
    assert (Hx : RState x = RestrictionActive).
    { unfold prepare in Hp. go_inv Hp. destruct (fresh inp); [|done]. apply NewScoped_active in Hp as [-> _]. done. }
    destruct (CreateRestriction_change _ _ _ _ _ _ Hx Hc). by destruct res1; injection Hr as <- <-. }
  unfold executeEffect. destruct (Type_ r); try (by apply Hrestrict); destruct (external inp); by intros [= <- <-].
Qed.

Lemma lift_call_change db reason expected r inp l' db' : lift_call reason expected r inp db = (l', db') ->
  change db db' /\ row db' = row db /\ exists x, l' = ReturnedRestriction x.
Proof.
  intros Hl. assert (Hsame : change db db /\ row db = row db) by (split; [by apply unchanged | done]).
  unfold lift_call in Hl. destruct (lifted r) eqn:Hlift; [injection Hl as <- <-; split_and!; [apply Hsame.. | by eexists]|].
  destruct (negb _); [injection Hl as <- <-; split_and!; [apply Hsame.. | by eexists]|].
  destruct (Lift r reason (now inp)) as [next|e] eqn:Hn; [|injection Hl as <- <-; split_and!; [apply Hsame.. | by eexists]].
  assert (Hnext : RState next = RestrictionLifted) by (unfold Lift in Hn; go_inv Hn; rewrite Hlift in Hn; by injection Hn as <-).
  destruct (_ =? _); [injection Hl as <- <-; split_and!; [apply Hsame.. | by eexists]|].
  destruct (SaveRestriction db next _ _) as [res db1] eqn:Hs. destruct (SaveRestriction_change _ _ _ _ _ _ Hnext Hs).
  destruct res; injection Hl as <- <-; split_and!; try done; by eexists.
Qed.

Lemma find_call_ok i c db : row_ok i (row db) -> local_ok i (row db) (find_call c db).
Proof.
  intros Hok. unfold find_call. destruct (is_lift (op c)); [by destruct (FindRestriction _ _)|].
  destruct (FindPrivacyRequest _ _) as [r|e] eqn:Hf; [|done]. apply (Find_row i) in Hf as ->; [|done].
  destruct Hok as (Hw & Hseal & _). split; [by rewrite Hseal | done].
Qed.

Lemma work_ok i db l inp l' db' : row_ok i (row db) -> local_ok i (row db) l ->
  work sha256_hex format_rfc3339_nano l inp db = (l', db') -> change db db' /\ row_ok i (row db') /\ local_ok i (row db') l'.
Proof.
  intros Hok Hl Hw. unfold work in Hw. destruct (crash inp); [injection Hw as <- <-; by apply unchanged_ok|].
  destruct l as [|c|c r|c r|c r|c r effect|c r|r|r]; cbn [local_ok] in Hl.
  - destruct (negb _); [injection Hw as <- <-; apply unchanged_ok; [done|]; unfold refuse; by destruct (is_lift _)|].
    assert (Hfind : (find_call (call inp) db, db) = (l', db') -> change db db' /\ row_ok i (row db') /\ local_ok i (row db') l')
      by (intros [= <- <-]; apply unchanged_ok; [done | by apply find_call_ok]).
    destruct (op (call inp)); try (by apply Hfind). destruct (due db (now inp)); injection Hw as <- <-; by apply unchanged_ok.
  - injection Hw as <- <-. apply unchanged_ok; [done | by apply find_call_ok].
  - by eapply on_loaded_ok.
  - destruct (op c); try (injection Hw as <- <-; by apply unchanged_ok). by eapply decide_then_ok.
  - destruct (executeEffect _ c r inp db) as [effect db1] eqn:He. injection Hw as <- <-.
    destruct (executeEffect_change _ _ _ _ _ _ He) as [Hc Hrow]. cbn [local_ok]. by rewrite Hrow.
  - by eapply settle_ok.
  - destruct (op c); try (injection Hw as <- <-; by apply unchanged_ok).
    destruct (lift_call_change _ _ _ _ _ _ _ Hw) as (Hc & Hrow & x & ->). by rewrite Hrow.
  - injection Hw as <- <-. by apply unchanged_ok.
  - injection Hw as <- <-. by apply unchanged_ok.
Qed.

(** *** Worlds *)

Definition event_audit (identifier : string) (k : nat) (e : Event) : AuditEvent :=
  mk_audit (EventType e) identifier (Z.of_nat k + 2) (utc (OccurredAt e)).
Definition is_request_audit (a : AuditEvent) : bool := String.prefix "privacy.request." (AuditType a).

(** The audit events of the request are its creation and its events, in order. *)
Definition audited (db : Database) : Prop :=
  List.filter is_request_audit (audits db) =
  mk_audit "privacy.request.requested" (ID (row db)) 1 (utc (RequestedAt (row db))) :: imap (event_audit (ID (row db))) (Events (row db)).

Lemma change_row i db db' : change db db' -> row_ok i (row db) -> row db' = row db \/ stored_step (row db) (row db').
Proof. intros [->|next (_ & Hs & _)|r Hr _ _ _ _|r e Hr _ _ _] _; auto. Qed.

Lemma saved_identity i db db' next : saved db db' next -> row_ok i (row db) -> row_ok i (row db') ->
  ID (row db') = ID (row db) /\ RequestedAt (row db') = RequestedAt (row db).
Proof.
  intros _ ([Hi _ _ _ _ _ _ _] & _) ([Hi' _ _ _ _ _ _ _] & _). destruct Hi as (-> & _ & _ & _ & _ & _ & _ & _ & ->).
  destruct Hi' as (-> & _ & _ & _ & _ & _ & _ & _ & ->). done.
Qed.

Lemma change_audited i db db' : change db db' -> row_ok i (row db) -> row_ok i (row db') -> audited db -> audited db'.
Proof.
  intros Hc Hok Hok' Ha. unfold audited in *. destruct Hc as [->|next Hs|r Hr _ _ _ Hau|r e Hr _ _ Hau]; [done| | |].
  - destruct (saved_identity i _ _ _ Hs Hok Hok') as [Hid Hreq]. destruct Hs as (Hrow & _ & _ & Hau & e & He & Hev & Hty & Hat).
    rewrite Hau, List.filter_app, Ha, Hid, Hreq, Hev, imap_app. cbn [app]. f_equal. f_equal. cbn [List.filter].
    assert (Hlast : latestEventType next = EventType e) by (unfold latestEventType; rewrite He; by rewrite last_snoc).
    assert (Hcount : length (Events (row db')) = S (length (Events (row db)))) by (rewrite Hev, length_app; cbn; lia).
    change (is_request_audit (appendRequestAudit next (latestEventType next))) with (String.prefix "privacy.request." (latestEventType next)).
    rewrite Hlast, Hty. cbn [imap]. f_equal. unfold event_audit, appendRequestAudit. cbn. f_equal; [ | | by rewrite Hat].
    + assert (Hn : ID (row db') = ID next) by by rewrite Hrow. congruence.
    + destruct Hok' as (_ & _ & Hv & _). rewrite Hrow in Hv at 1. cbn in Hv. unfold llen in Hv. lia.
  - rewrite Hau, List.filter_app, Ha, Hr. cbn. by rewrite app_nil_r.
  - rewrite Hau, List.filter_app, Ha, Hr. cbn. by rewrite app_nil_r.
Qed.

Definition world_ok (i : Request) (w : World) : Prop :=
  row_ok i (row (database w)) /\ audited (database w) /\ Forall (local_ok i (row (database w))) (workers w).

Lemma local_ok_mono i s s' l : rtc stored_step s s' -> local_ok i s l -> local_ok i s' l.
Proof. intros Hs. destruct l; cbn; try done; intros Hh; by eapply held_mono. Qed.

Lemma request_world_step_ok i w w' : world_ok i w -> world_step sha256_hex format_rfc3339_nano w w' ->
  world_ok i w' /\ change (database w) (database w') /\
  (row (database w') = row (database w) \/ stored_step (row (database w)) (row (database w'))).
Proof.
  intros (Hok & Ha & Hall) [k l inp l' db' Hk Hw]. assert (Hl : local_ok i (row (database w)) l) by (rewrite Forall_forall in Hall; apply Hall; by eapply list_elem_of_lookup_2).
  destruct (work_ok _ _ _ _ _ _ Hok Hl Hw) as (Hc & Hok' & Hl'). pose proof (change_row _ _ _ Hc Hok) as Hrow. cbn [database workers].
  split; [split; [done | split] | done].
  - by eapply change_audited.
  - apply Forall_insert; [|done]. eapply Forall_impl; [exact Hall|]. intros x. apply local_ok_mono.
    cbn [database]. destruct Hrow as [->|Hs]; [done | by apply rtc_once].
Qed.

Lemma created_row config scoped a channel input clock clock_again fresh request db :
  create sha256_hex format_rfc3339_nano jsonb config scoped a channel input clock clock_again fresh = Ok (request, db) ->
  row_ok (row db) (row db) /\ audited db /\ restrictions db = [] /\ State (row db) = RequestStateRequested.
Proof.
  unfold create. intros Hc. go_inv Hc. destruct fresh as [identifier|]; [|done]. go_inv Hc. subst.
  match goal with Hn : NewPrivacyRequest _ _ _ _ _ _ _ _ _ = Ok _ |- _ => unfold NewPrivacyRequest in Hn; go_inv Hn end.
  match goal with Hn : CreatePrivacyRequest _ _ _ _ _ = Ok _ |- _ => unfold CreatePrivacyRequest in Hn; go_inv Hn end.
  cbn in *. destruct (jsonb _) as [payload|]; [|done].
  match goal with Hn : Ok _ = Ok _ |- _ => injection Hn as <- end. cbn. split; [|done]. split; [by split|]. done.
Qed.

Lemma start_ok db n : row_ok (row db) (row db) -> audited db -> world_ok (row db) (start_world db n).
Proof. intros Hok Ha. split; [done|]. split; [done|]. cbn. by induction n; constructor. Qed.

Lemma world_steps_ok i w w' : world_ok i w -> rtc (world_step sha256_hex format_rfc3339_nano) w w' ->
  world_ok i w' /\ rtc stored_step (row (database w)) (row (database w')).
Proof.
  intros Hw Hs. induction Hs as [|x y z Hxy _ IH]; [done|]. destruct (request_world_step_ok _ _ _ Hw Hxy) as (Hy & _ & Hrow).
  destruct (IH Hy) as [Hz Hsteps]. split; [done|]. destruct Hrow as [<-|Hrow]; [done | by eapply rtc_l].
Qed.

(** *** The effects *)

Definition scope_of (t : RequestType) : option RestrictionScope :=
  match t with RequestRestriction => Some RestrictionScopeSubject | RequestObjection => Some RestrictionScopePurpose | _ => None end.

Lemma restriction_bounds r : restriction_valid r = true ->
  token (RestrictedSubject r) 200 = true /\ (Scope r = RestrictionScopeSubject -> RestrictedPurpose r = ""%string).
Proof.
  unfold restriction_valid. intros Hv. apply andb_true_iff in Hv as [Hv _]. apply andb_true_iff in Hv as [Hv Hsub]. apply andb_true_iff in Hv as [Hv _].
  bprop. split; [done|]. intros Hs. unfold scope_is in *. rewrite Hs in Hsub. destruct Hsub as [Hsub|Hsub]; [by vm_compute in Hsub|].
  by apply negb_false_iff, String.eqb_eq in Hsub.
Qed.

(** A stored restriction carries out the instruction of the request. *)
Definition carries_out (i : Request) (scope : RestrictionScope) (reference : string) (x : Restriction) : Prop :=
  RestrictionID x = reference /\ RequestID x = ID i /\ RestrictedSubject x = SubjectID i /\ RestrictedRegion x = Region i /\ Scope x = scope /\
  (exists v, ValidatePayload (Type_ i) (Payload i) = Ok v /\ RestrictedPurpose x = Purpose v) /\ token (RestrictedSubject x) 200 = true /\
  (scope = RestrictionScopeSubject -> RestrictedPurpose x = ""%string).

Definition backed (i : Request) (db : Database) (reference : string) : Prop :=
  forall scope, scope_of (Type_ i) = Some scope -> Exists (carries_out i scope reference) (restrictions db).

Lemma lift_row_carries i scope reference r expected x : carries_out i scope reference x -> carries_out i scope reference (lift_row r expected x).
Proof. unfold lift_row. by destruct (liftable r expected x). Qed.

Lemma backed_mono i db db' reference : change db db' -> backed i db reference -> backed i db' reference.
Proof.
  intros Hc Hb scope Hs. specialize (Hb scope Hs). destruct Hc as [->|next (_ & _ & Hr & _)|r _ Hr _ _ _|r e _ Hr _ _]; [done | by rewrite Hr | |].
  - rewrite Hr. apply Exists_app. by left.
  - rewrite Hr. apply Exists_map. eapply Exists_impl; [exact Hb|]. intros x. apply lift_row_carries.
Qed.

Lemma effect_backed i db c r inp e db' : workflow i r ->
  executeEffect sha256_hex c r inp db = (Ok e, db') -> backed i db' (EReference e).
Proof.
  intros [Hi _ _ _ _ _ _ _] He scope Hs. destruct Hi as (Hid & Ht & Hch & Hsub & _ & Hreg & Hpay & _).
  assert (Hrestrict : forall kind, restrict sha256_hex scope kind c r inp db = (Ok e, db') ->
    Exists (carries_out i scope (EReference e)) (restrictions db')).
  { intros kind. unfold restrict, prepare. rewrite Ht, Hpay. destruct (ValidatePayload (Type_ i) (Payload i)) as [v|] eqn:Hv; [|done]. cbn [rbind].
    destruct (fresh inp) as [identifier|]; [|done]. destruct (NewScoped _ _ _ _ _ _ _ _) as [x|] eqn:Hn; [|done].
    destruct (CreateRestriction db _ x _) as [[[]|] db1] eqn:Hc; [|done]. intros [= <- <-]. cbn [EReference].
    apply NewScoped_active in Hn as [-> Hvalid]. unfold CreateRestriction, transact in Hc.
    match type of Hc with match ?b with _ => _ end = _ => destruct b as [[[] z]|] eqn:Hb end; [|done]. go_inv Hb.
    destruct (commit inp); [injection Hc as <- | done | done]. cbn [restrictions]. apply Exists_app. right. constructor. apply restriction_bounds in Hvalid as [Htok Hpur].
    unfold carries_out. cbn in *. rewrite <- Hid, <- Hsub, <- Hreg. split_and!; try done. by exists v. }
  unfold executeEffect in He. rewrite Ht in He. unfold scope_of in Hs. destruct (Type_ i); try done; injection Hs as <-; by eapply Hrestrict.
Qed.

(** Only the settlement of an effect completes a request. *)
Definition calm (r next : Request) : Prop := next = r \/ State next <> RequestStateCompleted.
Definition not_effected (l : Local) : Prop := match l with Effected _ _ _ => False | _ => True end.
Definition kept_open (db db' : Database) : Prop := row db' = row db \/ State (row db') <> RequestStateCompleted.

Lemma transition_state r to reason ad dt ty now next : transition r to reason ad dt ty now = Ok next -> State next = to.
Proof. intros Ht. by apply transition_Ok in Ht as (_ & _ & _ & ->). Qed.

Lemma operations_calm r next :
  (exists a now, BeginReview r a now = Ok next) \/ (exists a now, BeginExecution r a now = Ok next) \/
  (exists a now, Withdraw r a now = Ok next) \/ (exists now, Expire r now = Ok next) \/
  (exists identifier outcome reason a now, Decide targetReferenceDigest r identifier outcome reason a now = Ok next) -> calm r next.
Proof.
  assert (Hopen : forall s reason ad dt ty now, s <> RequestStateCompleted -> transition r s reason ad dt ty now = Ok next -> calm r next)
    by (intros s reason ad dt ty now Hs Ht; right; by rewrite (transition_state _ _ _ _ _ _ _ _ Ht)).
  intros [(a & now & Ho)|[(a & now & Ho)|[(a & now & Ho)|[(now & Ho)|(identifier & outcome & reason & a & now & Ho)]]]].
  1-4: unfold BeginReview, BeginExecution, Withdraw, Expire in Ho; go_inv Ho; destruct (rstate_is _ _); [injection Ho as <-; by left|];
    go_inv Ho; by eapply Hopen; [|exact Ho].
  unfold Decide in Ho. go_inv Ho. destruct (Decided (State r)).
  - unfold replay_decision in Ho. destruct (last _) as [d|]; [|done]. destruct (_ && _); [|done]. injection Ho as <-. by left.
  - go_inv Ho. right. cbn. rewrite (transition_state _ _ _ _ _ _ _ _ Hv). by destruct outcome.
Qed.

Lemma Save_calm i db r next c res db' : row_ok i (row db) -> held i (row db) r -> request_step r next -> calm r next ->
  Version next <> Version r -> SavePrivacyRequest db next (Version r) c = (res, db') -> kept_open db db'.
Proof.
  intros Hok Hheld Hs [->|Hopen] Hv Hsave; [done|].
  destruct (Save_step i db r next c res db' Hok Hheld Hs Hsave) as [[-> _]|((Hrow & _) & _ & _)]; [by left | right; by rewrite Hrow].
Qed.

Lemma operation_calm i db r inp l' db' (result : result Error Request) k : row_ok i (row db) -> held i (row db) r ->
  (forall next, result = Ok next -> request_step r next /\ calm r next) -> (forall next, not_effected (k next)) ->
  match result with Err e => (Returned (Err e), db) | Ok next => save_then sha256_hex format_rfc3339_nano db r next inp (k next) end = (l', db') ->
  kept_open db db' /\ not_effected l'.
Proof.
  intros Hok Hheld Hs Hk Hm. destruct result as [next|e]; [|injection Hm as <- <-; split; [by left | done]].
  destruct (Hs next eq_refl) as [Hstep Hcalm]. unfold save_then in Hm. destruct (Version next =? Version r) eqn:Hv.
  - injection Hm as <- <-. split; [by left | apply Hk].
  - apply Z.eqb_neq in Hv. destruct (SavePrivacyRequest db next (Version r) (commit inp)) as [res db1] eqn:Hsv.
    pose proof (Save_calm _ _ _ _ _ _ _ Hok Hheld Hstep Hcalm Hv Hsv). destruct res; injection Hm as <- <-; by split.
Qed.

Lemma decide_then_calm i db c outcome reason r inp l' db' : row_ok i (row db) -> held i (row db) r ->
  decide_then sha256_hex format_rfc3339_nano c outcome reason r inp db = (l', db') -> kept_open db db' /\ not_effected l'.
Proof.
  intros Hok Hheld Hd. unfold decide_then in Hd. destruct (fresh inp) as [decisionID|]; [|injection Hd as <- <-; split; [by left | done]].
  eapply (operation_calm i db r inp l' db' _ (fun next => Returned (Ok next))); [done | done | | done | exact Hd].
  intros next Hn. split; [by eapply step_decide|]. apply operations_calm. do 4 right. by do 5 eexists.
Qed.

Lemma on_loaded_calm i db c r inp l' db' : row_ok i (row db) -> held i (row db) r ->
  on_loaded sha256_hex format_rfc3339_nano c r inp db = (l', db') -> kept_open db db' /\ not_effected l'.
Proof.
  intros Hok Hheld Hl. unfold on_loaded in Hl. assert (Hsame : kept_open db db) by (by left).
  destruct (op c) as [|outcome reason expected|expected|expected|limit|reason expected].
  - eapply (operation_calm i db r inp l' db' _ (fun next => Returned (Ok next))); [done | done | | done | exact Hl].
    intros next Hn. split; [by eapply step_review|]. apply operations_calm. left. by do 2 eexists.
  - unfold decide_call in Hl. destruct (Decided (State r) && _); [by injection Hl as <- <-|].
    destruct (rstate_is (State r) RequestStateInReview).
    { destruct (Version r =? expected); [by eapply decide_then_calm | by injection Hl as <- <-]. }
    destruct (rstate_is (State r) RequestStateRequested); [|by injection Hl as <- <-].
    destruct (_ || _); [|by injection Hl as <- <-]. destruct (BeginReview r _ _) as [reviewed|e] eqn:Hrev; [|by injection Hl as <- <-].
    destruct (SavePrivacyRequest db reviewed (Version r) (commit inp)) as [res db1] eqn:Hsv.
    assert (Hcalm : calm r reviewed) by (apply operations_calm; left; by do 2 eexists).
    assert (Hk : kept_open db db1).
    { destruct (decide (Version reviewed = Version r)) as [He|He]; [|by eapply Save_calm; [..|exact Hsv]; try done; eapply step_review].
      destruct (Save_step i db r reviewed _ _ _ Hok Hheld (step_review _ _ _ _ _ Hrev) Hsv) as [[-> _]|((_ & Hst & _) & _ & _)]; [by left|].
      left. apply same_version in He as ->; [|by eapply step_review]. apply stored_step_version in Hst as Hver.
      destruct (Save_step i db r r _ _ _ Hok Hheld (step_review _ _ _ _ _ Hrev) Hsv) as [[-> _]|((Hrow & _) & _ & _)]; [done|].
      destruct Hheld as [Hh _]. apply stored_steps_version in Hh as [Hh _]. rewrite Hrow in Hver. cbn in Hver, Hh. lia. }
    destruct res; injection Hl as <- <-; by split.
  - unfold withdraw_call in Hl. destruct (rstate_is _ _); [by injection Hl as <- <-|]. destruct (negb _); [by injection Hl as <- <-|].
    eapply (operation_calm i db r inp l' db' _ (fun next => Returned (Ok next))); [done | done | | done | exact Hl].
    intros next Hn. split; [by eapply step_withdraw|]. apply operations_calm. right; right; left. by do 2 eexists.
  - unfold execute_call in Hl. destruct (rstate_is _ _); [by injection Hl as <- <-|]. destruct (negb _); [by injection Hl as <- <-|].
    eapply (operation_calm i db r inp l' db' _ (fun next => Executing c next)); [done | done | | done | exact Hl].
    intros next Hn. split; [by eapply step_execute|]. apply operations_calm. right; left. by do 2 eexists.
  - eapply (operation_calm i db r inp l' db' _ (fun next => Returned (Ok next))); [done | done | | done | exact Hl].
    intros next Hn. split; [by eapply step_expire|]. apply operations_calm. right; right; right; left. by eexists.
  - by injection Hl as <- <-.
Qed.

(** A settlement completes the request with the reference of its effect. *)
Lemma settle_completes i db r effect inp l' db' : row_ok i (row db) -> held i (row db) r ->
  settle sha256_hex format_rfc3339_nano r effect inp db = (l', db') ->
  (kept_open db db' \/ exists e, effect = Ok e /\ EffectRef (row db') = EReference e) /\ not_effected l'.
Proof.
  intros Hok Hheld Hs. unfold settle in Hs. assert (Hsame : kept_open db db) by (by left).
  destruct effect as [e|e]; cbn in Hs; match type of Hs with match ?x with _ => _ end = _ => destruct x as [next|err] eqn:Ho end;
    try (injection Hs as <- <-; split; [by left | done]).
  all: match type of Hs with match ?x with _ => _ end = _ => destruct x as [res db1] eqn:Hsv end.
  - assert (Hl : not_effected l' /\ db' = db1) by (destruct res; by injection Hs as <- <-). destruct Hl as [Hl ->]. split; [|done].
    destruct (Save_step i db r next _ _ _ Hok Hheld (step_complete _ _ _ _ _ _ _ Ho) Hsv) as [[-> _]|((Hrow & _) & _ & _)]; [by left; left|].
    right. exists e. split; [done|]. rewrite Hrow. unfold Complete in Ho. go_inv Ho. done.
  - assert (Hl : not_effected l' /\ db' = db1) by (destruct res; by injection Hs as <- <-). destruct Hl as [Hl ->]. split; [|done]. left.
    destruct (Save_step i db r next _ _ _ Hok Hheld (step_fail _ _ _ _ _ Ho) Hsv) as [[-> _]|((Hrow & _) & _ & _)]; [done|].
    right. rewrite Hrow. unfold Fail_ in Ho. go_inv Ho. cbn. by rewrite (transition_state _ _ _ _ _ _ _ _ Hv).
Qed.

(** The effects of completed and settling requests are stored. *)
Definition backed_local (i : Request) (db : Database) (l : Local) : Prop :=
  match l with Effected _ _ (Ok e) => backed i db (EReference e) | _ => True end.
Definition backed_ok (i : Request) (w : World) : Prop :=
  (State (row (database w)) = RequestStateCompleted -> backed i (database w) (EffectRef (row (database w)))) /\
  Forall (backed_local i (database w)) (workers w).

Lemma backed_local_mono i db db' l : change db db' -> backed_local i db l -> backed_local i db' l.
Proof. intros Hc. destruct l as [| | | | |c r [e|e]| | |]; cbn; try done. by apply backed_mono. Qed.

Lemma work_backed i db l inp l' db' : row_ok i (row db) -> local_ok i (row db) l -> backed_local i db l ->
  work sha256_hex format_rfc3339_nano l inp db = (l', db') ->
  (kept_open db db' \/ backed i db' (EffectRef (row db'))) /\ backed_local i db' l'.
Proof.
  intros Hok Hl Hb Hw. assert (Hsame : kept_open db db) by (by left). destruct (work_ok _ _ _ _ _ _ Hok Hl Hw) as (Hchange & _).
  unfold work in Hw. destruct (crash inp); [injection Hw as <- <-; split; [by left | done]|].
  assert (Hfind : forall c, backed_local i db (find_call c db)) by (intros c; unfold find_call; by destruct (is_lift _); [destruct (FindRestriction _ _) | destruct (FindPrivacyRequest _ _)]).
  assert (Hcalm : kept_open db db' /\ not_effected l' -> (kept_open db db' \/ backed i db' (EffectRef (row db'))) /\ backed_local i db' l')
    by (intros [? Hn]; split; [by left | by destruct l']).
  destruct l as [|c|c r|c r|c r|c r effect|c r|r|r]; cbn [local_ok] in Hl.
  - destruct (negb _); [injection Hw as <- <-; split; [by left|]; unfold refuse; by destruct (is_lift _)|].
    destruct (op (call inp)); try (injection Hw as <- <-; by split; [left|]).
    destruct (due db (now inp)); injection Hw as <- <-; by split; [left|].
  - injection Hw as <- <-. by split; [left|].
  - apply Hcalm. by eapply on_loaded_calm.
  - destruct (op c); try (injection Hw as <- <-; by split; [left|]). apply Hcalm. by eapply decide_then_calm.
  - destruct (executeEffect _ c r inp db) as [effect db1] eqn:He. injection Hw as <- <-.
    destruct (executeEffect_change _ _ _ _ _ _ He) as [_ Hrow]. split; [by left; left|]. destruct effect as [e|e]; [|done].
    eapply effect_backed; [apply Hl | exact He].
  - destruct (settle_completes _ _ _ _ _ _ _ Hok Hl Hw) as [[Hk|(e & -> & Hr)] Hn]; [by apply Hcalm|]. split; [right | by destruct l'].
    rewrite Hr. by eapply backed_mono.
  - destruct (op c); try (injection Hw as <- <-; by split; [left|]).
    destruct (lift_call_change _ _ _ _ _ _ _ Hw) as (_ & Hrow & x & ->). by split; [left; left|].
  - injection Hw as <- <-. by split; [left|].
  - injection Hw as <- <-. by split; [left|].
Qed.

Lemma world_step_backed i w w' : world_ok i w -> backed_ok i w -> world_step sha256_hex format_rfc3339_nano w w' -> backed_ok i w'.
Proof.
  intros (Hok & _ & Hall) [Hdone Hbs] [k l inp l' db' Hk Hw]. rewrite Forall_forall in Hall.
  assert (Hl : local_ok i (row (database w)) l) by (apply Hall; by eapply list_elem_of_lookup_2).
  assert (Hb : backed_local i (database w) l) by (rewrite Forall_forall in Hbs; apply Hbs; by eapply list_elem_of_lookup_2).
  destruct (work_ok _ _ _ _ _ _ Hok Hl Hw) as (Hchange & _). destruct (work_backed _ _ _ _ _ _ Hok Hl Hb Hw) as [Hrow Hl'].
  split; cbn [database workers].
  - intros Hs. destruct Hrow as [[Hrow|Hopen]|Hrow]; [|done|done]. rewrite Hrow in *. by eapply backed_mono; [|apply Hdone].
  - apply Forall_insert; [|done]. eapply Forall_impl; [exact Hbs|]. intros x. by apply backed_local_mono.
Qed.

Lemma world_steps_backed i w w' : world_ok i w -> backed_ok i w -> rtc (world_step sha256_hex format_rfc3339_nano) w w' -> backed_ok i w'.
Proof.
  intros Hw Hb Hs. induction Hs as [|x y z Hxy _ IH]; [done|]. apply IH; [by eapply request_world_step_ok | by eapply world_step_backed].
Qed.

Lemma start_backed i db n : State (row db) = RequestStateRequested -> backed_ok i (start_world db n).
Proof. intros Hs. split; cbn; [by rewrite Hs | by induction n; constructor]. Qed.
End Invariants.
End ServiceInvariant.

(** ** The theorems *)
Module ServiceSpec.
Import RequestInvariant ServiceInvariant.
Section Theorems.
Context `{Ulid} `{PayloadJson} (sha256_hex : string -> string) (format_rfc3339_nano : Time -> string) (jsonb : string -> option string).

Notation create := (create sha256_hex format_rfc3339_nano jsonb).
Notation world_step := (world_step sha256_hex format_rfc3339_nano).
Notation stored_step := (stored_step sha256_hex format_rfc3339_nano).

(** C32: the store follows the workflow.  Whatever any number of workers do to a
    created request, in any interleaving, with crashes, refused, unseen and
    repeated transactions, every step leaves the row as it is or makes it the next
    version by one operation of the workflow, so that the row is always reached by
    such operations, has everything a request of the workflow has, its version
    counts its events without overflow, and the audit events of the request are its
    creation and its events, each once, in order and under its version. *)
Theorem privacy_rows_follow_workflow (config : RequestConfig) (scoped : bool) (a : string) (channel : Channel) (input : CreateRequestInput)
    (clock clock_again : Time) (fresh : option string) (request : Request) (db : Database) (n : nat) (w : World)
    (Hc : create config scoped a channel input clock clock_again fresh = Ok (request, db))
    (Hw : rtc world_step (start_world db n) w) :
  rtc stored_step (row db) (row (database w)) /\ workflow (row db) (row (database w)) /\
  Version (row (database w)) = llen (Events (row (database w))) + 1 /\ Version (row (database w)) <= max_int64 /\ audited (database w) /\
  (forall w', world_step w w' -> row (database w') = row (database w) \/ stored_step (row (database w)) (row (database w'))).
Proof.
  destruct (created_row _ _ _ _ _ _ _ _ _ _ _ _ _ Hc) as (Hok & Ha & _).
  destruct (world_steps_ok sha256_hex format_rfc3339_nano _ _ _ (start_ok _ _ _ n Hok Ha) Hw) as [Hw' Hsteps]. split; [done|].
  pose proof Hw' as ((Hwf & _ & Hv & Hm) & Ha' & _). split; [done|]. split; [done|]. split; [done|]. split; [done|]. intros w' Hs. by eapply request_world_step_ok.
Qed.

(** C33: a completed restriction or objection is in the store.  Once the request is
    completed, the restriction its effect names is stored for it, for its subject,
    region and the purpose of its instruction. *)
Theorem completed_request_has_effect (config : RequestConfig) (scoped : bool) (a : string) (channel : Channel) (input : CreateRequestInput)
    (clock clock_again : Time) (fresh : option string) (request : Request) (db : Database) (n : nat) (w : World) (scope : RestrictionScope)
    (Hc : create config scoped a channel input clock clock_again fresh = Ok (request, db))
    (Hw : rtc world_step (start_world db n) w)
    (Hscope : scope_of (Type_ (row db)) = Some scope) (Hdone : State (row (database w)) = RequestStateCompleted) :
  exists x v, x ∈ restrictions (database w) /\ RestrictionID x = EffectRef (row (database w)) /\ RequestID x = ID (row db) /\
    RestrictedSubject x = SubjectID (row db) /\ RestrictedRegion x = Region (row db) /\ Scope x = scope /\
    ValidatePayload (Type_ (row db)) (Payload (row db)) = Ok v /\ RestrictedPurpose x = Purpose v.
Proof.
  destruct (created_row _ _ _ _ _ _ _ _ _ _ _ _ _ Hc) as (Hok & Ha & _ & Hs). pose proof (start_ok _ _ _ n Hok Ha) as Hstart.
  assert (Hb : backed_ok (row db) (start_world db n)) by (by apply start_backed).
  destruct (world_steps_backed sha256_hex format_rfc3339_nano _ _ _ Hstart Hb Hw) as [Hbacked _].
  specialize (Hbacked Hdone scope Hscope). apply Exists_exists in Hbacked as (x & Hx & Hid & Hreq & Hsub & Hreg & Hsc & (v & Hv & Hp) & _).
  by exists x, v.
Qed.

(** A restriction request that names a purpose and an objection without a
    subject never complete, whoever reviews, approves and executes them, although
    both are accepted. *)
Theorem unexecutable_request_never_completes (config : RequestConfig) (scoped : bool) (a : string) (channel : Channel)
    (input : CreateRequestInput) (clock clock_again : Time) (fresh : option string) (request : Request) (db : Database) (n : nat) (w : World)
    (v : RequestPayload)
    (Hc : create config scoped a channel input clock clock_again fresh = Ok (request, db))
    (Hv : ValidatePayload (Type_ (row db)) (Payload (row db)) = Ok v)
    (Hbad : (Type_ (row db) = RequestRestriction /\ Purpose v <> ""%string) \/ (Type_ (row db) = RequestObjection /\ SubjectID (row db) = ""%string))
    (Hw : rtc world_step (start_world db n) w) :
  State (row (database w)) <> RequestStateCompleted.
Proof.
  intros Hdone. destruct (created_row _ _ _ _ _ _ _ _ _ _ _ _ _ Hc) as (Hok & Ha & _ & Hs). pose proof (start_ok _ _ _ n Hok Ha) as Hstart.
  assert (Hb : backed_ok (row db) (start_world db n)) by (by apply start_backed).
  destruct (world_steps_backed sha256_hex format_rfc3339_nano _ _ _ Hstart Hb Hw) as [Hbacked _]. specialize (Hbacked Hdone).
  destruct Hbad as [[Ht Hp]|[Ht Hsub]]; unfold backed, scope_of in Hbacked; rewrite Ht in Hbacked.
  - specialize (Hbacked _ eq_refl). apply Exists_exists in Hbacked as (x & _ & _ & _ & _ & _ & _ & (v' & Hv' & Hpx) & _ & Hnone).
    rewrite Hv in Hv'. injection Hv' as <-. rewrite Hnone in Hpx by done. by rewrite <- Hpx in Hp.
  - specialize (Hbacked _ eq_refl). apply Exists_exists in Hbacked as (x & _ & _ & _ & Hx & _ & _ & _ & Htok & _). by rewrite Hx, Hsub in Htok.
Qed.

(** One worker on its own. *)
Fixpoint drive (l : Local) (inputs : list Input) (db : Database) : Local * Database :=
  match inputs with
  | [] => (l, db)
  | i :: rest => let '(l', db') := work sha256_hex format_rfc3339_nano l i db in drive l' rest db'
  end.

(** An execution that dies before it records what its effect did. *)
Definition attempt (c : Call) (t : Time) (identifier : string) : list Input :=
  let tick (crash : bool) := mk_input crash c t (Some identifier) None Committed in [tick false; tick false; tick false; tick true].

Definition new_restriction (r : Request) (t : Time) (identifier : string) : Restriction :=
  mk_restriction identifier (ID r) (SubjectID r) "" RestrictionScopeSubject
    (if bool_decide (Channel_ r = ChannelSubjectOutcome) then RestrictionRequestedBySubject else RestrictionAccuracyDispute)
    (Region r) RestrictionActive (utc t) zero_time NoReason 1.

(** The state of an interrupted execution of a restriction request without a
    purpose. *)
Definition interrupted (db : Database) (c : Call) (r : Request) : Prop :=
  FindPrivacyRequest db (identifier c) = Ok r /\ op c = OpExecute (Version r) /\ admitted c = true /\ Type_ r = RequestRestriction /\
  State r = RequestStateExecuting /\ SubjectID r <> ""%string /\
  exists v, ValidatePayload (Type_ r) (Payload r) = Ok v /\ Purpose v = ""%string.

Lemma new_restriction_valid r t identifier : Validate r = true -> SubjectID r <> ""%string -> identifier <> ""%string -> is_zero t = false ->
  restriction_valid (new_restriction r t identifier) = true.
Proof.
  intros Hv Hs Hi Ht. unfold Validate, empty_string in Hv. bprop. unfold restriction_valid, new_restriction, empty_string in *. cbn in *.
  assert (Hsub : token (SubjectID r) 200 = true).
  { match goal with Hx : (negb (SubjectID r =? "")%string && _)%bool = false |- _ => apply andb_false_iff in Hx as [Hx|Hx]; bprop; done
    | Hx : _ \/ negb (token (SubjectID r) 200) = false |- _ => destruct Hx as [Hx|Hx]; bprop; done
    | Hx : _ \/ token (SubjectID r) 200 = true |- _ => destruct Hx as [Hx|Hx]; bprop; done end. }
  assert (Hzero : is_zero (utc t) = false) by (unfold is_zero in *; by cbn).
  rewrite Hsub, Hzero. assert (Hnid : (identifier =? "")%string = false) by by apply String.eqb_neq.
  assert (Hnrid : (ID r =? "")%string = false) by by apply String.eqb_neq. rewrite Hnid, Hnrid.
  repeat match goal with Hx : validRegion (Region r) = true |- _ => rewrite Hx; clear Hx end. by destruct (bool_decide _).
Qed.

Lemma attempt_once db c r t identifier : interrupted db c r -> identifier <> ""%string -> is_zero t = false ->
  Forall (fun x => RestrictionID x <> identifier) (restrictions db) ->
  exists audits', drive Idle (attempt c t identifier) db =
    (Idle, mk_database (row db) (restrictions db ++ [new_restriction r t identifier]) audits').
Proof.
  intros (Hf & Ho & Hadm & Hty & Hst & Hsub & v & Hv & Hp) Hi Ht Hfresh.
  assert (Hval : Validate r = true /\ ID r = ID (row db)) by (unfold FindPrivacyRequest in Hf; go_inv Hf; bprop; done). destruct Hval as [Hval Hid].
  assert (Hactor : ActorID (actor c) <> ""%string).
  { unfold admitted, permits in Hadm. rewrite Ho in Hadm. bprop. unfold empty_string in *. bprop. done. }
  unfold attempt. cbn [drive]. unfold work at 1. cbn [crash call]. rewrite Hadm, Ho. cbn [negb]. unfold find_call. rewrite Ho. cbn [is_lift]. rewrite Hf.
  assert (Hload : on_loaded sha256_hex format_rfc3339_nano c r (mk_input false c t (Some identifier) None Committed) db = (Executing c r, db)).
  { unfold on_loaded. rewrite Ho. unfold execute_call, BeginExecution, save_then. rewrite Hst, Hval. rewrite Z.eqb_refl.
    change (rstate_is RequestStateExecuting RequestStateCompleted) with false. change (rstate_is RequestStateExecuting RequestStateExecuting) with true.
    cbn [negb]. by rewrite Z.eqb_refl. }
  unfold work at 1. cbn [crash]. rewrite Hload.
  unfold work at 1. cbn [crash]. unfold executeEffect, restrict, prepare. rewrite Hty in *. rewrite Hv. cbn [rbind fresh]. unfold NewScoped. rewrite Hp.
  pose proof (new_restriction_valid r t identifier Hval Hsub Hi Ht) as Hnew. unfold new_restriction in Hnew. cbn [now clock].
  unfold now. cbn [clock]. rewrite Hnew. cbn [negb]. unfold CreateRestriction. rewrite Hnew. cbn [RequestID RestrictionID commit].
  assert (Hnone : existsb (fun x => (RestrictionID x =? identifier)%string) (restrictions db) = false).
  { apply not_true_iff_false. intros (x & Hx & He)%existsb_exists. apply String.eqb_eq in He. rewrite Forall_forall in Hfresh.
    apply (Hfresh x); [by apply list_elem_of_In | done]. }
  rewrite Hnone, Hid, String.eqb_refl. unfold empty_string. rewrite (proj2 (String.eqb_neq _ _) Hactor). cbn. rewrite <- Hid. by eexists.
Qed.

(** An interrupted execution restricts again.  Executing a restriction request
    is not idempotent: every execution that dies between storing the restriction
    and recording it leaves the request executing and one more active restriction
    of the subject, so that after [n] of them [n] have to be lifted. *)
Theorem interrupted_execution_restricts_again (db : Database) (c : Call) (r : Request) (t : Time) (identifiers : list string)
    (Hint : interrupted db c r) (Ht : is_zero t = false) (Hn : NoDup identifiers) (Hne : Forall (fun x => x <> ""%string) identifiers)
    (Hfresh : Forall (fun x => ~ RestrictionID x ∈ identifiers) (restrictions db)) :
  exists db', drive Idle (flat_map (attempt c t) identifiers) db = (Idle, db') /\ row db' = row db /\
    restrictions db' = restrictions db ++ map (new_restriction r t) identifiers /\ interrupted db' c r /\
    Forall (fun x => RequestID x = ID r /\ RestrictedSubject x = SubjectID r /\ ActiveAt x (utc t) = true) (map (new_restriction r t) identifiers).
Proof.
  revert db Hint Hfresh. induction identifiers as [|identifier rest IH]; intros db Hint Hfresh.
  - exists db. split_and!; [done | done | by rewrite app_nil_r | done | constructor].
  - apply Forall_cons in Hne as [Hi Hne]. apply NoDup_cons in Hn as [Hni Hn].
    destruct (attempt_once db c r t identifier Hint Hi Ht) as (au & Hd).
    { eapply Forall_impl; [exact Hfresh|]. intros x Hx He. apply Hx. rewrite He. apply list_elem_of_here. }
    set (db1 := mk_database _ _ au) in Hd.
    destruct (IH Hn Hne db1) as (db' & Hd' & Hrow & Hres & Hint' & Hact).
    + exact Hint.
    + cbn [db1 restrictions]. apply Forall_app. split; [|by constructor].
      eapply Forall_impl; [exact Hfresh|]. intros x Hx He. apply Hx. by apply list_elem_of_further.
    + exists db'. split; [|split; [done|split; [|split; [done|]]]].
      * cbn [flat_map]. rewrite <- Hd'. clear -Hd. revert Hd. generalize (attempt c t identifier) as one, (flat_map (attempt c t) rest) as more.
        generalize Idle at 1 3 as l. intros l one more. revert l. generalize db as d. induction one as [|i one IH]; intros d l; cbn [drive app].
        -- by intros [= -> ->].
        -- destruct (work _ _ l i d) as [l1 d1]. apply IH.
      * rewrite Hres. cbn [db1 restrictions map]. by rewrite <- app_assoc.
      * constructor; [|done]. destruct Hint as (Hf & _ & _ & _ & _ & Hsub & _).
        assert (Hval : Validate r = true) by (unfold FindPrivacyRequest in Hf; go_inv Hf; by bprop).
        split; [done|]. split; [done|]. unfold ActiveAt. rewrite new_restriction_valid by done. unfold before. cbn. by rewrite Z.ltb_irrefl.
Qed.
End Theorems.
End ServiceSpec.

(** ** Witnesses *)
Module ServiceWitness.
Import RequestInvariant ServiceInvariant ServiceSpec RequestWitness UlidText.

Definition toy_sha (_ : string) : string := "d".
Definition toy_format (_ : Time) : string := "t".
Notation toy_step := (world_step toy_sha toy_format).
Notation toy_drive := (drive toy_sha toy_format).

Definition tenant_actor : Actor := mk_actor "key_1" [PermissionWritePrivacyRequests; PermissionApprovePrivacyRequests].
Definition sample_create (t : RequestType) (subject text : string) : result Error (Request * Database) :=
  create toy_sha toy_format Some SelectedRequestConfig true "key_1" ChannelTenantAPI (mk_input_request t subject "" "ng-1" text None)
    (at_day 1) (at_day 1) (Some "prq_1").
Definition created (t : RequestType) (subject text : string) : Database :=
  match sample_create t subject text with Ok (_, db) => db | Err _ => mk_database (mk_request "" t RequestStateFailed ChannelTenantAPI "" "" "" "" "" "" "" "" ""
    zero_time zero_time zero_time 0 [] []) [] [] end.

Definition calling (o : Op) (target : string) (day : Z) (fresh : string) : Input :=
  mk_input false (mk_call o tenant_actor target) (at_day day) (Some fresh) None Committed.

(** A decision on a request not yet in review, and its execution. *)
Definition deciding (reason : ReasonCode) : list Input := repeat (calling (OpDecide OutcomeApproved reason 1) "prq_1" 2 "prd_1") 4.
Definition executing (fresh : string) : list Input := repeat (calling (OpExecute 3) "prq_1" 3 fresh) 5.

Lemma drive_reachable inputs : forall l db l' db', toy_drive l inputs db = (l', db') -> rtc toy_step (mk_world db [l]) (mk_world db' [l']).
Proof.
  induction inputs as [|i rest IH]; intros l db l' db' Hd; cbn [drive] in Hd; [injection Hd as -> ->; apply rtc_refl|].
  destruct (work toy_sha toy_format l i db) as [l1 db1] eqn:Hw. eapply rtc_l; [|by apply IH].
  by apply (world_work toy_sha toy_format (mk_world db [l]) 0 l i l1 db1).
Qed.

Definition final (t : RequestType) (subject text : string) (reason : ReasonCode) : World :=
  let '(l, db) := toy_drive Idle (deciding reason ++ executing "prs_1") (created t subject text) in mk_world db [l].

Lemma final_reachable t subject text reason : rtc toy_step (start_world (created t subject text) 1) (final t subject text reason).
Proof.
  unfold final. destruct (toy_drive Idle _ (created t subject text)) as [l db] eqn:Hd. by apply (drive_reachable _ _ _ _ _ Hd).
Qed.

(** A restriction request, decided and executed. *)
Definition restricted : World := final RequestRestriction "sub_1" empty_text "restriction_approved".

Lemma privacy_rows_follow_workflow_witness :
  State (row (database restricted)) = RequestStateCompleted /\ Version (row (database restricted)) = 5 /\
  workflow (row (created RequestRestriction "sub_1" empty_text)) (row (database restricted)) /\ audited (database restricted).
Proof.
  assert (Hc : exists request, sample_create RequestRestriction "sub_1" empty_text = Ok (request, created RequestRestriction "sub_1" empty_text))
    by (eexists; vm_compute; reflexivity).
  destruct Hc as (request & Hc).
  destruct (privacy_rows_follow_workflow toy_sha toy_format Some _ _ _ _ _ _ _ _ request _ 1 restricted Hc (final_reachable _ _ _ _)) as (_ & Hw & _ & _ & Ha & _).
  split; [vm_compute; reflexivity|]. split; [vm_compute; reflexivity|]. split; [exact Hw | exact Ha].
Defined.

Lemma completed_request_has_effect_witness :
  exists x, x ∈ restrictions (database restricted) /\ RestrictionID x = "prs_1"%string /\ RestrictedSubject x = "sub_1"%string /\
    Scope x = RestrictionScopeSubject.
Proof.
  assert (Hc : exists request, sample_create RequestRestriction "sub_1" empty_text = Ok (request, created RequestRestriction "sub_1" empty_text))
    by (eexists; vm_compute; reflexivity).
  destruct Hc as (request & Hc).
  destruct (completed_request_has_effect toy_sha toy_format Some _ _ _ _ _ _ _ _ request _ 1 restricted RestrictionScopeSubject Hc (final_reachable _ _ _ _))
    as (x & v & Hx & Hid & _ & Hsub & _ & Hsc & _); [vm_compute; reflexivity | vm_compute; reflexivity |].
  exists x. split; [exact Hx|]. split; [rewrite Hid; vm_compute; reflexivity|]. split; [rewrite Hsub; vm_compute; reflexivity | exact Hsc].
Defined.

(** The same request with a purpose: accepted, approved, and failed when executed. *)
Definition misdirected : World := final RequestRestriction "sub_1" marketing_text "restriction_approved".

Lemma unexecutable_request_never_completes_witness :
  State (row (database misdirected)) = RequestStateFailed /\ llen (Decisions (row (database misdirected))) = 1 /\
  State (row (database misdirected)) <> RequestStateCompleted.
Proof.
  assert (Hc : exists request, sample_create RequestRestriction "sub_1" marketing_text = Ok (request, created RequestRestriction "sub_1" marketing_text))
    by (eexists; vm_compute; reflexivity).
  destruct Hc as (request & Hc). split; [vm_compute; reflexivity|]. split; [vm_compute; reflexivity|].
  apply (unexecutable_request_never_completes toy_sha toy_format Some _ _ _ _ _ _ _ _ request _ 1 misdirected for_marketing Hc).
  - vm_compute. reflexivity.
  - left. split; [vm_compute; reflexivity | discriminate].
  - apply final_reachable.
Defined.

(** An approved restriction request in execution, and two executions that die. *)
Definition in_execution : Database :=
  snd (toy_drive Idle (deciding "restriction_approved" ++ [calling (OpExecute 3) "prq_1" 3 "prs_0"; calling (OpExecute 3) "prq_1" 3 "prs_0"])
         (created RequestRestriction "sub_1" empty_text)).
Definition again : Call := mk_call (OpExecute 4) tenant_actor "prq_1".

Lemma interrupted_execution_restricts_again_witness :
  exists db', toy_drive Idle (flat_map (attempt again (at_day 4)) ["prs_1"; "prs_2"]%string) in_execution = (Idle, db') /\
    State (row db') = RequestStateExecuting /\ llen (restrictions db') = 2.
Proof.
  assert (Hf : exists r, FindPrivacyRequest in_execution "prq_1" = Ok r /\ State r = RequestStateExecuting /\ Version r = 4 /\
    Type_ r = RequestRestriction /\ SubjectID r = "sub_1"%string /\ ValidatePayload (Type_ r) (Payload r) = Ok no_instruction)
    by (eexists; split; [vm_compute; reflexivity|]; repeat split; vm_compute; reflexivity).
  destruct Hf as (r & Hf & Hs & Hv & Ht & Hsub & Hp).
  destruct (interrupted_execution_restricts_again toy_sha toy_format in_execution again r (at_day 4) ["prs_1"; "prs_2"]%string) as (db' & Hd & Hrow & Hres & _).
  - unfold interrupted. split; [exact Hf|]. split; [rewrite Hv; reflexivity|]. split; [vm_compute; reflexivity|]. split; [exact Ht|].
    split; [exact Hs|]. split; [rewrite Hsub; discriminate|]. exists no_instruction. split; [exact Hp | reflexivity].
  - reflexivity.
  - apply no_dupb_NoDup. vm_compute. reflexivity.
  - repeat constructor; discriminate.
  - assert (Hnone : restrictions in_execution = []) by (vm_compute; reflexivity). rewrite Hnone. constructor.
  - exists db'. split; [exact Hd|]. split; [rewrite Hrow; vm_compute; reflexivity|]. rewrite Hres.
    assert (Hnone : restrictions in_execution = []) by (vm_compute; reflexivity). rewrite Hnone. reflexivity.
Defined.
End ServiceWitness.
