(* ===== verification/Content.v ===== *)
(** * Protected content

    [internal/platform/kms/kms.go], [platform/crypto/crypto.go],
    [platform/objectstore/objectstore.go] and [evidence/content.go]: the records of
    wrapped keys, envelopes and exact object versions, object keys and their
    inventory, and the content of an evidence asset.  Text is read as Go reads it,
    rune by rune.

    SHA-256, [encoding/json] and [mime.ParseMediaType] are the class
    [ContentLibraries]. *)

From S2P Require Import Prelude GoTime.
From Stdlib Require Import Ascii.

(** ** Text *)

(** Go reads a string as runes; a byte that starts no rune is U+FFFD. *)
Definition byte_of_ascii (c : ascii) : Z := Z.of_N (N_of_ascii c).
Definition rune_error : Z := 65533.
Definition continuation (lo hi : Z) (b : Z) : bool := (lo <=? b) && (b <=? hi).
Definition decode_rune (bytes : list Z) : Z * nat :=
  match bytes with
  | [] => (rune_error, 0%nat)
  | b0 :: rest =>
      if b0 <? 128 then (b0, 1%nat)
      else
        match rest with
        | b1 :: rest2 =>
            if (194 <=? b0) && (b0 <=? 223) && continuation 128 191 b1 then ((b0 - 192) * 64 + (b1 - 128), 2%nat)
            else
              match rest2 with
              | b2 :: rest3 =>
                  let lo := if b0 =? 224 then 160 else if b0 =? 240 then 144 else 128 in
                  let hi := if b0 =? 237 then 159 else if b0 =? 244 then 143 else 191 in
                  if (224 <=? b0) && (b0 <=? 239) && continuation lo hi b1 && continuation 128 191 b2
                  then (((b0 - 224) * 64 + (b1 - 128)) * 64 + (b2 - 128), 3%nat)
                  else
                    match rest3 with
                    | b3 :: _ =>
                        if (240 <=? b0) && (b0 <=? 244) && continuation lo hi b1 && continuation 128 191 b2 && continuation 128 191 b3
                        then ((((b0 - 240) * 64 + (b1 - 128)) * 64 + (b2 - 128)) * 64 + (b3 - 128), 4%nat)
                        else (rune_error, 1%nat)
                    | [] => (rune_error, 1%nat)
                    end
              | [] => (rune_error, 1%nat)
              end
        | [] => (rune_error, 1%nat)
        end
  end.
Fixpoint decode_runes (fuel : nat) (bytes : list Z) : list Z :=
  match fuel, bytes with
  | O, _ | _, [] => []
  | S fuel', _ => let '(r, n) := decode_rune bytes in r :: decode_runes fuel' (drop n bytes)
  end.
(** Every rune takes a byte, so the length is enough fuel. *)
Definition runes (s : string) : list Z := decode_runes (String.length s) (map byte_of_ascii (String.list_ascii_of_string s)).

Definition is_control (r : Z) : bool := (r <? 32) || ((127 <=? r) && (r <? 160)).
Definition is_space (r : Z) : bool :=
  ((9 <=? r) && (r <=? 13)) || existsb (Z.eqb r) [32; 133; 160; 5760; 8232; 8233; 8239; 8287; 12288] || ((8192 <=? r) && (r <=? 8202)).
(** [strings.TrimSpace] keeps a text whose first and last runes are no spaces. *)
Definition trimmed (rs : list Z) : bool :=
  negb (match head rs with Some r => is_space r | None => false end) && negb (match last rs with Some r => is_space r | None => false end).

(** ** Wrapped keys: [kms] *)
Module Kms.
Definition maxLabelLength : Z := 512.
Definition maxWrappedKeyLength : Z := 64 * 1024.

Definition name_separator : ascii -> bool := byte_of "._-".
Definition validName (value : string) (limit : Z) : bool :=
  negb (empty_string value) && negb (limit <? slen value) &&
  match_head_tail is_lower (fun c => name_separator c || is_lower c || is_digit c) value &&
  negb (string_forall (fun c => negb (name_separator c)) value).
Definition NewPurpose (value : string) : option string := if validName value 200 then Some value else None.

Definition validLabel (value : string) : bool :=
  trimmed (runes value) && negb (empty_string value) && negb (maxLabelLength <? slen value) &&
  forallb (fun r => negb ((r <? 33) || (r =? 127))) (runes value).

Record WrappedKeyRecord := mk_wrapped { Provider : string; KeyReference : string; KeyVersion : string; Algorithm : string; Ciphertext : string }.
#[global] Instance WrappedKeyRecord_eq_dec : EqDecision WrappedKeyRecord. Proof. solve_decision. Defined.

Definition NewWrappedKey (r : WrappedKeyRecord) : option WrappedKeyRecord :=
  if validLabel (Provider r) && validLabel (KeyReference r) && validLabel (KeyVersion r) && validLabel (Algorithm r) &&
     negb (empty_string (Ciphertext r)) && negb (maxWrappedKeyLength <? slen (Ciphertext r)) then Some r else None.
End Kms.

(** ** Digests, contexts and envelopes: [platform/crypto] *)
Module Crypto.
Definition maxContextLength : Z := 32 * 1024.

Fixpoint string_drop (n : nat) (s : string) : string :=
  match n, s with
  | S n', String _ rest => string_drop n' rest
  | _, _ => s
  end.

Definition NewDigest (value : string) : option string :=
  if negb (slen value =? 71) || negb (String.prefix "sha256:" value) then None
  else
    let suffix := string_drop 7 value in
    match hex_decode suffix with
    | Some decoded => if (slen decoded =? 32) && String.eqb (hex_encode decoded) suffix then Some value else None
    | None => None
    end.

Definition label_byte (c : ascii) : bool := is_upper c || is_digit c || byte_of "_-." c.
Definition validLabel (value : string) : bool := negb (empty_string value) && negb (200 <? slen value) && string_forall label_byte value.

Record Context_ := mk_context { ContextVersion : Z; ContextData : string; ContextSum : string }.

Record EnvelopeRecord := mk_envelope {
  FormatVersion : Z; ContentAlgorithm : string; EnvelopePurpose : string; WrappedKey : Kms.WrappedKeyRecord; ContextSchemaVersion : Z;
  ContextDigest : string }.
#[global] Instance EnvelopeRecord_eq_dec : EqDecision EnvelopeRecord. Proof. solve_decision. Defined.

Definition NewEnvelope (r : EnvelopeRecord) : option EnvelopeRecord :=
  if (FormatVersion r =? 0) || negb (validLabel (ContentAlgorithm r)) || (ContextSchemaVersion r =? 0) then None
  else
    match Kms.NewPurpose (EnvelopePurpose r), NewDigest (ContextDigest r), Kms.NewWrappedKey (WrappedKey r) with
    | Some _, Some digest, Some wrapped =>
        Some (mk_envelope (FormatVersion r) (ContentAlgorithm r) (EnvelopePurpose r) wrapped (ContextSchemaVersion r) digest)
    | _, _, _ => None
    end.
End Crypto.

(** ** Exact object versions: [platform/objectstore] *)
Module ObjectStore.
Definition maxKeyLength : Z := 1024.
Definition maxCursorLength : Z := 4096.
Definition MaxInventoryPageSize : Z := 1000.

(** [strings.SplitSeq(value, "/")] and [path.Clean]. *)
Fixpoint segments_of (current : string) (s : string) : list string :=
  match s with
  | EmptyString => [current]
  | String c rest => if Ascii.eqb c "/" then current :: segments_of "" rest else segments_of (current +:+ String c "") rest
  end.
Definition split_path (s : string) : list string := segments_of "" s.
Fixpoint join_path (segments : list string) : string :=
  match segments with
  | [] => ""
  | [s] => s
  | s :: rest => s +:+ "/" +:+ join_path rest
  end.
Definition clean_segment (rooted : bool) (out : list string) (segment : string) : list string :=
  if empty_string segment || String.eqb segment "." then out
  else if String.eqb segment ".." then
    match out with
    | top :: rest => if String.eqb top ".." then segment :: out else rest
    | [] => if rooted then [] else [segment]
    end
  else segment :: out.
Definition Clean (s : string) : string :=
  let rooted := String.prefix "/" s in
  let out := rev (fold_left (clean_segment rooted) (split_path s) []) in
  let cleaned := (if rooted then "/" else "") +:+ join_path out in
  if empty_string cleaned then "." else cleaned.

Definition segment_byte (c : ascii) : bool := is_lower c || is_upper c || is_digit c || byte_of "_-." c.
Definition validSegment (value : string) : bool := string_forall segment_byte value.

Definition NewKey (value : string) : option string :=
  if empty_string value || (maxKeyLength <? slen value) || String.prefix "/" value || negb (string_forall (fun c => negb (Ascii.eqb c "\")) value) ||
     negb (String.eqb (Clean value) value) || String.eqb value "." then None
  else if forallb (fun s => negb (empty_string s || String.eqb s ".." || negb (validSegment s))) (split_path value) then Some value else None.

Definition validVersion (version : string) : bool :=
  trimmed (runes version) && negb (empty_string version) && (slen version <=? 200) && validSegment version && negb (String.eqb version ".") &&
  negb (String.eqb version "..").

Record ObjectRecord := mk_object { Key : string; ObjectVersion : string; Size : Z; Checksum : string }.
#[global] Instance ObjectRecord_eq_dec : EqDecision ObjectRecord. Proof. solve_decision. Defined.

Definition NewObject (r : ObjectRecord) : option ObjectRecord :=
  match NewKey (Key r) with
  | None => None
  | Some key =>
      if negb (validVersion (ObjectVersion r)) || (Size r <? 0) then None
      else
        match Crypto.NewDigest (Checksum r) with
        | None => None
        | Some checksum => Some (mk_object key (ObjectVersion r) (Size r) checksum)
        end
  end.

Record InventoryRecord := mk_inventory { InventoryKey : string; InventoryVersion : string; InventorySize : Z; ModifiedAt : Time }.
#[global] Instance InventoryRecord_eq_dec : EqDecision InventoryRecord. Proof. solve_decision. Defined.

Definition NewInventoryObject (r : InventoryRecord) : option InventoryRecord :=
  match NewKey (InventoryKey r) with
  | None => None
  | Some key =>
      if negb (validVersion (InventoryVersion r)) || (InventorySize r <? 0) || is_zero (ModifiedAt r) then None
      else Some (mk_inventory key (InventoryVersion r) (InventorySize r) (utc (ModifiedAt r)))
  end.

Definition NewInventoryPage (objects : list InventoryRecord) (next : string) : option (list InventoryRecord * string) :=
  if (MaxInventoryPageSize <? llen objects) || (maxCursorLength <? slen next) then None
  else if existsb (fun o => empty_string (InventoryKey o)) objects then None else Some (objects, next).
Definition ValidInventoryCursor (cursor : string) : bool := slen cursor <=? maxCursorLength.
End ObjectStore.

(** ** Content: [evidence/content.go] *)

Record Reference := mk_reference { SchemaVersion : Z; Revision : Z; RegistryDigest : string }.
#[export] Instance Reference_eq_dec : EqDecision Reference. Proof. solve_decision. Defined.

(** The document whose encoding is authenticated with a content. *)
Record ContextDocument := mk_document {
  Domain : string; DocumentVersion : Z; DocTenant : string; DocVerification : string; DocEvidence : string; DocRequirement : string;
  DocEvidenceType : string; DocArtefact : string; DocMethod : string; DocRegistry : Reference; ObjectPurpose : string; DocRevision : Z }.

Class ContentLibraries := {
  content_sha256 : string -> string;
  marshal_document : ContextDocument -> option string;
  parse_media_type : string -> option string;
}.

Section Content.
Context `{ContentLibraries}.

Definition Sum (value : string) : string := "sha256:" +:+ content_sha256 value.
Definition NewContext (schemaVersion : Z) (data : string) : option Crypto.Context_ :=
  if (schemaVersion =? 0) || empty_string data || (Crypto.maxContextLength <? slen data) then None
  else Some (Crypto.mk_context schemaVersion data (Sum data)).

Record ContentRecord := mk_content {
  Object_ : ObjectStore.ObjectRecord; Envelope : Crypto.EnvelopeRecord; PlaintextDigest : string; MediaType : string }.
#[export] Instance ContentRecord_eq_dec : EqDecision ContentRecord. Proof. solve_decision. Defined.

Definition no_line_break (s : string) : bool := string_forall (fun c => negb (byte_in "010" "010" c || byte_in "013" "013" c)) s.
(** [strings.ToLower] of a media type, which [ParseMediaType] restricts to ASCII. *)
Definition lower_byte (c : ascii) : ascii := if is_upper c then ascii_of_N (N_of_ascii c + 32) else c.
Fixpoint to_lower (s : string) : string := match s with EmptyString => "" | String c rest => String (lower_byte c) (to_lower rest) end.

Definition NewContent (r : ContentRecord) (context : Crypto.Context_) : option ContentRecord :=
  match ObjectStore.NewObject (Object_ r), Crypto.NewEnvelope (Envelope r) with
  | Some object, Some envelope =>
      if negb (Crypto.ContextSchemaVersion envelope =? Crypto.ContextVersion context) ||
         negb (String.eqb (Crypto.ContextDigest envelope) (Crypto.ContextSum context)) then None
      else
        match Crypto.NewDigest (PlaintextDigest r), parse_media_type (MediaType r) with
        | Some digest, Some mediaType =>
            if empty_string mediaType || (200 <? slen (MediaType r)) || negb (no_line_break (MediaType r)) then None
            else Some (mk_content object envelope digest (to_lower mediaType))
        | _, _ => None
        end
  | _, _ => None
  end.
End Content.
