(* ===== verification/Evidence.v ===== *)
(** * Evidence assets, processing grants and the controlled read

    [internal/evidence/asset.go], [grant.go], [access.go] and
    [postgres/grant_store.go], [postgres/store.go]: evidence metadata and its
    quarantine, grants to read one asset in plaintext, their redemptions, and the
    reader that turns a redemption into one delivery.

    A reader is a small automaton, one transaction or one call of a collaborator
    per step, over the tables of one tenant; a step takes its clock reading, the
    answers of the authoriser, the object store, the decryption and the receiver,
    and the fate of its transaction, and may be a crash.  The receiver keeps what
    [PlaintextReceiver] documents: it commits once per redemption, after
    everything was produced.  [AuthenticatedContext] and [NewContent], which rest on
    the encryption and object packages, are one parameter. *)

From S2P Require Import Prelude GoTime Content.
From Stdlib Require Import Ascii.

Inductive Error := ErrNotFound | ErrConflict | ErrVersionConflict | ErrReadDenied | ErrGrantDenied | ErrGrantConflict | ErrInvalid |
  ErrContentIntegrity | ErrCiphertextIntegrity | ErrQuarantineIncomplete | ErrQuery.
#[export] Instance EvidenceError_eq_dec : EqDecision Error. Proof. solve_decision. Defined.

(** ** Text *)

Definition validRequirementKey (value : string) : bool :=
  negb (64 <? slen value) && match_head_tail is_lower (fun c => is_lower c || is_digit c || byte_in "_" "_" c) value.

(** The pattern of classifications: two or more segments of lower-case letters and
    digits, separated by one of [._-], the first starting with a letter. *)
Fixpoint segments (started separated : bool) (s : string) : bool :=
  match s with
  | EmptyString => started && separated
  | String c rest =>
      if byte_of "._-" c then started && segments false true rest
      else (is_lower c || (is_digit c && (started || separated))) && segments true separated rest
  end.
Definition validClassification (value : string) : bool := negb (empty_string value) && negb (200 <? slen value) && segments false false value.

Definition validGrantLabel (value : string) : bool :=
  negb (empty_string value) && negb (512 <? slen value) && trimmed (runes value) && forallb (fun r => negb (is_space r || is_control r)) (runes value).
Definition validAuditReason (value : string) : bool :=
  negb (empty_string value) && negb (500 <? slen value) && trimmed (runes value) && forallb (fun r => negb (is_control r)) (runes value).

(** ** Assets *)

Definition Name := string.

(** The definitions of a registry revision that assets are checked against. *)
Record MethodSupport := mk_support { SupportEvidenceType : Name; SupportArtefacts : list Name; SupportAssurances : list Name }.
Record Registry := mk_registry {
  registry_reference : Reference; evidence_types : gmap Name (list Name); methods : gmap Name (list MethodSupport); purposes : gset Name }.

Definition validateAcquisition (registry : Registry) (evidenceType artefact method : Name) (assurances : list Name) : result Error (list Name) :=
  match evidence_types registry !! evidenceType with
  | None => Err ErrInvalid
  | Some artefacts =>
      reject negb (existsb (String.eqb artefact) artefacts) with ErrInvalid ;;
      match methods registry !! method with
      | None => Err ErrInvalid
      | Some supports =>
          match List.find (fun s => String.eqb (SupportEvidenceType s) evidenceType) supports with
          | None => Err ErrInvalid
          | Some support =>
              reject empty_string (SupportEvidenceType support) || negb (existsb (String.eqb artefact) (SupportArtefacts support)) with ErrInvalid ;;
              let validated := compact (sort_strings assurances) in
              reject negb (forallb (fun a => existsb (String.eqb a) (SupportAssurances support)) validated) with ErrInvalid ;;
              Ok validated
          end
      end
  end.

Inductive State := StateAvailable | StateQuarantined | StateDeleted | StateOther (raw : string).
#[export] Instance State_eq_dec : EqDecision State. Proof. solve_decision. Defined.
Inductive Integrity := IntegrityVerified | IntegrityFailed | IntegrityOther (raw : string).
#[export] Instance Integrity_eq_dec : EqDecision Integrity. Proof. solve_decision. Defined.
Definition asset_state_is (a b : State) : bool := bool_decide (a = b).
Definition integrity_is (a b : Integrity) : bool := bool_decide (a = b).

Record Record_ := mk_record {
  ID : string;
  TenantID : string;
  SubjectID : string;
  VerificationID : string;
  RequirementKey : string;
  EvidenceType : Name;
  Artefact : Name;
  AcquisitionMethod : Name;
  Assurances : list Name;
  Registry_ : Reference;
  Region : string;
  RetentionClass : string;
  ContentRevision : Z;
  Content : ContentRecord;
  Integrity_ : Integrity;
  State_ : State;
  Version : Z;
  CreatedAt : Time;
  UpdatedAt : Time;
  QuarantineReason : string;
  QuarantinedAt : option Time;
}.
#[export] Instance Record_eq_dec : EqDecision Record_. Proof. solve_decision. Defined.

Definition validateLifecycle (r : Record_) : bool :=
  match State_ r with
  | StateAvailable => integrity_is (Integrity_ r) IntegrityVerified && empty_string (QuarantineReason r) && bool_decide (QuarantinedAt r = None)
  | StateQuarantined =>
      (integrity_is (Integrity_ r) IntegrityVerified || integrity_is (Integrity_ r) IntegrityFailed) && validClassification (QuarantineReason r) &&
      match QuarantinedAt r with None => false | Some t => bool_decide (utc t = UpdatedAt r) end
  | StateDeleted =>
      (integrity_is (Integrity_ r) IntegrityVerified || integrity_is (Integrity_ r) IntegrityFailed) &&
      Bool.eqb (empty_string (QuarantineReason r)) (bool_decide (QuarantinedAt r = None)) &&
      match QuarantinedAt r with None => true | Some t => validClassification (QuarantineReason r) && negb (after t (UpdatedAt r)) end
  | StateOther _ => false
  end.

Definition with_times (r : Record_) (createdAt updatedAt : Time) (assurances : list Name) (content : ContentRecord) : Record_ :=
  mk_record (ID r) (TenantID r) (SubjectID r) (VerificationID r) (RequirementKey r) (EvidenceType r) (Artefact r) (AcquisitionMethod r) assurances
    (Registry_ r) (Region r) (RetentionClass r) (ContentRevision r) content (Integrity_ r) (State_ r) (Version r) createdAt updatedAt
    (QuarantineReason r) (QuarantinedAt r).

Definition ContentContextSchemaVersion : Z := 1.
Definition ContentEncryptionPurpose : string := "idenqa.evidence.content".

Section Assets.
Context `{ContentLibraries}.

Definition AuthenticatedContext (r : Record_) : option Crypto.Context_ :=
  if empty_string (ID r) || empty_string (TenantID r) || empty_string (VerificationID r) || empty_string (RequirementKey r) ||
     empty_string (EvidenceType r) || empty_string (Artefact r) || empty_string (AcquisitionMethod r) || (ContentRevision r =? 0) then None
  else
    match marshal_document (mk_document ContentEncryptionPurpose ContentContextSchemaVersion (TenantID r) (VerificationID r) (ID r) (RequirementKey r)
            (EvidenceType r) (Artefact r) (AcquisitionMethod r) (Registry_ r) ContentEncryptionPurpose (ContentRevision r)) with
    | None => None
    | Some encoded => NewContext ContentContextSchemaVersion encoded
    end.

Definition restoreAsset (r : Record_) (registry : Registry) : result Error Record_ :=
  let r := with_times r (utc (CreatedAt r)) (utc (UpdatedAt r)) (Assurances r) (Content r) in
  reject empty_string (ID r) || empty_string (TenantID r) || empty_string (SubjectID r) || empty_string (VerificationID r) ||
         (ContentRevision r =? 0) with ErrInvalid ;;
  reject negb (validRequirementKey (RequirementKey r)) || negb (validClassification (Region r)) || negb (validClassification (RetentionClass r))
    with ErrInvalid ;;
  reject negb (bool_decide (Registry_ r = registry_reference registry)) with ErrInvalid ;;
  let? assurances := validateAcquisition registry (EvidenceType r) (Artefact r) (AcquisitionMethod r) (Assurances r) in
  let r := with_times r (CreatedAt r) (UpdatedAt r) assurances (Content r) in
  reject (Version r <? 1) || is_zero (CreatedAt r) || before (UpdatedAt r) (CreatedAt r) with ErrInvalid ;;
  reject negb (validateLifecycle r) with ErrInvalid ;;
  match AuthenticatedContext r with
  | None => Err ErrInvalid
  | Some context =>
  match NewContent (Content r) context with
  | None => Err ErrInvalid
  | Some content => Ok (with_times r (CreatedAt r) (UpdatedAt r) assurances content)
  end
  end.

Definition NewAvailable (r : Record_) (registry : Registry) : result Error Record_ :=
  restoreAsset (mk_record (ID r) (TenantID r) (SubjectID r) (VerificationID r) (RequirementKey r) (EvidenceType r) (Artefact r)
    (AcquisitionMethod r) (Assurances r) (Registry_ r) (Region r) (RetentionClass r) (ContentRevision r) (Content r) IntegrityVerified
    StateAvailable 1 (CreatedAt r) (CreatedAt r) "" None) registry.
End Assets.

Definition CanRead (a : Record_) : bool := asset_state_is (State_ a) StateAvailable && integrity_is (Integrity_ a) IntegrityVerified.

Definition quarantined (a : Record_) (integrity : Integrity) (reason : string) (now : Time) : Record_ :=
  mk_record (ID a) (TenantID a) (SubjectID a) (VerificationID a) (RequirementKey a) (EvidenceType a) (Artefact a) (AcquisitionMethod a)
    (Assurances a) (Registry_ a) (Region a) (RetentionClass a) (ContentRevision a) (Content a) integrity StateQuarantined
    (wrap_int64 (Version a + 1)) (CreatedAt a) (utc now) reason (Some (utc now)).

Definition Quarantine (a : Record_) (expectedVersion : Z) (reason : string) (now : Time) : result Error Record_ :=
  reject negb (expectedVersion =? Version a) with ErrVersionConflict ;;
  reject negb (asset_state_is (State_ a) StateAvailable) || negb (validClassification reason) || is_zero now || negb (after (utc now) (UpdatedAt a))
    with ErrConflict ;;
  Ok (quarantined a (Integrity_ a) reason now).

Definition FailIntegrity (a : Record_) (expectedVersion : Z) (reason : string) (now : Time) : result Error Record_ :=
  let? _ := Quarantine a expectedVersion reason now in
  Ok (quarantined a IntegrityFailed reason now).

(** ** Grants *)

Definition OperationPlaintextRead : string := "evidence.plaintext.read".
Definition VariantOriginal : string := "evidence.variant.original".
Definition maxGrantUses : Z := 32.
Definition maxGrantLifetime : Z := hour.

Record Runner := mk_runner { Identity : string; WorkloadVersion : string }.
#[export] Instance Runner_eq_dec : EqDecision Runner. Proof. solve_decision. Defined.
Definition runner_valid (r : Runner) : bool := validGrantLabel (Identity r) && validGrantLabel (WorkloadVersion r).

Record Actor := mk_actor { ActorType : string; ActorID : string }.
Record CommandAttribution := mk_attribution { Principal : Actor; TenantActor : Actor; AttributionReason : string }.
Definition attribution_valid (a : CommandAttribution) : bool :=
  validClassification (ActorType (Principal a)) && validGrantLabel (ActorID (Principal a)) && validClassification (ActorType (TenantActor a)) &&
  validGrantLabel (ActorID (TenantActor a)) && validAuditReason (AttributionReason a).

Record Grant := mk_grant {
  GrantID : string;
  GTenantID : string;
  GSubjectID : string;
  GVerificationID : string;
  EvidenceID : string;
  GRequirementKey : string;
  AuthorityID : string;
  ResponseID : string;
  CheckReference : string;
  GRunner : Runner;
  Purpose : Name;
  Operation : string;
  PermittedVariants : list string;
  GRegion : string;
  RecipientReference : string;
  OutputDestination : string;
  PolicyReference : string;
  MaximumUses : Z;
  Uses : Z;
  GCreatedAt : Time;
  ExpiresAt : Time;
  RevokedAt : option Time;
}.
#[export] Instance Grant_eq_dec : EqDecision Grant. Proof. solve_decision. Defined.

Definition with_use (g : Grant) (variants : list string) (uses : Z) (createdAt expiresAt : Time) (revokedAt : option Time) : Grant :=
  mk_grant (GrantID g) (GTenantID g) (GSubjectID g) (GVerificationID g) (EvidenceID g) (GRequirementKey g) (AuthorityID g) (ResponseID g)
    (CheckReference g) (GRunner g) (Purpose g) (Operation g) variants (GRegion g) (RecipientReference g) (OutputDestination g) (PolicyReference g)
    (MaximumUses g) uses createdAt expiresAt revokedAt.

Definition restoreGrant (g : Grant) : result Error Grant :=
  let variants := compact (sort_strings (PermittedVariants g)) in
  let r := with_use g variants (Uses g) (utc (GCreatedAt g)) (utc (ExpiresAt g)) (option_map utc (RevokedAt g)) in
  reject empty_string (GrantID r) || empty_string (GTenantID r) || empty_string (GSubjectID r) || empty_string (GVerificationID r) ||
         empty_string (EvidenceID r) || empty_string (AuthorityID r) || empty_string (ResponseID r) with ErrInvalid ;;
  reject negb (runner_valid (GRunner r)) || negb (validClassification (CheckReference r)) || negb (validClassification (Purpose r)) ||
         negb (validRequirementKey (GRequirementKey r)) || negb (String.eqb (Operation r) OperationPlaintextRead) ||
         negb (validClassification (GRegion r)) || negb (validClassification (RecipientReference r)) ||
         negb (validClassification (OutputDestination r)) || negb (validClassification (PolicyReference r)) with ErrInvalid ;;
  reject (llen (PermittedVariants g) =? 0) || (16 <? llen (PermittedVariants g)) with ErrInvalid ;;
  reject negb (forallb validClassification variants) with ErrInvalid ;;
  reject negb (existsb (String.eqb VariantOriginal) variants) with ErrInvalid ;;
  reject (MaximumUses r =? 0) || (maxGrantUses <? MaximumUses r) || (MaximumUses r <? Uses r) || is_zero (GCreatedAt r) ||
         negb (after (ExpiresAt r) (GCreatedAt r)) || (maxGrantLifetime <? sub (ExpiresAt r) (GCreatedAt r)) with ErrInvalid ;;
  reject match RevokedAt r with None => false | Some t => before t (GCreatedAt r) end with ErrInvalid ;;
  Ok r.

Definition NewGrant (g : Grant) : result Error Grant := restoreGrant (with_use g (PermittedVariants g) 0 (GCreatedAt g) (ExpiresAt g) None).

Definition ClaimedFor (g : Grant) (runner : Runner) (now : Time) : bool :=
  bool_decide (GRunner g = runner) && (0 <? Uses g) && (Uses g <=? MaximumUses g) && bool_decide (RevokedAt g = None) &&
  negb (before now (GCreatedAt g)) && before now (ExpiresAt g).

(** [Uses] is below [MaximumUses], so the increment does not wrap. *)
Definition Claim (g : Grant) (runner : Runner) (now : Time) : result Error Grant :=
  reject negb (bool_decide (runner = GRunner g)) || before now (GCreatedAt g) || negb (before now (ExpiresAt g)) ||
         negb (bool_decide (RevokedAt g = None)) || (MaximumUses g <=? Uses g) with ErrGrantDenied ;;
  Ok (with_use g (PermittedVariants g) (Uses g + 1) (GCreatedAt g) (ExpiresAt g) (RevokedAt g)).

Definition Revoke (g : Grant) (now : Time) : result Error Grant :=
  reject negb (bool_decide (RevokedAt g = None)) || before now (GCreatedAt g) with ErrGrantConflict ;;
  Ok (with_use g (PermittedVariants g) (Uses g) (GCreatedAt g) (ExpiresAt g) (Some (utc now))).

Definition Binds (g : Grant) (a : Record_) : bool :=
  String.eqb (GTenantID g) (TenantID a) && String.eqb (GSubjectID g) (SubjectID a) && String.eqb (GVerificationID g) (VerificationID a) &&
  String.eqb (EvidenceID g) (ID a) && String.eqb (GRequirementKey g) (RequirementKey a) && String.eqb (GRegion g) (Region a) &&
  String.eqb (Operation g) OperationPlaintextRead && existsb (String.eqb VariantOriginal) (PermittedVariants g).

(** ** Redemptions *)

Inductive GrantOutcome := GrantOutcomeBlank | GrantOutcomeSucceeded | GrantOutcomeDenied | GrantOutcomeIntegrityFailed | GrantOutcomeFailed |
  GrantOutcomeOther (raw : string).
#[export] Instance GrantOutcome_eq_dec : EqDecision GrantOutcome. Proof. solve_decision. Defined.
Definition validGrantOutcome (o : GrantOutcome) : bool := match o with GrantOutcomeBlank | GrantOutcomeOther _ => false | _ => true end.
Definition blank (o : GrantOutcome) : bool := bool_decide (o = GrantOutcomeBlank).

(** A pending attempt has the blank outcome. *)
Record Redemption := mk_redemption { RedemptionID : string; RGrant : Grant; ROutcome : GrantOutcome }.
#[export] Instance Redemption_eq_dec : EqDecision Redemption. Proof. solve_decision. Defined.

Definition RestoreRedemption (identifier : string) (claimed : Grant) (outcome : GrantOutcome) : result Error Redemption :=
  reject empty_string identifier || empty_string (GrantID claimed) || (Uses claimed =? 0) || (negb (blank outcome) && negb (validGrantOutcome outcome))
    with ErrInvalid ;;
  Ok (mk_redemption identifier claimed outcome).
Definition NewRedemption (identifier : string) (claimed : Grant) : result Error Redemption := RestoreRedemption identifier claimed GrantOutcomeBlank.

Definition Complete (r : Redemption) (outcome : GrantOutcome) : result Error Redemption :=
  if blank (ROutcome r) then RestoreRedemption (RedemptionID r) (RGrant r) outcome
  else if bool_decide (ROutcome r = outcome) then Ok r else Err ErrGrantConflict.

Definition ValidFor (r : Redemption) (grantID : string) (runner : Runner) (now : Time) : bool :=
  negb (empty_string (RedemptionID r) || negb (String.eqb (GrantID (RGrant r)) grantID) || negb (bool_decide (GRunner (RGrant r) = runner)) ||
        (Uses (RGrant r) =? 0)) &&
  if blank (ROutcome r) then ClaimedFor (RGrant r) runner now else validGrantOutcome (ROutcome r).

Record ReceiverBinding := mk_binding { BRunner : Runner; BCheckReference : string; BOutputDestination : string }.
Definition receiver_binds (b : ReceiverBinding) (g : Grant) : bool :=
  bool_decide (BRunner b = GRunner g) && String.eqb (BCheckReference b) (CheckReference g) && String.eqb (BOutputDestination b) (OutputDestination g).

(** ** The store of one tenant *)
Module EvidenceStore.

Record RedemptionRow := mk_redemption_row {
  RowGrant : string; RowRunner : Runner; ClaimedUse : option Z; RowDenial : option string; AttemptedAt : Time }.
#[export] Instance RedemptionRow_eq_dec : EqDecision RedemptionRow. Proof. solve_decision. Defined.
Record OutcomeRow := mk_outcome_row { OutcomeGrant : string; OutcomeValue : GrantOutcome; OutcomeDenial : option string; OutcomeAt : Time }.
#[export] Instance OutcomeRow_eq_dec : EqDecision OutcomeRow. Proof. solve_decision. Defined.
Record Attempt := mk_attempt { PresentedGrant : string; PresentedRedemption : string; PresentedRunner : Runner; AttemptDecision : string;
  AttemptDenial : option string; AttemptAt : Time }.
Record AuditRow := mk_audit { AuditID : string; AuditVersion : Z; AuditAction : string; AuditAt : Time }.

Record Database := mk_database {
  assets : gmap string Record_;
  grants : gmap string Grant;
  redemptions : gmap string RedemptionRow;
  outcomes : gmap string OutcomeRow;
  attempts : list Attempt;
  audit_rows : list AuditRow;
}.

Definition with_grants (db : Database) (gs : gmap string Grant) (a : AuditRow) : Database :=
  mk_database (assets db) gs (redemptions db) (outcomes db) (attempts db) (audit_rows db ++ [a]).
Definition insertGrantAccessAttempt (db : Database) (a : Attempt) : Database :=
  mk_database (assets db) (grants db) (redemptions db) (outcomes db) (attempts db ++ [a]) (audit_rows db).

Section Store.
Context (tenant : string) `{ContentLibraries} (resolve : Reference -> option Registry).

(** *** Assets *)

Definition restore_asset (row : Record_) : result Error Record_ :=
  match resolve (Registry_ row) with
  | None => Err ErrInvalid
  | Some registry => restoreAsset row registry
  end.

Definition Find (db : Database) (identifier : string) : result Error Record_ :=
  reject empty_string tenant || empty_string identifier with ErrNotFound ;;
  match assets db !! identifier with
  | None => Err ErrNotFound
  | Some row => restore_asset row
  end.

(** The columns a transition writes. *)
Definition transitioned (row a : Record_) : Record_ :=
  mk_record (ID row) (TenantID row) (SubjectID row) (VerificationID row) (RequirementKey row) (EvidenceType row) (Artefact row)
    (AcquisitionMethod row) (Assurances row) (Registry_ row) (Region row) (RetentionClass row) (ContentRevision row) (Content row)
    (Integrity_ a) (State_ a) (Version a) (CreatedAt row) (UpdatedAt a) (QuarantineReason a) (QuarantinedAt a).

Definition UpdateLifecycle (db : Database) (a : Record_) (expectedVersion : Z) (c : Commit) : result Error unit * Database :=
  transact ErrQuery db c (
    reject empty_string tenant || negb (String.eqb (TenantID a) tenant) with ErrNotFound ;;
    reject (expectedVersion <? 1) || negb (Version a =? wrap_int64 (expectedVersion + 1)) || negb (asset_state_is (State_ a) StateQuarantined) ||
           bool_decide (QuarantinedAt a = None) with ErrConflict ;;
    match assets db !! ID a with
    | None => Err ErrVersionConflict
    | Some row =>
        reject negb (Version row =? expectedVersion) || negb (asset_state_is (State_ row) StateAvailable) with ErrVersionConflict ;;
        let row' := transitioned row a in
        let? persisted := restore_asset row' in
        reject negb (Version persisted =? Version a) with ErrInvalid ;;
        Ok (tt, mk_database (<[ID a := row']> (assets db)) (grants db) (redemptions db) (outcomes db) (attempts db)
                  (audit_rows db ++ [mk_audit (ID a) (Version a) (if integrity_is (Integrity_ a) IntegrityFailed then "integrity_failed" else "quarantine")
                                       (UpdatedAt a)]))
    end).

Definition QuarantineIntegrity (db : Database) (a : Record_) (expectedVersion : Z) (c : Commit) : result Error unit * Database :=
  if negb (asset_state_is (State_ a) StateQuarantined) || negb (integrity_is (Integrity_ a) IntegrityFailed) || bool_decide (QuarantinedAt a = None)
  then (Err ErrConflict, db) else UpdateLifecycle db a expectedVersion c.

(** *** Grants *)

(** [restoreGrant] of the store, with the use of a redemption if one is given. *)
Definition restore_row (row : Grant) (claimedUse : option Z) : result Error Grant :=
  reject (MaximumUses row <=? 0) || (Uses row <? 0) || (MaximumUses row <? Uses row) with ErrInvalid ;;
  restoreGrant (with_use row (PermittedVariants row) (default (Uses row) claimedUse) (GCreatedAt row) (ExpiresAt row) (RevokedAt row)).

Definition CreateGrant (db : Database) (g : Grant) (attribution : CommandAttribution) (c : Commit) : result Error unit * Database :=
  transact ErrQuery db c (
    reject empty_string tenant || negb (String.eqb (GTenantID g) tenant) || negb (Uses g =? 0) || negb (bool_decide (RevokedAt g = None)) ||
           negb (attribution_valid attribution) with ErrGrantDenied ;;
    reject match grants db !! GrantID g with Some _ => true | None => false end with ErrQuery ;;
    Ok (tt, with_grants db (<[GrantID g := g]> (grants db)) (mk_audit (GrantID g) 1 "create" (GCreatedAt g)))).

Definition RevokeGrant (db : Database) (grantID : string) (attribution : CommandAttribution) (now : Time) (c : Commit) : result Error Grant * Database :=
  transact ErrQuery db c (
    reject empty_string tenant || empty_string grantID || negb (attribution_valid attribution) || is_zero now with ErrGrantDenied ;;
    match grants db !! grantID with
    | None => Err ErrGrantDenied
    | Some row =>
        let? g := restore_row row None in
        let? _ := Revoke g now in
        let updated := with_use row (PermittedVariants row) (Uses row) (GCreatedAt row) (ExpiresAt row) (Some now) in
        reject negb (bool_decide (RevokedAt row = None)) with ErrGrantConflict ;;
        let? revoked := restore_row updated None in
        Ok (revoked, with_grants db (<[grantID := updated]> (grants db)) (mk_audit grantID 2 "revoke" now))
    end).

(** *** Redemptions *)

Definition denialReason (g : Grant) (runner : Runner) (now : Time) : string :=
  if negb (bool_decide (runner = GRunner g)) then "runner_mismatch"
  else if before now (GCreatedAt g) then "not_started"
  else if negb (bool_decide (RevokedAt g = None)) then "revoked"
  else if negb (before now (ExpiresAt g)) then "expired"
  else "exhausted".

(** [None]: denied. *)
Definition restoreExistingRedemption (db : Database) (grantID redemptionID : string) (runner : Runner) (row : RedemptionRow)
  : result Error (option Redemption) :=
  if negb (String.eqb (RowGrant row) grantID) || negb (bool_decide (RowRunner row = runner)) || negb (bool_decide (RowDenial row = None)) ||
     bool_decide (ClaimedUse row = None) then Ok None
  else
    match grants db !! grantID with
    | None => Ok None
    | Some grantRow =>
        let? g := restore_row grantRow (ClaimedUse row) in
        let outcome := match outcomes db !! redemptionID with
                       | Some o => if String.eqb (OutcomeGrant o) grantID then OutcomeValue o else GrantOutcomeBlank
                       | None => GrantOutcomeBlank
                       end in
        let? r := RestoreRedemption redemptionID g outcome in
        Ok (Some r)
    end.

Definition replay_attempt (grantID redemptionID : string) (runner : Runner) (now : Time) (existing : RedemptionRow) (found : option Redemption) : Attempt :=
  match found with
  | None =>
      let reason := if String.eqb (RowGrant existing) grantID && bool_decide (RowRunner existing = runner)
                    then default "redemption_mismatch"%string (RowDenial existing) else "redemption_mismatch"%string in
      mk_attempt grantID redemptionID runner "denied" (Some reason) now
  | Some r => mk_attempt grantID redemptionID runner (if validGrantOutcome (ROutcome r) then "replayed_terminal" else "replayed_pending") None now
  end.

(** A refused claim is stored with its outcome; [ON CONFLICT DO NOTHING]. *)
Definition recordDeniedRedemption (db : Database) (grantID redemptionID : string) (runner : Runner) (reason : string) (now : Time) : Database :=
  mk_database (assets db) (grants db) (<[redemptionID := mk_redemption_row grantID runner None (Some reason) now]> (redemptions db))
    (match outcomes db !! redemptionID with
     | Some _ => outcomes db
     | None => <[redemptionID := mk_outcome_row grantID GrantOutcomeDenied (Some reason) now]> (outcomes db)
     end) (attempts db) (audit_rows db).

Definition claim_new (db : Database) (grantID redemptionID : string) (runner : Runner) (now : Time) : result Error (option Redemption * Database) :=
  let denied (db : Database) (reason : string) := insertGrantAccessAttempt db (mk_attempt grantID redemptionID runner "denied" (Some reason) now) in
  match grants db !! grantID with
  | None => Ok (None, denied db "not_found"%string)
  | Some row =>
      let? g := restore_row row None in
      match Claim g runner (utc now) with
      | Err _ =>
          let reason := denialReason g runner now in
          Ok (None, denied (recordDeniedRedemption db grantID redemptionID runner reason now) reason)
      | Ok claimed =>
          let updated := with_use row (PermittedVariants row) (Uses row + 1) (GCreatedAt row) (ExpiresAt row) (RevokedAt row) in
          let? persisted := restore_row updated None in
          reject negb (Uses persisted =? Uses claimed) with ErrInvalid ;;
          let? r := NewRedemption redemptionID persisted in
          Ok (Some r, insertGrantAccessAttempt
                (mk_database (assets db) (<[grantID := updated]> (grants db))
                   (<[redemptionID := mk_redemption_row grantID runner (Some (Uses updated)) None now]> (redemptions db)) (outcomes db) (attempts db)
                   (audit_rows db))
                (mk_attempt grantID redemptionID runner "claimed" None now))
      end
  end.

Definition claim_body (db : Database) (grantID redemptionID : string) (runner : Runner) (now : Time) : result Error (option Redemption * Database) :=
  reject empty_string tenant || empty_string grantID || empty_string redemptionID || negb (runner_valid runner) || is_zero now with ErrGrantDenied ;;
  match redemptions db !! redemptionID with
  | Some existing =>
      let? found := restoreExistingRedemption db grantID redemptionID runner existing in
      Ok (found, insertGrantAccessAttempt db (replay_attempt grantID redemptionID runner now existing found))
  | None => claim_new db grantID redemptionID runner now
  end.

Definition ClaimGrant (db : Database) (grantID redemptionID : string) (runner : Runner) (now : Time) (c : Commit) : result Error Redemption * Database :=
  match transact ErrQuery db c (claim_body db grantID redemptionID runner now) with
  | (Err e, db') => (Err e, db')
  | (Ok None, db') => (Err ErrGrantDenied, db')
  | (Ok (Some r), db') => (Ok r, db')
  end.

Definition createOrVerifyOutcome (db : Database) (r : Redemption) (outcome : GrantOutcome) (now : Time) : result Error (unit * Database) :=
  match outcomes db !! RedemptionID r with
  | None =>
      let denial := if bool_decide (outcome = GrantOutcomeDenied) then Some "post_claim_denied"%string else None in
      Ok (tt, mk_database (assets db) (grants db) (redemptions db)
                (<[RedemptionID r := mk_outcome_row (GrantID (RGrant r)) outcome denial now]> (outcomes db)) (attempts db) (audit_rows db))
  | Some existing =>
      reject negb (String.eqb (OutcomeGrant existing) (GrantID (RGrant r))) with ErrQuery ;;
      reject negb (bool_decide (OutcomeValue existing = outcome)) with ErrGrantConflict ;;
      Ok (tt, db)
  end.

Definition RecordGrantOutcome (db : Database) (r : Redemption) (outcome : GrantOutcome) (now : Time) (c : Commit) : result Error unit * Database :=
  transact ErrQuery db c (
    reject empty_string tenant || empty_string (RedemptionID r) || negb (String.eqb (GTenantID (RGrant r)) tenant) || is_zero now with ErrGrantDenied ;;
    let? _ := Complete r outcome in
    match redemptions db !! RedemptionID r with
    | None => Err ErrGrantDenied
    | Some row =>
        reject bool_decide (ClaimedUse row = None) || negb (bool_decide (RowDenial row = None)) || negb (String.eqb (RowGrant row) (GrantID (RGrant r))) ||
               negb (bool_decide (RowRunner row = GRunner (RGrant r))) || negb (bool_decide (ClaimedUse row = Some (Uses (RGrant r)))) with ErrGrantDenied ;;
        reject before now (AttemptedAt row) with ErrGrantConflict ;;
        createOrVerifyOutcome db r outcome now
    end).
End Store.
End EvidenceStore.

(** ** Issuing a grant and reading under it *)
Module EvidenceReader.
Import EvidenceStore.

Record AuthorizationDecision := mk_decision { DAuthorityID : string; DResponseID : string; DPolicyReference : string }.

Record GrantInput := mk_grant_input {
  InEvidenceID : string; InCheckReference : string; InRunner : Runner; InPurpose : Name; InPermittedVariants : list string;
  InRecipientReference : string; InOutputDestination : string; InMaximumUses : Z; TTL : Z; Attribution : CommandAttribution }.
Record ReadInput := mk_read_input { ReadGrant : string; ReadRedemption : string; ReadRunner : Runner }.

(** The effects of the collaborators that matter: what a receiver committed. *)
Record Delivery := mk_delivery { DeliveredRedemption : string; DeliveredGrant : string; DeliveredBinding : ReceiverBinding; DeliveredEvidence : string;
  DeliveredDigest : string }.

Inductive Op :=
| OpIssue (input : GrantInput)
| OpRead (input : ReadInput) (binding : ReceiverBinding)
| OpRevoke (grantID : string) (attribution : CommandAttribution).

Record Input := mk_input {
  crash : bool;
  op : Op;
  clock : Time;
  fresh : option string;
  (** The answers of the authoriser, of the object store ([None]: opened) and of
      the decryption (the digest of the plaintext), and whether the receiver commits. *)
  authority : option AuthorizationDecision;
  object_error : option Error;
  opened : result Error string;
  receiver_commits : bool;
  commit : Commit;
}.
Definition now (i : Input) : Time := utc (clock i).

Inductive Local :=
| Idle
| Issuing (input : GrantInput) (a : Record_)
| Claimed (input : ReadInput) (b : ReceiverBinding) (claimed_at : Time) (r : Redemption)
| Authorizing (b : ReceiverBinding) (r : Redemption) (a : Record_)
| Opening (b : ReceiverBinding) (r : Redemption) (a : Record_)
| Receiving (b : ReceiverBinding) (r : Redemption) (a : Record_)
| Recording (r : Redemption)
| Quarantining (r : Redemption) (failed : Record_) (expectedVersion : Z)
| Finishing (r : Redemption) (outcome : GrantOutcome) (cause : Error)
| Returned (answer : result Error unit).

Record Shared := mk_shared { store : Database; delivered : list Delivery }.

Definition integrity_fault (e : Error) : bool := match e with ErrContentIntegrity | ErrCiphertextIntegrity => true | _ => false end.
Definition plaintextDigestFailureReason : string := "evidence.integrity.plaintext_digest".
Definition ciphertextFailureReason : string := "evidence.integrity.ciphertext_object".

(** [failed] up to the call of the quarantiner. *)
Definition failed (r : Redemption) (a : Record_) (cause : Error) (now : Time) : Local :=
  if integrity_fault cause then
    let reason := if bool_decide (cause = ErrCiphertextIntegrity) then ciphertextFailureReason else plaintextDigestFailureReason in
    match FailIntegrity a (Version a) reason now with
    | Ok failed => Quarantining r failed (Version a)
    | Err _ => Finishing r GrantOutcomeFailed ErrQuarantineIncomplete
    end
  else Finishing r GrantOutcomeFailed cause.

Section Reader.
Context (tenant : string) `{ContentLibraries} (resolve : Reference -> option Registry) (maximumTTL : Z).

(** [Issue] up to the asset it was shown. *)
Definition issue_found (input : GrantInput) (db : Database) : Local :=
  if empty_string tenant || empty_string (InEvidenceID input) || (TTL input <=? 0) || negb (attribution_valid (Attribution input)) ||
     (maximumTTL <? TTL input) then Returned (Err ErrGrantDenied)
  else
    match Find tenant resolve db (InEvidenceID input) with
    | Err _ => Returned (Err ErrReadDenied)
    | Ok a => if CanRead a then Issuing input a else Returned (Err ErrReadDenied)
    end.

Definition issued_grant (input : GrantInput) (a : Record_) (decision : AuthorizationDecision) (identifier : string) (now : Time) : Grant :=
  mk_grant identifier tenant (SubjectID a) (VerificationID a) (ID a) (RequirementKey a) (DAuthorityID decision) (DResponseID decision)
    (InCheckReference input) (InRunner input) (InPurpose input) OperationPlaintextRead (InPermittedVariants input) (Region a)
    (InRecipientReference input) (InOutputDestination input) (DPolicyReference decision) (InMaximumUses input) 0 now (add now (TTL input)) None.

Definition issue_create (input : GrantInput) (a : Record_) (i : Input) (db : Database) : Local * Database :=
  match resolve (Registry_ a) with
  | None => (Returned (Err ErrReadDenied), db)
  | Some registry =>
      if bool_decide (InPurpose input ∈ purposes registry) then
        match authority i, fresh i with
        | None, _ => (Returned (Err ErrReadDenied), db)
        | Some _, None => (Returned (Err ErrQuery), db)
        | Some decision, Some identifier =>
            match NewGrant (issued_grant input a decision identifier (now i)) with
            | Err e => (Returned (Err e), db)
            | Ok g => let '(answer, db') := CreateGrant tenant db g (Attribution input) (commit i) in (Returned answer, db')
            end
        end
      else (Returned (Err ErrReadDenied), db)
  end.

(** [Read] up to the claim. *)
Definition read_claim (input : ReadInput) (b : ReceiverBinding) (i : Input) (db : Database) : Local * Database :=
  if empty_string tenant || empty_string (ReadGrant input) || empty_string (ReadRedemption input) then (Returned (Err ErrReadDenied), db)
  else
    match ClaimGrant tenant db (ReadGrant input) (ReadRedemption input) (ReadRunner input) (now i) (commit i) with
    | (Err _, db') => (Returned (Err ErrReadDenied), db')
    | (Ok r, db') => (Claimed input b (now i) r, db')
    end.

(** The checks of the claim, the terminal replay, and the asset. *)
Definition read_checked (input : ReadInput) (b : ReceiverBinding) (claimed_at : Time) (r : Redemption) (db : Database) : Local :=
  if negb (String.eqb (RedemptionID r) (ReadRedemption input)) || negb (String.eqb (GTenantID (RGrant r)) tenant) ||
     negb (ValidFor r (ReadGrant input) (ReadRunner input) claimed_at) || negb (receiver_binds b (RGrant r))
  then Finishing r GrantOutcomeDenied ErrReadDenied
  else if validGrantOutcome (ROutcome r) then
    Returned (if bool_decide (ROutcome r = GrantOutcomeSucceeded) then Ok tt else Err ErrReadDenied)
  else
    match Find tenant resolve db (EvidenceID (RGrant r)) with
    | Err _ => Finishing r GrantOutcomeDenied ErrReadDenied
    | Ok a => if CanRead a && Binds (RGrant r) a then Authorizing b r a else Finishing r GrantOutcomeDenied ErrReadDenied
    end.

Definition authorised (g : Grant) (decision : option AuthorizationDecision) : bool :=
  match decision with
  | None => false
  | Some d => String.eqb (DAuthorityID d) (AuthorityID g) && String.eqb (DResponseID d) (ResponseID g) && String.eqb (DPolicyReference d) (PolicyReference g)
  end.

(** [Receive]: a redemption committed before is only recorded again. *)
Definition receive (b : ReceiverBinding) (r : Redemption) (a : Record_) (i : Input) (s : Shared) : Local * Shared :=
  if existsb (fun d => String.eqb (DeliveredRedemption d) (RedemptionID r)) (delivered s) then (Recording r, s)
  else
    match opened i with
    | Err e => (failed r a e (now i), s)
    | Ok digest =>
        if negb (String.eqb digest (PlaintextDigest (Content a))) then (failed r a ErrContentIntegrity (now i), s)
        else if receiver_commits i
        then (Recording r, mk_shared (store s) (delivered s ++ [mk_delivery (RedemptionID r) (GrantID (RGrant r)) b (ID a) digest]))
        else (failed r a ErrQuery (now i), s)
    end.

Definition on_store (s : Shared) (step : Local * Database) : Local * Shared := (fst step, mk_shared (snd step) (delivered s)).

Definition work (l : Local) (i : Input) (s : Shared) : Local * Shared :=
  if crash i then (Idle, s)
  else
    match l with
    | Idle =>
        match op i with
        | OpIssue input => (issue_found input (store s), s)
        | OpRead input b => on_store s (read_claim input b i (store s))
        | OpRevoke grantID attribution =>
            let '(answer, db') := RevokeGrant tenant (store s) grantID attribution (now i) (commit i) in
            (Returned (let? _ := answer in Ok tt), mk_shared db' (delivered s))
        end
    | Issuing input a => on_store s (issue_create input a i (store s))
    | Claimed input b claimed_at r => (read_checked input b claimed_at r (store s), s)
    | Authorizing b r a => if authorised (RGrant r) (authority i) then (Opening b r a, s) else (Finishing r GrantOutcomeDenied ErrReadDenied, s)
    | Opening b r a => match object_error i with Some e => (failed r a e (now i), s) | None => (Receiving b r a, s) end
    | Receiving b r a => receive b r a i s
    | Recording r => on_store s (let '(answer, db') := RecordGrantOutcome tenant (store s) r GrantOutcomeSucceeded (now i) (commit i) in (Returned answer, db'))
    | Quarantining r a expected =>
        on_store s (match QuarantineIntegrity tenant resolve (store s) a expected (commit i) with
                    | (Ok _, db') => (Finishing r GrantOutcomeIntegrityFailed ErrContentIntegrity, db')
                    | (Err _, db') => (Finishing r GrantOutcomeFailed ErrQuarantineIncomplete, db')
                    end)
    | Finishing r outcome cause =>
        on_store s (let '(_, db') := RecordGrantOutcome tenant (store s) r outcome (now i) (commit i) in (Returned (Err cause), db'))
    | Returned _ => (Idle, s)
    end.

(** Any number of workers over the tables of the tenant, in any interleaving. *)
Record World := mk_world { shared : Shared; workers : list Local }.

Inductive world_step (w : World) : World -> Prop :=
| world_work k l i l' s' : workers w !! k = Some l -> work l i (shared w) = (l', s') -> world_step w (mk_world s' (<[k := l']> (workers w))).

(** A tenant with assets and no grant yet. *)
Definition start_world (rows : gmap string Record_) (n : nat) : World :=
  mk_world (mk_shared (mk_database rows ∅ ∅ ∅ [] []) []) (repeat Idle n).
End Reader.
End EvidenceReader.
