(* ===== verification/Registry.v ===== *)
(** * The evidence registry

    [internal/evidence/registry.go] and [catalog.go]: owner-namespaced names, the
    validated and immutable revisions of the evidence vocabulary with their canonical
    document and digest, the advertisement of capture capabilities, and the catalogue
    that resolves an exact reference, and the built-in revisions of [builtin.go].  [NewRegistry] sorts the slices it is given in
    place; the model returns them sorted.

    [encoding/json] is the class [RegistryLibraries], with the law that the documents
    of ASCII names have different encodings; [None] is an encoding error.  SHA-256 is
    that of [Content]. *)

From S2P Require Import Prelude GoTime Content Evidence.
From Stdlib Require Import Ascii.

(** ** Names *)

Inductive Kind := KindEvidence | KindArtefact | KindMethod | KindPurpose | KindAssurance | KindConstraint | KindOther (raw : string).
Definition kind_text (k : Kind) : string :=
  match k with
  | KindEvidence => "evidence" | KindArtefact => "artefact" | KindMethod => "method" | KindPurpose => "purpose" | KindAssurance => "assurance"
  | KindConstraint => "constraint" | KindOther raw => raw
  end.
Definition kind_valid (k : Kind) : bool := match k with KindOther _ => false | _ => true end.

Definition segment_tail (c : ascii) : bool := is_lower c || is_digit c || byte_in "_" "_" c.
Definition validSegment (value : string) : bool := match_head_tail is_lower segment_tail value.

Definition reservedNamespace : string := "idenqa".
Definition RegistrySchemaVersion : Z := 1.

Definition ParseName (kind : Kind) (value : string) : result Error Name :=
  reject negb (kind_valid kind) with ErrInvalid ;;
  let parts := split_on "." value in
  reject (llen parts <? 3) || negb (String.eqb (nth (length parts - 2)%nat parts "") (kind_text kind)) with ErrInvalid ;;
  reject (if String.eqb (nth 0 parts "") reservedNamespace then negb (llen parts =? 3) else llen parts <? 4) with ErrInvalid ;;
  reject negb (forallb validSegment parts) with ErrInvalid ;;
  Ok value.

(** ** Definitions *)

Inductive ValueKind := ValueString | ValueInteger | ValueBoolean | ValueStringList | ValueKindOther (raw : string).
#[export] Instance ValueKind_eq_dec : EqDecision ValueKind. Proof. solve_decision. Defined.
Definition value_kind_valid (k : ValueKind) : bool := match k with ValueKindOther _ => false | _ => true end.
Definition value_kind_is (a b : ValueKind) : bool := bool_decide (a = b).

Record Type_ := mk_type { TypeName : Name; TypeArtefacts : list Name }.
Record AcquisitionMethod := mk_method { MethodName : Name; Supports : list MethodSupport }.
Record ConstraintDefinition := mk_constraint { ConstraintName : Name; ConstraintKind : ValueKind; AppliesTo : list Name }.
Record Definitions := mk_definitions {
  DArtefacts : list Name; DEvidence : list Type_; DMethods : list AcquisitionMethod; DPurposes : list Name; DAssurances : list Name;
  DConstraints : list ConstraintDefinition }.

Record Vocabulary := mk_vocabulary {
  v_revision : Z; v_digest : string; v_artefacts : gset Name; v_evidence : gmap Name Type_; v_methods : gmap Name AcquisitionMethod;
  v_purposes : gset Name; v_assurances : gset Name; v_constraints : gmap Name ConstraintDefinition }.

Definition addName (kind : Kind) (destination : gset Name) (name : Name) : result Error (gset Name) :=
  let? _ := ParseName kind name in
  reject bool_decide (name ∈ destination) with ErrInvalid ;;
  Ok ({[name]} ∪ destination).

(** The loop of [validatedNames]: [seen] holds the names before. *)
Definition validated_name (kind : Kind) (allowed seen : gset Name) (name : Name) : result Error (gset Name) :=
  let? _ := ParseName kind name in
  reject negb (bool_decide (name ∈ allowed)) with ErrInvalid ;;
  reject bool_decide (name ∈ seen) with ErrInvalid ;;
  Ok ({[name]} ∪ seen).
Definition validatedNames (kind : Kind) (names : list Name) (allowed : gset Name) : result Error (list Name) :=
  let? _ := rfold (validated_name kind allowed) names ∅ in
  Ok (sort_strings names).

(** A definition under a name of its own. *)
Definition add_definition {A V : Type} (kind : Kind) (name : A -> Name) (value : A -> result Error V) (defined : gmap Name V) (a : A)
  : result Error (gmap Name V) :=
  let? _ := ParseName kind (name a) in
  reject bool_decide (is_Some (defined !! name a)) with ErrInvalid ;;
  let? v := value a in
  Ok (<[name a := v]> defined).

Definition validated_type (artefacts : gset Name) (definition : Type_) : result Error Type_ :=
  let? validated := validatedNames KindArtefact (TypeArtefacts definition) artefacts in
  reject llen validated =? 0 with ErrInvalid ;;
  Ok (mk_type (TypeName definition) validated).

Definition validated_support (types : gmap Name Type_) (assurances : gset Name) (state : gset Name * list MethodSupport) (support : MethodSupport)
  : result Error (gset Name * list MethodSupport) :=
  let '(seen, validated) := state in
  match types !! SupportEvidenceType support with
  | None => Err ErrInvalid
  | Some evidenceType =>
      reject bool_decide (SupportEvidenceType support ∈ seen) with ErrInvalid ;;
      let? artefacts := validatedNames KindArtefact (SupportArtefacts support) (list_to_set (TypeArtefacts evidenceType)) in
      reject llen artefacts =? 0 with ErrInvalid ;;
      let? established := validatedNames KindAssurance (SupportAssurances support) assurances in
      Ok ({[SupportEvidenceType support]} ∪ seen, validated ++ [mk_support (SupportEvidenceType support) artefacts established])
  end.
Definition validated_method (types : gmap Name Type_) (assurances : gset Name) (definition : AcquisitionMethod) : result Error AcquisitionMethod :=
  reject llen (Supports definition) =? 0 with ErrInvalid ;;
  let? validated := rfold (validated_support types assurances) (Supports definition) (∅, []) in
  Ok (mk_method (MethodName definition) validated.2).

Definition validated_constraint (types : gmap Name Type_) (definition : ConstraintDefinition) : result Error ConstraintDefinition :=
  reject negb (value_kind_valid (ConstraintKind definition)) with ErrInvalid ;;
  let? applies := validatedNames KindEvidence (AppliesTo definition) (dom types) in
  Ok (mk_constraint (ConstraintName definition) (ConstraintKind definition) applies).

(** ** The canonical document *)

Record RegistryDocument := mk_registry_document {
  doc_schema : Z; doc_revision : Z; doc_artefacts : list Name; doc_evidence : list Type_; doc_methods : list AcquisitionMethod;
  doc_purposes : list Name; doc_assurances : list Name; doc_constraints : list ConstraintDefinition }.

(** The entries of a map in the order of their names. *)
Definition entries {V : Type} (name : V -> Name) (defined : gmap Name V) : list V := sort_by name (map snd (map_to_list defined)).
Definition canonical_method (m : AcquisitionMethod) : AcquisitionMethod := mk_method (MethodName m) (sort_by SupportEvidenceType (Supports m)).

Definition canonicalDefinitions (v : Vocabulary) : RegistryDocument :=
  mk_registry_document RegistrySchemaVersion (v_revision v) (sort_strings (elements (v_artefacts v))) (entries TypeName (v_evidence v))
    (map canonical_method (entries MethodName (v_methods v))) (sort_strings (elements (v_purposes v))) (sort_strings (elements (v_assurances v)))
    (entries ConstraintName (v_constraints v)).

Definition ascii_text (s : string) : bool := string_forall (fun c => N.ltb (N_of_ascii c) 128) s.
Definition document_ascii (d : RegistryDocument) : bool :=
  forallb ascii_text (doc_artefacts d) && forallb ascii_text (doc_purposes d) && forallb ascii_text (doc_assurances d) &&
  forallb (fun t => ascii_text (TypeName t) && forallb ascii_text (TypeArtefacts t)) (doc_evidence d) &&
  forallb (fun m => ascii_text (MethodName m) &&
                    forallb (fun s => ascii_text (SupportEvidenceType s) && forallb ascii_text (SupportArtefacts s) && forallb ascii_text (SupportAssurances s))
                      (Supports m)) (doc_methods d) &&
  forallb (fun c => ascii_text (ConstraintName c) && value_kind_valid (ConstraintKind c) && forallb ascii_text (AppliesTo c)) (doc_constraints d).

Class RegistryLibraries `{ContentLibraries} := {
  marshal_registry : RegistryDocument -> option string;
  marshal_registry_inj d d' s : document_ascii d = true -> document_ascii d' = true ->
    marshal_registry d = Some s -> marshal_registry d' = Some s -> d = d';
}.

Section Registry.
Context `{RegistryLibraries}.

Definition vocabulary_of (revision : Z) (definitions : Definitions) : result Error Vocabulary :=
  let? artefacts := rfold (addName KindArtefact) (DArtefacts definitions) ∅ in
  let? purposes := rfold (addName KindPurpose) (DPurposes definitions) ∅ in
  let? assurances := rfold (addName KindAssurance) (DAssurances definitions) ∅ in
  let? types := rfold (add_definition KindEvidence TypeName (validated_type artefacts)) (DEvidence definitions) ∅ in
  let? methods := rfold (add_definition KindMethod MethodName (validated_method types assurances)) (DMethods definitions) ∅ in
  let? constraints := rfold (add_definition KindConstraint ConstraintName (validated_constraint types)) (DConstraints definitions) ∅ in
  Ok (mk_vocabulary revision "" artefacts types methods purposes assurances constraints).

Definition with_digest (v : Vocabulary) (digest : string) : Vocabulary :=
  mk_vocabulary (v_revision v) digest (v_artefacts v) (v_evidence v) (v_methods v) (v_purposes v) (v_assurances v) (v_constraints v).

Definition NewRegistry (revision : Z) (definitions : Definitions) : result Error Vocabulary :=
  reject revision =? 0 with ErrInvalid ;;
  let? v := vocabulary_of revision definitions in
  match marshal_registry (canonicalDefinitions v) with
  | None => Err ErrInvalid
  | Some canonical => Ok (with_digest v (Sum canonical))
  end.
End Registry.

Definition vocabulary_reference (v : Vocabulary) : Reference := mk_reference RegistrySchemaVersion (v_revision v) (v_digest v).

Definition Has (v : Vocabulary) (kind : Kind) (name : Name) : bool :=
  match kind with
  | KindArtefact => bool_decide (name ∈ v_artefacts v)
  | KindEvidence => bool_decide (is_Some (v_evidence v !! name))
  | KindMethod => bool_decide (is_Some (v_methods v !! name))
  | KindPurpose => bool_decide (name ∈ v_purposes v)
  | KindAssurance => bool_decide (name ∈ v_assurances v)
  | KindConstraint => bool_decide (is_Some (v_constraints v !! name))
  | KindOther _ => false
  end.

(** What assets and uploads read of a revision. *)
Definition asset_registry (v : Vocabulary) : Registry :=
  mk_registry (vocabulary_reference v) (TypeArtefacts <$> v_evidence v) (Supports <$> v_methods v) (v_purposes v).

(** ** Capabilities and the catalogue *)

Record Capabilities := mk_capabilities { CapabilityRegistry : Reference; CapabilityMethods : list Name }.

Definition ValidateCapabilities (v : Vocabulary) (c : Capabilities) : result Error unit :=
  reject negb (bool_decide (CapabilityRegistry c = vocabulary_reference v)) with ErrInvalid ;;
  let? _ := validatedNames KindMethod (CapabilityMethods c) (dom (v_methods v)) in
  Ok tt.

#[export] Instance Reference_countable : Countable Reference.
Proof.
  apply (inj_countable' (fun r => (SchemaVersion r, Revision r, RegistryDigest r)) (fun t => mk_reference t.1.1 t.1.2 t.2)). by intros [].
Defined.
Abbreviation Catalog := (gmap Reference Vocabulary).

Definition catalog_add (indexed : Catalog) (v : Vocabulary) : result Error Catalog :=
  let reference := vocabulary_reference v in
  reject (SchemaVersion reference =? 0) || (Revision reference =? 0) || empty_string (RegistryDigest reference) with ErrInvalid ;;
  reject bool_decide (is_Some (indexed !! reference)) with ErrInvalid ;;
  Ok (<[reference := v]> indexed).
Definition NewCatalog (registries : list Vocabulary) : result Error Catalog :=
  reject llen registries =? 0 with ErrInvalid ;;
  rfold catalog_add registries ∅.
Definition Resolve (catalog : Catalog) (reference : Reference) : result Error Vocabulary :=
  match catalog !! reference with Some v => Ok v | None => Err ErrNotFound end.

(** [Snapshots]: newest first. *)
Definition snapshots `{RegistryLibraries} (catalog : Catalog) : option (list (Reference * string)) :=
  s ← mapM (fun p => d ← marshal_registry (canonicalDefinitions p.2); Some (p.1, d)) (map_to_list catalog);
  Some (order_by (fun p => - Revision p.1)%Z s).

(** ** The built-in revisions: [builtin.go] *)

Definition ArtefactDocumentFront : Name := "idenqa.artefact.document_front".
Definition ArtefactDocumentBack : Name := "idenqa.artefact.document_back".
Definition ArtefactSelfieImage : Name := "idenqa.artefact.selfie_image".
Definition EvidenceDocumentImage : Name := "idenqa.evidence.document_image".
Definition EvidenceSelfieImage : Name := "idenqa.evidence.selfie_image".
Definition MethodFileUpload : Name := "idenqa.method.file_upload".
Definition MethodLiveCamera : Name := "idenqa.method.live_camera".
Definition PurposeIdentityVerification : Name := "idenqa.purpose.identity_verification".
Definition PurposeFraudPrevention : Name := "idenqa.purpose.fraud_prevention".
Definition AssuranceFreshness : Name := "idenqa.assurance.freshness".
Definition AssuranceLiveCapture : Name := "idenqa.assurance.live_capture".
Definition AssuranceCaptureIntegrity : Name := "idenqa.assurance.capture_integrity".
Definition AssurancePassiveLiveness : Name := "idenqa.assurance.passive_liveness".
Definition AssuranceActiveLiveness : Name := "idenqa.assurance.active_liveness".
Definition AssuranceFaceMatchOneToOne : Name := "idenqa.assurance.face_match_1to1".
Definition AssuranceDocumentAuthenticity : Name := "idenqa.assurance.document_authenticity".
Definition AssuranceCaptureQuality : Name := "idenqa.assurance.capture_quality".
Definition AssuranceMRZParsed : Name := "idenqa.assurance.mrz_parsed".
Definition AssuranceBarcodeParsed : Name := "idenqa.assurance.barcode_parsed".
Definition ConstraintAllowedCountries : Name := "idenqa.constraint.allowed_countries".
Definition ConstraintAllowedMedia : Name := "idenqa.constraint.allowed_media_types".
Definition ConstraintMaximumBytes : Name := "idenqa.constraint.maximum_bytes".

Definition camera_assurances : list Name := [AssuranceFreshness; AssuranceLiveCapture; AssuranceCaptureIntegrity].

Definition builtInDefinitions : Definitions :=
  mk_definitions [ArtefactDocumentFront; ArtefactDocumentBack; ArtefactSelfieImage]
    [mk_type EvidenceDocumentImage [ArtefactDocumentFront; ArtefactDocumentBack]; mk_type EvidenceSelfieImage [ArtefactSelfieImage]]
    [mk_method MethodFileUpload
       [mk_support EvidenceDocumentImage [ArtefactDocumentFront; ArtefactDocumentBack] []; mk_support EvidenceSelfieImage [ArtefactSelfieImage] []];
     mk_method MethodLiveCamera
       [mk_support EvidenceDocumentImage [ArtefactDocumentFront; ArtefactDocumentBack] camera_assurances;
        mk_support EvidenceSelfieImage [ArtefactSelfieImage] camera_assurances]]
    [PurposeIdentityVerification]
    (camera_assurances ++ [AssurancePassiveLiveness; AssuranceActiveLiveness])
    [mk_constraint ConstraintAllowedCountries ValueStringList [EvidenceDocumentImage]; mk_constraint ConstraintAllowedMedia ValueStringList [];
     mk_constraint ConstraintMaximumBytes ValueInteger []].

(** More assurances and purposes. *)
Definition extended (d : Definitions) (assurances purposes : list Name) : Definitions :=
  mk_definitions (DArtefacts d) (DEvidence d) (DMethods d) (DPurposes d ++ purposes) (DAssurances d ++ assurances) (DConstraints d).
Definition check_assurances : list Name :=
  [AssuranceFaceMatchOneToOne; AssuranceDocumentAuthenticity; AssuranceCaptureQuality; AssuranceMRZParsed; AssuranceBarcodeParsed].
Definition panAfricanDefinitions : Definitions := extended builtInDefinitions check_assurances [].
Definition fraudDefinitions : Definitions := extended builtInDefinitions check_assurances [PurposeFraudPrevention].

Section BuiltIn.
Context `{RegistryLibraries}.

Definition BuiltInRegistry : result Error Vocabulary := NewRegistry 1 builtInDefinitions.
Definition PanAfricanRegistry : result Error Vocabulary := NewRegistry 2 panAfricanDefinitions.
Definition FraudRegistry : result Error Vocabulary := NewRegistry 3 fraudDefinitions.

Definition BuiltInCatalog : result Error Catalog :=
  let? first := BuiltInRegistry in
  let? second := PanAfricanRegistry in
  let? third := FraudRegistry in
  NewCatalog [first; second; third].
End BuiltIn.

(** ** What a reference pins *)
Module RegistrySpec.


Lemma segment_ascii (s : string) : validSegment s = true -> ascii_text s = true.
Proof.
  unfold validSegment, ascii_text. destruct s as [|c s]; [done|]. cbn [match_head_tail]. intros [Hc Hs]%andb_true_iff. cbn. apply andb_true_iff. split.
  - unfold is_lower, byte_in in Hc. apply andb_true_iff in Hc as [_ Hc]. apply N.leb_le in Hc. apply N.ltb_lt. cbn in Hc. lia.
  - revert Hs. apply string_forall_impl. intros x. unfold segment_tail, is_lower, is_digit, byte_in. intros Hx. apply N.ltb_lt. bprop.
    repeat match goal with H : _ \/ _ |- _ => destruct H | H : _ || _ = true |- _ => apply orb_true_iff in H | H : _ && _ = true |- _ => apply andb_true_iff in H; destruct H end;
    match goal with H : (N_of_ascii x <=? _)%N = true |- _ => apply N.leb_le in H; cbn in H; lia end.
Qed.

Lemma ParseName_Ok kind value name : ParseName kind value = Ok name -> name = value /\ ascii_text value = true.
Proof.
  unfold ParseName. intros Hp. go_inv Hp. bprop. split; [done|].
  apply (split_from_bytes _ "." name "").
  - done.
  - apply List.forallb_forall. intros x Hx. apply segment_ascii. match goal with Hf : forallb _ _ = true |- _ => apply (proj1 (List.forallb_forall _ _) Hf x Hx) end.
Qed.
Lemma addName_Ok kind s name s' : addName kind s name = Ok s' -> name ∉ s /\ ascii_text name = true /\ s' = {[name]} ∪ s.
Proof. unfold addName. intros Ha. go_inv Ha. bprop. by apply ParseName_Ok in Hv as [_ Hv]. Qed.

Lemma added_names kind names s s' : rfold (addName kind) names s = Ok s' -> (forall x, x ∈ s -> ascii_text x = true) -> forall x, x ∈ s' -> ascii_text x = true.
Proof.
  intros Hf Hs. apply (rfold_invariant _ (fun s => forall x, x ∈ s -> ascii_text x = true) _ _ _ Hf Hs). intros t x t' _ Ht (_ & Hx & ->)%addName_Ok y Hy. set_solver.
Qed.

Lemma validatedNames_Ok kind names allowed l : validatedNames kind names allowed = Ok l ->
  l = sort_strings names /\ NoDup names /\ forall x, x ∈ names -> x ∈ allowed /\ ascii_text x = true.
Proof.
  unfold validatedNames. intros Hv. go_inv Hv. split; [done|].
  assert (Hgen : forall seen s', rfold (validated_name kind allowed) names seen = Ok s' ->
    NoDup names /\ (forall x, x ∈ names -> x ∉ seen /\ x ∈ allowed /\ ascii_text x = true)).
  { clear Hv0. clear v. induction names as [|x names IH]; intros seen s' Hr; [split; [constructor|set_solver]|]. cbn [rfold] in Hr. apply rbind_Ok in Hr as (t & Hstep & Hr).
    unfold validated_name in Hstep. go_inv Hstep. bprop. apply ParseName_Ok in Hv as [_ Hx]. apply IH in Hr as [Hn Hr]. split.
    - constructor; [|done]. intros Hin. apply Hr in Hin. set_solver.
    - intros y Hy. apply elem_of_cons in Hy as [->|Hy]; [done|]. apply Hr in Hy. set_solver. }
  apply Hgen in Hv0 as [Hn Hx]. split; [done|]. intros x Hin. by apply Hx.
Qed.

Lemma sorted_names kind names allowed l : validatedNames kind names allowed = Ok l -> NoDup l /\ forall x, x ∈ l -> x ∈ allowed /\ ascii_text x = true.
Proof.
  intros (-> & Hn & Hx)%validatedNames_Ok. split; [by apply sort_strings_NoDup|]. intros x Hin. apply Hx. by apply elem_of_sort_strings.
Qed.

(** Every entry of a map built by definitions. *)
Lemma added_definitions {A V : Type} kind (name : A -> Name) (value : A -> result Error V) (P : Name -> V -> Prop) definitions m :
  rfold (add_definition kind name value) definitions ∅ = Ok m ->
  (forall a v, value a = Ok v -> ascii_text (name a) = true -> P (name a) v) -> forall k v, m !! k = Some v -> P k v.
Proof.
  intros Hf HP. apply (rfold_invariant _ (fun m => forall k v, m !! k = Some v -> P k v) _ _ _ Hf); [by intros k v Hk; rewrite lookup_empty in Hk|].
  intros t x t' _ Ht Hx k v Hk. unfold add_definition in Hx. go_inv Hx. apply lookup_insert_Some in Hk as [[<- <-]|[_ Hk]]; [|by apply Ht].
  apply ParseName_Ok in Hv as [_ Hv]. by apply HP.
Qed.

Definition support_ok (v : Vocabulary) (s : MethodSupport) : Prop :=
  exists t, v_evidence v !! SupportEvidenceType s = Some t /\ SupportArtefacts s <> [] /\ NoDup (SupportArtefacts s) /\
    (forall a, a ∈ SupportArtefacts s -> a ∈ TypeArtefacts t) /\ (forall a, a ∈ SupportAssurances s -> a ∈ v_assurances v).

(** What every registry revision keeps. *)
Record vocabulary_ok (v : Vocabulary) : Prop := mk_vocabulary_ok {
  ok_names : forall x, x ∈ v_artefacts v \/ x ∈ v_purposes v \/ x ∈ v_assurances v -> ascii_text x = true;
  ok_types : forall k t, v_evidence v !! k = Some t ->
    TypeName t = k /\ ascii_text k = true /\ TypeArtefacts t <> [] /\ NoDup (TypeArtefacts t) /\ forall a, a ∈ TypeArtefacts t -> a ∈ v_artefacts v;
  ok_methods : forall k m, v_methods v !! k = Some m ->
    MethodName m = k /\ ascii_text k = true /\ Supports m <> [] /\ NoDup (map SupportEvidenceType (Supports m)) /\ Forall (support_ok v) (Supports m);
  ok_constraints : forall k c, v_constraints v !! k = Some c ->
    ConstraintName c = k /\ ascii_text k = true /\ value_kind_valid (ConstraintKind c) = true /\ forall t, t ∈ AppliesTo c -> is_Some (v_evidence v !! t);
}.

Lemma llen_nonzero {A : Type} (l : list A) : llen l <> 0 -> l <> [].
Proof. by intros H ->. Qed.

Definition supports_ok (v : Vocabulary) (s : gset Name * list MethodSupport) : Prop :=
  (forall x, x ∈ map SupportEvidenceType s.2 -> x ∈ s.1) /\ NoDup (map SupportEvidenceType s.2) /\ Forall (support_ok v) s.2.

Lemma validated_support_ok v s x s' : validated_support (v_evidence v) (v_assurances v) s x = Ok s' -> supports_ok v s ->
  supports_ok v s' /\ length s'.2 = S (length s.2).
Proof.
  unfold validated_support. intros Hx (Hin & Hn & Hf). destruct s as [seen validated]. cbn [fst snd] in *. destruct (v_evidence v !! _) as [t|] eqn:Ht; [|done].
  go_inv Hx. bprop. apply sorted_names in Hv as [Hn1 Ha]. apply sorted_names in Hv0 as [_ Has]. unfold supports_ok. cbn [fst snd].
  split; [|rewrite length_app; cbn; lia]. split; [|split].
  - intros y. rewrite map_app, elem_of_app. cbn. set_solver.
  - rewrite map_app. apply NoDup_app. split; [done|]. split; [|cbn; apply NoDup_singleton]. intros y Hy ->%list_elem_of_singleton. set_solver.
  - apply Forall_app. split; [done|]. constructor; [|done]. exists t. cbn. split; [done|]. split; [by apply llen_nonzero|]. split; [done|].
    split; intros a Ha'; [apply Ha, proj1 in Ha'; set_solver|by apply Has].
Qed.

Lemma validated_supports_ok v supports : forall s s', rfold (validated_support (v_evidence v) (v_assurances v)) supports s = Ok s' -> supports_ok v s ->
  supports_ok v s' /\ length s'.2 = (length s.2 + length supports)%nat.
Proof.
  induction supports as [|x supports IH]; intros s s' Hr Hs; cbn [rfold] in Hr; [injection Hr as <-; split; [done|cbn; lia]|].
  apply rbind_Ok in Hr as (t & Hx & Hr). apply validated_support_ok in Hx as [Ht Hl]; [|done]. apply IH in Hr as [Hs' Hl']; [|done].
  split; [done|]. rewrite Hl', Hl. cbn. lia.
Qed.

Lemma validated_method_ok v definition m : validated_method (v_evidence v) (v_assurances v) definition = Ok m ->
  MethodName m = MethodName definition /\ Supports m <> [] /\ NoDup (map SupportEvidenceType (Supports m)) /\ Forall (support_ok v) (Supports m).
Proof.
  unfold validated_method. intros Hm. go_inv Hm. bprop. cbn [MethodName Supports]. split; [done|].
  apply validated_supports_ok in Hv as [(_ & Hn & Hf) Hlen]; [|repeat split; [set_solver|constructor|constructor]].
  split; [|done]. intros Hnil. rewrite Hnil in Hlen. cbn in Hlen. destruct (Supports definition); [done|cbn in Hlen; lia].
Qed.

Lemma vocabulary_of_ok revision definitions v : vocabulary_of revision definitions = Ok v -> vocabulary_ok v.
Proof.
  unfold vocabulary_of. intros Hv. go_inv Hv. split; cbn [v_artefacts v_purposes v_assurances v_evidence v_methods v_constraints].
  - intros x [Hx|[Hx|Hx]]; [by eapply (added_names _ _ _ _ Hv0)|by eapply (added_names _ _ _ _ Hv1)|by eapply (added_names _ _ _ _ Hv2)].
  - apply (added_definitions _ _ _ _ _ _ Hv3). intros a t Ht Ha. unfold validated_type in Ht. go_inv Ht. bprop. apply sorted_names in Hv as [Hn Hin].
    cbn. split; [done|]. split; [done|]. split; [by apply llen_nonzero|]. split; [done|]. intros x Hx. by apply Hin.
  - apply (added_definitions _ _ _ _ _ _ Hv4). intros a m Hm Ha.
    by destruct (validated_method_ok (mk_vocabulary revision "" v0 v3 v4 v1 v2 v5) _ _ Hm) as (-> & ? & ? & ?).
  - apply (added_definitions _ _ _ _ _ _ Hv5). intros a c Hc Ha. unfold validated_constraint in Hc. go_inv Hc. bprop. apply sorted_names in Hv as [_ Hin].
    cbn. split; [done|]. split; [done|]. split; [done|]. intros t Ht. apply elem_of_dom. by apply Hin.
Qed.

(** *** The canonical document determines the revision *)

Lemma elem_of_entries {V : Type} (name : V -> Name) (m : gmap Name V) v : v ∈ entries name m <-> exists k, m !! k = Some v.
Proof.
  unfold entries. rewrite elem_of_sort_by, list_elem_of_In, in_map_iff. split.
  - intros ([k x] & <- & Hin). exists k. by apply elem_of_map_to_list, list_elem_of_In.
  - intros [k Hk]. exists (k, v). split; [done|]. by apply list_elem_of_In, elem_of_map_to_list.
Qed.

Lemma entries_pin {V W : Type} (name : V -> Name) (view : V -> W) (viewed : W -> Name) (m m' : gmap Name V) :
  (forall v, viewed (view v) = name v) -> (forall k v, m !! k = Some v -> name v = k) -> (forall k v, m' !! k = Some v -> name v = k) ->
  map view (entries name m) = map view (entries name m') -> forall k, view <$> m !! k = view <$> m' !! k.
Proof.
  intros Hview Hm Hm' He.
  assert (Hone : forall n n', (forall k v, n !! k = Some v -> name v = k) -> (forall k v, n' !! k = Some v -> name v = k) ->
    map view (entries name n) = map view (entries name n') -> forall k v, n !! k = Some v -> exists v', n' !! k = Some v' /\ view v = view v').
  { intros n n' Hn Hn' Hnn k v Hk. assert (Hin : In (view v) (map view (entries name n))) by (apply in_map, list_elem_of_In, elem_of_entries; eauto).
    rewrite Hnn in Hin. apply in_map_iff in Hin as (v' & Hv & [k' Hk']%list_elem_of_In%elem_of_entries). exists v'. split; [|done].
    enough (k' = k) as <- by done. rewrite <- (Hn' k' v' Hk'), <- (Hn k v Hk), <- !Hview. by f_equal. }
  intros k. destruct (m !! k) as [v|] eqn:Hk.
  - destruct (Hone m m' Hm Hm' He k v Hk) as (v' & -> & Hv). cbn. by f_equal.
  - destruct (m' !! k) as [v'|] eqn:Hk'; [|done]. destruct (Hone m' m Hm' Hm (eq_sym He) k v' Hk') as (v & Hv & _). congruence.
Qed.

Lemma elements_pin (x y : gset Name) : sort_strings (elements x) = sort_strings (elements y) -> x = y.
Proof.
  intros He. apply set_eq. intros a. rewrite <- !elem_of_elements, <- (elem_of_sort_strings a (elements x)), <- (elem_of_sort_strings a (elements y)). by rewrite He.
Qed.

(** Two revisions that answer every question alike; the supports of a method are a
    set. *)
Record same_answers (v v' : Vocabulary) : Prop := mk_same_answers {
  same_artefacts : v_artefacts v = v_artefacts v';
  same_purposes : v_purposes v = v_purposes v';
  same_assurances : v_assurances v = v_assurances v';
  same_types : v_evidence v = v_evidence v';
  same_constraints : v_constraints v = v_constraints v';
  same_methods : forall k, canonical_method <$> v_methods v !! k = canonical_method <$> v_methods v' !! k;
}.

Lemma canonical_pins v v' : vocabulary_ok v -> vocabulary_ok v' -> canonicalDefinitions v = canonicalDefinitions v' -> same_answers v v'.
Proof.
  intros [_ Ht Hm Hc] [_ Ht' Hm' Hc'] He. injection He as _ Ha He Hme Hp Has Hce. split; [by apply elements_pin..| | |].
  - apply map_eq. intros k. assert (Hp' : id <$> v_evidence v !! k = id <$> v_evidence v' !! k).
    { apply (entries_pin TypeName id TypeName); [done|intros; by eapply Ht|intros; by eapply Ht'|by rewrite !map_id]. } by rewrite !option_fmap_id in Hp'.
  - apply map_eq. intros k. assert (Hp' : id <$> v_constraints v !! k = id <$> v_constraints v' !! k).
    { apply (entries_pin ConstraintName id ConstraintName); [done|intros; by eapply Hc|intros; by eapply Hc'|by rewrite !map_id]. } by rewrite !option_fmap_id in Hp'.
  - apply (entries_pin MethodName canonical_method MethodName); [done|intros; by eapply Hm|intros; by eapply Hm'|done].
Qed.

Lemma forallb_elem {A : Type} (p : A -> bool) (l : list A) : (forall x, x ∈ l -> p x = true) -> forallb p l = true.
Proof. intros Hp. apply List.forallb_forall. intros x Hx. by apply Hp, list_elem_of_In. Qed.

Lemma canonical_ascii v : vocabulary_ok v -> document_ascii (canonicalDefinitions v) = true.
Proof.
  intros [Hn Ht Hm Hc]. unfold document_ascii, canonicalDefinitions. cbn [doc_artefacts doc_evidence doc_methods doc_purposes doc_assurances doc_constraints].
  repeat (apply andb_true_iff; split); apply forallb_elem; intros x Hx;
    try (apply Hn; rewrite elem_of_sort_strings, elem_of_elements in Hx; by auto).
  - apply elem_of_entries in Hx as [k Hk]. destruct (Ht k x Hk) as (Hname & Hk' & _ & _ & Ha). cbv beta. rewrite Hname, Hk'. apply forallb_elem. intros a Hin. apply Hn. left. by apply Ha.
  - rewrite list_elem_of_In in Hx. apply in_map_iff in Hx as (m & <- & [k Hk]%list_elem_of_In%elem_of_entries). destruct (Hm k m Hk) as (Hname & Hk' & _ & _ & Hs).
    cbn [canonical_method MethodName Supports]. rewrite Hname, Hk'. apply forallb_elem. intros s Hs'. apply elem_of_sort_by in Hs'. rewrite Forall_forall in Hs. destruct (Hs s Hs') as (t & Hlook & _ & _ & Ha & Has).
    destruct (Ht _ _ Hlook) as (_ & Hty & _ & _ & Hta). cbv beta. rewrite Hty. cbn [andb]. apply andb_true_iff. split; apply forallb_elem; intros a Hin; apply Hn; [left; by apply Hta, Ha|do 2 right; by apply Has].
  - apply elem_of_entries in Hx as [k Hk]. destruct (Hc k x Hk) as (Hname & Hk' & Hkind & Ha). cbv beta. rewrite Hname, Hk', Hkind. apply forallb_elem. intros t Hin. apply Ha in Hin as [ty Hty]. by destruct (Ht t ty Hty) as (_ & Hx & _).
Qed.

(** *** The order of definitions does not matter *)

Definition same_type (a b : Type_) : Prop := TypeName a = TypeName b /\ TypeArtefacts a ≡ₚ TypeArtefacts b.
Definition same_support (a b : MethodSupport) : Prop :=
  SupportEvidenceType a = SupportEvidenceType b /\ SupportArtefacts a ≡ₚ SupportArtefacts b /\ SupportAssurances a ≡ₚ SupportAssurances b.
Definition same_method (a b : AcquisitionMethod) : Prop := MethodName a = MethodName b /\ Forall2 same_support (Supports a) (Supports b).
Definition same_constraint (a b : ConstraintDefinition) : Prop :=
  ConstraintName a = ConstraintName b /\ ConstraintKind a = ConstraintKind b /\ AppliesTo a ≡ₚ AppliesTo b.

(** The same definitions in another order. *)
Definition reordered {A : Type} (same : A -> A -> Prop) (l k : list A) : Prop := exists m, Forall2 same l m /\ m ≡ₚ k.
Record same_definitions (d d' : Definitions) : Prop := mk_same_definitions {
  sd_artefacts : DArtefacts d ≡ₚ DArtefacts d';
  sd_purposes : DPurposes d ≡ₚ DPurposes d';
  sd_assurances : DAssurances d ≡ₚ DAssurances d';
  sd_types : reordered same_type (DEvidence d) (DEvidence d');
  sd_methods : reordered same_method (DMethods d) (DMethods d');
  sd_constraints : reordered same_constraint (DConstraints d) (DConstraints d');
}.

(** Results whose only error is [ErrInvalid]. *)
Definition plain {A : Type} (r : result Error A) : Prop := r = Err ErrInvalid \/ exists a, r = Ok a.
Create HintDb plain.
Lemma plain_Ok {A : Type} (a : A) : plain (Ok a).
Proof. right. by exists a. Qed.
Lemma plain_reject {A : Type} (c : bool) (k : result Error A) : plain k -> plain (if c then Err ErrInvalid else k).
Proof. destruct c; [by left|done]. Qed.
Lemma plain_bind {A B : Type} (r : result Error A) (f : A -> result Error B) : plain r -> (forall a, plain (f a)) -> plain (rbind r f).
Proof. intros [->|[a ->]] Hf; [by left|apply Hf]. Qed.
Lemma plain_rfold {A S : Type} (f : S -> A -> result Error S) xs : (forall s x, plain (f s x)) -> forall s, plain (rfold f xs s).
Proof. intros Hf. induction xs as [|x xs IH]; intros s; cbn [rfold]; [apply plain_Ok|by apply plain_bind]. Qed.
Hint Resolve plain_Ok plain_reject plain_bind : plain.

Lemma ParseName_plain kind value : plain (ParseName kind value).
Proof. unfold ParseName. cbv zeta. auto with plain. Qed.
Hint Resolve ParseName_plain : plain.
Lemma validatedNames_plain kind names allowed : plain (validatedNames kind names allowed).
Proof. apply plain_bind; [|auto with plain]. apply plain_rfold. intros s x. unfold validated_name. auto 7 with plain. Qed.
Hint Resolve validatedNames_plain : plain.
Lemma validated_type_plain artefacts a : plain (validated_type artefacts a).
Proof. unfold validated_type. auto with plain. Qed.
Lemma validated_method_plain types assurances a : plain (validated_method types assurances a).
Proof.
  unfold validated_method. apply plain_reject, plain_bind; [|auto with plain]. apply plain_rfold. intros [seen validated] x. unfold validated_support.
  destruct (types !! _); [|by left]. auto 9 with plain.
Qed.
Lemma validated_constraint_plain types a : plain (validated_constraint types a).
Proof. unfold validated_constraint. auto with plain. Qed.

(** Names are added, and definitions under names of their own, in any order. *)
Lemma member_other (s : gset Name) (x y : Name) : x <> y -> bool_decide (y ∈ {[x]} ∪ s) = bool_decide (y ∈ s).
Proof. intros Hne. apply bool_decide_ext. set_solver. Qed.
Lemma add_both (s : gset Name) (x y : Name) : {[y]} ∪ ({[x]} ∪ s) = {[x]} ∪ ({[y]} ∪ s).
Proof. set_solver. Qed.

Lemma addName_comm kind s x y : rbind (addName kind s x) (fun t => addName kind t y) = rbind (addName kind s y) (fun t => addName kind t x).
Proof.
  destruct (decide (x = y)) as [->|Hne]; [done|]. unfold addName.
  destruct (ParseName_plain kind x) as [Hx|[a Hx]], (ParseName_plain kind y) as [Hy|[b Hy]]; rewrite ?Hx, ?Hy; cbn [rbind]; [done|by case_bool_decide..|].
  destruct (bool_decide (x ∈ s)) eqn:Hxs, (bool_decide (y ∈ s)) eqn:Hys; cbn [rbind]; rewrite ?member_other, ?Hxs, ?Hys by done; [done..|]. by rewrite add_both.
Qed.

Lemma validated_name_comm kind allowed s x y :
  rbind (validated_name kind allowed s x) (fun t => validated_name kind allowed t y) = rbind (validated_name kind allowed s y) (fun t => validated_name kind allowed t x).
Proof.
  destruct (decide (x = y)) as [->|Hne]; [done|]. unfold validated_name.
  destruct (ParseName_plain kind x) as [Hx|[a Hx]], (ParseName_plain kind y) as [Hy|[b Hy]]; rewrite ?Hx, ?Hy; cbn [rbind]; [done| | |].
  - by destruct (negb (bool_decide (y ∈ allowed))), (bool_decide (y ∈ s)).
  - by destruct (negb (bool_decide (x ∈ allowed))), (bool_decide (x ∈ s)).
  - destruct (negb (bool_decide (x ∈ allowed))), (negb (bool_decide (y ∈ allowed))); cbn [rbind]; [done|by case_bool_decide..|].
    destruct (bool_decide (x ∈ s)) eqn:Hxs, (bool_decide (y ∈ s)) eqn:Hys; cbn [rbind]; rewrite ?member_other, ?Hxs, ?Hys by done; [done..|]. by rewrite add_both.
Qed.

Lemma add_definition_comm {A V : Type} kind (name : A -> Name) (value : A -> result Error V) (Hvalue : forall a, plain (value a)) m x y :
  rbind (add_definition kind name value m x) (fun t => add_definition kind name value t y) =
  rbind (add_definition kind name value m y) (fun t => add_definition kind name value t x).
Proof.
  unfold add_definition.
  destruct (ParseName_plain kind (name x)) as [Hx|[a Hx]], (ParseName_plain kind (name y)) as [Hy|[b Hy]]; rewrite ?Hx, ?Hy; cbn [rbind]; [done| | |].
  - case_bool_decide; [done|]. by destruct (Hvalue y) as [->|[v ->]].
  - case_bool_decide; [done|]. by destruct (Hvalue x) as [->|[v ->]].
  - destruct (Hvalue x) as [Hvx|[v Hvx]], (Hvalue y) as [Hvy|[u Hvy]]; rewrite ?Hvx, ?Hvy; destruct (decide (name x = name y)) as [He|He].
    all: try rewrite He; destruct (bool_decide (is_Some (m !! name x))) eqn:Hmx, (bool_decide (is_Some (m !! name y))) eqn:Hmy; cbn [rbind];
      rewrite ?lookup_insert_eq, ?lookup_insert_ne, ?Hmx, ?Hmy by done; cbn [rbind]; try done; try (by rewrite He in *; congruence).
    f_equal. by apply insert_insert_ne.
Qed.

Lemma validatedNames_perm kind names names' allowed : names ≡ₚ names' -> validatedNames kind names allowed = validatedNames kind names' allowed.
Proof.
  intros Hp. unfold validatedNames. rewrite (rfold_perm _ names names' Hp (validated_name_comm kind allowed)). by rewrite (sort_strings_unique names names' Hp).
Qed.

Lemma rfold_same {A S : Type} (f : S -> A -> result Error S) (same : A -> A -> Prop) xs ys :
  Forall2 same xs ys -> (forall s x y, same x y -> f s x = f s y) -> forall s, rfold f xs s = rfold f ys s.
Proof. induction 1 as [|x y xs ys Hxy _ IH]; intros Hf s; cbn [rfold]; [done|]. rewrite (Hf s x y Hxy). destruct (f s y); cbn; [by apply IH|done]. Qed.

Lemma add_reordered {A V : Type} kind (name : A -> Name) (value : A -> result Error V) (same : A -> A -> Prop) l k :
  reordered same l k -> (forall a, plain (value a)) -> (forall x y, same x y -> name x = name y /\ value x = value y) ->
  forall m, rfold (add_definition kind name value) l m = rfold (add_definition kind name value) k m.
Proof.
  intros (l' & Hs & Hp) Hplain Hsame m. rewrite (rfold_same _ same l l' Hs).
  - apply (rfold_perm _ l' k Hp). by apply add_definition_comm.
  - intros s x y [Hn Hv]%Hsame. unfold add_definition. by rewrite Hn, Hv.
Qed.

Lemma vocabulary_of_reordered revision d d' : same_definitions d d' -> vocabulary_of revision d = vocabulary_of revision d'.
Proof.
  intros [Ha Hp Has Ht Hm Hc]. unfold vocabulary_of. rewrite (rfold_perm _ _ _ Ha (addName_comm KindArtefact)). destruct (rfold _ (DArtefacts d') ∅) as [artefacts|e]; [|done]. cbn [rbind].
  rewrite (rfold_perm _ _ _ Hp (addName_comm KindPurpose)). destruct (rfold _ (DPurposes d') ∅) as [purposes|e]; [|done]. cbn [rbind].
  rewrite (rfold_perm _ _ _ Has (addName_comm KindAssurance)). destruct (rfold _ (DAssurances d') ∅) as [assurances|e]; [|done]. cbn [rbind].
  rewrite (add_reordered _ _ _ _ _ _ Ht); [|apply validated_type_plain|].
  2:{ intros x y [He Hxy]. split; [done|]. unfold validated_type. by rewrite (validatedNames_perm _ _ _ _ Hxy), He. }
  destruct (rfold _ (DEvidence d') ∅) as [types|e]; [|done]. cbn [rbind]. rewrite (add_reordered _ _ _ _ _ _ Hm); [|apply validated_method_plain|].
  2:{ intros x y [He Hxy]. split; [done|]. unfold validated_method, llen. rewrite He, (Forall2_length _ _ _ Hxy). destruct (_ =? _); [done|].
      rewrite (rfold_same _ same_support _ _ Hxy); [done|]. intros [seen validated] a b (Hname & Hart & Has'). unfold validated_support. rewrite Hname.
      destruct (types !! _); [|done]. by rewrite (validatedNames_perm _ _ _ _ Hart), (validatedNames_perm _ _ _ _ Has'). }
  destruct (rfold _ (DMethods d') ∅) as [methods|e]; [|done]. cbn [rbind]. rewrite (add_reordered _ _ _ _ _ _ Hc); [done|apply validated_constraint_plain|].
  intros x y (He & Hk & Hxy). split; [done|]. unfold validated_constraint. by rewrite (validatedNames_perm _ _ _ _ Hxy), He, Hk.
Qed.

Section Pins.
Context `{RegistryLibraries}.

Lemma NewRegistry_Ok revision definitions v : NewRegistry revision definitions = Ok v ->
  revision <> 0 /\ v_revision v = revision /\ vocabulary_ok v /\ exists text, marshal_registry (canonicalDefinitions v) = Some text /\ v_digest v = Sum text.
Proof.
  unfold NewRegistry. intros Hv. go_inv Hv. bprop. destruct (marshal_registry _) as [text|] eqn:Ht; [|done]. go_inv Hv.
  split; [done|]. pose proof (vocabulary_of_ok _ _ _ Hv0) as [Hn Hty Hm Hc]. split; [|split].
  - clear -Hv0. unfold vocabulary_of in Hv0. by go_inv Hv0.
  - by split.
  - by exists text.
Qed.

(** The canonical texts of two revisions differ and have one digest. *)
Definition documents_collide (v v' : Vocabulary) : Prop := exists text text',
  marshal_registry (canonicalDefinitions v) = Some text /\ marshal_registry (canonicalDefinitions v') = Some text' /\ text <> text' /\ Sum text = Sum text'.

End Pins.

(** *** A revision *)
Module RegistryWitness.

(** An injective encoding of documents: every part tells where it ends. *)
Class Encoding (A : Type) := { enc : A -> string -> string; enc_inj a b x y : enc a x = enc b y -> a = b /\ x = y }.
#[export] Instance enc_string : Encoding string.
Proof.
  refine {| enc := fix go s x := match s with EmptyString => String "0" x | String c s => String "1" (String c (go s x)) end |}.
  induction a as [|c a IH]; intros [|c' b] x y; cbn; try discriminate; [by intros [= ->]|]. intros [= -> He]. by apply IH in He as [-> ->].
Defined.
#[export] Instance enc_pos : Encoding positive.
Proof.
  refine {| enc := fix go p x := match p with xH => String "h" x | xO p => String "o" (go p x) | xI p => String "i" (go p x) end |}.
  induction a as [a IH|a IH|]; intros [b|b|] x y; cbn; try discriminate; [intros [= He]; by apply IH in He as [-> ->]..|by intros [= ->]].
Defined.
#[export] Instance enc_Z : Encoding Z.
Proof.
  refine {| enc z x := enc (encode z) x |}. intros a b x y [He ->]%enc_inj. by apply (inj encode) in He as ->.
Defined.
#[export] Instance enc_pair {A B : Type} `{Encoding A, Encoding B} : Encoding (A * B).
Proof. refine {| enc p x := enc p.1 (enc p.2 x) |}. intros [a b] [a' b'] x y [Ha [Hb ->]%enc_inj]%enc_inj. cbn in *. by subst. Defined.
#[export] Instance enc_list {A : Type} `{Encoding A} : Encoding (list A).
Proof.
  refine {| enc := fix go l x := match l with [] => String "0" x | a :: l => String "1" (enc a (go l x)) end |}.
  induction a as [|c a IH]; intros [|c' b] x y; cbn; try discriminate; [by intros [= ->]|]. intros [= [-> He]%enc_inj]. by apply IH in He as [-> ->].
Defined.

Definition value_kind_code (k : ValueKind) : Z * string :=
  match k with ValueString => (0, "") | ValueInteger => (1, "") | ValueBoolean => (2, "") | ValueStringList => (3, "") | ValueKindOther raw => (4, raw) end%string.
Definition tuple_of (d : RegistryDocument) :=
  (doc_schema d, doc_revision d, doc_artefacts d, map (fun t => (TypeName t, TypeArtefacts t)) (doc_evidence d),
   map (fun m => (MethodName m, map (fun s => (SupportEvidenceType s, SupportArtefacts s, SupportAssurances s)) (Supports m))) (doc_methods d),
   doc_purposes d, doc_assurances d, map (fun c => (ConstraintName c, value_kind_code (ConstraintKind c), AppliesTo c)) (doc_constraints d)).

Lemma tuple_of_inj d d' : tuple_of d = tuple_of d' -> d = d'.
Proof.
  destruct d, d'. unfold tuple_of. cbn. intros [= -> -> -> He Hm -> -> Hc]. f_equal.
  - revert He. apply list_fmap_eq_inj. by intros [] [] [= -> ->].
  - revert Hm. apply list_fmap_eq_inj. intros [] [] [= -> Hs]. f_equal. revert Hs. apply list_fmap_eq_inj. by intros [] [] [= -> -> ->].
  - revert Hc. apply list_fmap_eq_inj. intros [? k ?] [? k' ?] [= -> Hk ->]. f_equal. by destruct k, k'; simplify_eq.
Qed.

#[local] Instance content_libraries : ContentLibraries :=
  { content_sha256 := fun _ => "00"%string; marshal_document := fun _ => None; parse_media_type := fun s => Some s }.
#[local] Instance registry_libraries : RegistryLibraries.
Proof.
  refine {| marshal_registry := fun d => Some (enc (tuple_of d) "") |}.
  intros d d' s _ _ Hd Hd'. apply tuple_of_inj. rewrite <- Hd' in Hd. clear Hd'. apply (f_equal (default "")) in Hd. exact (proj1 (enc_inj _ _ _ _ Hd)).
Defined.

Definition definitions (artefacts : list Name) : Definitions :=
  mk_definitions artefacts [mk_type "idenqa.evidence.document_image" artefacts]
    [mk_method "idenqa.method.live_camera" [mk_support "idenqa.evidence.document_image" artefacts ["idenqa.assurance.live"]]]
    ["idenqa.purpose.verification"] ["idenqa.assurance.live"] [mk_constraint "idenqa.constraint.maximum_bytes" ValueInteger []].
Definition sides : list Name := ["idenqa.artefact.front"; "idenqa.artefact.back"].
Definition revision_one : Vocabulary := Eval vm_compute in match NewRegistry 1 (definitions sides) with Ok v => v | Err _ => mk_vocabulary 0 "" ∅ ∅ ∅ ∅ ∅ ∅ end.
Definition only : Catalog := <[vocabulary_reference revision_one := revision_one]> ∅.

End RegistryWitness.
End RegistrySpec.
