(* ===== verification/EvidenceSafety.v ===== *)
(** * Evidence grants: what their use guarantees

    The invariant of the tables and of the workers of [Evidence], and the theorems
    about them: bounded use, plaintext only under a grant, and the replay of a read
    whose success was not recorded. *)

From S2P Require Import Prelude GoTime Content Evidence.
Import EvidenceStore EvidenceReader.

(** ** Grants and their rows *)

(** Grants with the terms that no operation changes. *)
Definition scope (g : Grant) : Grant := with_use g [] 0 (mk_time (instant (GCreatedAt g)) true) (mk_time (instant (ExpiresAt g)) true) None.

Definition same_terms (g g' : Grant) : Prop := scope g = scope g'.
#[export] Instance same_terms_equiv : Equivalence same_terms.
Proof. split; unfold same_terms; [by intros g|by intros g g' ->|by intros g1 g2 g3 -> ->]. Qed.

Definition bounded (g : Grant) : Prop := 1 <= MaximumUses g <= maxGrantUses /\ 0 <= Uses g <= MaximumUses g.

Lemma restoreGrant_Ok g g' : restoreGrant g = Ok g' -> same_terms g' g /\ Uses g' = Uses g /\ RevokedAt g' = option_map utc (RevokedAt g) /\
  MaximumUses g <> 0 /\ MaximumUses g <= maxGrantUses /\ Uses g <= MaximumUses g.
Proof. unfold restoreGrant. intros Hr. go_inv Hr. cbn [MaximumUses Uses with_use] in *. bprop. by repeat split. Qed.

Lemma scope_fields g g' : same_terms g g' -> GrantID g = GrantID g' /\ EvidenceID g = EvidenceID g' /\ GRunner g = GRunner g' /\
  CheckReference g = CheckReference g' /\ OutputDestination g = OutputDestination g' /\ GTenantID g = GTenantID g' /\ MaximumUses g = MaximumUses g' /\
  instant (GCreatedAt g) = instant (GCreatedAt g') /\ instant (ExpiresAt g) = instant (ExpiresAt g').
Proof. unfold same_terms, scope, with_use. intros He. injection He. intros. by repeat split. Qed.

Lemma restore_row_Ok row use g : restore_row row use = Ok g -> same_terms g row /\ Uses g = default (Uses row) use /\
  RevokedAt g = option_map utc (RevokedAt row) /\ bounded row.
Proof.
  unfold restore_row. intros Hr. go_inv Hr. bprop. apply restoreGrant_Ok in Hr as (Hs & Hu & Hv & Hm & Hb & Ht). cbn in *.
  split; [done|]. split; [done|]. split; [done|]. split; lia.
Qed.

(** A use, a revocation and the order of the variants change no term. *)
Lemma scope_with_use g variants uses revoked : same_terms (with_use g variants uses (GCreatedAt g) (ExpiresAt g) revoked) g.
Proof. done. Qed.

(** ** The tables *)

(** The claims made on a grant. *)
Definition claims (k : string) (db : Database) : gmap string RedemptionRow :=
  filter (fun p => RowGrant p.2 = k /\ ClaimedUse p.2 <> None) (redemptions db).

Lemma lookup_claims k db rid row : claims k db !! rid = Some row <-> redemptions db !! rid = Some row /\ RowGrant row = k /\ ClaimedUse row <> None.
Proof. unfold claims. by rewrite map_lookup_filter_Some. Qed.

(** The rows of a claim and of a refusal. *)
Definition claim_ok (db : Database) (row : RedemptionRow) : Prop :=
  forall u, ClaimedUse row = Some u -> exists g, grants db !! RowGrant row = Some g /\ 1 <= u <= Uses g /\ RowRunner row = GRunner g /\ RowDenial row = None /\
    instant (GCreatedAt g) <= instant (AttemptedAt row) < instant (ExpiresAt g).

Record db_ok (db : Database) : Prop := mk_db_ok {
  grant_rows k g : grants db !! k = Some g -> GrantID g = k /\ bounded g /\ Uses g = Z.of_nat (size (claims k db));
  claim_rows rid row : redemptions db !! rid = Some row -> claim_ok db row;
  use_unique rid rid' row row' : redemptions db !! rid = Some row -> redemptions db !! rid' = Some row' -> ClaimedUse row <> None ->
    RowGrant row = RowGrant row' -> ClaimedUse row = ClaimedUse row' -> rid = rid';
}.

(** What every transaction leaves alone. *)
Definition grant_step (g g' : Grant) : Prop :=
  same_terms g' g /\ Uses g <= Uses g' /\ (RevokedAt g <> None -> RevokedAt g' = RevokedAt g /\ Uses g' = Uses g).
Definition asset_step (a a' : Record_) : Prop := ID a' = ID a /\ Content a' = Content a /\ (CanRead a' = true -> a' = a).

Record grows (db db' : Database) : Prop := mk_grows {
  grants_grow k g : grants db !! k = Some g -> exists g', grants db' !! k = Some g' /\ grant_step g g';
  assets_grow k a : assets db !! k = Some a -> exists a', assets db' !! k = Some a' /\ asset_step a a';
  redemptions_grow : redemptions db ⊆ redemptions db';
  outcomes_grow : outcomes db ⊆ outcomes db';
}.

#[export] Instance grant_step_preorder : PreOrder grant_step.
Proof.
  split; [intros g; unfold grant_step; split_and!; [done|lia|done]|].
  intros g1 g2 g3 (S1 & U1 & R1) (S2 & U2 & R2). split; [by etrans|]. split; [lia|].
  intros Hr. destruct (R1 Hr) as [E1 E2]. rewrite <- E1 in Hr. destruct (R2 Hr). split; congruence.
Qed.
#[export] Instance asset_step_preorder : PreOrder asset_step.
Proof.
  split; [intros a; unfold asset_step; by split_and!|].
  intros a b c (S1 & C1 & R1) (S2 & C2 & R2). split; [congruence|]. split; [congruence|].
  intros Hr. pose proof (R2 Hr) as ->. by rewrite (R1 Hr).
Qed.
#[export] Instance grows_preorder : PreOrder grows.
Proof.
  split.
  - intros db. split; [| |done|done]; intros k x Hx; by exists x.
  - intros a b c [G1 A1 R1 O1] [G2 A2 R2 O2]. split; [| | by etrans | by etrans].
    + intros k g (g' & Hg' & S1)%G1. apply G2 in Hg' as (g2 & Hg2 & S2). exists g2. split; [done|by etrans].
    + intros k x (x' & Hx' & S1)%A1. apply A2 in Hx' as (x2 & Hx2 & S2). exists x2. split; [done|by etrans].
Qed.

Lemma grow_tables db db' : assets db' = assets db -> grants db' = grants db -> redemptions db ⊆ redemptions db' -> outcomes db ⊆ outcomes db' -> grows db db'.
Proof. intros Ha Hg Hr Ho. split; [| |done|done]; rewrite ?Ha, ?Hg; intros k x Hx; by exists x. Qed.

(** ** The transactions *)

Section Transactions.
Context (tenant : string) `{ContentLibraries} (resolve : Reference -> option Registry).

Lemma UpdateLifecycle_grows db a expected c answer db' :
  UpdateLifecycle tenant resolve db a expected c = (answer, db') -> grows db db' /\ grants db' = grants db /\ redemptions db' = redemptions db.
Proof.
  intros [[-> _]|(u & Hb & _)]%transact_cases; [by split|]. go_inv Hb. destruct (assets db !! ID a) as [row|] eqn:Hrow; [|done]. go_inv Hb. cbv zeta in Hb. go_inv Hb. simplify_eq.
  split; [|by split]. split; [intros k g Hk; by exists g| |done|done]. intros k x Hx. cbn.
  destruct (decide (k = ID a)) as [->|Hne]; [|rewrite lookup_insert_ne by done; by exists x].
  rewrite lookup_insert_eq. simplify_eq. eexists. split; [done|]. unfold asset_step. split_and!; [done|done|].
  bprop. unfold CanRead. cbn [transitioned State_]. unfold asset_state_is in *. bprop. intros Hr. bprop. congruence.
Qed.

Lemma QuarantineIntegrity_grows db a expected c answer db' :
  QuarantineIntegrity tenant resolve db a expected c = (answer, db') -> grows db db' /\ grants db' = grants db /\ redemptions db' = redemptions db.
Proof. unfold QuarantineIntegrity. destruct (_ || _ || _); [intros [= _ <-]; by split|apply UpdateLifecycle_grows]. Qed.

(** Tables with the same claims and grants are as good. *)
Lemma same_claims_ok db db' : grants db' = grants db -> redemptions db' = redemptions db -> db_ok db -> db_ok db'.
Proof.
  intros Hg Hr [G R U]. split; unfold claims, claim_ok in *; rewrite ?Hg, ?Hr; [|done|done].
  intros k g Hk. by apply G.
Qed.

Lemma claims_of_unknown db k : db_ok db -> grants db !! k = None -> claims k db = ∅.
Proof.
  intros [_ R _] Hk. apply map_eq. intros rid. rewrite lookup_empty. apply eq_None_not_Some. intros [row (Hrow & Hgrant & Huse)%lookup_claims].
  destruct (ClaimedUse row) as [u|] eqn:Hu; [|done]. destruct (R _ _ Hrow u Hu) as (g & Hg & _). congruence.
Qed.

Lemma CreateGrant_ok db g attribution c answer db' : CreateGrant tenant db g attribution c = (answer, db') -> bounded g ->
  db_ok db -> db_ok db' /\ grows db db'.
Proof.
  intros [[-> _]|(u & Hb & _)]%transact_cases Hbound Hok; [by split|]. go_inv Hb. bprop. simplify_eq.
  destruct (grants db !! GrantID g) eqn:Hnone; [done|].
  assert (Hold : forall k x, grants db !! k = Some x -> k <> GrantID g) by congruence.
  split.
  - pose proof (claims_of_unknown _ _ Hok Hnone) as Hempty. destruct Hok as [G R U]. split; [| |done].
    + cbn [grants with_grants]. intros k x [[<- <-]|[Hne Hx]]%lookup_insert_Some; [|by apply G]. split; [done|]. split; [done|].
      unfold claims in *. cbn [redemptions with_grants]. rewrite Hempty, map_size_empty. cbn. lia.
    + intros rid row Hrow u0 Hu. destruct (R _ _ Hrow _ Hu) as (x & Hx & Hrest). exists x. split; [|done]. cbn. by rewrite lookup_insert_ne by (intros He; congruence).
  - split; [|by intros k x Hx; exists x|done|done]. intros k x Hx. exists x. split; [|done]. cbn. by rewrite lookup_insert_ne by (intros He; congruence).
Qed.

(** A grant row replaced by one of the same terms and uses. *)
Lemma replace_grant_ok db k row row' gs :
  grants db !! k = Some row -> same_terms row' row -> Uses row' = Uses row -> gs = <[k := row']> (grants db) ->
  forall db', grants db' = gs -> redemptions db' = redemptions db -> db_ok db -> db_ok db'.
Proof.
  intros Hk Hs Hu -> db' Hg Hr [G R U]. pose proof (scope_fields _ _ Hs) as (I & _ & Rn & _ & _ & _ & M & C & E). split.
  - intros j g Hj. unfold claims. rewrite Hr. rewrite Hg in Hj. apply lookup_insert_Some in Hj as [[<- <-]|[Hne Hj]]; [|by apply G].
    destruct (G _ _ Hk) as (HI & HB & HU). unfold bounded in *. rewrite I, M, Hu. split_and!; [congruence|lia..|done].
  - intros rid x Hx u Hux. rewrite Hr in Hx. destruct (R _ _ Hx u Hux) as (g & Hg' & Hrest). rewrite Hg.
    destruct (decide (RowGrant x = k)) as [He|Hne]; [|exists g; by rewrite lookup_insert_ne by done].
    exists row'. rewrite He, lookup_insert_eq. rewrite He in Hg'. simplify_eq. rewrite Hu, Rn, C, E. by split.
  - intros rid rid' x x'. rewrite Hr. apply U.
Qed.

Lemma RevokeGrant_ok db k attribution now c answer db' : RevokeGrant tenant db k attribution now c = (answer, db') ->
  db_ok db -> db_ok db' /\ grows db db'.
Proof.
  intros [[-> _]|(u & Hb & _)]%transact_cases Hok; [by split|]. go_inv Hb. destruct (grants db !! k) as [row|] eqn:Hrow; [|done]. go_inv Hb. cbv zeta in Hb. go_inv Hb. bprop. simplify_eq.
  set (row' := with_use row _ _ _ _ _) in *. split.
  - by eapply (replace_grant_ok db k row row'); [|apply scope_with_use|..].
  - split; [|by intros j x Hx; exists x|done|done]. intros j g Hj. cbn.
    destruct (decide (j = k)) as [->|Hne]; [|rewrite lookup_insert_ne by done; by exists g].
    rewrite lookup_insert_eq. exists row'. assert (g = row) as -> by congruence. split; [done|]. unfold grant_step. split_and!; [apply scope_with_use|cbn; lia|congruence].
Qed.
End Transactions.

(** ** Redemptions *)

(** What a redemption in a worker's hands says of the tables. *)
Definition holds (db : Database) (r : Redemption) : Prop :=
  exists row g, redemptions db !! RedemptionID r = Some row /\ ClaimedUse row = Some (Uses (RGrant r)) /\ RowGrant row = GrantID (RGrant r) /\
    grants db !! GrantID (RGrant r) = Some g /\ same_terms g (RGrant r).

Lemma holds_grows db db' r : holds db r -> grows db db' -> holds db' r.
Proof.
  intros (row & g & Hr & Hu & Hk & Hg & Hs) [G _ R _]. destruct (G _ _ Hg) as (g' & Hg' & Hs' & _).
  exists row, g'. split_and!; [by eapply lookup_weaken|done|done|done|by etrans].
Qed.

Lemma claims_insert db k rid row gs os ats au assets0 : redemptions db !! rid = None ->
  claims k (mk_database assets0 gs (<[rid := row]> (redemptions db)) os ats au) =
  if bool_decide (RowGrant row = k /\ ClaimedUse row <> None) then <[rid := row]> (claims k db) else claims k db.
Proof.
  intros Hnone. unfold claims. cbn. case_bool_decide as Hp; [by rewrite map_filter_insert_True|].
  rewrite map_filter_insert_not'; [done|done|]. intros y Hy. congruence.
Qed.

Section Claims.
Context (tenant : string).

Lemma recordDenied_ok db k rid runner reason now : redemptions db !! rid = None -> db_ok db ->
  db_ok (recordDeniedRedemption db k rid runner reason now) /\ grows db (recordDeniedRedemption db k rid runner reason now).
Proof.
  intros Hnone [G R U]. unfold recordDeniedRedemption. split; [split|].
  - intros j g Hj. cbn in Hj. rewrite claims_insert by done. rewrite bool_decide_eq_false_2 by (cbn; intros [_ Hx]; by apply Hx). by apply G.
  - cbn [redemptions]. intros rid' row [[<- <-]|[Hne Hrow]]%lookup_insert_Some; [by intros u|]. intros u Hu. cbn. by apply (R _ _ Hrow).
  - cbn [redemptions]. intros r1 r2 row row' [[<- <-]|[N1 H1]]%lookup_insert_Some [[<- <-]|[N2 H2]]%lookup_insert_Some; [done|done| |by eapply U].
    cbn. intros ? ? ?. congruence.
  - apply grow_tables; [done|done|by apply insert_subseteq|]. cbn. destruct (outcomes db !! rid) eqn:Ho; [done|by apply insert_subseteq].
Qed.

Lemma attempt_ok db a : db_ok db -> db_ok (insertGrantAccessAttempt db a) /\ grows db (insertGrantAccessAttempt db a).
Proof. intros Hok. split; [by apply (same_claims_ok db)|by apply grow_tables]. Qed.

Lemma Claim_Ok g runner now g' : Claim g runner now = Ok g' ->
  runner = GRunner g /\ instant (GCreatedAt g) <= instant now < instant (ExpiresAt g) /\ RevokedAt g = None /\ Uses g < MaximumUses g /\ Uses g' = Uses g + 1.
Proof.
  unfold Claim. intros Hc. go_inv Hc. bprop. match goal with E : before now (GCreatedAt g) = false |- _ => apply before_false in E end.
  match goal with E : before now (ExpiresAt g) = true |- _ => apply before_true in E end. by repeat split.
Qed.

(** The row and the use a fresh claim adds. *)
Lemma new_claim_ok db k rid row row' red ats au :
  db_ok db -> redemptions db !! rid = None -> grants db !! k = Some row -> same_terms row' row -> Uses row' = Uses row + 1 -> RevokedAt row' = RevokedAt row ->
  bounded row' -> RevokedAt row = None -> RowGrant red = k -> ClaimedUse red = Some (Uses row') -> RowRunner red = GRunner row -> RowDenial red = None ->
  instant (GCreatedAt row) <= instant (AttemptedAt red) < instant (ExpiresAt row) ->
  let db' := mk_database (assets db) (<[k := row']> (grants db)) (<[rid := red]> (redemptions db)) (outcomes db) ats au in db_ok db' /\ grows db db'.
Proof.
  intros [G R U] Hnone Hk Hs Hu Hv Hb Hrev Hred Huse Hrun Hden Htime db'. destruct (G _ _ Hk) as (HI & HB & HU).
  pose proof (scope_fields _ _ Hs) as (I & _ & Rn & _ & _ & _ & M & C & E).
  assert (Hbelow : forall rid0 x u, redemptions db !! rid0 = Some x -> RowGrant x = k -> ClaimedUse x = Some u -> u <= Uses row).
  { intros rid0 x u Hx Hxk Hxu. destruct (R _ _ Hx u Hxu) as (g & Hg & Hle & _). rewrite Hxk in Hg. simplify_eq. lia. }
  split; [split|split].
  - intros j g Hj. unfold db'. rewrite claims_insert by done. cbn in Hj. apply lookup_insert_Some in Hj as [[<- <-]|[Hne Hj]].
    + rewrite bool_decide_eq_true_2 by (split; [done|congruence]). rewrite I. split; [done|]. split; [done|].
      rewrite map_size_insert_None, Hu, HU by (unfold claims; apply map_lookup_filter_None; by left). lia.
    + rewrite bool_decide_eq_false_2 by (intros [? ?]; congruence). by apply G.
  - intros rid0 x Hx u Hxu. cbn in Hx |- *. apply lookup_insert_Some in Hx as [[<- <-]|[Hne Hx]].
    + rewrite Hred, lookup_insert_eq. exists row'. rewrite Huse in Hxu. simplify_eq. unfold bounded in *. rewrite Rn, C, E. split_and!; [done|lia|lia|done|done|lia|lia].
    + destruct (R _ _ Hx u Hxu) as (g & Hg & Hrest). destruct (decide (RowGrant x = k)) as [He|Hne2]; [|exists g; by rewrite lookup_insert_ne by done].
      exists row'. rewrite He, lookup_insert_eq. rewrite He in Hg. simplify_eq. rewrite Rn, C, E, Hu. intuition lia.
  - intros r1 r2 x x' H1 H2 Hn Hkk Huu. cbn in H1, H2. apply lookup_insert_Some in H1 as [[E1 <-]|[N1 H1]], H2 as [[E2 <-]|[N2 H2]]; [congruence| | |by eapply U].
    + exfalso. rewrite Huse in Huu. symmetry in Huu. rewrite Hred in Hkk. pose proof (Hbelow _ _ _ H2 (eq_sym Hkk) Huu). lia.
    + exfalso. rewrite Huse in Huu. rewrite Hred in Hkk. pose proof (Hbelow _ _ _ H1 Hkk Huu). lia.
  - intros j g Hj. cbn. destruct (decide (j = k)) as [->|Hne]; [|rewrite lookup_insert_ne by done; by exists g].
    rewrite lookup_insert_eq. exists row'. assert (g = row) as -> by congruence. split; [done|]. unfold grant_step. split_and!; [done|lia|done].
  - intros j x Hx. by exists x.
  - by apply insert_subseteq.
  - done.
Qed.
End Claims.

(** Claiming keeps the tables well formed and hands out what they hold. *)
Definition claim_result (db : Database) (rid : string) (found : option Redemption) (db' : Database) : Prop :=
  db_ok db' /\ grows db db' /\ forall r, found = Some r -> RedemptionID r = rid /\ holds db' r.

Section Claiming.
Context (tenant : string).

Lemma RestoreRedemption_Ok rid g o r : RestoreRedemption rid g o = Ok r -> r = mk_redemption rid g o.
Proof. unfold RestoreRedemption. intros Hr. by go_inv Hr. Qed.

Lemma restoreExisting_holds db k rid runner row found : db_ok db -> redemptions db !! rid = Some row ->
  restoreExistingRedemption db k rid runner row = Ok found -> forall r, found = Some r -> RedemptionID r = rid /\ holds db r.
Proof.
  intros Hok Hrow Hf r ->. unfold restoreExistingRedemption in Hf. destruct (_ || _ || _ || _) eqn:Hc; [done|]. bprop.
  destruct (grants db !! k) as [g|] eqn:Hg; [|done]. go_inv Hf.
  apply restore_row_Ok in Hv as (Hs & Hu & _). apply RestoreRedemption_Ok in Hv0 as ->. simplify_eq. split; [done|].
  destruct (grant_rows _ Hok _ _ Hg) as (HI & _). destruct (scope_fields _ _ Hs) as (I & _).
  destruct (ClaimedUse row) as [u|] eqn:Hcu; [|done]. exists row, g. cbn in *. split_and!; [done|congruence|congruence|by rewrite I, HI|done].
Qed.

Lemma claim_new_ok db k rid runner now found db' : db_ok db -> redemptions db !! rid = None ->
  claim_new db k rid runner now = Ok (found, db') -> claim_result db rid found db'.
Proof.
  intros Hok Hnone Hc. unfold claim_new in Hc. destruct (grants db !! k) as [row|] eqn:Hk.
  2:{ injection Hc as <- <-. destruct (attempt_ok db (mk_attempt k rid runner "denied" (Some "not_found"%string) now) Hok). by split_and!. }
  go_inv Hc. apply restore_row_Ok in Hv as (Hs & Hu & Hrev & Hb). destruct (scope_fields _ _ Hs) as (_ & _ & Hrn & _ & _ & _ & HM & HC & HE).
  destruct (Claim v runner (utc now)) as [claimed|] eqn:Hclaim.
  2:{ injection Hc as <- <-. destruct (recordDenied_ok db k rid runner (denialReason v runner now) now Hnone Hok) as [H1 H2].
      edestruct (attempt_ok _ (mk_attempt k rid runner "denied" (Some (denialReason v runner now)) now) H1) as [H3 H4].
      split_and!; [done|by etrans|done]. }
  cbv zeta in Hc. go_inv Hc. apply Claim_Ok in Hclaim as (-> & Ht & Hnr & Hlt & _). apply restore_row_Ok in Hv as (Hs' & Hu' & _ & Hb').
  apply RestoreRedemption_Ok in Hv0 as ->. destruct (grant_rows _ Hok _ _ Hk) as (HI & _ & _).
  unfold claim_result. set (row' := with_use row _ _ _ _ _) in *. destruct (scope_fields _ _ Hs') as (I & _). cbn [default] in *.
  destruct (new_claim_ok db k rid row row' (mk_redemption_row k (GRunner v) (Some (Uses row')) None now) (attempts db) (audit_rows db))
    as [Hdb Hgr]; try done; [by rewrite Hrev in Hnr; destruct (RevokedAt row)|cbn in Ht |- *; lia|].
  edestruct (attempt_ok _ (mk_attempt k rid (GRunner v) "claimed" None now) Hdb) as [H3 H4]. split_and!; [done|by etrans|].
  intros r [= <-]. split; [done|]. eexists _, row'. cbn. rewrite !lookup_insert_eq, I. split_and!; [done|by rewrite Hu'|by symmetry|by rewrite <- HI at 1; rewrite lookup_insert_eq|done].
Qed.

Lemma ClaimGrant_ok db k rid runner now c answer db' : ClaimGrant tenant db k rid runner now c = (answer, db') -> db_ok db ->
  db_ok db' /\ grows db db' /\ forall r, answer = Ok r -> RedemptionID r = rid /\ holds db' r.
Proof.
  intros Hc Hok. unfold ClaimGrant in Hc. destruct (transact _ _ _ _) as [found db0] eqn:Ht. apply transact_cases in Ht as [[-> He]|(f & Hb & Hr)].
  - destruct found as [[?|]|]; [done|done|]. injection Hc as <- <-. by split_and!.
  - assert (Hres : claim_result db rid f db0).
    { unfold claim_body in Hb. go_inv Hb. destruct (redemptions db !! rid) as [row|] eqn:Hrow; [|by eapply claim_new_ok].
      go_inv Hb. simplify_eq. destruct (attempt_ok db (replay_attempt k rid runner now row f) Hok) as [H1 H2]. split_and!; [done|done|].
      intros r Hf. destruct (restoreExisting_holds _ _ _ _ _ _ Hok Hrow Hv r Hf) as [Hid Hh]. split; [done|by eapply holds_grows]. }
    destruct Hres as (H1 & H2 & H3). destruct Hr as [->| ->]; [destruct f as [r|]|]; injection Hc as <- <-; split_and!; try done.
    intros r0 [= <-]. by apply H3.
Qed.

Lemma RecordGrantOutcome_ok db r outcome now c answer db' : RecordGrantOutcome tenant db r outcome now c = (answer, db') ->
  db_ok db -> db_ok db' /\ grows db db'.
Proof.
  intros [[-> _]|(u & Hb & _)]%transact_cases Hok; [by split|]. go_inv Hb. destruct (redemptions db !! RedemptionID r); [|done]. go_inv Hb.
  unfold createOrVerifyOutcome in Hb. destruct (outcomes db !! RedemptionID r) eqn:Ho; go_inv Hb; simplify_eq; [by split|].
  split; [by apply (same_claims_ok db)|apply grow_tables; [done|done|done|by apply insert_subseteq]].
Qed.
End Claiming.

(** ** Workers and deliveries *)

Definition released_ok (db : Database) (d : Delivery) : Prop :=
  exists row g a, redemptions db !! DeliveredRedemption d = Some row /\ RowGrant row = DeliveredGrant d /\ ClaimedUse row <> None /\
    grants db !! DeliveredGrant d = Some g /\ receiver_binds (DeliveredBinding d) g = true /\ DeliveredEvidence d = EvidenceID g /\
    assets db !! EvidenceID g = Some a /\ DeliveredDigest d = PlaintextDigest (Content a).

(** A worker about to release: its redemption, its receiver and its asset agree. *)
Definition ready (db : Database) (b : ReceiverBinding) (r : Redemption) (a : Record_) : Prop :=
  holds db r /\ receiver_binds b (RGrant r) = true /\ ID a = EvidenceID (RGrant r) /\
  exists row, assets db !! ID a = Some row /\ PlaintextDigest (Content row) = PlaintextDigest (Content a).

Definition local_ok (db : Database) (l : Local) : Prop :=
  match l with
  | Claimed _ _ _ r => holds db r
  | Authorizing b r a | Opening b r a | Receiving b r a => ready db b r a
  | _ => True
  end.

Record shared_ok (s : Shared) : Prop := mk_shared_ok {
  store_ok : db_ok (store s);
  one_delivery : NoDup (map DeliveredRedemption (delivered s));
  deliveries_ok : Forall (released_ok (store s)) (delivered s);
}.

Lemma receiver_binds_terms b g g' : same_terms g g' -> receiver_binds b g = receiver_binds b g'.
Proof. intros (_ & _ & Hr & Hc & Ho & _)%scope_fields. unfold receiver_binds. by rewrite Hr, Hc, Ho. Qed.

Lemma released_grows db db' d : released_ok db d -> grows db db' -> released_ok db' d.
Proof.
  intros (row & g & a & Hr & Hk & Hu & Hg & Hb & He & Ha & Hd) [G A R _]. destruct (G _ _ Hg) as (g' & Hg' & Ht & _). destruct (A _ _ Ha) as (a' & Ha' & _ & Hc & _).
  exists row, g', a'. rewrite (receiver_binds_terms _ _ _ Ht). destruct (scope_fields _ _ Ht) as (_ & E & _). rewrite E, Hc.
  split_and!; [by eapply lookup_weaken|done..].
Qed.

Lemma ready_grows db db' b r a : ready db b r a -> grows db db' -> ready db' b r a.
Proof.
  intros (Hh & Hb & He & row & Hrow & Hd) Hg. split; [by eapply holds_grows|]. split; [done|]. split; [done|].
  destruct (assets_grow _ _ Hg _ _ Hrow) as (a' & Ha' & _ & Hc & _). exists a'. by rewrite Hc.
Qed.
Lemma local_grows db db' l : local_ok db l -> grows db db' -> local_ok db' l.
Proof. destruct l; cbn; eauto using holds_grows, ready_grows. Qed.

Lemma shared_grows s db' : shared_ok s -> db_ok db' -> grows (store s) db' -> shared_ok (mk_shared db' (delivered s)).
Proof. intros [_ N D] Hok Hg. split; [done|done|]. eapply Forall_impl; [exact D|]. intros d Hd. by eapply released_grows. Qed.

Section Workers.
Context (tenant : string) `{ContentLibraries} (resolve : Reference -> option Registry) (maximumTTL : Z).

Lemma NewDigest_same v d : Crypto.NewDigest v = Some d -> d = v.
Proof. unfold Crypto.NewDigest. destruct (_ || _); [done|]. destruct (hex_decode _); [|done]. destruct (_ && _); [by intros [= ->]|done]. Qed.

Lemma NewContent_digest c context c' : NewContent c context = Some c' -> PlaintextDigest c' = PlaintextDigest c.
Proof.
  unfold NewContent. destruct (ObjectStore.NewObject (Object_ c)), (Crypto.NewEnvelope (Envelope c)); try done. destruct (_ || _); [done|].
  destruct (Crypto.NewDigest (PlaintextDigest c)) as [d|] eqn:Hd; [|done]. destruct (parse_media_type _); [|done].
  destruct (_ || _ || _); [done|]. intros [= <-]. by apply NewDigest_same.
Qed.

Lemma Find_Ok db k a : Find tenant resolve db k = Ok a -> exists row, assets db !! k = Some row /\ PlaintextDigest (Content row) = PlaintextDigest (Content a).
Proof.
  unfold Find. intros Hf. go_inv Hf. destruct (assets db !! k) as [row|]; [|done]. exists row. split; [done|]. unfold restore_asset in Hf.
  destruct (resolve _) as [registry|]; [|done]. unfold restoreAsset in Hf. cbv zeta in Hf. go_inv Hf.
  destruct (AuthenticatedContext _) as [context|]; [|done]. destruct (NewContent _ context) as [content|] eqn:Hc; [|done]. injection Hf as <-.
  symmetry. by apply NewContent_digest in Hc.
Qed.

Lemma NewGrant_bounded g g' : NewGrant g = Ok g' -> bounded g'.
Proof. intros (Ht & Hu & _ & Hm & Hmax & Hle)%restoreGrant_Ok. destruct (scope_fields _ _ Ht) as (_ & _ & _ & _ & _ & _ & M & _). unfold bounded. cbn in *. lia. Qed.

(** What a step owes. *)
Definition step_ok (s : Shared) (step : Local * Shared) : Prop :=
  shared_ok step.2 /\ grows (store s) (store step.2) /\ local_ok (store step.2) step.1.

Lemma step_stays s l : shared_ok s -> local_ok (store s) l -> step_ok s (l, s).
Proof. by split. Qed.

Lemma step_on_store s l db' : shared_ok s -> (db_ok (store s) -> db_ok db' /\ grows (store s) db') -> local_ok db' l -> step_ok s (on_store s (l, db')).
Proof. intros Hs Hw Hl. destruct (Hw (store_ok _ Hs)). split; [by apply shared_grows|by split]. Qed.

Lemma issue_create_ok s input a i : shared_ok s -> step_ok s (on_store s (issue_create tenant resolve input a i (store s))).
Proof.
  intros Hs. unfold issue_create. destruct (resolve _) as [registry|]; [|by apply step_on_store].
  destruct (bool_decide _); [|by apply step_on_store]. destruct (authority i) as [decision|], (fresh i) as [identifier|]; try by apply step_on_store.
  destruct (NewGrant _) as [g|e] eqn:Hn; [|by apply step_on_store]. destruct (CreateGrant _ _ _ _ _) as [answer db'] eqn:Hc.
  apply step_on_store; [done| |done]. intros Hok. eapply CreateGrant_ok; [done|by eapply NewGrant_bounded|done].
Qed.

Lemma read_claim_ok s input b i : shared_ok s -> step_ok s (on_store s (read_claim tenant input b i (store s))).
Proof.
  intros Hs. unfold read_claim. destruct (_ || _ || _); [by apply step_on_store|].
  destruct (ClaimGrant _ _ _ _ _ _ _) as [[r|e] db'] eqn:Hc; destruct (ClaimGrant_ok _ _ _ _ _ _ _ _ _ Hc (store_ok _ Hs)) as (Hok & Hg & Hr).
  - apply step_on_store; [done|done|]. by apply Hr.
  - by apply step_on_store.
Qed.

Lemma read_checked_ok s input b at_ r : holds (store s) r -> local_ok (store s) (read_checked tenant resolve input b at_ r (store s)).
Proof.
  intros Hh. unfold read_checked. destruct (_ || _ || _ || _) eqn:Hc; [done|]. destruct (validGrantOutcome _); [done|].
  destruct (Find _ _ _ _) as [a|e] eqn:Hf; [|done]. destruct (_ && _) eqn:Hb; [|done]. apply Find_Ok in Hf as (row & Hrow & Hd).
  unfold Binds in Hb. bprop. split; [done|]. split; [done|]. split; [done|]. exists row. split; [congruence|done].
Qed.

Lemma failed_ok db r a e now : local_ok db (failed r a e now).
Proof. unfold failed. destruct (integrity_fault e); [|done]. by destruct (FailIntegrity _ _ _ _). Qed.

Lemma receive_ok s b r a i : shared_ok s -> ready (store s) b r a -> step_ok s (receive b r a i s).
Proof.
  intros Hs Hr. unfold receive. destruct (existsb _ _) eqn:Hx; [by apply step_stays|]. destruct (opened i) as [digest|e]; [|by apply step_stays, failed_ok].
  destruct (negb _) eqn:Hd; [by apply step_stays, failed_ok|]. bprop. destruct (receiver_commits i); [|by apply step_stays, failed_ok].
  destruct Hs as [Hok N D]. split; [|by split]. cbn. split; cbn [store delivered]; [done| |].
  - rewrite map_app. apply NoDup_app. split; [done|]. split; [|by apply NoDup_singleton].
    intros x (d & Hd' & Hin)%list_elem_of_fmap Hx'%list_elem_of_singleton. apply not_true_iff_false in Hx. apply Hx. apply existsb_exists.
    exists d. split; [by apply list_elem_of_In|]. apply String.eqb_eq. cbn in Hx'. congruence.
  - apply Forall_app. split; [done|]. constructor; [|done]. destruct Hr as ((row & g & Hrow & Hu & Hk & Hg & Ht) & Hb & He & x & Hx' & Hdig).
    destruct (scope_fields _ _ Ht) as (I & E & _). exists row, g, x. cbn. rewrite (receiver_binds_terms _ _ _ Ht).
    split_and!; [done|done|congruence|done|done|congruence|congruence|congruence].
Qed.

Lemma evidence_work_ok l i s : shared_ok s -> local_ok (store s) l -> step_ok s (work tenant resolve maximumTTL l i s).
Proof.
  intros Hs Hl. unfold work. destruct (crash i); [by apply step_stays|]. destruct l; cbn [local_ok] in Hl.
  - destruct (op i) as [input|input b|k attribution].
    + apply step_stays; [done|]. unfold issue_found. destruct (_ || _ || _ || _ || _); [done|]. destruct (Find _ _ _ _); [|done]. by destruct (CanRead _).
    + by apply read_claim_ok.
    + destruct (RevokeGrant _ _ _ _ _ _) as [answer db'] eqn:Hr. apply (step_on_store _ _ db'); [done| |done]. intros Hok. by eapply RevokeGrant_ok.
  - by apply issue_create_ok.
  - apply step_stays; [done|]. by apply read_checked_ok.
  - destruct (authorised _ _); by apply step_stays.
  - destruct (object_error i); [apply step_stays; [done|apply failed_ok]|by apply step_stays].
  - by apply receive_ok.
  - destruct (RecordGrantOutcome _ _ _ _ _ _) as [answer db'] eqn:Hr. apply step_on_store; [done| |done]. intros Hok. by eapply RecordGrantOutcome_ok.
  - destruct (QuarantineIntegrity _ _ _ _ _ _) as [answer db'] eqn:Hq. apply QuarantineIntegrity_grows in Hq as (Hg & Hgr & Hre).
    destruct answer; (apply step_on_store; [done| |done]; intros Hok; split; [by eapply same_claims_ok|done]).
  - destruct (RecordGrantOutcome _ _ _ _ _ _) as [answer db'] eqn:Hr. apply step_on_store; [done| |done]. intros Hok. by eapply RecordGrantOutcome_ok.
  - by apply step_stays.
Qed.

Definition world_ok (w : World) : Prop := shared_ok (shared w) /\ Forall (local_ok (store (shared w))) (workers w).

Lemma evidence_step_ok w w' : world_ok w -> world_step tenant resolve maximumTTL w w' -> world_ok w' /\ grows (store (shared w)) (store (shared w')).
Proof.
  intros [Hs Hl] Hstep. destruct Hstep as [k l i l' s' Hk Hw]. pose proof (Forall_lookup_1 _ _ _ _ Hl Hk) as Hlk.
  pose proof (evidence_work_ok l i _ Hs Hlk) as Hok. rewrite Hw in Hok. destruct Hok as (Hs' & Hg & Hl'). split; [|done]. split; [done|]. apply Forall_insert; [|done].
  eapply Forall_impl; [exact Hl|]. intros x Hx. by eapply local_grows.
Qed.

Lemma evidence_steps_ok w w' : world_ok w -> rtc (world_step tenant resolve maximumTTL) w w' -> world_ok w' /\ grows (store (shared w)) (store (shared w')).
Proof.
  intros Hw Hsteps. induction Hsteps as [w|w x w' Hs _ IH]; [by split|]. destruct (evidence_step_ok _ _ Hw Hs) as [Hx Hg].
  destruct (IH Hx) as [Hw' Hg']. split; [done|by etrans].
Qed.

Lemma evidence_start_ok rows n : world_ok (start_world rows n).
Proof.
  split; [split; [split|constructor|constructor]|]; cbn.
  - intros k g. by rewrite lookup_empty.
  - intros rid row. by rewrite lookup_empty.
  - intros rid rid' row row'. by rewrite lookup_empty.
  - by apply Forall_forall; intros l ->%list_elem_of_In%repeat_spec.
Qed.
End Workers.

(** ** What grants guarantee *)
Module EvidenceSpec.
Section Spec.
Context (tenant : string) `{ContentLibraries} (resolve : Reference -> option Registry) (maximumTTL : Z).
#[local] Abbreviation runs := (rtc (world_step tenant resolve maximumTTL)).

(** C34: whatever the interleaving of issuers, readers and revocations, crashes and
    lost commits included, a grant is never claimed beyond its maximum of at most
    thirty-two uses: its counter is the number of the redemptions claimed on it, and
    each of them carries its own use from 1 to the counter, was claimed by the runner
    the grant names, and between its creation and its expiry. *)
Theorem grant_uses_bounded (rows : gmap string Record_) (n : nat) (w : World) (k : string) (g : Grant)
    (Hruns : runs (start_world rows n) w) (Hgrant : grants (store (shared w)) !! k = Some g) :
  let db := store (shared w) in
  1 <= MaximumUses g <= 32 /\ 0 <= Uses g <= MaximumUses g /\ Uses g = Z.of_nat (size (claims k db)) /\
  (forall rid row, claims k db !! rid = Some row -> exists u, ClaimedUse row = Some u /\ 1 <= u <= Uses g /\ RowRunner row = GRunner g /\
     RowDenial row = None /\ instant (GCreatedAt g) <= instant (AttemptedAt row) < instant (ExpiresAt g)) /\
  (forall rid rid' row row', claims k db !! rid = Some row -> claims k db !! rid' = Some row' -> ClaimedUse row = ClaimedUse row' -> rid = rid').
Proof.
  intros db. destruct (evidence_steps_ok _ _ _ _ _ (evidence_start_ok rows n) Hruns) as [[[Hok _ _] _] _]. destruct (grant_rows _ Hok _ _ Hgrant) as (_ & [Hm Hu] & Hs).
  split; [done|]. split; [done|]. split; [done|]. split.
  - intros rid row (Hrow & Hk & Hc)%lookup_claims. destruct (ClaimedUse row) as [u|] eqn:Hcu; [|done]. exists u. split; [done|].
    destruct (claim_rows _ Hok _ _ Hrow u Hcu) as (g' & Hg' & Hrest). rewrite Hk in Hg'. by simplify_eq.
  - intros rid rid' row row' (Hr & Hk & Hc)%lookup_claims (Hr' & Hk' & Hc')%lookup_claims Heq. eapply (use_unique _ Hok); try done. congruence.
Qed.


(** The rows of redemptions and of outcomes are never changed once written, the
    terms of a grant never change, its counter only grows, and from its revocation on
    no new claim is made on it; an asset keeps its content, and once withdrawn it is
    never read again. *)
Theorem grants_only_narrow (rows : gmap string Record_) (n : nat) (w w' : World) (Hruns : runs (start_world rows n) w) (Hthen : runs w w') :
  let db := store (shared w) in let db' := store (shared w') in
  redemptions db ⊆ redemptions db' /\ outcomes db ⊆ outcomes db' /\
  (forall k g, grants db !! k = Some g -> exists g', grants db' !! k = Some g' /\ same_terms g' g /\ Uses g <= Uses g' /\
     (RevokedAt g <> None -> RevokedAt g' = RevokedAt g /\ claims k db' = claims k db)) /\
  (forall k a, assets db !! k = Some a -> exists a', assets db' !! k = Some a' /\ Content a' = Content a /\ (CanRead a = false -> CanRead a' = false)).
Proof.
  intros db db'. destruct (evidence_steps_ok _ _ _ _ _ (evidence_start_ok rows n) Hruns) as [Hw _]. destruct (evidence_steps_ok _ _ _ _ _ Hw Hthen) as [Hw' [G A R O]].
  destruct Hw as [[Hok _ _] _], Hw' as [[Hok' _ _] _]. split; [done|]. split; [done|]. split.
  - intros k g Hg. destruct (G _ _ Hg) as (g' & Hg' & Ht & Hu & Hr). exists g'. split; [done|]. split; [done|]. split; [done|].
    intros Hrev. destruct (Hr Hrev) as [Hrev' Hu']. split; [done|].
    destruct (grant_rows _ Hok _ _ Hg) as (_ & _ & Hs), (grant_rows _ Hok' _ _ Hg') as (_ & _ & Hs').
    symmetry. apply map_subseteq_size_eq; [|unfold db, db'; lia]. by apply map_filter_subseteq_mono.
  - intros k a Ha. destruct (A _ _ Ha) as (a' & Ha' & _ & Hc & Hr). exists a'. split; [done|]. split; [done|]. intros Hf.
    destruct (CanRead a') eqn:Hc'; [|done]. rewrite <- (Hr eq_refl) in Hf. congruence.
Qed.

Lemma pending_completes rid g r : RestoreRedemption rid g GrantOutcomeBlank = Ok r -> is_ok (Complete r GrantOutcomeDenied) = true.
Proof.
  unfold Complete, RestoreRedemption. destruct (empty_string rid) eqn:E1; [done|]. destruct (empty_string (GrantID g)) eqn:E2; [done|].
  destruct (Uses g =? 0) eqn:E3; [done|]. intros [= <-]. cbn [ROutcome RedemptionID RGrant]. by rewrite E1, E2, E3.
Qed.

(** A replay of a pending claim is the claim, with no outcome. *)
Lemma replayed_claim db k rid runner now c r db' row : redemptions db !! rid = Some row -> outcomes db !! rid = None -> db_ok db ->
  ClaimGrant tenant db k rid runner now c = (Ok r, db') ->
  redemptions db' = redemptions db /\ outcomes db' = outcomes db /\ RowGrant row = GrantID (RGrant r) /\ ClaimedUse row = Some (Uses (RGrant r)) /\
  RowRunner row = GRunner (RGrant r) /\ RowDenial row = None /\ instant (AttemptedAt row) < instant (ExpiresAt (RGrant r)) /\
  ROutcome r = GrantOutcomeBlank /\ RedemptionID r = rid /\ rid <> ""%string /\ tenant <> ""%string /\ is_ok (Complete r GrantOutcomeDenied) = true.
Proof.
  intros Hrow Hnone Hok Hc. pose proof (ClaimGrant_ok _ _ _ _ _ _ _ _ _ Hc Hok) as (_ & _ & Hh). destruct (Hh r eq_refl) as (Hid & x & g & Hx & Hu & Hk & Hg & Ht).
  unfold ClaimGrant in Hc. destruct (transact _ _ _ _) as [found db0] eqn:Htr. apply transact_cases in Htr as [[-> He]|(fnd & Hb & Hr)]; [by destruct found as [[?|]|]|].
  destruct Hr as [->| ->]; [|done]. destruct fnd as [r'|]; [|done]. injection Hc as -> ->. unfold claim_body in Hb. rewrite Hrow in Hb. go_inv Hb.
  cbn in Hx, Hg. rewrite Hrow in Hx. injection Hx as <-.
  destruct (claim_rows _ Hok _ _ Hrow _ Hu) as (g' & Hg' & _ & Hrun & Hden & _ & Htime). rewrite Hk, Hg in Hg'. injection Hg' as <-.
  destruct (scope_fields _ _ Ht) as (_ & _ & R & _ & _ & _ & _ & _ & E).
  unfold restoreExistingRedemption in Hv. destruct (_ || _ || _ || _); [done|]. destruct (grants db !! k) as [gk|]; [|done]. go_inv Hv.
  rewrite Hnone in Hv1. pose proof (RestoreRedemption_Ok _ _ _ _ Hv1) as Hre. pose proof (pending_completes _ _ _ Hv1) as Hcomplete. unfold RestoreRedemption in Hv1. go_inv Hv1. bprop.
  rewrite <- E, <- R. split_and!; try done; [by rewrite Hre|by apply String.eqb_neq|by apply String.eqb_neq].
Qed.

(** The first outcome of a claimed redemption is recorded. *)
Lemma record_first db r row outcome t : tenant <> ""%string -> RedemptionID r <> ""%string -> GTenantID (RGrant r) = tenant -> is_zero t = false ->
  is_ok (Complete r outcome) = true -> redemptions db !! RedemptionID r = Some row -> ClaimedUse row = Some (Uses (RGrant r)) -> RowDenial row = None ->
  RowGrant row = GrantID (RGrant r) -> RowRunner row = GRunner (RGrant r) -> instant (AttemptedAt row) <= instant t -> outcomes db !! RedemptionID r = None ->
  RecordGrantOutcome tenant db r outcome t Committed =
  (Ok tt, mk_database (assets db) (grants db) (redemptions db)
     (<[RedemptionID r := mk_outcome_row (GrantID (RGrant r)) outcome
          (if bool_decide (outcome = GrantOutcomeDenied) then Some "post_claim_denied"%string else None) t]> (outcomes db)) (attempts db) (audit_rows db)).
Proof.
  intros Ht Hr Hg Hz Hc Hrow Hu Hd Hk Hrun Hle Hnone. unfold RecordGrantOutcome, empty_string.
  rewrite (proj2 (String.eqb_neq _ _) Ht), (proj2 (String.eqb_neq _ _) Hr), Hg, String.eqb_refl, Hz. cbn [orb negb].
  destruct (Complete r outcome); [|done]. cbn [rbind]. rewrite Hrow, Hu, Hd, Hk, Hrun, String.eqb_refl. rewrite (bool_decide_eq_false_2 (Some (Uses (RGrant r)) = None)), !bool_decide_eq_true_2 by done.
  cbn [orb negb]. rewrite (proj2 (before_false _ _)) by done. unfold createOrVerifyOutcome. by rewrite Hnone.
Qed.

(** A read that released its plaintext, but whose success was not recorded,
    becomes a denial for good when its redemption is presented again at or after the
    expiry of the grant: the read finishes as denied, the denial is recorded next to
    the delivery, and no success can be recorded any more. *)
Theorem released_read_recorded_as_denied (rows : gmap string Record_) (n : nat) (w : World) (d : Delivery) (r : Redemption) (db1 : Database)
    (runner : Runner) (b : ReceiverBinding) (i1 i2 i3 : Input)
    (Hruns : runs (start_world rows n) w) (Hd : d ∈ delivered (shared w)) (Hopen : outcomes (store (shared w)) !! DeliveredRedemption d = None)
    (Hop : op i1 = OpRead (mk_read_input (DeliveredGrant d) (DeliveredRedemption d) runner) b)
    (Hclaim : ClaimGrant tenant (store (shared w)) (DeliveredGrant d) (DeliveredRedemption d) runner (now i1) (commit i1) = (Ok r, db1))
    (Hgrant : DeliveredGrant d <> ""%string) (Htenant : GTenantID (RGrant r) = tenant)
    (Hexpired : instant (ExpiresAt (RGrant r)) <= instant (now i1)) (Hlater : instant (now i1) <= instant (now i3)) (Htime : is_zero (now i3) = false)
    (Hcrash : crash i1 = false /\ crash i2 = false /\ crash i3 = false) (Hcommit : commit i3 = Committed) :
  let step := work tenant resolve maximumTTL in
  exists l1 s1 l2 s2 s3 o, step Idle i1 (shared w) = (l1, s1) /\ step l1 i2 s1 = (l2, s2) /\ step l2 i3 s2 = (Returned (Err ErrReadDenied), s3) /\
    d ∈ delivered s3 /\ outcomes (store s3) !! DeliveredRedemption d = Some o /\ OutcomeValue o = GrantOutcomeDenied /\
    forall t c db', RecordGrantOutcome tenant (store s3) r GrantOutcomeSucceeded t c <> (Ok tt, db').
Proof.
  intros step. destruct (evidence_steps_ok _ _ _ _ _ (evidence_start_ok rows n) Hruns) as [[[Hok _ Hds] _] _]. rewrite Forall_forall in Hds.
  destruct (Hds _ Hd) as (row & _ & _ & Hrow & _). destruct Hcrash as (C1 & C2 & C3).
  destruct (replayed_claim _ _ _ _ _ _ _ _ _ Hrow Hopen Hok Hclaim) as (R1 & O1 & Hk & Hu & Hrun & Hden & Ht & Hblank & Hid & Hrid & Hten & Hcomplete).
  assert (Hinvalid : ValidFor r (DeliveredGrant d) runner (now i1) = false).
  { unfold ValidFor, ClaimedFor. rewrite Hblank. change (blank GrantOutcomeBlank) with true. cbv iota.
    rewrite (proj2 (before_false (now i1) (ExpiresAt (RGrant r)))) by done. by rewrite !andb_false_r. }
  assert (H1 : step Idle i1 (shared w) = (Claimed (mk_read_input (DeliveredGrant d) (DeliveredRedemption d) runner) b (now i1) r,
      mk_shared db1 (delivered (shared w)))).
  { unfold step, work. rewrite C1, Hop. unfold read_claim. cbn [ReadGrant ReadRedemption ReadRunner]. rewrite Hclaim. unfold empty_string.
    by rewrite !(proj2 (String.eqb_neq _ _)). }
  assert (H2 : step (Claimed (mk_read_input (DeliveredGrant d) (DeliveredRedemption d) runner) b (now i1) r) i2 (mk_shared db1 (delivered (shared w))) =
      (Finishing r GrantOutcomeDenied ErrReadDenied, mk_shared db1 (delivered (shared w)))).
  { unfold step, work. rewrite C2. unfold read_checked. cbn [ReadGrant ReadRedemption ReadRunner]. by rewrite Hinvalid, !orb_true_r. }
  set (o := mk_outcome_row (GrantID (RGrant r)) GrantOutcomeDenied (Some "post_claim_denied"%string) (now i3)).
  set (db3 := mk_database (assets db1) (grants db1) (redemptions db1) (<[RedemptionID r := o]> (outcomes db1)) (attempts db1) (audit_rows db1)).
  assert (H3 : step (Finishing r GrantOutcomeDenied ErrReadDenied) i3 (mk_shared db1 (delivered (shared w))) =
      (Returned (Err ErrReadDenied), mk_shared db3 (delivered (shared w)))).
  { unfold step, work. rewrite C3. cbn [store delivered]. rewrite Hcommit, (record_first _ _ row); try done; congruence || lia. }
  eexists _, _, _, _, _, o. split; [exact H1|]. split; [exact H2|]. split; [exact H3|]. split; [done|]. unfold db3. cbn [store outcomes]. rewrite <- Hid.
  split; [by rewrite lookup_insert_eq|]. split; [done|]. intros t c db' Hrec. apply transact_cases in Hrec as [[_ He]|(u & Hb & _)]; [done|].
  go_inv Hb. match type of Hb with context [redemptions ?x !! ?k] => destruct (redemptions x !! k) end; [|done]. go_inv Hb.
  unfold createOrVerifyOutcome in Hb. cbn [outcomes] in Hb. rewrite lookup_insert_eq in Hb. go_inv Hb. bprop. match goal with Hv : OutcomeValue o = _ |- _ => discriminate Hv end.
Qed.
End Spec.
End EvidenceSpec.

(** ** A concrete run *)
Module EvidenceWitness.

Section Drive.
Context (tenant : string) `{ContentLibraries} (resolve : Reference -> option Registry) (maximumTTL : Z).
Definition drive (w : World) (move : nat * Input) : World :=
  match workers w !! move.1 with
  | None => w
  | Some l => let '(l', s') := work tenant resolve maximumTTL l move.2 (shared w) in mk_world s' (<[move.1 := l']> (workers w))
  end.
Lemma drive_steps moves : forall w, rtc (world_step tenant resolve maximumTTL) w (fold_left drive moves w).
Proof.
  induction moves as [|m moves IH]; intros w; [reflexivity|]. cbn. etrans; [|apply IH]. unfold drive.
  destruct (workers w !! m.1) as [l|] eqn:Hl; [|reflexivity]. destruct (work _ _ _ _ _ _) as [l' s'] eqn:Hw. by eapply rtc_once, world_work.
Qed.
End Drive.

Definition zeros : string := "0000000000000000000000000000000000000000000000000000000000000000".
#[local] Instance libraries : ContentLibraries :=
  { content_sha256 := fun _ => zeros; marshal_document := fun _ => Some "{}"%string; parse_media_type := fun s => Some s }.
Definition digest : string := "sha256:" +:+ zeros.
Definition reference : Reference := mk_reference 1 1 digest.
Definition registry : Registry :=
  mk_registry reference (<["face" := ["image"]]> ∅) (<["camera" := [mk_support "face" ["image"] []]]> ∅) {["identity.kyc"]}.
Definition resolve (_ : Reference) : option Registry := Some registry.
Definition at_ (n : Z) : Time := mk_time (n * second) true.
Definition content : ContentRecord :=
  mk_content (ObjectStore.mk_object "evidence/one" "v1" 64 digest)
    (Crypto.mk_envelope 1 "AES256" "idenqa.evidence.content" (Kms.mk_wrapped "local" "key" "1" "AES" "k") 1 digest) digest "image/jpeg".
Definition asset : Record_ :=
  mk_record "evd" "ten" "sub" "ver" "face_image" "face" "image" "camera" [] reference "eu.west" "retention.short" 1 content IntegrityVerified StateAvailable
    1 (at_ 1) (at_ 1) "" None.
Definition runner : Runner := mk_runner "runner-1" "v1".
Definition actor : Actor := mk_actor "service.worker" "api".
Definition attribution : CommandAttribution := mk_attribution actor actor "check".
Definition grant_input : GrantInput := mk_grant_input "evd" "check.face" runner "identity.kyc" [VariantOriginal] "recipient.check" "destination.memory" 2 (60 * second) attribution.
Definition binding : ReceiverBinding := mk_binding runner "check.face" "destination.memory".
Definition issue : Op := OpIssue grant_input.
Definition read_ : Op := OpRead (mk_read_input "gra" "red" runner) binding.
Definition decision : AuthorizationDecision := mk_decision "aut" "ack" "policy.v1".
Definition input (crashes : bool) (o : Op) (t : Z) : Input := mk_input crashes o (at_ t) (Some "gra"%string) (Some decision) None (Ok digest) true Committed.
Definition rows : gmap string Record_ := <["evd" := asset]> ∅.
Definition start : World := start_world rows 2.

(** Worker 0 issues a grant, reads, releases the plaintext and crashes before it
    records the success. *)
Definition released : list (nat * Input) :=
  [(0%nat, input false issue 10); (0%nat, input false issue 10); (0%nat, input false issue 10);
   (0%nat, input false read_ 20); (0%nat, input false read_ 21); (0%nat, input false read_ 22); (0%nat, input false read_ 23); (0%nat, input false read_ 24);
   (0%nat, input true read_ 25)].
Definition after_release : World := fold_left (drive "ten" resolve hour) released start.
(** Worker 1 then revokes the grant. *)
Definition revoked_world : World := fold_left (drive "ten" resolve hour) [(1%nat, input false (OpRevoke "gra" attribution) 30)] after_release.
Definition the_grant : Grant :=
  match grants (store (shared after_release)) !! "gra"%string with Some g => g | None => mk_grant "" "" "" "" "" "" "" "" "" runner "" "" [] "" "" "" "" 0 0 zero_time zero_time None end.
Definition the_delivery : Delivery := mk_delivery "red" "gra" binding "evd" digest.


Lemma released_run : rtc (world_step "ten" resolve hour) start after_release.
Proof. apply drive_steps. Qed.
Example released_once : delivered (shared after_release) = [the_delivery] /\ Uses the_grant = 1 /\ outcomes (store (shared after_release)) = ∅.
Proof. vm_compute. by split. Qed.

Lemma grant_uses_bounded_witness :
  let db := store (shared after_release) in
  grants db !! "gra"%string = Some the_grant /\ Uses the_grant = Z.of_nat (size (claims "gra" db)) /\ Uses the_grant = 1.
Proof.
  assert (Hg : grants (store (shared after_release)) !! "gra"%string = Some the_grant) by (vm_compute; reflexivity).
  destruct (EvidenceSpec.grant_uses_bounded "ten" resolve hour rows 2 after_release "gra" the_grant released_run Hg) as (_ & _ & Hu & _).
  split; [exact Hg|]. split; [exact Hu|vm_compute; reflexivity].
Defined.


Lemma grants_only_narrow_witness :
  exists g', grants (store (shared revoked_world)) !! "gra"%string = Some g' /\ RevokedAt g' <> None /\ Uses the_grant <= Uses g'.
Proof.
  assert (Hg : grants (store (shared after_release)) !! "gra"%string = Some the_grant) by (vm_compute; reflexivity).
  destruct (EvidenceSpec.grants_only_narrow "ten" resolve hour rows 2 after_release revoked_world released_run (drive_steps _ _ _ _ _)) as (_ & _ & Hn & _).
  destruct (Hn _ _ Hg) as (g' & Hg' & _ & Hu & _). exists g'. split; [exact Hg'|]. split; [|exact Hu].
  assert (Hv : forall g0, grants (store (shared revoked_world)) !! "gra"%string = Some g0 -> RevokedAt g0 <> None)
    by (intros g0; vm_compute; intros [= <-]; discriminate).
  exact (Hv _ Hg').
Defined.

(** Worker 1 presents the redemption again after the expiry. *)
Definition replay : result Error Redemption * Database := ClaimGrant "ten" (store (shared after_release)) "gra" "red" runner (at_ 100) Committed.
Definition replayed : Redemption := match replay.1 with Ok r => r | Err _ => mk_redemption "" the_grant GrantOutcomeBlank end.
Lemma released_read_recorded_as_denied_witness :
  exists l1 s1 l2 s2 s3 o,
    work "ten" resolve hour Idle (input false read_ 100) (shared after_release) = (l1, s1) /\
    work "ten" resolve hour l1 (input false read_ 101) s1 = (l2, s2) /\
    work "ten" resolve hour l2 (input false read_ 102) s2 = (Returned (Err ErrReadDenied), s3) /\
    the_delivery ∈ delivered s3 /\ outcomes (store s3) !! "red"%string = Some o /\ OutcomeValue o = GrantOutcomeDenied.
Proof.
  assert (Hd : the_delivery ∈ delivered (shared after_release)).
  { replace (delivered (shared after_release)) with [the_delivery] by (vm_compute; reflexivity). apply list_elem_of_here. }
  assert (Ho : outcomes (store (shared after_release)) !! DeliveredRedemption the_delivery = None) by (vm_compute; reflexivity).
  assert (Hc : ClaimGrant "ten" (store (shared after_release)) (DeliveredGrant the_delivery) (DeliveredRedemption the_delivery) runner
    (now (input false read_ 100)) (commit (input false read_ 100)) = (Ok replayed, replay.2)) by (vm_compute; reflexivity).
  assert (Hg : DeliveredGrant the_delivery <> ""%string) by discriminate.
  assert (Ht : GTenantID (RGrant replayed) = "ten"%string) by (vm_compute; reflexivity).
  assert (He : instant (ExpiresAt (RGrant replayed)) <= instant (now (input false read_ 100))) by (vm_compute; discriminate).
  assert (Hl : instant (now (input false read_ 100)) <= instant (now (input false read_ 102))) by (vm_compute; discriminate).
  destruct (EvidenceSpec.released_read_recorded_as_denied "ten" resolve hour rows 2 after_release the_delivery replayed replay.2 runner binding
    (input false read_ 100) (input false read_ 101) (input false read_ 102) released_run Hd Ho eq_refl Hc Hg Ht He Hl eq_refl
    (conj eq_refl (conj eq_refl eq_refl)) eq_refl) as (l1 & s1 & l2 & s2 & s3 & o & H1 & H2 & H3 & H4 & H5 & H6 & _).
  exists l1, s1, l2, s2, s3, o. split; [exact H1|]. split; [exact H2|]. split; [exact H3|]. split; [exact H4|]. split; [exact H5|exact H6].
Defined.
End EvidenceWitness.
