(* ===== verification/Idempotency.v ===== *)
(** * Durable command replay

    [internal/platform/idempotency/idempotency.go] and
    [idempotency/postgres/store.go]: the scope and fingerprint of a command, its
    reservation, its completion and its replay, and the shape in which every store
    of the program uses them: reserve, replay or mutate and complete, in one
    transaction.

    SHA-256 and [encoding/json] are the class [IdempotencyLibraries]. *)

From S2P Require Import Prelude GoTime Ident Content.
From Stdlib Require Import Ascii.

Inductive Error := ErrConflict | ErrInProgress | ErrInvalid | ErrLifetime | ErrQuery.
#[export] Instance IdempotencyError_eq_dec : EqDecision Error. Proof. solve_decision. Defined.

Class IdempotencyLibraries := {
  sha256_sum : string -> string;
  (** [json.Valid] and an object that is not null. *)
  json_object : string -> bool;
}.

(** ** Requests and results *)

Definition fingerprintDomain : string := "idq-idempotency-request" +:+ String "000" ("v1" +:+ String "000" "").

Definition validOperation (value : string) : bool :=
  negb (empty_string value) && negb (200 <? slen value) && trimmed (runes value) &&
  match_head_tail is_lower (fun c => is_lower c || is_digit c || byte_of "_.:-" c) value.

Definition validKey (value : string) : bool :=
  negb (empty_string value) && negb (255 <? slen value) && trimmed (runes value) && forallb (fun r => negb ((r <? 32) || (r =? 127))) (runes value).

Definition token_byte (c : ascii) : bool := is_lower c || is_upper c || is_digit c || byte_of "_-" c.

(** The scope is the key of the record. *)
Abbreviation Scope := (string * string * string * string)%type.

Section Requests.
Context `{Ident.Ulid} `{IdempotencyLibraries}.

Definition NewFingerprint (canonical : string) : result Error string :=
  reject empty_string canonical with ErrInvalid ;;
  Ok (sha256_sum (fingerprintDomain +:+ canonical)).

Definition validPrincipal (value : string) : bool :=
  if is_ok (Ident.ParseAPIKey value) then true
  else if is_ok (Ident.ParseCaptureToken value) then true
  else if String.prefix "wld_" value && (8 <=? slen value) && (slen value <=? 128) then string_forall token_byte (Crypto.string_drop 4 value)
  else if negb (String.prefix "usr_" value) || (slen value <? 5) || (128 <? slen value) then false
  else string_forall token_byte (Crypto.string_drop 4 value).

Record Request := mk_request { scope_of : Scope; fingerprint : string; createdAt : Time; expiresAt : Time }.
Definition tenant_of (r : Request) : string := r.(scope_of).1.1.1.
Definition principal_of (r : Request) : string := r.(scope_of).1.1.2.

Definition NewRequest (tenantID principal operation key canonical : string) (now : Time) (retention : Z) : result Error Request :=
  reject empty_string tenantID || empty_string principal || negb (validPrincipal principal) || negb (validOperation operation) || negb (validKey key) ||
         is_zero now || (retention <=? 0) with ErrInvalid ;;
  let? fingerprint := NewFingerprint canonical in
  Ok (mk_request (tenantID, principal, operation, key) fingerprint (utc now) (add (utc now) retention)).

Record Result := mk_result { Status : Z; Body : string }.
#[export] Instance Result_eq_dec : EqDecision Result. Proof. solve_decision. Defined.

Definition NewResult (status : Z) (body : string) : result Error Result :=
  reject (status <? 200) || (599 <? status) || empty_string body || negb (json_object body) with ErrInvalid ;;
  Ok (mk_result status body).
End Requests.

(** ** Records *)

(** A record is pending until it has its result. *)
Record Row := mk_row { row_fingerprint : string; row_result : option Result; row_created : Time; row_expires : Time; row_completed : option Time }.
Abbreviation Records := (gmap Scope Row).

Section Store.
Context `{IdempotencyLibraries}.

Definition DeleteExpired (rs : Records) (k : Scope) (t : Time) : Records :=
  match rs !! k with
  | Some row => if after (row_expires row) t then rs else delete k rs
  | None => rs
  end.

Definition stored_result (row : Row) (fingerprint : string) : result Error Result :=
  reject negb (String.eqb (row_fingerprint row) fingerprint) with ErrConflict ;;
  match row_result row with
  | None => Err ErrInProgress
  | Some r => NewResult (Status r) (Body r)
  end.

(** [None]: the caller owns the execution.  [locked] is the answer of the advisory
    lock, which another transaction may hold. *)
Definition Reserve (rs : Records) (locked : bool) (request : Request) : result Error (option Result * Records) :=
  reject negb locked with ErrInProgress ;;
  let rs := DeleteExpired rs (scope_of request) (createdAt request) in
  match rs !! scope_of request with
  | None => Ok (None, <[scope_of request := mk_row (fingerprint request) None (createdAt request) (expiresAt request) None]> rs)
  | Some row => let? r := stored_result row (fingerprint request) in Ok (Some r, rs)
  end.

Definition Replay (rs : Records) (request : Request) (now : Time) : result Error (option Result) :=
  reject is_zero now with ErrInvalid ;;
  match rs !! scope_of request with
  | None => Ok None
  | Some row =>
      if negb (after (row_expires row) now) then Ok None
      else let? r := stored_result row (fingerprint request) in Ok (Some r)
  end.

Definition Complete (rs : Records) (request : Request) (r : Result) (completedAt : Time) : result Error Records :=
  reject is_zero completedAt || before completedAt (createdAt request) || after completedAt (expiresAt request) with ErrLifetime ;;
  match rs !! scope_of request with
  | None => Err ErrConflict
  | Some row =>
      reject negb (String.eqb (row_fingerprint row) (fingerprint request)) || negb (match row_result row with None => true | Some _ => false end)
        with ErrConflict ;;
      Ok (<[scope_of request := mk_row (row_fingerprint row) (Some r) (row_created row) (row_expires row) (Some (utc completedAt))]> rs)
  end.
End Store.

(** ** The command of a store: reserve, then replay or mutate and complete *)

Section Command.
Context `{IdempotencyLibraries} {E D A : Type} (lift : Error -> E).

Record Tables := mk_tables { domain : D; records : Records }.

(** [body] mutates the domain and names the result to keep and its instant;
    [replayed] reads the answer of the kept result. *)
Definition command (locked : bool) (request : Request) (replayed : Result -> D -> result E A) (body : D -> result E (A * Result * Time * D))
    (t : Tables) : result E (A * Tables) :=
  match Reserve (records t) locked request with
  | Err e => Err (lift e)
  | Ok (Some r, rs) => let? a := replayed r (domain t) in Ok (a, mk_tables (domain t) rs)
  | Ok (None, rs) =>
      let? out := body (domain t) in
      let '(a, r, completedAt, d) := out in
      match Complete rs request r completedAt with
      | Err e => Err (lift e)
      | Ok rs' => Ok (a, mk_tables d rs')
      end
  end.

(** A served command answers from a kept result, or runs its body. *)
Lemma command_Ok locked request replayed body t a t' : command locked request replayed body t = Ok (a, t') ->
  (domain t' = domain t /\ exists r, replayed r (domain t) = Ok a) \/ exists r at_ d, body (domain t) = Ok (a, r, at_, d) /\ domain t' = d.
Proof.
  unfold command. intros Hc. destruct (Reserve _ _ _) as [[[r|] rs]|e]; [| |done].
  - go_inv Hc. left. split; [done|]. by exists r.
  - go_inv Hc. destruct v as [[[x r] at_] d]. destruct (Complete _ _ _ _) as [rs'|e]; [|done]. injection Hc as <- <-. right. by exists r, at_, d.
Qed.

Lemma served_cases failed locked request replayed body t c answer t' :
  transact failed t c (command locked request replayed body t) = (answer, t') ->
  domain t' = domain t \/ exists a r at_ d, body (domain t) = Ok (a, r, at_, d) /\ domain t' = d.
Proof.
  intros [[-> _]|(a & Hb & _)]%transact_cases; [by left|]. apply command_Ok in Hb as [[Hd _]|(r & at_ & d & Hb & Hd)]; [by left|right; by exists a, r, at_, d].
Qed.
End Command.
Arguments Tables : clear implicits.
Arguments mk_tables {D}.

(** ** Commands are applied once *)
Module IdempotencySpec.
Section Spec.
Context `{IdempotencyLibraries} {E D A : Type} (lift : Error -> E) (failed : E).

Record Call := mk_call {
  c_locked : bool; c_request : Request; c_commit : Commit; c_replayed : Result -> D -> result E A; c_body : D -> result E (A * Result * Time * D) }.

Definition serve (c : Call) (t : Tables D) : result E A * Tables D :=
  transact failed t (c_commit c) (command lift (c_locked c) (c_request c) (c_replayed c) (c_body c) t).

(** A command whose mutation is committed. *)
Record Applied := mk_applied { a_request : Request; a_result : Result }.
Definition applied (c : Call) (t : Tables D) : option Applied :=
  match c_commit c, Reserve (records t) (c_locked c) (c_request c), c_body c (domain t) with
  | RolledBack, _, _ => None
  | _, Ok (None, rs), Ok (_, r, completedAt, _) => if is_ok (Complete rs (c_request c) r completedAt) then Some (mk_applied (c_request c) r) else None
  | _, _, _ => None
  end.
Fixpoint run (calls : list Call) (t : Tables D) (history : list Applied) : Tables D * list Applied :=
  match calls with
  | [] => (t, history)
  | c :: rest => run rest (serve c t).2 (history ++ option_list (applied c t))
  end.

Definition of_scope (k : Scope) (history : list Applied) : list Applied := filter (fun a => scope_of (a_request a) = k) history.
Definition kept (row : Row) (a : Applied) : Prop :=
  row_fingerprint row = fingerprint (a_request a) /\ row_result row = Some (a_result a) /\ row_expires row = expiresAt (a_request a).
Definition after_retention (a b : Applied) : Prop := instant (expiresAt (a_request a)) <= instant (createdAt (a_request b)).

Record log_ok (rs : Records) (history : list Applied) : Prop := mk_log_ok {
  log_last k : match last (of_scope k history) with None => rs !! k = None | Some a => exists row, rs !! k = Some row /\ kept row a end;
  log_sorted k : StronglySorted after_retention (of_scope k history);
  log_lifetime : Forall (fun a => instant (createdAt (a_request a)) <= instant (expiresAt (a_request a))) history;
}.

Lemma of_scope_snoc k history a : of_scope k (history ++ [a]) = of_scope k history ++ (if decide (scope_of (a_request a) = k) then [a] else []).
Proof. unfold of_scope. rewrite filter_app. cbn. by destruct (decide _). Qed.

Lemma sorted_snoc l a : StronglySorted after_retention l -> Forall (fun b => instant (createdAt (a_request b)) <= instant (expiresAt (a_request b))) l ->
  (forall b, last l = Some b -> after_retention b a) -> StronglySorted after_retention (l ++ [a]).
Proof.
  induction l as [|x l IH]; intros Hs Hl Hlast; [repeat constructor|]. inversion_clear Hs. inversion_clear Hl. cbn. constructor.
  - apply IH; [done|done|]. intros b Hb. apply Hlast. destruct l; [done|exact Hb].
  - apply Forall_app. split; [done|]. constructor; [|done]. destruct l as [|y l]; [by apply Hlast|].
    destruct (last (y :: l)) as [b|] eqn:Hb; [|by apply last_None in Hb]. pose proof (Hlast b Hb) as Hba. apply last_Some in Hb as [l' Hl'].
    rewrite Hl' in *. match goal with Hf : Forall (after_retention x) _ |- _ => apply Forall_app in Hf as [_ Hf]; inversion_clear Hf end.
    match goal with Hf : Forall _ (l' ++ [b]) |- _ => apply Forall_app in Hf as [_ Hf]; inversion_clear Hf end. unfold after_retention in *. lia.
Qed.

(** What an owner found, and what its completion leaves. *)
Lemma Reserve_owner rs locked request rs' : Reserve rs locked request = Ok (None, rs') ->
  (forall row, rs !! scope_of request = Some row -> instant (row_expires row) <= instant (createdAt request)) /\
  rs' !! scope_of request = Some (mk_row (fingerprint request) None (createdAt request) (expiresAt request) None) /\
  forall k, k <> scope_of request -> rs' !! k = rs !! k.
Proof.
  unfold Reserve. intros Hr. go_inv Hr. cbv zeta in Hr. destruct (DeleteExpired rs (scope_of request) (createdAt request) !! scope_of request) as [row|] eqn:Hd.
  { go_inv Hr. done. }
  injection Hr as <-. unfold DeleteExpired in *. split; [|split; [by rewrite lookup_insert_eq|]].
  - intros row Hrow. rewrite Hrow in Hd. destruct (after _ _) eqn:Ha; [congruence|]. by apply after_false in Ha.
  - intros k Hk. rewrite lookup_insert_ne by done. destruct (rs !! scope_of request) as [row|]; [|done]. destruct (after _ _); [done|]. by rewrite lookup_delete_ne.
Qed.

Lemma Reserve_replay rs locked request r rs' : Reserve rs locked request = Ok (Some r, rs') ->
  rs' = rs /\ exists row, rs !! scope_of request = Some row /\ row_fingerprint row = fingerprint request /\
    (exists r0, row_result row = Some r0 /\ NewResult (Status r0) (Body r0) = Ok r) /\ instant (createdAt request) < instant (row_expires row).
Proof.
  unfold Reserve. intros Hr. go_inv Hr. cbv zeta in Hr. destruct (DeleteExpired _ _ _ !! _) as [row|] eqn:Hd; [|done]. go_inv Hr.
  unfold DeleteExpired in *. destruct (rs !! scope_of request) as [row0|] eqn:Hrow; [|congruence]. destruct (after _ _) eqn:Ha; [|by rewrite lookup_delete_eq in Hd].
  split; [done|]. exists row. assert (row0 = row) as -> by congruence. split; [done|]. unfold stored_result in Hv. go_inv Hv. bprop. split; [done|].
  apply after_true in Ha. destruct (row_result row) as [r0|]; [|done]. split; [by exists r0|done].
Qed.

Lemma Complete_Ok rs request r t rs' : Complete rs request r t = Ok rs' -> instant (createdAt request) <= instant (expiresAt request) /\
  exists row, rs !! scope_of request = Some row /\
    rs' = <[scope_of request := mk_row (row_fingerprint row) (Some r) (row_created row) (row_expires row) (Some (utc t))]> rs.
Proof.
  unfold Complete. intros Hc. go_inv Hc. bprop. destruct (rs !! scope_of request) as [row|] eqn:Hrow; [|done]. go_inv Hc. split.
  - match goal with Hb : before _ _ = false |- _ => apply before_false in Hb end. match goal with Ha : after _ _ = false |- _ => apply after_false in Ha end. lia.
  - exists row. done.
Qed.

Lemma is_ok_Ok {X Y : Type} (r : result X Y) : is_ok r = true -> exists a, r = Ok a.
Proof. destruct r; [eauto|done]. Qed.

(** A call is applied or leaves the tables alone. *)
Lemma serve_cases c t : (applied c t = None /\ (serve c t).2 = t) \/
  exists a r at_ d rs rs', applied c t = Some (mk_applied (c_request c) r) /\ Reserve (records t) (c_locked c) (c_request c) = Ok (None, rs) /\
    c_body c (domain t) = Ok (a, r, at_, d) /\ Complete rs (c_request c) r at_ = Ok rs' /\ (serve c t).2 = mk_tables d rs'.
Proof.
  unfold serve. destruct (transact failed t (c_commit c) (command lift (c_locked c) (c_request c) (c_replayed c) (c_body c) t)) as [answer t'] eqn:Ht.
  unfold applied, command in *. destruct (Reserve (records t) (c_locked c) (c_request c)) as [[[r|] rs]|e] eqn:Hr.
  - left. apply Reserve_replay in Hr as [-> _]. split; [by destruct (c_commit c)|]. apply transact_cases in Ht as [[-> _]|(x & Hb & _)]; [done|].
    go_inv Hb. by destruct t.
  - destruct (c_body c (domain t)) as [[[[a r] at_] d]|e]; cbn [rbind] in Ht.
    2:{ left. injection Ht as _ <-. split; [by destruct (c_commit c)|done]. }
    destruct (Complete rs (c_request c) r at_) as [rs'|e] eqn:Hcomp; cbn [is_ok].
    2:{ left. injection Ht as _ <-. split; [by destruct (c_commit c)|done]. }
    cbn [transact] in Ht. destruct (c_commit c); injection Ht as _ <-; [right|by left|right]; by exists a, r, at_, d, rs, rs'.
  - left. injection Ht as _ <-. split; [by destruct (c_commit c)|done].
Qed.

(** Every call keeps the log. *)
Lemma serve_log c t history : log_ok (records t) history -> log_ok (records (serve c t).2) (history ++ option_list (applied c t)).
Proof.
  intros Hok. destruct (serve_cases c t) as [[-> ->]|(a & r & at_ & d & rs & rs' & -> & Hr & _ & Hcomp & ->)]; [by rewrite app_nil_r|].
  unfold option_list. cbn [maybe option_rect from_option records]. apply Reserve_owner in Hr as (Hold & Hnew & Hne). apply Complete_Ok in Hcomp as (Hle & row & Hrow & ->). rewrite Hnew in Hrow. injection Hrow as <-.
  destruct Hok as [L S F]. split.
  - intros k. rewrite of_scope_snoc. cbn [a_request]. destruct (decide _) as [<-|Hk].
    + rewrite last_snoc, lookup_insert_eq. eexists. split; [reflexivity|]. by repeat split.
    + rewrite app_nil_r. specialize (L k). rewrite lookup_insert_ne, Hne by done. exact L.
  - intros k. rewrite of_scope_snoc. cbn [a_request]. destruct (decide _) as [<-|Hk]; [|rewrite app_nil_r; apply S].
    apply sorted_snoc; [apply S|unfold of_scope; rewrite Forall_forall in *; intros b [_ Hb]%list_elem_of_filter; by apply F|].
    intros b Hb. specialize (L (scope_of (c_request c))). rewrite Hb in L. destruct L as (row & Hrow & _ & _ & He). unfold after_retention. cbn. rewrite <- He. by apply Hold.
  - apply Forall_app. split; [done|]. by repeat constructor.
Qed.

Lemma run_log calls : forall t history, log_ok (records t) history -> log_ok (records (run calls t history).1) (run calls t history).2.
Proof. induction calls as [|c calls IH]; intros t history Hok; [done|]. by apply IH, serve_log. Qed.

Lemma empty_log : log_ok ∅ [].
Proof. split; [intros k; cbn; by rewrite lookup_empty|constructor|done]. Qed.
(** The mutations of the applied commands, in order. *)
Fixpoint mutations (calls : list Call) (t : Tables D) : list Call :=
  match calls with
  | [] => []
  | c :: rest => (match applied c t with Some _ => [c] | None => [] end) ++ mutations rest (serve c t).2
  end.
Definition mutate (d : D) (c : Call) : D := match c_body c d with Ok (_, _, _, d') => d' | Err _ => d end.

Lemma run_domain calls : forall t history, domain (run calls t history).1 = fold_left mutate (mutations calls t) (domain t).
Proof.
  induction calls as [|c calls IH]; intros t history; [done|]. cbn [run mutations]. rewrite IH, fold_left_app. f_equal.
  destruct (serve_cases c t) as [[-> ->]|(a & r & at_ & d & rs & rs' & -> & _ & Hb & _ & ->)]; [done|]. cbn. unfold mutate. by rewrite Hb.
Qed.

(** C38: whatever commands are served in whatever order, with whatever clock readings,
    failures and lost commits, the commands of one scope that were applied are spaced
    by their retention, the domain is changed by exactly the applied commands, and a
    later command of a scope whose last applied command is still retained is never
    applied: with the same fingerprint it is answered from the kept result, and with
    another it is refused. *)
Theorem command_applied_once (calls : list Call) (d : D) (c : Call) (t : Tables D) (history : list Applied)
    (Hrun : run calls (mk_tables d ∅) [] = (t, history))
    (Hresults : Forall (fun a => NewResult (Status (a_result a)) (Body (a_result a)) = Ok (a_result a)) history) :
  domain t = fold_left mutate (mutations calls (mk_tables d ∅)) d /\
  (forall k, StronglySorted after_retention (of_scope k history)) /\
  (applied c t = None -> domain (serve c t).2 = domain t) /\
  forall a, last (of_scope (scope_of (c_request c)) history) = Some a -> instant (createdAt (c_request c)) < instant (expiresAt (a_request a)) ->
    applied c t = None /\
    (c_locked c = false -> serve c t = (Err (lift ErrInProgress), t)) /\
    (c_locked c = true -> fingerprint (c_request c) <> fingerprint (a_request a) -> serve c t = (Err (lift ErrConflict), t)) /\
    (c_locked c = true -> fingerprint (c_request c) = fingerprint (a_request a) ->
       c_commit c = Committed -> serve c t = (c_replayed c (a_result a) (domain t), t)).
Proof.
  pose proof (run_log calls (mk_tables d ∅) [] empty_log) as Hlog. pose proof (run_domain calls (mk_tables d ∅) []) as Hdom. rewrite Hrun in Hlog, Hdom. cbn [fst snd domain] in *.
  split; [done|]. split; [apply (log_sorted _ _ Hlog)|]. split.
  { intros Hn. destruct (serve_cases c t) as [[_ ->]|(? & ? & ? & ? & ? & ? & Ha & _)]; [done|congruence]. }
  intros a Ha Hlive. pose proof (log_last _ _ Hlog (scope_of (c_request c))) as Hrow. rewrite Ha in Hrow. destruct Hrow as (row & Hrow & Hf & Hr & He).
  assert (Hvalid : NewResult (Status (a_result a)) (Body (a_result a)) = Ok (a_result a)).
  { rewrite Forall_forall in Hresults. apply Hresults. apply last_Some in Ha as [l Hl]. assert (Hin : a ∈ of_scope (scope_of (c_request c)) history) by (rewrite Hl; set_solver).
    by apply list_elem_of_filter in Hin as [_ Hin]. }
  assert (Hreserve : Reserve (records t) (c_locked c) (c_request c) =
      if c_locked c then (let? r := stored_result row (fingerprint (c_request c)) in Ok (Some r, records t)) else Err ErrInProgress).
  { unfold Reserve, DeleteExpired. rewrite Hrow, He, (proj2 (after_true _ _)) by done. destruct (c_locked c); [|done]. cbn [negb]. cbv zeta. by rewrite Hrow. }
  unfold stored_result in Hreserve. rewrite Hf, Hr, Hvalid in Hreserve.
  split; [|split; [|split]].
  - unfold applied. rewrite Hreserve. destruct (c_locked c); [|by destruct (c_commit c)]. destruct (negb _); by destruct (c_commit c).
  - intros Hl. unfold serve, command. rewrite Hreserve, Hl. done.
  - intros Hl Hne. unfold serve, command. rewrite Hreserve, Hl, (proj2 (String.eqb_neq _ _)) by congruence. done.
  - intros Hl Heq Hc. unfold serve, command. rewrite Hreserve, Hl, Heq, String.eqb_refl. cbn [negb rbind].
    destruct (c_replayed c (a_result a) (domain t)); cbn [rbind transact]; [rewrite Hc; by destruct t|done].
Qed.
End Spec.
End IdempotencySpec.

(** ** A counter served twice *)
Module IdempotencyWitness.
Import IdempotencySpec.

#[local] Instance libraries : IdempotencyLibraries := { sha256_sum := fun s => s; json_object := fun s => String.prefix "{" s }.
Definition at_ (n : Z) : Time := mk_time n true.
Definition request (n : Z) (canonical : string) : Request := mk_request ("ten", "key", "count", "k")%string canonical (at_ n) (at_ (n + 10)).
Definition kept_result : Result := mk_result 200 "{}".
Definition increment (n : Z) (canonical : string) (fate : Commit) : Call (E := Error) (D := Z) (A := Z) :=
  mk_call true (request n canonical) fate (fun _ d => Ok d) (fun d => Ok (d + 1, kept_result, at_ n, d + 1)).
Definition calls : list (Call (E := Error) (D := Z) (A := Z)) := [increment 1 "a" CommittedUnseen; increment 2 "a" Committed; increment 3 "b" Committed].

Lemma command_applied_once_witness :
  let '(t, history) := run (fun e => e) ErrQuery calls (mk_tables 0 ∅) [] in
  domain t = 1 /\ serve (fun e => e) ErrQuery (increment 5 "a" Committed) t = (Ok 1, t) /\
  serve (fun e => e) ErrQuery (increment 5 "b" Committed) t = (Err ErrConflict, t).
Proof.
  destruct (run (fun e => e) ErrQuery calls (mk_tables 0 ∅) []) as [t history] eqn:Hrun.
  assert (Hd : domain t = 1) by (change t with (t, history).1; rewrite <- Hrun; vm_compute; reflexivity).
  assert (Hh : history = [mk_applied (request 1 "a") kept_result]) by (change history with (t, history).2; rewrite <- Hrun; vm_compute; reflexivity).
  assert (Hres : Forall (fun a => NewResult (Status (a_result a)) (Body (a_result a)) = Ok (a_result a)) history)
    by (rewrite Hh; constructor; [vm_compute; reflexivity|constructor]).
  split; [exact Hd|]. split.
  - destruct (command_applied_once (fun e => e) ErrQuery calls 0 (increment 5 "a" Committed) t history Hrun Hres) as (_ & _ & _ & Hl).
    destruct (Hl (mk_applied (request 1 "a") kept_result)) as (_ & _ & _ & Hr); [rewrite Hh; reflexivity|reflexivity|].
    rewrite Hr by reflexivity. cbn. rewrite Hd. reflexivity.
  - destruct (command_applied_once (fun e => e) ErrQuery calls 0 (increment 5 "b" Committed) t history Hrun Hres) as (_ & _ & _ & Hl).
    destruct (Hl (mk_applied (request 1 "a") kept_result)) as (_ & _ & Hr & _); [rewrite Hh; reflexivity|reflexivity|].
    apply Hr; [reflexivity|discriminate].
Defined.
End IdempotencyWitness.
