(* ===== verification/Authority.v ===== *)
(** * Processing authority, notices and subject responses

    [internal/authority/authority.go]: content-addressed notices, the declaration of
    authority over one verification with its irreversible transitions, the subject's
    responses, and the evaluation that permits one operation on evidence.

    The encoder of a notice and SHA-256 are the class [AuthorityLibraries].
    Identifiers are their texts; the zero identifier is the empty text. *)

From S2P Require Import Prelude GoTime Content Lifecycle Evidence.
From Stdlib Require Import Ascii.

Inductive Error := ErrNotFound | ErrConflict | ErrVersionConflict | ErrProcessingNotPermitted | ErrSubjectResponseRequired | ErrInvalid | ErrDenied |
  ErrIdempotencyConflict | ErrInProgress | ErrQuery.
#[export] Instance AuthorityError_eq_dec : EqDecision Error. Proof. solve_decision. Defined.

(** ** Texts *)

Definition maxCodeLength : Z := 200.
Definition maxDisplayLength : Z := 200.
Definition maxCopyLength : Z := 8000.
Definition maxLocaleLength : Z := 35.
Definition maxScopedValues : Z := 64.

(** [utf8.ValidString]: no byte fails to start or continue a rune; a well-formed
    U+FFFD takes three bytes. *)
Fixpoint valid_runes (fuel : nat) (bytes : list Z) : bool :=
  match fuel, bytes with
  | O, _ | _, [] => true
  | S fuel', _ => let '(r, n) := decode_rune bytes in negb ((r =? rune_error) && (Nat.eqb n 1)) && valid_runes fuel' (drop n bytes)
  end.
Definition valid_utf8 (s : string) : bool := valid_runes (String.length s) (map Content.byte_of_ascii (String.list_ascii_of_string s)).

Definition validateCode (value : string) : bool :=
  negb (empty_string value) && negb (maxCodeLength <? slen value) && valid_utf8 value && trimmed (runes value) && Evidence.segments false false value.

(** [slices.Compact] drops adjacent repetitions only. *)
Definition validateCodeSet (values : list string) : bool :=
  negb (llen values =? 0) && negb (maxScopedValues <? llen values) && forallb validateCode values && (llen (compact values) =? llen values).
Definition canonicalSet (values : list string) : list string := compact (sort_strings values).

Definition validateLocale (value : string) : bool :=
  negb (slen value <? 2) && negb (maxLocaleLength <? slen value) && trimmed (runes value) &&
  string_forall (fun c => is_lower c || is_upper c || is_digit c || byte_of "-" c) value.
Definition validateDisplay (value : string) : bool :=
  negb (empty_string value) && negb (maxDisplayLength <? slen value) && valid_utf8 value && trimmed (runes value) && no_line_break value.

(** ** Notices *)

Record NoticeCopy := mk_copy { Title : string; Summary : string; CopyPurpose : string; Consequences : string }.
#[export] Instance NoticeCopy_eq_dec : EqDecision NoticeCopy. Proof. solve_decision. Defined.
Definition copy_text (value : string) : bool :=
  negb (empty_string value) && negb (maxCopyLength <? slen value) && valid_utf8 value && trimmed (runes value).
Definition validateCopy (c : NoticeCopy) : bool := forallb copy_text [Title c; Summary c; CopyPurpose c; Consequences c].

(** What the digest of a notice covers. *)
Record NoticeDocument := mk_notice_document {
  DocKey : string; DocLocale : string; DocController : string; DocRecipient : string; DocCopy : NoticeCopy; DocEffectiveAt : Time }.
Record Notice := mk_notice {
  NoticeID : string; NTenantID : string; Key : string; Locale : string; Controller : string; Recipient : string; Copy : NoticeCopy;
  EffectiveAt : Time; NCreatedAt : Time; NCreatedBy : string; Digest : string }.
#[export] Instance Notice_eq_dec : EqDecision Notice. Proof. solve_decision. Defined.

Class AuthorityLibraries := {
  notice_sha256 : string -> string;
  marshal_notice : NoticeDocument -> option string;
}.

Section Notices.
Context `{AuthorityLibraries}.

Definition noticeDigest (n : Notice) : option string :=
  match marshal_notice (mk_notice_document (Key n) (Locale n) (Controller n) (Recipient n) (Copy n) (EffectiveAt n)) with
  | None => None
  | Some encoded => Some ("sha256:" +:+ notice_sha256 encoded)
  end.

Definition with_digest (n : Notice) (digest : string) : Notice :=
  mk_notice (NoticeID n) (NTenantID n) (Key n) (Locale n) (Controller n) (Recipient n) (Copy n) (EffectiveAt n) (NCreatedAt n) (NCreatedBy n) digest.

Definition NewNotice (n : Notice) : result Error Notice :=
  let n := mk_notice (NoticeID n) (NTenantID n) (Key n) (Locale n) (Controller n) (Recipient n) (Copy n)
    (truncate (utc (EffectiveAt n)) microsecond) (truncate (utc (NCreatedAt n)) microsecond) (NCreatedBy n) "" in
  reject empty_string (NoticeID n) || empty_string (NTenantID n) || empty_string (NCreatedBy n) || is_zero (EffectiveAt n) || is_zero (NCreatedAt n)
    with ErrInvalid ;;
  reject negb (validateCode (Key n)) with ErrInvalid ;;
  reject negb (validateLocale (Locale n)) with ErrInvalid ;;
  reject negb (validateDisplay (Controller n)) with ErrInvalid ;;
  reject negb (validateDisplay (Recipient n)) with ErrInvalid ;;
  reject negb (validateCopy (Copy n)) with ErrInvalid ;;
  match noticeDigest n with
  | None => Err ErrInvalid
  | Some digest => Ok (with_digest n digest)
  end.

Definition RestoreNotice (n : Notice) : result Error Notice :=
  let? notice := NewNotice n in
  reject empty_string (Digest n) || negb (String.eqb (Digest notice) (Digest n)) with ErrInvalid ;;
  Ok notice.
End Notices.

(** ** Declarations *)

Inductive State := StateActive | StateRestricted | StateWithdrawn | StateSuperseded | StateOther (raw : string).
#[export] Instance AuthorityState_eq_dec : EqDecision State. Proof. solve_decision. Defined.
Definition authority_state_is (a b : State) : bool := bool_decide (a = b).

Record Authority := mk_authority {
  ID : string;
  TenantID : string;
  SubjectID : string;
  VerificationID : string;
  ANoticeID : string;
  Category : string;
  Purpose : string;
  Jurisdiction : string;
  PolicyPack : string;
  IsConsentRequired : bool;
  RequirementPurposes : list string;
  EvidenceTypes : list string;
  RecipientReference : string;
  RecipientDisplayName : string;
  Regions : list string;
  RetentionReference : string;
  State_ : State;
  Version : Z;
  ValidFrom : Time;
  ExpiresAt : Time;
  CreatedAt : Time;
  UpdatedAt : Time;
  CreatedBy : string;
  WorkloadID : string;
  RestrictedAt : option Time;
  WithdrawnAt : option Time;
  SupersededAt : option Time;
}.
#[export] Instance Authority_eq_dec : EqDecision Authority. Proof. solve_decision. Defined.

Definition ActorID (a : Authority) : string := if empty_string (WorkloadID a) then CreatedBy a else WorkloadID a.
Definition validActor (a : Authority) : bool :=
  if empty_string (WorkloadID a) then negb (empty_string (CreatedBy a))
  else empty_string (CreatedBy a) && is_ok (Lifecycle.NewWorkloadSessionPrincipal (WorkloadID a)).

(** One entry of the map of [validateStateTimes]. *)
Definition state_time_ok (a : Authority) (state : State) (value : option Time) : bool :=
  match value with
  | None => true
  | Some t => negb (before (utc t) (CreatedAt a)) && (instant (utc t) =? instant (UpdatedAt a)) && authority_state_is state (State_ a)
  end.
Definition state_times (a : Authority) : list (State * option Time) :=
  [(StateRestricted, RestrictedAt a); (StateWithdrawn, WithdrawnAt a); (StateSuperseded, SupersededAt a)].
Definition validateStateTimes (a : Authority) : bool :=
  forallb (fun p => state_time_ok a p.1 p.2) (state_times a) &&
  let count := llen (List.filter (fun p => match p.2 with None => false | Some _ => true end) (state_times a)) in
  if authority_state_is (State_ a) StateActive then count =? 0 else count =? 1.

Definition with_scope (a : Authority) (purposes types regions : list string) (validFrom expiresAt createdAt updatedAt : Time) : Authority :=
  mk_authority (ID a) (TenantID a) (SubjectID a) (VerificationID a) (ANoticeID a) (Category a) (Purpose a) (Jurisdiction a) (PolicyPack a)
    (IsConsentRequired a) purposes types (RecipientReference a) (RecipientDisplayName a) regions (RetentionReference a) (State_ a) (Version a)
    validFrom expiresAt createdAt updatedAt (CreatedBy a) (WorkloadID a) (RestrictedAt a) (WithdrawnAt a) (SupersededAt a).
Definition with_state (a : Authority) (state : State) (version : Z) (updatedAt : Time) (restricted withdrawn superseded : option Time) : Authority :=
  mk_authority (ID a) (TenantID a) (SubjectID a) (VerificationID a) (ANoticeID a) (Category a) (Purpose a) (Jurisdiction a) (PolicyPack a)
    (IsConsentRequired a) (RequirementPurposes a) (EvidenceTypes a) (RecipientReference a) (RecipientDisplayName a) (Regions a) (RetentionReference a)
    state version (ValidFrom a) (ExpiresAt a) (CreatedAt a) updatedAt (CreatedBy a) (WorkloadID a) restricted withdrawn superseded.

Definition restore (a : Authority) : result Error Authority :=
  reject negb (validateCodeSet (RequirementPurposes a)) with ErrInvalid ;;
  reject negb (validateCodeSet (EvidenceTypes a)) with ErrInvalid ;;
  reject negb (validateCodeSet (Regions a)) with ErrInvalid ;;
  let a := with_scope a (canonicalSet (RequirementPurposes a)) (canonicalSet (EvidenceTypes a)) (canonicalSet (Regions a))
    (utc (ValidFrom a)) (utc (ExpiresAt a)) (utc (CreatedAt a)) (utc (UpdatedAt a)) in
  reject empty_string (ID a) || empty_string (TenantID a) || empty_string (SubjectID a) || empty_string (VerificationID a) ||
         empty_string (ANoticeID a) || negb (validActor a) with ErrInvalid ;;
  reject negb (forallb validateCode [Category a; Purpose a; Jurisdiction a; PolicyPack a; RecipientReference a; RetentionReference a]) with ErrInvalid ;;
  reject negb (validateDisplay (RecipientDisplayName a)) with ErrInvalid ;;
  reject negb (existsb (String.eqb (Purpose a)) (RequirementPurposes a)) with ErrInvalid ;;
  reject (Version a <? 1) || is_zero (ValidFrom a) || negb (after (ExpiresAt a) (ValidFrom a)) || is_zero (CreatedAt a) ||
         before (UpdatedAt a) (CreatedAt a) with ErrInvalid ;;
  reject negb (validateStateTimes a) with ErrInvalid ;;
  Ok a.

Definition New (a : Authority) : result Error Authority :=
  restore (with_state (with_scope a (RequirementPurposes a) (EvidenceTypes a) (Regions a) (utc (ValidFrom a)) (utc (ExpiresAt a)) (utc (CreatedAt a))
    (UpdatedAt a)) StateActive 1 (utc (CreatedAt a)) None None None).
Definition Restore (a : Authority) : result Error Authority := restore a.

Definition transition (a : Authority) (state : State) (now : Time) : result Error Authority :=
  reject empty_string (ID a) || negb (authority_state_is (State_ a) StateActive) with ErrConflict ;;
  let now := utc now in
  reject before now (UpdatedAt a) with ErrConflict ;;
  let version := wrap_int64 (Version a + 1) in
  match state with
  | StateRestricted => Ok (with_state a state version now (Some now) (WithdrawnAt a) (SupersededAt a))
  | StateWithdrawn => Ok (with_state a state version now (RestrictedAt a) (Some now) (SupersededAt a))
  | StateSuperseded => Ok (with_state a state version now (RestrictedAt a) (WithdrawnAt a) (Some now))
  | _ => Err ErrConflict
  end.
Definition Restrict (a : Authority) (now : Time) : result Error Authority := transition a StateRestricted now.
Definition Withdraw (a : Authority) (now : Time) : result Error Authority := transition a StateWithdrawn now.
Definition Supersede (a : Authority) (now : Time) : result Error Authority := transition a StateSuperseded now.

(** ** Responses *)

Inductive ResponseAction := ResponseAcknowledge | ResponseConsent | ResponseRefuse | ResponseOther (raw : string).
#[export] Instance ResponseAction_eq_dec : EqDecision ResponseAction. Proof. solve_decision. Defined.
Definition action_is (a b : ResponseAction) : bool := bool_decide (a = b).

Record Response := mk_response {
  ResponseID : string; RTenantID : string; RAuthorityID : string; RNoticeID : string; RSubjectID : string; RVerificationID : string;
  CaptureTokenID : string; Action : ResponseAction; RLocale : string; RenderedExperienceVersion : string; RecordedAt : Time }.
#[export] Instance Response_eq_dec : EqDecision Response. Proof. solve_decision. Defined.

Definition NewResponse (r : Response) : result Error Response :=
  let r := mk_response (ResponseID r) (RTenantID r) (RAuthorityID r) (RNoticeID r) (RSubjectID r) (RVerificationID r) (CaptureTokenID r) (Action r)
    (RLocale r) (RenderedExperienceVersion r) (utc (RecordedAt r)) in
  reject empty_string (ResponseID r) || empty_string (RTenantID r) || empty_string (RAuthorityID r) || empty_string (RNoticeID r) ||
         empty_string (RSubjectID r) || empty_string (RVerificationID r) || empty_string (CaptureTokenID r) || is_zero (RecordedAt r) with ErrInvalid ;;
  reject negb (action_is (Action r) ResponseAcknowledge) && negb (action_is (Action r) ResponseConsent) && negb (action_is (Action r) ResponseRefuse)
    with ErrInvalid ;;
  reject negb (validateLocale (RLocale r)) with ErrInvalid ;;
  reject negb (empty_string (RenderedExperienceVersion r)) && negb (validateCode (RenderedExperienceVersion r)) with ErrInvalid ;;
  Ok r.

(** ** Evaluation *)

Record GrantRequest := mk_grant_request {
  QTenantID : string; QVerificationID : string; QSubjectID : string; QPurpose : string; QEvidenceType : string; QRecipientReference : string; QRegion : string }.

Definition Evaluate (a : Authority) (notice : Notice) (response : option Response) (request : GrantRequest) (now : Time) : result Error unit :=
  let now := utc now in
  reject negb (authority_state_is (State_ a) StateActive) || before now (ValidFrom a) || negb (before now (ExpiresAt a)) with ErrProcessingNotPermitted ;;
  reject negb (String.eqb (NoticeID notice) (ANoticeID a)) || negb (String.eqb (NTenantID notice) (TenantID a)) || before now (EffectiveAt notice)
    with ErrProcessingNotPermitted ;;
  reject negb (String.eqb (QTenantID request) (TenantID a)) || negb (String.eqb (QVerificationID request) (VerificationID a)) ||
         negb (String.eqb (QSubjectID request) (SubjectID a)) || negb (String.eqb (QRecipientReference request) (RecipientReference a)) ||
         negb (existsb (String.eqb (QPurpose request)) (RequirementPurposes a)) || negb (existsb (String.eqb (QEvidenceType request)) (EvidenceTypes a)) ||
         negb (existsb (String.eqb (QRegion request)) (Regions a)) with ErrProcessingNotPermitted ;;
  match response with
  | None => Err ErrSubjectResponseRequired
  | Some r =>
      reject negb (String.eqb (RTenantID r) (TenantID a)) || negb (String.eqb (RAuthorityID r) (ID a)) || negb (String.eqb (RNoticeID r) (ANoticeID a)) ||
             negb (String.eqb (RSubjectID r) (SubjectID a)) || negb (String.eqb (RVerificationID r) (VerificationID a)) ||
             action_is (Action r) ResponseRefuse with ErrProcessingNotPermitted ;;
      reject IsConsentRequired a && negb (action_is (Action r) ResponseConsent) with ErrSubjectResponseRequired ;;
      reject negb (IsConsentRequired a) && negb (action_is (Action r) ResponseAcknowledge) && negb (action_is (Action r) ResponseConsent)
        with ErrSubjectResponseRequired ;;
      Ok tt
  end.

(** ** What an accepted declaration is *)
Module AuthoritySpec.

Lemma compact_from_id (l : list string) : forall prev, StronglySorted String.le l -> NoDup l -> (forall p, prev = Some p -> p ∉ l) -> compact_from prev l = l.
Proof.
  induction l as [|x l IH]; intros prev Hs Hn Hp; cbn; [done|]. apply StronglySorted_inv in Hs as [Hs _]. apply NoDup_cons in Hn as [Hx Hn].
  rewrite bool_decide_eq_false_2 by (intros ->; specialize (Hp x eq_refl); set_solver). f_equal. apply IH; [done|done|]. by intros p [= <-].
Qed.

Lemma compact_from_sorted (l : list string) : forall prev, StronglySorted String.le l -> StronglySorted String.le (compact_from prev l).
Proof.
  induction l as [|x l IH]; intros prev Hs; cbn; [done|]. apply StronglySorted_inv in Hs as [Hs Hx]. case_match; [by apply IH|].
  constructor; [by apply IH|]. rewrite Forall_forall in *. intros y Hy%elem_of_compact_from. by apply Hx.
Qed.

Lemma sort_strings_id (l : list string) : StronglySorted String.le l -> sort_strings l = l.
Proof. intros Hs. apply (StronglySorted_unique String.le); [apply sort_strings_sorted|done|apply sort_strings_perm]. Qed.

Lemma canonicalSet_canonical (l : list string) : StronglySorted String.le (canonicalSet l) /\ NoDup (canonicalSet l).
Proof. split; [apply compact_from_sorted, sort_strings_sorted|apply compact_NoDup]. Qed.

Lemma compact_id (l : list string) : StronglySorted String.le l -> NoDup l -> compact l = l.
Proof. intros Hs Hn. by apply compact_from_id. Qed.

Lemma canonicalSet_idem (l : list string) : canonicalSet (canonicalSet l) = canonicalSet l.
Proof. destruct (canonicalSet_canonical l) as [Hs Hn]. unfold canonicalSet at 1. rewrite sort_strings_id by done. by apply compact_id. Qed.

Lemma elem_of_canonicalSet (x : string) (l : list string) : x ∈ canonicalSet l <-> x ∈ l.
Proof. unfold canonicalSet. by rewrite elem_of_compact, elem_of_sort_strings. Qed.

Lemma forallb_elems {A : Type} (p : A -> bool) (l k : list A) : (forall x, x ∈ k -> x ∈ l) -> forallb p l = true -> forallb p k = true.
Proof. rewrite !forallb_forall. intros Hs Hl x Hx%list_elem_of_In. by apply Hl, list_elem_of_In, Hs. Qed.

(** A valid set stays valid in canonical form. *)
Lemma validateCodeSet_canonical (l : list string) : validateCodeSet l = true -> validateCodeSet (canonicalSet l) = true.
Proof.
  unfold validateCodeSet. intros Hv. bprop. destruct (canonicalSet_canonical l) as [Hs Hn]. rewrite (compact_id _ Hs Hn), Z.eqb_refl, andb_true_r.
  rewrite !andb_true_iff, !negb_true_iff, Z.eqb_neq, Z.ltb_ge. split_and!.
  - intros Hz. apply llen_nil_inv in Hz. destruct l as [|x l]; [done|]. assert (Hx : x ∈ canonicalSet (x :: l)) by (apply elem_of_canonicalSet; set_solver).
    rewrite Hz in Hx. by apply elem_of_nil in Hx.
  - unfold canonicalSet. pose proof (compact_length (sort_strings l)). rewrite llen_sort_strings in *. lia.
  - eapply forallb_elems; [|eassumption]. intros x. apply elem_of_canonicalSet.
Qed.

(** The form every stored declaration has. *)
Definition canonical (a : Authority) : Authority :=
  with_scope a (canonicalSet (RequirementPurposes a)) (canonicalSet (EvidenceTypes a)) (canonicalSet (Regions a))
    (utc (ValidFrom a)) (utc (ExpiresAt a)) (utc (CreatedAt a)) (utc (UpdatedAt a)).

Lemma canonical_idem a : canonical (canonical a) = canonical a.
Proof. unfold canonical, with_scope. cbn -[canonicalSet]. by rewrite !canonicalSet_idem. Qed.

Definition scope_ok (a : Authority) : Prop :=
  validateCodeSet (RequirementPurposes a) = true /\ validateCodeSet (EvidenceTypes a) = true /\ validateCodeSet (Regions a) = true.
Definition terms_ok (a : Authority) : Prop :=
  (ID a <> "" /\ TenantID a <> "" /\ SubjectID a <> "" /\ VerificationID a <> "" /\ ANoticeID a <> "")%string /\ validActor a = true /\
  forallb validateCode [Category a; Purpose a; Jurisdiction a; PolicyPack a; RecipientReference a; RetentionReference a] = true /\
  validateDisplay (RecipientDisplayName a) = true /\ Purpose a ∈ RequirementPurposes a /\
  (1 <= Version a /\ instant (ValidFrom a) <> 0 /\ instant (ValidFrom a) < instant (ExpiresAt a) /\ instant (CreatedAt a) <> 0 /\
  instant (CreatedAt a) <= instant (UpdatedAt a)) /\
  validateStateTimes a = true.

Lemma existsb_eqb (x : string) (l : list string) : existsb (String.eqb x) l = true <-> x ∈ l.
Proof.
  rewrite existsb_exists. split.
  - intros (y & Hy & He). apply String.eqb_eq in He as ->. by apply list_elem_of_In.
  - intros Hx. exists x. split; [by apply list_elem_of_In|apply String.eqb_refl].
Qed.

Lemma empty_text_false (s : string) : empty_string s = false <-> s <> ""%string.
Proof. apply String.eqb_neq. Qed.

Lemma restore_Ok a a' : restore a = Ok a' <-> scope_ok a /\ terms_ok (canonical a) /\ a' = canonical a.
Proof.
  unfold restore, scope_ok, terms_ok. cbv zeta. fold (canonical a). generalize (canonical a) as b. intros b.
  rewrite !reject_Ok, !negb_false_iff, !orb_false_iff, !negb_false_iff, existsb_eqb, !empty_text_false, Z.ltb_ge, before_false, after_true.
  unfold is_zero. rewrite !Z.eqb_neq. split.
  - intros (? & ? & ? & ? & ? & ? & ? & ? & ? & [= ->]). intuition.
  - intros (? & ? & ->). intuition.
Qed.

(** A stored declaration is read back as it is. *)
Lemma restore_fixed a a' : restore a = Ok a' -> restore a' = Ok a'.
Proof.
  rewrite !restore_Ok. intros ((Hp & He & Hr) & Ht & ->). rewrite canonical_idem. split; [|done].
  unfold scope_ok. cbn. by split_and!; apply validateCodeSet_canonical.
Qed.

Lemma restore_canonical a a' : restore a = Ok a' -> a' = canonical a.
Proof. intros H. by apply restore_Ok in H as (_ & _ & H). Qed.

(** *** Evaluation *)

Definition in_scope (a : Authority) (n : Notice) (q : GrantRequest) (now : Time) : Prop :=
  State_ a = StateActive /\ instant (ValidFrom a) <= instant now < instant (ExpiresAt a) /\
  NoticeID n = ANoticeID a /\ NTenantID n = TenantID a /\ instant (EffectiveAt n) <= instant now /\
  QTenantID q = TenantID a /\ QVerificationID q = VerificationID a /\ QSubjectID q = SubjectID a /\ QRecipientReference q = RecipientReference a /\
  QPurpose q ∈ RequirementPurposes a /\ QEvidenceType q ∈ EvidenceTypes a /\ QRegion q ∈ Regions a.
Definition response_for (a : Authority) (r : Response) : Prop :=
  RTenantID r = TenantID a /\ RAuthorityID r = ID a /\ RNoticeID r = ANoticeID a /\ RSubjectID r = SubjectID a /\ RVerificationID r = VerificationID a.
Definition sufficient (a : Authority) (action : ResponseAction) : Prop :=
  action = ResponseConsent \/ (IsConsentRequired a = false /\ action = ResponseAcknowledge).

Definition response_part (a : Authority) (response : option Response) : result Error unit :=
  match response with
  | None => Err ErrSubjectResponseRequired
  | Some r =>
      reject negb (String.eqb (RTenantID r) (TenantID a)) || negb (String.eqb (RAuthorityID r) (ID a)) || negb (String.eqb (RNoticeID r) (ANoticeID a)) ||
             negb (String.eqb (RSubjectID r) (SubjectID a)) || negb (String.eqb (RVerificationID r) (VerificationID a)) ||
             action_is (Action r) ResponseRefuse with ErrProcessingNotPermitted ;;
      reject IsConsentRequired a && negb (action_is (Action r) ResponseConsent) with ErrSubjectResponseRequired ;;
      reject negb (IsConsentRequired a) && negb (action_is (Action r) ResponseAcknowledge) && negb (action_is (Action r) ResponseConsent)
        with ErrSubjectResponseRequired ;;
      Ok tt
  end.

Lemma Evaluate_scope a n r q now : (in_scope a n q now /\ Evaluate a n r q now = response_part a r) \/
  (~ in_scope a n q now /\ Evaluate a n r q now = Err ErrProcessingNotPermitted).
Proof.
  unfold Evaluate. cbv zeta. fold (response_part a r). unfold in_scope, authority_state_is.
  destruct (_ || _ || _) eqn:H1.
  { right. split; [|done]. intros (Hs & Ht & _). rewrite Hs in H1. rewrite bool_decide_eq_true_2 in H1 by done. cbn in H1.
    rewrite (proj2 (before_false (utc now) (ValidFrom a))), (proj2 (before_true (utc now) (ExpiresAt a))) in H1 by (cbn; lia). done. }
  destruct (_ || _ || _) eqn:H2 in |- *.
  { right. split; [|done]. intros (_ & _ & Hn & Ht & He & _). rewrite Hn, Ht, !String.eqb_refl in H2. cbn in H2. apply before_true in H2. cbn in H2. lia. }
  destruct (_ || _ || _ || _ || _ || _ || _) eqn:H3 in |- *.
  { right. split; [|done]. intros (_ & _ & _ & _ & _ & E1 & E2 & E3 & E4 & E5 & E6 & E7). rewrite E1, E2, E3, E4, !String.eqb_refl in H3.
    apply existsb_eqb in E5, E6, E7. rewrite E5, E6, E7 in H3. done. }
  left. split; [|done]. bprop. rewrite <- !existsb_eqb.
  repeat match goal with Hb : before _ _ = _ |- _ => first [apply before_true in Hb|apply before_false in Hb] end. cbn [instant utc] in *. by split_and!.
Qed.

Lemma response_part_Ok a r : response_part a r = Ok tt <-> exists x, r = Some x /\ response_for a x /\ sufficient a (Action x).
Proof.
  unfold response_part, response_for, sufficient, action_is. destruct r as [x|]; [|naive_solver].
  rewrite !reject_Ok, !orb_false_iff, !andb_false_iff, !negb_false_iff, !String.eqb_eq, !bool_decide_true, bool_decide_false. split.
  - intros (((((? & ?) & ?) & ?) & ?) & Hr & ?). exists x. destruct (IsConsentRequired a); naive_solver.
  - intros (y & [= <-] & (? & ? & ? & ? & ?) & Hs). destruct (IsConsentRequired a), Hs as [Hs|[? Hs]]; rewrite Hs; naive_solver.
Qed.

Lemma response_part_required a r : response_part a r = Err ErrSubjectResponseRequired <->
  match r with None => True | Some x => response_for a x /\ Action x <> ResponseRefuse /\ ~ sufficient a (Action x) end.
Proof.
  pose proof (response_part_Ok a r) as Hok. unfold response_part in *. destruct r as [x|]; [|done]. unfold response_for, action_is in *.
  destruct (_ || _) eqn:H1 in |- *.
  - split; [done|]. intros ((E1 & E2 & E3 & E4 & E5) & E6 & _). rewrite E1, E2, E3, E4, E5, !String.eqb_refl in H1. cbn in H1. by bprop.
  - rewrite H1 in Hok. bprop. split.
    + intros He. split_and!; [done..|]. intros Hs. rewrite (proj2 Hok) in He; [done|by exists x].
    + intros (_ & _ & Hn). destruct (_ && _); [done|]. destruct (_ && _); [done|]. destruct Hn. by destruct (proj1 Hok eq_refl) as (? & [= <-] & _ & Hs).
Qed.

(** C37: an operation is permitted exactly when the declaration is active, inside its
    window, for the effective notice, the request is inside its declared scope, and
    the given response is of this declaration and sufficient: a consent, or an
    acknowledgement where consent is not required.  A missing or insufficient response
    is reported as such only where everything else permits, and every other refusal is
    the same error. *)
Theorem evaluation_sound_and_complete (a : Authority) (n : Notice) (r : option Response) (q : GrantRequest) (now : Time) :
  (Evaluate a n r q now = Ok tt <-> in_scope a n q now /\ exists x, r = Some x /\ response_for a x /\ sufficient a (Action x)) /\
  (Evaluate a n r q now = Err ErrSubjectResponseRequired <->
     in_scope a n q now /\ match r with None => True | Some x => response_for a x /\ Action x <> ResponseRefuse /\ ~ sufficient a (Action x) end) /\
  (Evaluate a n r q now = Ok tt \/ Evaluate a n r q now = Err ErrSubjectResponseRequired \/ Evaluate a n r q now = Err ErrProcessingNotPermitted).
Proof.
  destruct (Evaluate_scope a n r q now) as [[Hs ->]|[Hs ->]]; [|naive_solver].
  rewrite response_part_Ok, response_part_required. split; [naive_solver|]. split; [naive_solver|].
  rewrite <- response_part_Ok, <- response_part_required. unfold response_part. destruct r; [|by right; left]. repeat case_match; auto.
Qed.
End AuthoritySpec.
