(* ===== verification/Profile.v ===== *)
(** * Capture profiles and the progress of a capture

    [internal/verification/profile.go] and [document_selection.go]: requirements with
    their acquisitions, fallbacks, constraints and document branches, their validation
    against an exact registry revision, the canonical form and its digest, and the
    methods a client can offer; [resolveUploadRequirement], [resolveUploadConstraints]
    and [uploadAssurances] of [authority/upload_service.go]; [captureProfileProgress]
    of [evidence/postgres/upload_store.go].

    A profile is its decoded value; [encoding/json] is the class [ProfileLibraries],
    with the law that the canonical forms of valid profiles over UTF-8 texts have
    different encodings.  The
    keys of the progress maps join their parts with a zero byte, which no part holds;
    they are lists of parts. *)

From S2P Require Import Prelude GoTime Content Evidence Registry Authority.
From Stdlib Require Import Ascii.
Import Evidence.

Module CaptureProfile.

(** ** Profiles *)

Inductive Strategy := StrategyAnyOf | StrategyAllOf | StrategyOther (raw : string).
#[export] Instance Strategy_eq_dec : EqDecision Strategy. Proof. solve_decision. Defined.
Definition strategy_is (a b : Strategy) : bool := bool_decide (a = b).

Inductive FallbackCondition := FallbackCapabilityUnavailable | FallbackMethodUnavailable | FallbackCaptureFailed | FallbackOther (raw : string).
#[export] Instance FallbackCondition_eq_dec : EqDecision FallbackCondition. Proof. solve_decision. Defined.
Definition condition_valid (c : FallbackCondition) : bool := match c with FallbackOther _ => false | _ => true end.
Definition condition_text (c : FallbackCondition) : string :=
  match c with
  | FallbackCapabilityUnavailable => "capability_unavailable" | FallbackMethodUnavailable => "method_unavailable" | FallbackCaptureFailed => "capture_failed"
  | FallbackOther raw => raw
  end.

Record Acquisition := mk_acquisition { AStrategy : Strategy; AMethods : list Name }.
Record ConstraintValue := mk_value { VKind : ValueKind; VString : string; VInteger : Z; VBoolean : bool; VStringList : list string }.
Record Constraint := mk_capture_constraint { CName : Name; CValue : ConstraintValue }.
Record Fallback := mk_fallback { FOn : list FallbackCondition; FAcquisition : Acquisition }.
Record DocumentOption := mk_option { OptionID : string; OptionLabel : string; OptionArtefacts : list Name }.

(** A nil slice of document options differs from an empty one. *)
Record Requirement := mk_requirement {
  RKey : string; RPurpose : Name; REvidenceType : Name; RArtefacts : list Name; RDocumentOptions : option (list DocumentOption);
  RAcquisition : Acquisition; RRequiredAssurances : list Name; RConstraints : list Constraint; RFallbacks : list Fallback }.
Record Profile := mk_profile { PSchemaVersion : Z; PRegistry : Reference; PRequirements : list Requirement }.

Definition ProfileSchemaVersion : Z := 1.

(** Membership, as [slices.Contains] decides it. *)
Definition member (x : string) (l : list string) : bool := existsb (String.eqb x) l.
Definition subset (l k : list string) : bool := forallb (fun x => member x k) l.

(** ** Document branches *)

Definition label_valid (label : string) : bool :=
  trimmed (runes label) && negb (empty_string label) && valid_utf8 label && negb (80 <? llen (runes label)) && negb (existsb is_control (runes label)).

Definition option_valid (o : DocumentOption) : bool :=
  validRequirementKey (OptionID o) && label_valid (OptionLabel o) && negb (llen (OptionArtefacts o) <? 1) && negb (2 <? llen (OptionArtefacts o)) &&
  member ArtefactDocumentFront (OptionArtefacts o) && no_dupb (OptionArtefacts o) &&
  forallb (fun a => String.eqb a ArtefactDocumentFront || String.eqb a ArtefactDocumentBack) (OptionArtefacts o).

Definition validateDocumentOptions (r : Requirement) : result Error unit :=
  match RDocumentOptions r with
  | None => Ok tt
  | Some options =>
      reject negb (String.eqb (REvidenceType r) EvidenceDocumentImage) || (llen options <? 1) || (16 <? llen options) with ErrInvalid ;;
      reject negb (no_dupb (map OptionID options)) || negb (forallb option_valid options) with ErrInvalid ;;
      let union : gset Name := list_to_set (concat (map OptionArtefacts options)) in
      reject negb (Z.of_nat (size union) =? llen (RArtefacts r)) || negb (forallb (fun a => bool_decide (a ∈ union)) (RArtefacts r)) with ErrInvalid ;;
      Ok tt
  end.

(** An unselected branch authorises no artefact. *)
Definition EffectiveArtefacts (r : Requirement) (selections : gmap string string) : list Name :=
  match default [] (RDocumentOptions r) with
  | [] => RArtefacts r
  | options =>
      match List.find (fun o => String.eqb (OptionID o) (default "" (selections !! RKey r))) options with
      | Some o => OptionArtefacts o
      | None => []
      end
  end.

(** ** Validation *)

Definition supportFor (supports : list MethodSupport) (evidenceType : Name) : option MethodSupport :=
  List.find (fun s => String.eqb (SupportEvidenceType s) evidenceType) supports.

(** The support of a method for an evidence type, with all artefacts. *)
Definition method_support (v : Vocabulary) (evidenceType : Name) (artefacts : list Name) (method : Name) : option MethodSupport :=
  m ← v_methods v !! method;
  s ← supportFor (Supports m) evidenceType;
  if subset artefacts (SupportArtefacts s) then Some s else None.

Definition acquisition_method (v : Vocabulary) (strategy : Strategy) (evidenceType : Name) (artefacts assurances : list Name) (combined : gset Name) (method : Name)
  : result Error (gset Name) :=
  match method_support v evidenceType artefacts method with
  | None => Err ErrInvalid
  | Some s =>
      reject strategy_is strategy StrategyAnyOf && negb (subset assurances (SupportAssurances s)) with ErrInvalid ;;
      Ok (list_to_set (SupportAssurances s) ∪ combined)
  end.

Definition validateAcquisition (v : Vocabulary) (a : Acquisition) (evidenceType : Name) (artefacts assurances : list Name) : result Error unit :=
  reject negb (strategy_is (AStrategy a) StrategyAnyOf) && negb (strategy_is (AStrategy a) StrategyAllOf) with ErrInvalid ;;
  reject llen (AMethods a) =? 0 with ErrInvalid ;;
  reject negb (no_dupb (AMethods a)) with ErrInvalid ;;
  let? combined := rfold (acquisition_method v (AStrategy a) evidenceType artefacts assurances) (AMethods a) ∅ in
  reject strategy_is (AStrategy a) StrategyAllOf && negb (forallb (fun x => bool_decide (x ∈ combined)) assurances) with ErrInvalid ;;
  Ok tt.

Definition blank_text (s : string) : bool := forallb is_space (runes s).
Definition validateConstraintValue (x : ConstraintValue) : result Error unit :=
  reject match VKind x with
         | ValueString => blank_text (VString x) || negb (VInteger x =? 0) || VBoolean x || negb (llen (VStringList x) =? 0)
         | ValueInteger => (VInteger x <? 0) || negb (empty_string (VString x)) || VBoolean x || negb (llen (VStringList x) =? 0)
         | ValueBoolean => negb (empty_string (VString x)) || negb (VInteger x =? 0) || negb (llen (VStringList x) =? 0)
         | ValueStringList => (llen (VStringList x) =? 0) || negb (empty_string (VString x)) || negb (VInteger x =? 0) || VBoolean x ||
             negb (forallb (fun item => trimmed (runes item) && negb (empty_string item)) (VStringList x)) || negb (no_dupb (VStringList x))
         | ValueKindOther _ => true
         end with ErrInvalid ;;
  Ok tt.

Definition validate_constraint (v : Vocabulary) (evidenceType : Name) (c : Constraint) : result Error unit :=
  match v_constraints v !! CName c with
  | None => Err ErrInvalid
  | Some definition =>
      reject negb (value_kind_is (ConstraintKind definition) (VKind (CValue c))) with ErrInvalid ;;
      reject (0 <? llen (AppliesTo definition)) && negb (member evidenceType (AppliesTo definition)) with ErrInvalid ;;
      validateConstraintValue (CValue c)
  end.
Definition validateConstraints (v : Vocabulary) (constraints : list Constraint) (evidenceType : Name) : result Error unit :=
  reject negb (no_dupb (map CName constraints)) with ErrInvalid ;;
  rforeach (validate_constraint v evidenceType) constraints.

Definition validate_fallback (v : Vocabulary) (r : Requirement) (f : Fallback) : result Error unit :=
  reject llen (FOn f) =? 0 with ErrInvalid ;;
  reject negb (forallb condition_valid (FOn f)) with ErrInvalid ;;
  validateAcquisition v (FAcquisition f) (REvidenceType r) (RArtefacts r) (RRequiredAssurances r).

Definition validateRequirement (v : Vocabulary) (r : Requirement) : result Error unit :=
  let? _ := validateDocumentOptions r in
  reject negb (validRequirementKey (RKey r)) with ErrInvalid ;;
  reject negb (Has v KindPurpose (RPurpose r)) with ErrInvalid ;;
  match v_evidence v !! REvidenceType r with
  | None => Err ErrInvalid
  | Some evidenceType =>
      let? artefacts := validatedNames KindArtefact (RArtefacts r) (list_to_set (TypeArtefacts evidenceType)) in
      reject llen artefacts =? 0 with ErrInvalid ;;
      reject negb (forallb (Has v KindAssurance) (RRequiredAssurances r)) || negb (no_dupb (RRequiredAssurances r)) with ErrInvalid ;;
      let? _ := validateAcquisition v (RAcquisition r) (REvidenceType r) (RArtefacts r) (RRequiredAssurances r) in
      let? _ := validateConstraints v (RConstraints r) (REvidenceType r) in
      reject negb (no_dupb (concat (map FOn (RFallbacks r)))) with ErrInvalid ;;
      rforeach (validate_fallback v r) (RFallbacks r)
  end.

Definition ValidateProfile (p : Profile) (v : Vocabulary) : result Error unit :=
  reject negb (PSchemaVersion p =? ProfileSchemaVersion) with ErrInvalid ;;
  reject negb (bool_decide (PRegistry p = vocabulary_reference v)) with ErrInvalid ;;
  reject llen (PRequirements p) =? 0 with ErrInvalid ;;
  let? _ := rforeach (validateRequirement v) (PRequirements p) in
  reject negb (no_dupb (map RKey (PRequirements p))) with ErrInvalid ;;
  Ok tt.

Definition NewProfile (v : Vocabulary) (requirements : list Requirement) : result Error Profile :=
  let p := mk_profile ProfileSchemaVersion (vocabulary_reference v) requirements in
  let? _ := ValidateProfile p v in
  Ok p.

Definition EligibleMethods (v : Vocabulary) (r : Requirement) (c : Capabilities) : result Error (list Name) :=
  let? _ := validateRequirement v r in
  let? _ := ValidateCapabilities v c in
  let eligible := List.filter (fun m => member m (CapabilityMethods c)) (AMethods (RAcquisition r)) in
  reject strategy_is (AStrategy (RAcquisition r)) StrategyAllOf && negb (llen eligible =? llen (AMethods (RAcquisition r))) with ErrInvalid ;;
  reject llen eligible =? 0 with ErrInvalid ;;
  Ok eligible.

(** ** The canonical form *)

Inductive CanonicalValue := CanonicalString (s : string) | CanonicalInteger (z : Z) | CanonicalBoolean (b : bool) | CanonicalList (l : list string) | CanonicalNull.
Definition canonicalConstraintValue (x : ConstraintValue) : CanonicalValue :=
  match VKind x with
  | ValueString => CanonicalString (VString x)
  | ValueInteger => CanonicalInteger (VInteger x)
  | ValueBoolean => CanonicalBoolean (VBoolean x)
  | ValueStringList => CanonicalList (sort_strings (VStringList x))
  | ValueKindOther _ => CanonicalNull
  end.

Record CanonicalRequirement := mk_canonical_requirement {
  KOptions : list DocumentOption; KKey : string; KPurpose : Name; KEvidenceType : Name; KArtefacts : list Name; KAcquisition : Acquisition;
  KAssurances : list Name; KConstraints : list (Name * CanonicalValue); KFallbacks : list (list string * Acquisition) }.
Record CanonicalProfile := mk_canonical_profile { KSchemaVersion : Z; KRegistry : Reference; KRequirements : list CanonicalRequirement }.

Definition canonical_option (o : DocumentOption) : DocumentOption := mk_option (OptionID o) (OptionLabel o) (sort_strings (OptionArtefacts o)).
Definition canonical_fallback (f : Fallback) : list string * Acquisition := (sort_strings (map condition_text (FOn f)), FAcquisition f).
Definition canonical_requirement (r : Requirement) : CanonicalRequirement :=
  mk_canonical_requirement (map canonical_option (default [] (RDocumentOptions r))) (RKey r) (RPurpose r) (REvidenceType r) (sort_strings (RArtefacts r))
    (RAcquisition r) (sort_strings (RRequiredAssurances r))
    (sort_by fst (map (fun c => (CName c, canonicalConstraintValue (CValue c))) (RConstraints r))) (map canonical_fallback (RFallbacks r)).
Definition canonical_profile (p : Profile) : CanonicalProfile := mk_canonical_profile (PSchemaVersion p) (PRegistry p) (map canonical_requirement (PRequirements p)).

(** The texts that a caller chooses: everything else is a name, a key or a digest. *)
Definition value_utf8 (x : CanonicalValue) : bool :=
  match x with CanonicalString s => valid_utf8 s | CanonicalList l => forallb valid_utf8 l | _ => true end.
Definition profile_utf8 (k : CanonicalProfile) : bool := forallb (fun r => forallb (fun c => value_utf8 c.2) (KConstraints r)) (KRequirements k).

Class ProfileLibraries `{ContentLibraries} := {
  marshal_profile : CanonicalProfile -> option string;
  marshal_profile_inj (p q : Profile) (v v' : Vocabulary) s :
    RegistrySpec.vocabulary_ok v -> RegistrySpec.vocabulary_ok v' -> ValidateProfile p v = Ok tt -> ValidateProfile q v' = Ok tt -> profile_utf8 (canonical_profile p) = true -> profile_utf8 (canonical_profile q) = true ->
    marshal_profile (canonical_profile p) = Some s -> marshal_profile (canonical_profile q) = Some s -> canonical_profile p = canonical_profile q;
}.

Section Digest.
Context `{ProfileLibraries}.

Definition CanonicalJSON (p : Profile) (v : Vocabulary) : result Error string :=
  let? _ := ValidateProfile p v in
  match marshal_profile (canonical_profile p) with Some s => Ok s | None => Err ErrInvalid end.
Definition Digest (p : Profile) (v : Vocabulary) : result Error string :=
  let? canonical := CanonicalJSON p v in
  Ok (Sum canonical).
Definition ValidateForActivation (p : Profile) (v : Vocabulary) : result Error string := Digest p v.
End Digest.

(** ** What an upload may be: [authority/upload_service.go] *)

Record UploadRequest := mk_upload_request {
  UKey : string; UArtefact : Name; UMethod : Name; UFallback : option FallbackCondition }.

Definition condition_is (a b : FallbackCondition) : bool := bool_decide (a = b).

(** The methods of the acquisition the request falls under; [None]: not permitted. *)
Definition request_acquisition (r : Requirement) (fallback : option FallbackCondition) : option Acquisition :=
  match fallback with
  | None => Some (RAcquisition r)
  | Some c => option_map FAcquisition (List.find (fun f => existsb (condition_is c) (FOn f)) (RFallbacks r))
  end.
Definition request_permitted (r : Requirement) (u : UploadRequest) : bool :=
  member (UArtefact u) (RArtefacts r) &&
  match request_acquisition r (UFallback u) with Some a => member (UMethod u) (AMethods a) | None => false end.

Definition resolveUploadRequirement (p : Profile) (u : UploadRequest) : option Requirement :=
  match List.find (fun r => String.eqb (RKey r) (UKey u)) (PRequirements p) with
  | Some r => if request_permitted r u then Some r else None
  | None => None
  end.

(** Media types and size, from the deployment and the constraints of the requirement. *)
Definition upload_constraint (state : list string * Z) (c : Constraint) : result Error (list string * Z) :=
  let '(mediaTypes, maximumBytes) := state in
  if String.eqb (CName c) ConstraintAllowedMedia then Ok (VStringList (CValue c), maximumBytes)
  else if String.eqb (CName c) ConstraintMaximumBytes then
    reject (VInteger (CValue c) <? 1) || (maximumBytes <? VInteger (CValue c)) with ErrInvalid ;;
    Ok (mediaTypes, VInteger (CValue c))
  else Ok state.
Definition resolveUploadConstraints (mediaTypes : list string) (maximumBytes : Z) (r : Requirement) : result Error (list string * Z) :=
  rfold upload_constraint (RConstraints r) (mediaTypes, maximumBytes).

Definition uploadAssurances (v : Vocabulary) (r : Requirement) (method : Name) : option (list Name) :=
  m ← v_methods v !! method;
  s ← supportFor (Supports m) (REvidenceType r);
  Some (List.filter (fun a => member a (SupportAssurances s)) (RRequiredAssurances r)).

(** ** Progress: [captureProfileProgress] *)

(** An accepted upload with the columns of its temporal frame, if it has one. *)
Record Binding := mk_binding {
  BRequirement : string; BArtefact : Name; BMethod : Name; BSequence : option string; BIndex : option Z; BCount : option Z; BChallenge : option string;
  BCapturedAt : option Time; BPrevious : option string; BContent : option string }.

Abbreviation Step := (list string).

Definition requirement_steps (r : Requirement) (artefacts : list Name) : Z :=
  llen artefacts * (if strategy_is (AStrategy (RAcquisition r)) StrategyAllOf then llen (AMethods (RAcquisition r)) else 1) +
  (if llen artefacts =? 0 then 1 else 0).

Definition count_requirement (selections : gmap string string) (state : Z * gmap string (Requirement * list Name)) (r : Requirement)
  : result Error (Z * gmap string (Requirement * list Name)) :=
  let artefacts := EffectiveArtefacts r selections in
  let steps := state.1 + requirement_steps r artefacts in
  reject 4294967295 <? steps with ErrInvalid ;;
  Ok (steps, <[RKey r := (r, artefacts)]> state.2).

Definition binding_step (r : Requirement) (b : Binding) : Step :=
  if strategy_is (AStrategy (RAcquisition r)) StrategyAllOf then [BRequirement b; BArtefact b; BMethod b] else [BRequirement b; BArtefact b].

Definition place_binding (requirements : gmap string (Requirement * list Name)) (state : gset Step * gmap (Step * string) (list Binding)) (b : Binding)
  : result Error (gset Step * gmap (Step * string) (list Binding)) :=
  let '(completed, sequences) := state in
  match requirements !! BRequirement b with
  | None => Err ErrInvalid
  | Some (r, artefacts) =>
      reject negb (member (BArtefact b) artefacts) with ErrInvalid ;;
      let step := binding_step r b in
      match BSequence b with
      | Some digest => Ok (completed, <[(step, digest) := default [] (sequences !! (step, digest)) ++ [b]]> sequences)
      | None => Ok ({[step]} ∪ completed, sequences)
      end
  end.

(** The chain of frames from position [index], after the frame [before] and with the
    challenges seen so far. *)
Fixpoint frames_chained (count index : Z) (challenges : list string) (before_ : option Binding) (frames : list Binding) : bool :=
  match frames with
  | [] => true
  | f :: rest =>
      match BIndex f, BCount f, BChallenge f, BCapturedAt f, BContent f with
      | Some i, Some n, Some challenge, Some captured, Some _ =>
          (n =? count) && (i =? index) && negb (member challenge challenges) &&
          match before_ with
          | None => bool_decide (BPrevious f = None)
          | Some p =>
              match BCapturedAt p, BPrevious f with
              | Some earlier, Some previous => after captured earlier && bool_decide (BContent p = Some previous)
              | _, _ => false
              end
          end && frames_chained count (index + 1) (challenge :: challenges) (Some f) rest
      | _, _, _, _, _ => false
      end
  end.

Definition place_sequence (completed : gset Step) (sequence : (Step * string) * list Binding) : result Error (gset Step) :=
  let '((step, _), frames) := sequence in
  match frames with
  | [] => Err ErrInvalid
  | first :: _ =>
      match BCount first with
      | None => Err ErrInvalid
      | Some count =>
          reject (count <? 2) || (32 <? count) || (count <? llen frames) with ErrInvalid ;;
          reject negb (frames_chained count 0 [] None (order_by (fun f => default 0 (BIndex f)) frames)) with ErrInvalid ;;
          Ok (if llen frames =? count then {[step]} ∪ completed else completed)
      end
  end.

(** The number of steps and the number of completed ones. *)
Definition captureProfileProgress (p : Profile) (bindings : list Binding) (selections : gmap string string) : result Error (Z * Z) :=
  let? counted := rfold (count_requirement selections) (PRequirements p) (0, ∅) in
  reject counted.1 <? 1 with ErrInvalid ;;
  let? placed := rfold (place_binding counted.2) bindings (∅, ∅) in
  let? completed := rfold place_sequence (map_to_list placed.2) placed.1 in
  reject counted.1 <? Z.of_nat (size completed) with ErrInvalid ;;
  Ok (counted.1, Z.of_nat (size completed)).
End CaptureProfile.

(** ** What profiles and their progress guarantee *)
Module ProfileSpec.
Import CaptureProfile.

(** *** Validation *)

Lemma ValidateProfile_Ok p v : ValidateProfile p v = Ok tt ->
  PSchemaVersion p = ProfileSchemaVersion /\ PRegistry p = vocabulary_reference v /\ PRequirements p <> [] /\ NoDup (map RKey (PRequirements p)) /\
  forall r, r ∈ PRequirements p -> validateRequirement v r = Ok tt.
Proof.
  unfold ValidateProfile. intros Hp. go_inv Hp. destruct v0. bprop. repeat split; try done; [intros Hn; rewrite Hn in *; done|by apply no_dupb_NoDup|].
  apply rforeach_Ok in Hv. rewrite Forall_forall in Hv. exact Hv.
Qed.

Record requirement_valid (v : Vocabulary) (r : Requirement) : Prop := mk_requirement_valid {
  rv_options : validateDocumentOptions r = Ok tt;
  rv_artefacts : RArtefacts r <> [] /\ NoDup (RArtefacts r);
  rv_assurances : NoDup (RRequiredAssurances r);
  rv_acquisition : validateAcquisition v (RAcquisition r) (REvidenceType r) (RArtefacts r) (RRequiredAssurances r) = Ok tt;
  rv_constraints : NoDup (map CName (RConstraints r));
  rv_fallbacks : forall f, f ∈ RFallbacks r -> forallb condition_valid (FOn f) = true /\
    validateAcquisition v (FAcquisition f) (REvidenceType r) (RArtefacts r) (RRequiredAssurances r) = Ok tt;
}.

Lemma validateRequirement_Ok v r : validateRequirement v r = Ok tt -> requirement_valid v r.
Proof.
  unfold validateRequirement. intros Hr. go_inv Hr. destruct (v_evidence v !! _) as [t|]; [|done]. go_inv Hr. bprop. apply rforeach_Ok in Hr. rewrite Forall_forall in Hr.
  split.
  - by destruct v0.
  - apply RegistrySpec.validatedNames_Ok in Hv0 as (-> & Hn & _). split; [|done]. intros He. rewrite He in *. done.
  - by apply no_dupb_NoDup.
  - by destruct v2.
  - unfold validateConstraints in Hv2. go_inv Hv2. bprop. by apply no_dupb_NoDup.
  - intros f Hf. specialize (Hr f Hf). unfold validate_fallback in Hr. go_inv Hr. bprop. done.
Qed.

Lemma member_true x l : member x l = true <-> x ∈ l.
Proof.
  unfold member. rewrite List.existsb_exists. split; [intros (y & Hy & ->%String.eqb_eq); by apply list_elem_of_In|].
  intros Hx. exists x. by rewrite String.eqb_refl, <- list_elem_of_In.
Qed.
Lemma subset_true l k : subset l k = true <-> forall x, x ∈ l -> x ∈ k.
Proof.
  unfold subset. rewrite List.forallb_forall. split; intros Hl x Hx; [apply member_true, Hl, list_elem_of_In, Hx|apply member_true, Hl, list_elem_of_In, Hx].
Qed.

(** What a method establishes of a requirement. *)
Definition establishes (v : Vocabulary) (r : Requirement) (method x : Name) : Prop := exists l, uploadAssurances v r method = Some l /\ x ∈ l.

Lemma establishes_support v r artefacts method s x : method_support v (REvidenceType r) artefacts method = Some s ->
  x ∈ RRequiredAssurances r -> x ∈ SupportAssurances s -> establishes v r method x.
Proof.
  unfold method_support, establishes, uploadAssurances. destruct (v_methods v !! method) as [m|]; [|done]. cbn. destruct (supportFor _ _) as [s'|]; [|done]. cbn.
  destruct (subset _ _); [|done]. intros [= ->] Hx Hs. eexists. split; [done|]. apply list_elem_of_In, filter_In. split; [by apply list_elem_of_In|by apply member_true].
Qed.

Lemma acquisition_methods_Ok v strategy evidenceType artefacts assurances methods : forall acc combined,
  rfold (acquisition_method v strategy evidenceType artefacts assurances) methods acc = Ok combined ->
  (forall m, m ∈ methods -> exists s, method_support v evidenceType artefacts m = Some s /\
     (strategy = StrategyAnyOf -> forall x, x ∈ assurances -> x ∈ SupportAssurances s)) /\
  forall x, x ∈ combined -> x ∈ acc \/ exists m s, m ∈ methods /\ method_support v evidenceType artefacts m = Some s /\ x ∈ SupportAssurances s.
Proof.
  induction methods as [|m methods IH]; intros acc combined Hr; cbn [rfold] in Hr; [injection Hr as <-; split; [set_solver|auto]|].
  apply rbind_Ok in Hr as (acc' & Hm & Hr). unfold acquisition_method in Hm. destruct (method_support _ _ _ m) as [s|] eqn:Hs; [|done]. go_inv Hm.
  apply IH in Hr as [Hall Hc]. split.
  - intros m' [->|Hm']%elem_of_cons; [|by apply Hall]. exists s. split; [done|]. intros -> x Hx. unfold strategy_is in Hg. rewrite bool_decide_eq_true_2 in Hg by done. apply negb_false_iff in Hg. by apply (proj1 (subset_true _ _) Hg).
  - intros x [Hx|(m' & s' & Hm' & Hs')]%Hc; [|right; exists m', s'; set_solver]. apply elem_of_union in Hx as [Hx|Hx]; [|by left].
    right. exists m, s. split; [set_solver|]. split; [done|]. by apply elem_of_list_to_set in Hx.
Qed.

(** An accepted acquisition establishes what its requirement asks for: by every method
    of a choice, or by the methods of a combination together. *)
Lemma acquisition_establishes v a r : validateAcquisition v a (REvidenceType r) (RArtefacts r) (RRequiredAssurances r) = Ok tt ->
  NoDup (AMethods a) /\ AMethods a <> [] /\
  ((AStrategy a = StrategyAnyOf /\ forall m x, m ∈ AMethods a -> x ∈ RRequiredAssurances r -> establishes v r m x) \/
   (AStrategy a = StrategyAllOf /\ forall x, x ∈ RRequiredAssurances r -> exists m, m ∈ AMethods a /\ establishes v r m x)).
Proof.
  unfold validateAcquisition. intros Ha. go_inv Ha. bprop. apply acquisition_methods_Ok in Hv as [Hall Hc]. split; [by apply no_dupb_NoDup|].
  split; [intros He; rewrite He in *; done|]. unfold strategy_is in *. destruct Hg as [Hs|Hs]; apply negb_false_iff, bool_decide_eq_true in Hs; [left|right]; (split; [done|]).
  - intros m x Hm Hx. apply Hall in Hm as (s & Hs' & Hany). apply (establishes_support v r (RArtefacts r) m s); auto.
  - intros x Hx. destruct Hg2 as [Hg2|Hg2]; [by rewrite Hs, bool_decide_eq_true_2 in Hg2|]. apply negb_false_iff in Hg2. rewrite List.forallb_forall in Hg2.
    assert (Hin : x ∈ v0) by (apply (bool_decide_eq_true_1 _), Hg2, list_elem_of_In, Hx). apply Hc in Hin as [Hin|(m & s & Hm & Hs' & Hin)]; [set_solver|].
    exists m. split; [done|]. by apply (establishes_support v r (RArtefacts r) m s).
Qed.

(** *** The canonical form and its digest *)

Definition same_option (a b : DocumentOption) : Prop := OptionID a = OptionID b /\ OptionLabel a = OptionLabel b /\ OptionArtefacts a ≡ₚ OptionArtefacts b.
Definition same_fallback (a b : Fallback) : Prop := FAcquisition a = FAcquisition b /\ FOn a ≡ₚ FOn b.
Definition constraint_view (c : Constraint) : Name * CanonicalValue := (CName c, canonicalConstraintValue (CValue c)).
(** The same requirement, with its sets in another order. *)
Record same_requirement (a b : Requirement) : Prop := mk_same_requirement {
  sr_options : Forall2 same_option (default [] (RDocumentOptions a)) (default [] (RDocumentOptions b));
  sr_key : RKey a = RKey b;
  sr_purpose : RPurpose a = RPurpose b;
  sr_type : REvidenceType a = REvidenceType b;
  sr_artefacts : RArtefacts a ≡ₚ RArtefacts b;
  sr_acquisition : RAcquisition a = RAcquisition b;
  sr_assurances : RRequiredAssurances a ≡ₚ RRequiredAssurances b;
  sr_constraints : map constraint_view (RConstraints a) ≡ₚ map constraint_view (RConstraints b);
  sr_fallbacks : Forall2 same_fallback (RFallbacks a) (RFallbacks b);
}.
Definition same_profile (p q : Profile) : Prop :=
  PSchemaVersion p = PSchemaVersion q /\ PRegistry p = PRegistry q /\ Forall2 same_requirement (PRequirements p) (PRequirements q).

Lemma sorted_same l k : sort_strings l = sort_strings k <-> l ≡ₚ k.
Proof. split; [intros Hs; by rewrite <- (sort_strings_perm l), Hs, sort_strings_perm|apply sort_strings_unique]. Qed.

Lemma map_same {A B : Type} (f : A -> B) (same : A -> A -> Prop) l k : (forall a b, a ∈ l -> b ∈ k -> f a = f b <-> same a b) -> map f l = map f k <-> Forall2 same l k.
Proof.
  revert k. induction l as [|a l IH]; intros [|b k] Hf; cbn; [by split|split; [done|by inversion 1]..|]. split.
  - intros [= Ha Hl]. constructor; [by apply Hf; [left|left|]|]. apply IH; [|done]. intros x y Hx Hy. apply Hf; by right.
  - inversion 1; subst. f_equal; [by apply Hf; [left|left|]|]. apply IH; [|done]. intros x y Hx Hy. apply Hf; by right.
Qed.

Lemma condition_text_inj a b : condition_valid a = true -> condition_valid b = true -> condition_text a = condition_text b -> a = b.
Proof. by destruct a, b. Qed.

Lemma map_perm_inj {A B : Type} (f : A -> B) (l k : list A) : (forall a b, a ∈ l -> b ∈ k -> f a = f b -> a = b) -> map f l ≡ₚ map f k -> l ≡ₚ k.
Proof.
  revert k. induction l as [|a l IH]; intros k Hf Hp.
  - apply Permutation_nil, map_eq_nil in Hp. by subst.
  - assert (Hin : In (f a) (map f k)) by (rewrite <- Hp; by left). apply in_map_iff in Hin as (b & Hb & Hin).
    apply list_elem_of_In in Hin. assert (a = b) as -> by (apply Hf; [left|done|done]). apply list_elem_of_split in Hin as (k1 & k2 & ->).
    rewrite <- Permutation_middle. f_equiv. apply IH; [intros x y Hx Hy; apply Hf; [by right|set_solver]|].
    rewrite <- (Permutation_middle k1 k2 b) in Hp. cbn in Hp. by apply Permutation_cons_inv in Hp.
Qed.

Lemma canonical_requirement_same v v' a b : requirement_valid v a -> requirement_valid v' b -> canonical_requirement a = canonical_requirement b <-> same_requirement a b.
Proof.
  intros Ha Hb. unfold canonical_requirement.
  assert (Ho : map canonical_option (default [] (RDocumentOptions a)) = map canonical_option (default [] (RDocumentOptions b)) <->
    Forall2 same_option (default [] (RDocumentOptions a)) (default [] (RDocumentOptions b))).
  { apply map_same. intros x y _ _. unfold canonical_option, same_option. rewrite <- sorted_same. split; [by intros [= ? ? ?]|intros (-> & -> & ->); done]. }
  assert (Hf : map canonical_fallback (RFallbacks a) = map canonical_fallback (RFallbacks b) <-> Forall2 same_fallback (RFallbacks a) (RFallbacks b)).
  { apply map_same. intros x y Hx Hy. unfold canonical_fallback, same_fallback. split.
    - intros [= Hs ->]. split; [done|]. apply sorted_same in Hs. apply (rv_fallbacks _ _ Ha) in Hx as [Hx _]. apply (rv_fallbacks _ _ Hb) in Hy as [Hy _].
      apply (map_perm_inj condition_text); [|done]. intros c d Hc Hd. rewrite List.forallb_forall in Hx, Hy. apply condition_text_inj; [apply Hx|apply Hy]; by apply list_elem_of_In.
    - intros [-> Hp]. f_equal. apply sorted_same. by rewrite Hp. }
  assert (Hc : sort_by fst (map constraint_view (RConstraints a)) = sort_by fst (map constraint_view (RConstraints b)) <->
    map constraint_view (RConstraints a) ≡ₚ map constraint_view (RConstraints b)).
  { split; [intros Hs; by rewrite <- (sort_by_perm fst (map constraint_view (RConstraints a))), Hs, sort_by_perm|]. intros Hp. apply sort_by_unique; [done|].
    rewrite map_map. apply (rv_constraints _ _ Ha). }
  split.
  - intros [= H1 H2 H3 H4 H5 H6 H7 H8 H9]. split; [by apply Ho|done..|by apply sorted_same|done|by apply sorted_same|by apply Hc|by apply Hf].
  - intros [H1 H2 H3 H4 H5 H6 H7 H8 H9]. f_equal; [by apply Ho|done..|by apply sorted_same|done|by apply sorted_same|by apply Hc|by apply Hf].
Qed.

Lemma canonical_profile_same v v' p q : ValidateProfile p v = Ok tt -> ValidateProfile q v' = Ok tt -> canonical_profile p = canonical_profile q <-> same_profile p q.
Proof.
  intros (_ & _ & _ & _ & Hp)%ValidateProfile_Ok (_ & _ & _ & _ & Hq)%ValidateProfile_Ok. unfold canonical_profile, same_profile.
  assert (Hr : map canonical_requirement (PRequirements p) = map canonical_requirement (PRequirements q) <-> Forall2 same_requirement (PRequirements p) (PRequirements q)).
  { apply map_same. intros a b Ha Hb. apply (canonical_requirement_same v v'); apply validateRequirement_Ok; auto. }
  split; [intros [= ? ? Hm]; by rewrite <- Hr|intros (-> & -> & Hm); by apply Hr in Hm as ->].
Qed.

Section Identity.
Context `{ProfileLibraries, !RegistryLibraries}.

Lemma Digest_Ok p v d : Digest p v = Ok d -> ValidateProfile p v = Ok tt /\ exists text, marshal_profile (canonical_profile p) = Some text /\ d = Sum text.
Proof.
  unfold Digest, CanonicalJSON. intros Hd. go_inv Hd. apply rbind_Ok in Hv as ([] & Hv & Ht).
  destruct (marshal_profile _) as [text|]; [|done]. injection Ht as <-. split; [done|]. by exists text.
Qed.

(** The canonical texts of two profiles differ and have one digest. *)
Definition profiles_collide (p q : Profile) : Prop := exists text text',
  marshal_profile (canonical_profile p) = Some text /\ marshal_profile (canonical_profile q) = Some text' /\ text <> text' /\ Sum text = Sum text'.

(** A profile digest identifies the profile: two profiles that are accepted, under
    registries of their own, and that differ at most in the order of their sets have
    one digest, and one digest means that they name one registry revision and ask for
    the same requirements, in the same order, unless the two canonical texts differ
    and collide. *)
Theorem profile_digest_identifies (r r' : Z) (e e' : Definitions) (v v' : Vocabulary) (p q : Profile) (d d' : string)
    (Hv : NewRegistry r e = Ok v) (Hv' : NewRegistry r' e' = Ok v') (Hp : Digest p v = Ok d) (Hq : Digest q v' = Ok d')
    (Hup : profile_utf8 (canonical_profile p) = true) (Huq : profile_utf8 (canonical_profile q) = true) :
  (same_profile p q -> d = d') /\
  (d = d' -> (same_profile p q /\ vocabulary_reference v = vocabulary_reference v') \/ profiles_collide p q).
Proof.
  apply RegistrySpec.NewRegistry_Ok in Hv as (_ & _ & Hok & _). apply RegistrySpec.NewRegistry_Ok in Hv' as (_ & _ & Hok' & _).
  apply Digest_Ok in Hp as (Hp & text & Ht & ->). apply Digest_Ok in Hq as (Hq & text' & Ht' & ->). split.
  - intros Hs. apply (canonical_profile_same v v' p q Hp Hq) in Hs. rewrite Hs in Ht. congruence.
  - intros Hd. destruct (decide (text = text')) as [->|Hne]; [left|right; by exists text, text'].
    assert (Hs : same_profile p q) by (apply (canonical_profile_same v v' p q Hp Hq), (marshal_profile_inj p q v v' text'); done).
    split; [done|]. apply ValidateProfile_Ok in Hp as (_ & Hp & _). apply ValidateProfile_Ok in Hq as (_ & Hq & _). destruct Hs as (_ & Hs & _). congruence.
Qed.
End Identity.

(** *** Progress *)

Definition step_of (b : Binding) (st : Step) : Prop := take (length st) [BRequirement b; BArtefact b; BMethod b] = st.

(** A step is covered by an upload of its own, or by a whole chain of frames. *)
Definition covered (bindings : list Binding) (st : Step) : Prop :=
  (exists b, b ∈ bindings /\ step_of b st /\ BSequence b = None) \/
  exists frames digest, frames <> [] /\ (forall b, b ∈ frames -> b ∈ bindings /\ step_of b st /\ BSequence b = Some digest) /\
    2 <= llen frames <= 32 /\ frames_chained (llen frames) 0 [] None (order_by (fun f => default 0 (BIndex f)) frames) = true.

Definition steps_of (selections : gmap string string) (r : Requirement) : list Step :=
  let artefacts := EffectiveArtefacts r selections in
  if strategy_is (AStrategy (RAcquisition r)) StrategyAllOf
  then concat (map (fun a => map (fun m => [RKey r; a; m]) (AMethods (RAcquisition r))) artefacts)
  else map (fun a => [RKey r; a]) artefacts.

Lemma steps_of_length selections r :
  llen (steps_of selections r) + (if llen (EffectiveArtefacts r selections) =? 0 then 1 else 0) = requirement_steps r (EffectiveArtefacts r selections).
Proof.
  unfold requirement_steps, steps_of, llen. f_equal. destruct (strategy_is _ _).
  - induction (EffectiveArtefacts r selections) as [|a l IH]; [done|]. cbn [map concat length]. rewrite length_app, length_map, Nat2Z.inj_add, IH, Nat2Z.inj_succ, Z.mul_succ_l. apply Z.add_comm.
  - by rewrite length_map, Z.mul_1_r.
Qed.

Fixpoint total (f : Requirement -> Z) (l : list Requirement) : Z := match l with [] => 0 | r :: rest => f r + total f rest end.

Lemma counted_Ok selections requirements : forall n m n' m', rfold (count_requirement selections) requirements (n, m) = Ok (n', m') ->
  n' = n + total (fun r => requirement_steps r (EffectiveArtefacts r selections)) requirements /\
  forall k r artefacts, m' !! k = Some (r, artefacts) ->
    m !! k = Some (r, artefacts) \/ (r ∈ requirements /\ RKey r = k /\ artefacts = EffectiveArtefacts r selections).
Proof.
  induction requirements as [|x requirements IH]; intros n m n' m' Hr; cbn [rfold] in Hr; [injection Hr as <- <-; cbn; split; [lia|auto]|].
  apply rbind_Ok in Hr as (s & Hs & Hr). unfold count_requirement in Hs. go_inv Hs. apply IH in Hr as [-> Hm]. cbn [fst total]. split; [lia|].
  intros k r artefacts Hk. destruct (Hm k r artefacts Hk) as [Hins|(Hin & Hkey)]; [|right; set_solver].
  cbn [snd] in Hins. apply lookup_insert_Some in Hins as [[<- [= <- <-]]|[_ Hins]]; [right; set_solver|by left].
Qed.

(** A binding under the step its requirement gives it. *)
Definition placed (requirements : gmap string (Requirement * list Name)) (b : Binding) (st : Step) : Prop :=
  exists r artefacts, requirements !! BRequirement b = Some (r, artefacts) /\ BArtefact b ∈ artefacts /\ st = binding_step r b.

Lemma placed_step requirements b st : placed requirements b st -> step_of b st.
Proof. intros (r & artefacts & _ & _ & ->). unfold binding_step, step_of. by destruct (strategy_is _ _). Qed.

Definition placement (requirements : gmap string (Requirement * list Name)) (bindings : list Binding) (s : gset Step * gmap (Step * string) (list Binding)) : Prop :=
  (forall st, st ∈ s.1 -> exists b, b ∈ bindings /\ placed requirements b st /\ BSequence b = None) /\
  forall st d frames, s.2 !! (st, d) = Some frames -> forall b, b ∈ frames -> b ∈ bindings /\ placed requirements b st /\ BSequence b = Some d.

Lemma placed_Ok requirements bindings s : rfold (place_binding requirements) bindings (∅, ∅) = Ok s -> placement requirements bindings s.
Proof.
  intros Hr. apply (rfold_invariant _ (placement requirements bindings) _ _ _ Hr); [split; cbn; [set_solver|intros st d frames Hl; by rewrite lookup_empty in Hl]|].
  intros [c q] b t' Hb [Hc Hq] Hs. unfold place_binding in Hs. destruct (requirements !! BRequirement b) as [[r artefacts]|] eqn:Hreq; [|done]. go_inv Hs. bprop.
  assert (Hplaced : placed requirements b (binding_step r b)) by (exists r, artefacts; by rewrite <- member_true).
  destruct (BSequence b) as [digest|] eqn:Hseq; injection Hs as <-; split; cbn [fst snd] in *.
  - exact Hc.
  - intros st d frames Hl x Hx. apply lookup_insert_Some in Hl as [[[= <- <-] <-]|[_ Hl]]; [|by apply (Hq _ _ _ Hl)].
    apply elem_of_app in Hx as [Hx| ->%list_elem_of_singleton]; [|done]. destruct (q !! _) as [old|] eqn:Hold; [|by apply not_elem_of_nil in Hx]. by apply (Hq _ _ _ Hold).
  - intros st [->%elem_of_singleton|Hst]%elem_of_union; [by exists b|by apply Hc].
  - exact Hq.
Qed.

Lemma completed_Ok requirements bindings s completed : placement requirements bindings s ->
  rfold place_sequence (map_to_list s.2) s.1 = Ok completed -> forall st, st ∈ completed -> covered bindings st /\ exists b, b ∈ bindings /\ placed requirements b st.
Proof.
  intros [Hc Hq] Hr.
  apply (rfold_invariant _ (fun completed => forall st, st ∈ completed -> covered bindings st /\ exists b, b ∈ bindings /\ placed requirements b st) _ _ _ Hr).
  { intros st (b & Hb & Hp & Hn)%Hc. split; [left|]; exists b; [split; [done|]; split; [by eapply placed_step|done]|done]. }
  intros t [[st d] frames] t' Hin Ht Hs st' Hst'. apply elem_of_map_to_list in Hin. unfold place_sequence in Hs. destruct frames as [|first rest] eqn:Hf; [done|]. rewrite <- Hf in Hin, Hs. assert (Hfirst : first ∈ frames) by (rewrite Hf; left). clear Hf rest.
  destruct (BCount first) as [count|]; [|done]. go_inv Hs. bprop. revert Hst'. destruct (llen frames =? count) eqn:Hlen; intros Hst'; [|by apply Ht]. bprop.
  apply elem_of_union in Hst' as [->%elem_of_singleton|Hst']; [|by apply Ht]. split.
  - right. exists frames, d. split; [by intros ->; apply not_elem_of_nil in Hfirst|]. split; [|split; [lia|by rewrite Hlen]].
    intros b Hb. destruct (Hq _ _ _ Hin b Hb) as (Hb' & Hp & Hd). split; [done|]. split; [by eapply placed_step|done].
  - exists first. destruct (Hq _ _ _ Hin first Hfirst) as (Hb' & Hp & _). done.
Qed.

(** A binding is permitted by its requirement, as every issued upload is. *)
Definition permitted (p : Profile) (b : Binding) : Prop := exists fallback r,
  resolveUploadRequirement p (mk_upload_request (BRequirement b) (BArtefact b) (BMethod b) fallback) = Some r.

Lemma unique_requirement p v r r' : ValidateProfile p v = Ok tt -> r ∈ PRequirements p -> r' ∈ PRequirements p -> RKey r = RKey r' -> r = r'.
Proof.
  intros (_ & _ & _ & Hn & _)%ValidateProfile_Ok Hr Hr' Hk. apply list_elem_of_lookup in Hr as [i Hi]. apply list_elem_of_lookup in Hr' as [k Hk'].
  assert (i = k) as ->; [|congruence]. apply (NoDup_lookup (map RKey (PRequirements p)) i k (RKey r)); [done|..]; rewrite (list_lookup_fmap RKey), ?Hi, ?Hk'; cbn; congruence.
Qed.

Lemma permitted_requirement p v b r : ValidateProfile p v = Ok tt -> permitted p b -> r ∈ PRequirements p -> RKey r = BRequirement b ->
  exists fallback a, request_acquisition r fallback = Some a /\ BMethod b ∈ AMethods a.
Proof.
  intros Hv (fallback & r' & Hr') Hin Hk. unfold resolveUploadRequirement in Hr'. cbn [UKey] in Hr'. destruct (List.find _ _) as [x|] eqn:Hf; [|done].
  destruct (request_permitted x _) eqn:Hp; [|done]. apply List.find_some in Hf as [Hx%list_elem_of_In Hxk%String.eqb_eq].
  assert (x = r) as -> by (apply (unique_requirement p v); congruence). unfold request_permitted in Hp. cbn [UArtefact UMethod UFallback] in Hp. bprop.
  destruct (request_acquisition r fallback) as [a|] eqn:Ha; [|done]. exists fallback, a. by rewrite <- member_true.
Qed.

(** Combinations with fallbacks aside, a binding is placed under a step of the
    profile. *)
Definition combinations_alone (p : Profile) : Prop :=
  forall r, r ∈ PRequirements p -> AStrategy (RAcquisition r) = StrategyAllOf -> RFallbacks r = [].

Definition all_steps (selections : gmap string string) (p : Profile) : gset Step := list_to_set (concat (map (steps_of selections) (PRequirements p))).

Lemma placed_in_steps p v selections requirements b st : ValidateProfile p v = Ok tt -> combinations_alone p -> permitted p b ->
  (forall k r artefacts, requirements !! k = Some (r, artefacts) -> r ∈ PRequirements p /\ RKey r = k /\ artefacts = EffectiveArtefacts r selections) ->
  placed requirements b st -> st ∈ all_steps selections p.
Proof.
  intros Hv Halone Hb Hreq (r & artefacts & Hl & Ha & ->). destruct (Hreq _ _ _ Hl) as (Hr & Hk & ->). unfold all_steps. apply elem_of_list_to_set.
  apply list_elem_of_In, in_concat. exists (steps_of selections r). split; [by apply in_map, list_elem_of_In|]. unfold steps_of, binding_step.
  destruct (strategy_is _ _) eqn:Hs.
  - apply in_concat. eexists. split; [apply in_map, list_elem_of_In, Ha|]. apply in_map_iff. exists (BMethod b). rewrite Hk. split; [done|].
    unfold strategy_is in Hs. bprop. destruct (permitted_requirement p v b r Hv Hb Hr Hk) as (fallback & a & Hacq & Hm). apply list_elem_of_In.
    destruct fallback as [c|]; cbn in Hacq; [by rewrite (Halone r Hr Hs) in Hacq|by injection Hacq as <-].
  - apply in_map_iff. exists (BArtefact b). rewrite Hk. split; [done|by apply list_elem_of_In].
Qed.

Lemma total_steps selections l :
  llen (concat (map (steps_of selections) l)) <= total (fun r => requirement_steps r (EffectiveArtefacts r selections)) l.
Proof.
  induction l as [|x l IH]; [done|]. cbn [map concat total]. rewrite llen_app, <- (steps_of_length selections x).
  apply Z.add_le_mono; [destruct (_ =? 0)|exact IH]; lia.
Qed.

Lemma total_nonempty selections l : total (fun r => requirement_steps r (EffectiveArtefacts r selections)) l <= llen (concat (map (steps_of selections) l)) ->
  forall r, r ∈ l -> EffectiveArtefacts r selections <> [].
Proof.
  induction l as [|x l IH]; intros Hle r Hr; [by apply not_elem_of_nil in Hr|]. cbn [map concat total] in Hle. rewrite llen_app, <- (steps_of_length selections x) in Hle.
  pose proof (total_steps selections l) as Hge. destruct (llen (EffectiveArtefacts x selections) =? 0) eqn:He; [lia|]. apply elem_of_cons in Hr as [->|Hr].
  - intros Hn. by rewrite Hn in He.
  - apply IH; [lia|done].
Qed.

Lemma size_list_to_set_le (l : list Step) : (size (list_to_set l : gset Step) <= length l)%nat.
Proof.
  induction l as [|x l IH]; cbn [list_to_set length]; [by rewrite size_empty|]. rewrite size_union_alt, size_singleton.
  assert (Hle : (size (list_to_set l ∖ {[x]} : gset Step) <= size (list_to_set l : gset Step))%nat) by (apply subseteq_size; set_solver). lia.
Qed.

(** Every step of a complete capture is covered. *)
Lemma complete_steps p v bindings selections n : ValidateProfile p v = Ok tt -> combinations_alone p -> (forall b, b ∈ bindings -> permitted p b) ->
  captureProfileProgress p bindings selections = Ok (n, n) ->
  forall r, r ∈ PRequirements p -> EffectiveArtefacts r selections <> [] /\ forall st, st ∈ steps_of selections r -> covered bindings st.
Proof.
  intros Hv Halone Hperm Hc. unfold captureProfileProgress in Hc. apply rbind_Ok in Hc as ([steps requirements] & Hcount & Hc). go_inv Hc. bprop. cbn [fst snd] in *.
  apply counted_Ok in Hcount as [Hsteps Hreq]. apply placed_Ok in Hv0. pose proof (completed_Ok _ _ _ _ Hv0 Hv1) as Hcov.
  assert (Hreq' : forall k r artefacts, requirements !! k = Some (r, artefacts) -> r ∈ PRequirements p /\ RKey r = k /\ artefacts = EffectiveArtefacts r selections).
  { intros k r artefacts Hk. destruct (Hreq k r artefacts Hk) as [Hl|Hl]; [by rewrite lookup_empty in Hl|done]. }
  assert (Hsub : v1 ⊆ all_steps selections p).
  { intros st Hst. destruct (Hcov st Hst) as (_ & b & Hb & Hp). apply (placed_in_steps p v selections requirements b); auto. }
  assert (Hsize : Z.of_nat (size (all_steps selections p)) <= llen (concat (map (steps_of selections) (PRequirements p)))).
  { unfold all_steps, llen. apply inj_le, size_list_to_set_le. }
  pose proof (subseteq_size _ _ Hsub) as Hle. cbn in Hsteps. pose proof (total_steps selections (PRequirements p)) as Hge.
  assert (Hall : all_steps selections p ≡ v1) by (symmetry; apply set_subseteq_size_equiv; [done|lia]).
  intros r Hr. split; [apply (total_nonempty selections (PRequirements p)); [lia|done]|]. intros st Hst. apply Hcov, Hall. unfold all_steps. apply elem_of_list_to_set.
  apply list_elem_of_In, in_concat. exists (steps_of selections r). split; [by apply in_map, list_elem_of_In|by apply list_elem_of_In].
Qed.

Lemma covered_binding bindings st : covered bindings st -> exists b, b ∈ bindings /\ step_of b st.
Proof.
  intros [(b & Hb & Hs & _)|(frames & d & Hne & Hf & _)]; [by exists b|]. destruct frames as [|b frames]; [done|]. exists b. destruct (Hf b) as (? & ? & _); [left|]. done.
Qed.


(** *** The built-in registry *)
Section BuiltInProfiles.
Context `{RegistryLibraries}.

Definition built_in (v : Vocabulary) : Prop := BuiltInRegistry = Ok v \/ PanAfricanRegistry = Ok v \/ FraudRegistry = Ok v.
Definition methods_of (r : result Error Vocabulary) : gmap Name _ := match r with Ok v => v_methods v | Err _ => ∅ end.
Definition built_in_methods : gmap Name _ := methods_of (vocabulary_of 1 builtInDefinitions).

Lemma revision_methods revision d v : methods_of (vocabulary_of revision d) = built_in_methods -> NewRegistry revision d = Ok v -> v_methods v = built_in_methods.
Proof. intros Hm Hv. unfold NewRegistry in Hv. go_inv Hv. rewrite Hv0 in Hm. destruct (marshal_registry _); [|discriminate Hv]. injection Hv as <-. exact Hm. Qed.
Lemma built_in_same v : built_in v -> v_methods v = built_in_methods.
Proof.
  intros [Hv|[Hv|Hv]].
  - apply (revision_methods 1 builtInDefinitions v); [vm_compute; reflexivity|exact Hv].
  - apply (revision_methods 2 panAfricanDefinitions v); [vm_compute; reflexivity|exact Hv].
  - apply (revision_methods 3 fraudDefinitions v); [vm_compute; reflexivity|exact Hv].
Qed.

(** Files establish nothing, the camera nothing but [camera_assurances]. *)
Definition support_bounded (m : Name) (s : MethodSupport) : bool :=
  if String.eqb m MethodFileUpload then llen (SupportAssurances s) =? 0 else subset (SupportAssurances s) camera_assurances.
Lemma built_in_supports m method s : built_in_methods !! m = Some method -> s ∈ Supports method -> support_bounded m s = true.
Proof.
  intros Hm Hs. assert (Hall : forallb (fun p => forallb (support_bounded p.1) (Supports p.2)) (map_to_list built_in_methods) = true) by (vm_compute; reflexivity).
  rewrite List.forallb_forall in Hall. apply elem_of_map_to_list, list_elem_of_In, Hall in Hm. cbn [fst snd] in Hm.
  rewrite List.forallb_forall in Hm. by apply Hm, list_elem_of_In.
Qed.

Lemma built_in_establishes v r m x : built_in v -> establishes v r m x -> m <> MethodFileUpload /\ x ∈ camera_assurances.
Proof.
  intros Hv%built_in_same (l & Hl & Hx). unfold uploadAssurances in Hl. rewrite Hv in Hl. destruct (built_in_methods !! m) as [method|] eqn:Hm; [|done]. cbn in Hl.
  destruct (supportFor _ _) as [s|] eqn:Hs; [|done]. cbn in Hl. injection Hl as <-. apply List.find_some in Hs as [Hs%list_elem_of_In _].
  apply (built_in_supports m method s Hm) in Hs. apply list_elem_of_In, filter_In in Hx as [_ Hx%member_true]. unfold support_bounded in Hs.
  destruct (String.eqb_spec m MethodFileUpload) as [->|Hne].
  - clear -Hs Hx. destruct (SupportAssurances s); [by apply not_elem_of_nil in Hx|discriminate Hs].
  - split; [done|]. by apply (proj1 (subset_true _ _) Hs).
Qed.

Definition acquisitions (r : Requirement) : list Acquisition := RAcquisition r :: map FAcquisition (RFallbacks r).

(** Profiles of the built-in registry claim no more than a camera can show: an
    accepted profile over any built-in revision requires only freshness, live capture
    and capture integrity, never liveness, a face match or a document check; a choice
    that accepts a file, primary or fallback, requires nothing, a combination is never
    of files alone unless nothing is required, and the assurances recorded for an
    uploaded file are none. *)
Theorem built_in_profiles_bounded (v : Vocabulary) (p : Profile) (r : Requirement)
    (Hv : built_in v) (Hp : ValidateProfile p v = Ok tt) (Hr : r ∈ PRequirements p) :
  (forall x, x ∈ RRequiredAssurances r -> x ∈ camera_assurances) /\
  (forall a, a ∈ acquisitions r -> AStrategy a = StrategyAnyOf -> MethodFileUpload ∈ AMethods a -> RRequiredAssurances r = []) /\
  (forall a, a ∈ acquisitions r -> AMethods a = [MethodFileUpload] -> RRequiredAssurances r = []) /\
  (forall l, uploadAssurances v r MethodFileUpload = Some l -> l = []).
Proof.
  apply ValidateProfile_Ok in Hp as (_ & _ & _ & _ & Hall). pose proof (validateRequirement_Ok v r (Hall r Hr)) as Hok.
  assert (Hacq : forall a, a ∈ acquisitions r -> validateAcquisition v a (REvidenceType r) (RArtefacts r) (RRequiredAssurances r) = Ok tt).
  { intros a [->|Ha]%elem_of_cons; [apply Hok|]. apply list_elem_of_In, in_map_iff in Ha as (f & <- & Hf%list_elem_of_In). by apply (rv_fallbacks _ _ Hok). }
  assert (Hnone : (forall x, x ∈ RRequiredAssurances r -> False) -> RRequiredAssurances r = []).
  { destruct (RRequiredAssurances r) as [|x l]; [done|]. intros Hx. destruct (Hx x). left. }
  split; [|split; [|split]].
  - intros x Hx. destruct (acquisition_establishes v _ r (Hacq (RAcquisition r) ltac:(left))) as (_ & Hne & [[_ He]|[_ He]]).
    + destruct (AMethods (RAcquisition r)) as [|m l]; [done|]. by apply (built_in_establishes v r m x Hv), He; [left|].
    + destruct (He x Hx) as (m & _ & Hm). by apply (built_in_establishes v r m x Hv).
  - intros a Ha Hs Hm. apply Hnone. intros x Hx. destruct (acquisition_establishes v a r (Hacq a Ha)) as (_ & _ & [[_ He]|[Hs' _]]); [|congruence].
    by destruct (built_in_establishes v r _ x Hv (He _ x Hm Hx)).
  - intros a Ha Hm. apply Hnone. intros x Hx. destruct (acquisition_establishes v a r (Hacq a Ha)) as (_ & _ & [[_ He]|[_ He]]); rewrite Hm in He.
    + by destruct (built_in_establishes v r _ x Hv (He MethodFileUpload x ltac:(left) Hx)).
    + destruct (He x Hx) as (m & ->%list_elem_of_singleton & Hest). by destruct (built_in_establishes v r _ x Hv Hest).
  - intros [|x l] Hl; [done|]. destruct (built_in_establishes v r MethodFileUpload x Hv) as [Hn _]; [|done]. exists (x :: l). split; [done|left].
Qed.
End BuiltInProfiles.

(** *** A profile *)
Module ProfileWitness.
Import RegistrySpec.RegistryWitness.

Definition strategy_code (s : Strategy) : Z * string := match s with StrategyAnyOf => (0, "") | StrategyAllOf => (1, "") | StrategyOther raw => (2, raw) end%string.
Definition acquisition_code (a : Acquisition) := (strategy_code (AStrategy a), AMethods a).
Definition value_code (x : CanonicalValue) : Z * string * Z * list string :=
  match x with
  | CanonicalString s => (0, s, 0, []) | CanonicalInteger z => (1, "", z, []) | CanonicalBoolean b => (2, "", Z.b2z b, [])
  | CanonicalList l => (3, "", 0, l) | CanonicalNull => (4, "", 0, [])
  end%string.
Definition requirement_code (r : CanonicalRequirement) :=
  (map (fun o => (OptionID o, OptionLabel o, OptionArtefacts o)) (KOptions r), KKey r, KPurpose r, KEvidenceType r, KArtefacts r, acquisition_code (KAcquisition r),
   KAssurances r, map (fun c => (c.1, value_code c.2)) (KConstraints r), map (fun f => (f.1, acquisition_code f.2)) (KFallbacks r)).
Definition profile_code (p : CanonicalProfile) :=
  (KSchemaVersion p, (SchemaVersion (KRegistry p), Revision (KRegistry p), RegistryDigest (KRegistry p)), map requirement_code (KRequirements p)).

Ltac pairs := repeat match goal with He : (_, _) = (_, _) |- _ => apply pair_equal_spec in He as [? ?] end.
Lemma acquisition_code_inj a b : acquisition_code a = acquisition_code b -> a = b.
Proof. destruct a as [s l], b as [s' l']. intros [= Hs ->]. f_equal. by destruct s, s'; simplify_eq/=. Qed.
Lemma value_code_inj a b : value_code a = value_code b -> a = b.
Proof. destruct a as [?|?|[]|?|], b as [?|?|[]|?|]; intros Hv; by simplify_eq/=. Qed.
Lemma requirement_code_inj a b : requirement_code a = requirement_code b -> a = b.
Proof.
  destruct a as [o ? ? ? ? q ? c f], b as [o' ? ? ? ? q' ? c' f']. unfold requirement_code. cbn [KOptions KKey KPurpose KEvidenceType KArtefacts KAcquisition KAssurances KConstraints KFallbacks].
  intros He. pairs. subst. assert (q = q') as -> by by apply acquisition_code_inj.
  assert (o = o') as -> by (eapply list_fmap_eq_inj; [|eassumption]; intros [] []; cbn; congruence).
  assert (c = c') as -> by (eapply list_fmap_eq_inj; [|eassumption]; intros [] []; cbn; intros Hc; pairs; subst; f_equal; by apply value_code_inj).
  assert (f = f') as ->; [|done]. eapply list_fmap_eq_inj; [|eassumption]. intros [] []; cbn; intros Hf; pairs; subst; f_equal; by apply acquisition_code_inj.
Qed.
Lemma profile_code_inj p q : profile_code p = profile_code q -> p = q.
Proof. destruct p as [? [] l], q as [? [] l']. unfold profile_code. cbn. intros He. pairs. subst. f_equal. by apply (list_fmap_eq_inj requirement_code); [exact requirement_code_inj|]. Qed.

#[local] Instance content_libraries : ContentLibraries :=
  { content_sha256 := fun s => s; marshal_document := fun _ => None; parse_media_type := fun s => Some s }.
#[local] Instance registry_libraries : RegistryLibraries.
Proof.
  refine {| marshal_registry := fun d => Some (enc (tuple_of d) "") |}.
  intros d d' s _ _ Hd Hd'. apply tuple_of_inj. rewrite <- Hd' in Hd. clear Hd'. apply (f_equal (default "")) in Hd. exact (proj1 (enc_inj _ _ _ _ Hd)).
Defined.
#[local] Instance profile_libraries : ProfileLibraries.
Proof.
  refine {| marshal_profile := fun p => Some (enc (profile_code p) "") |}.
  intros p q v v' s _ _ _ _ _ _ Hp Hq. apply profile_code_inj. rewrite <- Hq in Hp. clear Hq. apply (f_equal (default "")) in Hp. exact (proj1 (enc_inj _ _ _ _ Hp)).
Defined.

(** A document of two sides, photographed with a proof of the scene, of the moment or
    of both. *)
Definition document : Name := EvidenceDocumentImage.
Definition sides : list Name := [ArtefactDocumentFront; ArtefactDocumentBack].
Definition scene : Name := "idenqa.assurance.scene".
Definition moment : Name := "idenqa.assurance.moment".
Definition by_both : Name := "idenqa.method.both".
Definition by_scene : Name := "idenqa.method.scene".
Definition by_light : Name := "idenqa.method.light".
Definition by_moment : Name := "idenqa.method.moment".
Definition method (name : Name) (assurances : list Name) := mk_method name [mk_support document sides assurances].
Definition purpose : Name := "idenqa.purpose.verification".
Definition definitions : Definitions :=
  mk_definitions sides [mk_type document sides] [method by_both [scene; moment]; method by_scene [scene]; method by_light [scene]; method by_moment [moment]] [purpose] [scene; moment]
    [mk_constraint ConstraintMaximumBytes ValueInteger []].
Definition registry : Vocabulary := match NewRegistry 1 definitions with Ok v => v | Err _ => mk_vocabulary 0 "" ∅ ∅ ∅ ∅ ∅ ∅ end.
Lemma registry_made : NewRegistry 1 definitions = Ok registry.
Proof. vm_compute. reflexivity. Qed.

Definition combination : Acquisition := mk_acquisition StrategyAllOf [by_scene; by_moment].
Definition choice : Acquisition := mk_acquisition StrategyAnyOf [by_both].
Definition front_only : list DocumentOption := [mk_option "front" "Front" [ArtefactDocumentFront]; mk_option "both" "Both sides" sides].
Definition requirement (artefacts : list Name) (a : Acquisition) (fallbacks : list Fallback) : Requirement :=
  mk_requirement "document" purpose document artefacts (Some front_only) a [scene; moment] [mk_capture_constraint ConstraintMaximumBytes (mk_value ValueInteger "" 1000 false [])] fallbacks.
Definition profile_with (artefacts : list Name) (a : Acquisition) (fallbacks : list Fallback) : Profile :=
  mk_profile 1 (vocabulary_reference registry) [requirement artefacts a fallbacks].

Definition digested (p : Profile) : bool := match Digest p registry with Ok _ => true | Err _ => false end.
Lemma digested_Ok p : digested p = true -> exists d, Digest p registry = Ok d.
Proof. unfold digested. destruct (Digest p registry) as [d|]; [by exists d|done]. Qed.

Lemma reordered_same : same_profile (profile_with sides choice []) (profile_with (rev sides) choice []).
Proof.
  unfold same_profile, profile_with. cbn [PSchemaVersion PRegistry PRequirements]. split; [reflexivity|]. split; [reflexivity|]. constructor; [|constructor].
  unfold requirement. split; cbn [RKey RPurpose REvidenceType RArtefacts RDocumentOptions RAcquisition RRequiredAssurances RConstraints RFallbacks default];
    try reflexivity; [|apply Permutation_rev|constructor].
  repeat constructor; reflexivity.
Qed.

Lemma profile_digest_identifies_witness :
  exists d, Digest (profile_with sides choice []) registry = Ok d /\ Digest (profile_with (rev sides) choice []) registry = Ok d.
Proof.
  assert (H1 : digested (profile_with sides choice []) = true) by (vm_compute; reflexivity).
  assert (H2 : digested (profile_with (rev sides) choice []) = true) by (vm_compute; reflexivity).
  apply digested_Ok in H1 as [d Hd]. apply digested_Ok in H2 as [d' Hd'].
  pose proof reordered_same as Hs.
  assert (Hu : profile_utf8 (canonical_profile (profile_with sides choice [])) = true) by (vm_compute; reflexivity).
  assert (Hu' : profile_utf8 (canonical_profile (profile_with (rev sides) choice [])) = true) by (vm_compute; reflexivity).
  destruct (profile_digest_identifies 1 1 _ _ _ _ _ _ d d' registry_made registry_made Hd Hd' Hu Hu') as [He _].
  exists d. rewrite (He Hs) at 2. by split.
Defined.

(** A photograph of the front, and two frames of the back. *)
Definition upload (artefact method : Name) : Binding := mk_binding "document" artefact method None None None None None None None.
Definition frame (index : Z) (challenge : string) (previous : option string) (content : string) : Binding :=
  mk_binding "document" ArtefactDocumentBack by_both (Some "s") (Some index) (Some 2) (Some challenge) (Some (mk_time (1000 + index) true)) previous (Some content).
Definition photographs : list Binding := [upload ArtefactDocumentFront by_both; frame 1 "turn" (Some "x") "y"; frame 0 "blink" None "x"].
Definition chosen : gmap string string := {["document" := "both"]}.

(** Every upload is permitted, without a fallback or under its condition. *)
Definition all_permitted (p : Profile) (bindings : list Binding) : bool :=
  forallb (fun b => existsb (fun fallback => match resolveUploadRequirement p (mk_upload_request (BRequirement b) (BArtefact b) (BMethod b) fallback) with Some _ => true | None => false end)
    [None; Some FallbackCaptureFailed]) bindings.
Lemma all_permitted_true p bindings : all_permitted p bindings = true -> forall b, b ∈ bindings -> permitted p b.
Proof.
  unfold all_permitted. rewrite List.forallb_forall. intros Hall b Hb%list_elem_of_In. specialize (Hall b Hb). apply List.existsb_exists in Hall as (fallback & _ & Hf).
  exists fallback. destruct (resolveUploadRequirement _ _) as [r|]; [by exists r|done].
Qed.


(** A selfie by the camera, over the first built-in revision. *)
Definition selfie_profile (v : Vocabulary) : Profile :=
  mk_profile 1 (vocabulary_reference v)
    [mk_requirement "selfie" PurposeIdentityVerification EvidenceSelfieImage [ArtefactSelfieImage] None (mk_acquisition StrategyAnyOf [MethodLiveCamera])
       [AssuranceFreshness] [] []].
Definition built_in_revision : Vocabulary := match BuiltInRegistry with Ok v => v | Err _ => mk_vocabulary 0 "" ∅ ∅ ∅ ∅ ∅ ∅ end.
Lemma built_in_made : BuiltInRegistry = Ok built_in_revision.
Proof. vm_compute. reflexivity. Qed.

Lemma built_in_profiles_bounded_witness : ValidateProfile (selfie_profile built_in_revision) built_in_revision = Ok tt /\ AssuranceFreshness ∈ camera_assurances.
Proof.
  assert (H1 : built_in built_in_revision) by (left; exact built_in_made).
  assert (H2 : ValidateProfile (selfie_profile built_in_revision) built_in_revision = Ok tt) by (vm_compute; reflexivity).
  destruct (built_in_profiles_bounded _ _ _ H1 H2 ltac:(left)) as [Hreq _]. split; [exact H2|]. apply Hreq. left.
Defined.

(** *** Fallbacks *)

(** A choice, and a combination, that fall back to a combination of other methods, and
    uploads of the front of the document, under the condition of the fallback. *)
Definition fallen_back (primary : Acquisition) : list Requirement :=
  [requirement sides primary [mk_fallback [FallbackCaptureFailed] (mk_acquisition StrategyAllOf [by_light; by_moment])]].
Definition short_captures : list (Acquisition * list Binding) :=
  [(choice, [upload ArtefactDocumentFront by_light]); (combination, [upload ArtefactDocumentFront by_scene; upload ArtefactDocumentFront by_light])].

Definition never_established (r : Requirement) (b : Binding) (x : Name) : bool :=
  match uploadAssurances registry r (BMethod b) with Some l => negb (member x l) | None => true end.
Definition accepted_profile (p : Profile) : bool := match ValidateProfile p registry with Ok _ => true | Err _ => false end.

Lemma short_capture primary bindings n : let p := mk_profile 1 (vocabulary_reference registry) (fallen_back primary) in
  accepted_profile p = true -> all_permitted p bindings = true -> captureProfileProgress p bindings {["document" := "front"]} = Ok (n, n) ->
  forallb (fun r => member moment (RRequiredAssurances r) && forallb (fun b => never_established r b moment) bindings) (fallen_back primary) = true ->
  NewProfile registry (fallen_back primary) = Ok p /\ (forall b, b ∈ bindings -> permitted p b) /\
  captureProfileProgress p bindings {["document" := "front"]} = Ok (n, n) /\
  forall r b, r ∈ fallen_back primary -> b ∈ bindings -> moment ∈ RRequiredAssurances r /\ ~ establishes registry r (BMethod b) moment.
Proof.
  intros p Hv Hp Hn Hall. unfold NewProfile. fold p. unfold accepted_profile in Hv. change ProfileSchemaVersion with 1. fold p.
  destruct (ValidateProfile p registry) as [[]|] eqn:Hok; [|done]. split; [done|]. split; [by apply all_permitted_true|]. split; [done|].
  rewrite List.forallb_forall in Hall. intros r b Hr%list_elem_of_In Hb%list_elem_of_In. specialize (Hall r Hr). apply andb_true_iff in Hall as [Hm Hnone].
  rewrite List.forallb_forall in Hnone. specialize (Hnone b Hb). split; [by apply member_true|]. intros (l & Hl & Hx%member_true).
  unfold never_established in Hnone. rewrite Hl, Hx in Hnone. discriminate Hnone.
Qed.

(** The assurances of a capture depend on the fallbacks of its profile: with the
    registry and the profiles below, which [NewRegistry] and [NewProfile] accept, a capture
    is counted complete by uploads that its requirement permits, and none of them was
    made by a method that establishes a required assurance.  Progress follows the
    strategy of the primary acquisition: one upload of a fallback's combination
    completes a choice, and takes the place of a method of a combination. *)
Theorem fallback_completes_without_assurance :
  NewRegistry 1 definitions = Ok registry /\
  Forall (fun '(primary, bindings) => exists p n,
    NewProfile registry (fallen_back primary) = Ok p /\ (forall b, b ∈ bindings -> permitted p b) /\
    captureProfileProgress p bindings {["document" := "front"]} = Ok (n, n) /\
    forall r b, r ∈ fallen_back primary -> b ∈ bindings -> moment ∈ RRequiredAssurances r /\ ~ establishes registry r (BMethod b) moment) short_captures.
Proof.
  split; [exact registry_made|]. unfold short_captures. constructor; [|constructor; [|constructor]].
  - exists (mk_profile 1 (vocabulary_reference registry) (fallen_back choice)), 1. apply short_capture; vm_compute; reflexivity.
  - exists (mk_profile 1 (vocabulary_reference registry) (fallen_back combination)), 2. apply short_capture; vm_compute; reflexivity.
Qed.
End ProfileWitness.
End ProfileSpec.
