(* ===== verification/AuthorityService.v ===== *)
(** * The processing-authority service and its store

    [internal/authority/service.go], [authority/postgres/store.go],
    [postgres/consent.go] and [lockAuthoritySession]: notices, declarations, their
    transitions, responses, revocations of consent and the authorisation of an
    operation on evidence, over the tables of one tenant.

    A use case is a small automaton, one transaction per step; a step takes its clock
    reading, fresh identifiers, the answers of the advisory lock, of the webhook
    emitter and of the restriction gate, and the fate of its transaction, and may be
    a crash.  Timestamps are stored as they are. *)

From S2P Require Import Prelude GoTime Ident Content Lifecycle Evidence Idempotency Authority.
From Stdlib Require Import Ascii.

(** ** Tables *)
Module AuthorityStore.

Record Requirement := mk_requirement { RequirementKey : string; RequirementPurpose : string; RequirementType : string }.
Record SessionRow := mk_session {
  SessionState_ : Lifecycle.SessionState; SessionExpires : Time; Requirements : list Requirement; Region : string;
  (** The audit row of its creation: actor and delegated actor. *)
  CreatedFor : string * string;
  (** Subject, authority and notice. *)
  Binding : option (string * string * string) }.
Record TokenRow := mk_token { TokenVerification : string; IssuedAt : Time; TokenExpires : Time; RevokedAt : option Time }.
Record Recovery := mk_recovery { RecoveredVerification : string; NewToken : string; RecoveredAt : Time }.
Record AuditRow := mk_audit { AuditID : string; AuditVersion : Z; AuditAction : string; AuditActor : string; AuditAt : Time }.
Record EventRow := mk_event { EventID : string; EventAggregate : string; EventVersion : Z; EventType : string; EventAt : Time }.

Record Database := mk_database {
  notices : gmap string Notice;
  sessions : gmap string SessionRow;
  subjects : gmap string string;
  authorities : gmap string Authority;
  responses : list Response;
  tokens : gmap string TokenRow;
  recoveries : list Recovery;
  audit_rows : list AuditRow;
  outbox : list EventRow;
}.
Definition with_notices (db : Database) x := mk_database x (sessions db) (subjects db) (authorities db) (responses db) (tokens db) (recoveries db) (audit_rows db) (outbox db).
Definition with_sessions (db : Database) x := mk_database (notices db) x (subjects db) (authorities db) (responses db) (tokens db) (recoveries db) (audit_rows db) (outbox db).
Definition with_subjects (db : Database) x := mk_database (notices db) (sessions db) x (authorities db) (responses db) (tokens db) (recoveries db) (audit_rows db) (outbox db).
Definition with_authorities (db : Database) x := mk_database (notices db) (sessions db) (subjects db) x (responses db) (tokens db) (recoveries db) (audit_rows db) (outbox db).
Definition with_responses (db : Database) x := mk_database (notices db) (sessions db) (subjects db) (authorities db) x (tokens db) (recoveries db) (audit_rows db) (outbox db).
Definition with_tokens (db : Database) x := mk_database (notices db) (sessions db) (subjects db) (authorities db) (responses db) x (recoveries db) (audit_rows db) (outbox db).
Definition with_recoveries (db : Database) x := mk_database (notices db) (sessions db) (subjects db) (authorities db) (responses db) (tokens db) x (audit_rows db) (outbox db).
Definition with_audit (db : Database) x := mk_database (notices db) (sessions db) (subjects db) (authorities db) (responses db) (tokens db) (recoveries db) x (outbox db).
Definition with_outbox (db : Database) x := mk_database (notices db) (sessions db) (subjects db) (authorities db) (responses db) (tokens db) (recoveries db) (audit_rows db) x.

(** The references kept for replay, [{"authority_id": ...}]. *)
Class ReferenceJson `{IdempotencyLibraries} := {
  encode_reference : string -> string -> string;
  decode_reference : string -> string -> option string;
  decode_encode name value : decode_reference name (encode_reference name value) = Some value;
  encode_object name value : json_object (encode_reference name value) = true /\ encode_reference name value <> ""%string;
}.

Definition lift (e : Idempotency.Error) : Error :=
  match e with Idempotency.ErrConflict => ErrIdempotencyConflict | Idempotency.ErrInProgress => ErrInProgress | _ => ErrQuery end.

(** [ORDER BY recorded_at DESC, id DESC LIMIT 1]. *)
Definition later (a b : Time * string) : bool :=
  (instant b.1 <? instant a.1) || ((instant a.1 =? instant b.1) && negb (String.leb a.2 b.2)).
Definition newest {A : Type} (key : A -> Time * string) (l : list A) : option A :=
  fold_left (fun best x => match best with None => Some x | Some y => if later (key x) (key y) then Some x else best end) l None.

Section Store.
Context (tenant : string) `{AuthorityLibraries} `{ReferenceJson}.

Definition insertEvent (db : Database) (eventID aggregate : string) (version : Z) (eventType : string) (at_ : Time) : result Error Database :=
  reject existsb (fun e => String.eqb (EventID e) eventID) (outbox db) with ErrQuery ;;
  Ok (with_outbox db (outbox db ++ [mk_event eventID aggregate version eventType at_])).

Definition insertAuthorityAudit (db : Database) (a : Authority) (action actor : string) : result Error Database :=
  reject existsb (fun r => String.eqb (AuditID r) (ID a) && (AuditVersion r =? Version a)) (audit_rows db) with ErrQuery ;;
  Ok (with_audit db (audit_rows db ++ [mk_audit (ID a) (Version a) action actor (UpdatedAt a)])).

(** The reference that [completeReference] keeps. *)
Definition reference (status : Z) (name identifier : string) : result Error Result :=
  match NewResult status (encode_reference name identifier) with Ok r => Ok r | Err _ => Err ErrQuery end.
Definition referred (name : string) (r : Result) : result Error string :=
  match decode_reference name (Body r) with Some identifier => Ok identifier | None => Err ErrQuery end.

(** The webhook is only emitted for a session with a region. *)
Definition emitted (db : Database) (verification : string) (emits : bool) : result Error unit :=
  match sessions db !! verification with
  | None => Err ErrQuery
  | Some s => reject negb (empty_string (Region s)) && negb emits with ErrQuery ;; Ok tt
  end.

(** *** Notices *)

Definition find_notice (db : Database) (identifier : string) : result Error Notice :=
  match notices db !! identifier with None => Err ErrQuery | Some row => RestoreNotice row end.

Definition FindNotice (db : Database) (identifier : string) : result Error Notice :=
  reject empty_string tenant || empty_string identifier with ErrNotFound ;;
  match notices db !! identifier with None => Err ErrNotFound | Some row => RestoreNotice row end.

Definition create_notice (notice : Notice) (eventID : string) (db : Database) : result Error (Notice * Result * Time * Database) :=
  reject match notices db !! NoticeID notice with Some _ => true | None => false end with ErrQuery ;;
  let? restored := RestoreNotice notice in
  let db := with_notices db (<[NoticeID notice := notice]> (notices db)) in
  let? db := insertEvent db eventID (NoticeID notice) 1 "notice.created.v1" (NCreatedAt notice) in
  let? r := reference 201 "notice_id" (NoticeID notice) in
  Ok (restored, r, NCreatedAt notice, db).

Definition CreateNotice (t : Tables Database) (notice : Notice) (eventID : string) (request : Request) (locked : bool) (c : Commit)
  : result Error Notice * Tables Database :=
  if empty_string tenant || negb (String.eqb (NTenantID notice) tenant) || empty_string eventID || negb (String.eqb (tenant_of request) tenant) ||
     negb (String.eqb (principal_of request) (NCreatedBy notice)) then (Err ErrConflict, t)
  else transact ErrQuery t c (command lift locked request (fun r db => let? identifier := referred "notice_id" r in find_notice db identifier)
         (create_notice notice eventID) t).

(** *** Declarations *)

Definition find_authority (db : Database) (identifier : string) : result Error Authority :=
  match authorities db !! identifier with None => Err ErrQuery | Some row => Restore row end.

(** The unique key of a declaration is its verification. *)
Definition by_verification (db : Database) (verification : string) : option Authority :=
  match List.find (fun p => String.eqb (VerificationID p.2) verification) (map_to_list (authorities db)) with Some p => Some p.2 | None => None end.

Definition FindByVerification (db : Database) (verification : string) : result Error Authority :=
  reject empty_string tenant || empty_string verification with ErrNotFound ;;
  match by_verification db verification with None => Err ErrNotFound | Some row => Restore row end.

Definition requirement_scope (requirements : list Requirement) : list string * list string :=
  (canonicalSet (map RequirementPurpose requirements), canonicalSet (map RequirementType requirements)).
Definition requirementsMatch (requirements : list Requirement) (purposes types : list string) : bool :=
  negb (llen requirements =? 0) && bool_decide ((requirement_scope requirements).1 = purposes) && bool_decide ((requirement_scope requirements).2 = types).

Definition replay_authority (r : Result) (db : Database) : result Error Authority :=
  let? identifier := referred "authority_id" r in find_authority db identifier.

Definition declare_body (a : Authority) (delegated eventID : string) (emits : bool) (db : Database) : result Error (Authority * Result * Time * Database) :=
  match sessions db !! VerificationID a with
  | None => Err ErrConflict
  | Some locked =>
      reject match Binding locked with Some _ => true | None => false end with ErrConflict ;;
      reject negb (empty_string (WorkloadID a)) && negb (bool_decide (CreatedFor locked = (WorkloadID a, delegated))) with ErrProcessingNotPermitted ;;
      reject negb (Lifecycle.state_is (SessionState_ locked) Lifecycle.SessionStateCollecting) || after (ExpiresAt a) (SessionExpires locked) ||
             negb (requirementsMatch (Requirements locked) (RequirementPurposes a) (EvidenceTypes a)) with ErrConflict ;;
      reject match notices db !! ANoticeID a with Some _ => false | None => true end with ErrNotFound ;;
      reject match subjects db !! SubjectID a with Some _ => true | None => false end with ErrQuery ;;
      let db := with_subjects db (<[SubjectID a := VerificationID a]> (subjects db)) in
      reject match authorities db !! ID a, by_verification db (VerificationID a) with None, None => false | _, _ => true end with ErrQuery ;;
      let db := with_authorities db (<[ID a := a]> (authorities db)) in
      let? restored := Restore a in
      let bound := mk_session (SessionState_ locked) (SessionExpires locked) (Requirements locked) (Region locked) (CreatedFor locked)
                     (Some (SubjectID a, ID a, ANoticeID a)) in
      let db := with_sessions db (<[VerificationID a := bound]> (sessions db)) in
      let? db := insertAuthorityAudit db a "declare" (ActorID a) in
      let? db := insertEvent db eventID (ID a) (Version a) "authority.declared.v1" (CreatedAt a) in
      let? _ := emitted db (VerificationID a) emits in
      let? r := reference 201 "authority_id" (ID a) in
      Ok (restored, r, CreatedAt a, db)
  end.

Definition DeclareAuthority (t : Tables Database) (a : Authority) (delegated eventID : string) (request : Request) (locked emits : bool) (c : Commit)
  : result Error Authority * Tables Database :=
  if empty_string tenant || negb (String.eqb (TenantID a) tenant) || empty_string eventID || negb (String.eqb (tenant_of request) tenant) ||
     negb (String.eqb (principal_of request) (ActorID a)) then (Err ErrConflict, t)
  else transact ErrQuery t c (command lift locked request replay_authority (declare_body a delegated eventID emits) t).

Definition ReplayAuthority (t : Tables Database) (request : Request) : result Error (option Authority) :=
  reject empty_string tenant || negb (String.eqb (tenant_of request) tenant) with ErrConflict ;;
  match Replay (records t) request (createdAt request) with
  | Err e => Err (lift e)
  | Ok None => Ok None
  | Ok (Some r) => let? a := replay_authority r (domain t) in Ok (Some a)
  end.

(** The session must be bound to the authority; the fence that follows changes
    nothing. *)
Definition lockAuthoritySession (db : Database) (verification authority : string) : result Error unit :=
  match sessions db !! verification with
  | None => Err ErrNotFound
  | Some s =>
      match Binding s with
      | Some (_, bound, _) => reject negb (String.eqb bound authority) with ErrProcessingNotPermitted ;; Ok tt
      | None => Err ErrProcessingNotPermitted
      end
  end.

Definition transitionAction (state : State) : string :=
  match state with
  | StateRestricted => "restrict" | StateWithdrawn => "withdraw" | StateSuperseded => "supersede" | StateActive => "active" | StateOther raw => raw
  end.

Definition transition_body (a : Authority) (expectedVersion : Z) (actor eventID : string) (action : State) (emits : bool) (db : Database)
  : result Error (Authority * Result * Time * Database) :=
  let? _ := lockAuthoritySession db (VerificationID a) (ID a) in
  match authorities db !! ID a with
  | None => Err ErrVersionConflict
  | Some row =>
      reject negb (Version row =? expectedVersion) || negb (authority_state_is (State_ row) StateActive) with ErrVersionConflict ;;
      let updated := with_state row (State_ a) (Version a) (UpdatedAt a) (RestrictedAt a) (WithdrawnAt a) (SupersededAt a) in
      let? restored := Restore updated in
      let db := with_authorities db (<[ID a := updated]> (authorities db)) in
      let? db := insertAuthorityAudit db a (transitionAction action) actor in
      let? db := insertEvent db eventID (ID a) (Version a) ("authority." +:+ transitionAction action +:+ ".v1") (UpdatedAt a) in
      let? _ := emitted db (VerificationID a) emits in
      let? r := reference 200 "authority_id" (ID a) in
      Ok (restored, r, UpdatedAt a, db)
  end.

Definition Transition (t : Tables Database) (a : Authority) (expectedVersion : Z) (actor eventID : string) (action : State) (request : Request)
    (locked emits : bool) (c : Commit) : result Error Authority * Tables Database :=
  if empty_string tenant || negb (String.eqb (TenantID a) tenant) || (expectedVersion <? 1) || empty_string eventID || empty_string actor ||
     negb (String.eqb (tenant_of request) tenant) || negb (String.eqb (principal_of request) actor) then (Err ErrConflict, t)
  else transact ErrQuery t c (command lift locked request replay_authority (transition_body a expectedVersion actor eventID action emits) t).

(** *** Responses *)

Definition find_response (db : Database) (identifier : string) : option Response :=
  List.find (fun r => String.eqb (ResponseID r) identifier) (responses db).
Definition replay_response (r : Result) (db : Database) : result Error Response :=
  let? identifier := referred "response_id" r in
  match find_response db identifier with None => Err ErrQuery | Some row => NewResponse row end.
Definition latest_response (db : Database) (authority : string) : option Response :=
  newest (fun r => (RecordedAt r, ResponseID r)) (List.filter (fun r => String.eqb (RAuthorityID r) authority) (responses db)).
Definition latest_recovery (db : Database) (verification : string) : option string :=
  option_map NewToken (newest (fun r => (RecoveredAt r, NewToken r)) (List.filter (fun r => String.eqb (RecoveredVerification r) verification) (recoveries db))).

(** The rows of [CreateSubjectResponse] are unique by identifier. *)
Definition create_response (db : Database) (r : Response) : result Error Database :=
  reject match find_response db (ResponseID r) with Some _ => true | None => false end with ErrQuery ;;
  Ok (with_responses db (responses db ++ [r])).

Definition token_permits (token : TokenRow) (recorded now : Time) : bool :=
  bool_decide (RevokedAt token = None) && negb (after (IssuedAt token) now) && after (TokenExpires token) now && negb (before recorded (IssuedAt token)) &&
  before recorded (TokenExpires token).

Definition append_body (r : Response) (eventID : string) (now : Time) (emits : bool) (db : Database) : result Error (Response * Result * Time * Database) :=
  let? _ := lockAuthoritySession db (RVerificationID r) (RAuthorityID r) in
  match tokens db !! CaptureTokenID r with
  | None => Err ErrProcessingNotPermitted
  | Some token =>
      reject negb (String.eqb (TokenVerification token) (RVerificationID r)) with ErrProcessingNotPermitted ;;
      reject negb (token_permits token (RecordedAt r) (utc now)) with ErrProcessingNotPermitted ;;
      match authorities db !! RAuthorityID r with
      | None => Err ErrNotFound
      | Some row =>
          let? state := Restore row in
          reject negb (authority_state_is (State_ state) StateActive) || negb (String.eqb (RNoticeID r) (ANoticeID state)) ||
                 negb (String.eqb (RSubjectID r) (SubjectID state)) || negb (String.eqb (RVerificationID r) (VerificationID state)) ||
                 before (RecordedAt r) (ValidFrom state) || negb (before (RecordedAt r) (ExpiresAt state)) with ErrProcessingNotPermitted ;;
          let? db := create_response db r in
          let? restored := NewResponse r in
          let? db := insertEvent db eventID (ResponseID r) 1 "authority.subject_response_recorded.v1" (RecordedAt r) in
          let? _ := emitted db (RVerificationID r) emits in
          let? result := reference 201 "response_id" (ResponseID r) in
          Ok (restored, result, RecordedAt r, db)
      end
  end.

Definition AppendResponse (t : Tables Database) (r : Response) (eventID : string) (request : Request) (now : Time) (locked emits : bool) (c : Commit)
  : result Error Response * Tables Database :=
  if empty_string tenant || negb (String.eqb (RTenantID r) tenant) || empty_string eventID || negb (String.eqb (tenant_of request) tenant) ||
     negb (String.eqb (principal_of request) (CaptureTokenID r)) then (Err ErrConflict, t)
  else transact ErrQuery t c (command lift locked request replay_response (append_body r eventID now emits) t).

(** The four reads of [CaptureSnapshot] see four snapshots of the tables: the
    transaction is read committed. *)
Record Snapshot := mk_snapshot { SnapshotAuthority : Authority; SnapshotNotice : Notice; SnapshotResponse : option Response }.

Definition snapshot_response (db : Database) (a : Authority) : result Error (option Response) :=
  match latest_response db (ID a) with
  | None => Ok None
  | Some row => let? response := NewResponse row in Ok (Some response)
  end.
Definition snapshot_token (db : Database) (verification : string) (r : Response) : option Response :=
  match latest_recovery db verification with
  | Some token => if String.eqb token (CaptureTokenID r) then Some r else None
  | None => Some r
  end.

Definition FindResponse (db : Database) (identifier : string) : result Error Response :=
  reject empty_string tenant || empty_string identifier with ErrNotFound ;;
  match find_response db identifier with None => Err ErrNotFound | Some row => NewResponse row end.

(** The session is not locked: [latest] may be the answer of an older snapshot. *)
Definition revoke_body (original : string) (r : Response) (eventID : string) (latest : option Response) (emits : bool) (db : Database)
  : result Error (Response * Result * Time * Database) :=
  match find_response db original with
  | None => Err ErrNotFound
  | Some row =>
      let? o := NewResponse row in
      reject negb (action_is (Action o) ResponseConsent) || negb (String.eqb (RAuthorityID r) (RAuthorityID o)) ||
             negb (String.eqb (RNoticeID r) (RNoticeID o)) || negb (String.eqb (RSubjectID r) (RSubjectID o)) ||
             negb (String.eqb (RVerificationID r) (RVerificationID o)) || negb (String.eqb (CaptureTokenID r) (CaptureTokenID o)) ||
             before (RecordedAt r) (RecordedAt o) with ErrConflict ;;
      match latest with
      | None => Err ErrQuery
      | Some latestRow =>
          let? latest := NewResponse latestRow in
          reject action_is (Action latest) ResponseRefuse with ErrConflict ;;
          let? db := create_response db r in
          let? restored := NewResponse r in
          let? db := insertEvent db eventID (ResponseID r) 1 "authority.subject_response_recorded.v1" (RecordedAt r) in
          let? _ := emitted db (RVerificationID r) emits in
          let? result := reference 201 "response_id" (ResponseID r) in
          Ok (restored, result, RecordedAt r, db)
      end
  end.

Definition RevokeConsent (t : Tables Database) (original : string) (r : Response) (actor eventID : string) (request : Request) (latest : option Response) (locked emits : bool) (c : Commit)
  : result Error Response * Tables Database :=
  if empty_string tenant || empty_string original || empty_string actor || empty_string eventID || negb (action_is (Action r) ResponseRefuse) ||
     negb (String.eqb (tenant_of request) tenant) || negb (String.eqb (principal_of request) actor) then (Err ErrConflict, t)
  else transact ErrQuery t c (command lift locked request replay_response (revoke_body original r eventID latest emits) t).
End Store.
End AuthorityStore.

(** ** Use cases *)
Module AuthorityService.
Import AuthorityStore.

Record NoticeInput := mk_notice_input {
  InKey : string; InLocale : string; InController : string; InRecipient : string; InCopy : NoticeCopy; InEffectiveAt : Time }.
Record DeclarationInput := mk_declaration_input {
  InVerification : string; InNotice : string; InCategory : string; InPurpose : string; InJurisdiction : string; InPolicyPack : string;
  InIsConsentRequired : bool; InRecipientReference : string; InRecipientDisplayName : string; InRegions : list string; InRetentionReference : string;
  InValidFrom : Time; InExpiresAt : Time }.
Record ResponseInput := mk_response_input { InAction : ResponseAction; InResponseLocale : string; InExperience : string }.

(** An authenticated caller: whether it has the permission of the use case, and its
    key; and a capture principal. *)
Record Access := mk_access { permitted : bool; KeyID : string }.
Record CaptureContext := mk_capture { CaptureVerification : string; CaptureToken : string }.

Record ReadAuthorization := mk_read_authorization {
  AuthTenant : string; AuthSubject : string; AuthVerification : string; AuthEvidence : string; AuthRequirementKey : string; AuthPurpose : string;
  AuthEvidenceType : string; AuthRecipient : string; AuthRegion : string }.

(** What a reader of evidence asks, for its grant and its asset. *)
Definition read_request (tenant : string) (g : Evidence.Grant) (a : Evidence.Record_) : ReadAuthorization :=
  mk_read_authorization tenant (Evidence.SubjectID a) (Evidence.VerificationID a) (Evidence.ID a) (Evidence.RequirementKey a) (Evidence.Purpose g)
    (Evidence.EvidenceType a) (Evidence.RecipientReference g) (Evidence.Region a).

(** [json.Marshal] of the commands. *)
Class CommandJson := {
  marshal_notice_input : NoticeInput -> option string;
  marshal_declaration : DeclarationInput -> option string;
  marshal_managed : DeclarationInput -> string -> option string;
  marshal_transition : string -> Z -> string -> option string;
  marshal_response : ResponseInput -> option string;
  marshal_revocation : string -> string -> option string;
}.

Inductive Op :=
| OpCreateNotice (a : Access) (key : string) (input : NoticeInput)
| OpFindNotice (a : Access) (identifier : string)
| OpDeclare (a : Access) (key : string) (input : DeclarationInput)
| OpDeclareManaged (principal : Lifecycle.SessionPrincipal) (delegated key : string) (input : DeclarationInput)
| OpFindByVerification (a : Access) (verification : string)
| OpTransition (a : Access) (verification key : string) (expected : Z) (state : State)
| OpCaptureSnapshot (c : CaptureContext)
| OpRespond (c : CaptureContext) (key : string) (input : ResponseInput)
| OpFindConsent (a : Access) (identifier : string)
| OpRevokeConsent (a : Access) (identifier key reason : string)
| OpAuthorizeEvidence (request : ReadAuthorization).

Record Input := mk_input {
  crash : bool;
  op : Op;
  clock : Time;
  store_clock : Time;
  fresh : option string;
  fresh_subject : option string;
  fresh_event : option string;
  locked : bool;
  emits : bool;
  commit : Commit;
  (** The answer of the restriction gate; without a gate nothing is blocked. *)
  blocked : result Error bool;
}.
Definition now (i : Input) : Time := truncate (utc (clock i)) second.

Record Declaring := mk_declaring { d_principal : Lifecycle.SessionPrincipal; d_delegated : string; d_request : Request; d_now : Time; d_input : DeclarationInput }.

(** What a snapshot is taken for. *)
Inductive SnapshotUse :=
| UseCapture (c : CaptureContext)
| UseRespond (c : CaptureContext) (key : string) (input : ResponseInput)
| UseAuthorize (request : ReadAuthorization).
Definition use_verification (u : SnapshotUse) : string :=
  match u with UseCapture c | UseRespond c _ _ => CaptureVerification c | UseAuthorize request => AuthVerification request end.

Inductive Answer :=
| AnswerNotice (r : result Error Notice)
| AnswerAuthority (r : result Error Authority)
| AnswerResponse (r : result Error Response)
| AnswerSnapshot (r : result Error Snapshot)
| AnswerDecision (request : ReadAuthorization) (at_ : Time) (r : result Error EvidenceReader.AuthorizationDecision).

Inductive Local :=
| Idle
| DeclareSession (d : Declaring)
| DeclareNotice (d : Declaring) (purposes types : list string)
| DeclareWrite (d : Declaring) (a : Authority) (eventID : string)
| TransitionFind (a : Access) (verification : string) (expected : Z) (state : State) (request : Request) (at_ : Time)
| TransitionWrite (a : Access) (current : Authority) (expected : Z) (state : State) (request : Request) (eventID : string)
| AuthorizeSession (request : ReadAuthorization)
| SnapshotStart (u : SnapshotUse)
| SnapshotNoticeRead (u : SnapshotUse) (a : Authority)
| SnapshotResponseRead (u : SnapshotUse) (a : Authority) (n : Notice)
| SnapshotTokenRead (u : SnapshotUse) (a : Authority) (n : Notice) (r : Response)
| RespondWrite (r : Response) (request : Request) (eventID : string)
| RevokeLatest (actor original : string) (r : Response) (request : Request) (eventID : string)
| RevokeWrite (actor original : string) (r : Response) (request : Request) (eventID : string) (latest : option Response)
| Returned (answer : Answer).

Section Service.
Context (tenant : string) `{Ident.Ulid} `{AuthorityLibraries} `{ReferenceJson} `{CommandJson} (retention : Z).

Definition build_request (principal operation key : string) (canonical : option string) (at_ : Time) : result Error Request :=
  match canonical with
  | None => Err ErrQuery
  | Some canonical => match NewRequest tenant principal operation key canonical at_ retention with Ok r => Ok r | Err _ => Err ErrInvalid end
  end.
(** A generated identifier. *)
Definition generated (identifier : option string) : result Error string :=
  match identifier with Some x => Ok x | None => Err ErrQuery end.
Definition require (a : Access) : result Error unit := reject negb (permitted a) with ErrDenied ;; Ok tt.

(** *** Notices *)

Definition create_notice_use (a : Access) (key : string) (input : NoticeInput) (i : Input) : result Error (Notice * string * Request) :=
  let? _ := require a in
  let? identifier := generated (fresh i) in
  let? eventID := generated (fresh_event i) in
  let? notice := NewNotice (mk_notice identifier tenant (InKey input) (InLocale input) (InController input) (InRecipient input) (InCopy input)
    (InEffectiveAt input) (now i) (KeyID a) "") in
  let? request := build_request (KeyID a) "notices.create" key (marshal_notice_input input) (now i) in
  Ok (notice, eventID, request).

(** *** Declarations *)

Definition declare_request (principal : Lifecycle.SessionPrincipal) (delegated key : string) (input : DeclarationInput) (i : Input) : result Error Declaring :=
  reject negb principal.2 && negb (is_ok (Ident.ParseAPIKey principal.1)) with ErrProcessingNotPermitted ;;
  let? request := build_request principal.1 "authorities.declare" key
    (if principal.2 then marshal_managed input delegated else marshal_declaration input) (now i) in
  Ok (mk_declaring principal delegated request (now i) input).

Definition managed (principal : Lifecycle.SessionPrincipal) (delegated : string) : bool :=
  negb (empty_string tenant) && principal.2 && String.prefix "usr_" delegated && (slen delegated <=? 128).

(** The command of a caller, then the replay that precedes everything else. *)
Definition declare_start (command : result Error Declaring) (t : Tables Database) : Local :=
  match (let? d := command in let? replay := ReplayAuthority tenant t (d_request d) in Ok (d, replay)) with
  | Err e => Returned (AnswerAuthority (Err e))
  | Ok (_, Some a) => Returned (AnswerAuthority (Ok a))
  | Ok (d, None) => DeclareSession d
  end.

Definition AcceptsCaptureAt (s : SessionRow) (at_ : Time) : bool :=
  Lifecycle.state_is (SessionState_ s) Lifecycle.SessionStateCollecting && before (utc at_) (SessionExpires s).

Definition declare_session (d : Declaring) (db : Database) : Local :=
  match sessions db !! InVerification (d_input d) with
  | None => Returned (AnswerAuthority (Err ErrNotFound))
  | Some s =>
      if negb (AcceptsCaptureAt s (d_now d)) || after (InExpiresAt (d_input d)) (SessionExpires s) then Returned (AnswerAuthority (Err ErrConflict))
      else
        let '(purposes, types) := requirement_scope (Requirements s) in
        if existsb (String.eqb (InPurpose (d_input d))) purposes then DeclareNotice d purposes types else Returned (AnswerAuthority (Err ErrConflict))
  end.

Definition declared (d : Declaring) (purposes types : list string) (notice : Notice) (identifier subject : string) : Authority :=
  let input := d_input d in
  mk_authority identifier tenant subject (InVerification input) (NoticeID notice) (InCategory input) (InPurpose input) (InJurisdiction input)
    (InPolicyPack input) (InIsConsentRequired input) purposes types (InRecipientReference input) (InRecipientDisplayName input) (InRegions input)
    (InRetentionReference input) StateActive 0 (InValidFrom input) (InExpiresAt input) (d_now d) zero_time
    (if (d_principal d).2 then "" else (d_principal d).1) (if (d_principal d).2 then (d_principal d).1 else "") None None None.

Definition declare_notice (d : Declaring) (purposes types : list string) (i : Input) (db : Database) : result Error (Authority * string) :=
  let? notice := FindNotice tenant db (InNotice (d_input d)) in
  reject before (InValidFrom (d_input d)) (EffectiveAt notice) || negb (String.eqb (InRecipientDisplayName (d_input d)) (Recipient notice)) with ErrConflict ;;
  let? identifier := generated (fresh i) in
  let? subject := generated (fresh_subject i) in
  let? eventID := generated (fresh_event i) in
  let? a := New (declared d purposes types notice identifier subject) in
  Ok (a, eventID).

(** *** Transitions *)

Definition state_label (state : State) : string :=
  match state with
  | StateActive => "active" | StateRestricted => "restricted" | StateWithdrawn => "withdrawn" | StateSuperseded => "superseded" | StateOther raw => raw
  end.

Definition transition_start (a : Access) (verification key : string) (expected : Z) (state : State) (i : Input) (t : Tables Database) : Local :=
  match (let? _ := require a in
         reject expected <? 1 with ErrConflict ;;
         let? request := build_request (KeyID a) ("authorities." +:+ state_label state) key (marshal_transition verification expected (state_label state)) (now i) in
         let? replay := ReplayAuthority tenant t request in
         Ok (request, replay)) with
  | Err e => Returned (AnswerAuthority (Err e))
  | Ok (_, Some x) => Returned (AnswerAuthority (Ok x))
  | Ok (request, None) => TransitionFind a verification expected state request (now i)
  end.

Definition apply_transition (current : Authority) (state : State) (at_ : Time) : result Error Authority :=
  match state with
  | StateRestricted => Restrict current at_
  | StateWithdrawn => Withdraw current at_
  | StateSuperseded => Supersede current at_
  | _ => Err ErrConflict
  end.

Definition transition_found (verification : string) (expected : Z) (state : State) (at_ : Time) (i : Input) (db : Database) : result Error (Authority * string) :=
  let? current := FindByVerification tenant db verification in
  reject negb (Version current =? expected) with ErrVersionConflict ;;
  let? next := apply_transition current state at_ in
  let? eventID := generated (fresh_event i) in
  Ok (next, eventID).

(** *** Responses *)

Definition respond_built (c : CaptureContext) (key : string) (input : ResponseInput) (s : Snapshot) (i : Input) : result Error (Response * Request * string) :=
  reject negb (String.eqb (InResponseLocale input) (Locale (SnapshotNotice s))) with ErrProcessingNotPermitted ;;
  let? identifier := generated (fresh i) in
  let? eventID := generated (fresh_event i) in
  let a := SnapshotAuthority s in
  let? response := NewResponse (mk_response identifier (TenantID a) (ID a) (ANoticeID a) (SubjectID a) (VerificationID a) (CaptureToken c) (InAction input)
    (InResponseLocale input) (InExperience input) (now i)) in
  let? request := build_request (CaptureToken c) "authorities.respond" key (marshal_response input) (now i) in
  Ok (response, request, eventID).

Definition revocation_of (o : Response) (identifier : string) (at_ : Time) : Response :=
  mk_response identifier (RTenantID o) (RAuthorityID o) (RNoticeID o) (RSubjectID o) (RVerificationID o) (CaptureTokenID o) ResponseRefuse (RLocale o)
    (RenderedExperienceVersion o) at_.

Definition revoke_start (a : Access) (identifier key reason : string) (i : Input) (db : Database) : result Error (Response * Request * string) :=
  let? _ := require a in
  reject empty_string reason || (500 <? slen reason) || negb (trimmed (runes reason)) with ErrProcessingNotPermitted ;;
  match FindResponse tenant db identifier with
  | Err _ => Err ErrNotFound
  | Ok original =>
      reject negb (action_is (Action original) ResponseConsent) with ErrNotFound ;;
      let? responseID := generated (fresh i) in
      let? eventID := generated (fresh_event i) in
      let? revocation := NewResponse (revocation_of original responseID (now i)) in
      let? request := build_request (KeyID a) "consents.revoke" key (marshal_revocation identifier reason) (now i) in
      Ok (revocation, request, eventID)
  end.

(** *** Authorisation *)

Definition authorize_start (request : ReadAuthorization) (i : Input) : Local :=
  let deny e := Returned (AnswerDecision request (clock i) (Err e)) in
  if empty_string tenant || negb (String.eqb (AuthTenant request) tenant) || empty_string (AuthSubject request) || empty_string (AuthVerification request) ||
     empty_string (AuthEvidence request) then deny ErrProcessingNotPermitted
  else
    match blocked i with
    | Err e => deny e
    | Ok true => deny ErrProcessingNotPermitted
    | Ok false => AuthorizeSession request
    end.

Definition requirement_matched (request : ReadAuthorization) (requirements : list Requirement) : bool :=
  existsb (fun r => String.eqb (RequirementKey r) (AuthRequirementKey request) && String.eqb (RequirementPurpose r) (AuthPurpose request) &&
                    String.eqb (RequirementType r) (AuthEvidenceType request)) requirements.

Definition authorize_session (request : ReadAuthorization) (i : Input) (db : Database) : Local :=
  match sessions db !! AuthVerification request with
  | Some s => if requirement_matched request (Requirements s) then SnapshotStart (UseAuthorize request)
              else Returned (AnswerDecision request (clock i) (Err ErrProcessingNotPermitted))
  | None => Returned (AnswerDecision request (clock i) (Err ErrProcessingNotPermitted))
  end.

Definition grant_request (request : ReadAuthorization) : GrantRequest :=
  mk_grant_request (AuthTenant request) (AuthVerification request) (AuthSubject request) (AuthPurpose request) (AuthEvidenceType request)
    (AuthRecipient request) (AuthRegion request).

Definition authorize_decide (request : ReadAuthorization) (s : Snapshot) (at_ : Time) : result Error EvidenceReader.AuthorizationDecision :=
  let? _ := Evaluate (SnapshotAuthority s) (SnapshotNotice s) (SnapshotResponse s) (grant_request request) at_ in
  match SnapshotResponse s with
  | None => Err ErrSubjectResponseRequired
  | Some r => Ok (EvidenceReader.mk_decision (ID (SnapshotAuthority s)) (ResponseID r) (PolicyPack (SnapshotAuthority s)))
  end.

(** The capture principal only sees its own response. *)
Definition own_response (c : CaptureContext) (s : Snapshot) : Snapshot :=
  match SnapshotResponse s with
  | Some r => if String.eqb (CaptureTokenID r) (CaptureToken c) then s else mk_snapshot (SnapshotAuthority s) (SnapshotNotice s) None
  | None => s
  end.

Definition snapshot_used (u : SnapshotUse) (answer : result Error Snapshot) (i : Input) : Local :=
  match u with
  | UseCapture c => Returned (AnswerSnapshot (let? s := answer in Ok (own_response c s)))
  | UseRespond c key input =>
      match (let? s := answer in respond_built c key input (own_response c s) i) with
      | Err e => Returned (AnswerResponse (Err e))
      | Ok (r, request, eventID) => RespondWrite r request eventID
      end
  | UseAuthorize request => Returned (AnswerDecision request (clock i) (let? s := answer in authorize_decide request s (clock i)))
  end.

(** *** One step of a worker *)

Definition start (i : Input) (t : Tables Database) : Local * Tables Database :=
  match op i with
  | OpCreateNotice a key input =>
      match create_notice_use a key input i with
      | Err e => (Returned (AnswerNotice (Err e)), t)
      | Ok (notice, eventID, request) =>
          let '(answer, t') := CreateNotice tenant t notice eventID request (locked i) (commit i) in (Returned (AnswerNotice answer), t')
      end
  | OpFindNotice a identifier => (Returned (AnswerNotice (let? _ := require a in FindNotice tenant (domain t) identifier)), t)
  | OpDeclare a key input =>
      (declare_start (let? _ := require a in declare_request (Lifecycle.APIKeySessionPrincipal (KeyID a)) "" key input i) t, t)
  | OpDeclareManaged principal delegated key input =>
      (declare_start (reject negb (managed principal delegated) with ErrProcessingNotPermitted ;; declare_request principal delegated key input i) t, t)
  | OpFindByVerification a verification => (Returned (AnswerAuthority (let? _ := require a in FindByVerification tenant (domain t) verification)), t)
  | OpTransition a verification key expected state => (transition_start a verification key expected state i t, t)
  | OpCaptureSnapshot c => (SnapshotStart (UseCapture c), t)
  | OpRespond c key input => (SnapshotStart (UseRespond c key input), t)
  | OpFindConsent a identifier => (Returned (AnswerResponse (let? _ := require a in FindResponse tenant (domain t) identifier)), t)
  | OpRevokeConsent a identifier key reason =>
      match revoke_start a identifier key reason i (domain t) with
      | Err e => (Returned (AnswerResponse (Err e)), t)
      | Ok (r, request, eventID) => (RevokeLatest (KeyID a) identifier r request eventID, t)
      end
  | OpAuthorizeEvidence request => (authorize_start request i, t)
  end.

(** The reads of a snapshot. *)
Definition read_step (l : Local) (i : Input) (db : Database) : Local :=
  match l with
  | SnapshotStart u =>
      match FindByVerification tenant db (use_verification u) with Err e => snapshot_used u (Err e) i | Ok a => SnapshotNoticeRead u a end
  | SnapshotNoticeRead u a => match find_notice db (ANoticeID a) with Err e => snapshot_used u (Err e) i | Ok n => SnapshotResponseRead u a n end
  | SnapshotResponseRead u a n =>
      match snapshot_response db a with
      | Err e => snapshot_used u (Err e) i
      | Ok None => snapshot_used u (Ok (mk_snapshot a n None)) i
      | Ok (Some r) => SnapshotTokenRead u a n r
      end
  | SnapshotTokenRead u a n r => snapshot_used u (Ok (mk_snapshot a n (snapshot_token db (use_verification u) r))) i
  | _ => l
  end.

Definition work (l : Local) (i : Input) (t : Tables Database) : Local * Tables Database :=
  if crash i then (Idle, t)
  else
    match l with
    | Idle => start i t
    | DeclareSession d => (declare_session d (domain t), t)
    | DeclareNotice d purposes types =>
        (match declare_notice d purposes types i (domain t) with
         | Err e => Returned (AnswerAuthority (Err e))
         | Ok (a, eventID) => DeclareWrite d a eventID
         end, t)
    | DeclareWrite d a eventID =>
        let '(answer, t') := DeclareAuthority tenant t a (d_delegated d) eventID (d_request d) (locked i) (emits i) (commit i) in (Returned (AnswerAuthority answer), t')
    | TransitionFind a verification expected state request at_ =>
        (match transition_found verification expected state at_ i (domain t) with
         | Err e => Returned (AnswerAuthority (Err e))
         | Ok (next, eventID) => TransitionWrite a next expected state request eventID
         end, t)
    | TransitionWrite a next expected state request eventID =>
        let '(answer, t') := Transition tenant t next expected (KeyID a) eventID state request (locked i) (emits i) (commit i) in
        (Returned (AnswerAuthority answer), t')
    | AuthorizeSession request => (authorize_session request i (domain t), t)
    | SnapshotStart _ | SnapshotNoticeRead _ _ | SnapshotResponseRead _ _ _ | SnapshotTokenRead _ _ _ _ => (read_step l i (domain t), t)
    | RespondWrite r request eventID =>
        let '(answer, t') := AppendResponse tenant t r eventID request (store_clock i) (locked i) (emits i) (commit i) in (Returned (AnswerResponse answer), t')
    | RevokeLatest actor original r request eventID =>
        (RevokeWrite actor original r request eventID (latest_response (domain t) (RAuthorityID r)), t)
    | RevokeWrite actor original r request eventID latest =>
        let '(answer, t') := RevokeConsent tenant t original r actor eventID request latest (locked i) (emits i) (commit i) in
        (Returned (AnswerResponse answer), t')
    | Returned _ => (Idle, t)
    end.

(** *** Any number of workers, and the writers of the other tables *)

Record World := mk_world { shared : Tables Database; workers : list Local }.
Definition database (w : World) : Database := domain (shared w).
Definition with_database (w : World) (db : Database) : World := mk_world (mk_tables db (records (shared w))) (workers w).

(** The terms of a session never change, and only a declaration binds it. *)
Definition session_kept (old : option SessionRow) (s : SessionRow) : Prop :=
  match old with
  | None => Binding s = None
  | Some o => Binding s = Binding o /\ Requirements s = Requirements o /\ CreatedFor s = CreatedFor o /\ Region s = Region o
  end.

Inductive world_step (w : World) : World -> Prop :=
| world_work k l i l' t' : workers w !! k = Some l -> work l i (shared w) = (l', t') -> world_step w (mk_world t' (<[k := l']> (workers w)))
| world_session v s : session_kept (sessions (database w) !! v) s ->
    world_step w (with_database w (with_sessions (database w) (<[v := s]> (sessions (database w)))))
| world_tokens ts : world_step w (with_database w (with_tokens (database w) ts))
| world_recovery x : world_step w (with_database w (with_recoveries (database w) (recoveries (database w) ++ [x]))).

(** A tenant without authorities. *)
Definition start_world (n : nat) : World := mk_world (mk_tables (mk_database ∅ ∅ ∅ ∅ [] ∅ [] [] []) ∅) (repeat Idle n).

(** An execution, the latest world first. *)
Inductive execution : list World -> Prop :=
| execution_start n : execution [start_world n]
| execution_step w w' ws : execution (w :: ws) -> world_step w w' -> execution (w' :: w :: ws).

(** [P] held at an instant of the call worker [k] is serving or has just returned from. *)
Definition busy (w : World) (k : nat) : Prop := exists l, workers w !! k = Some l /\ l <> Idle.
Inductive within (k : nat) (P : World -> Prop) : list World -> Prop :=
| within_now w ws : busy w k -> P w -> within k P (w :: ws)
| within_before w ws : busy w k -> within k P ws -> within k P (w :: ws).
End Service.
End AuthorityService.
