(* ===== verification/AuthoritySafety.v ===== *)
(** * What the processing-authority service guarantees

    Over every interleaving of the workers of [AuthorityService]: the shape of the
    tables, how declarations and responses evolve, what a permitted operation on
    evidence rested on, and a revocation that goes unnoticed. *)

From S2P Require Import Prelude GoTime Ident Content Lifecycle Evidence Idempotency Authority AuthorityService.
From Stdlib Require Import Ascii.
Import AuthorityStore AuthorityService AuthoritySpec.

(** ** The latest of a list *)

Lemma later_irrefl a : later a a = false.
Proof.
  unfold later. rewrite Z.ltb_irrefl, Z.eqb_refl. cbn. apply negb_false_iff. pose proof (reflexivity (R := String.le) a.2) as Hr.
  unfold String.le in Hr. by apply Is_true_true in Hr.
Qed.

Lemma later_spec a b : later a b = true <-> instant b.1 < instant a.1 \/ (instant a.1 = instant b.1 /\ ~ String.le a.2 b.2).
Proof. unfold later. rewrite orb_true_iff, andb_true_iff, Z.ltb_lt, Z.eqb_eq, negb_true_iff, <- not_true_iff_false, leb_le. done. Qed.

Lemma later_trans a b c : later a b = true -> later b c = true -> later a c = true.
Proof.
  rewrite !later_spec. intros [H1|[E1 H1]] [H2|[E2 H2]]; try (left; lia). right. split; [lia|]. intros Hac.
  destruct (total String.le b.2 c.2) as [Hbc|Hcb]; [done|]. apply H1. by etrans.
Qed.

(** Two that are not later than each other have the same identifier. *)
Lemma later_total a b : later a b = false -> later b a = false -> a.2 = b.2.
Proof.
  rewrite <- !not_true_iff_false, !later_spec. intros H1 H2. assert (instant a.1 = instant b.1) by (destruct (Z.lt_trichotomy (instant a.1) (instant b.1)) as [?|[?|?]]; [exfalso; apply H2; by left|done|exfalso; apply H1; by left]).
  apply (anti_symm String.le); apply dec_stable; intros Hn; [apply H1|apply H2]; by right.
Qed.

Section Newest.
Context {A : Type} (key : A -> Time * string).

Definition is_newest (l : list A) (x : A) : Prop := x ∈ l /\ forall y, y ∈ l -> later (key y) (key x) = false.

Definition pick (best : option A) (x : A) : option A :=
  match best with None => Some x | Some y => if later (key x) (key y) then Some x else best end.

Lemma pick_some l : forall y, exists x, fold_left pick l (Some y) = Some x /\ (x = y \/ x ∈ l) /\ later (key y) (key x) = false /\
  forall z, z ∈ l -> later (key z) (key x) = false.
Proof.
  induction l as [|x l IH]; intros y; cbn [fold_left]; [exists y; split_and!; [done|by left|apply later_irrefl|by intros z Hz%elem_of_nil]|].
  cbn [pick]. destruct (later (key x) (key y)) eqn:Hl.
  - destruct (IH x) as (w & -> & Hw & Hxw & Hall). exists w. split_and!; [done|set_solver| |].
    + apply not_true_iff_false. intros Hy. apply not_true_iff_false in Hxw. apply Hxw. by eapply later_trans.
    + intros z [->|Hz]%elem_of_cons; [done|by apply Hall].
  - destruct (IH y) as (w & -> & Hw & Hyw & Hall). exists w. split_and!; [done|set_solver|done|].
    intros z [->|Hz]%elem_of_cons; [|by apply Hall]. apply not_true_iff_false. intros Hx. apply not_true_iff_false in Hl.
    destruct (later (key y) (key w)) eqn:Hyw'; [done|]. destruct (later (key w) (key y)) eqn:Hwy.
    + apply Hl. by eapply later_trans.
    + apply Hl. pose proof (later_total _ _ Hyw' Hwy) as He. rewrite later_spec in Hx |- *. rewrite <- not_true_iff_false, later_spec in Hyw', Hwy.
      rewrite He. assert (instant (key y).1 = instant (key w).1) as ->; [|done].
      destruct (Z.lt_trichotomy (instant (key y).1) (instant (key w).1)) as [?|[?|?]]; [exfalso; apply Hwy; by left|done|exfalso; apply Hyw'; by left].
Qed.

Lemma newest_spec l x : newest key l = Some x -> is_newest l x.
Proof.
  unfold newest. change (fold_left pick l None = Some x -> is_newest l x). destruct l as [|y l]; cbn [fold_left pick]; [done|].
  destruct (pick_some l y) as (w & -> & Hw & Hy & Hall). intros [= <-]. split; [set_solver|]. intros z [->|Hz]%elem_of_cons; [done|by apply Hall].
Qed.

Lemma newest_none l : newest key l = None -> l = [].
Proof. unfold newest. change (fold_left pick l None = None -> l = []). destruct l as [|y l]; [done|]. cbn. destruct (pick_some l y) as (w & -> & _). done. Qed.

Lemma newest_unique l x : is_newest l x -> (forall y, y ∈ l -> (key y).2 = (key x).2 -> y = x) -> newest key l = Some x.
Proof.
  intros [Hx Hall] Hinj. destruct (newest key l) as [y|] eqn:Hn.
  - apply newest_spec in Hn as [Hy Hyall]. f_equal. apply Hinj; [done|]. apply later_total; [by apply Hall|by apply Hyall].
  - apply newest_none in Hn as ->. by apply elem_of_nil in Hx.
Qed.
End Newest.

(** ** Tables *)

Definition bound_to (db : Database) (a : Authority) : Prop :=
  exists s, sessions db !! VerificationID a = Some s /\ Binding s = Some (SubjectID a, ID a, ANoticeID a).
Definition authority_row (db : Database) (k : string) (a : Authority) : Prop :=
  ID a = k /\ Restore a = Ok a /\ Version a = (if authority_state_is (State_ a) StateActive then 1 else 2) /\ bound_to db a /\
  exists n, notices db !! ANoticeID a = Some n.
Definition response_row (db : Database) (r : Response) : Prop :=
  exists a, authorities db !! RAuthorityID r = Some a /\ RNoticeID r = ANoticeID a /\ RSubjectID r = SubjectID a /\ RVerificationID r = VerificationID a.

Record db_ok (db : Database) : Prop := mk_db_ok {
  authority_rows k a : authorities db !! k = Some a -> authority_row db k a;
  bindings v s x : sessions db !! v = Some s -> Binding s = Some x -> exists a, authorities db !! x.1.2 = Some a /\ VerificationID a = v;
  response_rows : Forall (response_row db) (responses db);
  response_ids : NoDup (map ResponseID (responses db));
}.

(** A declaration is final but for one transition. *)
Definition authority_step (a a' : Authority) : Prop :=
  a' = a \/ (State_ a = StateActive /\ State_ a' <> StateActive /\
             exists state version updated restricted withdrawn superseded, a' = with_state a state version updated restricted withdrawn superseded).

Record grows (db db' : Database) : Prop := mk_grows {
  authorities_grow k a : authorities db !! k = Some a -> exists a', authorities db' !! k = Some a' /\ authority_step a a';
  sessions_grow v s : sessions db !! v = Some s -> exists s', sessions db' !! v = Some s' /\ Requirements s' = Requirements s /\
    forall x, Binding s = Some x -> Binding s' = Some x;
  notices_grow : notices db ⊆ notices db';
  responses_grow : responses db `prefix_of` responses db';
}.

(** A step appends at most one response, and only to an active declaration unless
    it is a refusal. *)
Definition appends (db db' : Database) : Prop :=
  responses db' = responses db \/
  exists r, responses db' = responses db ++ [r] /\ authorities db' = authorities db /\
    (Action r <> ResponseRefuse -> exists a, authorities db !! RAuthorityID r = Some a /\ State_ a = StateActive).
Definition change (db db' : Database) : Prop := db_ok db -> db_ok db' /\ grows db db' /\ appends db db'.

#[export] Instance authority_step_preorder : PreOrder authority_step.
Proof.
  split; [by left|]. intros a b c [->|(H1 & H2 & s & v & u & r & w & p & ->)]; [done|]. intros [->|(H3 & _)]; [|done]. right. split_and!; [done..|]. by eexists _, _, _, _, _, _.
Qed.
#[export] Instance grows_preorder : PreOrder grows.
Proof.
  split.
  - intros db. split; [by intros k a Ha; exists a|by intros v s Hs; exists s|done|done].
  - intros a b c [A1 B1 N1 R1] [A2 B2 N2 R2]. split; [| |by etrans|by etrans].
    + intros k x (y & Hy & H1)%A1. apply A2 in Hy as (z & Hz & H2). exists z. split; [done|by etrans].
    + intros v s (s' & Hs' & R & Hx')%B1. destruct (B2 _ _ Hs') as (t & Ht & R' & Hx). exists t. split_and!; [done|congruence|eauto].
Qed.

Lemma bindings_grow db db' v s x : grows db db' -> sessions db !! v = Some s -> Binding s = Some x -> exists s', sessions db' !! v = Some s' /\ Binding s' = Some x.
Proof. intros Hg Hs Hx. destruct (sessions_grow _ _ Hg _ _ Hs) as (s' & Hs' & _ & Hb). exists s'. eauto. Qed.

Lemma authority_step_active a a' : authority_step a a' -> State_ a' = StateActive -> a' = a.
Proof. intros [->|(_ & H & _)]; done. Qed.
Lemma authority_step_terms a a' : authority_step a a' -> VerificationID a' = VerificationID a /\ SubjectID a' = SubjectID a /\ ANoticeID a' = ANoticeID a /\ ID a' = ID a.
Proof. by intros [->|(_ & _ & ? & ? & ? & ? & ? & ? & ->)]. Qed.

(** What the rows of other tables can do to the invariant. *)
Lemma grows_bound db db' a a' : bound_to db a -> grows db db' -> authority_step a a' -> bound_to db' a'.
Proof.
  intros (s & Hs & Hx) Hg Ha. destruct (authority_step_terms _ _ Ha) as (V & S & N & I). destruct (bindings_grow _ _ _ _ _ Hg Hs Hx) as (s' & Hs' & Hx').
  exists s'. by rewrite V, S, N, I.
Qed.
Lemma grows_response db db' r : response_row db r -> grows db db' -> response_row db' r.
Proof.
  intros (a & Ha & H1 & H2 & H3) Hg. destruct (authorities_grow _ _ Hg _ _ Ha) as (a' & Ha' & Hs). destruct (authority_step_terms _ _ Hs) as (V & S & N & _).
  exists a'. by rewrite V, S, N.
Qed.
Lemma grows_responses db db' : Forall (response_row db) (responses db) -> grows db db' -> Forall (response_row db') (responses db).
Proof. intros Hf Hg. eapply Forall_impl; [exact Hf|]. intros r Hr. by eapply grows_response. Qed.

Lemma grows_row db db' k a : authority_row db k a -> grows db db' -> authority_row db' k a.
Proof.
  intros (H1 & H2 & Hv & H3 & n & Hn) Hg. split_and!; [done|done|done|by eapply grows_bound|]. exists n. eapply lookup_weaken; [exact Hn|apply (notices_grow _ _ Hg)].
Qed.

(** Tables that only differ where the invariant does not look. *)
Lemma same_ok db db' : authorities db' = authorities db -> sessions db' = sessions db -> notices db ⊆ notices db' -> responses db' = responses db ->
  change db db'.
Proof.
  intros Ha Hs Hn Hr Hok.
  assert (Hg : grows db db') by (split; rewrite ?Ha, ?Hs, ?Hr; [by intros k a ?; exists a|by intros v s ?; exists s|done|done]).
  split_and!; [|done|by left]. destruct Hok as [A B R I]. split; rewrite ?Ha, ?Hs, ?Hr; [|done|by eapply grows_responses|done].
  intros k a Hk. eapply grows_row; [by apply A|done].
Qed.

(** One row is enough to know the declaration of a verification. *)
Lemma one_authority db k k' a a' : db_ok db -> authorities db !! k = Some a -> authorities db !! k' = Some a' -> VerificationID a = VerificationID a' -> k = k' /\ a = a'.
Proof.
  intros [A _ _ _] Ha Ha' Hv. destruct (A _ _ Ha) as (<- & _ & _ & (s & Hs & Hx) & _). destruct (A _ _ Ha') as (<- & _ & _ & (s' & Hs' & Hx') & _).
  rewrite Hv in Hs. assert (s' = s) as -> by congruence. rewrite Hx in Hx'. injection Hx' as _ He _. rewrite He in *. split; [done|congruence].
Qed.

Lemma by_verification_spec db v a : by_verification db v = Some a -> exists k, authorities db !! k = Some a /\ VerificationID a = v.
Proof.
  unfold by_verification. destruct (List.find _ _) as [[k x]|] eqn:Hf; [|done]. intros [= <-]. apply List.find_some in Hf as [Hin He]. cbn in *.
  apply String.eqb_eq in He. exists k. split; [|done]. apply elem_of_map_to_list. by apply list_elem_of_In.
Qed.
Lemma by_verification_none db v k a : by_verification db v = None -> authorities db !! k = Some a -> VerificationID a <> v.
Proof.
  unfold by_verification. destruct (List.find _ _) as [p|] eqn:Hf; [done|]. intros _ Ha He. apply elem_of_map_to_list, list_elem_of_In in Ha.
  pose proof (List.find_none _ _ Hf _ Ha) as Hn. cbn in Hn. apply String.eqb_neq in Hn. done.
Qed.
Lemma find_response_spec db k r : find_response db k = Some r -> r ∈ responses db /\ ResponseID r = k.
Proof. unfold find_response. intros [Hin He]%List.find_some. apply String.eqb_eq in He. split; [by apply list_elem_of_In|done]. Qed.
Lemma find_response_none db k r : find_response db k = None -> r ∈ responses db -> ResponseID r <> k.
Proof. unfold find_response. intros Hn Hr%list_elem_of_In He. pose proof (List.find_none _ _ Hn _ Hr) as Hf. cbn in Hf. by apply String.eqb_neq in Hf. Qed.

(** A response of an existing declaration joins the table. *)
Lemma append_ok db db' r : responses db' = responses db ++ [r] -> authorities db' = authorities db -> sessions db' = sessions db -> notices db' = notices db ->
  find_response db (ResponseID r) = None -> response_row db r ->
  (Action r <> ResponseRefuse -> exists a, authorities db !! RAuthorityID r = Some a /\ State_ a = StateActive) -> change db db'.
Proof.
  intros Hr Ha Hs Hn Hf Hrow Hact Hok.
  assert (Hg : grows db db') by (split; rewrite ?Ha, ?Hs, ?Hr, ?Hn; [by intros k a ?; exists a|by intros v s ?; exists s|done|by apply prefix_app_r]).
  split_and!; [|done|right; by exists r]. destruct Hok as [A B R I]. split; rewrite ?Ha, ?Hs, ?Hr; [|done| |].
  - intros k a Hk. eapply grows_row; [by apply A|done].
  - apply Forall_app. split; [by eapply grows_responses|]. constructor; [by eapply grows_response|done].
  - rewrite map_app. apply NoDup_app. split; [done|]. split; [|by apply NoDup_singleton].
    intros x (y & -> & Hy)%list_elem_of_fmap Hx%list_elem_of_singleton. by apply (find_response_none _ _ _ Hf Hy).
Qed.

(** ** Transactions *)

Definition untouched (db db' : Database) : Prop :=
  authorities db' = authorities db /\ sessions db' = sessions db /\ notices db' = notices db /\ responses db' = responses db.

Lemma insertEvent_untouched db e g v ty t db' : insertEvent db e g v ty t = Ok db' -> untouched db db'.
Proof. unfold insertEvent. intros Hi. by go_inv Hi. Qed.
Lemma insertAuthorityAudit_untouched db a x y db' : insertAuthorityAudit db a x y = Ok db' -> untouched db db'.
Proof. unfold insertAuthorityAudit. intros Hi. by go_inv Hi. Qed.
Lemma untouched_trans db1 db2 db3 : untouched db1 db2 -> untouched db2 db3 -> untouched db1 db3.
Proof. intros (A & S & N & R) (A' & S' & N' & R'). unfold untouched. by rewrite A', S', N', R'. Qed.

(** [change] only looks at those tables. *)
Lemma change_untouched db db1 db2 : change db db1 -> untouched db1 db2 -> change db db2.
Proof.
  intros Hc (A & S & N & R) Hok. destruct (Hc Hok) as (Hok1 & Hg & Ha).
  destruct (same_ok db1 db2 A S ltac:(by rewrite N) R Hok1) as (Hok2 & Hg2 & _). split_and!; [done|by etrans|].
  unfold appends in *. by rewrite R, A.
Qed.

Section Transactions.
Context (tenant : string) `{AuthorityLibraries} `{ReferenceJson}.

(** A served command changes the domain as its body does. *)
Lemma served_change {A} locked request replayed body (t : Tables Database) c (answer : result Error A) t' :
  transact ErrQuery t c (command lift locked request replayed body t) = (answer, t') ->
  (forall a r at_ d, body (domain t) = Ok (a, r, at_, d) -> change (domain t) d) -> change (domain t) (domain t').
Proof. intros [->|(a & r & at_ & d & Hb & <-)]%served_cases Hbody; [by apply same_ok|by eapply Hbody]. Qed.

Lemma create_notice_change n e db a r at_ db' : create_notice n e db = Ok (a, r, at_, db') -> change db db'.
Proof.
  unfold create_notice. intros Hc. go_inv Hc. destruct (notices db !! NoticeID n) eqn:Hn; [done|].
  eapply change_untouched; [|by eapply insertEvent_untouched]. apply same_ok; [done|done| |done]. cbn. by apply insert_subseteq.
Qed.

Definition fresh_declaration (a : Authority) : Prop := Restore a = Ok a /\ State_ a = StateActive /\ Version a = 1.

(** A new declaration binds its session and is the only one of its verification. *)
Lemma declare_tables_ok db db' a s s' :
  fresh_declaration a -> sessions db !! VerificationID a = Some s -> Binding s = None -> authorities db !! ID a = None ->
  (exists n, notices db !! ANoticeID a = Some n) ->
  authorities db' = <[ID a := a]> (authorities db) -> sessions db' = <[VerificationID a := s']> (sessions db) ->
  Binding s' = Some (SubjectID a, ID a, ANoticeID a) -> Requirements s' = Requirements s -> notices db' = notices db -> responses db' = responses db ->
  change db db'.
Proof.
  intros (Hr & Hst & Hv) Hs Hnone Hk [n Hn] Ea Es Hb Hreq En Er Hok.
  assert (Hg : grows db db').
  { split; rewrite ?Ea, ?Es, ?En, ?Er; [| |done|done].
    - intros k x Hx. exists x. split; [|done]. by rewrite lookup_insert_ne by congruence.
    - intros v s0 E1. destruct (decide (v = VerificationID a)) as [->|Hne]; [|exists s0; by rewrite lookup_insert_ne by done].
      exists s'. rewrite lookup_insert_eq. assert (s0 = s) as -> by congruence. split_and!; [done|done|congruence]. }
  split_and!; [|done|by left]. destruct Hok as [A B R I]. split; rewrite ?Ea, ?Es, ?Er; [| |by eapply grows_responses|done].
  - intros k x [[<- <-]|[Hne Hx]]%lookup_insert_Some; [|eapply grows_row; [by apply A|done]].
    split_and!; [done|done|by rewrite Hst|exists s'; by rewrite Es, lookup_insert_eq|exists n; by rewrite En].
  - intros v s0 x [[<- <-]|[Hne Hx]]%lookup_insert_Some Hbx.
    + rewrite Hb in Hbx. injection Hbx as <-. exists a. cbn. by rewrite lookup_insert_eq.
    + destruct (B _ _ _ Hx Hbx) as (y & Hy & Hyv). exists y. split; [|done]. by rewrite lookup_insert_ne by congruence.
Qed.

Lemma declare_body_change a delegated e emits db x r at_ db' : fresh_declaration a ->
  declare_body a delegated e emits db = Ok (x, r, at_, db') -> change db db'.
Proof.
  intros Hf Hc. unfold declare_body in Hc. destruct (sessions db !! VerificationID a) as [s|] eqn:Hs; [|done]. go_inv Hc.
  destruct (Binding s) eqn:Hb; [done|]. destruct (notices db !! ANoticeID a) as [n|] eqn:Hn; [|done].
  cbn [authorities with_subjects] in *. destruct (authorities db !! ID a) eqn:Ha; [done|].
  eapply change_untouched; [eapply change_untouched|by eapply insertEvent_untouched]; [|by eapply insertAuthorityAudit_untouched].
  eapply (declare_tables_ok db _ a s); eauto.
Qed.

(** The part of a declaration that a transition brings. *)
Definition transitioned_to (a : Authority) (expected : Z) (state : State) : Prop :=
  State_ a = state /\ state <> StateActive /\ Version a = wrap_int64 (expected + 1) /\ utc (UpdatedAt a) = UpdatedAt a.

Lemma restore_updated row a a' : Restore row = Ok row -> utc (UpdatedAt a) = UpdatedAt a ->
  let updated := with_state row (State_ a) (Version a) (UpdatedAt a) (RestrictedAt a) (WithdrawnAt a) (SupersededAt a) in
  Restore updated = Ok a' -> Restore updated = Ok updated.
Proof.
  intros Hr Hu updated Hup. pose proof (restore_canonical _ _ Hup) as ->. pose proof (restore_canonical _ _ Hr) as Hc.
  assert (He : canonical updated = updated); [|by rewrite <- He at 2].
  unfold updated. rewrite Hc. unfold canonical, with_state, with_scope. cbn -[canonicalSet]. by rewrite !canonicalSet_idem, Hu.
Qed.

Lemma transition_tables_ok db db' k row row' :
  authorities db !! k = Some row -> authority_step row row' -> Restore row' = Ok row' ->
  Version row' = (if authority_state_is (State_ row') StateActive then 1 else 2) ->
  authorities db' = <[k := row']> (authorities db) -> sessions db' = sessions db -> notices db' = notices db -> responses db' = responses db -> change db db'.
Proof.
  intros Hk Hs Hr Hv Ea Es En Er Hok.
  assert (Hg : grows db db').
  { split; rewrite ?Ea, ?Es, ?En, ?Er; [|by intros v s0 ?; exists s0|done|done].
    intros j x Hx. destruct (decide (j = k)) as [->|Hne]; [|exists x; by rewrite lookup_insert_ne by done].
    rewrite lookup_insert_eq. exists row'. split; [done|]. by assert (x = row) as -> by congruence. }
  split_and!; [|done|by left]. destruct (authority_step_terms _ _ Hs) as (V & S & N & I). destruct Hok as [A B R Id]. split; rewrite ?Ea, ?Es, ?Er; [| |by eapply grows_responses|done].
  - intros j x [[<- <-]|[Hne Hx]]%lookup_insert_Some; [|eapply grows_row; [by apply A|done]].
    destruct (A _ _ Hk) as (HI & _ & _ & Hb & n & Hn). split_and!; [congruence|done|done|by eapply grows_bound|]. exists n. by rewrite En, N.
  - intros v s0 x E1 E2. destruct (B _ _ _ E1 E2) as (y & Hy & Hyv). destruct (decide (x.1.2 = k)) as [He|Hne].
    + rewrite He in *. exists row'. rewrite lookup_insert_eq. split; [done|]. rewrite V. by assert (y = row) as -> by congruence.
    + exists y. split; [|done]. by rewrite (lookup_insert_ne _ _ _ _ (not_eq_sym Hne)).
Qed.

Lemma transition_body_change a expected actor e action emits db x r at_ db' : transitioned_to a expected action ->
  transition_body a expected actor e action emits db = Ok (x, r, at_, db') -> change db db'.
Proof.
  intros (Hst & Hna & Hv & Hu) Hc Hok0. revert Hok0. unfold transition_body in Hc. go_inv Hc. destruct (authorities db !! ID a) as [row|] eqn:Hrow; [|done]. cbv zeta in Hc. go_inv Hc.
  intros Hok. pose proof (authority_rows _ Hok _ _ Hrow) as (_ & Hfix & Hver & _). unfold authority_state_is in *. bprop. simplify_eq.
  revert Hok. change (change db db'). eapply change_untouched; [eapply change_untouched|by eapply insertEvent_untouched]; [|by eapply insertAuthorityAudit_untouched].
  rewrite bool_decide_eq_true_2 in Hver by done.
  eapply transition_tables_ok; [exact Hrow| |eapply restore_updated; eassumption| |reflexivity..].
  - right. split_and!; [done|done|]. by eexists _, _, _, _, _, _.
  - cbn. unfold authority_state_is. rewrite bool_decide_eq_false_2 by done. rewrite Hv, Hver. reflexivity.
Qed.

Lemma create_response_Ok db r db' : create_response db r = Ok db' -> find_response db (ResponseID r) = None /\ db' = with_responses db (responses db ++ [r]).
Proof. unfold create_response. intros Hc. go_inv Hc. by destruct (find_response db (ResponseID r)). Qed.

Lemma created_change db r db1 db' : create_response db r = Ok db1 -> untouched db1 db' -> response_row db r ->
  (Action r <> ResponseRefuse -> exists a, authorities db !! RAuthorityID r = Some a /\ State_ a = StateActive) -> change db db'.
Proof.
  intros (Hf & ->)%create_response_Ok Hu Hr Ha. eapply change_untouched; [|exact Hu]. by eapply append_ok.
Qed.

Lemma append_body_change r e at_ emits db x rr t db' : append_body r e at_ emits db = Ok (x, rr, t, db') -> change db db'.
Proof.
  intros Hc Hok0. revert Hok0. unfold append_body in Hc. go_inv Hc. destruct (tokens db !! CaptureTokenID r) as [token|]; [|done]. go_inv Hc.
  destruct (authorities db !! RAuthorityID r) as [row|] eqn:Hrow; [|done]. go_inv Hc. intros Hok. pose proof (authority_rows _ Hok _ _ Hrow) as (HI & Hfix & _).
  rewrite Hv0 in Hfix. injection Hfix as ->. unfold authority_state_is in *. bprop. revert Hok. change (change db db').
  eapply created_change; [done|by eapply insertEvent_untouched| |].
  - exists row. by split_and!.
  - intros _. by exists row.
Qed.

Lemma NewResponse_fields r r' : NewResponse r = Ok r' -> r' = mk_response (ResponseID r) (RTenantID r) (RAuthorityID r) (RNoticeID r) (RSubjectID r) (RVerificationID r)
  (CaptureTokenID r) (Action r) (RLocale r) (RenderedExperienceVersion r) (utc (RecordedAt r)).
Proof. unfold NewResponse. cbv zeta. intros Hn. by go_inv Hn. Qed.

Lemma revoke_body_change original r e latest emits db x rr t db' : Action r = ResponseRefuse ->
  revoke_body original r e latest emits db = Ok (x, rr, t, db') -> change db db'.
Proof.
  intros Href Hc Hok0. revert Hok0. unfold revoke_body in Hc. destruct (find_response db original) as [row|] eqn:Hrow; [|done]. go_inv Hc.
  destruct latest as [latest|]; [|done]. go_inv Hc. apply NewResponse_fields in Hv as ->. cbn in *. bprop.
  apply find_response_spec in Hrow as [Hin _]. intros Hok. pose proof (response_rows _ Hok) as Hrows. rewrite Forall_forall in Hrows.
  destruct (Hrows _ Hin) as (a & Ha & H2' & H3' & H4'). revert Hok. change (change db db').
  eapply created_change; [done|by eapply insertEvent_untouched| |done]. exists a. by split_and!; congruence.
Qed.

Lemma CreateNotice_change t n e request locked c answer t' : CreateNotice tenant t n e request locked c = (answer, t') -> change (domain t) (domain t').
Proof. unfold CreateNotice. destruct (_ || _ || _ || _ || _); [intros [= _ <-]; by apply same_ok|]. intros Hc. eapply served_change; [done|]. intros. by eapply create_notice_change. Qed.

Lemma DeclareAuthority_change t a delegated e request locked emits c answer t' : fresh_declaration a ->
  DeclareAuthority tenant t a delegated e request locked emits c = (answer, t') -> change (domain t) (domain t').
Proof. intros Hf. unfold DeclareAuthority. destruct (_ || _ || _ || _ || _); [intros [= _ <-]; by apply same_ok|]. intros Hc. eapply served_change; [done|]. intros. by eapply declare_body_change. Qed.

Lemma Transition_change t a expected actor e action request locked emits c answer t' : transitioned_to a expected action ->
  Transition tenant t a expected actor e action request locked emits c = (answer, t') -> change (domain t) (domain t').
Proof. intros Hf. unfold Transition. destruct (_ || _ || _ || _ || _ || _ || _); [intros [= _ <-]; by apply same_ok|]. intros Hc. eapply served_change; [done|]. intros. by eapply transition_body_change. Qed.

Lemma AppendResponse_change t r e request at_ locked emits c answer t' :
  AppendResponse tenant t r e request at_ locked emits c = (answer, t') -> change (domain t) (domain t').
Proof. unfold AppendResponse. destruct (_ || _ || _ || _ || _); [intros [= _ <-]; by apply same_ok|]. intros Hc. eapply served_change; [done|]. intros. by eapply append_body_change. Qed.

Lemma RevokeConsent_change t original r actor e request latest locked emits c answer t' :
  RevokeConsent tenant t original r actor e request latest locked emits c = (answer, t') -> change (domain t) (domain t').
Proof.
  unfold RevokeConsent. destruct (_ || _ || _ || _ || _ || _ || _) eqn:Hg; [intros [= _ <-]; by apply same_ok|]. unfold action_is in Hg. bprop.
  intros Hc. eapply served_change; [done|]. intros. by eapply revoke_body_change.
Qed.
End Transactions.

(** ** Workers *)

Section Workers.
Context (tenant : string) `{Ident.Ulid} `{AuthorityLibraries} `{ReferenceJson} `{CommandJson} (retention : Z).

(** What a worker holds on the way to a write. *)
Definition local_ok (l : Local) : Prop :=
  match l with
  | DeclareWrite _ a _ => fresh_declaration a
  | TransitionWrite _ a expected state _ _ => transitioned_to a expected state
  | _ => True
  end.

Lemma New_fresh a a' : New a = Ok a' -> fresh_declaration a'.
Proof.
  unfold New. intros Hn. pose proof (restore_canonical _ _ Hn) as He. split; [by eapply restore_fixed|]. by rewrite He.
Qed.

Lemma apply_transition_Ok a state at_ a' : apply_transition a state at_ = Ok a' -> transitioned_to a' (Version a) state.
Proof. unfold apply_transition, Restrict, Withdraw, Supersede, transition. destruct state; intros Ht; try done; cbv zeta in Ht; go_inv Ht; by split_and!. Qed.

Lemma snapshot_used_ok u answer i : local_ok (snapshot_used tenant retention u answer i).
Proof. unfold snapshot_used. destruct u; [done| |done]. by destruct (rbind _ _) as [[[? ?] ?]|]. Qed.

Lemma authority_start_ok i t l t' : start tenant retention i t = (l, t') -> local_ok l /\ change (domain t) (domain t').
Proof.
  assert (Hsame : change (domain t) (domain t)) by (by apply same_ok).
  unfold start. destruct (op i).
  - destruct (create_notice_use _ _ _ _ _ _) as [[[n e] request]|]; [|by intros [= <- <-]]. destruct (CreateNotice _ _ _ _ _ _ _) as [x t1] eqn:Hc.
    intros [= <- <-]. split; [done|by eapply CreateNotice_change].
  - by intros [= <- <-].
  - unfold declare_start. destruct (rbind _ _) as [[d [x|]]|]; by intros [= <- <-].
  - unfold declare_start. destruct (rbind _ _) as [[d [x|]]|]; by intros [= <- <-].
  - by intros [= <- <-].
  - unfold transition_start. destruct (rbind _ _) as [[d [x|]]|]; by intros [= <- <-].
  - by intros [= <- <-].
  - by intros [= <- <-].
  - by intros [= <- <-].
  - destruct (revoke_start _ _ _ _ _ _ _ _) as [[[r request] e]|]; by intros [= <- <-].
  - unfold authorize_start. destruct (_ || _); [by intros [= <- <-]|]. destruct (blocked i) as [[]|]; by intros [= <- <-].
Qed.

Lemma read_step_ok l i db : local_ok l -> local_ok (read_step tenant retention l i db).
Proof.
  intros Hl. destruct l; try done; cbn [read_step].
  - destruct (FindByVerification _ _ _); [done|apply snapshot_used_ok].
  - destruct (find_notice _ _); [done|apply snapshot_used_ok].
  - destruct (snapshot_response _ _) as [[r|]|]; [done|apply snapshot_used_ok..].
  - apply snapshot_used_ok.
Qed.

Lemma work_changes l i t l' t' : work tenant retention l i t = (l', t') -> local_ok l -> local_ok l' /\ change (domain t) (domain t').
Proof.
  assert (Hsame : change (domain t) (domain t)) by (by apply same_ok).
  unfold work. destruct (crash i); [by intros [= <- <-]|]. intros Hw Hl. destruct l; cbn [local_ok] in Hl.
  - by eapply authority_start_ok.
  - injection Hw as <- <-. unfold declare_session. destruct (sessions _ !! _); [|done]. destruct (_ || _); [done|]. destruct (requirement_scope _). by destruct (existsb _ _).
  - destruct (declare_notice _ _ _ _ _ _) as [[a e]|] eqn:Hd; injection Hw as <- <-; [|done]. split; [|done].
    unfold declare_notice in Hd. go_inv Hd. by eapply New_fresh.
  - destruct (DeclareAuthority _ _ _ _ _ _ _ _ _) as [x t1] eqn:Hd. injection Hw as <- <-. split; [done|by eapply DeclareAuthority_change].
  - destruct (transition_found _ _ _ _ _ _ _) as [[a0 e]|] eqn:Hd; injection Hw as <- <-; [|done]. split; [|done].
    unfold transition_found in Hd. go_inv Hd. bprop. match goal with E : Version _ = _ |- _ => rewrite <- E end. by eapply apply_transition_Ok.
  - destruct (Transition _ _ _ _ _ _ _ _ _ _ _) as [x t1] eqn:Hd. injection Hw as <- <-. split; [done|by eapply Transition_change].
  - injection Hw as <- <-. unfold authorize_session. destruct (sessions _ !! _); [|done]. by destruct (requirement_matched _ _).
  - injection Hw as <- <-. split; [|done]. by apply (read_step_ok (SnapshotStart u)).
  - injection Hw as <- <-. split; [|done]. by apply (read_step_ok (SnapshotNoticeRead u a)).
  - injection Hw as <- <-. split; [|done]. by apply (read_step_ok (SnapshotResponseRead u a n)).
  - injection Hw as <- <-. split; [|done]. by apply (read_step_ok (SnapshotTokenRead u a n r)).
  - destruct (AppendResponse _ _ _ _ _ _ _ _ _) as [x t1] eqn:Hd. injection Hw as <- <-. split; [done|by eapply AppendResponse_change].
  - by injection Hw as <- <-.
  - destruct (RevokeConsent _ _ _ _ _ _ _ _ _ _ _) as [x t1] eqn:Hd. injection Hw as <- <-. split; [done|by eapply RevokeConsent_change].
  - by injection Hw as <- <-.
Qed.

(** ** Executions *)

Abbreviation wstep := (world_step tenant retention).
Abbreviation execution := (execution tenant retention).

Record world_ok (w : World) : Prop := mk_world_ok { tables_ok : db_ok (database w); locals_ok : Forall local_ok (workers w) }.

Lemma session_change db v s : session_kept (sessions db !! v) s -> change db (with_sessions db (<[v := s]> (sessions db))).
Proof.
  intros Hk Hok.
  assert (Hg : grows db (with_sessions db (<[v := s]> (sessions db)))).
  { split; [by intros k a ?; exists a| |done|done]. intros v0 s0 E1. cbn. destruct (decide (v0 = v)) as [->|Hne]; [|exists s0; by rewrite lookup_insert_ne by done].
    exists s. rewrite lookup_insert_eq. rewrite E1 in Hk. destruct Hk as (Hb & Hr & _). split_and!; [done|done|]. by rewrite Hb. }
  split_and!; [|done|by left]. destruct Hok as [A B R I]. split; [| |by eapply (grows_responses db)|done].
  - intros k a Ha. eapply grows_row; [by apply A|done].
  - intros v0 s0 x. cbn. intros [[<- <-]|[Hne Hs]]%lookup_insert_Some Hx; [|by eapply B]. unfold session_kept in Hk.
    destruct (sessions db !! v) as [o|] eqn:Ho; [|congruence]. destruct Hk as (Hb & _). rewrite Hb in Hx. by eapply B.
Qed.

Lemma step_changes w w' : wstep w w' -> Forall local_ok (workers w) -> Forall local_ok (workers w') /\ change (database w) (database w').
Proof.
  intros [k l i l' t' Hl Hw|v s Hk|ts|x] Hf.
  - rewrite Forall_lookup in Hf. destruct (work_changes _ _ _ _ _ Hw (Hf _ _ Hl)) as [Hl' Hc]. split; [|done].
    cbn. apply Forall_insert; [by apply Forall_lookup|done].
  - split; [done|]. by apply session_change.
  - split; [done|]. by apply same_ok.
  - split; [done|]. by apply same_ok.
Qed.

Lemma start_world_good n : world_ok (start_world n).
Proof.
  split; [split|cbn; apply Forall_forall; by intros l ->%list_elem_of_In%repeat_spec]; cbn; [by intros k a Ha|by intros v s x Hs|done|constructor].
Qed.

Lemma execution_ok ws : execution ws -> match ws with [] => True | w :: _ => world_ok w end.
Proof.
  induction 1 as [n|w w' ws He [IH1 IH2] Hs]; [apply start_world_good|]. destruct (step_changes _ _ Hs IH2) as [Hl Hc]. split; [|done]. by apply Hc.
Qed.

Lemma execution_grows w w' ws : execution (w' :: w :: ws) -> world_ok w /\ grows (database w) (database w') /\ appends (database w) (database w').
Proof.
  intros He. inversion He as [|? ? ? Hw Hs]; subst. pose proof (execution_ok _ Hw) as Hok. destruct (step_changes _ _ Hs (locals_ok _ Hok)) as [_ Hc].
  destruct (Hc (tables_ok _ Hok)) as (_ & Hg & Ha). done.
Qed.

Lemma execution_tail w w' ws : execution (w' :: w :: ws) -> execution (w :: ws).
Proof. by inversion 1. Qed.

(** *** Instants of a call *)

Lemma within_impl k (P Q : World -> Prop) ws : within k P ws -> (forall w, P w -> Q w) -> within k Q ws.
Proof. induction 1; intros Hpq; [apply within_now; auto|apply within_before; auto]. Qed.

(** The instant lies in the past of the last world. *)
Lemma within_strong k P ws : within k P ws -> execution ws -> forall db, match ws with [] => True | w :: _ => grows (database w) db end ->
  within k (fun m => P m /\ world_ok m /\ grows (database m) db) ws.
Proof.
  induction 1 as [w ws Hb Hp|w ws Hb Hw IH]; intros He db Hg; [apply within_now; [done|]; split_and!; [done|by apply (execution_ok _ He)|done]|].
  apply within_before; [done|]. destruct ws as [|w0 ws]; [by inversion Hw|]. destruct (execution_grows _ _ _ He) as (_ & Hg' & _).
  apply IH; [by eapply execution_tail|by etrans].
Qed.

Lemma within_some k P ws : within k P ws -> exists m, P m.
Proof. induction 1; eauto. Qed.

Lemma within_past k P w ws : within k P (w :: ws) -> execution (w :: ws) -> exists m, P m /\ world_ok m /\ grows (database m) (database w).
Proof. intros Hw He. by eapply within_some, (within_strong _ _ _ Hw He (database w)). Qed.

(** *** The latest response *)

Definition response_key (r : Response) : Time * string := (RecordedAt r, ResponseID r).
Definition of_authority (k : string) (l : list Response) : list Response := List.filter (fun r => String.eqb (RAuthorityID r) k) l.

Lemma elem_of_authority k l r : r ∈ of_authority k l <-> r ∈ l /\ RAuthorityID r = k.
Proof. unfold of_authority. rewrite !list_elem_of_In, List.filter_In, String.eqb_eq. done. Qed.

Lemma latest_spec db k r : latest_response db k = Some r -> is_newest response_key (of_authority k (responses db)) r.
Proof. apply newest_spec. Qed.

Lemma latest_of_prefix db db' k r : NoDup (map ResponseID (responses db)) -> responses db `prefix_of` responses db' -> latest_response db' k = Some r -> r ∈ responses db ->
  latest_response db k = Some r.
Proof.
  intros Hn [ext Hext] [Hin Hall]%latest_spec Hr. apply elem_of_authority in Hin as [_ Hk]. apply newest_unique.
  - split; [by apply elem_of_authority|]. intros y [Hy Hyk]%elem_of_authority. apply Hall, elem_of_authority. split; [|done]. rewrite Hext. set_solver.
  - intros y [Hy _]%elem_of_authority He. cbn in He. apply list_elem_of_lookup in Hy as [i Hi], Hr as [j Hj].
    assert (i = j) as ->; [|congruence]. eapply (NoDup_lookup _ _ _ _ Hn); rewrite list_lookup_fmap; [rewrite Hi|rewrite Hj]; cbn; [done|by rewrite He].
Qed.

(** A response that is the latest after the declaration was seen active was the
    latest at an instant when the declaration was active. *)
Lemma linearize k ida a r ws :
  within k (fun m => authorities (database m) !! ida = Some a) ws -> execution ws -> State_ a = StateActive -> Action r <> ResponseRefuse ->
  match ws with [] => True | w :: _ => latest_response (database w) ida = Some r end ->
  within k (fun m => authorities (database m) !! ida = Some a /\ latest_response (database m) ida = Some r) ws.
Proof.
  induction 1 as [w ws Hb Hp|w ws Hb Hw IH]; intros He Hact Href Hlat; [by apply within_now|].
  destruct ws as [|w0 ws]; [by inversion Hw|]. destruct (execution_grows _ _ _ He) as (Hok & Hg & Happ). pose proof (execution_tail _ _ _ He) as He0.
  destruct (within_past _ _ _ _ Hw He0) as (m & Hm & _ & Hgm). destruct (authorities_grow _ _ Hgm _ _ Hm) as (a0 & Ha0 & Hstep).
  destruct (decide (r ∈ responses (database w0))) as [Hin|Hnew].
  { apply within_before; [done|]. apply IH; [done|done|done|]. eapply latest_of_prefix; [apply (tables_ok _ Hok)|apply (responses_grow _ _ Hg)|done|done]. }
  pose proof (latest_spec _ _ _ Hlat) as [[Hr Hrk]%elem_of_authority _]. destruct Happ as [Hsame|(x & Hx & Ha & Hpermit)]; [by rewrite Hsame in Hr|].
  rewrite Hx in Hr. apply elem_of_app in Hr as [Hr| ->%list_elem_of_singleton]; [done|]. destruct (Hpermit Href) as (a1 & Ha1 & Hst).
  rewrite Hrk, Ha0 in Ha1. injection Ha1 as <-. pose proof (authority_step_active _ _ Hstep Hst) as ->.
  apply within_now; [done|]. by rewrite Ha.
Qed.

(** *** What an authorisation has read *)

Definition use_ok (db : Database) (u : SnapshotUse) : Prop :=
  match u with
  | UseAuthorize request => exists s, sessions db !! AuthVerification request = Some s /\ requirement_matched request (Requirements s) = true
  | _ => True
  end.
Definition declared_in (a : Authority) (m : World) : Prop := authorities (database m) !! ID a = Some a.
Definition latest_in (a : Authority) (r : Response) (m : World) : Prop := latest_response (database m) (ID a) = Some r.

(** Everything a permitted operation rests on. *)
Definition permitted_at (request : ReadAuthorization) (at_ : Time) (d : EvidenceReader.AuthorizationDecision) (m : World) : Prop :=
  exists a s row n r,
    authorities (database m) !! EvidenceReader.DAuthorityID d = Some a /\ ID a = EvidenceReader.DAuthorityID d /\
    sessions (database m) !! AuthVerification request = Some s /\ Binding s = Some (AuthSubject request, ID a, ANoticeID a) /\
    requirement_matched request (Requirements s) = true /\
    notices (database m) !! ANoticeID a = Some row /\ RestoreNotice row = Ok n /\
    latest_response (database m) (ID a) = Some r /\ ResponseID r = EvidenceReader.DResponseID d /\
    PolicyPack a = EvidenceReader.DPolicyReference d /\ in_scope a n (grant_request request) at_ /\ response_for a r /\ sufficient a (Action r).
Definition recovered_at (request : ReadAuthorization) (d : EvidenceReader.AuthorizationDecision) (m : World) : Prop :=
  forall t, latest_recovery (database m) (AuthVerification request) = Some t ->
    exists r, r ∈ responses (database m) /\ ResponseID r = EvidenceReader.DResponseID d /\ CaptureTokenID r = t.

Definition authority_seen (k : nat) (u : SnapshotUse) (a : Authority) (w : World) (ws : list World) : Prop :=
  use_ok (database w) u /\ VerificationID a = use_verification u /\ within k (declared_in a) (w :: ws).
Definition notice_seen (a : Authority) (n : Notice) (w : World) : Prop := exists row, notices (database w) !! ANoticeID a = Some row /\ RestoreNotice row = Ok n.
Definition seen (k : nat) (l : Local) (w : World) (ws : list World) : Prop :=
  match l with
  | SnapshotStart u => use_ok (database w) u
  | SnapshotNoticeRead u a => authority_seen k u a w ws
  | SnapshotResponseRead u a n => authority_seen k u a w ws /\ notice_seen a n w
  | SnapshotTokenRead u a n r => authority_seen k u a w ws /\ notice_seen a n w /\
      exists row, NewResponse row = Ok r /\
        (State_ a = StateActive -> Action row <> ResponseRefuse -> within k (fun m => declared_in a m /\ latest_in a row m) (w :: ws))
  | Returned (AnswerDecision request at_ (Ok d)) => within k (permitted_at request at_ d) (w :: ws) /\ within k (recovered_at request d) (w :: ws)
  | _ => True
  end.

Lemma use_grows db db' u : use_ok db u -> grows db db' -> use_ok db' u.
Proof. destruct u; try done. intros (s & Hs & Hm) Hg. destruct (sessions_grow _ _ Hg _ _ Hs) as (s' & Hs' & Hr & _). exists s'. by rewrite Hr. Qed.
Lemma notice_grows w w' a n : notice_seen a n w -> grows (database w) (database w') -> notice_seen a n w'.
Proof. intros (row & Hr & Hn) Hg. exists row. split; [|done]. eapply lookup_weaken; [exact Hr|apply (notices_grow _ _ Hg)]. Qed.
Lemma authority_seen_grows k u a w w' ws : authority_seen k u a w ws -> grows (database w) (database w') -> busy w' k -> authority_seen k u a w' (w :: ws).
Proof. intros (Hu & Hv & Hw) Hg Hb. split_and!; [by eapply use_grows|done|by apply within_before]. Qed.

(** A worker that did not move. *)
Lemma seen_stays k l w w' ws : seen k l w ws -> grows (database w) (database w') -> workers w' !! k = Some l -> seen k l w' (w :: ws).
Proof.
  intros Hs Hg Hl. assert (Hb : l <> Idle -> busy w' k) by (intros Hn; by exists l).
  destruct l; try done; cbn [seen] in *.
  - by eapply use_grows.
  - apply authority_seen_grows; [done|done|by apply Hb].
  - destruct Hs as [Ha Hn]. split; [|by eapply notice_grows]. apply authority_seen_grows; [done|done|by apply Hb].
  - destruct Hs as (Ha & Hn & row & Hrow & Hw). split_and!; [|by eapply notice_grows|].
    + apply authority_seen_grows; [done|done|by apply Hb].
    + exists row. split; [done|]. intros Hact Href. apply within_before; [by apply Hb|]. by apply Hw.
  - destruct answer as [| | | |request at_ [d|]]; try done. destruct Hs as [H1' H2']. split; (apply within_before; [by apply Hb|done]).
Qed.

Lemma FindByVerification_spec db v a : db_ok db -> FindByVerification tenant db v = Ok a -> authorities db !! ID a = Some a /\ VerificationID a = v.
Proof.
  intros Hok. unfold FindByVerification. intros Hf. go_inv Hf. destruct (by_verification db v) as [row|] eqn:Hrow; [|done].
  apply by_verification_spec in Hrow as (k & Hk & Hv). destruct (authority_rows _ Hok _ _ Hk) as (HI & Hfix & _). rewrite Hfix in Hf. injection Hf as ->. by rewrite HI.
Qed.

(** The decision is what the snapshot says. *)
Lemma authorize_decide_Ok request a n r at_ d : authorize_decide request (mk_snapshot a n r) at_ = Ok d ->
  in_scope a n (grant_request request) at_ /\ exists x, r = Some x /\ response_for a x /\ sufficient a (Action x) /\
  d = EvidenceReader.mk_decision (ID a) (ResponseID x) (PolicyPack a).
Proof.
  unfold authorize_decide. cbn [SnapshotAuthority SnapshotNotice SnapshotResponse]. intros Hd. go_inv Hd. destruct v.
  destruct (Evaluate_scope a n r (grant_request request) at_) as [[Hs He]|[_ He]]; rewrite He in Hv; [|done].
  apply response_part_Ok in Hv as (x & -> & Hf & Hx). go_inv Hd. split; [done|]. by exists x.
Qed.

Lemma permitted_decision k request at_ a n row r w ws d :
  execution (w :: ws) -> authority_seen k (UseAuthorize request) a w ws -> notice_seen a n w -> NewResponse row = Ok r ->
  within k (fun m => declared_in a m /\ latest_in a row m) (w :: ws) ->
  in_scope a n (grant_request request) at_ -> response_for a r -> sufficient a (Action r) ->
  d = EvidenceReader.mk_decision (ID a) (ResponseID r) (PolicyPack a) -> within k (permitted_at request at_ d) (w :: ws).
Proof.
  intros He ((s & Hs & Hmatch) & Hv & _) (nrow & Hn & Hrestore) Hrow Hw Hscope Hresp Hsuff ->.
  eapply within_impl; [by apply (within_strong _ _ _ Hw He (database w))|]. intros m ((Ha & Hl) & Hok & Hg). cbn in Hv.
  destruct (authority_rows _ (tables_ok _ Hok) _ _ Ha) as (_ & _ & _ & (sm & Hsm & Hb) & nm & Hnm). rewrite Hv in Hsm.
  destruct (sessions_grow _ _ Hg _ _ Hsm) as (s' & Hs' & Hreq & _). assert (s' = s) as -> by congruence.
  pose proof (lookup_weaken _ _ _ _ Hnm (notices_grow _ _ Hg)) as Hnm'. assert (nm = nrow) as -> by congruence.
  apply NewResponse_fields in Hrow as ->. unfold response_for in *. cbn in Hresp, Hsuff |- *. assert (Hsub : AuthSubject request = SubjectID a) by apply Hscope.
  exists a, sm, nrow, n, row. split_and!; try done; [by rewrite Hsub|by rewrite <- Hreq|..]; apply Hresp.
Qed.

Lemma snapshot_failed k u e i w ws : seen k (snapshot_used tenant retention u (Err e) i) w ws.
Proof. by destruct u. Qed.

(** Only an authorisation reports a decision. *)
Lemma snapshot_unused k u a n r i w ws :
  (forall request d, u = UseAuthorize request -> authorize_decide request (mk_snapshot a n r) (clock i) = Ok d ->
     within k (permitted_at request (clock i) d) (w :: ws) /\ within k (recovered_at request d) (w :: ws)) ->
  seen k (snapshot_used tenant retention u (Ok (mk_snapshot a n r)) i) w ws.
Proof.
  intros Hd. destruct u as [c|c key input|request]; cbn [snapshot_used rbind]; [done| |].
  - by destruct (respond_built _ _ _ _ _ _ _) as [[[? ?] ?]|].
  - cbn [seen]. destruct (authorize_decide _ _ _) as [d|] eqn:Ha; [|done]. by apply Hd.
Qed.

(** A read of the snapshot keeps what it saw. *)
Lemma read_step_seen k l i w w' ws : execution (w' :: w :: ws) -> database w' = database w -> busy w' k -> l <> Idle ->
  workers w !! k = Some l -> seen k l w ws ->
  match l with SnapshotStart _ | SnapshotNoticeRead _ _ | SnapshotResponseRead _ _ _ | SnapshotTokenRead _ _ _ _ => True | _ => False end ->
  seen k (read_step tenant retention l i (database w)) w' (w :: ws).
Proof.
  intros He Hdb Hbusy Hidle Hl Hs Hread. pose proof (execution_tail _ _ _ He) as He0. pose proof (tables_ok _ (execution_ok _ He0)) as Hok.
  assert (Hb : busy w k) by (by exists l). assert (Hg : grows (database w) (database w')) by (by rewrite Hdb).
  destruct l; try done; cbn [read_step seen] in *.
  - destruct (FindByVerification tenant (database w) (use_verification u)) as [a|e] eqn:Hf; [|apply snapshot_failed].
    apply (FindByVerification_spec _ _ _ Hok) in Hf as [Ha Hv]. split_and!; [by rewrite Hdb|done|]. apply within_now; [done|]. unfold declared_in. by rewrite Hdb.
  - destruct (find_notice (database w) (ANoticeID a)) as [n|e] eqn:Hf; [|apply snapshot_failed]. split; [by apply authority_seen_grows|].
    unfold find_notice in Hf. destruct (notices (database w) !! ANoticeID a) as [row|] eqn:Hrow; [|done]. exists row. by rewrite Hdb.
  - destruct Hs as [Ha Hn]. unfold snapshot_response. destruct (latest_response (database w) (ID a)) as [row|] eqn:Hlat; cbn [rbind].
    + destruct (NewResponse row) as [r|e] eqn:Hr; cbn [rbind]; [|apply snapshot_failed]. split_and!; [by apply authority_seen_grows|by eapply notice_grows|].
      exists row. split; [done|]. intros Hact Href. apply within_before; [done|]. apply (linearize k (ID a) a row (w :: ws)); [by apply Ha|done..].
    + apply snapshot_unused. intros request d -> Hd%authorize_decide_Ok. by destruct Hd as (_ & x & ? & _).
  - destruct Hs as (Ha & Hn & row & Hr & Hw). apply snapshot_unused. intros request d -> Hd%authorize_decide_Ok.
    destruct Hd as (Hscope & x & Hx & Hfor & Hsuff & Hd). cbn [use_verification] in Hx. pose proof (NewResponse_fields _ _ Hr) as Hfields.
    assert (x = r) as ->. { unfold snapshot_token in Hx. destruct (latest_recovery _ _); [destruct (String.eqb _ _)|]; congruence. }
    assert (Hper : within k (fun m => declared_in a m /\ latest_in a row m) (w :: ws)).
    { apply Hw; [by apply Hscope|]. rewrite Hfields in Hsuff. cbn in Hsuff. destruct Hsuff as [->|[_ ->]]; done. }
    split; (apply within_before; [done|]); [by eapply permitted_decision|]. apply within_now; [done|]. intros t Ht.
    destruct (within_past _ _ _ _ Hper He0) as (m & (_ & Hlm) & _ & Hgm). exists row. apply latest_spec in Hlm as [[Hin _]%elem_of_authority _].
    destruct (responses_grow _ _ Hgm) as [ext Hext]. rewrite Hext. split; [set_solver|]. rewrite Hd. cbn. rewrite Hfields. split; [done|]. cbn.
    unfold snapshot_token in Hx. rewrite Ht in Hx. destruct (String.eqb t (CaptureTokenID r)) eqn:Heq; [|done]. bprop. rewrite Heq. by rewrite Hfields.
Qed.

Definition all_seen (w : World) (ws : list World) : Prop := forall k l, workers w !! k = Some l -> seen k l w ws.

Lemma start_seen k i t l t' w ws : start tenant retention i t = (l, t') -> seen k l w ws.
Proof.
  unfold start. destruct (op i).
  - destruct (create_notice_use _ _ _ _ _ _) as [[[n e] request]|]; [|by intros [= <- <-]]. destruct (CreateNotice _ _ _ _ _ _ _). by intros [= <- <-].
  - by intros [= <- <-].
  - unfold declare_start. destruct (rbind _ _) as [[d [x|]]|]; by intros [= <- <-].
  - unfold declare_start. destruct (rbind _ _) as [[d [x|]]|]; by intros [= <- <-].
  - by intros [= <- <-].
  - unfold transition_start. destruct (rbind _ _) as [[d [x|]]|]; by intros [= <- <-].
  - by intros [= <- <-].
  - by intros [= <- <-].
  - by intros [= <- <-].
  - destruct (revoke_start _ _ _ _ _ _ _ _) as [[[r request] e]|]; by intros [= <- <-].
  - unfold authorize_start. destruct (_ || _); [by intros [= <- <-]|]. destruct (blocked i) as [[]|]; by intros [= <- <-].
Qed.

Lemma snapshot_used_busy u answer i : snapshot_used tenant retention u answer i <> Idle.
Proof. destruct u; cbn [snapshot_used]; [done| |done]. by destruct (rbind _ _) as [[[? ?] ?]|]. Qed.

Lemma read_step_busy l i db : l <> Idle -> read_step tenant retention l i db <> Idle.
Proof.
  destruct l; try done; intros _; cbn [read_step].
  - destruct (FindByVerification _ _ _); [done|apply snapshot_used_busy].
  - destruct (find_notice _ _); [done|apply snapshot_used_busy].
  - destruct (snapshot_response _ _) as [[r|]|]; [done|apply snapshot_used_busy..].
  - apply snapshot_used_busy.
Qed.

(** One step of the worker that moves. *)
Lemma work_seen k l i w l' t' ws : execution (mk_world t' (<[k := l']> (workers w)) :: w :: ws) -> workers w !! k = Some l ->
  work tenant retention l i (shared w) = (l', t') -> seen k l w ws -> seen k l' (mk_world t' (<[k := l']> (workers w))) (w :: ws).
Proof.
  intros He Hl Hw Hs.
  assert (Hread : l <> Idle -> (l', t') = (read_step tenant retention l i (database w), shared w) ->
    match l with SnapshotStart _ | SnapshotNoticeRead _ _ | SnapshotResponseRead _ _ _ | SnapshotTokenRead _ _ _ _ => True | _ => False end ->
    seen k l' (mk_world t' (<[k := l']> (workers w))) (w :: ws)).
  { intros Hidle [= -> ->] Hread. eapply read_step_seen; try done. eexists. cbn. rewrite list_lookup_insert_eq by (by eapply lookup_lt_Some).
    split; [done|by apply read_step_busy]. }
  unfold work in Hw. destruct (crash i); [by injection Hw as <- <-|]. destruct l; try (by eapply start_seen); try (by apply Hread; [done|symmetry|]); clear Hread.
  - injection Hw as <- <-. unfold declare_session. destruct (sessions _ !! _); [|done]. destruct (_ || _); [done|]. destruct (requirement_scope _). by destruct (existsb _ _).
  - injection Hw as <- <-. by destruct (declare_notice _ _ _ _ _ _) as [[a e]|].
  - destruct (DeclareAuthority _ _ _ _ _ _ _ _ _). by injection Hw as <- <-.
  - injection Hw as <- <-. by destruct (transition_found _ _ _ _ _ _ _) as [[a0 e]|].
  - destruct (Transition _ _ _ _ _ _ _ _ _ _ _). by injection Hw as <- <-.
  - injection Hw as <- <-. unfold authorize_session. destruct (sessions (domain (shared w)) !! AuthVerification request) as [s|] eqn:Hsess; [|done].
    destruct (requirement_matched _ _) eqn:Hm; [|done]. cbn [seen use_ok]. by exists s.
  - destruct (AppendResponse _ _ _ _ _ _ _ _ _). by injection Hw as <- <-.
  - by injection Hw as <- <-.
  - destruct (RevokeConsent _ _ _ _ _ _ _ _ _ _ _). by injection Hw as <- <-.
  - by injection Hw as <- <-.
Qed.

Lemma execution_seen ws : execution ws -> match ws with [] => True | w :: rest => all_seen w rest end.
Proof.
  induction 1 as [n|w w' ws He IH Hs].
  { intros k l Hl. cbn in Hl. apply list_elem_of_lookup_2, list_elem_of_In, repeat_spec in Hl as ->. done. }
  assert (He' : execution (w' :: w :: ws)) by (by econstructor). destruct (execution_grows _ _ _ He') as (_ & Hg & _).
  inversion Hs as [k l i l' t' Hl Hw|v s Hk|ts|x]; subst; intros j lj Hj; cbn in Hj; try (eapply seen_stays; [by apply IH|done|done]).
  apply list_lookup_insert_Some in Hj as [(-> & <- & _)|[Hne Hj]].
  - eapply work_seen; [done|done|exact Hw|by apply IH].
  - eapply seen_stays; [by apply IH|done|]. cbn. by rewrite list_lookup_insert_ne.
Qed.
End Workers.

(** ** Properties *)
Module AuthorityServiceSpec.
Section Spec.
Context (tenant : string) `{Ident.Ulid} `{AuthorityLibraries} `{ReferenceJson} `{CommandJson} (retention : Z).

(** C36: in every execution, whatever the interleaving of declarations, transitions,
    responses, revocations, crashes and lost commits with the four reads of an
    authorisation, an operation on evidence that is permitted rested, at one instant
    of its own call, on the only declaration of the verification, active and inside
    its window, bound to the requested subject, under its effective notice, with the
    requested purpose, type, recipient and region in scope and a matching requirement,
    and on the latest response to it, which was sufficient; and at an instant of the
    call that response was given with the latest recovered capture token. *)
Theorem authorized_evidence_is_live (w : World) (ws : list World) (k : nat) (request : ReadAuthorization) (at_ : Time)
    (d : EvidenceReader.AuthorizationDecision)
    (Hexec : execution tenant retention (w :: ws))
    (Hanswer : workers w !! k = Some (Returned (AnswerDecision request at_ (Ok d)))) :
  within k (permitted_at request at_ d) (w :: ws) /\ within k (recovered_at request d) (w :: ws).
Proof. exact (execution_seen tenant retention (w :: ws) Hexec k _ Hanswer). Qed.

Lemma execution_app l ws : execution tenant retention (l ++ ws) -> ws <> [] -> execution tenant retention ws.
Proof. induction l as [|x l IH]; intros He Hn; [done|]. apply IH; [|done]. cbn in He. destruct (l ++ ws) as [|y r] eqn:Hy; [by apply app_nil in Hy as [_ ?]|]. by eapply execution_tail. Qed.

Lemma execution_between w x l ws : execution tenant retention (x :: l ++ w :: ws) -> grows (database w) (database x).
Proof.
  revert x. induction l as [|y l IH]; intros x He; cbn in He; destruct (execution_grows _ _ _ _ _ He) as (_ & Hg & _); [done|].
  etrans; [|exact Hg]. apply IH. by eapply execution_tail.
Qed.

(** The instant of a call that starts after [w] lies after [w]. *)
Lemma within_after k P later w ws : within k P (later ++ w :: ws) -> workers w !! k = Some Idle ->
  exists m newer older, later = newer ++ m :: older /\ P m.
Proof.
  intros Hw Hidle. induction later as [|x later IH]; cbn in Hw.
  - inversion Hw as [? ? (l & Hl & Hn)|? ? (l & Hl & Hn)]; subst; congruence.
  - inversion Hw as [? ? _ HP|? ? _ Hw']; subst; [by exists x, [], later|]. destruct (IH Hw') as (m & newer & older & -> & HP). by exists m, (x :: newer), older.
Qed.

(** A declaration is final: whatever happens after it is stored, it is the only
    declaration of its verification, stays readable and bound to its session, and
    changes at most once, from active at version 1 to another state at version 2; the
    responses to it are only appended.  Once it is no longer active, no authorisation
    for its verification that starts later is permitted. *)
Theorem declarations_are_final (w x : World) (later ws : list World) (k : string) (a : Authority)
    (Hexec : execution tenant retention (x :: later ++ w :: ws)) (Hrow : authorities (database w) !! k = Some a) :
  (exists a', authorities (database x) !! k = Some a' /\ authority_step a a' /\ Restore a' = Ok a' /\ bound_to (database x) a' /\
     Version a' = (if authority_state_is (State_ a') StateActive then 1 else 2) /\
     forall k' b, authorities (database x) !! k' = Some b -> VerificationID b = VerificationID a -> k' = k) /\
  responses (database w) `prefix_of` responses (database x) /\
  (State_ a <> StateActive -> forall j request at_ r, workers w !! j = Some Idle ->
     workers x !! j = Some (Returned (AnswerDecision request at_ r)) -> AuthVerification request = VerificationID a -> is_ok r = false).
Proof.
  pose proof (execution_between _ _ _ _ Hexec) as Hg. pose proof (execution_ok _ _ _ Hexec) as [Hok _]. destruct (authorities_grow _ _ Hg _ _ Hrow) as (a' & Ha' & Hs).
  destruct (authority_rows _ Hok _ _ Ha') as (HI & Hfix & Hver & Hb & _). split; [|split; [apply (responses_grow _ _ Hg)|]].
  { exists a'. split_and!; try done. intros k' b Hk Hv. destruct (authority_step_terms _ _ Hs) as (V & _).
    by destruct (one_authority _ k' k b a' Hok Hk Ha' ltac:(congruence)). }
  intros Hinactive j request at_ r Hidle Hret Hreq. destruct r as [d|]; [exfalso|done].
  destruct (execution_seen tenant retention _ Hexec j _ Hret) as [Hw _].
  destruct (within_after _ _ (x :: later) _ _ Hw Hidle) as (m & newer & older & Hsplit & Hp).
  assert (Hm : execution tenant retention (m :: older ++ w :: ws)).
  { apply (execution_app newer); [|done]. change (x :: later ++ w :: ws) with ((x :: later) ++ w :: ws) in Hexec. rewrite Hsplit, <- app_assoc in Hexec. done. }
  pose proof (execution_ok _ _ _ Hm) as [Hokm _]. destruct (authorities_grow _ _ (execution_between _ _ _ _ Hm) _ _ Hrow) as (b & Hb' & [->|(? & _)]); [|done].
  destruct Hp as (c & s & row & n & resp & Hc & _ & Hsess & Hbind & _ & _ & _ & _ & _ & _ & Hscope & _).
  assert (Hcv : VerificationID c = VerificationID a) by (rewrite <- Hreq; symmetry; apply Hscope).
  destruct (one_authority _ _ _ _ _ Hokm Hc Hb' Hcv) as [_ ->]. apply Hinactive, Hscope.
Qed.

(** A revocation of a consent that is not later, by instant and then by
    identifier, than the latest response of the declaration is accepted and recorded,
    and changes nothing: the latest response, on which every authorisation rests,
    stays the same. *)
Theorem revocation_can_be_ignored (t t' : Tables Database) (original : string) (r : Response) (actor eventID : string) (request : Request)
    (latest : option Response) (locked emits : bool) (l r' : Response)
    (Haccepted : RevokeConsent tenant t original r actor eventID request latest locked emits Committed = (Ok r', t'))
    (Hlatest : latest_response (domain t) (RAuthorityID r) = Some l) (Hnot : later (response_key r) (response_key l) = false) :
  latest_response (domain t') (RAuthorityID r) = Some l /\ authorities (domain t') = authorities (domain t).
Proof.
  unfold RevokeConsent in Haccepted. destruct (_ || _); [done|]. apply transact_cases in Haccepted as [[_ ?]|(y & Hb & _)]; [done|].
  apply command_Ok in Hb as [[-> _]|(rr & at_ & d & Hb & ->)]; [done|]. unfold revoke_body in Hb. destruct (find_response _ _); [|done]. go_inv Hb.
  destruct latest; [|done]. go_inv Hb. match goal with Hi : insertEvent _ _ _ _ _ _ = _ |- _ => apply insertEvent_untouched in Hi as (A & _ & _ & R) end.
  match goal with Hc : create_response _ _ = _ |- _ => apply create_response_Ok in Hc as (_ & ->) end. split; [|by rewrite A].
  unfold latest_response in *. rewrite R. cbn [responses with_responses]. rewrite List.filter_app. cbn [List.filter]. rewrite String.eqb_refl.
  unfold newest in *. rewrite fold_left_app, Hlatest. cbn. unfold response_key in Hnot. by rewrite Hnot.
Qed.

(** A grant pins the response it was issued under.  Once the latest response of
    its declaration is another one, no read under the grant whose authorisation starts
    later is permitted, whatever is declared or answered in between. *)
Theorem superseded_response_ends_grants (w x : World) (later_worlds ws : list World) (g : Evidence.Grant) (asset : Evidence.Record_)
    (pinned r0 : Response) (j : nat) (at_ : Time) (answer : result Error EvidenceReader.AuthorizationDecision)
    (Hexec : execution tenant retention (x :: later_worlds ++ w :: ws))
    (Hpinned : pinned ∈ responses (database w)) (Hid : ResponseID pinned = Evidence.ResponseID g)
    (Hlatest : latest_response (database w) (Evidence.AuthorityID g) = Some r0) (Hother : ResponseID r0 <> Evidence.ResponseID g)
    (Hidle : workers w !! j = Some Idle)
    (Hanswer : workers x !! j = Some (Returned (AnswerDecision (read_request tenant g asset) at_ answer))) :
  EvidenceReader.authorised g (ok_option answer) = false.
Proof.
  apply not_true_iff_false. intros Hauth. destruct answer as [d|]; [|done]. cbn [ok_option EvidenceReader.authorised] in Hauth. bprop.
  destruct (execution_seen tenant retention _ Hexec j _ Hanswer) as [Hw _].
  destruct (within_after _ _ (x :: later_worlds) _ _ Hw Hidle) as (m & newer & older & Hsplit & Hp).
  assert (Hm : execution tenant retention (m :: older ++ w :: ws)).
  { apply (execution_app newer); [|done]. change (x :: later_worlds ++ w :: ws) with ((x :: later_worlds) ++ w :: ws) in Hexec. rewrite Hsplit, <- app_assoc in Hexec. done. }
  pose proof (execution_ok _ _ _ Hm) as [Hokm _]. pose proof (execution_between _ _ _ _ Hm) as Hg. pose proof (execution_ok _ _ _ (execution_app (m :: older) (w :: ws) Hm ltac:(done))) as [Hokw _].
  destruct Hp as (c & s & row & n & resp & _ & Hc & _ & _ & _ & _ & _ & Hlat & Hresp & _). destruct (responses_grow _ _ Hg) as [ext Hext].
  assert (resp = pinned) as ->.
  { pose proof (latest_spec _ _ _ Hlat) as [[Hin _]%elem_of_authority _]. pose proof (response_ids _ Hokm) as Hn.
    assert (Hin' : pinned ∈ responses (database m)) by (rewrite Hext; set_solver).
    apply list_elem_of_lookup in Hin as [i1 H1'], Hin' as [i2 H2']. assert (i1 = i2) as ->; [|congruence].
    eapply (NoDup_lookup _ _ _ _ Hn); rewrite list_lookup_fmap; [rewrite H1'|rewrite H2']; cbn; [done|]. congruence. }
  pose proof (latest_of_prefix _ _ _ _ (response_ids _ Hokw) (responses_grow _ _ Hg) Hlat Hpinned) as Hlat'. congruence.
Qed.
End Spec.
End AuthorityServiceSpec.

(** ** A concrete run *)
Module AuthorityWitness.
Import Ident.UlidText.

Section Drive.
Context (tenant : string) `{Ident.Ulid} `{AuthorityLibraries} `{ReferenceJson} `{CommandJson} (retention : Z).

Inductive Move := MoveWork (k : nat) (i : Input) | MoveSession (v : string) (s : SessionRow) | MoveTokens (ts : gmap string TokenRow).
Definition unbound (s : SessionRow) : bool := match Binding s with None => true | Some _ => false end.
Definition next (w : World) (m : Move) : option World :=
  match m with
  | MoveWork k i =>
      match workers w !! k with
      | None => None
      | Some l => let '(l', t') := work tenant retention l i (shared w) in Some (mk_world t' (<[k := l']> (workers w)))
      end
  | MoveSession v s =>
      match sessions (database w) !! v with
      | None => if unbound s then Some (with_database w (with_sessions (database w) (<[v := s]> (sessions (database w))))) else None
      | Some _ => None
      end
  | MoveTokens ts => Some (with_database w (with_tokens (database w) ts))
  end.
Definition drive (ws : list World) (m : Move) : list World :=
  match ws with [] => [] | w :: _ => match next w m with Some w' => w' :: ws | None => ws end end.

Lemma drive_execution moves : forall ws, execution tenant retention ws -> execution tenant retention (fold_left drive moves ws).
Proof.
  induction moves as [|m moves IH]; intros ws He; [done|]. cbn. apply IH. destruct ws as [|w ws]; [done|]. cbn. destruct (next w m) as [w'|] eqn:Hn; [|done].
  econstructor; [done|]. destruct m as [k i|v s|ts]; cbn in Hn.
  - destruct (workers w !! k) as [l|] eqn:Hl; [|done]. destruct (work _ _ _ _ _) as [l' t'] eqn:Hw. injection Hn as <-. by eapply world_work.
  - destruct (sessions (database w) !! v) eqn:Hs; [done|]. destruct (unbound s) eqn:Hu; [|done]. injection Hn as <-. apply world_session.
    rewrite Hs. unfold unbound in Hu. cbn. by destruct (Binding s).
  - injection Hn as <-. apply world_tokens.
Qed.
End Drive.

Definition zeros : string := "0000000000000000000000000000000000000000000000000000000000000000".
#[local] Instance authority_libraries : AuthorityLibraries := { notice_sha256 := fun _ => zeros; marshal_notice := fun _ => Some "{}"%string }.
#[local] Instance idempotency_libraries : IdempotencyLibraries := { sha256_sum := fun s => s; json_object := fun s => String.prefix "{" s }.
Definition encode (name value : string) : string := ("{" +:+ name +:+ ":") +:+ value.
Definition decode (name s : string) : option string := Ident.strip_prefix ("{" +:+ name +:+ ":") s.
Lemma decode_encode_reference name value : decode name (encode name value) = Some value.
Proof. unfold decode, encode. by apply Ident.strip_prefix_Some. Qed.
Lemma encode_object_reference name value : json_object (encode name value) = true /\ encode name value <> ""%string.
Proof. split; [destruct name; reflexivity|discriminate]. Qed.
#[local] Instance reference_json : ReferenceJson :=
  { encode_reference := encode; decode_reference := decode; decode_encode := decode_encode_reference; encode_object := encode_object_reference }.
#[local] Instance command_json : CommandJson :=
  { marshal_notice_input := fun _ => Some "notice"%string; marshal_declaration := fun _ => Some "declare"%string;
    marshal_managed := fun _ d => Some d; marshal_transition := fun v _ s => Some (v +:+ s); marshal_response := fun _ => Some "respond"%string;
    marshal_revocation := fun c r => Some (c +:+ r) }.

Definition at_ (n : Z) : Time := mk_time (n * second) true.
Definition key_id : string := "key_01ARZ3NDEKTSV4RRFFQ69G5FAV".
Definition token_id : string := "ctk_01ARZ3NDEKTSV4RRFFQ69G5FAV".
Definition caller : Access := mk_access true key_id.
Definition capture : CaptureContext := mk_capture "ver" token_id.
Definition copy : NoticeCopy := mk_copy "Title" "Summary" "Purpose" "Consequences".
Definition notice_input : NoticeInput := mk_notice_input "notice.kyc" "en" "Controller" "Recipient" copy (at_ 1).
Definition declaration_input : DeclarationInput :=
  mk_declaration_input "ver" "ntc" "subject.consent" "identity.kyc" "country.ng" "pack.v1" true "recipient.check" "Recipient" ["eu.west"] "retention.short" (at_ 5) (at_ 1000).
Definition consent : ResponseInput := mk_response_input ResponseConsent "en" "".
Definition request : ReadAuthorization := mk_read_authorization "ten" "sub" "ver" "evd" "face_image" "identity.kyc" "face.image" "recipient.check" "eu.west".
Definition input (o : Op) (t : Z) (identifier event : string) : Input :=
  mk_input false o (at_ t) (at_ t) (Some identifier) (Some "sub"%string) (Some event) true true Committed (Ok false).
Definition session : SessionRow :=
  mk_session Lifecycle.SessionStateCollecting (at_ 2000) [mk_requirement "face_image" "identity.kyc" "face.image"] "eu" (key_id, ""%string) None.
Definition token : TokenRow := mk_token "ver" (at_ 1) (at_ 2000) None.
Definition moves (k : nat) (n : nat) (i : Input) : list Move := repeat (MoveWork k i) n.

(** A notice, a session, a declaration and a consent. *)
Definition setup : list Move :=
  moves 0 2 (input (OpCreateNotice caller "k1" notice_input) 2 "ntc" "e1") ++
  [MoveSession "ver" session; MoveTokens (<[token_id := token]> ∅)] ++
  moves 0 5 (input (OpDeclare caller "k2" declaration_input) 6 "aut" "e2") ++
  moves 0 6 (input (OpRespond capture "k3" consent) 10 "ack1" "e3").
Definition authorize (k : nat) (t : Z) : list Move := moves k 6 (input (OpAuthorizeEvidence request) t "" "").
Definition withdraw : list Move := moves 0 4 (input (OpTransition caller "ver" "k4" 1 StateWithdrawn) 30 "" "e4").

Definition run (ms : list Move) (ws : list World) : list World := fold_left (drive "ten" (10000 * second)) ms ws.
Definition consented : list World := run setup [start_world 2].
Definition authorized : list World := run (authorize 0 20) consented.
Definition head_of (ws : list World) : World := match ws with w :: _ => w | [] => start_world 0 end.
Example consented_rows : map fst (map_to_list (authorities (database (head_of consented)))) = ["aut"%string] /\
  map ResponseID (responses (database (head_of consented))) = ["ack1"%string].
Proof. vm_compute. done. Qed.

Abbreviation executed := (execution "ten" (10000 * second)).
Lemma run_execution ms ws : executed ws -> executed (run ms ws).
Proof. apply drive_execution. Qed.
Lemma start_executed : executed [start_world 2].
Proof. constructor. Qed.
Lemma run_extends ms : forall ws, exists l, run ms ws = l ++ ws.
Proof.
  unfold run. induction ms as [|m ms IH]; intros ws; [by exists []|]. cbn. destruct (IH (drive "ten" (10000 * second) ws m)) as [l Hl]. rewrite Hl. unfold drive.
  destruct ws as [|w ws]; [by exists l|]. destruct (next _ _ _ _) as [w'|]; [|by exists l]. exists (l ++ [w']). by rewrite <- app_assoc.
Qed.
Lemma execution_cons ws : executed ws -> ws = head_of ws :: tail ws.
Proof. by inversion 1. Qed.
(** A run that does something ends in its head. *)
Lemma run_from ms ws : executed ws -> Nat.ltb (length ws) (length (run ms ws)) = true ->
  exists l, executed (head_of (run ms ws) :: l ++ head_of ws :: tail ws).
Proof.
  intros He Hn. destruct (run_extends ms ws) as [l Hl]. pose proof (run_execution ms ws He) as Hr. rewrite <- (execution_cons _ He), Hl in *.
  destruct l as [|x l]; [by rewrite Nat.ltb_irrefl in Hn|]. by exists l.
Qed.

Lemma authorized_evidence_is_live_witness :
  within 0 (permitted_at request (at_ 20) (EvidenceReader.mk_decision "aut" "ack1" "pack.v1")) (head_of authorized :: tail authorized).
Proof.
  assert (He : executed (head_of authorized :: tail authorized)).
  { rewrite <- execution_cons; repeat apply run_execution; exact start_executed. }
  assert (Ha : workers (head_of authorized) !! 0%nat = Some (Returned (AnswerDecision request (at_ 20) (Ok (EvidenceReader.mk_decision "aut" "ack1" "pack.v1")))))
    by (vm_compute; reflexivity).
  destruct (AuthorityServiceSpec.authorized_evidence_is_live "ten" (10000 * second) (head_of authorized) (tail authorized) 0 request (at_ 20) _ He Ha) as [Hp _].
  exact Hp.
Defined.

(** The controller withdraws; then worker 1 is asked again. *)
Definition withdrawn : list World := run withdraw authorized.
Abbreviation asked := (run (authorize 1 40) withdrawn).
Definition declared_row : Authority := match authorities (database (head_of withdrawn)) !! "aut"%string with Some a => a | None => mk_authority "" "" "" "" "" "" "" "" "" false [] [] "" "" [] "" StateActive 0 zero_time zero_time zero_time zero_time "" "" None None None end.
Lemma declarations_are_final_witness :
  State_ declared_row = StateWithdrawn /\ Version declared_row = 2 /\
  workers (head_of asked) !! 1%nat = Some (Returned (AnswerDecision request (at_ 40) (Err ErrProcessingNotPermitted))) /\
  is_ok (Err (A := EvidenceReader.AuthorizationDecision) ErrProcessingNotPermitted) = false.
Proof.
  assert (Hw : executed withdrawn) by (repeat apply run_execution; exact start_executed).
  assert (Hlen : Nat.ltb (length withdrawn) (length asked) = true) by (vm_compute; reflexivity).
  destruct (run_from (authorize 1 40) withdrawn Hw Hlen) as [l Ha].
  assert (Hrow : authorities (database (head_of withdrawn)) !! "aut"%string = Some declared_row) by (vm_compute; reflexivity).
  assert (Hst : State_ declared_row = StateWithdrawn) by (vm_compute; reflexivity).
  assert (Hv : Version declared_row = 2) by (vm_compute; reflexivity).
  assert (Hidle : workers (head_of withdrawn) !! 1%nat = Some Idle) by (vm_compute; reflexivity).
  assert (Hans : workers (head_of asked) !! 1%nat = Some (Returned (AnswerDecision request (at_ 40) (Err ErrProcessingNotPermitted)))) by (vm_compute; reflexivity).
  assert (Hver : AuthVerification request = VerificationID declared_row) by (vm_compute; reflexivity).
  destruct (AuthorityServiceSpec.declarations_are_final "ten" (10000 * second) (head_of withdrawn) (head_of asked) l (tail withdrawn) "aut" declared_row Ha Hrow) as (_ & _ & Hend).
  split; [exact Hst|]. split; [exact Hv|]. split; [exact Hans|]. apply (Hend ltac:(rewrite Hst; discriminate) 1%nat request (at_ 40) _ Hidle Hans Hver).
Defined.

(** A second consent, and a revocation of the first in the same second. *)
Definition consented_again : list World := run (moves 0 7 (input (OpRespond capture "k5" consent) 12 "ack2" "e5")) consented.
Definition tables : Tables Database := shared (head_of consented_again).
Definition first_response : Response := mk_response "ack1" "ten" "aut" "ntc" "sub" "ver" token_id ResponseConsent "en" "" (at_ 10).
Definition second_response : Response := mk_response "ack2" "ten" "aut" "ntc" "sub" "ver" token_id ResponseConsent "en" "" (at_ 12).
Definition refusal : Response := mk_response "ack10" "ten" "aut" "ntc" "sub" "ver" token_id ResponseRefuse "en" "" (at_ 12).
Definition revocation_request : Request := mk_request ("ten", key_id, "consents.revoke", "k6")%string "f" (at_ 12) (at_ 10000).
Abbreviation seen_latest := (latest_response (domain tables) (RAuthorityID refusal)).
Abbreviation revoked := (RevokeConsent "ten" tables "ack1" refusal key_id "e6" revocation_request seen_latest true true Committed).
Lemma revocation_can_be_ignored_witness :
  revoked.1 = Ok refusal /\ option_map ResponseID seen_latest = Some "ack2"%string /\ latest_response (domain revoked.2) (RAuthorityID refusal) = seen_latest.
Proof.
  assert (Hr : revoked.1 = Ok refusal) by (vm_compute; reflexivity).
  assert (Hl : seen_latest = Some second_response) by (vm_compute; reflexivity).
  assert (Hk : later (response_key refusal) (response_key second_response) = false) by (vm_compute; reflexivity).
  assert (Hacc : RevokeConsent "ten" tables "ack1" refusal key_id "e6" revocation_request seen_latest true true Committed = (Ok refusal, revoked.2))
    by (rewrite <- Hr; apply surjective_pairing).
  destruct (AuthorityServiceSpec.revocation_can_be_ignored "ten" tables revoked.2 "ack1" refusal key_id "e6" revocation_request seen_latest true true second_response
    refusal Hacc Hl Hk) as [Hlatest _].
  split; [exact Hr|]. split; [rewrite Hl; reflexivity|]. rewrite Hl. exact Hlatest.
Defined.

(** A grant issued under the first consent. *)
Definition content : ContentRecord :=
  mk_content (ObjectStore.mk_object "evidence/one" "v1" 64 zeros) (Crypto.mk_envelope 1 "AES256" "idenqa" (Kms.mk_wrapped "local" "key" "1" "AES" "k") 1 zeros) zeros "image/jpeg".
Definition asset : Evidence.Record_ :=
  Evidence.mk_record "evd" "ten" "sub" "ver" "face_image" "face.image" "image" "camera" [] (mk_reference 1 1 zeros) "eu.west" "retention.short" 1 content
    IntegrityVerified StateAvailable 1 (at_ 1) (at_ 1) "" None.
Definition grant : Evidence.Grant :=
  mk_grant "gra" "ten" "sub" "ver" "evd" "face_image" "aut" "ack1" "check.face" (mk_runner "runner" "v1") "identity.kyc" OperationPlaintextRead [VariantOriginal] "eu.west"
    "recipient.check" "destination.memory" "pack.v1" 2 0 (at_ 11) (at_ 100) None.
Abbreviation asked_again := (run (authorize 1 14) consented_again).
Definition new_decision : EvidenceReader.AuthorizationDecision := EvidenceReader.mk_decision "aut" "ack2" "pack.v1".
Lemma superseded_response_ends_grants_witness :
  workers (head_of asked_again) !! 1%nat = Some (Returned (AnswerDecision (read_request "ten" grant asset) (at_ 14) (Ok new_decision))) /\
  EvidenceReader.authorised grant (Some new_decision) = false.
Proof.
  assert (Hw : executed consented_again) by (repeat apply run_execution; exact start_executed).
  assert (Hlen : Nat.ltb (length consented_again) (length asked_again) = true) by (vm_compute; reflexivity).
  destruct (run_from (authorize 1 14) consented_again Hw Hlen) as [l Ha].
  assert (Hin : responses (database (head_of consented_again)) = [first_response; second_response]) by (vm_compute; reflexivity).
  assert (Hin' : first_response ∈ responses (database (head_of consented_again))) by (rewrite Hin; apply list_elem_of_here).
  assert (Hlat : latest_response (database (head_of consented_again)) (Evidence.AuthorityID grant) = Some second_response) by (vm_compute; reflexivity).
  assert (Hne : ResponseID second_response <> Evidence.ResponseID grant) by discriminate.
  assert (Hidle : workers (head_of consented_again) !! 1%nat = Some Idle) by (vm_compute; reflexivity).
  assert (Hans : workers (head_of asked_again) !! 1%nat = Some (Returned (AnswerDecision (read_request "ten" grant asset) (at_ 14) (Ok new_decision))))
    by (vm_compute; reflexivity).
  split; [exact Hans|].
  exact (AuthorityServiceSpec.superseded_response_ends_grants "ten" (10000 * second) (head_of consented_again) (head_of asked_again) l (tail consented_again) grant asset
    first_response second_response 1 (at_ 14) (Ok new_decision) Ha Hin' eq_refl Hlat Hne Hidle Hans).
Defined.
End AuthorityWitness.
