(* ===== verification/Upload.v ===== *)
(** * Evidence uploads and the obligations of staged objects

    [internal/evidence/upload.go] and [reconciliation.go]: the deployment policy, the
    upload intent with its fenced whole-body attempts, and the write-ahead
    obligation of the ciphertext an attempt staged.

    Identifiers are their texts; the zero identifier is the empty text.
    [mime.ParseMediaType] accepts the two media types of v1 without parameters, so
    that [validCanonicalUploadMediaType] is the comparison with them. *)

From S2P Require Import Prelude GoTime Content Evidence.
From Stdlib Require Import Ascii.

Module Uploads.

Inductive UploadError := ErrUploadNotFound | ErrUploadConflict | ErrUploadVersionConflict | ErrUploadExpired | ErrUploadMetadata | ErrUploadBodyLength |
  ErrUploadBodyDigest | ErrUploadSignature | ErrUploadBodyIncomplete | ErrUploadAcceptanceOutcomeUnknown | ErrReconciliationNotFound |
  ErrReconciliationConflict | ErrNoReconciliationReady | ErrProcessingNotPermitted | ErrSubjectResponseRequired | ErrCleanupRequired |
  ErrAcceptanceReconciliationRequired | ErrAdmissionUnavailable | ErrBodyRead | ErrIdempotencyConflict | ErrInProgress | ErrInvalid | ErrQuery.
#[export] Instance UploadError_eq_dec : EqDecision UploadError. Proof. solve_decision. Defined.

Definition MediaTypeJPEG : string := "image/jpeg".
Definition MediaTypePNG : string := "image/png".
Definition mebibyte : Z := 1048576.
Definition MinimumUploadMaximumBytes : Z := 1 * mebibyte.
Definition MaximumUploadMaximumBytes : Z := 64 * mebibyte.
Definition DefaultUploadMaximumBytes : Z := 16 * mebibyte.
Definition MinimumUploadIntentLifetime : Z := 5 * minute.
Definition MaximumUploadIntentLifetime : Z := 60 * minute.
Definition DefaultUploadIntentLifetime : Z := 15 * minute.
Definition MinimumUploadAttemptTimeout : Z := minute.
Definition MaximumUploadAttemptTimeout : Z := 15 * minute.
Definition DefaultUploadAttemptTimeout : Z := 10 * minute.
Definition OperationCreateUpload : string := "evidence.uploads.create".
Definition millisecond : Z := 1000 * microsecond.
Definition max_int32 : Z := 2147483647.
Definition wrap_uint32 (z : Z) : Z := z mod 4294967296.

(** ** Media types and the deployment policy *)

Definition validCanonicalUploadMediaType (value : string) : bool := String.eqb value MediaTypeJPEG || String.eqb value MediaTypePNG.
Definition validateUploadMediaTypes (values : list string) : result UploadError (list string) :=
  reject (llen values =? 0) || (2 <? llen values) with ErrInvalid ;;
  let sorted := compact (sort_strings values) in
  reject negb (llen sorted =? llen values) with ErrInvalid ;;
  reject negb (forallb validCanonicalUploadMediaType sorted) with ErrInvalid ;;
  Ok sorted.
Definition uploadMediaTypesAreSubset (values allowed : list string) : bool := forallb (fun v => existsb (String.eqb v) allowed) values.

Record UploadPolicy := mk_policy { MaximumBytes : Z; IntentLifetime : Z; AttemptTimeout : Z; AllowedMediaTypes : list string }.

Definition DefaultUploadPolicy : UploadPolicy :=
  mk_policy DefaultUploadMaximumBytes DefaultUploadIntentLifetime DefaultUploadAttemptTimeout [MediaTypeJPEG; MediaTypePNG].

Definition NewUploadPolicy (config : UploadPolicy) : result UploadError UploadPolicy :=
  reject (MaximumBytes config <? MinimumUploadMaximumBytes) || (MaximumUploadMaximumBytes <? MaximumBytes config) ||
         (IntentLifetime config <? MinimumUploadIntentLifetime) || (MaximumUploadIntentLifetime <? IntentLifetime config) ||
         (AttemptTimeout config <? MinimumUploadAttemptTimeout) || (MaximumUploadAttemptTimeout <? AttemptTimeout config) ||
         negb (IntentLifetime config mod millisecond =? 0) || negb (AttemptTimeout config mod millisecond =? 0) with ErrInvalid ;;
  let? mediaTypes := validateUploadMediaTypes (AllowedMediaTypes config) in
  Ok (mk_policy (MaximumBytes config) (IntentLifetime config) (AttemptTimeout config) mediaTypes).
Definition policy_is_zero (p : UploadPolicy) : bool :=
  (MaximumBytes p =? 0) || (IntentLifetime p =? 0) || (AttemptTimeout p =? 0) || (llen (AllowedMediaTypes p) =? 0).

(** ** Upload intents *)

Inductive UploadState := UploadStateIssued | UploadStateUploading | UploadStateAccepted | UploadStateRejected | UploadStateExpired |
  UploadStateOther (raw : string).
#[export] Instance UploadState_eq_dec : EqDecision UploadState. Proof. solve_decision. Defined.
Definition upload_state_is (a b : UploadState) : bool := bool_decide (a = b).

Record TemporalFrame := mk_frame {
  SequenceDigest : string; FrameIndex : Z; FrameCount : Z; ChallengeID : string; CapturedAt : Time; PreviousDigest : string }.
#[export] Instance TemporalFrame_eq_dec : EqDecision TemporalFrame. Proof. solve_decision. Defined.

(** What an intent binds: everything but its lifecycle. *)
Record Terms := mk_terms {
  UploadID : string; UTenantID : string; UCaptureTokenID : string; USubjectID : string; UVerificationID : string; UEvidenceID : string;
  UAuthorityID : string; UResponseID : string; ProfileID : string; ProfileRevision : Z; ProfileDigest : string; URegistry : Reference;
  URequirementKey : string; UPurpose : Name; UEvidenceType : Name; UArtefact : Name; UAcquisitionMethod : Name; FallbackCondition : string;
  UAssurances : list Name; EncryptionPurpose : string; UAllowedMediaTypes : list string; UMaximumBytes : Z; ExpectedBytes : Z;
  ExpectedDigest : string; UMediaType : string; URegion : string; URetentionClass : string; UAttemptTimeout : Z; UCreatedAt : Time;
  UExpiresAt : Time }.
#[export] Instance Terms_eq_dec : EqDecision Terms. Proof. solve_decision. Defined.
Record UploadRecord := mk_upload {
  terms : Terms; UState : UploadState; UVersion : Z; Attempt : Z; LeaseExpiresAt : option Time; UUpdatedAt : Time; AcceptedAt : option Time;
  RejectionReason : string; Sequence : option TemporalFrame }.
#[export] Instance UploadRecord_eq_dec : EqDecision UploadRecord. Proof. solve_decision. Defined.

Definition with_frame (u : UploadRecord) (frame : option TemporalFrame) : UploadRecord :=
  mk_upload (terms u) (UState u) (UVersion u) (Attempt u) (LeaseExpiresAt u) (UUpdatedAt u) (AcceptedAt u) (RejectionReason u) frame.
(** The next version, in a state of its own. *)
Definition next_version (u : UploadRecord) (state : UploadState) (attempt : Z) (lease : option Time) (now : Time) (accepted : option Time) (reason : string)
  : UploadRecord := mk_upload (terms u) state (wrap_int64 (UVersion u + 1)) attempt lease now accepted reason (Sequence u).

Definition cloneTemporalFrame (f : TemporalFrame) : TemporalFrame :=
  mk_frame (SequenceDigest f) (FrameIndex f) (FrameCount f) (ChallengeID f) (utc (CapturedAt f)) (PreviousDigest f).

Definition digest_ok (value : string) : bool := match Crypto.NewDigest value with Some _ => true | None => false end.
Definition validateTemporalFrame (frame : option TemporalFrame) : result UploadError unit :=
  match frame with
  | None => Ok tt
  | Some f =>
      reject negb (digest_ok (SequenceDigest f)) with ErrInvalid ;;
      reject (FrameCount f <? 2) || (32 <? FrameCount f) || (FrameCount f <=? FrameIndex f) || negb (validClassification (ChallengeID f)) ||
             is_zero (CapturedAt f) || negb (in_utc (CapturedAt f)) with ErrInvalid ;;
      if FrameIndex f =? 0 then reject negb (empty_string (PreviousDigest f)) with ErrInvalid ;; Ok tt
      else reject negb (digest_ok (PreviousDigest f)) with ErrInvalid ;; Ok tt
  end.

Definition validUploadFallbackCondition (value : string) : bool :=
  existsb (String.eqb value) [""; "capability_unavailable"; "method_unavailable"; "capture_failed"]%string.

Definition validateUploadState (u : UploadRecord) : result UploadError unit :=
  let leased := match LeaseExpiresAt u with Some _ => true | None => false end in
  let accepted := match AcceptedAt u with Some _ => true | None => false end in
  match UState u with
  | UploadStateIssued =>
      reject leased || accepted || negb (empty_string (RejectionReason u)) || negb (before (UUpdatedAt u) (UExpiresAt (terms u))) with ErrUploadConflict ;; Ok tt
  | UploadStateUploading =>
      reject (Attempt u =? 0) || negb leased || accepted || negb (empty_string (RejectionReason u)) ||
             match LeaseExpiresAt u with Some lease => negb (after lease (UUpdatedAt u)) || after lease (UExpiresAt (terms u)) | None => false end
        with ErrUploadConflict ;; Ok tt
  | UploadStateAccepted =>
      reject (Attempt u =? 0) || leased || negb (bool_decide (AcceptedAt u = Some (UUpdatedAt u))) || negb (empty_string (RejectionReason u)) ||
             negb (before (UUpdatedAt u) (UExpiresAt (terms u))) with ErrUploadConflict ;; Ok tt
  | UploadStateRejected =>
      reject (Attempt u =? 0) || leased || accepted || negb (validClassification (RejectionReason u)) || negb (before (UUpdatedAt u) (UExpiresAt (terms u)))
        with ErrUploadConflict ;; Ok tt
  | UploadStateExpired =>
      reject leased || accepted || negb (empty_string (RejectionReason u)) || before (UUpdatedAt u) (UExpiresAt (terms u)) with ErrUploadConflict ;; Ok tt
  | UploadStateOther _ => Err ErrInvalid
  end.

(** The checks of [validateUploadRecord] that depend on the terms alone. *)
Definition validate_terms (t : Terms) (registry : Registry) : result UploadError unit :=
  reject empty_string (UploadID t) || empty_string (UTenantID t) || empty_string (UCaptureTokenID t) || empty_string (USubjectID t) ||
         empty_string (UVerificationID t) || empty_string (UEvidenceID t) || empty_string (UAuthorityID t) || empty_string (UResponseID t) ||
         empty_string (ProfileID t) || (ProfileRevision t =? 0) || negb (validRequirementKey (URequirementKey t)) with ErrInvalid ;;
  reject negb (bool_decide (URegistry t = registry_reference registry)) || negb (bool_decide (UPurpose t ∈ purposes registry)) with ErrInvalid ;;
  reject negb (validUploadFallbackCondition (FallbackCondition t)) with ErrInvalid ;;
  reject negb (digest_ok (ProfileDigest t)) || negb (digest_ok (ExpectedDigest t)) with ErrInvalid ;;
  match validateAcquisition registry (UEvidenceType t) (UArtefact t) (UAcquisitionMethod t) (UAssurances t) with
  | Err _ => Err ErrInvalid
  | Ok assurances =>
      reject negb (bool_decide (assurances = UAssurances t)) with ErrInvalid ;;
      let? mediaTypes := validateUploadMediaTypes (UAllowedMediaTypes t) in
      reject negb (bool_decide (mediaTypes = UAllowedMediaTypes t)) || negb (validCanonicalUploadMediaType (UMediaType t)) ||
             negb (existsb (String.eqb (UMediaType t)) mediaTypes) with ErrInvalid ;;
      reject (UMaximumBytes t <? 1) || (MaximumUploadMaximumBytes <? UMaximumBytes t) || (ExpectedBytes t <? 1) || (UMaximumBytes t <? ExpectedBytes t) ||
             negb (String.eqb (EncryptionPurpose t) ContentEncryptionPurpose) || (UAttemptTimeout t <? MinimumUploadAttemptTimeout) ||
             (MaximumUploadAttemptTimeout <? UAttemptTimeout t) || negb (validClassification (URegion t)) ||
             negb (validClassification (URetentionClass t)) with ErrInvalid ;;
      Ok tt
  end.
Definition validateUploadRecord (u : UploadRecord) (registry : Registry) : result UploadError unit :=
  let? _ := validate_terms (terms u) registry in
  let? _ := validateTemporalFrame (Sequence u) in
  reject (UVersion u <? 1) || is_zero (UCreatedAt (terms u)) || before (UUpdatedAt u) (UCreatedAt (terms u)) ||
         negb (after (UExpiresAt (terms u)) (UCreatedAt (terms u))) ||
         after (UExpiresAt (terms u)) (add (UCreatedAt (terms u)) MaximumUploadIntentLifetime) with ErrInvalid ;;
  validateUploadState u.

Definition utc_terms (t : Terms) : Terms :=
  mk_terms (UploadID t) (UTenantID t) (UCaptureTokenID t) (USubjectID t) (UVerificationID t) (UEvidenceID t) (UAuthorityID t) (UResponseID t) (ProfileID t)
    (ProfileRevision t) (ProfileDigest t) (URegistry t) (URequirementKey t) (UPurpose t) (UEvidenceType t) (UArtefact t) (UAcquisitionMethod t)
    (FallbackCondition t) (UAssurances t) (EncryptionPurpose t) (UAllowedMediaTypes t) (UMaximumBytes t) (ExpectedBytes t) (ExpectedDigest t)
    (UMediaType t) (URegion t) (URetentionClass t) (UAttemptTimeout t) (utc (UCreatedAt t)) (utc (UExpiresAt t)).
Definition RestoreUpload (u : UploadRecord) (registry : Registry) : result UploadError UploadRecord :=
  let u := mk_upload (utc_terms (terms u)) (UState u) (UVersion u) (Attempt u) (option_map utc (LeaseExpiresAt u)) (utc (UUpdatedAt u))
             (option_map utc (AcceptedAt u)) (RejectionReason u) (Sequence u) in
  let? _ := validateUploadRecord u registry in
  Ok (with_frame u (option_map cloneTemporalFrame (Sequence u))).

(** The input of [NewUpload]: terms whose registry, purpose of encryption, attempt
    timeout and expiry are still open, and the frame. *)
Record UploadInput := mk_upload_input { input_terms : Terms; SessionExpiresAt : Time; input_frame : option TemporalFrame }.

Definition NewUpload (input : UploadInput) (registry : Registry) (policy : UploadPolicy) : result UploadError UploadRecord :=
  let t := input_terms input in
  let createdAt := utc (UCreatedAt t) in
  let sessionExpiresAt := utc (SessionExpiresAt input) in
  reject policy_is_zero policy || is_zero createdAt || negb (after sessionExpiresAt createdAt) with ErrInvalid ;;
  let? mediaTypes := validateUploadMediaTypes (UAllowedMediaTypes t) in
  match validateAcquisition registry (UEvidenceType t) (UArtefact t) (UAcquisitionMethod t) (UAssurances t) with
  | Err _ => Err ErrInvalid
  | Ok assurances =>
      reject (UMaximumBytes t <? 1) || (MaximumBytes policy <? UMaximumBytes t) || (ExpectedBytes t <? 1) || (UMaximumBytes t <? ExpectedBytes t) ||
             negb (uploadMediaTypesAreSubset mediaTypes (AllowedMediaTypes policy)) || negb (existsb (String.eqb (UMediaType t)) (AllowedMediaTypes policy)) ||
             negb (existsb (String.eqb (UMediaType t)) mediaTypes) with ErrInvalid ;;
      let expiresAt := add createdAt (IntentLifetime policy) in
      let expiresAt := if before sessionExpiresAt expiresAt then sessionExpiresAt else expiresAt in
      RestoreUpload
        (mk_upload
           (mk_terms (UploadID t) (UTenantID t) (UCaptureTokenID t) (USubjectID t) (UVerificationID t) (UEvidenceID t) (UAuthorityID t) (UResponseID t)
              (ProfileID t) (ProfileRevision t) (ProfileDigest t) (registry_reference registry) (URequirementKey t) (UPurpose t) (UEvidenceType t)
              (UArtefact t) (UAcquisitionMethod t) (FallbackCondition t) assurances ContentEncryptionPurpose mediaTypes (UMaximumBytes t)
              (ExpectedBytes t) (ExpectedDigest t) (UMediaType t) (URegion t) (URetentionClass t) (AttemptTimeout policy) createdAt expiresAt)
           UploadStateIssued 1 0 None createdAt None "" (option_map cloneTemporalFrame (input_frame input))) registry
  end.

Definition WithTemporalFrame (u : UploadRecord) (f : TemporalFrame) : result UploadError UploadRecord :=
  reject match Sequence u with Some _ => true | None => false end || negb (is_ok (validateTemporalFrame (Some f))) with ErrUploadConflict ;;
  Ok (with_frame u (Some (cloneTemporalFrame f))).

(** ** Attempts *)

(** A lease is the earlier of the attempt timeout and the expiry of the intent. *)
Definition lease_of (t : Terms) (now : Time) : Time :=
  let lease := add now (UAttemptTimeout t) in if before (UExpiresAt t) lease then UExpiresAt t else lease.
Definition leased_at (u : UploadRecord) (now : Time) : bool := match LeaseExpiresAt u with Some lease => before now lease | None => false end.

Definition ClaimAttempt (u : UploadRecord) (expectedVersion : Z) (now : Time) : result UploadError UploadRecord :=
  reject negb (expectedVersion =? UVersion u) with ErrUploadVersionConflict ;;
  let now := utc now in
  reject is_zero now || before now (UUpdatedAt u) with ErrUploadConflict ;;
  reject negb (before now (UExpiresAt (terms u))) with ErrUploadExpired ;;
  reject upload_state_is (UState u) UploadStateUploading && leased_at u now with ErrUploadConflict ;;
  reject negb (upload_state_is (UState u) UploadStateIssued) && negb (upload_state_is (UState u) UploadStateUploading) with ErrUploadConflict ;;
  Ok (mk_upload (terms u) UploadStateUploading (wrap_int64 (UVersion u + 1)) (wrap_uint32 (Attempt u + 1)) (Some (lease_of (terms u) now)) now
        (AcceptedAt u) (RejectionReason u) (Sequence u)).

Definition FailAttempt (u : UploadRecord) (expectedVersion attempt : Z) (now : Time) : result UploadError UploadRecord :=
  reject negb (expectedVersion =? UVersion u) with ErrUploadVersionConflict ;;
  reject negb (upload_state_is (UState u) UploadStateUploading) || negb (Attempt u =? attempt) with ErrUploadConflict ;;
  let now := utc now in
  reject is_zero now || before now (UUpdatedAt u) with ErrUploadConflict ;;
  Ok (next_version u (if negb (before now (UExpiresAt (terms u))) then UploadStateExpired else UploadStateIssued) (Attempt u) None now (AcceptedAt u)
        (RejectionReason u)).

(** The current attempt at an instant within its lease and its intent. *)
Definition current_attempt (u : UploadRecord) (attempt : Z) (now : Time) : bool :=
  upload_state_is (UState u) UploadStateUploading && (Attempt u =? attempt) && negb (is_zero now) && negb (before now (UUpdatedAt u)) && leased_at u now &&
  before now (UExpiresAt (terms u)).

Definition binds (u : UploadRecord) (a : Record_) : bool :=
  let t := terms u in
  String.eqb (ID a) (UEvidenceID t) && String.eqb (TenantID a) (UTenantID t) && String.eqb (SubjectID a) (USubjectID t) &&
  String.eqb (VerificationID a) (UVerificationID t) && String.eqb (RequirementKey a) (URequirementKey t) && bool_decide (Registry_ a = URegistry t) &&
  String.eqb (EvidenceType a) (UEvidenceType t) && String.eqb (Artefact a) (UArtefact t) && String.eqb (AcquisitionMethod a) (UAcquisitionMethod t) &&
  bool_decide (Assurances a = UAssurances t) && String.eqb (Region a) (URegion t) && String.eqb (RetentionClass a) (URetentionClass t) &&
  (ContentRevision a =? 1) && asset_state_is (State_ a) StateAvailable && integrity_is (Integrity_ a) IntegrityVerified && (Version a =? 1).

Definition Accept (u : UploadRecord) (expectedVersion attempt : Z) (a : Record_) (plaintextBytes : Z) (now : Time) : result UploadError UploadRecord :=
  reject negb (expectedVersion =? UVersion u) with ErrUploadVersionConflict ;;
  let now := utc now in
  reject negb (current_attempt u attempt now) || negb (plaintextBytes =? ExpectedBytes (terms u)) || negb (binds u a) with ErrUploadConflict ;;
  reject negb (String.eqb (PlaintextDigest (Content a)) (ExpectedDigest (terms u))) || negb (String.eqb (MediaType (Content a)) (UMediaType (terms u)))
    with ErrUploadConflict ;;
  Ok (next_version u UploadStateAccepted (Attempt u) None now (Some now) (RejectionReason u)).

Definition Reject_ (u : UploadRecord) (expectedVersion attempt : Z) (reason : string) (now : Time) : result UploadError UploadRecord :=
  reject negb (expectedVersion =? UVersion u) with ErrUploadVersionConflict ;;
  let now := utc now in
  reject negb (current_attempt u attempt now) || negb (validClassification reason) with ErrUploadConflict ;;
  Ok (next_version u UploadStateRejected (Attempt u) None now (AcceptedAt u) reason).

Definition Expire (u : UploadRecord) (expectedVersion : Z) (now : Time) : result UploadError UploadRecord :=
  reject negb (expectedVersion =? UVersion u) with ErrUploadVersionConflict ;;
  let now := utc now in
  reject is_zero now || before now (UExpiresAt (terms u)) ||
         (negb (upload_state_is (UState u) UploadStateIssued) && negb (upload_state_is (UState u) UploadStateUploading)) with ErrUploadConflict ;;
  Ok (next_version u UploadStateExpired (Attempt u) None now (AcceptedAt u) (RejectionReason u)).

(** ** Obligations *)

Inductive ReconciliationState := ReconciliationPending | ReconciliationClaimed | ReconciliationRetained | ReconciliationDeleted |
  ReconciliationOther (raw : string).
#[export] Instance ReconciliationState_eq_dec : EqDecision ReconciliationState. Proof. solve_decision. Defined.
Definition obligation_is (a b : ReconciliationState) : bool := bool_decide (a = b).

Record ReconciliationRecord := mk_obligation {
  OTenantID : string; OUploadID : string; OEvidenceID : string; UploadAttempt : Z; OObject : ObjectStore.ObjectRecord; OState : ReconciliationState;
  OVersion : Z; OClaim : Z; AvailableAt : Time; OLease : option Time; OCreatedAt : Time; OUpdatedAt : Time; ResolvedAt : option Time }.
#[export] Instance ReconciliationRecord_eq_dec : EqDecision ReconciliationRecord. Proof. solve_decision. Defined.

Definition RestoreObjectReconciliation (o : ReconciliationRecord) : result UploadError ReconciliationRecord :=
  let o := mk_obligation (OTenantID o) (OUploadID o) (OEvidenceID o) (UploadAttempt o) (OObject o) (OState o) (OVersion o) (OClaim o)
             (utc (AvailableAt o)) (option_map utc (OLease o)) (utc (OCreatedAt o)) (utc (OUpdatedAt o)) (option_map utc (ResolvedAt o)) in
  let leased := match OLease o with Some _ => true | None => false end in
  let resolved := match ResolvedAt o with Some _ => true | None => false end in
  reject empty_string (OTenantID o) || empty_string (OUploadID o) || empty_string (OEvidenceID o) || (UploadAttempt o =? 0) ||
         (max_int32 <? UploadAttempt o) || (max_int32 <? OClaim o) || (OVersion o <? 1) || is_zero (OCreatedAt o) ||
         before (OUpdatedAt o) (OCreatedAt o) || before (AvailableAt o) (OCreatedAt o) with ErrReconciliationConflict ;;
  reject match ObjectStore.NewObject (OObject o) with Some _ => false | None => true end with ErrInvalid ;;
  match OState o with
  | ReconciliationPending => reject leased || resolved with ErrReconciliationConflict ;; Ok o
  | ReconciliationClaimed =>
      reject (OClaim o =? 0) || match OLease o with Some lease => negb (after lease (OUpdatedAt o)) | None => true end || resolved
        with ErrReconciliationConflict ;; Ok o
  | ReconciliationRetained | ReconciliationDeleted =>
      reject leased || match ResolvedAt o with Some t => negb (instant t =? instant (OUpdatedAt o)) | None => true end
        with ErrReconciliationConflict ;; Ok o
  | ReconciliationOther _ => Err ErrReconciliationConflict
  end.

Definition NewObjectReconciliationForObject (u : UploadRecord) (object : ObjectStore.ObjectRecord) (createdAt : Time)
  : result UploadError ReconciliationRecord :=
  match LeaseExpiresAt u with
  | None => Err ErrReconciliationConflict
  | Some lease =>
      reject negb (upload_state_is (UState u) UploadStateUploading) || (Attempt u =? 0) || empty_string (ObjectStore.Key object)
        with ErrReconciliationConflict ;;
      RestoreObjectReconciliation
        (mk_obligation (UTenantID (terms u)) (UploadID (terms u)) (UEvidenceID (terms u)) (Attempt u) object ReconciliationPending 1 0
           (if before lease createdAt then createdAt else lease) None createdAt createdAt None)
  end.
Definition NewObjectReconciliation (u : UploadRecord) (a : Record_) (createdAt : Time) : result UploadError ReconciliationRecord :=
  reject negb (String.eqb (ID a) (UEvidenceID (terms u))) with ErrReconciliationConflict ;;
  NewObjectReconciliationForObject u (Object_ (Content a)) createdAt.

Definition with_disposition (o : ReconciliationRecord) (state : ReconciliationState) (claim : Z) (available : Time) (lease : option Time) (now : Time)
    (resolved : option Time) : ReconciliationRecord :=
  mk_obligation (OTenantID o) (OUploadID o) (OEvidenceID o) (UploadAttempt o) (OObject o) state (wrap_int64 (OVersion o + 1)) claim available lease
    (OCreatedAt o) now resolved.

Definition ClaimForRecovery (o : ReconciliationRecord) (now : Time) (timeout : Z) : result UploadError ReconciliationRecord :=
  let now := utc now in
  reject is_zero now || (timeout <=? 0) || (15 * minute <? timeout) || (max_int32 <=? OClaim o) with ErrReconciliationConflict ;;
  let ready := obligation_is (OState o) ReconciliationPending && negb (before now (AvailableAt o)) in
  let expired := obligation_is (OState o) ReconciliationClaimed && match OLease o with Some lease => negb (before now lease) | None => false end in
  reject negb ready && negb expired with ErrReconciliationConflict ;;
  RestoreObjectReconciliation (with_disposition o ReconciliationClaimed (OClaim o + 1) (AvailableAt o) (Some (add now timeout)) now (ResolvedAt o)).

Definition Retry (o : ReconciliationRecord) (now : Time) (delay : Z) : result UploadError ReconciliationRecord :=
  let now := utc now in
  reject negb (obligation_is (OState o) ReconciliationClaimed) || is_zero now || (delay <=? 0) with ErrReconciliationConflict ;;
  RestoreObjectReconciliation (with_disposition o ReconciliationPending (OClaim o) (add now delay) None now (ResolvedAt o)).

Definition Resolve_ (o : ReconciliationRecord) (state : ReconciliationState) (now : Time) : result UploadError ReconciliationRecord :=
  let now := utc now in
  reject (negb (obligation_is (OState o) ReconciliationPending) && negb (obligation_is (OState o) ReconciliationClaimed)) ||
         (negb (obligation_is state ReconciliationRetained) && negb (obligation_is state ReconciliationDeleted)) || is_zero now
    with ErrReconciliationConflict ;;
  RestoreObjectReconciliation (with_disposition o state (OClaim o) (AvailableAt o) None now (Some now)).
End Uploads.
