(* ===== verification/UploadBody.v ===== *)
(** * The validated body of an upload

    [internal/evidence/upload_body.go]: the reader that checks the file signature of a
    claimed attempt before any plaintext leaves it, and its length and digest while
    the sealer pulls it.

    The source answers reads with chunks that it cuts to the size asked for, then
    with its last error, which may come with the last bytes.  [bufio.Reader] is
    translated from the standard library, with its buffer of sixteen bytes and its
    bound of a hundred empty reads.  Bytes are strings; SHA-256 is that of [Content]. *)

From S2P Require Import Prelude GoTime Content Evidence Upload.
From Stdlib Require Import Ascii.

Module UploadBody.
Import Uploads.

(** ** Sources and their buffer *)

Inductive ReadError := EOF | ErrNoProgress | Fault.
#[export] Instance ReadError_eq_dec : EqDecision ReadError. Proof. solve_decision. Defined.

Record Source := mk_source { chunks : list string; last_error : ReadError; error_with_data : bool }.
Definition with_chunks (s : Source) (l : list string) : Source := mk_source l (last_error s) (error_with_data s).

Fixpoint string_take (n : nat) (s : string) : string := match n, s with S n', String c rest => String c (string_take n' rest) | _, _ => EmptyString end.

Definition source_read (n : nat) (s : Source) : string * option ReadError * Source :=
  match chunks s with
  | [] => (EmptyString, Some (last_error s), s)
  | c :: rest =>
      let left_over := Crypto.string_drop n c in
      if empty_string left_over
      then (string_take n c, if error_with_data s && (llen rest =? 0) then Some (last_error s) else None, with_chunks s rest)
      else (string_take n c, None, with_chunks s (left_over :: rest))
  end.

Definition bufferSize : nat := 16.
Definition maxConsecutiveEmptyReads : nat := 100.

(** Unread bytes, and the error kept for later. *)
Record Buffered := mk_buffered { unread : string; kept : option ReadError; from : Source }.

Fixpoint fill (tries : nat) (b : Buffered) : Buffered :=
  match tries with
  | O => mk_buffered (unread b) (Some ErrNoProgress) (from b)
  | S tries' =>
      let '(data, err, s) := source_read (bufferSize - String.length (unread b)) (from b) in
      let b := mk_buffered (unread b +:+ data) (kept b) s in
      match err with
      | Some _ => mk_buffered (unread b) err s
      | None => if empty_string data then fill tries' b else b
      end
  end.

Fixpoint fill_to (fuel n : nat) (b : Buffered) : Buffered :=
  match fuel with
  | O => b
  | S fuel' => if Nat.ltb (String.length (unread b)) n && bool_decide (kept b = None) then fill_to fuel' n (fill maxConsecutiveEmptyReads b) else b
  end.

(** [Peek] of at most [bufferSize] bytes: a fill adds a byte or keeps an error, so [n]
    fills are enough. *)
Definition Peek (n : nat) (b : Buffered) : string * option ReadError * Buffered :=
  let b := fill_to n n b in
  if Nat.ltb (String.length (unread b)) n then (unread b, kept b, mk_buffered (unread b) None (from b))
  else (string_take n (unread b), None, b).

Definition buffered_read (n : nat) (b : Buffered) : string * option ReadError * Buffered :=
  if negb (empty_string (unread b)) then (string_take n (unread b), None, mk_buffered (Crypto.string_drop n (unread b)) (kept b) (from b))
  else
    match kept b with
    | Some e => (EmptyString, Some e, mk_buffered EmptyString None (from b))
    | None =>
        if Nat.leb bufferSize n then let '(data, err, s) := source_read n (from b) in (data, err, mk_buffered EmptyString None s)
        else
          let '(data, err, s) := source_read bufferSize (from b) in
          if empty_string data then (EmptyString, err, mk_buffered EmptyString None s)
          else (string_take n data, None, mk_buffered (Crypto.string_drop n data) err s)
    end.

(** ** The reader *)

Definition byte_string (bytes : list N) : string := String.string_of_list_ascii (map ascii_of_N bytes).
Definition jpegSignature : string := byte_string [255; 216; 255]%N.
Definition pngSignature : string := byte_string [137; 80; 78; 71; 13; 10; 26; 10]%N.
Definition signature_of (mediaType : string) : option string :=
  if String.eqb mediaType MediaTypeJPEG then Some jpegSignature else if String.eqb mediaType MediaTypePNG then Some pngSignature else None.

(** [digested] holds the bytes written to the digester. *)
Record UploadReader := mk_reader {
  source : Buffered; digested : string; expectedBytes : Z; expectedDigest : string; observedBytes : Z; validated : option (Z * string);
  terminal : option UploadError }.
Definition advanced (r : UploadReader) (b : Buffered) (data : string) (validated : option (Z * string)) (terminal : option UploadError) : UploadReader :=
  mk_reader b (digested r +:+ data) (expectedBytes r) (expectedDigest r) (observedBytes r + slen data) validated terminal.

Definition validateUploadSignature (b : Buffered) (mediaType : string) : result UploadError Buffered :=
  match signature_of mediaType with
  | None => Err ErrUploadSignature
  | Some signature =>
      let '(observed, err, b') := Peek (String.length signature) b in
      match err with
      | Some EOF => Err ErrUploadSignature
      | Some _ => Err ErrBodyRead
      | None => reject negb (String.eqb observed signature) with ErrUploadSignature ;; Ok b'
      end
  end.

Definition NewUploadReader (u : UploadRecord) (s : Source) : result UploadError UploadReader :=
  reject negb (upload_state_is (UState u) UploadStateUploading) || (ExpectedBytes (terms u) <? 1) with ErrUploadConflict ;;
  let? b := validateUploadSignature (mk_buffered EmptyString None s) (UMediaType (terms u)) in
  Ok (mk_reader b EmptyString (ExpectedBytes (terms u)) (ExpectedDigest (terms u)) 0 None None).

Section Reading.
Context `{ContentLibraries}.

(** The body must end here and have the expected digest. *)
Definition finalise (r : UploadReader) : Buffered * result UploadError (Z * string) :=
  let '(extra, err, b) := buffered_read 1 (source r) in
  (b,
   reject negb (empty_string extra) with ErrUploadBodyLength ;;
   match err with
   | Some EOF =>
       let digest := Sum (digested r) in
       reject negb (String.eqb digest (expectedDigest r)) with ErrUploadBodyDigest ;;
       Ok (observedBytes r, digest)
   | _ => Err ErrBodyRead
   end).

Inductive ReadAnswer := Bytes (data : string) | Ended | Failed (data : string) (e : UploadError).
Definition answer_bytes (a : ReadAnswer) : string := match a with Bytes data | Failed data _ => data | Ended => EmptyString end.

Definition Read (size : nat) (r : UploadReader) : ReadAnswer * UploadReader :=
  if Nat.eqb size 0 then (Bytes EmptyString, r)
  else
    match terminal r, validated r with
    | Some e, _ => (Failed EmptyString e, r)
    | None, Some _ => (Ended, r)
    | None, None =>
        let remaining := expectedBytes r - observedBytes r in
        let '(data, err, b) := buffered_read (Nat.min size (Z.to_nat remaining)) (source r) in
        let failing e := (Failed data e, advanced r b data None (Some e)) in
        match err with
        | Some Fault | Some ErrNoProgress => failing ErrBodyRead
        | _ =>
            if observedBytes r + slen data <? expectedBytes r then
              if bool_decide (err = Some EOF) then failing ErrUploadBodyLength
              else if empty_string data then failing ErrBodyRead
              else (Bytes data, advanced r b data None None)
            else
              match finalise (advanced r b data None None) with
              | (b', Err e) => (Failed data e, advanced r b' data None (Some e))
              | (b', Ok facts) => (Bytes data, advanced r b' data (Some facts) None)
              end
        end
    end.

Definition Result (r : UploadReader) : result UploadError (Z * string) :=
  match terminal r, validated r with
  | Some e, _ => Err e
  | None, Some facts => Ok facts
  | None, None => Err ErrUploadBodyIncomplete
  end.

(** A consumer that reads into buffers of these sizes, and what it was given. *)
Fixpoint consume (sizes : list nat) (r : UploadReader) : string * UploadReader :=
  match sizes with
  | [] => (EmptyString, r)
  | size :: rest => let '(a, r') := Read size r in let '(data, r'') := consume rest r' in (answer_bytes a +:+ data, r'')
  end.
End Reading.
End UploadBody.

(** ** The reader is the check of the whole body *)
Module UploadBodySpec.
Import Uploads UploadBody.

(** *** Strings *)

Lemma append_cons c s t : String c s +:+ t = String c (s +:+ t).
Proof. done. Qed.
Lemma append_empty s : "" +:+ s = s.
Proof. done. Qed.
Lemma take_drop_string n s : string_take n s +:+ Crypto.string_drop n s = s.
Proof. revert s. induction n as [|n IH]; intros [|c s]; cbn; [done..|]. rewrite append_cons. f_equal. apply IH. Qed.
Lemma length_string_take n s : String.length (string_take n s) = Nat.min n (String.length s).
Proof. revert s. induction n as [|n IH]; intros [|c s]; cbn; [done..|]. by rewrite IH. Qed.
Lemma length_string_drop n s : String.length (Crypto.string_drop n s) = (String.length s - n)%nat.
Proof. revert s. induction n as [|n IH]; intros [|c s]; cbn; [done..|]. apply IH. Qed.
Lemma length_append s t : String.length (s +:+ t) = (String.length s + String.length t)%nat.
Proof. induction s as [|c s IH]; [done|]. rewrite append_cons. cbn. by rewrite IH. Qed.
Lemma append_nil_r s : s +:+ "" = s.
Proof. induction s as [|c s IH]; [done|]. by rewrite append_cons, IH. Qed.
Lemma body_append_assoc s t u : (s +:+ t) +:+ u = s +:+ (t +:+ u).
Proof. induction s as [|c s IH]; [done|]. by rewrite !append_cons, IH. Qed.
Lemma empty_length s : s = "" <-> String.length s = 0%nat.
Proof. by destruct s. Qed.
Lemma string_take_app n s t : (n <= String.length s)%nat -> string_take n (s +:+ t) = string_take n s.
Proof. revert s. induction n as [|n IH]; intros [|c s] Hn; rewrite ?append_cons; cbn in *; try done; [lia|]. f_equal. apply IH. lia. Qed.
Lemma string_take_all s : string_take (String.length s) s = s.
Proof. induction s as [|c s IH]; cbn; [done|]. by rewrite IH. Qed.
Lemma append_cancel s t u : s +:+ t = s +:+ u -> t = u.
Proof. induction s as [|c s IH]; [done|]. rewrite !append_cons. intros [= He]. by apply IH. Qed.
Lemma empty_string_eq s : empty_string s = true <-> s = "".
Proof. apply String.eqb_eq. Qed.
Lemma slen_length s : slen s = Z.of_nat (String.length s).
Proof. done. Qed.

(** *** Sources that end *)

Fixpoint joined (l : list string) : string := match l with [] => "" | c :: rest => c +:+ joined rest end.

(** A source whose chunks carry bytes and that ends with [EOF]. *)
Definition plain_source (s : Source) : Prop := (forall c, c ∈ chunks s -> c <> "") /\ last_error s = EOF.
Definition content (b : Buffered) : string := unread b +:+ joined (chunks (from b)).
Record clean (b : Buffered) : Prop := mk_clean {
  clean_source : plain_source (from b);
  clean_kept : kept b = None \/ (kept b = Some EOF /\ chunks (from b) = []);
}.

Lemma source_read_ok n s data err s' : (0 < n)%nat -> plain_source s -> source_read n s = (data, err, s') ->
  plain_source s' /\ joined (chunks s) = data +:+ joined (chunks s') /\ (String.length data <= n)%nat /\
  (err = None \/ (err = Some EOF /\ chunks s' = [])) /\ (data = "" -> chunks s = [] /\ err = Some EOF).
Proof.
  intros Hn [Hc He] Hr. unfold source_read in Hr. destruct (chunks s) as [|c rest] eqn:Hs.
  - injection Hr as <- <- <-. rewrite Hs, He. split; [by split; rewrite ?Hs|]. split; [done|]. split; [cbn; lia|]. split; [by right|done].
  - assert (Hne : c <> "") by (apply Hc; left).
    assert (Hdata : string_take n c <> "") by (rewrite empty_length, length_string_take; rewrite empty_length in Hne; lia).
    assert (Hlen : (String.length (string_take n c) <= n)%nat) by (rewrite length_string_take; lia).
    destruct (empty_string (Crypto.string_drop n c)) eqn:Hd; injection Hr as <- <- <-; unfold with_chunks; cbn [chunks last_error].
    + apply empty_string_eq in Hd. split; [split; [intros x Hx; apply Hc; by right|done]|]. split; [|split; [done|split; [|done]]].
      * cbn [joined]. rewrite <- (take_drop_string n c) at 1. by rewrite Hd, append_nil_r.
      * destruct (error_with_data s && (llen rest =? 0)) eqn:Hw; [right|by left]. apply andb_true_iff in Hw as [_ Hw]. apply Z.eqb_eq, llen_nil_inv in Hw. by rewrite He.
    + split; [split; [intros x [->|Hx]%elem_of_cons; [intros Hx; by rewrite Hx in Hd|apply Hc; by right]|done]|].
      split; [cbn [joined]; by rewrite <- body_append_assoc, take_drop_string|]. split; [done|]. split; [by left|done].
Qed.

Lemma buffered_read_ok n b data err b' : (0 < n)%nat -> clean b -> buffered_read n b = (data, err, b') ->
  clean b' /\ content b = data +:+ content b' /\ (String.length data <= n)%nat /\
  (err = None \/ (err = Some EOF /\ content b' = "")) /\ (data = "" -> content b = "" /\ err = Some EOF).
Proof.
  intros Hn [Hs Hk] Hr. unfold buffered_read in Hr. destruct (empty_string (unread b)) eqn:Hu; cbn [negb] in Hr.
  - apply empty_string_eq in Hu. unfold content. rewrite Hu. rewrite ?append_empty. destruct (kept b) as [e|] eqn:Hkept.
    + injection Hr as <- <- <-. destruct Hk as [Hk|[[= ->] Hc]]; [done|]. cbn. rewrite Hc. split; [split; cbn; [done|by left]|].
      split; [done|]. split; [lia|]. split; [by right|done].
    + destruct (Nat.leb bufferSize n) eqn:Hle.
      * destruct (source_read n (from b)) as [[d e] s] eqn:Hread. injection Hr as <- <- <-.
        destruct (source_read_ok n (from b) d e s Hn Hs Hread) as (Hs' & Hj & Hlen & He & Hd). split; [split; cbn; [done|by left]|].
        cbn [unread from]; rewrite ?append_empty. split; [done|]. split; [done|]. split; [destruct He as [->|[-> ->]]; [by left|by right]|].
        intros Hdata. destruct (Hd Hdata) as [-> ->]. done.
      * apply Nat.leb_gt in Hle. destruct (source_read bufferSize (from b)) as [[d e] s] eqn:Hread.
        destruct (source_read_ok bufferSize (from b) d e s ltac:(unfold bufferSize; lia) Hs Hread) as (Hs' & Hj & Hlen & He & Hd).
        destruct (empty_string d) eqn:Hde; injection Hr as <- <- <-.
        -- apply empty_string_eq in Hde. destruct (Hd Hde) as [Hc ->]. split; [split; cbn; [done|by left]|]. cbn [unread from]; rewrite ?append_empty. rewrite Hj, Hde. rewrite ?append_empty.
           rewrite Hc, Hde, append_empty in Hj. cbn [joined] in Hj. rewrite <- Hj. split; [done|]. split; [apply Nat.le_0_l|]. split; [by right|done].
        -- split; [split; cbn; [done|destruct He as [->|[-> ->]]; [by left|by right]]|]. cbn [unread from].
           split; [by rewrite <- body_append_assoc, take_drop_string|]. split; [rewrite length_string_take; lia|]. split; [by left|].
           intros Ht. apply empty_length in Ht. rewrite length_string_take in Ht. assert (Hz : d = "") by (apply empty_length; lia). by rewrite Hz in Hde.
  - injection Hr as <- <- <-. split; [by split|]. unfold content. cbn [unread from]. split; [by rewrite <- body_append_assoc, take_drop_string|].
    split; [rewrite length_string_take; lia|]. split; [by left|]. intros Ht. apply empty_length in Ht. rewrite length_string_take in Ht.
    assert (Hz : unread b = "") by (apply empty_length; lia). by rewrite Hz in Hu.
Qed.

(** *** The signature *)

Lemma fill_ok b : clean b -> kept b = None -> (String.length (unread b) < bufferSize)%nat ->
  clean (fill maxConsecutiveEmptyReads b) /\ content (fill maxConsecutiveEmptyReads b) = content b /\
  ((String.length (unread b) < String.length (unread (fill maxConsecutiveEmptyReads b)))%nat \/ kept (fill maxConsecutiveEmptyReads b) = Some EOF).
Proof.
  intros [Hs _] Hk Hroom. change maxConsecutiveEmptyReads with (S 99). generalize 99%nat as tries. intros tries. cbn [fill]. destruct (source_read _ (from b)) as [[d e] s] eqn:Hread.
  destruct (source_read_ok (bufferSize - String.length (unread b)) (from b) d e s ltac:(lia) Hs Hread) as (Hs' & Hj & _ & He & Hd).
  assert (Hc : content b = (unread b +:+ d) +:+ joined (chunks s)) by (unfold content; by rewrite Hj, body_append_assoc). rewrite Hk. cbn [unread].
  destruct He as [->|[-> Hnil]].
  - destruct (empty_string d) eqn:Hde; [by destruct (Hd (proj1 (empty_string_eq d) Hde))|]. split; [split; cbn; [done|by left]|]. split; [done|]. left. cbn [unread].
    rewrite length_append. assert (Hn : String.length d <> 0%nat) by (intros Hz; apply empty_length in Hz; by rewrite Hz in Hde). lia.
  - split; [split; cbn; [done|by right]|]. split; [done|]. by right.
Qed.

Lemma fill_to_ok fuel n : forall b, (n <= bufferSize)%nat -> clean b -> (n <= String.length (unread b) + fuel)%nat ->
  clean (fill_to fuel n b) /\ content (fill_to fuel n b) = content b /\
  ((n <= String.length (unread (fill_to fuel n b)))%nat \/ kept (fill_to fuel n b) = Some EOF).
Proof.
  induction fuel as [|fuel IH]; intros b Hn Hb Hfuel; cbn [fill_to]; [split; [done|]; split; [done|]; left; lia|].
  destruct (Nat.ltb (String.length (unread b)) n) eqn:Hlt; cbn [andb]; [|apply Nat.ltb_ge in Hlt; split; [done|]; split; [done|]; by left].
  apply Nat.ltb_lt in Hlt. destruct (bool_decide (kept b = None)) eqn:Hk.
  - apply bool_decide_eq_true in Hk. destruct (fill_ok b Hb Hk ltac:(lia)) as (Hclean & Hc & Hp).
    destruct Hp as [Hp|Hp].
    + destruct (IH (fill maxConsecutiveEmptyReads b) Hn Hclean ltac:(lia)) as (H1 & H2 & H3). split; [done|]. by rewrite H2.
    + assert (Hstop : fill_to fuel n (fill maxConsecutiveEmptyReads b) = fill maxConsecutiveEmptyReads b).
      { destruct fuel; cbn [fill_to]; [done|]. by rewrite Hp, andb_false_r. }
      rewrite Hstop. split; [done|]. split; [done|]. by right.
  - apply bool_decide_eq_false in Hk. split; [done|]. split; [done|]. right. destruct (clean_kept b Hb) as [Hk'|[Hk' _]]; done.
Qed.

Definition begins_with (signature body : string) : Prop := exists rest, body = signature +:+ rest.

Lemma begins_take signature body : begins_with signature body <-> (String.length signature <= String.length body)%nat /\ string_take (String.length signature) body = signature.
Proof.
  split.
  - intros [rest ->]. split; [rewrite length_append; lia|]. rewrite string_take_app by lia. apply string_take_all.
  - intros [_ Ht]. exists (Crypto.string_drop (String.length signature) body). by rewrite <- Ht at 1; rewrite take_drop_string.
Qed.

Lemma signature_short mediaType signature : signature_of mediaType = Some signature -> (String.length signature <= bufferSize)%nat.
Proof.
  unfold signature_of. destruct (String.eqb mediaType MediaTypeJPEG); [|destruct (String.eqb mediaType MediaTypePNG); [|done]]; intros [= <-];
    apply Nat.leb_le; reflexivity.
Qed.

Lemma validateUploadSignature_ok b mediaType signature : clean b -> signature_of mediaType = Some signature ->
  (begins_with signature (content b) -> exists b', validateUploadSignature b mediaType = Ok b' /\ clean b' /\ content b' = content b) /\
  (~ begins_with signature (content b) -> validateUploadSignature b mediaType = Err ErrUploadSignature).
Proof.
  intros Hb Hsig. unfold validateUploadSignature. rewrite Hsig. unfold Peek. pose proof (signature_short _ _ Hsig) as Hshort.
  destruct (fill_to_ok (String.length signature) (String.length signature) b Hshort Hb ltac:(lia)) as (Hclean & Hc & Hend).
  set (f := fill_to _ _ b) in *. clearbody f. rewrite begins_take, <- Hc.
  destruct (Nat.ltb (String.length (unread f)) (String.length signature)) eqn:Hlt.
  - apply Nat.ltb_lt in Hlt. destruct Hend as [Hend|Hend]; [lia|]. rewrite Hend. destruct (clean_kept f Hclean) as [Hn|[_ Hn]]; [congruence|].
    unfold content. rewrite Hn. cbn [joined]. rewrite append_nil_r. split; [intros [Hle _]; lia|done].
  - apply Nat.ltb_ge in Hlt. assert (Htake : string_take (String.length signature) (content f) = string_take (String.length signature) (unread f)) by (unfold content; by rewrite string_take_app).
    rewrite Htake. destruct (String.eqb_spec (string_take (String.length signature) (unread f)) signature) as [He|He]; cbn [negb].
    + split; [intros _; by exists f|]. intros Hno. destruct Hno. split; [|done]. unfold content. rewrite length_append. lia.
    + split; [by intros [_ Hsame]|done].
Qed.

(** *** Reading *)
Section Whole.
Context `{ContentLibraries}.

(** What a reader of [body] knows after any reads. *)
Record reads (body : string) (r : UploadReader) : Prop := mk_reads {
  reads_length : observedBytes r = slen (digested r);
  reads_bound : slen (digested r) <= expectedBytes r;
  reads_more : terminal r = None -> validated r = None -> clean (source r) /\ body = digested r +:+ content (source r) /\ slen (digested r) < expectedBytes r;
  reads_done : forall facts, terminal r = None -> validated r = Some facts ->
    body = digested r /\ slen body = expectedBytes r /\ Sum body = expectedDigest r /\ facts = (slen body, Sum body);
  reads_failed : forall e, terminal r = Some e -> begins_with (digested r) body /\
    ((e = ErrUploadBodyLength /\ slen body <> expectedBytes r) \/
     (e = ErrUploadBodyDigest /\ slen body = expectedBytes r /\ body = digested r /\ Sum body <> expectedDigest r));
}.

Lemma advanced_fields r b data v t : expectedBytes (advanced r b data v t) = expectedBytes r /\ expectedDigest (advanced r b data v t) = expectedDigest r /\
  digested (advanced r b data v t) = digested r +:+ data /\ observedBytes (advanced r b data v t) = observedBytes r + slen data /\
  source (advanced r b data v t) = b /\ validated (advanced r b data v t) = v /\ terminal (advanced r b data v t) = t.
Proof. done. Qed.

Lemma finalise_ok body r b' res : clean (source r) -> body = digested r +:+ content (source r) -> observedBytes r = slen (digested r) ->
  slen (digested r) = expectedBytes r -> finalise r = (b', res) ->
  match res with
  | Ok facts => body = digested r /\ slen body = expectedBytes r /\ Sum body = expectedDigest r /\ facts = (slen body, Sum body)
  | Err e => (e = ErrUploadBodyLength /\ slen body <> expectedBytes r) \/
             (e = ErrUploadBodyDigest /\ slen body = expectedBytes r /\ body = digested r /\ Sum body <> expectedDigest r)
  end.
Proof.
  intros Hclean Hbody Hobs Hlen Hf. unfold finalise in Hf. destruct (buffered_read 1 (source r)) as [[extra err] b] eqn:Hread.
  destruct (buffered_read_ok 1 (source r) extra err b ltac:(lia) Hclean Hread) as (_ & Hc & _ & _ & Hempty). apply pair_equal_spec in Hf as [_ <-].
  destruct (empty_string extra) eqn:He; cbn [negb].
  - apply empty_string_eq in He. destruct (Hempty He) as [Hnone ->]. rewrite Hnone, append_nil_r in Hbody. subst body.
    destruct (String.eqb_spec (Sum (digested r)) (expectedDigest r)) as [Hd|Hd]; cbn [negb]; [by rewrite Hobs|right; split; [done|]; split; [exact Hlen|]; by split].
  - left. split; [done|]. rewrite Hbody, slen_app, Hc, slen_app. assert (Hn : String.length extra <> 0%nat) by (intros Hz; apply empty_length in Hz; by rewrite Hz in He).
    unfold slen. unfold slen in Hlen. lia.
Qed.
Lemma begins_refl s : begins_with s s.
Proof. exists "". by rewrite append_nil_r. Qed.
Lemma begins_app s t : begins_with s (s +:+ t).
Proof. by exists t. Qed.

Lemma slen_zero s : slen s = 0 <-> s = "".
Proof. rewrite empty_length. unfold slen. lia. Qed.

Lemma Read_ok body size r a r' : reads body r -> Read size r = (a, r') ->
  reads body r' /\ expectedBytes r' = expectedBytes r /\ expectedDigest r' = expectedDigest r /\ digested r' = digested r +:+ answer_bytes a.
Proof.
  intros Hreads Hr. pose proof Hreads as [Hobs Hbound Hmore Hdone Hfailed]. unfold Read in Hr.
  destruct (Nat.eqb size 0) eqn:Hsize; [injection Hr as <- <-; cbn [answer_bytes]; rewrite append_nil_r; by split|].
  destruct (terminal r) as [e|] eqn:Ht; [injection Hr as <- <-; cbn [answer_bytes]; rewrite append_nil_r; by split|].
  destruct (validated r) as [facts|] eqn:Hv; [injection Hr as <- <-; cbn [answer_bytes]; rewrite append_nil_r; by split|].
  destruct (Hmore eq_refl eq_refl) as (Hclean & Hbody & Hlt). apply Nat.eqb_neq in Hsize. revert Hr.
  destruct (buffered_read _ (source r)) as [[data err] b] eqn:Hread. intros Hr.
  destruct (buffered_read_ok (Nat.min size (Z.to_nat (expectedBytes r - observedBytes r))) (source r) data err b ltac:(lia) Hclean Hread) as (Hb & Hc & Hsz & He & Hempty).
  assert (Hsz' : slen (digested r) + slen data <= expectedBytes r) by (unfold slen at 2; lia).
  assert (Hbody' : body = (digested r +:+ data) +:+ content b) by (by rewrite Hbody, Hc, body_append_assoc).
  assert (Herr : err = None \/ err = Some EOF) by (destruct He as [->|[-> _]]; auto).
  assert (Hr' : (if observedBytes r + slen data <? expectedBytes r
                 then if bool_decide (err = Some EOF) then (Failed data ErrUploadBodyLength, advanced r b data None (Some ErrUploadBodyLength))
                      else if empty_string data then (Failed data ErrBodyRead, advanced r b data None (Some ErrBodyRead))
                      else (Bytes data, advanced r b data None None)
                 else match finalise (advanced r b data None None) with
                      | (b', Err e) => (Failed data e, advanced r b' data None (Some e))
                      | (b', Ok facts) => (Bytes data, advanced r b' data (Some facts) None)
                      end) = (a, r')) by (destruct Herr as [->| ->]; exact Hr).
  clear Hr. rewrite Hobs in Hr'. destruct (slen (digested r) + slen data <? expectedBytes r) eqn:Hshort.
  - apply Z.ltb_lt in Hshort. destruct (bool_decide (err = Some EOF)) eqn:Heof.
    + apply bool_decide_eq_true in Heof. injection Hr' as <- <-. destruct He as [->|[_ Hnone]]; [done|]. split; [|done].
      rewrite Hnone, append_nil_r in Hbody'. split; cbn [advanced observedBytes digested expectedBytes terminal validated]; rewrite ?slen_app; try (rewrite Hobs; lia); try lia; try done.
      intros e [= <-]. split; [rewrite Hbody'; apply begins_refl|]. left. split; [done|]. rewrite Hbody', slen_app. lia.
    + apply bool_decide_eq_false in Heof. destruct (empty_string data) eqn:Hde; [by destruct (Hempty (proj1 (empty_string_eq data) Hde))|].
      injection Hr' as <- <-. split; [|done]. split; cbn [advanced observedBytes digested expectedBytes terminal validated source]; rewrite ?slen_app; try lia; try done.
  - apply Z.ltb_ge in Hshort. revert Hr'. destruct (finalise _) as [b' res] eqn:Hf. intros Hr'.
    pose proof (finalise_ok body (advanced r b data None None) b' res Hb Hbody' ltac:(cbn; rewrite slen_app; lia) ltac:(cbn; rewrite slen_app; lia) Hf) as Hres.
    destruct res as [facts|e]; injection Hr' as <- <-; (split; [|done]).
    + split; cbn [advanced observedBytes digested expectedBytes expectedDigest terminal validated source] in *; rewrite ?slen_app; try lia; try done. by intros facts' _ [= <-].
    + split; cbn [advanced observedBytes digested expectedBytes expectedDigest terminal validated source] in *; rewrite ?slen_app; try lia; try done.
      intros e' [= <-]. split; [rewrite Hbody'; apply begins_app|exact Hres].
Qed.

Definition finished (r : UploadReader) : Prop := terminal r <> None \/ validated r <> None.

(** Every read of at least one byte delivers one or finishes. *)
Lemma Read_progress body size r a r' : reads body r -> (0 < size)%nat -> Read size r = (a, r') ->
  finished r' \/ slen (digested r) + 1 <= slen (digested r').
Proof.
  intros Hreads Hpos Hr. destruct (Read_ok body size r a r' Hreads Hr) as (_ & _ & _ & Hd). unfold finished. unfold Read in Hr.
  rewrite (proj2 (Nat.eqb_neq size 0)) in Hr by lia. destruct (terminal r) as [e|] eqn:Ht; [injection Hr as _ <-; left; left; congruence|].
  destruct (validated r) as [facts|] eqn:Hv; [injection Hr as _ <-; left; right; congruence|].
  destruct (buffered_read _ _) as [[data err] b]. destruct err as [[]|]; cbn [bool_decide] in Hr;
    try (injection Hr as _ <-; left; left; discriminate).
  all: destruct (_ <? _); [|destruct (finalise _) as [b' [facts|e]]; injection Hr as _ <-; left; [right|left]; discriminate].
  - injection Hr as _ <-. left. left. discriminate.
  - destruct (empty_string data) eqn:He; injection Hr as <- <-; [left; left; discriminate|]. right. rewrite Hd, slen_app. cbn [answer_bytes].
    assert (Hn : slen data <> 0) by (intros Hz%slen_zero; by rewrite Hz in He). pose proof (slen_nonneg data). lia.
Qed.

Lemma finished_stays size r a r' : finished r -> Read size r = (a, r') -> r' = r.
Proof.
  intros Hf Hr. unfold Read in Hr. destruct (Nat.eqb size 0); [by injection Hr as _ <-|]. destruct (terminal r) eqn:Ht; [by injection Hr as _ <-|].
  destruct (validated r) eqn:Hv; [by injection Hr as _ <-|]. by destruct Hf.
Qed.

Lemma consume_ok body sizes : forall r data r', reads body r -> consume sizes r = (data, r') ->
  reads body r' /\ expectedBytes r' = expectedBytes r /\ expectedDigest r' = expectedDigest r /\ digested r' = digested r +:+ data.
Proof.
  induction sizes as [|size sizes IH]; intros r data r' Hr Hc; cbn [consume] in Hc; [injection Hc as <- <-; by rewrite append_nil_r|].
  destruct (Read size r) as [a r1] eqn:Hread. destruct (consume sizes r1) as [rest r2] eqn:Hrest. injection Hc as <- <-.
  destruct (Read_ok body size r a r1 Hr Hread) as (H1 & He1 & Hd1 & Hg1). destruct (IH r1 rest r2 H1 Hrest) as (H2 & He2 & Hd2 & Hg2).
  rewrite He2, Hd2, Hg2, Hg1, body_append_assoc. done.
Qed.

Lemma consume_finishes body sizes : forall r data r', reads body r -> (forall n, n ∈ sizes -> (0 < n)%nat) ->
  (finished r \/ expectedBytes r <= slen (digested r) + llen sizes) -> consume sizes r = (data, r') -> finished r'.
Proof.
  induction sizes as [|size sizes IH]; intros r data r' Hr Hpos Hend Hc; cbn [consume] in Hc.
  - injection Hc as _ <-. destruct Hend as [Hf|Hle]; [done|]. unfold finished. destruct (terminal r) as [e|] eqn:Ht; [by left|]. destruct (validated r) as [v|] eqn:Hv; [by right|].
    destruct (reads_more body r Hr Ht Hv) as (_ & _ & Hlt). change (llen []) with 0 in Hle. lia.
  - destruct (Read size r) as [a r1] eqn:Hread. destruct (consume sizes r1) as [rest r2] eqn:Hrest. injection Hc as _ <-.
    destruct (Read_ok body size r a r1 Hr Hread) as (H1 & He1 & _ & _).
    refine (IH r1 rest r2 H1 (fun n Hn => Hpos n ltac:(by right)) _ Hrest). destruct Hend as [Hf|Hle].
    + left. by rewrite (finished_stays size r a r1 Hf Hread).
    + destruct (Read_progress body size r a r1 Hr (Hpos size ltac:(left)) Hread) as [Hf|Hp]; [by left|right]. rewrite He1. unfold llen in *. cbn [length] in Hle. lia.
Qed.

Lemma fresh_reads u b : 1 <= ExpectedBytes (terms u) -> clean b ->
  reads (content b) (mk_reader b "" (ExpectedBytes (terms u)) (ExpectedDigest (terms u)) 0 None None).
Proof.
  intros He Hb. split; cbn [digested expectedBytes terminal validated source]; change (slen "") with 0; try done; [lia|]. intros _ _. split; [done|]. split; [done|lia].
Qed.

(** C30: the upload reader is the check of the whole body: for a claimed attempt and any
    source that delivers the body in non-empty chunks and then ends, a reader is
    opened exactly when the body begins with the signature of its media type; however
    the consumer cuts its reads, it is given a prefix of the body of at most the
    intended length; the reader vouches for the body only when it delivered all of
    it and its length and digest are those intended, reports a wrong length or a
    wrong digest only when they are wrong, and as many non-empty reads as there are
    intended bytes decide. *)
Theorem upload_reader_checks_whole_body (u : UploadRecord) (s : Source) (signature body : string)
    (Hu : UState u = UploadStateUploading) (He : 1 <= ExpectedBytes (terms u)) (Hsig : signature_of (UMediaType (terms u)) = Some signature)
    (Hs : plain_source s) (Hbody : joined (chunks s) = body) :
  (~ begins_with signature body -> NewUploadReader u s = Err ErrUploadSignature) /\
  (begins_with signature body -> exists r, NewUploadReader u s = Ok r /\ forall sizes data r', consume sizes r = (data, r') ->
     begins_with data body /\ slen data <= ExpectedBytes (terms u) /\
     match Result r' with
     | Ok facts => data = body /\ slen body = ExpectedBytes (terms u) /\ Sum body = ExpectedDigest (terms u) /\ facts = (slen body, Sum body)
     | Err e => (e = ErrUploadBodyIncomplete /\ slen data < ExpectedBytes (terms u)) \/
                (e = ErrUploadBodyLength /\ slen body <> ExpectedBytes (terms u)) \/
                (e = ErrUploadBodyDigest /\ slen body = ExpectedBytes (terms u) /\ Sum body <> ExpectedDigest (terms u))
     end /\
     ((forall n, n ∈ sizes -> (0 < n)%nat) -> ExpectedBytes (terms u) <= llen sizes -> Result r' <> Err ErrUploadBodyIncomplete)).
Proof.
  set (b0 := mk_buffered "" None s). assert (Hclean : clean b0) by (split; [done|by left]).
  assert (Hcontent : content b0 = body) by (unfold content, b0; cbn [unread from]; by rewrite append_empty).
  destruct (validateUploadSignature_ok b0 (UMediaType (terms u)) signature Hclean Hsig) as [Hyes Hno]. rewrite Hcontent in Hyes, Hno.
  unfold NewUploadReader. unfold upload_state_is. rewrite Hu, bool_decide_eq_true_2 by done. rewrite (proj2 (Z.ltb_ge _ _) He). cbn [negb orb]. fold b0. split.
  - intros Hn. by rewrite (Hno Hn).
  - intros Hb. destruct (Hyes Hb) as (b & -> & Hbclean & Hbcontent). cbn [rbind]. eexists. split; [reflexivity|]. intros sizes data r' Hc.
    pose proof (fresh_reads u b He Hbclean) as Hfresh. rewrite Hbcontent in Hfresh.
    destruct (consume_ok body sizes _ data r' Hfresh Hc) as (Hr' & Hexp & Hdig & Hgot). cbn [expectedBytes expectedDigest digested] in Hexp, Hdig, Hgot. rewrite append_empty in Hgot.
    subst data. split; [|split; [rewrite <- Hexp; apply Hr'|split]].
    + destruct (terminal r') as [e|] eqn:Ht; [by apply (reads_failed body r' Hr' e)|]. destruct (validated r') as [v|] eqn:Hv.
      * destruct (reads_done body r' Hr' v Ht Hv) as (<- & _). apply begins_refl.
      * destruct (reads_more body r' Hr' Ht Hv) as (_ & -> & _). apply begins_app.
    + unfold Result. rewrite <- Hexp, <- Hdig. destruct (terminal r') as [e|] eqn:Ht.
      * destruct (reads_failed body r' Hr' e Ht) as [_ [?|(? & ? & _ & ?)]]; right; [left|right]; done.
      * destruct (validated r') as [v|] eqn:Hv; [by destruct (reads_done body r' Hr' v Ht Hv) as (<- & ?)|]. left. split; [done|]. by apply (reads_more body r' Hr').
    + intros Hpos Hlen. assert (Hf : finished r') by (refine (consume_finishes body sizes _ _ r' Hfresh Hpos _ Hc); right; cbn [expectedBytes digested]; change (slen "") with 0; lia).
      unfold Result. destruct (terminal r') as [e|] eqn:Ht.
      * destruct (reads_failed body r' Hr' e Ht) as [_ [[-> _]|[-> _]]]; discriminate.
      * destruct (validated r') as [v|] eqn:Hv; [discriminate|]. by destruct Hf.
Qed.
End Whole.

(** *** A small photograph *)
Module UploadBodyWitness.
#[local] Instance content_libraries : ContentLibraries :=
  { content_sha256 := fun s => s; marshal_document := fun _ => None; parse_media_type := fun s => Some s }.

Definition photograph : string := jpegSignature +:+ "abc".
Definition claimed_terms : Terms :=
  mk_terms "upl" "ten" "ctk" "sub" "ver" "evd" "aut" "ack" "prf" 1 "d" (mk_reference 1 1 "r") "selfie" "p" "t" "a" "m" "" [] ContentEncryptionPurpose
    [MediaTypeJPEG] 10 6 (Sum photograph) MediaTypeJPEG "eu.west" "retention.short" minute (mk_time 1 true) (mk_time 2 true).
Definition claimed : UploadRecord := mk_upload claimed_terms UploadStateUploading 2 1 (Some (mk_time 2 true)) (mk_time 1 true) None "" None.
Definition two_chunks : Source := mk_source [jpegSignature +:+ "a"; "bc"] EOF true.

Lemma upload_reader_checks_whole_body_witness : exists r data r',
  NewUploadReader claimed two_chunks = Ok r /\ consume [4; 4; 4; 4; 4; 4]%nat r = (data, r') /\ Result r' <> Err ErrUploadBodyIncomplete.
Proof.
  assert (H1 : UState claimed = UploadStateUploading) by reflexivity.
  assert (H2 : 1 <= ExpectedBytes (terms claimed)) by (cbn; lia).
  assert (H3 : signature_of (UMediaType (terms claimed)) = Some jpegSignature) by reflexivity.
  assert (H4 : plain_source two_chunks) by (split; [intros c [->|[->|[]%elem_of_nil]%elem_of_cons]%elem_of_cons; discriminate|reflexivity]).
  assert (H5 : joined (chunks two_chunks) = photograph) by reflexivity.
  destruct (upload_reader_checks_whole_body claimed two_chunks jpegSignature photograph H1 H2 H3 H4 H5) as [_ Hopen].
  destruct (Hopen ltac:(exists "abc"; reflexivity)) as (r & Hr & Hall). exists r. destruct (consume [4; 4; 4; 4; 4; 4]%nat r) as [data r'] eqn:Hc. exists data, r'.
  split; [exact Hr|]. split; [reflexivity|]. destruct (Hall _ _ _ Hc) as (_ & _ & _ & Hend). apply Hend; [|vm_compute; discriminate].
  intros n Hn. repeat (apply elem_of_cons in Hn as [->|Hn]; [lia|]). by apply not_elem_of_nil in Hn.
Defined.

(** The reads of the sealer that deliver the photograph and vouch for it. *)
Example photograph_read :
  match NewUploadReader claimed two_chunks with
  | Ok r => let '(data, r') := consume [4; 4; 4]%nat r in String.eqb data photograph && is_ok (Result r')
  | Err _ => false
  end = true.
Proof. vm_compute. reflexivity. Qed.
End UploadBodyWitness.
End UploadBodySpec.
