(* ===== verification/UploadStore.v ===== *)
(** * The store of uploads and obligations

    [internal/evidence/postgres/upload_store.go] and [reconciliation_store.go], and
    [ValidateUploadAcceptanceWithin] of [authority/postgres/upload_acceptance.go]: the
    transactions over the tables of one tenant, with the triggers of the migrations
    000011 and 000012.

    The tables of the authority component are part of these tables.  Identifiers and
    instants are stored as they are, so that a stored text parses; the requirements
    of a session are the profile that [ParseProfileFromCatalog] reads from them, if it
    reads one.  The admission gate, the webhook emitter and the fate of a commit are
    arguments. *)

From S2P Require Import Prelude GoTime Content Lifecycle Evidence Registry Idempotency Authority Profile AuthorityService Upload.
From Stdlib Require Import Ascii.

Module UploadStore.
Import Uploads.

(** ** Tables *)

(** A session's requirements, document selections and completion. *)
Record CaptureRow := mk_capture {
  capture_profile : option CaptureProfile.Profile; capture_selections : option (gmap string string); capture_completed_at : option Time }.
Record FrameRow := mk_frame_row { FVerification : string; FEvidence : string; FContent : string; Frame : TemporalFrame }.
Record UploadAudit := mk_upload_audit {
  UA_upload : string; UA_version : Z; UA_attempt : Z; UA_action : string; UA_principal : string; UA_reason : string; UA_at : Time }.
Record ObligationAudit := mk_obligation_audit {
  OA_key : string * Z; OA_version : Z; OA_claim : Z; OA_action : string; OA_at : Time }.
Record AssetAudit := mk_asset_audit { AA_evidence : string; AA_version : Z; AA_action : string; AA_at : Time }.
Record EventRow := mk_event { EV_id : string; EV_aggregate : string; EV_type : string; EV_at : Time }.

Record Tables := mk_tables {
  base : AuthorityStore.Database;
  captures : gmap string CaptureRow;
  (** The uploads retained for a replacement credential. *)
  retained_uploads : list (string * string);
  uploads : gmap string UploadRecord;
  frames : gmap string FrameRow;
  assets : gmap string Record_;
  obligations : gmap (string * Z) ReconciliationRecord;
  upload_audit : list UploadAudit;
  obligation_audit : list ObligationAudit;
  asset_audit : list AssetAudit;
  events : list EventRow;
}.
Definition with_uploads (t : Tables) x := mk_tables (base t) (captures t) (retained_uploads t) x (frames t) (assets t) (obligations t) (upload_audit t) (obligation_audit t) (asset_audit t) (events t).
Definition with_frames (t : Tables) x := mk_tables (base t) (captures t) (retained_uploads t) (uploads t) x (assets t) (obligations t) (upload_audit t) (obligation_audit t) (asset_audit t) (events t).
Definition with_assets (t : Tables) x := mk_tables (base t) (captures t) (retained_uploads t) (uploads t) (frames t) x (obligations t) (upload_audit t) (obligation_audit t) (asset_audit t) (events t).
Definition with_obligations (t : Tables) x := mk_tables (base t) (captures t) (retained_uploads t) (uploads t) (frames t) (assets t) x (upload_audit t) (obligation_audit t) (asset_audit t) (events t).
Definition with_upload_audit (t : Tables) x := mk_tables (base t) (captures t) (retained_uploads t) (uploads t) (frames t) (assets t) (obligations t) x (obligation_audit t) (asset_audit t) (events t).
Definition with_obligation_audit (t : Tables) x := mk_tables (base t) (captures t) (retained_uploads t) (uploads t) (frames t) (assets t) (obligations t) (upload_audit t) x (asset_audit t) (events t).
Definition with_asset_audit (t : Tables) x := mk_tables (base t) (captures t) (retained_uploads t) (uploads t) (frames t) (assets t) (obligations t) (upload_audit t) (obligation_audit t) x (events t).
Definition with_events (t : Tables) x := mk_tables (base t) (captures t) (retained_uploads t) (uploads t) (frames t) (assets t) (obligations t) (upload_audit t) (obligation_audit t) (asset_audit t) x.
Definition with_captures (t : Tables) x := mk_tables (base t) x (retained_uploads t) (uploads t) (frames t) (assets t) (obligations t) (upload_audit t) (obligation_audit t) (asset_audit t) (events t).

(** What became of a transaction whose body succeeded; a lost answer leaves open
    whether it was applied. *)
Inductive Fate := Done | RolledBack | Lost (applied : bool).
Definition settle {A : Type} (lost : UploadError) (t : Tables) (fate : Fate) (body : result UploadError (A * Tables)) : result UploadError A * Tables :=
  match body with
  | Err e => (Err e, t)
  | Ok (a, t') => match fate with Done => (Ok a, t') | RolledBack => (Err ErrQuery, t) | Lost applied => (Err lost, if applied then t' else t) end
  end.

(** ** Triggers *)

Definition same_instant (a b : option Time) : bool := match a, b with Some x, Some y => instant x =? instant y | None, None => true | _, _ => false end.
Definition is_none {A : Type} (a : option A) : bool := match a with None => true | Some _ => false end.

(** [protect_evidence_upload_intent] on an update. *)
Definition upload_change_valid (old new : UploadRecord) : bool :=
  bool_decide (terms new = terms old) && (UVersion new =? UVersion old + 1) && negb (before (UUpdatedAt new) (UUpdatedAt old)) &&
  ((upload_state_is (UState new) UploadStateUploading && (Attempt new =? Attempt old + 1) && negb (is_none (LeaseExpiresAt new)) && is_none (AcceptedAt new) &&
    empty_string (RejectionReason new) &&
    (upload_state_is (UState old) UploadStateIssued || (upload_state_is (UState old) UploadStateUploading && negb (leased_at old (UUpdatedAt new)) && negb (is_none (LeaseExpiresAt old))))) ||
   (upload_state_is (UState old) UploadStateUploading && upload_state_is (UState new) UploadStateIssued && (Attempt new =? Attempt old) && is_none (LeaseExpiresAt new) &&
    is_none (AcceptedAt new) && empty_string (RejectionReason new)) ||
   (upload_state_is (UState old) UploadStateUploading && upload_state_is (UState new) UploadStateAccepted && (Attempt new =? Attempt old) && is_none (LeaseExpiresAt new) &&
    same_instant (AcceptedAt new) (Some (UUpdatedAt new)) && empty_string (RejectionReason new) && leased_at old (UUpdatedAt new)) ||
   (upload_state_is (UState old) UploadStateUploading && upload_state_is (UState new) UploadStateRejected && (Attempt new =? Attempt old) && is_none (LeaseExpiresAt new) &&
    is_none (AcceptedAt new) && negb (empty_string (RejectionReason new)) && leased_at old (UUpdatedAt new)) ||
   ((upload_state_is (UState old) UploadStateIssued || upload_state_is (UState old) UploadStateUploading) && upload_state_is (UState new) UploadStateExpired &&
    (Attempt new =? Attempt old) && is_none (LeaseExpiresAt new) && is_none (AcceptedAt new) && empty_string (RejectionReason new) &&
    negb (before (UUpdatedAt new) (UExpiresAt (terms old))))).

(** [protect_evidence_object_reconciliation] on an insert and an update. *)
Definition later_of (a b : Time) : Time := if before a b then b else a.
Definition obligation_insert_valid (u : option UploadRecord) (o : ReconciliationRecord) : bool :=
  match u with
  | None => false
  | Some u =>
      obligation_is (OState o) ReconciliationPending && (OVersion o =? 1) && (OClaim o =? 0) && (instant (OUpdatedAt o) =? instant (OCreatedAt o)) &&
      String.eqb (UEvidenceID (terms u)) (OEvidenceID o) &&
      (((Attempt u =? UploadAttempt o) &&
        ((upload_state_is (UState u) UploadStateUploading &&
          match LeaseExpiresAt u with Some lease => instant (later_of lease (OCreatedAt o)) =? instant (AvailableAt o) | None => false end) ||
         ((upload_state_is (UState u) UploadStateIssued || upload_state_is (UState u) UploadStateRejected || upload_state_is (UState u) UploadStateExpired) &&
          negb (before (AvailableAt o) (OCreatedAt o))))) ||
       ((UploadAttempt o <? Attempt u) && negb (before (AvailableAt o) (OCreatedAt o))))
  end.
Definition obligation_change_valid (old new : ReconciliationRecord) : bool :=
  String.eqb (OTenantID new) (OTenantID old) && bool_decide ((OUploadID new, UploadAttempt new) = (OUploadID old, UploadAttempt old)) &&
  String.eqb (OEvidenceID new) (OEvidenceID old) && bool_decide (OObject new = OObject old) && (instant (OCreatedAt new) =? instant (OCreatedAt old)) &&
  (OVersion new =? OVersion old + 1) && negb (before (OUpdatedAt new) (OUpdatedAt old)) &&
  ((obligation_is (OState new) ReconciliationClaimed && (OClaim new =? OClaim old + 1) && negb (is_none (OLease new)) && is_none (ResolvedAt new) &&
    ((obligation_is (OState old) ReconciliationPending && negb (before (OUpdatedAt new) (AvailableAt old))) ||
     (obligation_is (OState old) ReconciliationClaimed && match OLease old with Some lease => negb (before (OUpdatedAt new) lease) | None => false end))) ||
   (obligation_is (OState old) ReconciliationClaimed && obligation_is (OState new) ReconciliationPending && (OClaim new =? OClaim old) &&
    after (AvailableAt new) (OUpdatedAt new) && is_none (OLease new) && is_none (ResolvedAt new)) ||
   ((obligation_is (OState old) ReconciliationPending || obligation_is (OState old) ReconciliationClaimed) &&
    (obligation_is (OState new) ReconciliationRetained || obligation_is (OState new) ReconciliationDeleted) && (OClaim new =? OClaim old) && is_none (OLease new) &&
    same_instant (ResolvedAt new) (Some (OUpdatedAt new)))).

Section Store.
Context (tenant : string) (catalog : Catalog) `{ContentLibraries, !AuthorityLibraries}.

Definition registry_of (reference : Reference) : result UploadError Registry :=
  match Resolve catalog reference with Ok v => Ok (asset_registry v) | Err _ => Err ErrQuery end.

(** ** Rows *)

Definition createUploadParameters (u : UploadRecord) : result UploadError UploadRecord :=
  let t := terms u in
  reject (max_int32 <? ProfileRevision t) || (max_int32 <? SchemaVersion (URegistry t)) || (max_int32 <? Revision (URegistry t)) || (max_int32 <? Attempt u) ||
         negb (UAttemptTimeout t mod millisecond =? 0) with ErrInvalid ;;
  Ok (with_frame u None).

Definition restoreUpload (row : UploadRecord) : result UploadError UploadRecord :=
  let t := terms row in
  reject (ProfileRevision t <=? 0) || (SchemaVersion (URegistry t) <=? 0) || (Revision (URegistry t) <=? 0) || (Attempt row <? 0) || (UAttemptTimeout t <=? 0)
    with ErrQuery ;;
  let? registry := registry_of (URegistry t) in
  RestoreUpload row registry.

Definition restoreTemporalFrame (t : Tables) (u : UploadRecord) : result UploadError UploadRecord :=
  match frames t !! UploadID (terms u) with
  | None => Ok u
  | Some row =>
      reject negb (String.eqb (FVerification row) (UVerificationID (terms u))) || negb (String.eqb (FEvidence row) (UEvidenceID (terms u))) ||
             negb (String.eqb (FContent row) (ExpectedDigest (terms u))) with ErrQuery ;;
      WithTemporalFrame u (Frame row)
  end.

Definition insertUploadAudit (t : Tables) (u : UploadRecord) (principal action reason : string) : result UploadError Tables :=
  reject (max_int32 <? Attempt u) || existsb (fun a => String.eqb (UA_upload a) (UploadID (terms u)) && (UA_version a =? UVersion u)) (upload_audit t) with ErrQuery ;;
  Ok (with_upload_audit t (upload_audit t ++ [mk_upload_audit (UploadID (terms u)) (UVersion u) (Attempt u) action principal reason (UUpdatedAt u)])).

Definition FindUpload (t : Tables) (identifier : string) : result UploadError UploadRecord :=
  reject empty_string tenant || empty_string identifier with ErrUploadNotFound ;;
  match uploads t !! identifier with
  | None => Err ErrUploadNotFound
  | Some row => let? u := restoreUpload row in restoreTemporalFrame t u
  end.

(** [FindEvidenceAsset]. *)
Definition find_asset (t : Tables) (identifier : string) : result UploadError Record_ :=
  match assets t !! identifier with
  | None => Err ErrUploadNotFound
  | Some row =>
      let? registry := registry_of (Registry_ row) in
      match restoreAsset row registry with Ok a => Ok a | Err _ => Err ErrQuery end
  end.

(** ** The locked session *)

Definition lockUploadSession (t : Tables) (verification principal : string) (now : Time) : result UploadError unit :=
  match AuthorityStore.sessions (base t) !! verification with
  | None => Err ErrUploadNotFound
  | Some session =>
      match AuthorityStore.tokens (base t) !! principal with
      | None => Err ErrUploadNotFound
      | Some token =>
          reject negb (String.eqb (AuthorityStore.TokenVerification token) verification) with ErrUploadNotFound ;;
          reject negb (Lifecycle.state_is (AuthorityStore.SessionState_ session) Lifecycle.SessionStateCollecting) || negb (before now (AuthorityStore.SessionExpires session)) ||
                 negb (is_none (AuthorityStore.RevokedAt token)) || negb (before now (AuthorityStore.TokenExpires token)) with ErrUploadConflict ;;
          Ok tt
      end
  end.

Definition validateUploadBranch (t : Tables) (u : UploadRecord) : result UploadError unit :=
  match captures t !! UVerificationID (terms u) with
  | Some (mk_capture (Some profile) (Some selections) _) =>
      reject negb (existsb (fun r => String.eqb (CaptureProfile.RKey r) (URequirementKey (terms u)) && String.eqb (CaptureProfile.REvidenceType r) (UEvidenceType (terms u)) &&
                                     CaptureProfile.member (UArtefact (terms u)) (CaptureProfile.EffectiveArtefacts r selections)) (CaptureProfile.PRequirements profile))
        with ErrUploadConflict ;;
      Ok tt
  | _ => Err ErrQuery
  end.

Definition authority_error {A : Type} (r : result Authority.Error A) : result UploadError A :=
  match r with
  | Ok a => Ok a
  | Err Authority.ErrProcessingNotPermitted => Err ErrProcessingNotPermitted
  | Err Authority.ErrSubjectResponseRequired => Err ErrSubjectResponseRequired
  | Err _ => Err ErrQuery
  end.

Definition upload_request (u : UploadRecord) (recipient : string) : GrantRequest :=
  mk_grant_request tenant (UVerificationID (terms u)) (USubjectID (terms u)) (UPurpose (terms u)) (UEvidenceType (terms u)) recipient (URegion (terms u)).

(** [observedAt] is read after the lock of the token. *)
Definition ValidateUploadAcceptanceWithin (db : AuthorityStore.Database) (u : UploadRecord) (occurredAt observedAt : Time) : result UploadError unit :=
  let t := terms u in
  let observedAt := utc observedAt in
  reject empty_string tenant || negb (String.eqb (UTenantID t) tenant) || is_zero occurredAt with ErrProcessingNotPermitted ;;
  match AuthorityStore.sessions db !! UVerificationID t with
  | None => Err ErrProcessingNotPermitted
  | Some session =>
      reject negb (Lifecycle.state_is (AuthorityStore.SessionState_ session) Lifecycle.SessionStateCollecting) ||
             match AuthorityStore.Binding session with Some (_, authority, _) => negb (String.eqb authority (UAuthorityID t)) | None => true end
        with ErrProcessingNotPermitted ;;
      match AuthorityStore.tokens db !! UCaptureTokenID t with
      | None => Err ErrProcessingNotPermitted
      | Some token =>
          reject negb (String.eqb (AuthorityStore.TokenVerification token) (UVerificationID t)) with ErrProcessingNotPermitted ;;
          reject is_zero observedAt || after occurredAt observedAt || negb (before observedAt (UExpiresAt t)) || negb (leased_at u observedAt) ||
                 negb (before observedAt (AuthorityStore.SessionExpires session)) || negb (is_none (AuthorityStore.RevokedAt token)) ||
                 negb (before observedAt (AuthorityStore.TokenExpires token)) with ErrProcessingNotPermitted ;;
          match AuthorityStore.authorities db !! UAuthorityID t with
          | None => Err ErrQuery
          | Some row =>
              let? declaration := authority_error (Restore row) in
              match AuthorityStore.notices db !! ANoticeID row with
              | None => Err ErrQuery
              | Some notice_row =>
                  let? notice := authority_error (RestoreNotice notice_row) in
                  match AuthorityStore.latest_response db (Authority.ID row) with
                  | None => Err ErrSubjectResponseRequired
                  | Some response_row =>
                      reject negb (String.eqb (CaptureTokenID response_row) (UCaptureTokenID t)) || negb (String.eqb (Authority.ResponseID response_row) (UResponseID t)) ||
                             after (RecordedAt response_row) occurredAt with ErrProcessingNotPermitted ;;
                      let? response := authority_error (NewResponse response_row) in
                      let request := upload_request u (Authority.RecipientReference declaration) in
                      let? _ := authority_error (Evaluate declaration notice (Some response) request occurredAt) in
                      authority_error (Evaluate declaration notice (Some response) request observedAt)
                  end
              end
          end
      end
  end.

(** ** Transitions *)

(** [TransitionEvidenceUploadIntent]: by version, under the triggers; admission may
    refuse a transition. *)
Definition update_upload (t : Tables) (next : UploadRecord) (expectedVersion : Z) (admits : bool) : result UploadError (UploadRecord * Tables) :=
  reject max_int32 <? Attempt next with ErrQuery ;;
  match uploads t !! UploadID (terms next) with
  | None => Err ErrUploadVersionConflict
  | Some row =>
      reject negb (UVersion row =? expectedVersion) with ErrUploadVersionConflict ;;
      reject negb admits with ErrAdmissionUnavailable ;;
      let stored := with_frame next None in
      reject negb (upload_change_valid row stored) with ErrQuery ;;
      let? restored := restoreUpload stored in
      Ok (restored, with_uploads t (<[UploadID (terms next) := stored]> (uploads t)))
  end.

Definition uploadTransition := UploadRecord -> result UploadError (UploadRecord * string * string).

Definition transition_body (principal identifier : string) (starting : bool) (transition : uploadTransition) (now : Time) (admits : bool) (t : Tables)
  : result UploadError (UploadRecord * Tables) :=
  match uploads t !! identifier with
  | None => Err ErrUploadNotFound
  | Some row =>
      let? _ := if starting then
                  reject negb (String.eqb (UCaptureTokenID (terms row)) principal) with ErrUploadNotFound ;;
                  lockUploadSession t (UVerificationID (terms row)) principal now
                else Ok tt in
      let? current := restoreUpload row in
      reject negb (String.eqb (UCaptureTokenID (terms current)) principal) with ErrUploadNotFound ;;
      let? next := transition current in
      let '(next, action, reason) := next in
      let? updated := update_upload t next (UVersion current) admits in
      let? t' := insertUploadAudit updated.2 updated.1 principal action reason in
      Ok (updated.1, t')
  end.

(** [now] is the reading of the store's own clock, behind the locks. *)
Definition transitionUpload (principal identifier : string) (starting : bool) (transition : uploadTransition) (now : Time) (admits : bool) (t : Tables) (fate : Fate)
  : result UploadError UploadRecord * Tables :=
  if empty_string tenant || empty_string principal || empty_string identifier then (Err ErrUploadNotFound, t)
  else settle ErrQuery t fate (transition_body principal identifier starting transition (utc now) admits t).

Definition uploadExpiredReason : string := "evidence.upload.expired".
Definition claiming (expectedVersion : Z) (at_ : Time) : uploadTransition :=
  fun u => let? next := ClaimAttempt u expectedVersion at_ in Ok (next, "claim", "")%string.
Definition failing (expectedVersion attempt : Z) (at_ : Time) : uploadTransition :=
  fun u => let? next := FailAttempt u expectedVersion attempt at_ in
           Ok (if upload_state_is (UState next) UploadStateExpired then (next, "expire", uploadExpiredReason) else (next, "retry", ""))%string.
Definition rejecting (expectedVersion attempt : Z) (reason : string) (at_ : Time) : uploadTransition :=
  fun u => let? next := Reject_ u expectedVersion attempt reason at_ in Ok (next, "reject"%string, reason).

Definition ClaimUploadAttempt (principal identifier : string) (expectedVersion : Z) (at_ now : Time) := transitionUpload principal identifier true (claiming expectedVersion at_) now.
Definition FailUploadAttempt (principal identifier : string) (expectedVersion attempt : Z) (at_ : Time) :=
  transitionUpload principal identifier false (failing expectedVersion attempt at_) at_.
Definition RejectUploadAttempt (principal identifier : string) (expectedVersion attempt : Z) (reason : string) (at_ : Time) :=
  transitionUpload principal identifier false (rejecting expectedVersion attempt reason at_) at_.

(** ** Creation *)

Definition frame_taken (t : Tables) (verification : string) (f : TemporalFrame) : bool :=
  existsb (fun p => String.eqb (FVerification p.2) verification && String.eqb (SequenceDigest (Frame p.2)) (SequenceDigest f) && (FrameIndex (Frame p.2) =? FrameIndex f))
    (map_to_list (frames t)).
Definition insert_frame (t : Tables) (u : UploadRecord) : result UploadError Tables :=
  match Sequence u with
  | None => Ok t
  | Some f =>
      reject frame_taken t (UVerificationID (terms u)) f || negb (is_none (frames t !! UploadID (terms u))) with ErrQuery ;;
      Ok (with_frames t (<[UploadID (terms u) := mk_frame_row (UVerificationID (terms u)) (UEvidenceID (terms u)) (ExpectedDigest (terms u)) f]> (frames t)))
  end.

Definition create_body `{IdempotencyLibraries, !AuthorityStore.ReferenceJson} (u : UploadRecord) (now : Time) (admits : bool) (t : Tables)
  : result UploadError (UploadRecord * Idempotency.Result * Time * Tables) :=
  let? _ := lockUploadSession t (UVerificationID (terms u)) (UCaptureTokenID (terms u)) now in
  let? _ := validateUploadBranch t u in
  let? row := createUploadParameters u in
  reject negb (is_none (uploads t !! UploadID (terms u))) || existsb (fun p => String.eqb (UEvidenceID (terms p.2)) (UEvidenceID (terms u))) (map_to_list (uploads t))
    with ErrQuery ;;
  let t := with_uploads t (<[UploadID (terms u) := row]> (uploads t)) in
  reject negb admits with ErrAdmissionUnavailable ;;
  let? t := insert_frame t u in
  let? t := insertUploadAudit t u (UCaptureTokenID (terms u)) "create" "" in
  match NewResult 201 (AuthorityStore.encode_reference "upload_id" (UploadID (terms u))) with
  | Err _ => Err ErrQuery
  | Ok r => Ok (u, r, UCreatedAt (terms u), t)
  end.

Definition replay_upload `{IdempotencyLibraries, !AuthorityStore.ReferenceJson} (r : Idempotency.Result) (t : Tables) : result UploadError UploadRecord :=
  match AuthorityStore.decode_reference "upload_id" (Idempotency.Body r) with
  | None => Err ErrQuery
  | Some identifier =>
      match uploads t !! identifier with
      | None => Err ErrQuery
      | Some row => let? u := restoreUpload row in restoreTemporalFrame t u
      end
  end.

Definition lift (e : Idempotency.Error) : UploadError :=
  match e with Idempotency.ErrConflict => ErrIdempotencyConflict | Idempotency.ErrInProgress => ErrInProgress | _ => ErrQuery end.

Definition CreateUpload `{IdempotencyLibraries, !AuthorityStore.ReferenceJson} (t : Idempotency.Tables Tables) (u : UploadRecord) (request : Request) (locked : bool)
    (now : Time) (admits : bool) (c : Commit) : result UploadError UploadRecord * Idempotency.Tables Tables :=
  if empty_string tenant || negb (String.eqb (UTenantID (terms u)) tenant) || negb (String.eqb (tenant_of request) tenant) ||
     negb (String.eqb (principal_of request) (UCaptureTokenID (terms u))) || negb (String.eqb (scope_of request).1.2 OperationCreateUpload) ||
     negb (instant (createdAt request) =? instant (UCreatedAt (terms u))) || negb (upload_state_is (UState u) UploadStateIssued) || negb (UVersion u =? 1) ||
     negb (Attempt u =? 0) then (Err ErrUploadConflict, t)
  else if negb (is_ok (registry_of (URegistry (terms u)))) then (Err ErrQuery, t)
  else transact ErrQuery t c (command lift locked request replay_upload (create_body u (utc now) admits) t).

(** ** Acceptance *)

Record Acceptance := mk_acceptance {
  ACUpload : string; ACToken : string; ACVersion : Z; ACAttempt : Z; ACAsset : Record_; ACBytes : Z; ACEvent : string; ACAt : Time }.

Definition same_object (a b : ObjectStore.ObjectRecord) : bool := bool_decide (a = b).
Definition object_taken (t : Tables) (object : ObjectStore.ObjectRecord) : bool :=
  existsb (fun p => String.eqb (ObjectStore.Key (Object_ (Evidence.Content p.2))) (ObjectStore.Key object) &&
                    String.eqb (ObjectStore.ObjectVersion (Object_ (Evidence.Content p.2))) (ObjectStore.ObjectVersion object)) (map_to_list (assets t)).

Definition insert_asset (t : Tables) (a : Record_) : result UploadError Tables :=
  reject (max_int32 <? SchemaVersion (Registry_ a)) || (max_int32 <? Revision (Registry_ a)) || (max_int32 <? ContentRevision a) with ErrQuery ;;
  reject negb (is_none (assets t !! Evidence.ID a)) || object_taken t (Object_ (Evidence.Content a)) with ErrQuery ;;
  let t := with_assets t (<[Evidence.ID a := a]> (assets t)) in
  reject existsb (fun r => String.eqb (AA_evidence r) (Evidence.ID a) && (AA_version r =? Evidence.Version a)) (asset_audit t) with ErrQuery ;;
  Ok (with_asset_audit t (asset_audit t ++ [mk_asset_audit (Evidence.ID a) (Evidence.Version a) "create" (Evidence.CreatedAt a)])).

Definition insertObligationAudit (t : Tables) (o : ReconciliationRecord) (action : string) : result UploadError Tables :=
  let key := (OUploadID o, UploadAttempt o) in
  reject existsb (fun a => bool_decide (OA_key a = key) && (OA_version a =? OVersion o)) (obligation_audit t) with ErrQuery ;;
  Ok (with_obligation_audit t (obligation_audit t ++ [mk_obligation_audit key (OVersion o) (OClaim o) action (OUpdatedAt o)])).

(** [RetainEvidenceObjectReconciliationForAcceptance]. *)
Definition retained (o : ReconciliationRecord) (at_ : Time) : ReconciliationRecord :=
  mk_obligation (OTenantID o) (OUploadID o) (OEvidenceID o) (UploadAttempt o) (OObject o) ReconciliationRetained (OVersion o + 1) (OClaim o) (AvailableAt o) None
    (OCreatedAt o) at_ (Some at_).
Definition retain (t : Tables) (m : Acceptance) : result UploadError Tables :=
  let key := (ACUpload m, ACAttempt m) in
  match obligations t !! key with
  | None => Err ErrReconciliationConflict
  | Some o =>
      reject negb (String.eqb (OEvidenceID o) (Evidence.ID (ACAsset m))) || negb (same_object (OObject o) (Object_ (Evidence.Content (ACAsset m)))) ||
             negb (obligation_is (OState o) ReconciliationPending) with ErrReconciliationConflict ;;
      let o' := retained o (ACAt m) in
      reject negb (obligation_change_valid o o') with ErrQuery ;;
      insertObligationAudit (with_obligations t (<[key := o']> (obligations t))) o' "retain"
  end.

(** The accepted uploads that [LoadCaptureProgressPublication] aggregates. *)
Definition upload_counts (t : Tables) (verification token : string) (u : UploadRecord) : bool :=
  String.eqb (UVerificationID (terms u)) verification && upload_state_is (UState u) UploadStateAccepted &&
  (String.eqb (UCaptureTokenID (terms u)) token || bool_decide ((token, UploadID (terms u)) ∈ retained_uploads t)).
Definition binding_of (t : Tables) (u : UploadRecord) : CaptureProfile.Binding :=
  let frame := frames t !! UploadID (terms u) in
  CaptureProfile.mk_binding (URequirementKey (terms u)) (UArtefact (terms u)) (UAcquisitionMethod (terms u)) (option_map (fun f => SequenceDigest (Frame f)) frame)
    (option_map (fun f => FrameIndex (Frame f)) frame) (option_map (fun f => FrameCount (Frame f)) frame) (option_map (fun f => ChallengeID (Frame f)) frame)
    (option_map (fun f => CapturedAt (Frame f)) frame)
    (f ← frame; if empty_string (PreviousDigest (Frame f)) then None else Some (PreviousDigest (Frame f))) (option_map FContent frame).
Definition accepted_order (u : UploadRecord) : list Column :=
  [NumberColumn (match AcceptedAt u with Some at_ => instant at_ | None => 0 end); TextColumn (UploadID (terms u))].
Definition accepted_bindings (t : Tables) (verification token : string) : list CaptureProfile.Binding :=
  map (binding_of t) (order_by_columns accepted_order (List.filter (upload_counts t verification token) (map snd (map_to_list (uploads t))))).

(** [ListAcceptedUploads]: a temporal sequence counts as its last frame, once every
    frame is accepted. *)
Definition sequence_accepted (t : Tables) (verification digest : string) : Z :=
  llen (List.filter (fun p => String.eqb (FVerification p.2) verification && String.eqb (SequenceDigest (Frame p.2)) digest &&
                              match uploads t !! p.1 with Some u => upload_state_is (UState u) UploadStateAccepted | None => false end) (map_to_list (frames t))).
Definition sequence_complete (t : Tables) (u : UploadRecord) : bool :=
  match frames t !! UploadID (terms u) with
  | None => true
  | Some row => (FrameIndex (Frame row) =? FrameCount (Frame row) - 1) && (FrameCount (Frame row) =? sequence_accepted t (FVerification row) (SequenceDigest (Frame row)))
  end.
Definition live_token (t : Tables) (token verification : string) : bool :=
  match AuthorityStore.tokens (base t) !! token with
  | Some row => String.eqb (AuthorityStore.TokenVerification row) verification && is_none (AuthorityStore.RevokedAt row)
  | None => false
  end.
Definition ListAcceptedUploads (t : Tables) (token verification : string) (limit : Z) : result UploadError (list UploadRecord) :=
  reject empty_string tenant || empty_string token || empty_string verification || (limit <? 1) with ErrUploadNotFound ;;
  rmap (fun row => let? u := restoreUpload row in restoreTemporalFrame t u)
    (take (Z.to_nat limit) (order_by_columns accepted_order
      (List.filter (fun u => upload_counts t verification token u && live_token t token verification && sequence_complete t u) (map snd (map_to_list (uploads t)))))).
Definition AllowsRecoveredUpload (t : Tables) (token upload : string) : bool :=
  bool_decide ((token, upload) ∈ retained_uploads t) &&
  match uploads t !! upload with Some u => live_token t token (UVerificationID (terms u)) && upload_state_is (UState u) UploadStateAccepted | None => false end.

(** Progress, and the completion of the capture. *)
Definition publish (t : Tables) (verification token : string) (at_ : Time) : result UploadError Tables :=
  match AuthorityStore.sessions (base t) !! verification, AuthorityStore.tokens (base t) !! token, captures t !! verification with
  | Some _, Some row, Some (mk_capture profile selections completed) =>
      reject negb (String.eqb (AuthorityStore.TokenVerification row) verification) || negb (is_none (AuthorityStore.RevokedAt row)) with ErrUploadNotFound ;;
      match profile, selections with
      | Some profile, Some selections =>
          match CaptureProfile.captureProfileProgress profile (accepted_bindings t verification token) selections with
          | Err _ => Err ErrQuery
          | Ok (total, finished) =>
              reject total <? finished with ErrQuery ;;
              Ok (if finished =? total
                  then with_captures t (<[verification := mk_capture (Some profile) (Some selections) (Some (default at_ completed))]> (captures t)) else t)
          end
      | _, _ => Err ErrQuery
      end
  | _, _, _ => Err ErrUploadNotFound
  end.

Definition insert_event (t : Tables) (identifier aggregate eventType : string) (at_ : Time) : result UploadError Tables :=
  reject existsb (fun e => String.eqb (EV_id e) identifier) (events t) with ErrQuery ;;
  Ok (with_events t (events t ++ [mk_event identifier aggregate eventType at_])).

Definition EventEvidenceReady : string := "evidence.ready.v1".

Definition accept_body (m : Acceptance) (observedAt : Time) (emits admits : bool) (t : Tables) : result UploadError (UploadRecord * Tables) :=
  let a := ACAsset m in
  match AuthorityStore.sessions (base t) !! Evidence.VerificationID a, uploads t !! ACUpload m with
  | Some _, Some row =>
      let? restored := restoreUpload row in
      let? current := restoreTemporalFrame t restored in
      reject negb (String.eqb (UCaptureTokenID (terms current)) (ACToken m)) || negb (String.eqb (UVerificationID (terms current)) (Evidence.VerificationID a))
        with ErrUploadNotFound ;;
      let? _ := ValidateUploadAcceptanceWithin (base t) current (ACAt m) observedAt in
      let? _ := validateUploadBranch t current in
      let? accepted := Accept current (ACVersion m) (ACAttempt m) a (ACBytes m) (ACAt m) in
      let? t := insert_asset t a in
      let? t := retain t m in
      let? updated := update_upload t accepted (UVersion current) admits in
      let? t := insertUploadAudit updated.2 updated.1 (ACToken m) "accept" "" in
      let? t := insert_event t (ACEvent m) (Evidence.ID a) EventEvidenceReady (ACAt m) in
      reject negb emits with ErrQuery ;;
      let? t := publish t (Evidence.VerificationID a) (ACToken m) (ACAt m) in
      Ok (updated.1, t)
  | _, _ => Err ErrUploadNotFound
  end.

(** [emits] covers the webhook and the realtime event. *)
Definition AcceptUpload (m : Acceptance) (observedAt : Time) (emits admits : bool) (t : Tables) (fate : Fate) : result UploadError UploadRecord * Tables :=
  let a := ACAsset m in
  if empty_string tenant || empty_string (ACUpload m) || empty_string (ACToken m) || empty_string (ACEvent m) || (ACVersion m <? 1) || (ACAttempt m <? 1) ||
     (max_int32 <? ACAttempt m) || (ACBytes m <? 1) || is_zero (ACAt m) || negb (String.eqb (Evidence.TenantID a) tenant) ||
     negb (asset_state_is (Evidence.State_ a) StateAvailable) || negb (Evidence.Version a =? 1) then (Err ErrUploadConflict, t)
  else if negb (is_ok (registry_of (Registry_ a))) then (Err ErrQuery, t)
  else settle ErrUploadAcceptanceOutcomeUnknown t fate (accept_body m observedAt emits admits t).

(** ** Obligations *)

Definition IsObjectReferenced (t : Tables) (key version : string) : result UploadError bool :=
  reject empty_string tenant || empty_string key || empty_string version || (200 <? slen version) || negb (trimmed (runes version)) with ErrReconciliationConflict ;;
  Ok (existsb (fun p => String.eqb (ObjectStore.Key (Object_ (Evidence.Content p.2))) key && String.eqb (ObjectStore.ObjectVersion (Object_ (Evidence.Content p.2))) version)
        (map_to_list (assets t)) ||
      existsb (fun p => String.eqb (ObjectStore.Key (OObject p.2)) key && String.eqb (ObjectStore.ObjectVersion (OObject p.2)) version &&
                        (obligation_is (OState p.2) ReconciliationPending || obligation_is (OState p.2) ReconciliationClaimed ||
                         obligation_is (OState p.2) ReconciliationRetained)) (map_to_list (obligations t))).

(** The trigger guards a repeated insert too; then [ON CONFLICT DO NOTHING], and the
    row that is there must be the one. *)
Definition create_obligation_body (o : ReconciliationRecord) (t : Tables) : result UploadError (unit * Tables) :=
  let key := (OUploadID o, UploadAttempt o) in
  reject negb (obligation_insert_valid (uploads t !! OUploadID o) o) with ErrQuery ;;
  match obligations t !! key with
  | Some row =>
      let? persisted := RestoreObjectReconciliation row in
      reject negb (bool_decide (persisted = o)) with ErrReconciliationConflict ;;
      Ok (tt, t)
  | None =>
      reject existsb (fun p => String.eqb (ObjectStore.Key (OObject p.2)) (ObjectStore.Key (OObject o)) &&
                               String.eqb (ObjectStore.ObjectVersion (OObject p.2)) (ObjectStore.ObjectVersion (OObject o))) (map_to_list (obligations t)) with ErrQuery ;;
      let? _ := RestoreObjectReconciliation o in
      let? t := insertObligationAudit (with_obligations t (<[key := o]> (obligations t))) o "create" in
      Ok (tt, t)
  end.
Definition create_obligation (made : result UploadError ReconciliationRecord) (t : Tables) (fate : Fate) : result UploadError unit * Tables :=
  match made with
  | Err e => (Err e, t)
  | Ok o =>
      if empty_string tenant || negb (String.eqb (OTenantID o) tenant) || negb (obligation_is (OState o) ReconciliationPending) || negb (OVersion o =? 1) || negb (OClaim o =? 0)
      then (Err ErrReconciliationConflict, t)
      else settle ErrQuery t fate (create_obligation_body o t)
  end.
Definition CreateObjectReconciliation (u : UploadRecord) (a : Record_) (at_ : Time) := create_obligation (NewObjectReconciliation u a at_).
Definition CreateObjectReconciliationForObject (u : UploadRecord) (object : ObjectStore.ObjectRecord) (at_ : Time) :=
  create_obligation (NewObjectReconciliationForObject u object at_).

Definition persist_obligation (t : Tables) (current next : ReconciliationRecord) (action : string) : result UploadError Tables :=
  let key := (OUploadID next, UploadAttempt next) in
  match obligations t !! key with
  | None => Err ErrReconciliationConflict
  | Some row =>
      reject negb (OVersion row =? OVersion current) with ErrReconciliationConflict ;;
      reject negb (obligation_change_valid row next) with ErrQuery ;;
      let? _ := RestoreObjectReconciliation next in
      insertObligationAudit (with_obligations t (<[key := next]> (obligations t))) next action
  end.

(** The action of a transition that changes nothing is empty. *)
Definition transition_obligation (upload : string) (attempt : Z) (transition : ReconciliationRecord -> result UploadError (ReconciliationRecord * string)) (t : Tables)
    (fate : Fate) : result UploadError unit * Tables :=
  if max_int32 <? attempt then (Err ErrReconciliationConflict, t)
  else settle ErrQuery t fate (
    match obligations t !! (upload, attempt) with
    | None => Err ErrReconciliationNotFound
    | Some row =>
        let? current := RestoreObjectReconciliation row in
        let? next := transition current in
        if empty_string next.2 then Ok (tt, t) else let? t := persist_obligation t current next.1 next.2 in Ok (tt, t)
    end).

Definition reconciliationAction (state : ReconciliationState) : string := if obligation_is state ReconciliationRetained then "retain" else "delete".

Definition ResolveObjectReconciliation (upload : string) (attempt : Z) (object : ObjectStore.ObjectRecord) (state : ReconciliationState) (at_ : Time) (t : Tables) (fate : Fate)
  : result UploadError unit * Tables :=
  if empty_string tenant || empty_string upload || (attempt =? 0) || empty_string (ObjectStore.Key object) ||
     (negb (obligation_is state ReconciliationRetained) && negb (obligation_is state ReconciliationDeleted)) then (Err ErrReconciliationConflict, t)
  else transition_obligation upload attempt (fun current =>
    reject negb (same_object (OObject current) object) with ErrReconciliationConflict ;;
    if obligation_is (OState current) state then Ok (current, ""%string) else
    let? next := Resolve_ current state at_ in Ok (next, reconciliationAction state)) t fate.

(** [LockNextEvidenceObjectReconciliation]: the row that has been ready for longest;
    [locked] rows are skipped. *)
Definition ready_at (o : ReconciliationRecord) (now : Time) : bool :=
  (obligation_is (OState o) ReconciliationPending && negb (before now (AvailableAt o))) ||
  (obligation_is (OState o) ReconciliationClaimed && match OLease o with Some lease => negb (before now lease) | None => false end).
Definition ready_since (o : ReconciliationRecord) : Z := instant (default (AvailableAt o) (OLease o)).
Definition next_ready (t : Tables) (locked : gset (string * Z)) (now : Time) : option ReconciliationRecord :=
  let ready := List.filter (fun p => ready_at p.2 now && negb (bool_decide (p.1 ∈ locked))) (map_to_list (obligations t)) in
  head (order_by_columns (fun o => [NumberColumn (ready_since o); TextColumn (OUploadID o); NumberColumn (UploadAttempt o)]) (map snd ready)).

Definition ClaimObjectReconciliation (locked : gset (string * Z)) (now : Time) (timeout : Z) (t : Tables) (fate : Fate) : result UploadError ReconciliationRecord * Tables :=
  if empty_string tenant || is_zero now then (Err ErrNoReconciliationReady, t)
  else settle ErrQuery t fate (
    match next_ready t locked now with
    | None => Err ErrNoReconciliationReady
    | Some row =>
        let? current := RestoreObjectReconciliation row in
        let? claimed := ClaimForRecovery current now timeout in
        let? t := persist_obligation t current claimed "claim" in
        Ok (claimed, t)
    end).

Definition fenced (claimed : ReconciliationRecord) (transition : ReconciliationRecord -> result UploadError (ReconciliationRecord * string)) (current : ReconciliationRecord)
  : result UploadError (ReconciliationRecord * string) :=
  reject negb (OVersion current =? OVersion claimed) || negb (OClaim current =? OClaim claimed) with ErrReconciliationConflict ;;
  transition current.
Definition RetryObjectReconciliation (claimed : ReconciliationRecord) (at_ : Time) (delay : Z) :=
  transition_obligation (OUploadID claimed) (UploadAttempt claimed) (fenced claimed (fun current => let? next := Retry current at_ delay in Ok (next, "retry"%string))).
Definition CompleteObjectReconciliation (claimed : ReconciliationRecord) (state : ReconciliationState) (at_ : Time) :=
  transition_obligation (OUploadID claimed) (UploadAttempt claimed)
    (fenced claimed (fun current => let? next := Resolve_ current state at_ in Ok (next, reconciliationAction state))).
End Store.
End UploadStore.
