(* ===== verification/UploadService.v ===== *)
(** * Uploads, their acceptance and the recovery of staged objects

    [authority/upload_service.go], [authority/upload_acceptance_service.go],
    [evidence/upload_preflight.go], [protector.go], [progress.go],
    [reconciliation_service.go] and [orphan_discovery.go]: the issue of an upload,
    the acceptance of its body, the reconciliation of recorded objects and the
    discovery of unrecorded ones, over the tables of one tenant and its objects.

    A use case is an automaton with one transaction, or one call of the object store,
    per step; a step takes its clock readings, fresh identifiers, the fate of its
    transaction and the answers of the object store, of the sealer and of
    [CaptureSnapshot], and may be a crash.  A reading of the application's clock may
    be late by the time its transaction runs.  The sealer may stop anywhere in the
    body.  A version of an object is never given twice. *)

From S2P Require Import Prelude GoTime Ident Content Lifecycle Evidence Registry Idempotency Authority Profile AuthorityService Upload UploadBody UploadStore.
From Stdlib Require Import Ascii.

Module UploadService.
Import Uploads UploadStore.

(** ** The issue of an upload *)

(** What an authenticated capture credential stands for. *)
Record CaptureSession := mk_capture_session {
  SID : string; STenantID : string; SState : Lifecycle.SessionState; SCreatedAt : Time; SExpiresAt : Time; SRequirements : CaptureProfile.Profile;
  SSelections : gmap string string; SProfileID : string; SProfileRevision : Z; SProfileDigest : string }.
Record CaptureContext := mk_context { ContextTenant : string; ContextSession : CaptureSession; TokenID : string }.
Definition AcceptsCaptureAt (s : CaptureSession) (at_ : Time) : bool :=
  Lifecycle.state_is (SState s) Lifecycle.SessionStateCollecting && before (utc at_) (SExpiresAt s).

Record UploadRequest := mk_request {
  Wanted : CaptureProfile.UploadRequest; WExpectedBytes : Z; WExpectedDigest : string; WMediaType : string; WRegion : string;
  WSequence : option TemporalFrame }.
Class UploadJson := { marshal_upload_request : UploadRequest -> option string }.

Definition now_of (at_ : Time) : Time := truncate (utc at_) microsecond.
Definition fallback_text (c : option CaptureProfile.FallbackCondition) : string :=
  match c with Some c => CaptureProfile.condition_text c | None => "" end.

(** The attempt that put an object and its lease are kept for the specification; a
    deleted object stays on record, absent. *)
Record Stored := mk_stored { present : bool; modified : Time; put_upload : string; put_attempt : Z; put_lease : Time }.
Abbreviation Objects := (gmap (string * string) Stored).

Section Service.
Context (tenant : string) (catalog : Catalog) `{Ident.Ulid} `{ContentLibraries, !AuthorityLibraries} `{IdempotencyLibraries, !AuthorityStore.ReferenceJson} `{UploadJson}.
Context (policy : UploadPolicy) (retention : Z) (default_registry : Registry).

Definition sequence_permitted (s : CaptureSession) (method : Name) (now : Time) (frame : option TemporalFrame) : bool :=
  match frame with
  | None => true
  | Some f => String.eqb method MethodLiveCamera && negb (before (CapturedAt f) (SCreatedAt s)) && negb (after (CapturedAt f) now)
  end.

(** [Issue] up to the transaction; [CaptureSnapshot] is a use case of
    [AuthorityService], and its answer an argument. *)
Definition issue_built (c : CaptureContext) (key : string) (input : UploadRequest) (at_ : Time) (snapshot : result Authority.Error AuthorityStore.Snapshot)
    (uploadID evidenceID : option string) : result UploadError (UploadRecord * Request) :=
  let now := now_of at_ in
  let session := ContextSession c in
  reject empty_string (ContextTenant c) || empty_string (TokenID c) || negb (String.eqb (STenantID session) (ContextTenant c)) ||
         before now (SCreatedAt session) || negb (AcceptsCaptureAt session now) with ErrProcessingNotPermitted ;;
  match Resolve catalog (CaptureProfile.PRegistry (SRequirements session)) with
  | Err _ => Err ErrQuery
  | Ok registry =>
      match CaptureProfile.resolveUploadRequirement (SRequirements session) (Wanted input) with
      | None => Err ErrProcessingNotPermitted
      | Some requirement =>
          let artefact := CaptureProfile.UArtefact (Wanted input) in
          let method := CaptureProfile.UMethod (Wanted input) in
          reject negb (CaptureProfile.member artefact (CaptureProfile.EffectiveArtefacts requirement (SSelections session))) with ErrProcessingNotPermitted ;;
          reject negb (sequence_permitted session method now (WSequence input)) with ErrProcessingNotPermitted ;;
          match CaptureProfile.resolveUploadConstraints (AllowedMediaTypes policy) (MaximumBytes policy) requirement with
          | Err _ => Err ErrQuery
          | Ok (mediaTypes, maximumBytes) =>
              match CaptureProfile.uploadAssurances registry requirement method with
              | None => Err ErrProcessingNotPermitted
              | Some assurances =>
                  let? s := authority_error snapshot in
                  let a := AuthorityStore.SnapshotAuthority s in
                  let? _ := authority_error (Evaluate a (AuthorityStore.SnapshotNotice s) (AuthorityStore.SnapshotResponse s)
                    (mk_grant_request (ContextTenant c) (SID session) (Authority.SubjectID a) (CaptureProfile.RPurpose requirement)
                       (CaptureProfile.REvidenceType requirement) (Authority.RecipientReference a) (WRegion input)) now) in
                  match AuthorityStore.SnapshotResponse s with
                  | None => Err ErrQuery
                  | Some response =>
                      reject negb (String.eqb (CaptureTokenID response) (TokenID c)) with ErrSubjectResponseRequired ;;
                      match marshal_upload_request input with
                      | None => Err ErrQuery
                      | Some canonical =>
                          match NewRequest (ContextTenant c) (TokenID c) OperationCreateUpload key canonical now retention, uploadID, evidenceID with
                          | Ok request, Some uploadID, Some evidenceID =>
                              let? upload := NewUpload (mk_upload_input
                                (mk_terms uploadID (ContextTenant c) (TokenID c) (Authority.SubjectID a) (SID session) evidenceID (Authority.ID a)
                                   (Authority.ResponseID response) (SProfileID session) (SProfileRevision session) (SProfileDigest session)
                                   (vocabulary_reference registry) (CaptureProfile.RKey requirement) (CaptureProfile.RPurpose requirement)
                                   (CaptureProfile.REvidenceType requirement) artefact method (fallback_text (CaptureProfile.UFallback (Wanted input)))
                                   assurances "" mediaTypes maximumBytes (WExpectedBytes input) (WExpectedDigest input) (WMediaType input) (WRegion input)
                                   (RetentionReference a) 0 now zero_time)
                                (SExpiresAt session) (WSequence input)) (asset_registry registry) policy in
                              Ok (upload, request)
                          | _, _, _ => Err ErrQuery
                          end
                      end
                  end
              end
          end
      end
  end.

(** ** Preflight *)

Record UploadPrincipal := mk_principal { PScope : string; PToken : string; PVerification : string }.
Record UploadMetadata := mk_metadata { ExpectedVersion : Z; ContentLength : Z; MMediaType : string; MDigest : string }.

(** [Find], given what [FindUpload] answered. *)
Definition preflight_find (p : UploadPrincipal) (identifier : string) (t : Tables) : result UploadError UploadRecord :=
  reject empty_string (PScope p) || empty_string (PToken p) || empty_string (PVerification p) || empty_string identifier with ErrUploadNotFound ;;
  let? u := FindUpload (PScope p) catalog t identifier in
  reject negb (String.eqb (UTenantID (terms u)) (PScope p)) || negb (String.eqb (UCaptureTokenID (terms u)) (PToken p)) ||
         negb (String.eqb (UVerificationID (terms u)) (PVerification p)) with ErrUploadNotFound ;;
  Ok u.

(** [Begin] before the claim: an accepted upload is answered to the precondition its
    attempt had and to its own version. *)
Inductive Preflight := Replayed (u : UploadRecord) | ToClaim.
Definition preflight_begin (m : UploadMetadata) (u : UploadRecord) : result UploadError Preflight :=
  reject negb (ContentLength m =? ExpectedBytes (terms u)) || negb (String.eqb (MMediaType m) (UMediaType (terms u))) ||
         negb (String.eqb (MDigest m) (ExpectedDigest (terms u))) with ErrUploadMetadata ;;
  if upload_state_is (UState u) UploadStateAccepted then
    if (ExpectedVersion m =? UVersion u) || ((0 <? ExpectedVersion m) && (ExpectedVersion m =? UVersion u - 2)) then Ok (Replayed u) else Err ErrUploadVersionConflict
  else if upload_state_is (UState u) UploadStateUploading && (ExpectedVersion m =? UVersion u - 1) then Err ErrUploadConflict
  else reject negb (ExpectedVersion m =? UVersion u) with ErrUploadVersionConflict ;; Ok ToClaim.

(** ** Protection *)

Definition no_content : ContentRecord :=
  mk_content (ObjectStore.mk_object "" "" 0 "") (Crypto.mk_envelope 0 "" "" (Kms.mk_wrapped "" "" "" "" "") 0 "") "" "".
Definition protection_record (u : UploadRecord) (registry : Registry) (createdAt : Time) (content : ContentRecord) : Record_ :=
  let t := terms u in
  mk_record (UEvidenceID t) tenant (USubjectID t) (UVerificationID t) (URequirementKey t) (UEvidenceType t) (UArtefact t) (UAcquisitionMethod t)
    (UAssurances t) (registry_reference registry) (URegion t) (URetentionClass t) 1 content (IntegrityOther "") (Evidence.StateOther "") 0 (utc createdAt) zero_time "" None.
Definition protection_key (evidenceID : string) : string := "tenants/" +:+ tenant +:+ "/evidence/" +:+ evidenceID +:+ "/content/1".

(** [Prepare] up to the object store: the registry and the key. *)
Definition prepare_start (u : UploadRecord) (createdAt : Time) : result UploadError (Registry * string) :=
  let t := terms u in
  reject empty_string tenant || empty_string (UEvidenceID t) || empty_string (USubjectID t) || empty_string (UVerificationID t) || is_zero createdAt with ErrInvalid ;;
  reject match parse_media_type (UMediaType t) with Some mediaType => empty_string mediaType | None => true end || (200 <? slen (UMediaType t)) ||
         negb (no_line_break (UMediaType t)) with ErrInvalid ;;
  let? registry := if (SchemaVersion (URegistry t) =? 0) || bool_decide (URegistry t = registry_reference default_registry) then Ok default_registry
                   else registry_of catalog (URegistry t) in
  match AuthenticatedContext (protection_record u registry createdAt no_content), ObjectStore.NewKey (protection_key (UEvidenceID t)) with
  | Some _, Some key => Ok (registry, key)
  | _, _ => Err ErrInvalid
  end.
Definition prepared_asset (u : UploadRecord) (registry : Registry) (createdAt : Time) (object : ObjectStore.ObjectRecord) (envelope : Crypto.EnvelopeRecord)
    (plaintext : string) : result UploadError Record_ :=
  match NewAvailable (protection_record u registry createdAt (mk_content object envelope (Sum plaintext) (UMediaType (terms u)))) registry with
  | Ok a => Ok a
  | Err _ => Err ErrInvalid
  end.

(** ** Objects *)

Definition version_of (object : ObjectStore.ObjectRecord) : string * string := (ObjectStore.Key object, ObjectStore.ObjectVersion object).
Definition remove (k : string * string) (objects : Objects) : Objects :=
  alter (fun s => mk_stored false (modified s) (put_upload s) (put_attempt s) (put_lease s)) k objects.

(** Deletion is idempotent; a failed one may have deleted. *)
Inductive DeleteAnswer := Removed | RemoveFailed (applied : bool).
Definition delete_object (k : string * string) (answer : DeleteAnswer) (objects : Objects) : Objects :=
  match answer with Removed | RemoveFailed true => remove k objects | RemoveFailed false => objects end.

(** What a put left in the store, and whether the provider names it. *)
Record Written := mk_written { WVersion : string; WSize : Z; WChecksum : string; WModified : Time }.
Inductive PutAnswer := PutStored (w : Written) (envelope : Crypto.EnvelopeRecord) | PutFailed (left : option (Written * bool)).
Definition written_object (key : string) (w : Written) : ObjectStore.ObjectRecord := ObjectStore.mk_object key (WVersion w) (WSize w) (WChecksum w).
Definition put_object (u : UploadRecord) (key : string) (w : Written) (objects : Objects) : Objects :=
  <[(key, WVersion w) := mk_stored true (WModified w) (UploadID (terms u)) (Attempt u) (default zero_time (LeaseExpiresAt u))]> objects.
Definition version_taken (key : string) (answer : PutAnswer) (objects : Objects) : bool :=
  match answer with
  | PutStored w _ | PutFailed (Some (w, _)) => match objects !! (key, WVersion w) with Some _ => true | None => false end
  | PutFailed None => false
  end.

(** ** Acceptance *)

(** One request: its credential, session, body, and the sizes in which the sealer
    reads. *)
Record Accepting := mk_accepting {
  QTenant : string; QSession : CaptureSession; QToken : string; QUpload : string; QMetadata : UploadMetadata; QBody : UploadBody.Source }.
Definition principal (q : Accepting) : UploadPrincipal := mk_principal (QTenant q) (QToken q) (SID (QSession q)).

Definition uploadSignatureRejection : string := "evidence.upload.signature_mismatch".
Definition uploadAuthorityRejection : string := "evidence.upload.authority_denied".
Definition uploadRejectionReason (cause : UploadError) : string :=
  match cause with ErrUploadSignature => uploadSignatureRejection | ErrProcessingNotPermitted => uploadAuthorityRejection | _ => "" end.
(** The error of the body, if it is more than an unfinished one. *)
Definition staging_cause (reader : UploadBody.UploadReader) : UploadError :=
  match UploadBody.Result reader with Err ErrUploadBodyIncomplete | Ok _ => ErrQuery | Err e => e end.

(** The live evaluation before the commit. *)
Definition accept_authorised (u : UploadRecord) (s : AuthorityStore.Snapshot) (now : Time) : result UploadError unit :=
  let t := terms u in
  let a := AuthorityStore.SnapshotAuthority s in
  reject negb (String.eqb (Authority.ID a) (UAuthorityID t)) ||
         match AuthorityStore.SnapshotResponse s with Some r => negb (String.eqb (Authority.ResponseID r) (UResponseID t)) | None => true end
    with ErrProcessingNotPermitted ;;
  authority_error (Evaluate a (AuthorityStore.SnapshotNotice s) (AuthorityStore.SnapshotResponse s)
    (mk_grant_request tenant (UVerificationID t) (USubjectID t) (UPurpose t) (UEvidenceType t) (Authority.RecipientReference a) (URegion t)) now).

(** The result of the body, then the session, the authority and the event. *)
Definition accept_checked (q : Accepting) (u : UploadRecord) (body : result UploadError (Z * string)) (now : Time)
    (snapshot : result Authority.Error AuthorityStore.Snapshot) (event : option string) : result UploadError (Z * string) :=
  let? validated := body in
  reject negb (AcceptsCaptureAt (QSession q) now) with ErrProcessingNotPermitted ;;
  let? s := authority_error snapshot in
  let? _ := accept_authorised u s now in
  match event with Some event => Ok (validated.1, event) | None => Err ErrQuery end.

(** ** Progress *)

Definition maxCaptureCompletions : Z := 256.
Record CaptureCompletion := mk_completion {
  CUpload : string; CEvidence : string; CRequirementKey : string; CEvidenceType : Name; CArtefact : Name; CMethod : Name; CFallback : string }.
Definition completion_of (u : UploadRecord) : CaptureCompletion :=
  let t := terms u in
  mk_completion (UploadID t) (UEvidenceID t) (URequirementKey t) (UEvidenceType t) (UArtefact t) (UAcquisitionMethod t) (FallbackCondition t).
Fixpoint completions_of (p : UploadPrincipal) (t : Tables) (seenUploads seenEvidence : list string) (uploads : list UploadRecord)
  : result UploadError (list CaptureCompletion) :=
  match uploads with
  | [] => Ok []
  | u :: rest =>
      reject negb (upload_state_is (UState u) UploadStateAccepted) || negb (String.eqb (UTenantID (terms u)) (PScope p)) ||
             negb (String.eqb (UVerificationID (terms u)) (PVerification p)) with ErrQuery ;;
      reject negb (String.eqb (UCaptureTokenID (terms u)) (PToken p)) && negb (AllowsRecoveredUpload t (PToken p) (UploadID (terms u))) with ErrUploadNotFound ;;
      reject existsb (String.eqb (UploadID (terms u))) seenUploads || existsb (String.eqb (UEvidenceID (terms u))) seenEvidence with ErrQuery ;;
      let? l := completions_of p t (UploadID (terms u) :: seenUploads) (UEvidenceID (terms u) :: seenEvidence) rest in
      Ok (completion_of u :: l)
  end.
Definition progress_find (p : UploadPrincipal) (t : Tables) : result UploadError (list CaptureCompletion) :=
  reject empty_string (PScope p) || empty_string (PToken p) || empty_string (PVerification p) with ErrUploadNotFound ;;
  let? uploads := ListAcceptedUploads (PScope p) catalog t (PToken p) (PVerification p) (maxCaptureCompletions + 1) in
  reject maxCaptureCompletions <? llen uploads with ErrQuery ;;
  completions_of p t [] [] uploads.

(** ** Reconciliation *)

(** What the rows say of a claimed obligation: retain, or delete the object. *)
Inductive Verdict := Retain | DeleteFirst.
Definition determine (o : ReconciliationRecord) (u : UploadRecord) (asset : result UploadError Record_) : result UploadError Verdict :=
  if upload_state_is (UState u) UploadStateAccepted then
    let? a := asset in
    reject negb (Attempt u =? UploadAttempt o) || negb (same_object (Object_ (Evidence.Content a)) (OObject o)) with ErrReconciliationConflict ;;
    Ok Retain
  else
    match asset with
    | Ok _ => Err ErrReconciliationConflict
    | Err ErrUploadNotFound => Ok DeleteFirst
    | Err e => Err e
    end.

(** ** Orphan discovery *)

Definition MinimumOrphanAge : Z := MaximumUploadAttemptTimeout + 5 * minute.
Definition versionEntropyBytes : Z := 16.
Definition digit_value (c : ascii) : option Z := if is_digit c then Some (Content.byte_of_ascii c - 48) else None.
Fixpoint parse_digits (acc : Z) (s : string) : option Z :=
  match s with
  | EmptyString => Some acc
  | String c rest => d ← digit_value c; parse_digits (10 * acc + d) rest
  end.
(** [strconv.ParseUint] in base 10. *)
Definition ParseUint (s : string) : option Z :=
  if empty_string s then None else n ← parse_digits 0 s; if n <? 2 ^ 64 then Some n else None.
Definition ownedInventoryObject (o : ObjectStore.InventoryRecord) : bool :=
  match ObjectStore.split_path (ObjectStore.InventoryKey o) with
  | [tenants; owner; evidence; identifier; content; revision] =>
      String.eqb tenants "tenants" && String.eqb owner tenant && String.eqb evidence "evidence" && String.eqb content "content" &&
      is_ok (Ident.ParseEvidence identifier) && match ParseUint revision with Some n => negb (n =? 0) | None => false end &&
      match hex_decode (ObjectStore.InventoryVersion o) with
      | Some version => (slen version =? versionEntropyBytes) && String.eqb (hex_encode version) (ObjectStore.InventoryVersion o)
      | None => false
      end
  | _ => false
  end.

Record OrphanDiscoveryResult := mk_discovery { Examined : Z; Deferred : Z; Referenced : Z; Ignored : Z; Deleted : Z; Next : string }.
Definition counted (r : OrphanDiscoveryResult) (deferred referenced ignored deleted : Z) : OrphanDiscoveryResult :=
  mk_discovery (Examined r + deferred + referenced + ignored) (Deferred r + deferred) (Referenced r + referenced) (Ignored r + ignored) (Deleted r + deleted) (Next r).

(** The provider lists objects that are there. *)
Definition inventory (objects : Objects) (keys : list (string * string)) : list ObjectStore.InventoryRecord :=
  omap (fun k => s ← objects !! k; if present s then ObjectStore.NewInventoryObject (ObjectStore.mk_inventory k.1 k.2 0 (modified s)) else None) keys.

(** ** The workers *)

Inductive Op :=
| OpIssue (c : CaptureContext) (key : string) (input : UploadRequest)
| OpAccept (c : CaptureContext) (uploadID : string) (m : UploadMetadata) (body : UploadBody.Source)
| OpProgress (p : UploadPrincipal)
| OpReconcile
| OpDiscover (cursor : string) (limit : Z).

Inductive Answer :=
| AnswerUpload (r : result UploadError UploadRecord)
| AnswerProgress (r : result UploadError (list CaptureCompletion))
| AnswerReconciled (r : result UploadError ReconciliationState)
| AnswerDiscovered (r : OrphanDiscoveryResult) (e : option UploadError).

Inductive Local :=
| Idle
| Creating (u : UploadRecord) (request : Request)
| Claiming (q : Accepting)
| Claimed (q : Accepting) (u : UploadRecord)
| Compensating (q : Accepting) (u : UploadRecord) (object : ObjectStore.ObjectRecord) (cause : UploadError)
| RecordingOrphan (q : Accepting) (u : UploadRecord) (object : ObjectStore.ObjectRecord) (occurredAt : option Time) (cause : UploadError)
| Staged (q : Accepting) (u : UploadRecord) (a : Record_) (body : result UploadError (Z * string))
| DiscardingUnrecorded (q : Accepting) (u : UploadRecord) (a : Record_) (now : Time) (cause : UploadError)
| Recorded (q : Accepting) (u : UploadRecord) (a : Record_) (now : Time) (body : result UploadError (Z * string))
| Committing (q : Accepting) (u : UploadRecord) (a : Record_) (now : Time) (bytes : Z) (event : string)
| Discarding (q : Accepting) (u : UploadRecord) (a : Record_) (now : Time) (cause : UploadError)
| Resolving (q : Accepting) (u : UploadRecord) (a : Record_) (now : Time) (cause : UploadError)
| Failing (q : Accepting) (u : UploadRecord) (cause : UploadError)
| Reconciling (o : ReconciliationRecord)
| ReconcilingAsset (o : ReconciliationRecord) (u : UploadRecord)
| DeletingObject (o : ReconciliationRecord)
| Completing (o : ReconciliationRecord) (state : ReconciliationState)
| Retrying (o : ReconciliationRecord) (cause : UploadError)
| Discovering (cutoff : Time) (objects : list ObjectStore.InventoryRecord) (next : string) (r : OrphanDiscoveryResult)
| DeletingOrphan (cutoff : Time) (object : ObjectStore.InventoryRecord) (objects : list ObjectStore.InventoryRecord) (next : string) (r : OrphanDiscoveryResult)
| Returned (answer : Answer).

Record Input := mk_input {
  crash : bool; op : Op; clock : Time; store_clock : Time; fresh_upload : option string; fresh_evidence : option string; fresh_event : option string;
  snapshot : result Authority.Error AuthorityStore.Snapshot; locked : bool; locked_rows : gset (string * Z); admits : bool; emits : bool;
  commit : Commit; fate : Fate; seal_sizes : list nat; put : PutAnswer; deletes : DeleteAnswer; page : option (list (string * string) * string) }.

Record Shared := mk_shared { store : Idempotency.Tables Tables; objects : Objects }.
Definition tables (s : Shared) : Tables := domain (store s).
Definition with_tables (s : Shared) (t : Tables) : Shared := mk_shared (Idempotency.mk_tables t (records (store s))) (objects s).
Definition with_objects (s : Shared) (o : Objects) : Shared := mk_shared (store s) o.

Context (claimTimeout retryDelay minimumAge : Z).

Definition failed (e : UploadError) : Local := Returned (AnswerUpload (Err e)).

Definition start (i : Input) (s : Shared) : Local * Shared :=
  match op i with
  | OpIssue c key input =>
      match issue_built c key input (clock i) (snapshot i) (fresh_upload i) (fresh_evidence i) with
      | Ok (u, request) => (Creating u request, s)
      | Err e => (failed e, s)
      end
  | OpAccept c uploadID m body =>
      let session := ContextSession c in
      if empty_string (ContextTenant c) || empty_string (TokenID c) || empty_string (SID session) || negb (String.eqb (STenantID session) (ContextTenant c))
      then (failed ErrProcessingNotPermitted, s)
      else
        let q := mk_accepting (ContextTenant c) session (TokenID c) uploadID m body in
        match (let? u := preflight_find (principal q) uploadID (tables s) in preflight_begin m u) with
        | Err e => (failed e, s)
        | Ok (Replayed u) => (Returned (AnswerUpload (Ok u)), s)
        | Ok ToClaim => (Claiming q, s)
        end
  | OpProgress p => (Returned (AnswerProgress (progress_find p (tables s))), s)
  | OpReconcile =>
      match ClaimObjectReconciliation tenant (locked_rows i) (now_of (clock i)) claimTimeout (tables s) (fate i) with
      | (Ok o, t) => (Reconciling o, with_tables s t)
      | (Err e, t) => (Returned (AnswerReconciled (Err e)), with_tables s t)
      end
  | OpDiscover cursor limit =>
      let r := mk_discovery 0 0 0 0 0 cursor in
      if empty_string tenant || negb (ObjectStore.ValidInventoryCursor cursor) || (limit <? 1) || (ObjectStore.MaxInventoryPageSize <? limit)
      then (Returned (AnswerDiscovered r (Some ErrInvalid)), s)
      else
        match ObjectStore.NewKey ("tenants/" +:+ tenant +:+ "/evidence"), page i with
        | Some _, Some (keys, next) => (Discovering (add (utc (clock i)) (- minimumAge)) (inventory (objects s) keys) next r, s)
        | _, _ => (Returned (AnswerDiscovered r (Some ErrQuery)), s)
        end
  end.

(** Protection, from the claimed attempt to the staged object. *)
Definition prepare (q : Accepting) (u : UploadRecord) (i : Input) (s : Shared) : Local * Shared :=
  match UploadBody.NewUploadReader u (QBody q) with
  | Err e => (Failing q u e, s)
  | Ok reader =>
      match prepare_start u (now_of (clock i)) with
      | Err e => (Failing q u ErrQuery, s)
      | Ok (registry, key) =>
          let '(plaintext, reader) := UploadBody.consume (seal_sizes i) reader in
          let cause := staging_cause reader in
          match put i with
          | PutStored w envelope =>
              let object := written_object key w in
              if version_taken key (put i) (objects s) then (Failing q u cause, s) else
              match ObjectStore.NewObject object with
              | None => (Failing q u cause, with_objects s (put_object u key w (objects s)))
              | Some object =>
                  match prepared_asset u registry (now_of (clock i)) object envelope plaintext with
                  | Ok a => (Staged q u a (UploadBody.Result reader), with_objects s (put_object u key w (objects s)))
                  | Err _ => (Compensating q u object cause, with_objects s (put_object u key w (objects s)))
                  end
              end
          | PutFailed (Some (w, named)) =>
              if version_taken key (put i) (objects s) then (Failing q u cause, s) else
              let s := with_objects s (put_object u key w (objects s)) in
              match ObjectStore.NewObject (written_object key w) with
              | Some object => (if named then Compensating q u object cause else Failing q u cause, s)
              | None => (Failing q u cause, s)
              end
          | PutFailed None => (Failing q u cause, s)
          end
      end
  end.

(** [recordFailure]. *)
Definition record_failure (q : Accepting) (u : UploadRecord) (cause : UploadError) (i : Input) (t : Tables) : result UploadError UploadRecord * Tables :=
  let now := now_of (clock i) in
  let reason := uploadRejectionReason cause in
  if negb (empty_string reason) && before now (UExpiresAt (terms u)) && leased_at u now
  then RejectUploadAttempt tenant catalog (QToken q) (UploadID (terms u)) (UVersion u) (Attempt u) reason now (admits i) t (fate i)
  else FailUploadAttempt tenant catalog (QToken q) (UploadID (terms u)) (UVersion u) (Attempt u) now (admits i) t (fate i).

Definition discover (cutoff : Time) (o : ObjectStore.InventoryRecord) (rest : list ObjectStore.InventoryRecord) (next : string) (r : OrphanDiscoveryResult) (t : Tables) : Local :=
  if negb (ownedInventoryObject o) then Discovering cutoff rest next (counted r 0 0 1 0)
  else if after (ObjectStore.ModifiedAt o) cutoff then Discovering cutoff rest next (counted r 1 0 0 0)
  else
    match IsObjectReferenced tenant t (ObjectStore.InventoryKey o) (ObjectStore.InventoryVersion o) with
    | Err e => Returned (AnswerDiscovered (mk_discovery (Examined r + 1) (Deferred r) (Referenced r) (Ignored r) (Deleted r) (Next r)) (Some e))
    | Ok true => Discovering cutoff rest next (counted r 0 1 0 0)
    | Ok false => DeletingOrphan cutoff o rest next r
    end.

Definition work (l : Local) (i : Input) (s : Shared) : Local * Shared :=
  if crash i then (Idle, s) else
  let t := tables s in
  match l with
  | Idle => start i s
  | Creating u request =>
      let '(r, store) := CreateUpload tenant catalog (store s) u request (locked i) (store_clock i) (admits i) (commit i) in
      (Returned (AnswerUpload r), mk_shared store (objects s))
  | Claiming q =>
      match ClaimUploadAttempt tenant catalog (QToken q) (QUpload q) (ExpectedVersion (QMetadata q)) (now_of (clock i)) (store_clock i) (admits i) t (fate i) with
      | (Ok u, t) => (Claimed q u, with_tables s t)
      | (Err e, t) => (failed e, with_tables s t)
      end
  | Claimed q u => prepare q u i s
  | Compensating q u object cause =>
      (match deletes i with Removed => Failing q u cause | RemoveFailed _ => RecordingOrphan q u object None cause end,
       with_objects s (delete_object (version_of object) (deletes i) (objects s)))
  | RecordingOrphan q u object occurredAt cause =>
      match CreateObjectReconciliationForObject tenant u object (default (now_of (clock i)) occurredAt) t (fate i) with
      | (Ok _, t) => (Failing q u cause, with_tables s t)
      | (Err _, t) => (failed cause, with_tables s t)
      end
  | Staged q u a body =>
      match CreateObjectReconciliation tenant u a (now_of (clock i)) t (fate i) with
      | (Ok _, t) => (Recorded q u a (now_of (clock i)) body, with_tables s t)
      | (Err e, t) => (DiscardingUnrecorded q u a (now_of (clock i)) e, with_tables s t)
      end
  | DiscardingUnrecorded q u a now cause =>
      (match deletes i with Removed => Failing q u cause | RemoveFailed _ => RecordingOrphan q u (Object_ (Evidence.Content a)) (Some now) cause end,
       with_objects s (delete_object (version_of (Object_ (Evidence.Content a))) (deletes i) (objects s)))
  | Recorded q u a now body =>
      match accept_checked q u body now (snapshot i) (fresh_event i) with
      | Ok (bytes, event) => (Committing q u a now bytes event, s)
      | Err e => (Discarding q u a now e, s)
      end
  | Committing q u a now bytes event =>
      match AcceptUpload tenant catalog (mk_acceptance (UploadID (terms u)) (QToken q) (UVersion u) (Attempt u) a bytes event now) (store_clock i) (emits i) (admits i) t (fate i) with
      | (Ok u, t) => (Returned (AnswerUpload (Ok u)), with_tables s t)
      | (Err ErrUploadAcceptanceOutcomeUnknown, t) => (failed ErrAcceptanceReconciliationRequired, with_tables s t)
      | (Err e, t) => (Discarding q u a now e, with_tables s t)
      end
  | Discarding q u a now cause =>
      (match deletes i with Removed => Resolving q u a now cause | RemoveFailed _ => Failing q u cause end,
       with_objects s (delete_object (version_of (Object_ (Evidence.Content a))) (deletes i) (objects s)))
  | Resolving q u a now cause =>
      (Failing q u cause,
       with_tables s (ResolveObjectReconciliation tenant (UploadID (terms u)) (Attempt u) (Object_ (Evidence.Content a)) ReconciliationDeleted now t (fate i)).2)
  | Failing q u cause => (failed cause, with_tables s (record_failure q u cause i t).2)
  | Reconciling o =>
      match FindUpload tenant catalog t (OUploadID o) with
      | Ok u => (if String.eqb (UEvidenceID (terms u)) (OEvidenceID o) then ReconcilingAsset o u else Retrying o ErrReconciliationConflict, s)
      | Err e => (Retrying o e, s)
      end
  | ReconcilingAsset o u =>
      (match determine o u (find_asset catalog t (OEvidenceID o)) with
       | Ok Retain => Completing o ReconciliationRetained
       | Ok DeleteFirst => DeletingObject o
       | Err e => Retrying o e
       end, s)
  | DeletingObject o =>
      (match deletes i with Removed => Completing o ReconciliationDeleted | RemoveFailed _ => Retrying o ErrQuery end,
       with_objects s (delete_object (version_of (OObject o)) (deletes i) (objects s)))
  | Completing o state =>
      let '(r, t) := CompleteObjectReconciliation o state (now_of (clock i)) t (fate i) in
      (Returned (AnswerReconciled (match r with Ok _ => Ok state | Err e => Err e end)), with_tables s t)
  | Retrying o cause =>
      (Returned (AnswerReconciled (Err cause)), with_tables s (RetryObjectReconciliation o (now_of (clock i)) retryDelay t (fate i)).2)
  | Discovering cutoff [] next r => (Returned (AnswerDiscovered (mk_discovery (Examined r) (Deferred r) (Referenced r) (Ignored r) (Deleted r) next) None), s)
  | Discovering cutoff (o :: rest) next r => (discover cutoff o rest next r t, s)
  | DeletingOrphan cutoff o rest next r =>
      (match deletes i with
       | Removed => Discovering cutoff rest next (mk_discovery (Examined r + 1) (Deferred r) (Referenced r) (Ignored r) (Deleted r + 1) (Next r))
       | RemoveFailed _ => Returned (AnswerDiscovered (mk_discovery (Examined r + 1) (Deferred r) (Referenced r) (Ignored r) (Deleted r) (Next r)) (Some ErrQuery))
       end, with_objects s (delete_object (ObjectStore.InventoryKey o, ObjectStore.InventoryVersion o) (deletes i) (objects s)))
  | Returned answer => (l, s)
  end.
End Service.
End UploadService.
