(* ===== verification/UploadSafety.v ===== *)
(** * What uploads, acceptance and recovery guarantee together

    Over every interleaving of the workers of [UploadService], with the writers of
    sessions, tokens and authority: the object of an accepted asset is never deleted,
    by whichever of its acceptor, the reconciler and the orphan discovery; what an
    acceptance rested on; and an obligation that is never resolved.

    Readings of the store's clock do not go backwards, the application's clock is not
    ahead of it, and the provider dates an object at most five minutes early. *)

From S2P Require Import Prelude GoTime Ident Content Lifecycle Evidence Registry Idempotency Authority Profile AuthorityService AuthoritySafety Upload UploadBody UploadStore UploadService.
From Stdlib Require Import Ascii.
Import Uploads UploadStore UploadService.

Create HintDb upload.

(** ** Transactions *)

Lemma settle_cases {A : Type} lost t fate (body : result UploadError (A * Tables)) r t' : settle lost t fate body = (r, t') ->
  (t' = t /\ is_ok r = false) \/ exists a, body = Ok (a, t') /\ (r = Ok a \/ r = Err lost).
Proof. unfold settle. destruct body as [[a x]|e]; [destruct fate as [| |[]]|]; intros [= <- <-]; eauto. Qed.

(** The rows of uploads only change as their trigger allows, and stay. *)
Definition row_step (r r' : UploadRecord) : Prop := r' = r \/ upload_change_valid r r' = true.
Definition rows_step (t t' : Tables) : Prop :=
  forall k r, uploads t !! k = Some r -> exists r', uploads t' !! k = Some r' /\ row_step r r'.
Definition obligation_step (o o' : ReconciliationRecord) : Prop :=
  OUploadID o' = OUploadID o /\ OEvidenceID o' = OEvidenceID o /\ UploadAttempt o' = UploadAttempt o /\ OObject o' = OObject o /\ obligation_change_valid o o' = true.

Lemma rows_step_refl t : rows_step t t.
Proof. intros k r Hr. exists r. split; [done|by left]. Qed.
Lemma rows_step_same t t' : uploads t' = uploads t -> rows_step t t'.
Proof. intros He k r Hr. exists r. rewrite He. split; [done|by left]. Qed.
#[export] Hint Resolve rows_step_refl rows_step_same : upload.

(** *** Instants *)

Lemma instant_utc t : instant (utc t) = instant t.
Proof. done. Qed.
Lemma now_of_le t : instant (now_of t) <= instant t.
Proof. unfold now_of. pose proof (truncate_le (utc t) microsecond) as H. unfold microsecond in *. specialize (H ltac:(lia)). rewrite instant_utc in H. lia. Qed.
Lemma instant_later_of a b : instant a <= instant (later_of a b).
Proof. unfold later_of, before. destruct (instant a <? instant b) eqn:He; bprop; lia. Qed.

(** *** Restored uploads *)

Lemma RestoreUpload_same row r u : RestoreUpload row r = Ok u ->
  UState u = UState row /\ UVersion u = UVersion row /\ Attempt u = Attempt row /\ terms u = utc_terms (terms row) /\
  LeaseExpiresAt u = option_map utc (LeaseExpiresAt row) /\ UAttemptTimeout (terms row) <= MaximumUploadAttemptTimeout.
Proof.
  unfold RestoreUpload. intros H. go_inv H. split_and!; try done. destruct v. unfold validateUploadRecord in Hv. go_inv Hv. destruct v. clear Hv Hg Hv1.
  cbn [terms] in Hv0. unfold validate_terms in Hv0. go_inv Hv0. destruct (validateAcquisition _ _ _ _ _) as [assurances|]; [|done]. go_inv Hv0.
  cbn [utc_terms UAttemptTimeout] in *. bprop. lia.
Qed.

Section Store.
Context (tenant : string) (catalog : Catalog) `{ContentLibraries, !AuthorityLibraries}.

Lemma restoreUpload_same row u : restoreUpload catalog row = Ok u ->
  UState u = UState row /\ UVersion u = UVersion row /\ Attempt u = Attempt row /\ terms u = utc_terms (terms row) /\
  LeaseExpiresAt u = option_map utc (LeaseExpiresAt row) /\ UAttemptTimeout (terms row) <= MaximumUploadAttemptTimeout.
Proof. unfold restoreUpload. intros Hx. go_inv Hx. by apply RestoreUpload_same in Hx. Qed.

Lemma restoreTemporalFrame_same t u u' : restoreTemporalFrame t u = Ok u' ->
  UState u' = UState u /\ UVersion u' = UVersion u /\ Attempt u' = Attempt u /\ terms u' = terms u /\ LeaseExpiresAt u' = LeaseExpiresAt u.
Proof.
  unfold restoreTemporalFrame. destruct (frames t !! _) as [row|]; [|by intros [= ->]]. intros Hx. go_inv Hx. unfold WithTemporalFrame in Hx. by go_inv Hx.
Qed.

Lemma update_upload_effect t next version admits u t' : update_upload catalog t next version admits = Ok (u, t') ->
  exists row stored, uploads t !! UploadID (terms next) = Some row /\ UVersion row = version /\ stored = with_frame next None /\ upload_change_valid row stored = true /\
    restoreUpload catalog stored = Ok u /\ t' = with_uploads t (<[UploadID (terms next) := stored]> (uploads t)).
Proof.
  unfold update_upload. intros Hx. go_inv Hx. destruct (uploads t !! _) as [row|] eqn:Hr; [|done]. go_inv Hx. bprop. eexists _, _. split_and!; try done.
Qed.

Lemma insertUploadAudit_same t u p a r t' : insertUploadAudit t u p a r = Ok t' ->
  uploads t' = uploads t /\ assets t' = assets t /\ obligations t' = obligations t.
Proof. unfold insertUploadAudit. intros Hx. by go_inv Hx. Qed.

Lemma rows_step_insert t k row stored : uploads t !! k = Some row -> upload_change_valid row stored = true -> rows_step t (with_uploads t (<[k := stored]> (uploads t))).
Proof.
  intros Hr Hv k' r Hr'. cbn [uploads with_uploads]. destruct (decide (k' = k)) as [->|Hne].
  - rewrite lookup_insert_eq. exists stored. split; [done|]. right. congruence.
  - rewrite lookup_insert_ne by done. exists r. split; [done|by left].
Qed.

(** What a transition of an upload does to the tables. *)
Definition uploads_only (t t' : Tables) : Prop := rows_step t t' /\ assets t' = assets t /\ obligations t' = obligations t.
Lemma uploads_only_refl t : uploads_only t t.
Proof. split_and!; auto with upload. Qed.

Lemma transition_body_effect principal identifier starting transition now admits t u t' :
  transition_body catalog principal identifier starting transition now admits t = Ok (u, t') ->
  uploads_only t t' /\ exists row current next action reason, uploads t !! identifier = Some row /\ restoreUpload catalog row = Ok current /\
    transition current = Ok (next, action, reason) /\ restoreUpload catalog (with_frame next None) = Ok u /\ uploads t' !! UploadID (terms next) = Some (with_frame next None).
Proof.
  unfold transition_body. destruct (uploads t !! identifier) as [row|] eqn:Hr; [|done]. intros Hx. go_inv Hx. destruct v1 as [[next action] reason].
  go_inv Hx. destruct v1 as [u' t1]. apply update_upload_effect in Hv2 as (row' & stored & Hr' & _ & -> & Hc & Hu & ->). cbn [fst snd] in *.
  apply insertUploadAudit_same in Hv3 as (Hu' & Ha & Ho). split.
  - split_and!; [|done..]. intros k r Hk. destruct (rows_step_insert _ _ _ _ Hr' Hc _ _ Hk) as (r' & Hk' & Hs). exists r'. by rewrite Hu'.
  - exists row, v0, next, action, reason. split_and!; try done. rewrite Hu'. cbn [uploads with_uploads]. apply lookup_insert_eq.
Qed.

Lemma transitionUpload_effect principal identifier starting transition now admits t fate r t' :
  transitionUpload tenant catalog principal identifier starting transition now admits t fate = (r, t') ->
  uploads_only t t' /\ (forall u, r = Ok u -> transition_body catalog principal identifier starting transition (utc now) admits t = Ok (u, t')).
Proof.
  unfold transitionUpload. destruct (_ || _); [intros [= <- <-]; split; [apply uploads_only_refl|done]|].
  intros [[-> He]|(u & Hb & Hr)]%settle_cases; [split; [apply uploads_only_refl|by destruct r]|]. split; [by apply transition_body_effect in Hb as [? _]|].
  intros u' ->. by destruct Hr as [[= ->]|].
Qed.

(** *** The lease of an attempt *)

(** The attempt is the current one with this lease, or a past one. *)
Definition attempt_of (t : Tables) (k : string) (n : Z) (lease : Time) : Prop :=
  exists row, uploads t !! k = Some row /\ n <= Attempt row /\ (Attempt row = n -> forall l, LeaseExpiresAt row = Some l -> instant l = instant lease).

Lemma row_step_attempt r r' : row_step r r' -> Attempt r' = Attempt r /\ (LeaseExpiresAt r' = LeaseExpiresAt r \/ LeaseExpiresAt r' = None) \/ Attempt r' = Attempt r + 1.
Proof.
  intros [->|Hc]; [left; auto|]. unfold upload_change_valid in Hc. bprop.
  repeat (match goal with Hd : _ \/ _ |- _ => destruct Hd end; bprop); try (right; done); left; (split; [done|right]); unfold is_none in *; by destruct (LeaseExpiresAt r').
Qed.

Lemma attempt_of_step t t' k n lease : rows_step t t' -> attempt_of t k n lease -> attempt_of t' k n lease.
Proof.
  intros Hs (row & Hr & Hn & Hl). destruct (Hs _ _ Hr) as (row' & Hr' & Hstep). exists row'. split; [done|].
  destruct (row_step_attempt _ _ Hstep) as [[He Hle]|He]; [|split; [lia|intros; lia]]. split; [lia|]. rewrite He. intros Hn' l Hl'.
  destruct Hle as [Hle|Hle]; rewrite Hle in Hl'; [by apply Hl|done].
Qed.

Lemma lease_of_bound t now : instant (lease_of t now) <= instant now + UAttemptTimeout t.
Proof. unfold lease_of, before, add. cbn. destruct (_ <? _) eqn:He; bprop; cbn; lia. Qed.

Lemma ClaimUploadAttempt_effect principal identifier version at_ now admits t fate r t' :
  ClaimUploadAttempt tenant catalog principal identifier version at_ now admits t fate = (r, t') ->
  uploads_only t t' /\ forall u, r = Ok u -> exists lease, LeaseExpiresAt u = Some lease /\ instant lease <= instant at_ + MaximumUploadAttemptTimeout /\
    UState u = UploadStateUploading /\ attempt_of t' (UploadID (terms u)) (Attempt u) lease.
Proof.
  unfold ClaimUploadAttempt. intros [Hs Hu]%transitionUpload_effect. split; [done|]. intros u Hr. apply Hu, transition_body_effect in Hr as (_ & row & current & next & action & reason & Hrow & Hc & Hn & Hres & Hk).
  apply restoreUpload_same in Hc as (_ & _ & _ & Ht & _ & Hto). unfold claiming in Hn. go_inv Hn. unfold ClaimAttempt in Hv. go_inv Hv.
  apply restoreUpload_same in Hres as (Hst & _ & Ha & Ht' & Hle & _). cbn [LeaseExpiresAt with_frame option_map UState Attempt terms] in *. exists (utc (lease_of (terms current) (utc at_))).
  split_and!; [done| |done|].
  - pose proof (lease_of_bound (terms current) (utc at_)) as Hb. rewrite Ht in Hb at 2. rewrite instant_utc in *. cbn [utc_terms UAttemptTimeout] in Hb. lia.
  - rewrite Ht'. cbn [utc_terms UploadID]. eexists. split; [exact Hk|]. rewrite Ha. split; [cbn [with_frame Attempt]; lia|]. intros _ l [= <-]. done.
Qed.

(** *** Obligations *)

Definition same_obligation (o o' : ReconciliationRecord) : Prop :=
  OUploadID o' = OUploadID o /\ OEvidenceID o' = OEvidenceID o /\ UploadAttempt o' = UploadAttempt o /\ OObject o' = OObject o.
Lemma same_obligation_trans a b c : same_obligation a b -> same_obligation b c -> same_obligation a c.
Proof. unfold same_obligation. intuition congruence. Qed.

Definition normal (o : ReconciliationRecord) : ReconciliationRecord :=
  mk_obligation (OTenantID o) (OUploadID o) (OEvidenceID o) (UploadAttempt o) (OObject o) (OState o) (OVersion o) (OClaim o)
    (utc (AvailableAt o)) (option_map utc (OLease o)) (utc (OCreatedAt o)) (utc (OUpdatedAt o)) (option_map utc (ResolvedAt o)).
Lemma RestoreObjectReconciliation_normal o o' : RestoreObjectReconciliation o = Ok o' -> o' = normal o.
Proof. unfold RestoreObjectReconciliation. intros Hx. go_inv Hx. cbn [OState] in Hx. unfold normal. destruct (OState o); go_inv Hx; done. Qed.

Definition key_of (o : ReconciliationRecord) : string * Z := (OUploadID o, UploadAttempt o).
Lemma key_of_same row o : same_obligation row o -> key_of o = key_of row.
Proof. unfold key_of. by intros (-> & _ & -> & _). Qed.
Definition coherent (t : Tables) : Prop := forall k o, obligations t !! k = Some o -> k = key_of o.

(** At most one row changes, as its trigger allows; a claim is dated by its caller. *)
Definition obligations_step (bound : Z) (t t' : Tables) : Prop :=
  obligations t' = obligations t \/
  exists row o, obligations t !! key_of o = Some row /\ same_obligation row o /\ obligation_change_valid row o = true /\
    (OState o = ReconciliationClaimed -> instant (OUpdatedAt o) <= bound) /\ obligations t' = <[key_of o := o]> (obligations t).
Definition obligations_only (bound : Z) (t t' : Tables) : Prop := uploads t' = uploads t /\ assets t' = assets t /\ obligations_step bound t t'.
Lemma obligations_only_refl bound t : obligations_only bound t t.
Proof. split_and!; [done..|by left]. Qed.

Lemma insertObligationAudit_same t o a t' : insertObligationAudit t o a = Ok t' ->
  uploads t' = uploads t /\ assets t' = assets t /\ obligations t' = obligations t.
Proof. unfold insertObligationAudit. intros Hx. by go_inv Hx. Qed.

Lemma persist_obligation_effect t current next action t' : persist_obligation t current next action = Ok t' ->
  uploads t' = uploads t /\ assets t' = assets t /\ exists row, obligations t !! key_of next = Some row /\ OVersion row = OVersion current /\
    obligation_change_valid row next = true /\ obligations t' = <[key_of next := next]> (obligations t).
Proof.
  unfold persist_obligation, key_of. destruct (obligations t !! _) as [row|]; [|done]. intros Hx. go_inv Hx. apply insertObligationAudit_same in Hx as (-> & -> & ->).
  bprop. split_and!; [done..|]. exists row. by split_and!.
Qed.

Lemma transition_obligation_effect bound upload attempt transition t fate r t' :
  coherent t ->
  (forall current next action, transition current = Ok (next, action) -> empty_string action = false ->
     same_obligation current next /\ (OState next = ReconciliationClaimed -> instant (OUpdatedAt next) <= bound)) ->
  transition_obligation upload attempt transition t fate = (r, t') -> obligations_only bound t t'.
Proof.
  intros Hco Htr. unfold transition_obligation. destruct (_ <? _); [intros [= <- <-]; apply obligations_only_refl|].
  intros [[-> _]|([] & Hb & _)]%settle_cases; [apply obligations_only_refl|]. destruct (obligations t !! _) as [row|] eqn:Hrow; [|done]. go_inv Hb.
  destruct v0 as [next action]. cbn [fst snd] in *. destruct (empty_string action) eqn:Ha; [injection Hb as <-; apply obligations_only_refl|]. go_inv Hb.
  destruct (Htr _ _ _ Hv0 Ha) as [Hsame Hclaim]. apply RestoreObjectReconciliation_normal in Hv. subst v.
  apply persist_obligation_effect in Hv1 as (Hu & Has & row' & Hrow' & _ & Hc & Ho). split_and!; [done..|]. right. exists row', next. split_and!; try done.
  assert (Hs : same_obligation row next) by (by eapply same_obligation_trans, Hsame). replace row' with row; [done|].
  rewrite (key_of_same _ _ Hs), <- (Hco _ _ Hrow) in Hrow'. congruence.
Qed.

Lemma Resolve_same o state now o' : Resolve_ o state now = Ok o' -> same_obligation o o' /\ OState o' <> ReconciliationClaimed.
Proof.
  unfold Resolve_. intros Hx. go_inv Hx. apply RestoreObjectReconciliation_normal in Hx. subst o'. split; [done|]. cbn [normal OState with_disposition].
  intros ->. by rewrite orb_true_r in Hg.
Qed.
Lemma Retry_same o now delay o' : Retry o now delay = Ok o' -> same_obligation o o' /\ OState o' = ReconciliationPending.
Proof. unfold Retry. intros Hx. go_inv Hx. apply RestoreObjectReconciliation_normal in Hx. by subst o'. Qed.
Lemma ClaimForRecovery_same o now timeout o' : ClaimForRecovery o now timeout = Ok o' ->
  same_obligation o o' /\ OState o' = ReconciliationClaimed /\ instant (OUpdatedAt o') = instant now.
Proof. unfold ClaimForRecovery. intros Hx. go_inv Hx. apply RestoreObjectReconciliation_normal in Hx. by subst o'. Qed.

Lemma ResolveObjectReconciliation_effect bound upload attempt object state at_ t fate r t' : coherent t ->
  ResolveObjectReconciliation tenant upload attempt object state at_ t fate = (r, t') -> obligations_only bound t t'.
Proof.
  intros Hco. unfold ResolveObjectReconciliation. destruct (_ || _); [intros [= <- <-]; apply obligations_only_refl|].
  apply transition_obligation_effect; [done|]. intros current next action Hx Ha. go_inv Hx. destruct (obligation_is _ _); [injection Hx as <- <-; done|].
  go_inv Hx. apply Resolve_same in Hv as [Hs Hne]. done.
Qed.
Lemma RetryObjectReconciliation_effect bound claimed at_ delay t fate r t' : coherent t ->
  RetryObjectReconciliation claimed at_ delay t fate = (r, t') -> obligations_only bound t t'.
Proof.
  intros Hco. unfold RetryObjectReconciliation. apply transition_obligation_effect; [done|]. intros current next action Hx Ha. unfold fenced in Hx. go_inv Hx.
  apply Retry_same in Hv as [Hs Hp]. split; [done|congruence].
Qed.
Lemma CompleteObjectReconciliation_effect bound claimed state at_ t fate r t' : coherent t ->
  CompleteObjectReconciliation claimed state at_ t fate = (r, t') -> obligations_only bound t t'.
Proof.
  intros Hco. unfold CompleteObjectReconciliation. apply transition_obligation_effect; [done|]. intros current next action Hx Ha. unfold fenced in Hx. go_inv Hx.
  apply Resolve_same in Hv as [Hs Hne]. done.
Qed.

Lemma next_ready_row rows now t row : coherent t -> next_ready t rows now = Some row -> obligations t !! key_of row = Some row.
Proof.
  intros Hco. unfold next_ready. destruct (order_by_columns _ _) as [|row' l] eqn:Hsort; [done|]. intros [= ->].
  assert (Hrow : row ∈ row :: l) by by left. rewrite <- Hsort, order_by_columns_perm in Hrow. apply list_elem_of_fmap in Hrow as ((k & row') & -> & Hk).
  apply list_elem_of_In, filter_In in Hk as [Hk _]. apply list_elem_of_In, elem_of_map_to_list in Hk. cbn [snd]. by rewrite <- (Hco _ _ Hk).
Qed.

Lemma ClaimObjectReconciliation_effect rows now timeout t fate r t' : coherent t -> ClaimObjectReconciliation tenant rows now timeout t fate = (r, t') ->
  obligations_only (instant now) t t' /\ forall o, r = Ok o -> OState o = ReconciliationClaimed /\ obligations t' !! key_of o = Some o /\
    instant (OUpdatedAt o) <= instant now /\ exists row, obligations t !! key_of o = Some row /\ same_obligation row o /\ obligation_change_valid row o = true.
Proof.
  intros Hco. unfold ClaimObjectReconciliation. destruct (_ || _); [intros [= <- <-]; split; [apply obligations_only_refl|done]|].
  intros [[-> He]|(o & Hb & Hr)]%settle_cases; [split; [apply obligations_only_refl|by destruct r]|].
  destruct (next_ready _ _ _) as [row|] eqn:Hnext; [|done]. apply (next_ready_row _ _ _ _ Hco) in Hnext. go_inv Hb.
  apply RestoreObjectReconciliation_normal in Hv. subst v. apply ClaimForRecovery_same in Hv0 as (Hs & Hst & Hup).
  apply persist_obligation_effect in Hv1 as (Hu & Has & row' & Hrow' & _ & Hc & Ho).
  assert (Hs' : same_obligation row o) by (by eapply same_obligation_trans, Hs).
  assert (row' = row) as -> by (rewrite (key_of_same _ _ Hs') in Hrow'; congruence).
  split; [split_and!; [done..|]; right; exists row, o; split_and!; try done; intros; lia|]. intros o' ->. destruct Hr as [[= ->]|]; [|done].
  rewrite Ho, lookup_insert_eq. split_and!; [done|done|lia|]. by exists row.
Qed.

Lemma NewObjectReconciliationForObject_ok u object at_ o : NewObjectReconciliationForObject u object at_ = Ok o ->
  exists lease, LeaseExpiresAt u = Some lease /\ OUploadID o = UploadID (terms u) /\ UploadAttempt o = Attempt u /\ OObject o = object /\
    OState o = ReconciliationPending /\ instant lease <= instant (AvailableAt o).
Proof.
  unfold NewObjectReconciliationForObject. destruct (LeaseExpiresAt u) as [lease|]; [|done]. intros Hx. go_inv Hx. apply RestoreObjectReconciliation_normal in Hx. subst o.
  exists lease. split_and!; try done. cbn. exact (instant_later_of lease at_).
Qed.

(** A new obligation is the one asked for. *)
Definition obligation_created (made : result UploadError ReconciliationRecord) (t t' : Tables) : Prop :=
  obligations t' = obligations t \/ exists o, made = Ok o /\ obligations t !! key_of o = None /\ obligations t' = <[key_of o := o]> (obligations t).
Lemma create_obligation_effect made t fate r t' : create_obligation tenant made t fate = (r, t') ->
  uploads t' = uploads t /\ assets t' = assets t /\ obligation_created made t t'.
Proof.
  assert (Hrefl : uploads t = uploads t /\ assets t = assets t /\ obligation_created made t t) by (split_and!; [done..|by left]).
  unfold create_obligation. destruct made as [o|e]; [|by intros [= _ <-]]. destruct (_ || _); [by intros [= _ <-]|].
  intros [[-> _]|([] & Hb & _)]%settle_cases; [done|]. unfold create_obligation_body in Hb. go_inv Hb. destruct (obligations t !! _) as [row|] eqn:Hk; go_inv Hb; [done|].
  apply insertObligationAudit_same in Hv0 as (-> & -> & Ho). split_and!; [done..|]. right. by exists o.
Qed.

(** *** Acceptance *)

(** The session, the credential, the declaration and the latest response permit the
    upload, when it was decided and when it is committed. *)
Record permitted_acceptance (db : AuthorityStore.Database) (u : UploadRecord) (occurredAt observedAt : Time) : Prop := mk_permitted {
  pa_order : instant occurredAt <= instant observedAt;
  pa_intent : instant observedAt < instant (UExpiresAt (terms u));
  pa_lease : leased_at u observedAt = true;
  pa_session : exists session, AuthorityStore.sessions db !! UVerificationID (terms u) = Some session /\
    AuthorityStore.SessionState_ session = Lifecycle.SessionStateCollecting /\ instant observedAt < instant (AuthorityStore.SessionExpires session) /\
    exists x, AuthorityStore.Binding session = Some x /\ x.1.2 = UAuthorityID (terms u);
  pa_token : exists token, AuthorityStore.tokens db !! UCaptureTokenID (terms u) = Some token /\
    AuthorityStore.TokenVerification token = UVerificationID (terms u) /\ AuthorityStore.RevokedAt token = None /\
    instant observedAt < instant (AuthorityStore.TokenExpires token);
  pa_authority : exists row notice_row response_row declaration notice response,
    AuthorityStore.authorities db !! UAuthorityID (terms u) = Some row /\ Restore row = Ok declaration /\
    AuthorityStore.notices db !! ANoticeID row = Some notice_row /\ RestoreNotice notice_row = Ok notice /\
    AuthorityStore.latest_response db (Authority.ID row) = Some response_row /\ NewResponse response_row = Ok response /\
    Authority.ResponseID response_row = UResponseID (terms u) /\ CaptureTokenID response_row = UCaptureTokenID (terms u) /\
    Evaluate declaration notice (Some response) (upload_request tenant u (Authority.RecipientReference declaration)) occurredAt = Ok () /\
    Evaluate declaration notice (Some response) (upload_request tenant u (Authority.RecipientReference declaration)) observedAt = Ok ();
}.

Lemma authority_error_Ok {A : Type} (r : result Authority.Error A) a : authority_error r = Ok a -> r = Ok a.
Proof. destruct r as [x|e]; [by intros [= ->]|by destruct e]. Qed.
Lemma Evaluate_utc a n r q t : Evaluate a n r q (utc t) = Evaluate a n r q t.
Proof. done. Qed.

Lemma ValidateUploadAcceptanceWithin_ok db u occurredAt observedAt :
  ValidateUploadAcceptanceWithin tenant db u occurredAt observedAt = Ok () -> permitted_acceptance db u occurredAt observedAt.
Proof.
  unfold ValidateUploadAcceptanceWithin. intros Hx. go_inv Hx. destruct (AuthorityStore.sessions db !! _) as [session|] eqn:Hs; [|done]. go_inv Hx.
  destruct (AuthorityStore.tokens db !! _) as [token|] eqn:Ht; [|done]. go_inv Hx.
  destruct (AuthorityStore.authorities db !! _) as [row|] eqn:Ha; [|done]. go_inv Hx. apply authority_error_Ok in Hv.
  destruct (AuthorityStore.notices db !! _) as [notice_row|] eqn:Hn; [|done]. go_inv Hx. apply authority_error_Ok in Hv0.
  destruct (AuthorityStore.latest_response _ _) as [response_row|] eqn:Hl; [|done]. go_inv Hx. apply authority_error_Ok in Hv1.
  destruct v2. apply authority_error_Ok in Hv2, Hx. rewrite Evaluate_utc in Hx.
  assert (Hrevoked : AuthorityStore.RevokedAt token = None) by (bprop; unfold is_none in *; by destruct (AuthorityStore.RevokedAt token)).
  assert (Hbound : exists x, AuthorityStore.Binding session = Some x /\ x.1.2 = UAuthorityID (terms u)).
  { apply orb_false_iff in Hg0 as [_ Hb]. destruct (AuthorityStore.Binding session) as [[[? a] ?]|]; [|done]. bprop. by eexists. }
  unfold Lifecycle.state_is in *. bprop. unfold before, after in *. bprop. cbn [instant utc] in *.
  split; [lia|lia|done|by exists session; split_and!|by exists token; split_and!|]. by exists row, notice_row, response_row, v, v0, v1.
Qed.

(** The asset is exactly what the intent asked for. *)
Record accepted_asset (u : UploadRecord) (m : Acceptance) : Prop := mk_accepted {
  aa_bytes : ACBytes m = ExpectedBytes (terms u);
  aa_digest : PlaintextDigest (Evidence.Content (ACAsset m)) = ExpectedDigest (terms u);
  aa_media : MediaType (Evidence.Content (ACAsset m)) = UMediaType (terms u);
  aa_binds : binds u (ACAsset m) = true;
}.

Record acceptance_effect (t t' : Tables) (m : Acceptance) (observedAt : Time) (row : UploadRecord) (o : ReconciliationRecord) : Prop := mk_effect {
  ae_row : uploads t !! ACUpload m = Some row;
  ae_state : UState row = UploadStateUploading /\ Attempt row = ACAttempt m /\ UVersion row = ACVersion m;
  ae_lease : exists lease, LeaseExpiresAt row = Some lease /\ instant observedAt < instant lease;
  ae_permitted : permitted_acceptance (base t) row (ACAt m) observedAt;
  ae_asset : accepted_asset row m;
  ae_fresh : assets t !! Evidence.ID (ACAsset m) = None;
  ae_assets : assets t' = <[Evidence.ID (ACAsset m) := ACAsset m]> (assets t);
  ae_obligation : obligations t !! (ACUpload m, ACAttempt m) = Some o /\ OState o = ReconciliationPending /\
    OObject o = Object_ (Evidence.Content (ACAsset m)) /\ OEvidenceID o = Evidence.ID (ACAsset m);
  ae_obligations : obligations t' = <[(ACUpload m, ACAttempt m) := retained o (ACAt m)]> (obligations t);
  ae_rows : rows_step t t';
  ae_events : events t' = events t ++ [mk_event (ACEvent m) (Evidence.ID (ACAsset m)) EventEvidenceReady (ACAt m)];
}.

Lemma publish_same t v token at_ t' : publish t v token at_ = Ok t' ->
  uploads t' = uploads t /\ assets t' = assets t /\ obligations t' = obligations t /\ events t' = events t.
Proof.
  unfold publish. destruct (AuthorityStore.sessions _ !! v) as [session|]; [|done]. destruct (AuthorityStore.tokens _ !! token) as [row|]; [|done].
  destruct (captures t !! v) as [[[p|] [s|] c]|]; try done; intros Hx; go_inv Hx; try done.
  destruct (CaptureProfile.captureProfileProgress _ _ _) as [[total finished]|]; [|done]. go_inv Hx. destruct (finished =? total); done.
Qed.

Lemma restoreUpload_permitted db row u current t occurredAt observedAt :
  restoreUpload catalog row = Ok u -> restoreTemporalFrame t u = Ok current -> permitted_acceptance db current occurredAt observedAt -> permitted_acceptance db row occurredAt observedAt.
Proof.
  intros (_ & _ & _ & Ht & Hl & _)%restoreUpload_same (_ & _ & _ & Ht' & Hl')%restoreTemporalFrame_same [A1 A2 A3 A4 A5 A6]. assert (Hq : upload_request tenant current = upload_request tenant row) by (unfold upload_request; by rewrite Ht', Ht).
  rewrite Hq in A6. rewrite Ht', Ht in A2, A4, A5, A6. cbn [utc_terms UExpiresAt UVerificationID UAuthorityID UCaptureTokenID UResponseID] in *.
  split; [done|done| |done|done|done]. unfold leased_at in *. rewrite Hl', Hl in A3. by destruct (LeaseExpiresAt row).
Qed.

Lemma insert_asset_effect t a t' : insert_asset t a = Ok t' -> assets t !! Evidence.ID a = None /\ assets t' = <[Evidence.ID a := a]> (assets t) /\
  uploads t' = uploads t /\ obligations t' = obligations t /\ events t' = events t.
Proof.
  unfold insert_asset. intros Hx. go_inv Hx. split_and!; try done. bprop. unfold is_none in *. by destruct (assets t !! _).
Qed.
Lemma insertObligationAudit_events t o a t' : insertObligationAudit t o a = Ok t' -> events t' = events t.
Proof. unfold insertObligationAudit. intros Hx. by go_inv Hx. Qed.
Lemma retain_effect t m t' : retain t m = Ok t' -> uploads t' = uploads t /\ assets t' = assets t /\ events t' = events t /\
  exists o, obligations t !! (ACUpload m, ACAttempt m) = Some o /\ OState o = ReconciliationPending /\
    OObject o = Object_ (Evidence.Content (ACAsset m)) /\ OEvidenceID o = Evidence.ID (ACAsset m) /\
    obligations t' = <[(ACUpload m, ACAttempt m) := retained o (ACAt m)]> (obligations t).
Proof.
  unfold retain. destruct (obligations t !! _) as [o|] eqn:Ho; [|done]. intros Hx. go_inv Hx. pose proof (insertObligationAudit_events _ _ _ _ Hx) as He.
  apply insertObligationAudit_same in Hx as (Hu & Ha & Hob). split_and!; [done..|]. exists o. unfold obligation_is, same_object in *. bprop. split_and!; done.
Qed.
Lemma insert_event_effect t e a ty at_ t' : insert_event t e a ty at_ = Ok t' -> uploads t' = uploads t /\ assets t' = assets t /\ obligations t' = obligations t /\
  events t' = events t ++ [mk_event e a ty at_].
Proof. unfold insert_event. intros Hx. by go_inv Hx. Qed.
Lemma insertUploadAudit_events t u p a r t' : insertUploadAudit t u p a r = Ok t' -> events t' = events t.
Proof. unfold insertUploadAudit. intros Hx. by go_inv Hx. Qed.

Lemma Accept_ok u version attempt a bytes now u' : Accept u version attempt a bytes now = Ok u' ->
  version = UVersion u /\ UState u = UploadStateUploading /\ Attempt u = attempt /\ bytes = ExpectedBytes (terms u) /\ binds u a = true /\
  PlaintextDigest (Evidence.Content a) = ExpectedDigest (terms u) /\ MediaType (Evidence.Content a) = UMediaType (terms u) /\ terms u' = terms u.
Proof. unfold Accept. intros Hx. go_inv Hx. unfold current_attempt, upload_state_is in *. bprop. by split_and!. Qed.

Lemma binds_terms u u' a : terms u' = utc_terms (terms u) -> binds u' a = binds u a.
Proof. intros Ht. unfold binds. by rewrite Ht. Qed.

Lemma accept_body_effect m observedAt emits admits t u t' : accept_body tenant catalog m observedAt emits admits t = Ok (u, t') ->
  exists row o, acceptance_effect t t' m observedAt row o.
Proof.
  unfold accept_body. destruct (AuthorityStore.sessions _ !! _) as [session|]; [|done]. destruct (uploads t !! ACUpload m) as [row|] eqn:Hrow; [|done].
  intros Hx. go_inv Hx. destruct v1. apply ValidateUploadAcceptanceWithin_ok in Hv1. pose proof (restoreUpload_permitted _ _ _ _ _ _ _ Hv Hv0 Hv1) as Hperm. clear Hv1.
  apply restoreUpload_same in Hv as (Hst & Hver & Hatt & Hterms & Hlease & _). apply restoreTemporalFrame_same in Hv0 as (Hst' & Hver' & Hatt' & Hterms' & Hlease').
  apply Accept_ok in Hv3 as (Av & As & Aa & Ab & Abind & Ad & Am & At). rewrite Hterms' in *. rewrite Hterms in Hterms'. rewrite (binds_terms row) in Abind by done.
  apply insert_asset_effect in Hv4 as (Hfresh & Ha & Hu & Ho & He). apply retain_effect in Hv5 as (Ru & Ra & Re & o & Rk & Rp & Ro & Rev & Rob).
  destruct v6 as [u' t6]. apply update_upload_effect in Hv6 as (row' & stored & Hr' & Hv' & -> & Hc & Hu' & Ht6). cbn [fst snd] in *.
  pose proof (insertUploadAudit_events _ _ _ _ _ _ Hv7) as Ie. apply insertUploadAudit_same in Hv7 as (Iu & Ia & Io).
  apply insert_event_effect in Hv8 as (Eu & Ea & Eo & Ee). apply publish_same in Hv9 as (Pu & Pa & Po & Pe).
  exists row, o. split; try done.
  - by rewrite <- Hst, <- Hst', As, <- Hatt, <- Hatt', Aa, <- Hver, <- Hver', Av.
  - destruct Hperm as [_ _ Hl _ _ _]. unfold leased_at in Hl. destruct (LeaseExpiresAt row) as [lease|]; [|done]. exists lease. by apply before_true in Hl.
  - rewrite Hterms in *. by split.
  - rewrite Pa, Ea, Ia, Ht6. cbn [assets with_uploads]. by rewrite Ra.
  - rewrite <- Ho. by split_and!.
  - rewrite Po, Eo, Io, Ht6. cbn [obligations with_uploads]. by rewrite Rob, Ho.
  - intros k r Hk. rewrite Pu, Eu, Iu, Ht6. apply (rows_step_insert _ _ _ _ Hr' Hc). by rewrite Ru, Hu.
  - rewrite Pe, Ee, Ie, Ht6. cbn [events with_uploads]. by rewrite Re, He.
Qed.

Lemma AcceptUpload_effect m observedAt emits admits t fate r t' : AcceptUpload tenant catalog m observedAt emits admits t fate = (r, t') ->
  (t' = t /\ is_ok r = false) \/ (r <> Err ErrUploadAcceptanceOutcomeUnknown -> is_ok r = true) /\ exists row o, acceptance_effect t t' m observedAt row o.
Proof.
  unfold AcceptUpload. destruct (_ || _); [intros [= <- <-]; by left|]. destruct (negb _); [intros [= <- <-]; by left|].
  intros [[-> He]|(u & Hb & Hr)]%settle_cases; [by left|right]. apply accept_body_effect in Hb. split; [|done]. by destruct Hr as [->| ->].
Qed.

Lemma CreateUpload_effect `{IdempotencyLibraries, !AuthorityStore.ReferenceJson} t u request locked now admits c r t' :
  CreateUpload tenant catalog t u request locked now admits c = (r, t') -> uploads_only (domain t) (domain t').
Proof.
  unfold CreateUpload. destruct (_ || _); [intros [= _ <-]; apply uploads_only_refl|]. destruct (negb _); [intros [= _ <-]; apply uploads_only_refl|].
  intros [->|(x & res & at_ & d & Hb & ->)]%served_cases; [apply uploads_only_refl|]. unfold create_body in Hb. go_inv Hb.
  destruct (NewResult _ _) as [result|]; [|done]. injection Hb as <- <- <- <-. apply insertUploadAudit_same in Hv3 as (Hu & Ha & Ho).
  assert (Hf : uploads v2 = <[UploadID (terms u) := v1]> (uploads (domain t)) /\ assets v2 = assets (domain t) /\ obligations v2 = obligations (domain t)).
  { unfold insert_frame in Hv2. destruct (Sequence u) as [f|]; go_inv Hv2; done. }
  destruct Hf as (Fu & Fa & Fo). apply orb_false_iff in Hg as [Hnone _]. split_and!; [|by rewrite Ha|by rewrite Ho]. intros k row Hk. exists row. split; [|by left].
  rewrite Hu, Fu, lookup_insert_ne; [done|]. intros <-. rewrite Hk in Hnone. done.
Qed.
End Store.

(** ** Worlds *)

Record World := mk_world { shared : Shared; workers : gmap nat Local; time : Z }.

(** What the writers of other components change: sessions, tokens, authority and
    captures. *)
Definition with_base (t : Tables) (b : AuthorityStore.Database) (c : gmap string CaptureRow) (r : list (string * string)) : Tables :=
  mk_tables b c r (uploads t) (frames t) (assets t) (obligations t) (upload_audit t) (obligation_audit t) (asset_audit t) (events t).

(** A provider may date an object five minutes early. *)
Definition provider_skew : Z := 5 * minute.
Definition put_dated (i : Input) : Prop :=
  match put i with
  | PutStored w _ | PutFailed (Some (w, _)) => instant (store_clock i) - provider_skew <= instant (WModified w)
  | PutFailed None => True
  end.

Section Safety.
Context (tenant : string) (catalog : Catalog) `{Ident.Ulid} `{ContentLibraries, !AuthorityLibraries} `{IdempotencyLibraries, !AuthorityStore.ReferenceJson} `{UploadJson}.
Context (policy : UploadPolicy) (retention : Z) (default_registry : Registry) (claimTimeout retryDelay minimumAge : Z).
Abbreviation act := (work tenant catalog policy retention default_registry claimTimeout retryDelay minimumAge).

Inductive world_step : World -> World -> Prop :=
| world_work n i w l l' s' : workers w !! n = Some l -> time w <= instant (store_clock i) -> instant (clock i) <= instant (store_clock i) -> put_dated i ->
    act l i (shared w) = (l', s') -> world_step w (mk_world s' (<[n := l']> (workers w)) (instant (store_clock i)))
| world_other w b c r : world_step w (mk_world (with_tables (shared w) (with_base (tables (shared w)) b c r)) (workers w) (time w)).

(** A world without objects, assets and obligations, whose workers are idle. *)
Definition fresh_world (w : World) : Prop :=
  objects (shared w) = ∅ /\ assets (tables (shared w)) = ∅ /\ obligations (tables (shared w)) = ∅ /\ forall n l, workers w !! n = Some l -> l = Idle.

(** ** The invariant *)

Abbreviation Key := (string * string)%type.
Definition object_of (a : Record_) : Key := version_of (Object_ (Evidence.Content a)).
Definition inventory_key (o : ObjectStore.InventoryRecord) : Key := (ObjectStore.InventoryKey o, ObjectStore.InventoryVersion o).

(** The object a worker may still have accepted, one it holds, and one it may delete. *)
Definition live (l : Local) : option Key :=
  match l with Staged _ _ a _ | Recorded _ _ a _ _ | Committing _ _ a _ _ _ => Some (object_of a) | _ => None end.
Definition held (l : Local) : option Key :=
  match l with
  | Staged _ _ a _ | Recorded _ _ a _ _ | Committing _ _ a _ _ _ | Discarding _ _ a _ _ | DiscardingUnrecorded _ _ a _ _ => Some (object_of a)
  | Compensating _ _ object _ => Some (version_of object)
  | _ => None
  end.
Definition doomed (l : Local) : option Key :=
  match l with
  | Discarding _ _ a _ _ | DiscardingUnrecorded _ _ a _ _ => Some (object_of a)
  | Compensating _ _ object _ => Some (version_of object)
  | Reconciling o | ReconcilingAsset o _ | DeletingObject o | Completing o _ | Retrying o _ => Some (version_of (OObject o))
  | DeletingOrphan _ o _ _ _ => Some (inventory_key o)
  | _ => None
  end.

Section View.
Context (t : Tables) (os : Objects) (ws : gmap nat Local) (T : Z).

Definition unreferenced (k : Key) : Prop := forall e a, assets t !! e = Some a -> object_of a <> k.
Definition expired (k : Key) : Prop := exists s, os !! k = Some s /\ instant (put_lease s) <= T.
Definition no_live (k : Key) : Prop := forall n l, ws !! n = Some l -> live l <> Some k.
(** No acceptance can refer to it, now or later. *)
Definition gone (k : Key) : Prop := unreferenced k /\ is_Some (os !! k) /\ (expired k \/ no_live k).

Definition stored_ok (s : Stored) : Prop :=
  attempt_of t (put_upload s) (put_attempt s) (put_lease s) /\
  instant (put_lease s) <= instant (modified s) + provider_skew + MaximumUploadAttemptTimeout.
Definition obligation_ok (k : string * Z) (o : ReconciliationRecord) : Prop :=
  k = key_of o /\ exists s, os !! version_of (OObject o) = Some s /\ (put_upload s, put_attempt s) = k /\
    (OState o = ReconciliationPending -> instant (put_lease s) <= instant (AvailableAt o)) /\
    (OState o = ReconciliationClaimed -> instant (put_lease s) <= instant (OUpdatedAt o) <= T).
Definition asset_ok (a : Record_) : Prop :=
  exists s o, os !! object_of a = Some s /\ obligations t !! (put_upload s, put_attempt s) = Some o /\ OState o = ReconciliationRetained.

Definition claimed_ok (u : UploadRecord) : Prop :=
  exists lease, LeaseExpiresAt u = Some lease /\ instant lease <= T + MaximumUploadAttemptTimeout /\ attempt_of t (UploadID (terms u)) (Attempt u) lease.
Definition holds_ok (u : UploadRecord) (k : Key) : Prop :=
  exists s, os !! k = Some s /\ put_upload s = UploadID (terms u) /\ put_attempt s = Attempt u /\ LeaseExpiresAt u = Some (put_lease s).
Definition found_ok (cutoff : Time) (objects : list ObjectStore.InventoryRecord) : Prop :=
  instant cutoff <= T - MinimumOrphanAge /\
  forall o, o ∈ objects -> exists s, os !! inventory_key o = Some s /\ instant (modified s) = instant (ObjectStore.ModifiedAt o).

Definition local_ok (l : Local) : Prop :=
  match l with
  | Claimed _ u | Failing _ u _ => claimed_ok u
  | Compensating _ u object _ | RecordingOrphan _ u object _ _ => claimed_ok u /\ holds_ok u (version_of object)
  | Staged _ u a _ | DiscardingUnrecorded _ u a _ _ | Recorded _ u a _ _ | Committing _ u a _ _ _ | Discarding _ u a _ _ | Resolving _ u a _ _ =>
      claimed_ok u /\ holds_ok u (object_of a)
  | Discovering cutoff objects _ _ | DeletingOrphan cutoff _ objects _ _ => found_ok cutoff objects
  | _ => True
  end /\ (forall k, live l = Some k -> unreferenced k) /\ (forall k, doomed l = Some k -> gone k).

Record view_ok : Prop := mk_view {
  ok_stored k s : os !! k = Some s -> stored_ok s /\ (present s = false -> gone k);
  ok_obligations k o : obligations t !! k = Some o -> obligation_ok k o;
  ok_assets e a : assets t !! e = Some a -> asset_ok a;
  ok_locals n l : ws !! n = Some l -> local_ok l;
  ok_unique n m l l' k : ws !! n = Some l -> ws !! m = Some l' -> held l = Some k -> held l' = Some k -> n = m;
}.
End View.

(** ** Views evolve *)

Definition same_put (s s' : Stored) : Prop :=
  modified s' = modified s /\ put_upload s' = put_upload s /\ put_attempt s' = put_attempt s /\ put_lease s' = put_lease s.
(** Objects stay on record; a new one is fresh. *)
Definition objects_kept (os os' : Objects) : Prop := forall k s, os !! k = Some s -> exists s', os' !! k = Some s' /\ same_put s s'.

Section Monotone.
Context (t t' : Tables) (os os' : Objects) (T T' : Z).
Hypotheses (HT : T <= T') (Hrows : rows_step t t') (Hos : objects_kept os os').

Lemma expired_mono k : expired os T k -> expired os' T' k.
Proof. intros (s & Hs & Hl). destruct (Hos _ _ Hs) as (s' & Hs' & _ & _ & _ & He). exists s'. split; [done|]. rewrite He. lia. Qed.
Lemma holds_mono u k : holds_ok os u k -> holds_ok os' u k.
Proof. intros (s & Hs & Hu1 & Hu2 & Hu3). destruct (Hos _ _ Hs) as (s' & Hs' & _ & E1 & E2 & E3). exists s'. by rewrite E1, E2, E3. Qed.
Lemma claimed_mono u : claimed_ok t T u -> claimed_ok t' T' u.
Proof. intros (lease & Hl & Hb & Ha). exists lease. split_and!; [done|lia|]. by eapply attempt_of_step. Qed.
Lemma found_mono cutoff objects : found_ok os T cutoff objects -> found_ok os' T' cutoff objects.
Proof.
  intros [Hc Ho]. split; [lia|]. intros o (s & Hs & Hm)%Ho. destruct (Hos _ _ Hs) as (s' & Hs' & Em & _). exists s'. split; [done|]. by rewrite Em.
Qed.
Lemma obligation_mono k o : obligation_ok os T k o -> obligation_ok os' T' k o.
Proof.
  intros (Hk & s & Hs & He & Hp & Hc). split; [done|]. destruct (Hos _ _ Hs) as (s' & Hs' & _ & E1 & E2 & E3). exists s'. rewrite E1, E2, E3.
  split_and!; [done..|]. intros Hst. specialize (Hc Hst). lia.
Qed.
Lemma stored_mono s s' : same_put s s' -> stored_ok t s -> stored_ok t' s'.
Proof. intros (Em & Eu & En & El) [Ha Hb]. unfold stored_ok. rewrite Em, Eu, En, El. split; [by eapply attempt_of_step|done]. Qed.
End Monotone.

Lemma local_held os t ws T l k : local_ok t os ws T l -> held l = Some k -> is_Some (os !! k).
Proof. intros (Hl & _) Hk. destruct l; cbn in *; try done; injection Hk as <-; destruct Hl as (_ & s & Hs & _); by exists s. Qed.
Lemma live_held l k : live l = Some k -> held l = Some k.
Proof. by destruct l. Qed.
Lemma gone_time t os ws T T' k : T <= T' -> gone t os ws T k -> gone t os ws T' k.
Proof.
  intros HT (Hu & Hi & He). split_and!; [done..|]. destruct He as [He|He]; [left|by right]. eapply expired_mono; [exact HT| |exact He].
  intros k' s Hs. by exists s.
Qed.

(** One worker moves from [l] to [l']: rows and objects evolve, at most one object
    that is not gone is referenced anew, and only what [l] may delete disappears. *)
Section Next.
Context (t : Tables) (os : Objects) (ws : gmap nat Local) (T : Z) (t' : Tables) (os' : Objects) (T' : Z) (n : nat) (l l' : Local).
Hypotheses (Hok : view_ok t os ws T) (Hn : ws !! n = Some l) (HT : T <= T') (Hrows : rows_step t t') (Hos : objects_kept os os').
Hypothesis Hnew : forall k s', os' !! k = Some s' ->
  (exists s, os !! k = Some s /\ same_put s s' /\ (present s' = false -> present s = false \/ doomed l = Some k)) \/
  (os !! k = None /\ present s' = true /\ stored_ok t' s').
Hypothesis Hassets : forall e a, assets t' !! e = Some a ->
  assets t !! e = Some a \/ (asset_ok t' os' a /\ ~ gone t os ws T' (object_of a) /\ held l = Some (object_of a) /\ held l' = None).
Hypothesis Hlive : forall k, live l' = Some k -> live l = Some k \/ os !! k = None.
Hypothesis Hheld : forall k, held l' = Some k -> held l = Some k \/ os !! k = None.

Lemma gone_next k : gone t os ws T k -> gone t' os' (<[n := l']> ws) T' k.
Proof.
  intros Hg. pose proof (gone_time _ _ _ _ _ _ HT Hg) as Hg'. destruct Hg as (Hu & [s Hs] & He). split_and!.
  - intros e a Ha <-. destruct (Hassets _ _ Ha) as [Ha'|(_ & Hng & _)]; [by apply (Hu _ _ Ha')|done].
  - destruct (Hos _ _ Hs) as (s' & Hs' & _). by exists s'.
  - destruct He as [He|He]; [left; by eapply expired_mono|right]. intros m l0 [[<- <-]|[Hne Hm]]%lookup_insert_Some Hk; [|by eapply He].
    destruct (Hlive _ Hk) as [Hk'|Hk']; [by eapply He|congruence].
Qed.

Hypothesis Hobligations : forall k o, obligations t' !! k = Some o -> obligation_ok os' T' k o.
Hypothesis Hretained : forall k o, obligations t !! k = Some o -> OState o = ReconciliationRetained ->
  exists o', obligations t' !! k = Some o' /\ OState o' = ReconciliationRetained.
Hypothesis Hlocal : local_ok t' os' (<[n := l']> ws) T' l'.

Lemma asset_next a : asset_ok t os a -> asset_ok t' os' a.
Proof.
  intros (s & o & Hs & Ho & Hst). destruct (Hos _ _ Hs) as (s' & Hs' & _ & E1 & E2 & _). destruct (Hretained _ _ Ho Hst) as (o' & Ho' & Hst').
  exists s', o'. by rewrite E1, E2.
Qed.

Lemma other_next m l0 : m <> n -> ws !! m = Some l0 -> local_ok t' os' (<[n := l']> ws) T' l0.
Proof.
  intros Hm Hl0. pose proof (ok_locals _ _ _ _ Hok _ _ Hl0) as Hloc. destruct Hloc as (Hfact & Hunref & Hdoomed). split_and!.
  - destruct l0; cbn in *; try done; try (by eapply claimed_mono); try (by eapply found_mono);
      destruct Hfact as [Hc Hh]; (split; [by eapply claimed_mono|by eapply holds_mono]).
  - intros k Hk e a Ha <-. destruct (Hassets _ _ Ha) as [Ha'|(_ & _ & Hh & _)]; [by eapply Hunref|].
    apply Hm. eapply (ok_unique _ _ _ _ Hok); [exact Hl0|exact Hn|by apply live_held|done].
  - intros k Hk. by apply gone_next, Hdoomed.
Qed.

Lemma view_next : view_ok t' os' (<[n := l']> ws) T'.
Proof.
  pose proof (ok_locals _ _ _ _ Hok _ _ Hn) as Hl. split.
  - intros k s' Hs'. destruct (Hnew _ _ Hs') as [(s & Hs & Hsame & Hp)|(Hnone & Hp & Hst)].
    + destruct (ok_stored _ _ _ _ Hok _ _ Hs) as [Hst Hgone]. split; [by eapply stored_mono|]. intros Habs. apply gone_next.
      destruct (Hp Habs) as [Hp'|Hd]; [by apply Hgone|by apply Hl].
    + split; [done|congruence].
  - done.
  - intros e a Ha. destruct (Hassets _ _ Ha) as [Ha'|[? _]]; [|done]. by eapply asset_next, ok_assets.
  - intros m l0 [[<- <-]|[Hne Hm]]%lookup_insert_Some; [done|]. by eapply other_next.
  - assert (Hfresh : forall m l0 k, m <> n -> ws !! m = Some l0 -> held l0 = Some k -> held l' = Some k -> False).
    { intros m l0 k Hm Hl0 Hk Hk'. destruct (Hheld _ Hk') as [Hh|Hh]; [apply Hm; by eapply (ok_unique _ _ _ _ Hok)|].
      destruct (local_held _ _ _ _ _ _ (ok_locals _ _ _ _ Hok _ _ Hl0) Hk) as [s Hs]. congruence. }
    intros m1 m2 l1 l2 k [[<- <-]|[Hne1 Hm1]]%lookup_insert_Some [[<- <-]|[Hne2 Hm2]]%lookup_insert_Some Hk1 Hk2; [done| | |by eapply (ok_unique _ _ _ _ Hok)];
      exfalso; eapply Hfresh; eauto.
Qed.
End Next.

Lemma objects_kept_refl os : objects_kept os os.
Proof. intros k s Hs. by exists s. Qed.
#[local] Hint Resolve objects_kept_refl rows_step_refl : upload.

(** *** Steps over the same objects *)
Section Quiet.
Context (t : Tables) (os : Objects) (ws : gmap nat Local) (T : Z) (t' : Tables) (T' : Z) (n : nat) (l l' : Local).
Hypotheses (Hok : view_ok t os ws T) (Hn : ws !! n = Some l) (HT : T <= T').
Abbreviation ws' := (<[n := l']> ws).

Lemma gone_same k : rows_step t t' -> assets t' = assets t -> (forall k, live l' = Some k -> live l = Some k) -> gone t os ws T k -> gone t' os ws' T' k.
Proof.
  intros Hrows Ha Hlive. apply (gone_next t os ws T t' os T' n l l'); [done..|apply objects_kept_refl| |by left; auto]. intros e a. rewrite Ha. by left.
Qed.

(** What was live with this worker and is not any more is gone. *)
Lemma released_gone k : assets t' = assets t -> held l = Some k -> live l' = None -> unreferenced t k -> gone t' os ws' T' k.
Proof.
  intros Ha Hk Hl' Hu. split_and!.
  - intros e a. rewrite Ha. apply Hu.
  - by eapply local_held, Hk; apply (ok_locals _ _ _ _ Hok _ _ Hn).
  - right. intros m l0 [[<- <-]|[Hne Hm]]%lookup_insert_Some Hl0; [congruence|]. apply Hne. symmetry.
    eapply (ok_unique _ _ _ _ Hok); [exact Hm|exact Hn|by apply live_held|done].
Qed.

Lemma quiet_step : rows_step t t' -> assets t' = assets t ->
  (forall k o, obligations t' !! k = Some o -> obligation_ok os T' k o) ->
  (forall k o, obligations t !! k = Some o -> OState o = ReconciliationRetained -> exists o', obligations t' !! k = Some o' /\ OState o' = ReconciliationRetained) ->
  (forall k, live l' = Some k -> live l = Some k) -> (forall k, held l' = Some k -> held l = Some k) ->
  local_ok t' os ws' T' l' -> view_ok t' os ws' T'.
Proof.
  intros Hrows Ha Ho Hr Hlive Hheld Hlocal. apply (view_next t os ws T t' os T' n l l'); try done; try (by left; auto); [apply objects_kept_refl| |].
  - intros k s Hs. left. exists s. split_and!; [done..|by left].
  - intros e a. rewrite Ha. by left.
Qed.

Lemma obligations_same : obligations t' = obligations t ->
  (forall k o, obligations t' !! k = Some o -> obligation_ok os T' k o) /\
  (forall k o, obligations t !! k = Some o -> OState o = ReconciliationRetained -> exists o', obligations t' !! k = Some o' /\ OState o' = ReconciliationRetained).
Proof.
  intros He. rewrite He. split; [|by eauto]. intros k o Hk. eapply obligation_mono; [exact HT|apply objects_kept_refl|]. by apply (ok_obligations _ _ _ _ Hok).
Qed.

Lemma uploads_step : uploads_only t t' -> (forall k, live l' = Some k -> live l = Some k) -> (forall k, held l' = Some k -> held l = Some k) ->
  local_ok t' os ws' T' l' -> view_ok t' os ws' T'.
Proof. intros (Hrows & Ha & Ho) Hlive Hheld Hlocal. destruct (obligations_same Ho) as [Hob Hr]. by apply quiet_step. Qed.

Lemma coherent_view : coherent t.
Proof. intros k o Ho. by apply (ok_obligations _ _ _ _ Hok) in Ho as [Hk _]. Qed.

Lemma change_not_retained row o : obligation_change_valid row o = true -> OState row <> ReconciliationRetained.
Proof. unfold obligation_change_valid, obligation_is. intros Hc Hr. rewrite Hr in Hc. bprop. repeat (match goal with Hd : _ \/ _ |- _ => destruct Hd end; bprop); done. Qed.

(** The trigger keeps an unclaimed obligation unavailable during the lease. *)
Lemma obligation_change_ok k row o : obligation_ok os T k row -> same_obligation row o -> obligation_change_valid row o = true ->
  (OState o = ReconciliationClaimed -> instant (OUpdatedAt o) <= T') -> obligation_ok os T' k o.
Proof.
  intros (-> & s & Hs & He & Hp & Hc) Hsame Hv Hup. split; [symmetry; by apply key_of_same|]. exists s. destruct Hsame as (_ & _ & _ & ->). split_and!; [done..| |].
  - intros Hst. unfold obligation_change_valid, obligation_is, before, after in Hv. rewrite Hst in Hv. bprop.
    repeat (match goal with Hd : _ \/ _ |- _ => destruct Hd end; bprop); try done; specialize (Hc ltac:(done)); lia.
  - intros Hst. specialize (Hup Hst). unfold obligation_change_valid, obligation_is, before, after in Hv. rewrite Hst in Hv. bprop.
    repeat (match goal with Hd : _ \/ _ |- _ => destruct Hd end; bprop); try done; [specialize (Hp ltac:(done))|specialize (Hc ltac:(done))]; lia.
Qed.

Lemma obligations_step_ok bound : obligations_only bound t t' -> bound <= T' ->
  (forall k o, obligations t' !! k = Some o -> obligation_ok os T' k o) /\
  (forall k o, obligations t !! k = Some o -> OState o = ReconciliationRetained -> exists o', obligations t' !! k = Some o' /\ OState o' = ReconciliationRetained).
Proof.
  intros (_ & _ & [He|(row & o & Hrow & Hsame & Hv & Hup & He)]) Hb; [by apply obligations_same|]. rewrite He. split.
  - intros k o' [[<- <-]|[Hne Hk]]%lookup_insert_Some.
    + eapply obligation_change_ok; [by apply (ok_obligations _ _ _ _ Hok)|done..|]. intros Hst. specialize (Hup Hst). lia.
    + eapply obligation_mono; [exact HT|apply objects_kept_refl|]. by apply (ok_obligations _ _ _ _ Hok).
  - intros k o' Hk Hst. destruct (decide (k = key_of o)) as [->|Hne]; [|exists o'; by rewrite lookup_insert_ne].
    exfalso. apply change_not_retained in Hv. congruence.
Qed.

Lemma obligations_quiet bound : obligations_only bound t t' -> bound <= T' ->
  (forall k, live l' = Some k -> live l = Some k) -> (forall k, held l' = Some k -> held l = Some k) -> local_ok t' os ws' T' l' -> view_ok t' os ws' T'.
Proof.
  intros Ho Hb Hlive Hheld Hlocal. destruct (obligations_step_ok _ Ho Hb) as [Hob Hr]. destruct Ho as (Hu & Ha & _). apply quiet_step; auto with upload.
Qed.

(** The obligation an attempt records for the object it holds. *)
Lemma obligation_created_ok u object at_ : obligation_created (NewObjectReconciliationForObject u object at_) t t' -> holds_ok os u (version_of object) ->
  (forall k o, obligations t' !! k = Some o -> obligation_ok os T' k o) /\
  (forall k o, obligations t !! k = Some o -> OState o = ReconciliationRetained -> exists o', obligations t' !! k = Some o' /\ OState o' = ReconciliationRetained).
Proof.
  intros [He|(o & Hmade & Hnone & He)] (s & Hs & Hu & Ha & Hlease); [by apply obligations_same|]. rewrite He.
  apply NewObjectReconciliationForObject_ok in Hmade as (lease & Hl & Hou & Hoa & Hoo & Host & Hav). split.
  - intros k o' [[<- <-]|[Hne Hk]]%lookup_insert_Some.
    + split; [done|]. exists s. rewrite Hoo. unfold key_of. rewrite Hou, Hoa, Hu, Ha. split_and!; [done..| |congruence]. intros _. congruence.
    + eapply obligation_mono; [exact HT|apply objects_kept_refl|]. by apply (ok_obligations _ _ _ _ Hok).
  - intros k o' Hk Hst. exists o'. rewrite lookup_insert_ne; [done|]. intros <-. congruence.
Qed.
End Quiet.

(** ** Every step keeps the invariant *)

Lemma NewObject_version r o : ObjectStore.NewObject r = Some o -> version_of o = version_of r.
Proof.
  unfold ObjectStore.NewObject. destruct (ObjectStore.NewKey (ObjectStore.Key r)) as [key|] eqn:Hk; [|done]. destruct (_ || _); [done|].
  destruct (Crypto.NewDigest _); [|done]. intros [= <-]. unfold version_of. cbn. f_equal. unfold ObjectStore.NewKey in Hk.
  destruct (_ || _); [done|]. destruct (forallb _ _); [|done]. by injection Hk.
Qed.
Lemma NewContent_version r context c : NewContent r context = Some c -> version_of (Object_ c) = version_of (Object_ r).
Proof. unfold NewContent. intros Hx. repeat case_match; try done. injection Hx as <-. by apply NewObject_version. Qed.
Lemma prepared_asset_object u registry at_ object envelope plaintext a : prepared_asset tenant u registry at_ object envelope plaintext = Ok a -> object_of a = version_of object.
Proof.
  unfold prepared_asset. destruct (NewAvailable _ _) as [b|] eqn:Hn; [|done]. intros [= <-]. unfold NewAvailable, restoreAsset in Hn. go_inv Hn.
  destruct (AuthenticatedContext _) as [context|]; [|done]. destruct (NewContent _ _) as [content|] eqn:Hc; [|done]. go_inv Hn.
  by apply NewContent_version in Hc.
Qed.

Lemma tables_with s t : tables (with_tables s t) = t. Proof. done. Qed.
Lemma objects_with s t : objects (with_tables s t) = objects s. Proof. done. Qed.

Lemma record_failure_effect q u cause i t : uploads_only t (record_failure tenant catalog q u cause i t).2.
Proof.
  unfold record_failure. destruct (_ && _ && _).
  - destruct (RejectUploadAttempt _ _ _ _ _ _ _ _ _ _ _) as [r t'] eqn:Hr. by apply transitionUpload_effect in Hr as [? _].
  - destruct (FailUploadAttempt _ _ _ _ _ _ _ _ _ _) as [r t'] eqn:Hr. by apply transitionUpload_effect in Hr as [? _].
Qed.

(** A worker that holds nothing and owes nothing. *)
Definition plain (l : Local) : Prop := match l with Idle | Creating _ _ | Claiming _ | Returned _ => True | _ => False end.
Lemma plain_ok t os ws T l : plain l -> local_ok t os ws T l /\ live l = None /\ held l = None.
Proof. destruct l; intros []; split_and!; done. Qed.

Section Steps.
Context (s : Shared) (ws : gmap nat Local) (T : Z) (n : nat) (i : Input) (l : Local).
Abbreviation T' := (instant (store_clock i)).
Abbreviation kept l' s' := (view_ok (tables s') (objects s') (<[n := l']> ws) T').
Hypotheses (Hok : view_ok (tables s) (objects s) ws T) (Hn : ws !! n = Some l) (HT : T <= T') (Hclock : instant (clock i) <= T') (Hdated : put_dated i).

Lemma now_bound : instant (now_of (clock i)) <= T'.
Proof. pose proof (now_of_le (clock i)). lia. Qed.
Lemma fact : local_ok (tables s) (objects s) ws T l.
Proof. by apply (ok_locals _ _ _ _ Hok _ _ Hn). Qed.

Lemma plain_step l' s' : plain l' -> uploads_only (tables s) (tables s') -> objects s' = objects s -> kept l' s'.
Proof.
  intros Hp Hu Ho. rewrite Ho. destruct (plain_ok (tables s') (objects s) (<[n := l']> ws) T' l' Hp) as (Hl & Hlive & Hheld).
  by apply (uploads_step (tables s) _ _ T _ _ _ l); try done; [rewrite Hlive|rewrite Hheld].
Qed.
Lemma plain_obligations l' s' bound : plain l' -> obligations_only bound (tables s) (tables s') -> bound <= T' -> objects s' = objects s -> kept l' s'.
Proof.
  intros Hp Hu Hb Ho. rewrite Ho. destruct (plain_ok (tables s') (objects s) (<[n := l']> ws) T' l' Hp) as (Hl & Hlive & Hheld).
  by apply (obligations_quiet (tables s) _ _ T _ _ _ l) with bound; try done; [rewrite Hlive|rewrite Hheld].
Qed.

Lemma claimed_now u : claimed_ok (tables s) T u -> claimed_ok (tables s) T' u.
Proof. apply claimed_mono; [done|apply rows_step_refl]. Qed.

(** The object that an attempt has just put. *)
Section Put.
Context (q : Accepting) (u : UploadRecord) (key : string) (w : Written) (l' : Local).
Hypotheses (Hl : l = Claimed q u) (Hfree : objects s !! (key, WVersion w) = None) (Hw : T' - provider_skew <= instant (WModified w)).
Abbreviation os' := (put_object u key w (objects s)).

Lemma put_kept : objects_kept (objects s) os'.
Proof. intros k x Hx. exists x. unfold put_object. rewrite lookup_insert_ne; [done|]. intros <-. congruence. Qed.
Lemma put_holds : holds_ok os' u (key, WVersion w).
Proof.
  pose proof fact as [Hc _]. rewrite Hl in Hc. destruct Hc as (lease & Hlease & _). eexists. unfold put_object. rewrite lookup_insert_eq. split; [done|]. cbn. by rewrite Hlease.
Qed.
Lemma put_unreferenced : unreferenced (tables s) (key, WVersion w).
Proof. intros e a Ha Hk. destruct (ok_assets _ _ _ _ Hok _ _ Ha) as (x & o & Hx & _). congruence. Qed.
Lemma put_step : (forall k, live l' = Some k -> k = (key, WVersion w)) -> (forall k, held l' = Some k -> k = (key, WVersion w)) ->
  local_ok (tables s) os' (<[n := l']> ws) T' l' -> kept l' (with_objects s os').
Proof.
  intros Hlive Hheld Hlocal. cbn [with_objects objects]. change (tables (with_objects s os')) with (tables s).
  pose proof fact as [Hc _]. rewrite Hl in Hc. destruct Hc as (lease & Hlease & Hbound & Hatt).
  apply (view_next (tables s) (objects s) ws T (tables s) os' T' n l l'); try done; auto using rows_step_refl, put_kept.
  - intros k x Hx. unfold put_object in Hx. apply lookup_insert_Some in Hx as [[<- <-]|[Hne Hx]]; [right|left; exists x; split_and!; [done..|by left]].
    split_and!; [done..|]. rewrite Hlease. split; [done|]. cbn. lia.
  - intros k Hk. right. by rewrite (Hlive _ Hk).
  - intros k Hk. right. by rewrite (Hheld _ Hk).
  - intros k o Ho. eapply obligation_mono; [exact HT|apply put_kept|]. by apply (ok_obligations _ _ _ _ Hok).
  - eauto.
Qed.
Lemma put_gone : live l' = None -> gone (tables s) os' (<[n := l']> ws) T' (key, WVersion w).
Proof.
  intros Hl'. split_and!; [apply put_unreferenced|unfold put_object; rewrite lookup_insert_eq; by eexists|right].
  intros m l0 [[<- <-]|[Hne Hm]]%lookup_insert_Some Hk; [congruence|]. apply live_held in Hk.
  destruct (local_held _ _ _ _ _ _ (ok_locals _ _ _ _ Hok _ _ Hm) Hk) as [x Hx]. congruence.
Qed.
End Put.

(** The deletion of an object that this worker may delete. *)
Lemma delete_cases k answer k' x : delete_object k answer (objects s) !! k' = Some x ->
  exists y, objects s !! k' = Some y /\ same_put y x /\ (present x = false -> present y = false \/ k' = k).
Proof.
  assert (Hsame : objects s !! k' = Some x -> exists y, objects s !! k' = Some y /\ same_put y x /\ (present x = false -> present y = false \/ k' = k))
    by (intros Hx; exists x; split_and!; [done..|by left]).
  assert (Hremove : remove k (objects s) !! k' = Some x -> exists y, objects s !! k' = Some y /\ same_put y x /\ (present x = false -> present y = false \/ k' = k)).
  { unfold remove. destruct (decide (k' = k)) as [->|Hne]; [|by rewrite lookup_alter_ne]. rewrite lookup_alter_eq. destruct (objects s !! k) as [y|]; [|done].
    intros [= <-]. exists y. split_and!; [done..|by right]. }
  destruct answer as [|[]]; done.
Qed.
Lemma delete_kept k answer : objects_kept (objects s) (delete_object k answer (objects s)).
Proof.
  intros k' x Hx. assert (Hremove : exists y, remove k (objects s) !! k' = Some y /\ same_put x y).
  { unfold remove. destruct (decide (k' = k)) as [->|Hne]; [rewrite lookup_alter_eq, Hx; by eexists|rewrite lookup_alter_ne by done; by exists x]. }
  destruct answer as [|[]]; [done|done|by exists x].
Qed.
Lemma delete_step k answer l' : doomed l = Some k -> live l' = None -> held l' = None ->
  local_ok (tables s) (delete_object k answer (objects s)) (<[n := l']> ws) T' l' -> kept l' (with_objects s (delete_object k answer (objects s))).
Proof.
  intros Hd Hlive Hheld Hlocal. cbn [with_objects objects]. change (tables (with_objects s (delete_object k answer (objects s)))) with (tables s).
  apply (view_next (tables s) (objects s) ws T (tables s) _ T' n l l'); try done; auto using rows_step_refl, delete_kept.
  - intros k' x Hx. left. destruct (delete_cases _ _ _ _ Hx) as (y & Hy & Hs & Hp). exists y. split_and!; [done..|]. intros [Hf| ->]%Hp; [by left|by right].
  - by rewrite Hlive.
  - by rewrite Hheld.
  - intros k' o Ho. eapply obligation_mono; [exact HT|apply delete_kept|]. by apply (ok_obligations _ _ _ _ Hok).
  - eauto.
Qed.
Lemma delete_gone k k' answer l' : live l' = None -> gone (tables s) (objects s) ws T k -> gone (tables s) (delete_object k' answer (objects s)) (<[n := l']> ws) T' k.
Proof.
  intros Hlive. apply (gone_next (tables s) (objects s) ws T (tables s) _ T' n l l'); try done; auto using delete_kept. by rewrite Hlive.
Qed.

(** *** Workers that keep their object *)

Lemma failing_ok t' os' ws' q u cause : claimed_ok t' T' u -> local_ok t' os' ws' T' (Failing q u cause).
Proof. done. Qed.
Lemma prepare_step q u l' s' : l = Claimed q u -> prepare tenant catalog default_registry q u i s = (l', s') -> kept l' s'.
Proof.
  intros Hl. pose proof fact as [Hc _]. rewrite Hl in Hc. cbn in Hc.
  assert (Hfail : forall cause, kept (Failing q u cause) s).
  { intros cause. apply (uploads_step (tables s) _ _ T _ _ _ l); try done; [apply uploads_only_refl|]. by apply failing_ok, claimed_now. }
  unfold prepare. destruct (UploadBody.NewUploadReader _ _) as [reader|e]; [|intros [= <- <-]; apply Hfail].
  destruct (prepare_start _ _ _ _ _) as [[registry key]|e]; [|intros [= <- <-]; apply Hfail]. destruct (UploadBody.consume _ _) as [plaintext reader'].
  assert (Hput : forall w cause, objects s !! (key, WVersion w) = None -> T' - provider_skew <= instant (WModified w) -> forall l', l' = Failing q u cause ->
    kept l' (with_objects s (put_object u key w (objects s)))).
  { intros w cause Hfree Hw l0 ->. apply (put_step q); try done. by apply failing_ok, claimed_now. }
  assert (Hcomp : forall w cause object, objects s !! (key, WVersion w) = None -> T' - provider_skew <= instant (WModified w) -> version_of object = (key, WVersion w) ->
    kept (Compensating q u object cause) (with_objects s (put_object u key w (objects s)))).
  { intros w cause object Hfree Hw Hv. apply (put_step q); try done; [intros k [= <-]; done|]. split_and!; [by apply claimed_now|rewrite Hv; by eapply put_holds|done|].
    intros k [= <-]. rewrite Hv. by eapply put_gone. }
  unfold put_dated in Hdated. destruct (put i) as [w envelope|[[w named]|]].
  - cbn [version_taken]. destruct (objects s !! (key, WVersion w)) eqn:Hfree; [intros [= <- <-]; apply Hfail|].
    destruct (ObjectStore.NewObject _) as [object|] eqn:Ho; [|intros [= <- <-]; by eapply Hput]. apply NewObject_version in Ho. change (version_of (written_object key w)) with (key, WVersion w) in Ho.
    destruct (prepared_asset _ _ _ _ _ _ _) as [a|] eqn:Ha; [|intros [= <- <-]; by apply Hcomp]. apply prepared_asset_object in Ha. rewrite Ho in Ha. intros [= <- <-].
    apply (put_step q); try done; [intros k [= <-]; done..|]. split_and!; [by apply claimed_now|rewrite Ha; by eapply put_holds| |done].
    intros k [= <-]. rewrite Ha. by apply put_unreferenced.
  - cbn [version_taken]. destruct (objects s !! (key, WVersion w)) eqn:Hfree; [intros [= <- <-]; apply Hfail|].
    destruct (ObjectStore.NewObject _) as [object|] eqn:Ho; [|intros [= <- <-]; by eapply Hput]. apply NewObject_version in Ho. change (version_of (written_object key w)) with (key, WVersion w) in Ho.
    destruct named; intros [= <- <-]; [by apply Hcomp|by eapply Hput].
  - intros [= <- <-]. apply Hfail.
Qed.

(** The attempt's own deletion, then what follows it. *)
Lemma discard_step u k l' answer : doomed l = Some k -> claimed_ok (tables s) T u -> holds_ok (objects s) u k ->
  (forall t' os' ws', claimed_ok t' T' u -> holds_ok os' u k -> local_ok t' os' ws' T' l' /\ live l' = None /\ held l' = None) ->
  kept l' (with_objects s (delete_object k answer (objects s))).
Proof.
  intros Hd Hc Hh Hl'. destruct (Hl' (tables s) (delete_object k answer (objects s)) (<[n := l']> ws)) as (Hlocal & Hlive & Hheld);
    [by apply claimed_now|by eapply holds_mono, Hh; apply delete_kept|]. by apply delete_step.
Qed.

(** A recorded obligation, then what follows it. *)
Lemma record_step made u object at_ l' t' : made = NewObjectReconciliationForObject u object at_ \/ is_ok made = false ->
  uploads t' = uploads (tables s) /\ assets t' = assets (tables s) /\ obligation_created made (tables s) t' -> holds_ok (objects s) u (version_of object) ->
  (forall k, live l' = Some k -> live l = Some k) -> (forall k, held l' = Some k -> held l = Some k) ->
  local_ok t' (objects s) (<[n := l']> ws) T' l' -> kept l' (with_tables s t').
Proof.
  intros Hmade (Hu & Ha & Ho) Hh Hlive Hheld Hlocal. rewrite tables_with, objects_with.
  assert (Hob : obligation_created (NewObjectReconciliationForObject u object at_) (tables s) t').
  { destruct Hmade as [->|Hf]; [done|]. destruct Ho as [Ho|(o & -> & _)]; [by left|done]. }
  destruct (obligation_created_ok (tables s) _ _ T t' T' Hok HT _ _ _ Hob Hh) as [H1' H2']. apply (quiet_step (tables s) _ _ T _ _ _ l); try done. by apply rows_step_same.
Qed.

Lemma made_for u a at_ : NewObjectReconciliation u a at_ = NewObjectReconciliationForObject u (Object_ (Evidence.Content a)) at_ \/ is_ok (NewObjectReconciliation u a at_) = false.
Proof. unfold NewObjectReconciliation. destruct (negb _); [by right|by left]. Qed.

Lemma recording_step q u object at_ cause l' s' : l = RecordingOrphan q u object at_ cause ->
  act l i s = (l', s') -> crash i = false -> kept l' s'.
Proof.
  intros Hl Hw Hcr. pose proof fact as [Hc _]. rewrite Hl in Hc. destruct Hc as [Hc Hh]. rewrite Hl in Hw. unfold work in Hw. rewrite Hcr in Hw.
  destruct (CreateObjectReconciliationForObject _ _ _ _ _ _) as [r t'] eqn:Hcreate. apply create_obligation_effect in Hcreate.
  assert (Hrows : rows_step (tables s) t') by (apply rows_step_same, Hcreate).
  destruct r; injection Hw as <- <-; (eapply record_step; [by left|exact Hcreate|exact Hh|by intros ? [=]|by intros ? [=]|]); [|by apply plain_ok]. apply failing_ok. eapply claimed_mono; [exact HT|exact Hrows|exact Hc].
Qed.

Lemma staged_step q u a body l' s' : l = Staged q u a body -> act l i s = (l', s') -> crash i = false -> kept l' s'.
Proof.
  intros Hl Hw Hcr. pose proof fact as (Hc & Hlive & _). rewrite Hl in Hc, Hlive. destruct Hc as [Hc Hh]. rewrite Hl in Hw. unfold work in Hw. rewrite Hcr in Hw.
  destruct (CreateObjectReconciliation _ _ _ _ _ _) as [r t'] eqn:Hcreate. unfold CreateObjectReconciliation in Hcreate. apply create_obligation_effect in Hcreate.
  assert (Hrows : rows_step (tables s) t') by (apply rows_step_same, Hcreate). assert (Has : assets t' = assets (tables s)) by apply Hcreate.
  assert (Hc' : claimed_ok t' T' u) by (eapply claimed_mono; [exact HT|exact Hrows|exact Hc]).
  destruct r; injection Hw as <- <-; (eapply record_step; [apply made_for|exact Hcreate|exact Hh|rewrite Hl; done..|]).
  - split_and!; [done..| |done]. intros k Hk e b. rewrite Has. by apply Hlive.
  - split_and!; [done..|]. intros k Hk. eapply released_gone; try done; [by rewrite Hl|]. by apply Hlive.
Qed.

Lemma same_tables_step l' : (forall k, live l' = Some k -> live l = Some k) -> (forall k, held l' = Some k -> held l = Some k) ->
  local_ok (tables s) (objects s) (<[n := l']> ws) T' l' -> kept l' s.
Proof. intros Hlive Hheld Hlocal. apply (uploads_step (tables s) _ _ T _ _ _ l); try done. apply uploads_only_refl. Qed.

Lemma recorded_step q u a now body l' s' : l = Recorded q u a now body -> act l i s = (l', s') -> crash i = false -> kept l' s'.
Proof.
  intros Hl Hw Hcr. pose proof fact as (Hc & Hlive & _). rewrite Hl in Hc, Hlive. destruct Hc as [Hc Hh]. rewrite Hl in Hw. unfold work in Hw. rewrite Hcr in Hw.
  apply claimed_now in Hc. destruct (accept_checked _ _ _ _ _ _ _) as [[bytes event]|e]; injection Hw as <- <-; apply same_tables_step; try (rewrite Hl; done).
  - split_and!; [done..|exact Hlive|done].
  - split_and!; [done..|]. intros k Hk. eapply released_gone; try done; [by rewrite Hl|]. by apply Hlive.
Qed.

(** The commit: the object it accepts is not gone. *)
Lemma accept_not_gone u k row lease : holds_ok (objects s) u k -> uploads (tables s) !! UploadID (terms u) = Some row -> Attempt row = Attempt u ->
  LeaseExpiresAt row = Some lease -> T' < instant lease -> live l = Some k -> ~ gone (tables s) (objects s) ws T' k.
Proof.
  intros (x & Hx & Hxu & Hxa & _) Hrow Ha Hlease Hlt Hlive (_ & _ & [(y & Hy & Hle)|Hno]); [|by eapply Hno].
  assert (y = x) as -> by congruence. destruct (ok_stored _ _ _ _ Hok _ _ Hx) as [[(row' & Hrow' & _ & Hl) _] _].
  rewrite Hxu, Hrow in Hrow'. injection Hrow' as <-. specialize (Hl ltac:(congruence) _ Hlease). lia.
Qed.

Lemma committed_kept u a m l' o row t' : acceptance_effect tenant (tables s) t' m (store_clock i) row o -> ACUpload m = UploadID (terms u) -> ACAttempt m = Attempt u -> ACAsset m = a ->
  holds_ok (objects s) u (object_of a) -> live l = Some (object_of a) -> plain l' -> kept l' (with_tables s t').
Proof.
  intros [Hrow (Hst & Hatt & Hver) (lease & Hlease & Hlt) Hperm Haa Hfresh Has (Ho & Hop & Hoo & Hoe) Hob Hrows Hev] Hmu Hma <- Hh Hlive Hplain.
  rewrite tables_with, objects_with. destruct (plain_ok t' (objects s) (<[n := l']> ws) T' l' Hplain) as (Hlocal & Hlive' & Hheld').
  pose proof (ok_obligations _ _ _ _ Hok _ _ Ho) as Hook. rewrite Hmu in Hrow. rewrite Hma in Hatt.
  pose proof (accept_not_gone _ _ _ _ Hh Hrow Hatt Hlease Hlt Hlive) as Hng. destruct Hh as (x & Hx & Hxu & Hxa & _).
  apply (view_next (tables s) (objects s) ws T t' (objects s) T' n l l'); try done; try (by rewrite ?Hlive', ?Hheld'); [apply objects_kept_refl| | | |].
  - intros k y Hy. left. exists y. split_and!; [done..|by left].
  - intros e b. rewrite Has. intros [[<- <-]|[Hne Hb]]%lookup_insert_Some; [right|by left]. split_and!; [|done|by apply live_held|done].
    exists x, (retained o (ACAt m)). split_and!; [done| |done]. rewrite Hob, Hxu, Hxa, Hmu, Hma. apply lookup_insert_eq.
  - intros k o'. rewrite Hob. intros [[<- <-]|[Hne Hk]]%lookup_insert_Some.
    + destruct Hook as (Hkey & y & Hy & Hye & _). split; [done|]. by exists y.
    + eapply obligation_mono; [exact HT|apply objects_kept_refl|]. by apply (ok_obligations _ _ _ _ Hok).
  - intros k o' Hk Hret. exists o'. rewrite Hob, lookup_insert_ne; [done|]. intros <-. congruence.
Qed.

Lemma committing_step q u a now bytes event l' s' : l = Committing q u a now bytes event -> act l i s = (l', s') -> crash i = false -> kept l' s'.
Proof.
  intros Hl Hw Hcr. pose proof fact as (Hc & Hunref & _). rewrite Hl in Hc, Hunref. destruct Hc as [Hc Hh]. apply claimed_now in Hc. rewrite Hl in Hw. unfold work in Hw. rewrite Hcr in Hw.
  destruct (AcceptUpload _ _ _ _ _ _ _ _) as [r t'] eqn:Hacc. apply AcceptUpload_effect in Hacc as [[-> Hr]|[Hr (row & o & He)]].
  - assert (Hd : forall e, kept (Discarding q u a now e) (with_tables s (tables s))).
    { intros e. apply (uploads_step (tables s) _ _ T _ _ _ l); try done; [apply uploads_only_refl|by rewrite Hl|]. split_and!; [done..|].
      intros k Hk. eapply released_gone; try done; [by rewrite Hl|]. by apply Hunref. }
    assert (Hp : kept (failed ErrAcceptanceReconciliationRequired) (with_tables s (tables s))) by (apply plain_step; [done|apply uploads_only_refl|done]).
    destruct r as [u'|e]; [done|]. destruct e; injection Hw as <- <-; solve [apply Hd|apply Hp].
  - assert (Hk : forall l0, plain l0 -> kept l0 (with_tables s t')) by (intros l0 Hp; eapply committed_kept; [exact He|done|done|done|exact Hh|by rewrite Hl|done]).
    destruct r as [u'|e]; [injection Hw as <- <-; by apply Hk|].
    assert (e = ErrUploadAcceptanceOutcomeUnknown) as -> by (destruct (decide (e = ErrUploadAcceptanceOutcomeUnknown)); [done|]; by specialize (Hr ltac:(congruence))).
    injection Hw as <- <-. by apply Hk.
Qed.

Lemma resolving_step q u a now cause l' s' : l = Resolving q u a now cause -> act l i s = (l', s') -> crash i = false -> kept l' s'.
Proof.
  intros Hl Hw Hcr. pose proof fact as (Hc & _). rewrite Hl in Hc. destruct Hc as [Hc _]. rewrite Hl in Hw. unfold work in Hw. rewrite Hcr in Hw. injection Hw as <- <-.
  destruct (ResolveObjectReconciliation _ _ _ _ _ _ _ _) as [r t'] eqn:Hres. apply (ResolveObjectReconciliation_effect tenant T') in Hres; [|by eapply coherent_view].
  assert (Hrows : rows_step (tables s) t') by (apply rows_step_same, Hres).
  apply (obligations_quiet (tables s) _ _ T _ _ _ l) with T'; try done. apply failing_ok. eapply claimed_mono; [exact HT|exact Hrows|exact Hc].
Qed.

Lemma failing_step q u cause l' s' : l = Failing q u cause -> act l i s = (l', s') -> crash i = false -> kept l' s'.
Proof.
  intros Hl Hw Hcr. rewrite Hl in Hw. unfold work in Hw. rewrite Hcr in Hw. injection Hw as <- <-. apply plain_step; [done| |done].
  rewrite tables_with. apply record_failure_effect.
Qed.

(** *** The reconciler *)

Lemma doomed_gone k l' : doomed l = Some k -> live l' = None -> gone (tables s) (objects s) (<[n := l']> ws) T' k.
Proof.
  intros Hd Hl'. eapply (gone_same (tables s) _ _ T); [exact Hn|exact HT|apply rows_step_refl|done| |by apply fact]. by rewrite Hl'.
Qed.

Lemma claim_step r t' l' : ClaimObjectReconciliation tenant (locked_rows i) (now_of (clock i)) claimTimeout (tables s) (fate i) = (r, t') ->
  (forall o, r = Ok o -> l' = Reconciling o) -> (is_ok r = false -> plain l') -> kept l' (with_tables s t').
Proof.
  intros Hr Hl' Hp. apply ClaimObjectReconciliation_effect in Hr as [Hstep Ho]; [|by eapply coherent_view].
  assert (Hb : instant (now_of (clock i)) <= T') by apply now_bound.
  destruct r as [o|e]; [|by eapply plain_obligations; [apply Hp|exact Hstep| |]]. rewrite (Hl' _ eq_refl).
  destruct (Ho _ eq_refl) as (Hst & Hrow' & Hup & row & Hrow & Hsame & Hv). pose proof (ok_obligations _ _ _ _ Hok _ _ Hrow) as Hrok.
  apply (obligations_quiet (tables s) _ _ T _ _ _ l) with (instant (now_of (clock i))); try done. split_and!; [done..|]. intros k [= <-]. cbn [doomed].
  assert (Hook : obligation_ok (objects s) T' (key_of o) o) by (eapply obligation_change_ok; [exact Hrok|done|done|intros; lia]).
  destruct Hook as (_ & x & Hx & Hxk & _ & Hxc). specialize (Hxc Hst). split_and!; [|by eexists|left; exists x; split; [done|lia]].
  intros e a. rewrite tables_with. destruct Hstep as (_ & -> & _). intros Ha Hk. destruct (ok_assets _ _ _ _ Hok _ _ Ha) as (y & o' & Hy & Ho' & Hret).
  rewrite Hk in Hy. assert (y = x) as -> by congruence. rewrite Hxk in Ho'. apply change_not_retained in Hv. congruence.
Qed.

Lemma reconciler_local l' k : doomed l = Some k -> doomed l' = Some k -> live l' = None -> held l' = None ->
  (match l' with Reconciling _ | ReconcilingAsset _ _ | DeletingObject _ | Completing _ _ | Retrying _ _ => True | _ => False end) -> kept l' s.
Proof.
  intros Hd Hd' Hlive Hheld Hl'. apply same_tables_step; [by rewrite Hlive|by rewrite Hheld|].
  pose proof (doomed_gone _ l' Hd Hlive) as Hg. split_and!; [by destruct l'|by rewrite Hlive|]. intros k'. rewrite Hd'. by intros [= <-].
Qed.

(** *** Discovery *)

Lemma discover_found keys o : o ∈ inventory (objects s) keys -> exists x, objects s !! inventory_key o = Some x /\ instant (modified x) = instant (ObjectStore.ModifiedAt o).
Proof.
  unfold inventory. intros (k & _ & Hk)%list_elem_of_omap. destruct (objects s !! k) as [x|] eqn:Hx; [|done]. cbn in Hk. destruct (present x); [|done].
  unfold ObjectStore.NewInventoryObject in Hk. cbn [ObjectStore.InventoryKey ObjectStore.InventoryVersion ObjectStore.ModifiedAt ObjectStore.InventorySize] in Hk.
  destruct (ObjectStore.NewKey k.1) as [key|] eqn:Hkey; [|done]. destruct (_ || _ || _); [done|]. injection Hk as <-. exists x. split; [|done].
  unfold inventory_key. cbn. replace key with k.1; [by destruct k|]. unfold ObjectStore.NewKey in Hkey. destruct (_ || _); [done|]. destruct (forallb _ _); [|done]. by injection Hkey.
Qed.

Lemma orphan_gone cutoff o rest l' : found_ok (objects s) T cutoff (o :: rest) -> after (ObjectStore.ModifiedAt o) cutoff = false ->
  IsObjectReferenced tenant (tables s) (ObjectStore.InventoryKey o) (ObjectStore.InventoryVersion o) = Ok false -> live l' = None ->
  gone (tables s) (objects s) (<[n := l']> ws) T' (inventory_key o).
Proof.
  intros [Hcut Hfound] Hold Href Hlive. destruct (Hfound o ltac:(by left)) as (x & Hx & Hm). apply after_false in Hold.
  unfold IsObjectReferenced in Href. go_inv Href. apply orb_false_iff in Href as [Hassets _].
  destruct (ok_stored _ _ _ _ Hok _ _ Hx) as [[_ Hlease] _]. split_and!; [|by eexists|left; exists x; split; [done|]].
  - intros e a Ha Hk. assert (Hf : existsb (fun p => String.eqb (ObjectStore.Key (Object_ (Evidence.Content p.2))) (ObjectStore.InventoryKey o) &&
      String.eqb (ObjectStore.ObjectVersion (Object_ (Evidence.Content p.2))) (ObjectStore.InventoryVersion o)) (map_to_list (assets (tables s))) = true).
    { apply existsb_exists. exists (e, a). split; [by apply list_elem_of_In, elem_of_map_to_list|]. unfold object_of, version_of, inventory_key in Hk.
      injection Hk as Hk1 Hk2. cbn [snd]. rewrite Hk1, Hk2. by rewrite !String.eqb_refl. }
    congruence.
  - unfold provider_skew, MinimumOrphanAge in *. lia.
Qed.

Lemma found_now cutoff found : found_ok (objects s) T cutoff found -> found_ok (objects s) T' cutoff found.
Proof. apply found_mono; [done|apply objects_kept_refl]. Qed.
Lemma found_tail cutoff o rest : found_ok (objects s) T cutoff (o :: rest) -> found_ok (objects s) T cutoff rest.
Proof. intros [Hc Ho]. split; [done|]. intros x Hx. apply Ho. by right. Qed.
Lemma discovering_kept cutoff found next r : found_ok (objects s) T' cutoff found -> kept (Discovering cutoff found next r) s.
Proof. intros Hf. apply same_tables_step; [done|done|]. by split_and!. Qed.

Lemma discovering_step cutoff found next r l' s' : l = Discovering cutoff found next r -> act l i s = (l', s') -> crash i = false -> kept l' s'.
Proof.
  intros Hl Hw Hcr. pose proof fact as [Hf _]. rewrite Hl in Hf. cbn in Hf. rewrite Hl in Hw. unfold work in Hw. rewrite Hcr in Hw.
  destruct found as [|o rest]; injection Hw as <- <-; [apply plain_step; [done|apply uploads_only_refl|done]|].
  pose proof (found_now _ _ (found_tail _ _ _ Hf)) as Hrest. unfold discover. destruct (negb _); [by apply discovering_kept|].
  destruct (after _ _) eqn:Hold; [by apply discovering_kept|]. destruct (IsObjectReferenced _ _ _ _) as [[|]|e] eqn:Href; [by apply discovering_kept| |by apply plain_step; [done|apply uploads_only_refl|done]].
  apply same_tables_step; [done|done|]. split; [exact Hrest|split; [done|]]. intros k [= <-]. by eapply orphan_gone.
Qed.

Lemma deleting_orphan_step cutoff o rest next r l' s' : l = DeletingOrphan cutoff o rest next r -> act l i s = (l', s') -> crash i = false -> kept l' s'.
Proof.
  intros Hl Hw Hcr. pose proof fact as [Hf _]. rewrite Hl in Hf. cbn in Hf. rewrite Hl in Hw. unfold work in Hw. rewrite Hcr in Hw.
  assert (Hd : doomed l = Some (inventory_key o)) by (by rewrite Hl).
  assert (Hf' : found_ok (delete_object (inventory_key o) (deletes i) (objects s)) T' cutoff rest) by (eapply found_mono; [exact HT|apply delete_kept|exact Hf]).
  destruct (deletes i) as [|b]; injection Hw as <- <-; [apply (delete_step _ Removed _ Hd)|apply (delete_step _ (RemoveFailed b) _ Hd)]; done.
Qed.

(** *** Deletions *)

Lemma recording_local q u object at_ cause k : version_of object = k -> forall t' os' ws', claimed_ok t' T' u -> holds_ok os' u k ->
  let l' := RecordingOrphan q u object at_ cause in local_ok t' os' ws' T' l' /\ live l' = None /\ held l' = None.
Proof. intros <- t' os' ws' Hc Hh l'. split_and!; done. Qed.
Lemma failing_local q u cause (k : Key) : forall t' os' ws', claimed_ok t' T' u -> holds_ok os' u k ->
  let l' := Failing q u cause in local_ok t' os' ws' T' l' /\ live l' = None /\ held l' = None.
Proof. intros t' os' ws' Hc Hh l'. split_and!; done. Qed.

Lemma compensating_step q u object cause l' s' : l = Compensating q u object cause -> act l i s = (l', s') -> crash i = false -> kept l' s'.
Proof.
  intros Hl Hw Hcr. pose proof fact as [Hc _]. rewrite Hl in Hc. destruct Hc as [Hc Hh]. assert (Hd : doomed l = Some (version_of object)) by (by rewrite Hl).
  rewrite Hl in Hw. unfold work in Hw. rewrite Hcr in Hw.
  destruct (deletes i) as [|b]; injection Hw as <- <-; [eapply (discard_step _ _ _ Removed)|eapply (discard_step _ _ _ (RemoveFailed b))]; try exact Hd; try exact Hc; try exact Hh; [by apply failing_local|by apply recording_local].
Qed.

Lemma unrecorded_step q u a now cause l' s' : l = DiscardingUnrecorded q u a now cause -> act l i s = (l', s') -> crash i = false -> kept l' s'.
Proof.
  intros Hl Hw Hcr. pose proof fact as [Hc _]. rewrite Hl in Hc. destruct Hc as [Hc Hh]. assert (Hd : doomed l = Some (object_of a)) by (by rewrite Hl).
  rewrite Hl in Hw. unfold work in Hw. rewrite Hcr in Hw.
  destruct (deletes i) as [|b]; injection Hw as <- <-; [eapply (discard_step _ _ _ Removed)|eapply (discard_step _ _ _ (RemoveFailed b))]; try exact Hd; try exact Hc; try exact Hh; [by apply failing_local|by apply recording_local].
Qed.

Lemma discarding_step q u a now cause l' s' : l = Discarding q u a now cause -> act l i s = (l', s') -> crash i = false -> kept l' s'.
Proof.
  intros Hl Hw Hcr. pose proof fact as [Hc _]. rewrite Hl in Hc. destruct Hc as [Hc Hh]. assert (Hd : doomed l = Some (object_of a)) by (by rewrite Hl).
  rewrite Hl in Hw. unfold work in Hw. rewrite Hcr in Hw.
  destruct (deletes i) as [|b]; injection Hw as <- <-; [eapply (discard_step _ _ _ Removed)|eapply (discard_step _ _ _ (RemoveFailed b))]; try exact Hd; try exact Hc; try exact Hh; [|by apply failing_local].
  intros t' os' ws' Hc' Hh'. split_and!; [split_and!; done|done|done].
Qed.

Lemma deleting_object_step o l' s' : l = DeletingObject o -> act l i s = (l', s') -> crash i = false -> kept l' s'.
Proof.
  intros Hl Hw Hcr. pose proof fact as (_ & _ & Hg). rewrite Hl in Hg. specialize (Hg _ eq_refl). assert (Hd : doomed l = Some (version_of (OObject o))) by (by rewrite Hl).
  rewrite Hl in Hw. unfold work in Hw. rewrite Hcr in Hw.
  destruct (deletes i) as [|b]; injection Hw as <- <-; [apply (delete_step _ Removed _ Hd)|apply (delete_step _ (RemoveFailed b) _ Hd)]; try done;
    (split_and!; [done..|]; intros k [= <-]); [by apply (delete_gone _ _ Removed)|by apply (delete_gone _ _ (RemoveFailed b))].
Qed.

(** *** Other steps *)

Lemma reconciling_step o l' s' : l = Reconciling o -> act l i s = (l', s') -> crash i = false -> kept l' s'.
Proof.
  intros Hl Hw Hcr. assert (Hd : doomed l = Some (version_of (OObject o))) by (by rewrite Hl). rewrite Hl in Hw. unfold work in Hw. rewrite Hcr in Hw.
  destruct (FindUpload _ _ _ _) as [u|e]; injection Hw as <- <-; [destruct (String.eqb _ _)|]; by apply (reconciler_local _ (version_of (OObject o))).
Qed.
Lemma reconciling_asset_step o u l' s' : l = ReconcilingAsset o u -> act l i s = (l', s') -> crash i = false -> kept l' s'.
Proof.
  intros Hl Hw Hcr. assert (Hd : doomed l = Some (version_of (OObject o))) by (by rewrite Hl). rewrite Hl in Hw. unfold work in Hw. rewrite Hcr in Hw.
  destruct (determine _ _ _) as [[|]|e]; injection Hw as <- <-; by apply (reconciler_local _ (version_of (OObject o))).
Qed.

Lemma completing_step o state l' s' : l = Completing o state -> act l i s = (l', s') -> crash i = false -> kept l' s'.
Proof.
  intros Hl Hw Hcr. rewrite Hl in Hw. unfold work in Hw. rewrite Hcr in Hw. destruct (CompleteObjectReconciliation _ _ _ _ _) as [r t'] eqn:Hr. injection Hw as <- <-.
  apply (plain_obligations _ _ T'); [done| |done|done]. eapply CompleteObjectReconciliation_effect, Hr. by eapply coherent_view.
Qed.
Lemma retrying_step o cause l' s' : l = Retrying o cause -> act l i s = (l', s') -> crash i = false -> kept l' s'.
Proof.
  intros Hl Hw Hcr. rewrite Hl in Hw. unfold work in Hw. rewrite Hcr in Hw. destruct (RetryObjectReconciliation _ _ _ _ _) as [r t'] eqn:Hr. injection Hw as <- <-.
  apply (plain_obligations _ _ T'); [done| |done|done]. eapply RetryObjectReconciliation_effect, Hr. by eapply coherent_view.
Qed.

Lemma creating_step u request l' s' : l = Creating u request -> act l i s = (l', s') -> crash i = false -> kept l' s'.
Proof.
  intros Hl Hw Hcr. rewrite Hl in Hw. unfold work in Hw. rewrite Hcr in Hw. destruct (CreateUpload _ _ _ _ _ _ _ _ _) as [r store'] eqn:Hr. injection Hw as <- <-.
  apply plain_step; [done| |done]. by apply CreateUpload_effect in Hr.
Qed.
Lemma claiming_step q l' s' : l = Claiming q -> act l i s = (l', s') -> crash i = false -> kept l' s'.
Proof.
  intros Hl Hw Hcr. rewrite Hl in Hw. unfold work in Hw. rewrite Hcr in Hw. destruct (ClaimUploadAttempt _ _ _ _ _ _ _ _ _ _) as [r t'] eqn:Hr.
  apply ClaimUploadAttempt_effect in Hr as [Hs Hu]. destruct r as [u|e]; injection Hw as <- <-; [|by apply plain_step].
  apply (uploads_step (tables s) _ _ T _ _ _ l); try done. apply failing_ok with (q := q) (cause := ErrQuery).
  destruct (Hu _ eq_refl) as (lease & Hl' & Hb & _ & Ha). exists lease. split_and!; [done| |done]. pose proof now_bound. lia.
Qed.

Lemma idle_step l' s' : minimumAge >= MinimumOrphanAge -> l = Idle -> act l i s = (l', s') -> crash i = false -> kept l' s'.
Proof.
  intros Hage Hl Hw Hcr. assert (Hp : forall l0, plain l0 -> kept l0 s) by (intros; apply plain_step; [done|apply uploads_only_refl|done]).
  rewrite Hl in Hw. unfold work in Hw. rewrite Hcr in Hw. unfold start in Hw. destruct (op i).
  - destruct (issue_built _ _ _ _ _ _ _ _ _ _) as [[u request]|e]; injection Hw as <- <-; by apply Hp.
  - destruct (_ || _); [injection Hw as <- <-; by apply Hp|]. cbv zeta in Hw. destruct (rbind _ _) as [[u|]|e]; injection Hw as <- <-; by apply Hp.
  - injection Hw as <- <-. by apply Hp.
  - destruct (ClaimObjectReconciliation _ _ _ _ _ _) as [r t'] eqn:Hr. destruct r as [o|e]; injection Hw as <- <-; eapply claim_step; try exact Hr; try done; by intros ? [= ->].
  - cbv zeta in Hw. destruct (_ || _); [injection Hw as <- <-; by apply Hp|]. destruct (ObjectStore.NewKey _); [|injection Hw as <- <-; by apply Hp].
    destruct (page i) as [[keys next]|]; injection Hw as <- <-; [|by apply Hp]. apply discovering_kept. split; [unfold add; cbn; lia|]. intros o. apply discover_found.
Qed.

Lemma worker_step_kept l' s' : minimumAge >= MinimumOrphanAge -> act l i s = (l', s') -> kept l' s'.
Proof.
  intros Hage Hw. destruct (crash i) eqn:Hcr.
  { unfold work in Hw. rewrite Hcr in Hw. injection Hw as <- <-. apply plain_step; [done|apply uploads_only_refl|done]. }
  assert (exists l0, l = l0) as [l0 Hl] by (by eexists). pose proof Hw as Hw'. rewrite Hl in Hw'. destruct l0.
  - by eapply idle_step.
  - by eapply creating_step.
  - by eapply claiming_step.
  - eapply prepare_step; [exact Hl|]. unfold work in Hw'. by rewrite Hcr in Hw'.
  - by eapply compensating_step.
  - by eapply recording_step.
  - by eapply staged_step.
  - by eapply unrecorded_step.
  - by eapply recorded_step.
  - by eapply committing_step.
  - by eapply discarding_step.
  - by eapply resolving_step.
  - by eapply failing_step.
  - by eapply reconciling_step.
  - by eapply reconciling_asset_step.
  - by eapply deleting_object_step.
  - by eapply completing_step.
  - by eapply retrying_step.
  - by eapply discovering_step.
  - by eapply deleting_orphan_step.
  - unfold work in Hw'. rewrite Hcr in Hw'. injection Hw' as <- <-. apply plain_step; [done|apply uploads_only_refl|done].
Qed.
End Steps.

(** *** Worlds *)

Definition world_ok (w : World) : Prop := view_ok (tables (shared w)) (objects (shared w)) (workers w) (time w).

Lemma uploads_world_kept w w' : minimumAge >= MinimumOrphanAge -> world_step w w' -> world_ok w -> world_ok w'.
Proof.
  intros Hage [n i v l l' s' Hl Ht Hc Hd Hact|v b c r] Hok; [by eapply worker_step_kept|].
  destruct Hok as [H1' H2' H3' H4' H5']. split; done.
Qed.

Lemma fresh_uploads_ok w : fresh_world w -> world_ok w.
Proof.
  intros (Ho & Ha & Hb & Hl). unfold world_ok. rewrite Ho. split.
  - intros k x Hx. by rewrite lookup_empty in Hx.
  - intros k o. rewrite Hb. by rewrite lookup_empty.
  - intros e a. rewrite Ha. by rewrite lookup_empty.
  - intros n l ->%Hl. by apply plain_ok.
  - intros n m l l' k ->%Hl _. done.
Qed.

Lemma uploads_run_ok w w' : minimumAge >= MinimumOrphanAge -> fresh_world w -> rtc world_step w w' -> world_ok w'.
Proof. intros Hage Hf. apply fresh_uploads_ok in Hf. induction 1; [done|]. by apply IHrtc, (uploads_world_kept x). Qed.
End Safety.

(** ** What uploads guarantee *)
Module UploadSpec.

Section Spec.
Context (tenant : string) (catalog : Catalog) `{Ident.Ulid} `{ContentLibraries, !AuthorityLibraries} `{IdempotencyLibraries, !AuthorityStore.ReferenceJson} `{UploadJson}.
Context (policy : UploadPolicy) (retention : Z) (default_registry : Registry) (claimTimeout retryDelay minimumAge : Z).
Abbreviation reachable w w' := (rtc (world_step tenant catalog policy retention default_registry claimTimeout retryDelay minimumAge) w w').

(** C3: the object of an accepted asset is kept: whatever acceptors, reconcilers and
    orphan discoveries do, in any interleaving and with any crashes, lost commits and
    failed deletions, the object that an asset refers to is in the store, and the
    obligation of the attempt that put it is retained. *)
Theorem accepted_object_kept (w w' : World) (e : string) (a : Record_) (Hage : minimumAge >= MinimumOrphanAge) (Hw : fresh_world w) (Hrun : reachable w w')
    (Ha : assets (tables (shared w')) !! e = Some a) :
  exists x o, objects (shared w') !! object_of a = Some x /\ present x = true /\
    obligations (tables (shared w')) !! (put_upload x, put_attempt x) = Some o /\ OState o = ReconciliationRetained.
Proof.
  pose proof (uploads_run_ok tenant catalog policy retention default_registry claimTimeout retryDelay minimumAge w w' Hage Hw Hrun) as Hok.
  destruct (ok_assets _ _ _ _ Hok _ _ Ha) as (x & o & Hx & Ho & Hr). exists x, o. split_and!; try done. destruct (present x) eqn:Hp; [done|exfalso].
  destruct (ok_stored _ _ _ _ Hok _ _ Hx) as [_ Hgone]. destruct (Hgone Hp) as [Hu _]. by apply (Hu _ _ Ha).
Qed.

(** C4: acceptance is authorised, and all or nothing: it leaves every table as it was
    and answers with an error, or it was permitted by the session, the credential and
    the latest response of the subject, when it was decided and again behind the
    locks, within the lease of the attempt; the asset is of the intended bytes, digest
    and media type; and the asset, the retained obligation of the attempt and the
    event are written with it.  Only an unknown outcome of the commit answers an
    acceptance that happened with an error. *)
Theorem acceptance_is_authorised (m : Acceptance) (observedAt : Time) (emits admits : bool) (t : Tables) (fate : Fate) (r : result UploadError UploadRecord) (t' : Tables)
    (Hr : AcceptUpload tenant catalog m observedAt emits admits t fate = (r, t')) :
  (t' = t /\ is_ok r = false) \/ ((is_ok r = true \/ r = Err ErrUploadAcceptanceOutcomeUnknown) /\ exists row o, acceptance_effect tenant t t' m observedAt row o).
Proof.
  unfold AcceptUpload in Hr. destruct (_ || _); [injection Hr as <- <-; by left|]. destruct (negb _); [injection Hr as <- <-; by left|].
  apply settle_cases in Hr as [[-> He]|(u & Hb & Hr)]; [by left|right]. apply accept_body_effect in Hb. split; [|done]. destruct Hr as [->| ->]; [by left|by right].
Qed.
End Spec.
End UploadSpec.

(** *** A photograph, accepted after a crash *)
Module UploadWitness.
Import Ident.UlidText AuthorityWitness UploadSpec UploadService.
#[local] Existing Instance authority_libraries.
#[local] Existing Instance idempotency_libraries.
#[local] Existing Instance reference_json.
#[local] Instance content_libraries : ContentLibraries :=
  { content_sha256 := fun _ => zeros; marshal_document := fun _ => Some "{}"%string; parse_media_type := fun s => Some s }.
#[local] Instance upload_json : UploadJson := { marshal_upload_request := fun _ => Some "upload"%string }.

Section Drive.
Context (step : Local -> Input -> Shared -> Local * Shared).
Definition drive (w : World) (move : nat * Input) : World :=
  match workers w !! move.1 with
  | None => w
  | Some l => if time w <=? instant (store_clock move.2) then let '(l', s') := step l move.2 (shared w) in mk_world s' (<[move.1 := l']> (workers w)) (instant (store_clock move.2)) else w
  end.
End Drive.

(** The catalogue, the profile and an issued upload, over the consent of
    [AuthorityWitness]. *)
Definition digest : string := "sha256:" +:+ zeros.
Definition face : Vocabulary :=
  mk_vocabulary 1 digest {["image"]} (<["face.image" := mk_type "face.image" ["image"]]> ∅)
    (<["method.camera" := mk_method "method.camera" [mk_support "face.image" ["image"] []]]> ∅) {["identity.kyc"]} ∅ ∅.
Definition catalog : Catalog := <[vocabulary_reference face := face]> ∅.
Definition profile : CaptureProfile.Profile :=
  CaptureProfile.mk_profile 1 (vocabulary_reference face)
    [CaptureProfile.mk_requirement "face_image" "identity.kyc" "face.image" ["image"] None (CaptureProfile.mk_acquisition CaptureProfile.StrategyAnyOf ["method.camera"])
       [] [] []].
Definition evidence_id : string := "evd_01ARZ3NDEKTSV4RRFFQ69G5FAV".
Definition photograph : string := UploadBody.jpegSignature +:+ "abc".
Definition face_terms : Terms :=
  mk_terms "upl" "ten" token_id "sub" "ver" evidence_id "aut" "ack1" "prf" 1 digest (vocabulary_reference face) "face_image" "identity.kyc" "face.image" "image"
    "method.camera" "" [] ContentEncryptionPurpose [MediaTypeJPEG] 10 6 digest MediaTypeJPEG "eu.west" "retention.short" minute (at_ 15) (at_ 900).
Definition issued : UploadRecord := mk_upload face_terms UploadStateIssued 1 0 None (at_ 15) None "" None.
Definition authority_tables : AuthorityStore.Database := AuthorityService.AuthorityService.database (head_of consented).
Definition issued_tables : Tables :=
  mk_tables authority_tables (<["ver" := mk_capture (Some profile) (Some ∅) None]> ∅) [] (<["upl" := issued]> ∅) ∅ ∅ ∅ [] [] [] [].
Definition start : World := mk_world (mk_shared (Idempotency.mk_tables issued_tables ∅) ∅) (<[0%nat := Idle]> (<[1%nat := Idle]> ∅)) 0.

Definition capture_session : CaptureSession :=
  mk_capture_session "ver" "ten" Lifecycle.SessionStateCollecting (at_ 1) (at_ 2000) profile ∅ "prf" 1 digest.
Definition body : UploadBody.Source := UploadBody.mk_source [photograph] UploadBody.EOF true.
Definition accept (version : Z) : Op := OpAccept (mk_context "ten" capture_session token_id) "upl" (mk_metadata version 6 MediaTypeJPEG digest) body.
Definition snapshot : result Authority.Error AuthorityStore.Snapshot :=
  match AuthorityStore.authorities authority_tables !! "aut"%string, AuthorityStore.notices authority_tables !! "ntc"%string, AuthorityStore.latest_response authority_tables "aut" with
  | Some a, Some n, Some r => Ok (AuthorityStore.mk_snapshot a n (Some r))
  | _, _, _ => Err Authority.ErrNotFound
  end.
Definition envelope : Crypto.EnvelopeRecord := Crypto.mk_envelope 1 "AES256" "idenqa.evidence.content" (Kms.mk_wrapped "local" "key" "1" "AES" "k") 1 digest.
Definition input (crashes : bool) (o : Op) (t : Z) (version : string) (keys : list (string * string)) : Input :=
  mk_input crashes o (at_ t) (at_ t) None None (Some "evt"%string) snapshot true ∅ true true Committed Done [4; 4; 4]%nat
    (PutStored (mk_written version 64 digest (at_ t)) envelope) Removed (Some (keys, "")).
Definition moves (n : nat) (o : Op) (version : string) (keys : list (string * string)) (ts : list Z) : list (nat * Input) :=
  map (fun t => (n, input false o t version keys)) ts.

Definition run (ms : list (nat * Input)) (w : World) : World := fold_left (drive (work "ten"%string catalog DefaultUploadPolicy (10000 * second) (asset_registry face) minute minute MinimumOrphanAge)) ms w.
Abbreviation reached := (rtc (world_step "ten"%string catalog DefaultUploadPolicy (10000 * second) (asset_registry face) minute minute MinimumOrphanAge)).

Definition timely (i : Input) : Prop := instant (clock i) <= instant (store_clock i) /\ put_dated i.
Lemma run_reached ms w : Forall (fun m => timely m.2) ms -> reached w (run ms w).
Proof.
  intros Hms. revert w. induction Hms as [|m ms [Hc Hd] _ IH]; intros w; [reflexivity|]. cbn. etrans; [|apply IH]. unfold drive.
  destruct (workers w !! m.1) as [l|] eqn:Hl; [|reflexivity]. destruct (time w <=? _) eqn:Ht; [|reflexivity]. destruct (work _ _ _ _ _ _ _ _ _ _ _) as [l' s'] eqn:Hw.
  eapply rtc_once, world_work; try done. lia.
Qed.
Lemma input_timely crashes o t version keys : timely (input crashes o t version keys).
Proof. split; [reflexivity|]. unfold put_dated, provider_skew, minute, second. cbn. lia. Qed.
Lemma moves_timely n o version keys ts : Forall (fun m => timely m.2) (moves n o version keys ts).
Proof. apply Forall_forall. intros m Hm. apply list_elem_of_fmap in Hm as (t & -> & _). apply input_timely. Qed.

Definition first : string := "00000000000000000000000000000001".
Definition second_ : string := "00000000000000000000000000000002".
Definition key : string := "tenants/ten/evidence/" +:+ evidence_id +:+ "/content/1".

(** Worker 0 stages the object of attempt 1, records it and crashes; when its lease
    has expired, worker 1 accepts attempt 2. *)
Definition crashed : World := run (moves 0 (accept 1) first [] [20; 21; 22; 23] ++ [(0%nat, input true (accept 1) 24 first [])]) start.
Definition committing : World := run (moves 1 (accept 2) second_ [] [100; 101; 102; 103; 104]) crashed.
Definition accepted : World := run (moves 1 (accept 2) second_ [] [105]) committing.
Example accepted_rows : map fst (map_to_list (assets (tables (shared accepted)))) = [evidence_id] /\
  map (fun p => (p.1, OState p.2)) (map_to_list (obligations (tables (shared accepted)))) = [("upl"%string, 1, ReconciliationPending); ("upl"%string, 2, ReconciliationRetained)] /\
  map (fun p => (p.1.2, present p.2)) (map_to_list (objects (shared accepted))) = [(first, true); (second_, true)].
Proof. vm_compute. done. Qed.

Lemma start_fresh : fresh_world start.
Proof.
  split_and!; [done..|]. intros n l. cbn [workers start]. intros [[_ <-]|[_ [[_ <-]|[_ Hn]]%lookup_insert_Some]]%lookup_insert_Some; [done..|by rewrite lookup_empty in Hn].
Qed.
Lemma crashed_reached : reached start crashed.
Proof. apply run_reached, Forall_app. split; [apply moves_timely|]. apply Forall_singleton, input_timely. Qed.
Lemma committing_reached : reached start committing.
Proof. etrans; [apply crashed_reached|]. apply run_reached, moves_timely. Qed.
Lemma accepted_reached : reached start accepted.
Proof. etrans; [apply committing_reached|]. apply run_reached, moves_timely. Qed.

(** Much later, worker 0 lists both objects. *)
Definition discovered : World := run (moves 0 (OpDiscover "" 100) first [(key, first); (key, second_)] [3000; 3001; 3002; 3003]) accepted.
Definition the_asset : Record_ :=
  Eval vm_compute in match assets (tables (shared discovered)) !! evidence_id with Some a => a | None => protection_record "" issued (asset_registry face) (at_ 0) no_content end.
Lemma accepted_object_kept_witness : exists x, assets (tables (shared discovered)) !! evidence_id = Some the_asset /\
  objects (shared discovered) !! (key, second_) = Some x /\ present x = true.
Proof.
  assert (Hage : MinimumOrphanAge >= MinimumOrphanAge) by lia.
  assert (Hrun : reached start discovered) by (etrans; [apply accepted_reached|]; apply run_reached, moves_timely).
  assert (Ha : assets (tables (shared discovered)) !! evidence_id = Some the_asset) by (vm_compute; reflexivity).
  assert (Hkey : object_of the_asset = (key, second_)) by (vm_compute; reflexivity).
  destruct (accepted_object_kept _ _ _ _ _ _ _ _ start discovered evidence_id the_asset Hage start_fresh Hrun Ha) as (x & o & Hx & Hp & _).
  exists x. split; [exact Ha|]. rewrite Hkey in Hx. split; [exact Hx|exact Hp].
Defined.

(** The acceptance that worker 1 commits. *)
Definition acceptance : Acceptance :=
  match workers committing !! 1%nat with
  | Some (Committing q u a now bytes event) => mk_acceptance (UploadID (terms u)) (QToken q) (UVersion u) (Attempt u) a bytes event now
  | _ => mk_acceptance "" "" 0 0 (protection_record "" issued (asset_registry face) (at_ 0) no_content) 0 "" (at_ 0)
  end.
Lemma acceptance_is_authorised_witness : exists u t' row o,
  AcceptUpload "ten" catalog acceptance (at_ 105) true true (tables (shared committing)) Done = (Ok u, t') /\
  acceptance_effect "ten" (tables (shared committing)) t' acceptance (at_ 105) row o.
Proof.
  destruct (AcceptUpload "ten" catalog acceptance (at_ 105) true true (tables (shared committing)) Done) as [r t'] eqn:Hr.
  assert (Hok : is_ok r = true) by (change r with (r, t').1; rewrite <- Hr; vm_compute; reflexivity).
  destruct (acceptance_is_authorised _ _ _ _ _ _ _ _ _ _ Hr) as [[_ Hf]|[_ (row & o & He)]]; [congruence|].
  destruct r as [u|e]; [|discriminate]. exists u, t', row, o. split; [reflexivity|exact He].
Defined.
End UploadWitness.
