(* ===== verification/UploadRecovery.v ===== *)
(** * An obligation that is never resolved

    A recorded object whose attempt was superseded: when a later attempt of the same
    upload is accepted, the reconciler answers the obligation of the earlier one with a
    conflict and returns it to the queue, and while it is unresolved the orphan
    discovery takes its object for a referenced one. *)

From S2P Require Import Prelude GoTime Ident Content Lifecycle Evidence Registry Idempotency Authority Profile AuthorityService AuthoritySafety Upload UploadBody UploadStore UploadService UploadSafety.
From Stdlib Require Import Ascii.
Import Uploads UploadStore UploadService.

Definition unresolved (o : ReconciliationRecord) : Prop := OState o = ReconciliationPending \/ OState o = ReconciliationClaimed.

(** The attempt a worker is on, and the obligation it has claimed. *)
Definition attempt_key (l : Local) : option (string * Z) :=
  match l with
  | Claimed _ u | Compensating _ u _ _ | RecordingOrphan _ u _ _ _ | Staged _ u _ _ | DiscardingUnrecorded _ u _ _ _ | Recorded _ u _ _ _ |
    Committing _ u _ _ _ _ | Discarding _ u _ _ _ | Resolving _ u _ _ _ | Failing _ u _ => Some (UploadID (terms u), Attempt u)
  | _ => None
  end.
Definition recovering (l : Local) : option ReconciliationRecord :=
  match l with Reconciling o | ReconcilingAsset o _ | DeletingObject o | Completing o _ | Retrying o _ => Some o | _ => None end.

(** A worker that is not on the attempt [k], and has no verdict on its obligation nor
    on its object. *)
Record untouched (k : string * Z) (object : string * string) (l : Local) : Prop := mk_untouched {
  no_attempt : attempt_key l <> Some k;
  own_key o : recovering l = Some o -> version_of (OObject o) = object -> key_of o = k;
  no_verdict : match l with
    | DeletingObject o | Completing o _ => key_of o <> k
    | ReconcilingAsset o u => key_of o = k -> UState u = UploadStateAccepted /\ Attempt u <> k.2
    | DeletingOrphan _ o _ _ _ => inventory_key o <> object
    | _ => True
    end;
}.

Lemma row_step_accepted r r' : row_step r r' -> UState r = UploadStateAccepted -> r' = r.
Proof.
  intros [->|Hc] Ha; [done|]. unfold upload_change_valid, upload_state_is in Hc. rewrite Ha in Hc. bprop.
  repeat (match goal with Hd : _ \/ _ |- _ => destruct Hd end; bprop); done.
Qed.

Section Moves.
Context (tenant : string) (catalog : Catalog) `{ContentLibraries, !AuthorityLibraries}.

(** At most one row of the obligations changes, into one of [P]. *)
Definition obligation_moves (P : ReconciliationRecord -> Prop) (t t' : Tables) : Prop :=
  uploads t' = uploads t /\ (obligations t' = obligations t \/
  exists row o, obligations t !! key_of o = Some row /\ same_obligation row o /\ P o /\ obligations t' = <[key_of o := o]> (obligations t)).
Lemma obligation_moves_refl P t : obligation_moves P t t.
Proof. by split; [|left]. Qed.

Lemma transition_moves P upload attempt transition t fate r t' : coherent t ->
  (forall current next action, key_of current = (upload, attempt) -> transition current = Ok (next, action) -> empty_string action = false ->
     same_obligation current next /\ P next) ->
  transition_obligation upload attempt transition t fate = (r, t') -> obligation_moves P t t'.
Proof.
  intros Hco Htr. unfold transition_obligation. destruct (_ <? _); [intros [= <- <-]; apply obligation_moves_refl|].
  intros [[-> _]|([] & Hb & _)]%settle_cases; [apply obligation_moves_refl|]. destruct (obligations t !! _) as [row|] eqn:Hrow; [|done]. go_inv Hb.
  destruct v0 as [next action]. cbn [fst snd] in *. destruct (empty_string action) eqn:Ha; [injection Hb as <-; apply obligation_moves_refl|]. go_inv Hb.
  apply RestoreObjectReconciliation_normal in Hv. subst v. pose proof (Hco _ _ Hrow) as Hk. destruct (Htr (normal row) next action (eq_sym Hk) Hv0 Ha) as [Hsame HP].
  apply persist_obligation_effect in Hv1 as (Hu & _ & row' & Hrow' & _ & _ & Ho). split; [done|right].
  assert (Hs : same_obligation row next) by (by eapply same_obligation_trans, Hsame). exists row, next. split_and!; try done. by rewrite (key_of_same _ _ Hs), <- Hk.
Qed.

Lemma Retry_moves claimed at_ delay t fate r t' : coherent t -> RetryObjectReconciliation claimed at_ delay t fate = (r, t') -> obligation_moves unresolved t t'.
Proof.
  intros Hco. apply transition_moves; [done|]. intros current next action _ Hx _. unfold fenced in Hx. go_inv Hx. apply Retry_same in Hv as [Hs Hp]. split; [done|by left].
Qed.
Lemma Complete_moves claimed state at_ t fate r t' : coherent t -> CompleteObjectReconciliation claimed state at_ t fate = (r, t') ->
  obligation_moves (fun o => key_of o = key_of claimed) t t'.
Proof.
  intros Hco. apply transition_moves; [done|]. intros current next action Hk Hx _. unfold fenced in Hx. go_inv Hx. apply Resolve_same in Hv as [Hs _].
  split; [done|]. by rewrite (key_of_same _ _ Hs), Hk.
Qed.
Lemma Resolve_moves upload attempt object state at_ t fate r t' : coherent t -> ResolveObjectReconciliation tenant upload attempt object state at_ t fate = (r, t') ->
  obligation_moves (fun o => key_of o = (upload, attempt)) t t'.
Proof.
  intros Hco. unfold ResolveObjectReconciliation. destruct (_ || _); [intros [= <- <-]; apply obligation_moves_refl|]. apply transition_moves; [done|].
  intros current next action Hk Hx Ha. go_inv Hx. destruct (obligation_is _ _); [injection Hx as <- <-; done|]. go_inv Hx. apply Resolve_same in Hv as [Hs _].
  split; [done|]. by rewrite (key_of_same _ _ Hs), Hk.
Qed.
Lemma Claim_moves rows now timeout t fate r t' : coherent t -> ClaimObjectReconciliation tenant rows now timeout t fate = (r, t') -> obligation_moves unresolved t t'.
Proof.
  intros Hco. unfold ClaimObjectReconciliation. destruct (_ || _); [intros [= <- <-]; apply obligation_moves_refl|].
  intros [[-> _]|(o & Hb & _)]%settle_cases; [apply obligation_moves_refl|]. destruct (next_ready _ _ _) as [row|] eqn:Hnext; [|done].
  apply (next_ready_row _ _ _ _ Hco) in Hnext. go_inv Hb. apply RestoreObjectReconciliation_normal in Hv. subst v. apply ClaimForRecovery_same in Hv0 as (Hs & Hst & _).
  apply persist_obligation_effect in Hv1 as (Hu & _ & _ & _ & _ & _ & Ho). split; [done|right].
  assert (Hs' : same_obligation row o) by (by eapply same_obligation_trans, Hs). exists row, o. split_and!; try done; [by rewrite (key_of_same _ _ Hs')|by right].
Qed.

(** A claimed attempt is of an upload that is being uploaded. *)
Lemma claimed_uploading principal identifier version at_ now admits t fate u t' :
  ClaimUploadAttempt tenant catalog principal identifier version at_ now admits t fate = (Ok u, t') ->
  exists row, uploads t' !! UploadID (terms u) = Some row /\ UState row = UploadStateUploading.
Proof.
  unfold ClaimUploadAttempt. intros [_ Hu]%transitionUpload_effect. specialize (Hu _ eq_refl). apply transition_body_effect in Hu as (_ & row & current & next & action & reason & _ & Hc & Hn & Hres & Hk).
  apply restoreUpload_same in Hres as (_ & _ & _ & Ht & _). unfold claiming in Hn. go_inv Hn. unfold ClaimAttempt in Hv. go_inv Hv.
  rewrite Ht. cbn [utc_terms UploadID with_frame terms]. eexists. by split; [exact Hk|].
Qed.
End Moves.

Section Stranded.
Context (tenant : string) (catalog : Catalog) `{Ident.Ulid} `{ContentLibraries, !AuthorityLibraries} `{IdempotencyLibraries, !AuthorityStore.ReferenceJson} `{UploadJson}.
Context (policy : UploadPolicy) (retention : Z) (default_registry : Registry) (claimTimeout retryDelay minimumAge : Z).
Abbreviation act := (work tenant catalog policy retention default_registry claimTimeout retryDelay minimumAge).
Abbreviation one_step := (world_step tenant catalog policy retention default_registry claimTimeout retryDelay minimumAge).
Context (k : string * Z) (object : ObjectStore.ObjectRecord).
Abbreviation place := (version_of object).

(** The upload is accepted at another attempt; the obligation of [k] for the object is
    not resolved, and the object is there. *)
Record stranded (s : Shared) : Prop := mk_stranded {
  st_upload : exists row, uploads (tables s) !! k.1 = Some row /\ UState row = UploadStateAccepted /\ Attempt row <> k.2;
  st_obligation : exists o, obligations (tables s) !! k = Some o /\ OObject o = object /\ unresolved o;
  st_object : exists x, objects s !! place = Some x /\ present x = true;
}.

Lemma stranded_moves P s t' : stranded s -> obligation_moves P (tables s) t' -> (forall o, key_of o = k -> P o -> unresolved o) -> stranded (with_tables s t').
Proof.
  intros [Hu (o & Ho & Hobj & Hun) Hx] [Hsame Hm] HP. split; [by rewrite tables_with, Hsame| |done]. rewrite tables_with.
  destruct Hm as [->|(row & o' & Hrow & (_ & _ & _ & Hobj') & Ho' & ->)]; [by exists o|]. destruct (decide (key_of o' = k)) as [Hk|Hne].
  - exists o'. rewrite Hk in Hrow |- *. rewrite lookup_insert_eq. split_and!; [done|congruence|by apply HP].
  - exists o. by rewrite lookup_insert_ne.
Qed.

Lemma stranded_rows s t' : stranded s -> rows_step (tables s) t' ->
  (obligations t' = obligations (tables s) \/ exists key o, key <> k /\ obligations t' = <[key := o]> (obligations (tables s))) -> stranded (with_tables s t').
Proof.
  intros [(row & Hrow & Ha & Hn) (o & Ho & Hobj & Hun) Hx] Hrows Hob. split; [|exists o; split; [|done]|done]; rewrite tables_with.
  - destruct (Hrows _ _ Hrow) as (row' & Hrow' & Hstep). exists row'. apply row_step_accepted in Hstep; [|done]. by subst row'.
  - destruct Hob as [->|(key & o' & Hne & ->)]; [done|]. by rewrite lookup_insert_ne.
Qed.
Lemma stranded_uploads s s' : stranded s -> uploads_only (tables s) (tables s') -> objects s' = objects s -> stranded s'.
Proof.
  intros Hs (Hrows & _ & Ho) Hobj. pose proof (stranded_rows s (tables s') Hs Hrows (or_introl Ho)) as [H1' H2' H3']. rewrite tables_with in H1', H2'. split; [done..|]. by rewrite Hobj.
Qed.
Lemma stranded_created s made t' : stranded s -> uploads t' = uploads (tables s) -> obligation_created made (tables s) t' -> stranded (with_tables s t').
Proof.
  intros Hs Hu [Ho|(o & _ & Hnone & Ho)]; (apply stranded_rows; [done|by apply rows_step_same|]); [by left|right]. exists (key_of o), o. split; [|done].
  intros Hk. destruct (st_obligation _ Hs) as (o' & Ho' & _). congruence.
Qed.
Lemma stranded_objects s os : stranded s -> (forall x, objects s !! place = Some x -> present x = true -> exists x', os !! place = Some x' /\ present x' = true) ->
  stranded (with_objects s os).
Proof. intros [Hu Ho (x & Hx & Hp)] Hos. split; [done..|]. by apply (Hos x). Qed.
Lemma stranded_deleted s key answer : stranded s -> key <> place -> stranded (with_objects s (delete_object key answer (objects s))).
Proof.
  intros Hs Hne. apply stranded_objects; [done|]. intros x Hx Hp. exists x. split; [|done]. destruct answer as [|[]]; cbn; unfold remove; by rewrite ?lookup_alter_ne.
Qed.
Lemma stranded_put s u key w : stranded s -> objects s !! (key, WVersion w) = None -> stranded (with_objects s (put_object u key w (objects s))).
Proof.
  intros Hs Hfree. apply stranded_objects; [done|]. intros x Hx Hp. exists x. split; [|done]. unfold put_object. rewrite lookup_insert_ne; [done|]. intros He. congruence.
Qed.

(** ** Locals *)

Definition unconcerned (l : Local) : Prop :=
  match l with Idle | Creating _ _ | Claiming _ | Returned _ | Discovering _ _ _ _ => True | _ => False end.
Lemma unconcerned_untouched l : unconcerned l -> untouched k place l.
Proof. destruct l; intros []; split; done. Qed.
(** A worker stays on its attempt. *)
Lemma same_attempt l l' : untouched k place l -> attempt_key l' = attempt_key l -> is_Some (attempt_key l') -> untouched k place l'.
Proof. intros [Hno _ _] He [key Hk]. split; [by rewrite He|destruct l'; done|by destruct l']. Qed.
Lemma same_recovery o l l' : untouched k place l -> recovering l = Some o -> recovering l' = Some o ->
  (match l' with DeletingObject o' | Completing o' _ => key_of o' <> k | ReconcilingAsset o' u => key_of o' = k -> UState u = UploadStateAccepted /\ Attempt u <> k.2 | _ => True end) ->
  untouched k place l'.
Proof.
  intros [_ Hown _] Hl Hl' Hv. split.
  - by destruct l'.
  - intros o' Ho'. apply Hown. congruence.
  - by destruct l'.
Qed.

Section Step.
Context (s : Shared) (ws : gmap nat Local) (T : Z) (n : nat) (i : Input) (l : Local).
Hypotheses (Hok : view_ok (tables s) (objects s) ws T) (Hn : ws !! n = Some l) (Hs : stranded s) (Hl : untouched k place l) (Hcr : crash i = false).

(** The object at the place was put by the attempt [k]. *)
Lemma place_put x : objects s !! place = Some x -> (put_upload x, put_attempt x) = k.
Proof.
  intros Hx. destruct (st_obligation _ Hs) as (o & Ho & Hobj & _). apply (ok_obligations _ _ _ _ Hok) in Ho as (_ & y & Hy & Hk & _). rewrite Hobj in Hy. congruence.
Qed.
Lemma held_elsewhere u key : holds_ok (objects s) u key -> (UploadID (terms u), Attempt u) <> k -> key <> place.
Proof. intros (x & Hx & Hu & Ha & _) Hne ->. apply place_put in Hx. congruence. Qed.
Lemma obligation_place key o : obligations (tables s) !! key = Some o -> version_of (OObject o) = place -> key_of o = k.
Proof.
  intros Ho Hp. apply (ok_obligations _ _ _ _ Hok) in Ho as (Hkey & y & Hy & Hk & _). rewrite Hp in Hy. apply place_put in Hy. congruence.
Qed.
Lemma coherent_here : coherent (tables s).
Proof. by eapply coherent_view. Qed.
Lemma local_here : local_ok (tables s) (objects s) ws T l.
Proof. by apply (ok_locals _ _ _ _ Hok _ _ Hn). Qed.

Definition carried (l' : Local) (s' : Shared) : Prop := stranded s' /\ untouched k place l'.

Lemma idle_carried l' s' : l = Idle -> act l i s = (l', s') -> carried l' s'.
Proof.
  intros -> Hw. unfold work in Hw. rewrite Hcr in Hw. unfold start in Hw. assert (Hp : forall l0, unconcerned l0 -> carried l0 s) by (intros; split; [done|by apply unconcerned_untouched]).
  destruct (op i).
  - destruct (issue_built _ _ _ _ _ _ _ _ _ _) as [[u request]|e]; injection Hw as <- <-; by apply Hp.
  - destruct (_ || _); [injection Hw as <- <-; by apply Hp|]. cbv zeta in Hw. destruct (rbind _ _) as [[u|]|e]; injection Hw as <- <-; by apply Hp.
  - injection Hw as <- <-. by apply Hp.
  - destruct (ClaimObjectReconciliation _ _ _ _ _ _) as [r t'] eqn:Hr. pose proof (Claim_moves _ _ _ _ _ _ _ _ coherent_here Hr) as Hm.
    apply (ClaimObjectReconciliation_effect _ _ _ _ _ _ _ _ coherent_here) in Hr as [_ Ho].
    assert (Hst : stranded (with_tables s t')) by (by eapply stranded_moves). destruct r as [o|e]; injection Hw as <- <-; (split; [done|]); [|by apply unconcerned_untouched].
    destruct (Ho _ eq_refl) as (_ & _ & _ & row & Hrow & Hsame & _). split; [done| |done]. intros o' [= <-] Hp'. rewrite <- (obligation_place _ _ Hrow); [by apply key_of_same|].
    by destruct Hsame as (_ & _ & _ & <-).
  - cbv zeta in Hw. destruct (_ || _); [injection Hw as <- <-; by apply Hp|]. destruct (ObjectStore.NewKey _); [|injection Hw as <- <-; by apply Hp].
    destruct (page i) as [[keys next]|]; injection Hw as <- <-; by apply Hp.
Qed.

(** A worker on another attempt: its object is elsewhere. *)
Lemma attempt_other u : attempt_key l = Some (UploadID (terms u), Attempt u) -> (UploadID (terms u), Attempt u) <> k.
Proof. intros He Hk. apply (no_attempt _ _ _ Hl). by rewrite He, Hk. Qed.
Lemma attempt_carried u l' s' : attempt_key l = Some (UploadID (terms u), Attempt u) -> attempt_key l' = Some (UploadID (terms u), Attempt u) \/ unconcerned l' ->
  stranded s' -> carried l' s'.
Proof. intros He Hl' Hst. split; [done|]. destruct Hl' as [Hl'|Hl']; [|by apply unconcerned_untouched]. eapply same_attempt; [exact Hl|by rewrite Hl'|by rewrite Hl']. Qed.

Lemma prepare_carried q u l' s' : l = Claimed q u -> act l i s = (l', s') -> carried l' s'.
Proof.
  intros He Hw. rewrite He in Hw. unfold work in Hw. rewrite Hcr in Hw. assert (Hk : attempt_key l = Some (UploadID (terms u), Attempt u)) by (by rewrite He).
  unfold prepare in Hw. destruct (UploadBody.NewUploadReader _ _) as [reader|e]; [|injection Hw as <- <-; by eapply attempt_carried; [|left|]].
  destruct (prepare_start _ _ _ _ _) as [[registry key]|e]; [|injection Hw as <- <-; by eapply attempt_carried; [|left|]]. destruct (UploadBody.consume _ _) as [plaintext reader'].
  destruct (put i) as [w envelope|[[w named]|]]; cbn [version_taken] in Hw.
  - destruct (objects s !! (key, WVersion w)) eqn:Hfree; [injection Hw as <- <-; by eapply attempt_carried; [|left|]|]. pose proof (stranded_put s u key w Hs Hfree) as Hput.
    destruct (ObjectStore.NewObject _) as [object'|]; [|injection Hw as <- <-; by eapply attempt_carried; [|left|]].
    destruct (prepared_asset _ _ _ _ _ _ _) as [a|]; injection Hw as <- <-; by eapply attempt_carried; [|left|].
  - destruct (objects s !! (key, WVersion w)) eqn:Hfree; [injection Hw as <- <-; by eapply attempt_carried; [|left|]|]. pose proof (stranded_put s u key w Hs Hfree) as Hput.
    destruct (ObjectStore.NewObject _) as [object'|]; [destruct named|]; injection Hw as <- <-; by eapply attempt_carried; [|left|].
  - injection Hw as <- <-; by eapply attempt_carried; [|left|].
Qed.

(** The deletion of an attempt's own object, and the obligation it records. *)
Lemma deletion_carried u key answer l' : attempt_key l = Some (UploadID (terms u), Attempt u) -> attempt_key l' = Some (UploadID (terms u), Attempt u) ->
  holds_ok (objects s) u key -> carried l' (with_objects s (delete_object key answer (objects s))).
Proof. intros He Hl' Hh. eapply attempt_carried; [done|by left|]. apply stranded_deleted; [done|]. eapply held_elsewhere; [done|by apply attempt_other]. Qed.
Lemma creation_carried u made l' t' : attempt_key l = Some (UploadID (terms u), Attempt u) -> attempt_key l' = Some (UploadID (terms u), Attempt u) \/ unconcerned l' ->
  uploads t' = uploads (tables s) /\ assets t' = assets (tables s) /\ obligation_created made (tables s) t' -> carried l' (with_tables s t').
Proof. intros He Hl' (Hu & _ & Hc). eapply attempt_carried; [done..|]. by eapply stranded_created. Qed.

Ltac at_step Hl0 Hw := rewrite Hl0 in Hw; unfold work in Hw; rewrite Hcr in Hw.

Lemma compensating_carried q u object' cause l' s' : l = Compensating q u object' cause -> act l i s = (l', s') -> carried l' s'.
Proof.
  intros He Hw. assert (Hk : attempt_key l = Some (UploadID (terms u), Attempt u)) by (by rewrite He). pose proof local_here as [Hf _]. rewrite He in Hf. destruct Hf as [_ Hh].
  at_step He Hw. injection Hw as <- <-. eapply deletion_carried; [exact Hk|by destruct (deletes i)|exact Hh].
Qed.
Lemma unrecorded_carried q u a now cause l' s' : l = DiscardingUnrecorded q u a now cause -> act l i s = (l', s') -> carried l' s'.
Proof.
  intros He Hw. assert (Hk : attempt_key l = Some (UploadID (terms u), Attempt u)) by (by rewrite He). pose proof local_here as [Hf _]. rewrite He in Hf. destruct Hf as [_ Hh].
  at_step He Hw. injection Hw as <- <-. eapply deletion_carried; [exact Hk|by destruct (deletes i)|exact Hh].
Qed.
Lemma discarding_carried q u a now cause l' s' : l = Discarding q u a now cause -> act l i s = (l', s') -> carried l' s'.
Proof.
  intros He Hw. assert (Hk : attempt_key l = Some (UploadID (terms u), Attempt u)) by (by rewrite He). pose proof local_here as [Hf _]. rewrite He in Hf. destruct Hf as [_ Hh].
  at_step He Hw. injection Hw as <- <-. eapply deletion_carried; [exact Hk|by destruct (deletes i)|exact Hh].
Qed.
Lemma recording_carried q u object' at_ cause l' s' : l = RecordingOrphan q u object' at_ cause -> act l i s = (l', s') -> carried l' s'.
Proof.
  intros He Hw. assert (Hk : attempt_key l = Some (UploadID (terms u), Attempt u)) by (by rewrite He). at_step He Hw.
  destruct (CreateObjectReconciliationForObject _ _ _ _ _ _) as [r t'] eqn:Hr. apply create_obligation_effect in Hr.
  destruct r; injection Hw as <- <-; (eapply creation_carried; [exact Hk| |exact Hr]); [by left|by right].
Qed.
Lemma staged_carried q u a body l' s' : l = Staged q u a body -> act l i s = (l', s') -> carried l' s'.
Proof.
  intros He Hw. assert (Hk : attempt_key l = Some (UploadID (terms u), Attempt u)) by (by rewrite He). at_step He Hw.
  destruct (CreateObjectReconciliation _ _ _ _ _ _) as [r t'] eqn:Hr. apply create_obligation_effect in Hr.
  destruct r; injection Hw as <- <-; (eapply creation_carried; [exact Hk| |exact Hr]); by left.
Qed.
Lemma recorded_carried q u a now body l' s' : l = Recorded q u a now body -> act l i s = (l', s') -> carried l' s'.
Proof.
  intros He Hw. assert (Hk : attempt_key l = Some (UploadID (terms u), Attempt u)) by (by rewrite He). at_step He Hw.
  destruct (accept_checked _ _ _ _ _ _ _) as [[bytes event]|e]; injection Hw as <- <-; (eapply attempt_carried; [exact Hk|by left|done]).
Qed.
Lemma committing_carried q u a now bytes event l' s' : l = Committing q u a now bytes event -> act l i s = (l', s') -> carried l' s'.
Proof.
  intros He Hw. assert (Hk : attempt_key l = Some (UploadID (terms u), Attempt u)) by (by rewrite He). pose proof (attempt_other u Hk) as Hother. at_step He Hw.
  destruct (AcceptUpload _ _ _ _ _ _ _ _) as [r t'] eqn:Hr.
  assert (Hst : stranded (with_tables s t')).
  { apply AcceptUpload_effect in Hr as [[-> _]|[_ (row & o & [])]]; [by apply stranded_uploads with s; [|apply uploads_only_refl|]|].
    apply stranded_rows; [done..|]. right. by eexists _, _. }
  destruct r as [u'|e]; [|destruct e]; injection Hw as <- <-; (eapply attempt_carried; [exact Hk| |exact Hst]); solve [by left|by right].
Qed.
Lemma resolving_carried q u a now cause l' s' : l = Resolving q u a now cause -> act l i s = (l', s') -> carried l' s'.
Proof.
  intros He Hw. assert (Hk : attempt_key l = Some (UploadID (terms u), Attempt u)) by (by rewrite He). pose proof (attempt_other u Hk) as Hother. at_step He Hw. injection Hw as <- <-.
  destruct (ResolveObjectReconciliation _ _ _ _ _ _ _ _) as [r t'] eqn:Hr. apply Resolve_moves in Hr; [|apply coherent_here].
  eapply attempt_carried; [exact Hk|by left|]. eapply stranded_moves; [done|exact Hr|]. cbv beta. intros o Ho Ho'. congruence.
Qed.
Lemma failing_carried q u cause l' s' : l = Failing q u cause -> act l i s = (l', s') -> carried l' s'.
Proof.
  intros He Hw. assert (Hk : attempt_key l = Some (UploadID (terms u), Attempt u)) by (by rewrite He). at_step He Hw. injection Hw as <- <-.
  eapply attempt_carried; [exact Hk|by right|]. apply stranded_uploads with s; [done| |done]. rewrite tables_with. by apply record_failure_effect.
Qed.

Lemma creating_carried u request l' s' : l = Creating u request -> act l i s = (l', s') -> carried l' s'.
Proof.
  intros He Hw. at_step He Hw. destruct (CreateUpload _ _ _ _ _ _ _ _ _) as [r store'] eqn:Hr. injection Hw as <- <-. apply CreateUpload_effect in Hr.
  split; [by apply stranded_uploads with s|by apply unconcerned_untouched].
Qed.
Lemma claiming_carried q l' s' : l = Claiming q -> act l i s = (l', s') -> carried l' s'.
Proof.
  intros He Hw. at_step He Hw. destruct (ClaimUploadAttempt _ _ _ _ _ _ _ _ _ _) as [r t'] eqn:Hr. pose proof Hr as [Hu _]%ClaimUploadAttempt_effect.
  assert (Hst : stranded (with_tables s t')) by (by apply stranded_uploads with s). destruct r as [u|e]; injection Hw as <- <-; (split; [done|]); [|by apply unconcerned_untouched].
  apply claimed_uploading in Hr as (row & Hrow & Hup). split; [|done..]. cbn. intros [= Hk]. destruct (st_upload _ Hst) as (row' & Hrow' & Hacc & _).
  rewrite tables_with, <- Hk in Hrow'. cbn in Hrow'. congruence.
Qed.

(** *** Reconcilers *)

Lemma reconciling_carried o l' s' : l = Reconciling o -> act l i s = (l', s') -> carried l' s'.
Proof.
  intros He Hw. at_step He Hw. destruct (FindUpload _ _ _ _) as [u|e] eqn:Hf; injection Hw as <- <-; (split; [done|]); [|by eapply same_recovery; [exact Hl|by rewrite He| |]].
  destruct (String.eqb _ _); eapply same_recovery; try exact Hl; try (by rewrite He); try done. intros Hk. unfold FindUpload in Hf. go_inv Hf.
  destruct (uploads _ !! OUploadID o) as [row|] eqn:Hrow; [|done]. go_inv Hf. apply restoreUpload_same in Hv as (Hst & _ & Ha & _). apply restoreTemporalFrame_same in Hf as (Hst' & _ & Ha' & _).
  destruct (st_upload _ Hs) as (row' & Hrow' & Hacc & Hne). rewrite <- Hk in Hrow', Hne |- *. cbn in Hrow', Hne |- *. replace row' with row in * by congruence. rewrite Hst', Ha', Hst, Ha. done.
Qed.
Lemma reconciling_asset_carried o u l' s' : l = ReconcilingAsset o u -> act l i s = (l', s') -> carried l' s'.
Proof.
  intros He Hw. pose proof (no_verdict _ _ _ Hl) as Hv. rewrite He in Hv. at_step He Hw. injection Hw as <- <-. split; [done|].
  assert (Hr : forall e, untouched k place (Retrying o e)) by (intros e; by eapply same_recovery; [exact Hl|by rewrite He| |]).
  destruct (decide (key_of o = k)) as [Hk|Hk].
  - destruct (Hv Hk) as [Hst Hne]. rewrite <- Hk in Hne. cbn in Hne. unfold determine, upload_state_is. rewrite Hst, bool_decide_eq_true_2 by done.
    destruct (find_asset _ _ _) as [a|e]; cbn [rbind]; [|apply Hr]. rewrite (proj2 (Z.eqb_neq _ _) Hne). apply Hr.
  - destruct (determine _ _ _) as [[]|e]; [..|apply Hr]; (eapply same_recovery; [exact Hl|by rewrite He|done|done]).
Qed.
Lemma deleting_object_carried o l' s' : l = DeletingObject o -> act l i s = (l', s') -> carried l' s'.
Proof.
  intros He Hw. pose proof (no_verdict _ _ _ Hl) as Hv. rewrite He in Hv. at_step He Hw. injection Hw as <- <-. split.
  - apply stranded_deleted; [done|]. intros Hp. apply Hv. eapply (own_key _ _ _ Hl); [by rewrite He|done].
  - destruct (deletes i); (eapply same_recovery; [exact Hl|by rewrite He|done|done]).
Qed.
Lemma completing_carried o state l' s' : l = Completing o state -> act l i s = (l', s') -> carried l' s'.
Proof.
  intros He Hw. pose proof (no_verdict _ _ _ Hl) as Hv. rewrite He in Hv. at_step He Hw. destruct (CompleteObjectReconciliation _ _ _ _ _) as [r t'] eqn:Hr. injection Hw as <- <-.
  split; [|by apply unconcerned_untouched]. eapply stranded_moves; [done|eapply Complete_moves; [apply coherent_here|exact Hr]|]. cbv beta. intros o' Hk Hk'. congruence.
Qed.
Lemma retrying_carried o cause l' s' : l = Retrying o cause -> act l i s = (l', s') -> carried l' s'.
Proof.
  intros He Hw. at_step He Hw. injection Hw as <- <-. destruct (RetryObjectReconciliation _ _ _ _ _) as [r t'] eqn:Hr.
  split; [|by apply unconcerned_untouched]. by eapply stranded_moves; [done|eapply Retry_moves; [apply coherent_here|exact Hr]|].
Qed.

(** *** Discovery *)

Lemma place_referenced o : IsObjectReferenced tenant (tables s) (ObjectStore.InventoryKey o) (ObjectStore.InventoryVersion o) = Ok false -> inventory_key o <> place.
Proof.
  intros Href Hp. unfold IsObjectReferenced in Href. go_inv Href. apply orb_false_iff in Href as [_ Hf].
  destruct (st_obligation _ Hs) as (x & Hx & Hobj & Hun). unfold inventory_key, version_of in Hp. injection Hp as Hp1 Hp2.
  rewrite <- not_true_iff_false in Hf. apply Hf, existsb_exists. exists (k, x). split; [by apply list_elem_of_In, elem_of_map_to_list|]. cbn [snd]. rewrite Hobj, Hp1, Hp2, !String.eqb_refl.
  unfold obligation_is. cbn [andb]. destruct Hun as [->| ->]; done.
Qed.
Lemma discovering_carried cutoff found next r l' s' : l = Discovering cutoff found next r -> act l i s = (l', s') -> carried l' s'.
Proof.
  intros He Hw. at_step He Hw. destruct found as [|o rest]; injection Hw as <- <-; (split; [done|]); [by apply unconcerned_untouched|].
  unfold discover. destruct (negb _); [by apply unconcerned_untouched|]. destruct (after _ _); [by apply unconcerned_untouched|].
  destruct (IsObjectReferenced _ _ _ _) as [[]|e] eqn:Href; try (by apply unconcerned_untouched). apply place_referenced in Href. by split.
Qed.
Lemma deleting_orphan_carried cutoff o rest next r l' s' : l = DeletingOrphan cutoff o rest next r -> act l i s = (l', s') -> carried l' s'.
Proof.
  intros He Hw. pose proof (no_verdict _ _ _ Hl) as Hv. rewrite He in Hv. at_step He Hw. injection Hw as <- <-. split; [by apply stranded_deleted|].
  destruct (deletes i); by apply unconcerned_untouched.
Qed.
End Step.

Lemma step_carried s ws T n i l l' s' : view_ok (tables s) (objects s) ws T -> ws !! n = Some l -> stranded s -> untouched k place l -> act l i s = (l', s') ->
  stranded s' /\ untouched k place l'.
Proof.
  intros Hok Hn Hs Hl Hw. destruct (crash i) eqn:Hcr.
  { unfold work in Hw. rewrite Hcr in Hw. injection Hw as <- <-. split; [done|by apply unconcerned_untouched]. }
  destruct l; [eapply idle_carried|eapply creating_carried|eapply claiming_carried|eapply prepare_carried|eapply compensating_carried|eapply recording_carried|
    eapply staged_carried|eapply unrecorded_carried|eapply recorded_carried|eapply committing_carried|eapply discarding_carried|eapply resolving_carried|
    eapply failing_carried|eapply reconciling_carried|eapply reconciling_asset_carried|eapply deleting_object_carried|eapply completing_carried|
    eapply retrying_carried|eapply discovering_carried|eapply deleting_orphan_carried|]; try exact Hw; try exact Hn; try exact Hl; try exact Hok; try done.
  unfold work in Hw. rewrite Hcr in Hw. injection Hw as <- <-. by split.
Qed.

Definition stranded_world (w : World) : Prop := stranded (shared w) /\ forall n l, workers w !! n = Some l -> untouched k place l.
Lemma stranded_world_kept w w' : one_step w w' -> world_ok w -> stranded_world w -> stranded_world w'.
Proof.
  intros [n i v l l' s' Hn Ht Hc Hd Hw|v b c r] Hok [Hs Hl].
  - destruct (step_carried _ _ _ _ _ _ _ _ Hok Hn Hs (Hl _ _ Hn) Hw) as [Hs' Hl']. split; [done|].
    cbn [workers]. intros m l0 [[<- <-]|[Hne Hm]]%lookup_insert_Some; [done|by eapply Hl].
  - split; [|done]. by destruct Hs.
Qed.
End Stranded.

Module UploadRecoverySpec.
Section Spec.
Context (tenant : string) (catalog : Catalog) `{Ident.Ulid} `{ContentLibraries, !AuthorityLibraries} `{IdempotencyLibraries, !AuthorityStore.ReferenceJson} `{UploadJson}.
Context (policy : UploadPolicy) (retention : Z) (default_registry : Registry) (claimTimeout retryDelay minimumAge : Z).
Abbreviation reachable w w' := (rtc (world_step tenant catalog policy retention default_registry claimTimeout retryDelay minimumAge) w w').

(** The object of a superseded attempt is never deleted: once an upload is accepted
    at another attempt, an unresolved obligation of an attempt that no worker is on
    stays unresolved in every continuation; its object stays in the store and no
    asset refers to it.  The reconciler claims it and answers a conflict, whatever
    the delays are, and the orphan discovery counts the object as referenced. *)
Theorem superseded_obligation_stranded (w0 w w' : World) (u : string) (n : Z) (row : UploadRecord) (o : ReconciliationRecord) (x : Stored)
    (Hage : minimumAge >= MinimumOrphanAge) (Hw0 : fresh_world w0) (Hw : reachable w0 w) (Hw' : reachable w w')
    (Hrow : uploads (tables (shared w)) !! u = Some row) (Haccepted : UState row = UploadStateAccepted) (Hattempt : Attempt row <> n)
    (Ho : obligations (tables (shared w)) !! (u, n) = Some o) (Hun : unresolved o) (Hx : objects (shared w) !! version_of (OObject o) = Some x) (Hp : present x = true)
    (Hfree : forall m l, workers w !! m = Some l -> untouched (u, n) (version_of (OObject o)) l) :
  exists o' x', obligations (tables (shared w')) !! (u, n) = Some o' /\ OObject o' = OObject o /\ unresolved o' /\
    objects (shared w') !! version_of (OObject o) = Some x' /\ present x' = true /\
    forall e a, assets (tables (shared w')) !! e = Some a -> object_of a <> version_of (OObject o).
Proof.
  assert (Hst : stranded_world (u, n) (OObject o) w) by (split; [split; [by exists row|by exists o|by exists x]|done]).
  pose proof (uploads_run_ok tenant catalog policy retention default_registry claimTimeout retryDelay minimumAge w0 w Hage Hw0 Hw) as Hok.
  clear Hrow Ho Hx Hfree. assert (Hend : world_ok w' /\ stranded_world (u, n) (OObject o) w').
  { clear Hw. induction Hw' as [w|w w1 w' Hstep _ IH]; [done|]. apply IH.
    - by eapply stranded_world_kept.
    - by eapply uploads_world_kept. }
  destruct Hend as [Hok' [Hst' _]]. destruct (st_obligation _ _ _ Hst') as (o' & Ho' & Hobj & Hun'). destruct (st_object _ _ _ Hst') as (x' & Hx' & Hp').
  exists o', x'. split_and!; try done. intros e a Ha Hk. destruct (ok_assets _ _ _ _ Hok' _ _ Ha) as (y & r & Hy & Hr & Hret). rewrite Hk in Hy.
  destruct (ok_obligations _ _ _ _ Hok' _ _ Ho') as (_ & z & Hz & Hzk & _). rewrite Hobj in Hz. assert (y = z) as -> by congruence. rewrite Hzk in Hr.
  assert (r = o') as -> by congruence. destruct Hun' as [Hq|Hq]; congruence.
Qed.
End Spec.
End UploadRecoverySpec.

(** *** The object of the crashed attempt *)
Module UploadRecoveryWitness.
Import Ident.UlidText AuthorityWitness UploadWitness UploadService.
#[local] Existing Instance authority_libraries.
#[local] Existing Instance idempotency_libraries.
#[local] Existing Instance reference_json.
#[local] Existing Instance content_libraries.
#[local] Existing Instance upload_json.

(** Worker 0 reconciles, in vain; then it starts anew and lists the objects. *)
Definition reconciled : World := run (moves 0 OpReconcile first [] [200; 201; 202; 203]) accepted.
Definition recovered : World :=
  run ([(0%nat, input true OpReconcile 204 first [])] ++ moves 0 (OpDiscover "" 100) first [(key, first); (key, second_)] [3000; 3001; 3002; 3003]) reconciled.
Example reconciled_in_vain : workers reconciled !! 0%nat = Some (Returned (AnswerReconciled (Err ErrReconciliationConflict))).
Proof. vm_compute. reflexivity. Qed.

Lemma reconciled_reached : reached accepted reconciled.
Proof. apply run_reached, moves_timely. Qed.
Lemma recovered_reached : reached accepted recovered.
Proof. etrans; [apply reconciled_reached|]. apply run_reached, Forall_app. split; [apply Forall_singleton, input_timely|apply moves_timely]. Qed.

Definition accepted_row : UploadRecord := Eval vm_compute in match uploads (tables (shared accepted)) !! "upl"%string with Some r => r | None => issued end.
Definition no_obligation : ReconciliationRecord := mk_obligation "" "" "" 0 (ObjectStore.mk_object "" "" 0 "") ReconciliationPending 0 0 (at_ 0) None (at_ 0) (at_ 0) None.
Definition obligation : ReconciliationRecord := Eval vm_compute in match obligations (tables (shared accepted)) !! ("upl"%string, 1) with Some o => o | None => no_obligation end.
Definition object : Stored := Eval vm_compute in match objects (shared accepted) !! (key, first) with Some x => x | None => mk_stored false (at_ 0) "" 0 (at_ 0) end.
Definition idle_or_returned (l : Local) : bool := match l with Idle | Returned _ => true | _ => false end.
Lemma idle_untouched k place l : idle_or_returned l = true -> untouched k place l.
Proof. by destruct l. Qed.
Lemma all_idle (ws : gmap nat Local) : forallb (fun p => idle_or_returned p.2) (map_to_list ws) = true -> forall m l, ws !! m = Some l -> idle_or_returned l = true.
Proof. intros Hall m l Hm. rewrite forallb_forall in Hall. apply (Hall (m, l)), list_elem_of_In, elem_of_map_to_list, Hm. Qed.
Lemma accepted_idle : forallb (fun p => idle_or_returned p.2) (map_to_list (workers accepted)) = true.
Proof. vm_compute. reflexivity. Qed.

Lemma superseded_obligation_stranded_witness : exists o' x', obligations (tables (shared recovered)) !! ("upl"%string, 1) = Some o' /\ unresolved o' /\
  objects (shared recovered) !! version_of (OObject obligation) = Some x' /\ present x' = true.
Proof.
  assert (Hage : MinimumOrphanAge >= MinimumOrphanAge) by lia.
  assert (Hrow : uploads (tables (shared accepted)) !! "upl"%string = Some accepted_row) by (vm_compute; reflexivity).
  assert (Hst : UState accepted_row = UploadStateAccepted) by reflexivity.
  assert (Hatt : Attempt accepted_row <> 1) by discriminate.
  assert (Ho : obligations (tables (shared accepted)) !! ("upl"%string, 1) = Some obligation) by (vm_compute; reflexivity).
  assert (Hun : unresolved obligation) by (left; reflexivity).
  assert (Hx : objects (shared accepted) !! version_of (OObject obligation) = Some object) by (vm_compute; reflexivity).
  assert (Hp : present object = true) by reflexivity.
  assert (Hfree : forall m l, workers accepted !! m = Some l -> untouched ("upl"%string, 1) (version_of (OObject obligation)) l)
    by (intros m l Hm; exact (idle_untouched _ _ _ (all_idle _ accepted_idle m l Hm))).
  destruct (UploadRecoverySpec.superseded_obligation_stranded _ _ _ _ _ _ _ _ UploadWitness.start accepted recovered "upl" 1 accepted_row obligation object
    Hage start_fresh accepted_reached recovered_reached Hrow Hst Hatt Ho Hun Hx Hp Hfree) as (o' & x' & Ho' & _ & Hun' & Hx' & Hp' & _).
  exists o', x'. split; [exact Ho'|]. split; [exact Hun'|]. split; [exact Hx'|exact Hp'].
Defined.
End UploadRecoveryWitness.
