(* ===== verification/Scope.v ===== *)
(** * Scopes and grants

    [internal/access/scope.go]: the grammar of permissions and of scope patterns,
    the registry of what a tenant may assign, the expansion of requested patterns
    into a grant and the restoration of a stored one.

    A permission is its text.  A character outside ASCII is in none of the ranges
    that a segment admits, so segments are checked byte by byte. *)

From S2P Require Import Prelude Content.
From Stdlib Require Import Ascii.

(** ** Permissions *)

Definition Permission : Type := string.
Definition Pattern : Type := string.

Definition PermissionSubjectsRead : Permission := "subjects:read".
Definition PermissionSubjectsWrite : Permission := "subjects:write".
Definition PermissionSubjectsDelete : Permission := "subjects:delete".
Definition PermissionIdentityRead : Permission := "identity:read".
Definition PermissionIdentityWrite : Permission := "identity:write".
Definition PermissionIdentityReveal : Permission := "identity:reveal".
Definition PermissionIdentityConfigure : Permission := "identity:configure".
Definition PermissionFraudRead : Permission := "fraud:read".
Definition PermissionFraudWrite : Permission := "fraud:write".
Definition PermissionFraudConfigure : Permission := "fraud:configure".
Definition PermissionModelsRead : Permission := "models:read".
Definition PermissionModelsWrite : Permission := "models:write".
Definition PermissionModelsActivate : Permission := "models:activate".
Definition PermissionPoliciesRead : Permission := "policies:read".
Definition PermissionPacksRead : Permission := "packs:read".
Definition PermissionExperiencesRead : Permission := "experiences:read".
Definition PermissionExperiencesWrite : Permission := "experiences:write".
Definition PermissionExperiencesPublish : Permission := "experiences:publish".
Definition PermissionPoliciesWrite : Permission := "policies:write".
Definition PermissionPoliciesActivate : Permission := "policies:activate".
Definition PermissionWebhooksRead : Permission := "webhooks:read".
Definition PermissionWebhooksConfigure : Permission := "webhooks:configure".
Definition PermissionWebhooksReplay : Permission := "webhooks:replay".
Definition PermissionTenantRead : Permission := "tenant:read".
Definition PermissionTenantExport : Permission := "tenant:export".
Definition PermissionAuditExport : Permission := "audit:export".
Definition PermissionCaptureProfilesRead : Permission := "capture_profiles:read".
Definition PermissionCaptureProfilesWrite : Permission := "capture_profiles:write".
Definition PermissionVerificationSessionsCreate : Permission := "verification_sessions:create".
Definition PermissionVerificationSessionsResume : Permission := "verification_sessions:resume".
Definition PermissionVerificationSessionsCancel : Permission := "verification_sessions:cancel".
Definition PermissionVerificationSessionsRead : Permission := "verification_sessions:read".
Definition PermissionNoticesRead : Permission := "notices:read".
Definition PermissionNoticesWrite : Permission := "notices:write".
Definition PermissionAuthoritiesRead : Permission := "authorities:read".
Definition PermissionAuthoritiesWrite : Permission := "authorities:write".
Definition PermissionEvidenceRead : Permission := "evidence:read".
Definition PermissionEvidenceGrantsRead : Permission := "evidence_grants:read".
Definition PermissionEvidenceGrantsWrite : Permission := "evidence_grants:write".
Definition PermissionConsentsRead : Permission := "consents:read".
Definition PermissionConsentsWrite : Permission := "consents:write".
Definition PermissionDecisionsRead : Permission := "decisions:read".
Definition PermissionDecisionsExport : Permission := "decisions:export".
Definition PermissionReviewsRead : Permission := "reviews:read".
Definition PermissionReviewsWrite : Permission := "reviews:write".
Definition PermissionReviewsAdmin : Permission := "reviews:admin".
Definition PermissionAppealsWrite : Permission := "appeals:write".
Definition PermissionPrivacyRequestsRead : Permission := "privacy_requests:read".
Definition PermissionPrivacyRequestsWrite : Permission := "privacy_requests:write".
Definition PermissionPrivacyRequestsApprove : Permission := "privacy_requests:approve".
Definition PermissionDeletionsRead : Permission := "deletions:read".
Definition PermissionDeletionsWrite : Permission := "deletions:write".
Definition PermissionLegalHoldsWrite : Permission := "legal_holds:write".
Definition PermissionProposalsRead : Permission := "proposals:read".
Definition PermissionProposalsWrite : Permission := "proposals:write".
Definition PermissionProposalsApprove : Permission := "proposals:approve".
Definition PermissionProposalsConfigure : Permission := "proposals:configure".
Definition PermissionPromptsRead : Permission := "prompts:read".
Definition PermissionPromptsWrite : Permission := "prompts:write".
Definition PermissionProvidersRead : Permission := "providers:read".
Definition PermissionProvidersWrite : Permission := "providers:write".
Definition PermissionKMSRead : Permission := "kms:read".
Definition PermissionKMSWrite : Permission := "kms:write".
Definition PermissionSupportAccessRead : Permission := "support_access:read".
Definition PermissionSupportAccessWrite : Permission := "support_access:write".
Definition PermissionBreakGlassRequest : Permission := "break_glass:request".
Definition PermissionBreakGlassApprove : Permission := "break_glass:approve".
Definition PermissionBreakGlassUse : Permission := "break_glass:use".

Inductive Error :=
| ErrWhitespace | ErrShape | ErrSegmentLength | ErrSegmentCharacter
| ErrRegistryEmpty | ErrNoPatterns | ErrNotCanonical | ErrDuplicate | ErrUnmatched
| ErrSnapshotEmpty | ErrSnapshotPattern | ErrSnapshotPermission | ErrSnapshotUncovered | ErrSnapshotIdle.
#[export] Instance ScopeError_eq_dec : EqDecision Error. Proof. solve_decision. Defined.

Definition maxScopeSegmentLength : Z := 64.

Definition segment_rest (c : ascii) : bool := is_lower c || is_digit c || byte_in "_" "_" c.
Definition validateSegment (value : string) (allowWildcard : bool) : result Error unit :=
  if allowWildcard && String.eqb value "*" then Ok tt
  else
    reject empty_string value || (maxScopeSegmentLength <? slen value)%Z with ErrSegmentLength ;;
    reject negb (match_head_tail is_lower segment_rest value) with ErrSegmentCharacter ;;
    Ok tt.

Definition parseSegments (value : string) (allowWildcard : bool) : result Error (string * string) :=
  reject negb (trimmed (runes value)) with ErrWhitespace ;;
  match split_on ":" value with
  | [resource; action] =>
      let? _ := validateSegment resource allowWildcard in
      let? _ := validateSegment action allowWildcard in
      Ok (resource, action)
  | _ => Err ErrShape
  end.

Definition ParsePermission (value : string) : result Error Permission :=
  let? (resource, action) := parseSegments value false in Ok (resource +:+ ":" +:+ action).
Definition ParsePattern (value : string) : result Error Pattern :=
  let? (resource, action) := parseSegments value true in Ok (resource +:+ ":" +:+ action).

Definition Matches (pattern : Pattern) (permission : Permission) : bool :=
  match parseSegments pattern true, parseSegments permission false with
  | Ok (patternResource, patternAction), Ok (permissionResource, permissionAction) =>
      (String.eqb patternResource "*" || String.eqb patternResource permissionResource) &&
      (String.eqb patternAction "*" || String.eqb patternAction permissionAction)
  | _, _ => false
  end.

(** ** The registry *)

Fixpoint hasAdjacentDuplicate (values : list string) : bool :=
  match values with
  | x :: (y :: _) as rest => String.eqb x y || hasAdjacentDuplicate rest
  | _ => false
  end.

Record Registry := mk_registry { permissions : list Permission }.

Definition canonical (parse : string -> result Error string) (value : string) : result Error unit :=
  let? parsed := parse value in reject negb (String.eqb parsed value) with ErrNotCanonical ;; Ok tt.

Definition NewRegistry (values : list Permission) : result Error Registry :=
  reject (llen values =? 0)%Z with ErrRegistryEmpty ;;
  let? _ := rforeach (canonical ParsePermission) values in
  let values := sort_strings values in
  reject hasAdjacentDuplicate values with ErrDuplicate ;;
  Ok (mk_registry values).

Definition TenantRegistry : Registry := mk_registry
  [PermissionSubjectsRead;
   PermissionSubjectsWrite;
   PermissionSubjectsDelete;
   PermissionIdentityRead;
   PermissionIdentityWrite;
   PermissionIdentityReveal;
   PermissionIdentityConfigure;
   PermissionFraudRead;
   PermissionFraudWrite;
   PermissionFraudConfigure;
   PermissionModelsRead;
   PermissionModelsWrite;
   PermissionModelsActivate;
   PermissionAuthoritiesRead;
   PermissionAuthoritiesWrite;
   PermissionEvidenceRead;
   PermissionEvidenceGrantsRead;
   PermissionEvidenceGrantsWrite;
   PermissionConsentsRead;
   PermissionConsentsWrite;
   PermissionCaptureProfilesRead;
   PermissionCaptureProfilesWrite;
   PermissionDecisionsExport;
   PermissionDecisionsRead;
   PermissionPrivacyRequestsRead;
   PermissionPrivacyRequestsWrite;
   PermissionPrivacyRequestsApprove;
   PermissionDeletionsRead;
   PermissionDeletionsWrite;
   PermissionLegalHoldsWrite;
   PermissionAppealsWrite;
   PermissionNoticesRead;
   PermissionNoticesWrite;
   PermissionPacksRead;
   PermissionExperiencesRead;
   PermissionExperiencesWrite;
   PermissionExperiencesPublish;
   PermissionReviewsRead;
   PermissionReviewsWrite;
   PermissionReviewsAdmin;
   PermissionAuditExport;
   PermissionTenantExport;
   PermissionTenantRead;
   PermissionVerificationSessionsCreate;
   PermissionVerificationSessionsResume;
   PermissionVerificationSessionsCancel;
   PermissionVerificationSessionsRead;
   PermissionPoliciesRead;
   PermissionPoliciesWrite;
   PermissionPoliciesActivate;
   PermissionWebhooksConfigure;
   PermissionWebhooksRead;
   PermissionWebhooksReplay;
   PermissionProposalsRead;
   PermissionProposalsWrite;
   PermissionProposalsApprove;
   PermissionProposalsConfigure;
   PermissionPromptsRead;
   PermissionPromptsWrite;
   PermissionProvidersRead;
   PermissionProvidersWrite;
   PermissionKMSRead;
   PermissionKMSWrite;
   PermissionSupportAccessRead;
   PermissionSupportAccessWrite;
   PermissionBreakGlassRequest;
   PermissionBreakGlassApprove;
   PermissionBreakGlassUse].

(** ** Grants *)

Record Grant := mk_grant { patterns : list Pattern; granted : list Permission }.
#[export] Instance ScopeGrant_eq_dec : EqDecision Grant. Proof. solve_decision. Defined.

(** One pattern of the loop of [Resolve]: what it matches is appended. *)
Definition resolve_pattern (registry : Registry) (resolved : list Permission) (pattern : Pattern) : result Error (list Permission) :=
  let matched := List.filter (Matches pattern) (permissions registry) in
  reject (llen matched =? 0)%Z with ErrUnmatched ;;
  Ok (resolved ++ matched).

Definition Resolve (registry : Registry) (requested : list Pattern) : result Error Grant :=
  reject (llen (permissions registry) =? 0)%Z with ErrRegistryEmpty ;;
  reject (llen requested =? 0)%Z with ErrNoPatterns ;;
  let? _ := rforeach (canonical ParsePattern) requested in
  let requested := sort_strings requested in
  reject hasAdjacentDuplicate requested with ErrDuplicate ;;
  let? resolved := rfold (resolve_pattern registry) requested [] in
  Ok (mk_grant requested (compact (sort_strings resolved))).

(** [err != nil || parsed != value]. *)
Definition is_canonical (parse : string -> result Error string) (value : string) : bool :=
  match parse value with Ok parsed => String.eqb parsed value | Err _ => false end.

Definition stored_permission (validated : list Pattern) (permission : Permission) : result Error unit :=
  reject negb (is_canonical ParsePermission permission) with ErrSnapshotPermission ;;
  reject negb (existsb (fun pattern => Matches pattern permission) validated) with ErrSnapshotUncovered ;;
  Ok tt.

Definition RestoreGrant (stored : list Pattern) (stored_permissions : list Permission) : result Error Grant :=
  reject (llen stored =? 0)%Z || (llen stored_permissions =? 0)%Z with ErrSnapshotEmpty ;;
  reject negb (forallb (is_canonical ParsePattern) stored) with ErrSnapshotPattern ;;
  let validated := sort_strings stored in
  reject hasAdjacentDuplicate validated with ErrDuplicate ;;
  let? _ := rforeach (stored_permission validated) stored_permissions in
  let validatedPermissions := sort_strings stored_permissions in
  reject hasAdjacentDuplicate validatedPermissions with ErrDuplicate ;;
  reject negb (forallb (fun pattern => existsb (Matches pattern) validatedPermissions) validated) with ErrSnapshotIdle ;;
  Ok (mk_grant validated validatedPermissions).

(** [slices.BinarySearch]: the first index from which the target is not larger.
    The interval shrinks, so the length is enough fuel. *)
Fixpoint search_from (fuel : nat) (values : list string) (target : string) (i j : nat) : nat :=
  match fuel with
  | O => i
  | S fuel' =>
      if (i <? j)%nat then
        let h := ((i + j) / 2)%nat in
        if String.leb target (nth h values "") then search_from fuel' values target i h else search_from fuel' values target (S h) j
      else i
  end.
Definition binary_search (values : list string) (target : string) : bool :=
  match values !! search_from (length values) values target 0 (length values) with
  | Some found => String.eqb found target
  | None => false
  end.

Definition Allows (grant : Grant) (permission : Permission) : bool :=
  is_ok (ParsePermission permission) && binary_search (granted grant) permission.

(** ** What a scope says *)
Module ScopeSpec.

(** A segment, without reference to the parser. *)
Definition segment (value : string) : Prop :=
  (0 < slen value <= maxScopeSegmentLength)%Z /\ match_head_tail is_lower segment_rest value = true.
Definition pattern_segment (value : string) : Prop := value = "*"%string \/ segment value.

(** A pattern covers a permission segment by segment. *)
Definition covers (pattern permission : string) : Prop := exists pr pa r a,
  pattern = pr +:+ ":" +:+ pa /\ permission = r +:+ ":" +:+ a /\ pattern_segment pr /\ pattern_segment pa /\ segment r /\ segment a /\
  (pr = "*"%string \/ pr = r) /\ (pa = "*"%string \/ pa = a).
Definition well_formed (pattern : string) : Prop := exists pr pa, pattern = pr +:+ ":" +:+ pa /\ pattern_segment pr /\ pattern_segment pa.

(** *** Segments *)

Lemma validateSegment_Ok (value : string) (wild : bool) :
  validateSegment value wild = Ok tt <-> (wild = true /\ value = "*"%string) \/ segment value.
Proof.
  unfold validateSegment, segment. destruct (wild && String.eqb value "*") eqn:Hw.
  - split; [|done]. intros _. apply andb_true_iff in Hw as [-> Hv]. left. split; [done|by apply String.eqb_eq].
  - split.
    + intros Hv. go_inv Hv. bprop. right. split; [|done].
      match goal with Hm : match_head_tail _ _ _ = true |- _ => destruct value; [done|] end. unfold slen in *. cbn [String.length] in *. lia.
    + intros [[-> ->]|[Hl Hm]]; [done|]. rewrite Hm. destruct value; [done|]. cbn [empty_string]. unfold empty_string. cbn.
      rewrite (proj2 (Z.ltb_ge _ _)) by lia. done.
Qed.

Definition ascii_byte (c : ascii) : bool := (N_of_ascii c <? 128)%N.

Lemma decode_runes_ascii (bytes : list Z) : forall fuel, (length bytes <= fuel)%nat -> Forall (fun b => (b < 128)%Z) bytes -> decode_runes fuel bytes = bytes.
Proof.
  induction bytes as [|b bytes IH]; intros [|fuel] Hf Hb; cbn in Hf |- *; try done; [lia|].
  inversion Hb as [|? ? Hlt Hbs]; subst. unfold decode_rune. rewrite (proj2 (Z.ltb_lt _ _)) by done. cbn [drop].
  rewrite IH; [done|lia|done].
Qed.

(** A text of ASCII bytes is its own runes. *)
Lemma runes_ascii (s : string) : string_forall ascii_byte s = true -> runes s = map Content.byte_of_ascii (String.list_ascii_of_string s).
Proof.
  intros Hs. unfold runes. apply decode_runes_ascii.
  - rewrite length_map. induction s as [|c s IH]; cbn in *; [done|]. apply andb_true_iff in Hs as [_ Hs]. specialize (IH Hs). lia.
  - induction s as [|c s IH]; cbn in *; [constructor|]. apply andb_true_iff in Hs as [Hc Hs]. constructor; [|by apply IH].
    unfold Content.byte_of_ascii, ascii_byte in *. apply N.ltb_lt in Hc. lia.
Qed.

(** The bytes of segments, patterns and separators. *)
Definition scope_byte (c : ascii) : bool := segment_rest c || byte_in "*" "*" c || byte_in ":" ":" c.

Lemma scope_byte_graphic (c : ascii) : scope_byte c = true -> ascii_byte c = true /\ is_space (Content.byte_of_ascii c) = false.
Proof. destruct c as [[] [] [] [] [] [] [] []]; vm_compute; auto. Qed.
Lemma segment_byte_scope (c : ascii) : segment_rest c = true -> scope_byte c = true.
Proof. unfold scope_byte. by intros ->. Qed.
Lemma segment_head (c : ascii) : is_lower c = true -> segment_rest c = true.
Proof. unfold segment_rest. by intros ->. Qed.

Lemma segment_bytes (value : string) : segment value -> string_forall segment_rest value = true.
Proof.
  intros [_ Hm]. destruct value as [|c value]; [done|]. cbn in *. apply andb_true_iff in Hm as [Hc ->]. by rewrite segment_head.
Qed.
Lemma pattern_bytes (value : string) : pattern_segment value -> string_forall (fun c => segment_rest c || byte_in "*" "*" c) value = true.
Proof.
  intros [->|Hs]; [done|]. apply segment_bytes in Hs. revert Hs. apply string_forall_impl. by intros c ->.
Qed.

Lemma trimmed_scope (s : string) : string_forall scope_byte s = true -> trimmed (runes s) = true.
Proof.
  intros Hs. rewrite runes_ascii.
  2:{ revert Hs. apply string_forall_impl. intros c Hc. by apply scope_byte_graphic. }
  assert (Hall : Forall (fun r => is_space r = false) (map Content.byte_of_ascii (String.list_ascii_of_string s))).
  { induction s as [|c s IH]; cbn in *; [constructor|]. apply andb_true_iff in Hs as [Hc Hs]. constructor; [by apply scope_byte_graphic|by apply IH]. }
  unfold trimmed. rewrite Forall_forall in Hall.
  destruct (head _) as [h|] eqn:Hh; [rewrite Hall by (by apply head_Some_elem_of)|];
    (destruct (last _) as [l|] eqn:Hl; [rewrite Hall by (by apply last_Some_elem_of)|]); done.
Qed.

Definition no_colon (c : ascii) : bool := negb (Ascii.eqb c ":").
Lemma segment_no_colon (c : ascii) : segment_rest c || byte_in "*" "*" c = true -> no_colon c = true.
Proof. destruct c as [[] [] [] [] [] [] [] []]; vm_compute; auto. Qed.

Lemma parseSegments_Ok (value resource action : string) (wild : bool) :
  parseSegments value wild = Ok (resource, action) <->
  value = resource +:+ ":" +:+ action /\ validateSegment resource wild = Ok tt /\ validateSegment action wild = Ok tt.
Proof.
  assert (Hp : forall v, validateSegment v wild = Ok tt -> pattern_segment v) by (intros v [[_ ->]|Hv]%validateSegment_Ok; [by left|by right]).
  unfold parseSegments. split.
  - intros Hv. go_inv Hv. destruct (split_on ":" value) as [|r [|a [|]]] eqn:Hs; try done.
    repeat match goal with u : unit |- _ => destruct u end. go_inv Hv. repeat match goal with u : unit |- _ => destruct u end.
    split; [|done]. pose proof (join_split_from ":" value "") as Hj. unfold split_on in Hs. rewrite Hs in Hj. exact (eq_sym Hj).
  - intros (-> & Hr & Ha). pose proof (pattern_bytes _ (Hp _ Hr)) as Hbr. pose proof (pattern_bytes _ (Hp _ Ha)) as Hba.
    assert (Hscope : forall v, string_forall (fun c => segment_rest c || byte_in "*" "*" c) v = true -> string_forall scope_byte v = true).
    { intros v. apply string_forall_impl. unfold scope_byte. by intros c ->. }
    assert (Hno : forall v, string_forall (fun c => segment_rest c || byte_in "*" "*" c) v = true -> string_forall no_colon v = true).
    { intros v. apply string_forall_impl. apply segment_no_colon. }
    rewrite trimmed_scope by (rewrite !string_forall_app, (Hscope resource), (Hscope action) by done; done). cbn [negb].
    unfold split_on. change (resource +:+ ":" +:+ action) with (resource +:+ String ":" action).
    rewrite split_from_apart, split_from_whole by (apply Hno; done). change (EmptyString +:+ resource) with resource. change (EmptyString +:+ action) with action.
    by rewrite Hr, Ha.
Qed.

Lemma ParsePermission_Ok (value p : string) :
  ParsePermission value = Ok p <-> p = value /\ exists r a, value = r +:+ ":" +:+ a /\ segment r /\ segment a.
Proof.
  unfold ParsePermission. rewrite rbind_Ok. split.
  - intros ([r a] & (Hv & Hr & Ha)%parseSegments_Ok & [= <-]). split; [done|]. exists r, a.
    apply validateSegment_Ok in Hr as [[? _]|?]; [done|]. by apply validateSegment_Ok in Ha as [[? _]|?].
  - intros (-> & r & a & -> & Hr & Ha). exists (r, a). split; [|done]. apply parseSegments_Ok. split; [done|].
    split; apply validateSegment_Ok; by right.
Qed.

Lemma pattern_segment_Ok (value : string) : validateSegment value true = Ok tt <-> pattern_segment value.
Proof. rewrite validateSegment_Ok. unfold pattern_segment. naive_solver. Qed.

Lemma ParsePattern_Ok (value p : string) : ParsePattern value = Ok p <-> p = value /\ well_formed value.
Proof.
  unfold ParsePattern, well_formed. rewrite rbind_Ok. split.
  - intros ([r a] & (Hv & Hr%pattern_segment_Ok & Ha%pattern_segment_Ok)%parseSegments_Ok & [= <-]). split; [done|]. by exists r, a.
  - intros (-> & r & a & -> & Hr & Ha). exists (r, a). split; [|done]. apply parseSegments_Ok. by rewrite !pattern_segment_Ok.
Qed.

(** [Matches] decides [covers]. *)
Lemma Matches_covers (pattern permission : string) : Matches pattern permission = true <-> covers pattern permission.
Proof.
  unfold Matches, covers. split.
  - destruct (parseSegments pattern true) as [[pr pa]|] eqn:Hp; [|done]. destruct (parseSegments permission false) as [[r a]|] eqn:Hq; [|done].
    apply parseSegments_Ok in Hp as (-> & Hpr%pattern_segment_Ok & Hpa%pattern_segment_Ok). apply parseSegments_Ok in Hq as (-> & Hr & Ha).
    apply validateSegment_Ok in Hr as [[? _]|Hr]; [done|]. apply validateSegment_Ok in Ha as [[? _]|Ha]; [done|].
    intros [H1 H2]%andb_true_iff. apply orb_true_iff in H1, H2. rewrite !String.eqb_eq in H1, H2. by exists pr, pa, r, a.
  - intros (pr & pa & r & a & -> & -> & Hpr & Hpa & Hr & Ha & H1 & H2).
    rewrite (proj2 (parseSegments_Ok _ pr pa true)) by (split; [done|]; by rewrite !pattern_segment_Ok).
    rewrite (proj2 (parseSegments_Ok _ r a false)) by (split; [done|]; split; apply validateSegment_Ok; by right).
    apply andb_true_iff. rewrite !orb_true_iff, !String.eqb_eq. done.
Qed.

Lemma covers_permission (pattern permission : string) : covers pattern permission -> ParsePermission permission = Ok permission.
Proof. intros (pr & pa & r & a & _ & -> & _ & _ & Hr & Ha & _). apply ParsePermission_Ok. split; [done|]. by exists r, a. Qed.

(** *** Sorted slices *)

Lemma adjacent_NoDup (l : list string) : StronglySorted String.le l -> hasAdjacentDuplicate l = false <-> NoDup l.
Proof.
  induction 1 as [|x l Hs IH Hx]; [split; [constructor|done]|]. rewrite NoDup_cons. destruct l as [|y l].
  - cbn. split; [|done]. intros _. split; [apply not_elem_of_nil|constructor].
  - change (hasAdjacentDuplicate (x :: y :: l)) with (String.eqb x y || hasAdjacentDuplicate (y :: l)). rewrite orb_false_iff, IH, String.eqb_neq.
    split; intros [Hn Hl]; (split; [|done]).
    + intros [->|Hin]%elem_of_cons; [done|]. apply Hn. inversion Hs as [|? ? _ Hy]; subst. rewrite Forall_forall in Hy.
      inversion Hx as [|? ? Hxy _]; subst. apply (anti_symm String.le); [done|by apply Hy].
    + intros ->. apply Hn. left.
Qed.

Lemma sort_adjacent (l : list string) : hasAdjacentDuplicate (sort_strings l) = false <-> NoDup l.
Proof. rewrite adjacent_NoDup by apply sort_strings_sorted. apply sort_strings_NoDup. Qed.

Lemma sorted_upto (values : list string) (k h : nat) (a b : string) : StronglySorted String.le values ->
  (k <= h)%nat -> values !! k = Some a -> values !! h = Some b -> String.le a b.
Proof.
  intros Hs Hkh Ha Hb. destruct (decide (k = h)) as [->|Hne]; [rewrite Ha in Hb; by injection Hb as ->|].
  apply (sorted_lookup String.le values Hs k h); [lia|done|done].
Qed.

(** Everything left of the answer is smaller than the target, and nothing from it on. *)
Lemma search_from_spec (values : list string) (target : string) : StronglySorted String.le values -> forall fuel i j,
  (j - i <= fuel)%nat -> (i <= j <= length values)%nat ->
  (forall k v, (k < i)%nat -> values !! k = Some v -> ~ String.le target v) ->
  (forall k v, (j <= k)%nat -> values !! k = Some v -> String.le target v) ->
  let m := search_from fuel values target i j in
  (forall k v, (k < m)%nat -> values !! k = Some v -> ~ String.le target v) /\
  (forall k v, (m <= k)%nat -> values !! k = Some v -> String.le target v).
Proof.
  intros Hs.
  induction fuel as [|fuel IH]; intros i j Hf Hij Hl Hr; cbn [search_from].
  - replace j with i in Hr by lia. done.
  - destruct (Nat.ltb_spec i j) as [Hlt|Hge].
    2:{ replace j with i in Hr by lia. done. }
    assert (Hh : (i <= (i + j) / 2 < j)%nat).
    { split; [apply Nat.div_le_lower_bound; lia|apply Nat.Div0.div_lt_upper_bound; lia]. }
    set (h := ((i + j) / 2)%nat) in *.
    destruct (lookup_lt_is_Some_2 values h) as [v Hv]; [lia|]. rewrite (nth_lookup_Some _ _ _ _ Hv).
    destruct (String.leb target v) eqn:Hle.
    + apply leb_le in Hle. apply IH; [lia|lia|done|]. intros k w Hk Hw. trans v; [done|]. by apply (sorted_upto values h k).
    + assert (Hnle : ~ String.le target v) by (rewrite <- leb_le; congruence). apply IH; [lia|lia| |done].
      intros k w Hk Hw Hc. apply Hnle. trans w; [done|]. apply (sorted_upto values k h); [done|lia|done|done].
Qed.

Lemma binary_search_elem (values : list string) (target : string) :
  StronglySorted String.le values -> binary_search values target = true <-> target ∈ values.
Proof.
  intros Hs. unfold binary_search. pose proof (search_from_spec values target Hs (length values) 0 (length values)) as Hm. cbv zeta in Hm.
  set (m := search_from _ _ _ _ _) in *. destruct Hm as [Hl Hr]; [lia|lia|lia| |].
  { intros k v Hk Hv. apply lookup_lt_Some in Hv. lia. }
  split.
  - destruct (values !! m) as [v|] eqn:Hv; [|done]. intros ->%String.eqb_eq. by apply list_elem_of_lookup_2 in Hv.
  - intros [k Hk]%list_elem_of_lookup. assert (Hmk : (m <= k)%nat).
    { destruct (decide (m <= k)%nat); [done|]. exfalso. apply (Hl k target); [lia|done|done]. }
    destruct (lookup_lt_is_Some_2 values m) as [v Hv]; [apply lookup_lt_Some in Hk; lia|]. rewrite Hv. apply String.eqb_eq.
    apply (anti_symm String.le); [|by apply (Hr m)].
    by apply (sorted_upto values m k).
Qed.

Lemma sort_sorted (l : list string) : StronglySorted String.le l -> sort_strings l = l.
Proof. intros Hs. apply (StronglySorted_unique String.le); [apply sort_strings_sorted|done|apply sort_strings_perm]. Qed.

Lemma compact_sorted (l : list string) : forall prev, StronglySorted String.le l -> StronglySorted String.le (compact_from prev l).
Proof.
  induction l as [|x l IH]; intros prev Hs; cbn [compact_from]; [constructor|]. inversion Hs as [|? ? Hl Hx]; subst.
  assert (Hcons : StronglySorted String.le (x :: compact_from (Some x) l)).
  { constructor; [by apply IH|]. rewrite Forall_forall in *. intros y Hy. apply Hx. by apply elem_of_compact_from in Hy. }
  destruct (bool_decide (prev = Some x)); [by apply IH|done].
Qed.

(** *** Resolution *)

Definition matched (registry : Registry) (pattern : Pattern) : list Permission := List.filter (Matches pattern) (permissions registry).

Lemma elem_of_matched registry pattern p : p ∈ matched registry pattern <-> p ∈ permissions registry /\ covers pattern p.
Proof. unfold matched. rewrite list_elem_of_In, List.filter_In, <- list_elem_of_In, Matches_covers. done. Qed.

Definition matches_some (registry : Registry) (pattern : Pattern) : Prop := exists p, p ∈ permissions registry /\ covers pattern p.

Lemma resolve_pattern_Ok registry resolved pattern out :
  resolve_pattern registry resolved pattern = Ok out <-> out = resolved ++ matched registry pattern /\ matches_some registry pattern.
Proof.
  unfold resolve_pattern. fold (matched registry pattern). rewrite reject_Ok, Z.eqb_neq. split.
  - intros [Hne [= <-]]. split; [done|]. destruct (matched registry pattern) as [|p l] eqn:Hm; [done|].
    exists p. apply elem_of_matched. rewrite Hm. left.
  - intros [-> (p & Hp)]. split; [|done]. apply elem_of_matched in Hp. destruct (matched registry pattern); [by apply not_elem_of_nil in Hp|]. unfold llen. cbn. lia.
Qed.

Lemma resolve_patterns_Ok registry requested : forall resolved out,
  rfold (resolve_pattern registry) requested resolved = Ok out <->
  out = resolved ++ concat (map (matched registry) requested) /\ Forall (matches_some registry) requested.
Proof.
  induction requested as [|pattern requested IH]; intros resolved out; cbn [rfold map concat].
  - rewrite app_nil_r. split; [by intros [= <-]|by intros [-> _]].
  - rewrite rbind_Ok, Forall_cons. split.
    + intros (t & [-> Hp]%resolve_pattern_Ok & [-> Hf]%IH). by rewrite app_assoc.
    + intros (-> & Hp & Hf). exists (resolved ++ matched registry pattern). split; [by apply resolve_pattern_Ok|]. apply IH. by rewrite app_assoc.
Qed.

Lemma canonical_Ok parse value : canonical parse value = Ok tt <-> parse value = Ok value.
Proof.
  unfold canonical. rewrite rbind_Ok. split.
  - intros (p & Hp & Hc). apply reject_Ok in Hc as [Hc _]. apply negb_false_iff, String.eqb_eq in Hc. by subst.
  - intros Hp. exists value. by rewrite String.eqb_refl.
Qed.
Lemma is_canonical_true parse value : is_canonical parse value = true <-> parse value = Ok value.
Proof. unfold is_canonical. destruct (parse value) as [p|]; [|done]. rewrite String.eqb_eq. split; [by intros ->|by intros [= ->]]. Qed.

Lemma canonical_patterns (l : list Pattern) : rforeach (canonical ParsePattern) l = Ok () <-> Forall well_formed l.
Proof.
  rewrite rforeach_Ok. apply Forall_iff. intros p. rewrite canonical_Ok, ParsePattern_Ok. split; [by intros [_ ?]|done].
Qed.
Lemma canonical_pattern_list (l : list Pattern) : forallb (is_canonical ParsePattern) l = true <-> Forall well_formed l.
Proof.
  rewrite forallb_forall, Forall_forall. setoid_rewrite list_elem_of_In. split; intros Hl p Hp; specialize (Hl p Hp).
  - apply is_canonical_true, ParsePattern_Ok in Hl as [_ Hl]. done.
  - apply is_canonical_true, ParsePattern_Ok. done.
Qed.

(** What [Resolve] asks of its patterns. *)
Definition resolvable (registry : Registry) (requested : list Pattern) : Prop :=
  requested <> [] /\ NoDup requested /\ Forall well_formed requested /\ Forall (matches_some registry) requested.

Lemma llen_zero {A : Type} (l : list A) : (llen l =? 0)%Z = false <-> l <> [].
Proof. rewrite Z.eqb_neq. destruct l; unfold llen; cbn; [done|]. split; [done|lia]. Qed.

Lemma Resolve_grant registry requested grant : Resolve registry requested = Ok grant <->
  resolvable registry requested /\
  grant = mk_grant (sort_strings requested) (compact (sort_strings (concat (map (matched registry) (sort_strings requested))))).
Proof.
  unfold Resolve, resolvable. rewrite !reject_Ok, !llen_zero, rbind_Ok. split.
  - intros (_ & Hne & [] & Hc%canonical_patterns & Hd). apply reject_Ok in Hd as [Hd Hr]. apply rbind_Ok in Hr as (out & [-> Hf]%resolve_patterns_Ok & [= <-]).
    split; [|done]. split_and!; [done|by apply sort_adjacent|done|]. by rewrite sort_strings_perm in Hf.
  - intros ((Hne & Hd & Hc & Hf) & ->). split_and!; [|done|].
    { destruct requested as [|p l]; [done|]. inversion Hf as [|? ? (q & Hq & _) _]; subst. intros Hn. rewrite Hn in Hq. by apply not_elem_of_nil in Hq. }
    exists (). split; [by apply canonical_patterns|]. apply reject_Ok. split; [by apply sort_adjacent|]. apply rbind_Ok.
    exists (concat (map (matched registry) (sort_strings requested))). split; [|done]. apply resolve_patterns_Ok. split; [done|]. by rewrite sort_strings_perm.
Qed.

(** What [RestoreGrant] asks of its rows. *)
Definition restorable (stored : list Pattern) (ps : list Permission) : Prop :=
  stored <> [] /\ ps <> [] /\ NoDup stored /\ NoDup ps /\ Forall well_formed stored /\
  Forall (fun p => exists pattern, pattern ∈ stored /\ covers pattern p) ps /\
  Forall (fun pattern => exists p, p ∈ ps /\ covers pattern p) stored.

Lemma existsb_covers_pattern (l : list Pattern) p : existsb (fun pattern => Matches pattern p) l = true <-> exists pattern, pattern ∈ l /\ covers pattern p.
Proof. rewrite existsb_exists. setoid_rewrite list_elem_of_In. by setoid_rewrite Matches_covers. Qed.
Lemma existsb_covers (l : list Permission) pattern : existsb (Matches pattern) l = true <-> exists p, p ∈ l /\ covers pattern p.
Proof. rewrite existsb_exists. setoid_rewrite list_elem_of_In. by setoid_rewrite Matches_covers. Qed.

Lemma stored_permission_Ok validated p :
  stored_permission validated p = Ok tt <-> exists pattern, pattern ∈ validated /\ covers pattern p.
Proof.
  unfold stored_permission. rewrite !reject_Ok, !negb_false_iff, is_canonical_true, existsb_covers_pattern. split; [by intros (_ & ? & _)|].
  intros Hc. split; [|done]. destruct Hc as (pattern & _ & Hc). by eapply covers_permission.
Qed.

Lemma RestoreGrant_Ok stored ps grant :
  RestoreGrant stored ps = Ok grant <-> restorable stored ps /\ grant = mk_grant (sort_strings stored) (sort_strings ps).
Proof.
  unfold RestoreGrant, restorable. rewrite !reject_Ok, !orb_false_iff, !negb_false_iff, !llen_zero, canonical_pattern_list, sort_adjacent, rbind_Ok.
  assert (Hs : forall u, rforeach (stored_permission (sort_strings stored)) ps = Ok u <-> Forall (fun p => exists pattern, pattern ∈ stored /\ covers pattern p) ps).
  { intros []. rewrite rforeach_Ok. apply Forall_iff. intros p. rewrite stored_permission_Ok. by setoid_rewrite elem_of_sort_strings. }
  assert (Hi : forallb (fun pattern => existsb (Matches pattern) (sort_strings ps)) (sort_strings stored) = true <->
               Forall (fun pattern => exists p, p ∈ ps /\ covers pattern p) stored).
  { rewrite <- (sort_strings_perm stored) at 2. rewrite forallb_forall, Forall_forall. setoid_rewrite <- list_elem_of_In. setoid_rewrite existsb_covers.
    by setoid_rewrite elem_of_sort_strings. }
  setoid_rewrite Hs. split.
  - intros ((H1 & H2) & H3 & H4 & _ & H5 & Hr). rewrite !reject_Ok, negb_false_iff, sort_adjacent, Hi in Hr. destruct Hr as (H6 & H7 & [= <-]). done.
  - intros ((H1 & H2 & H3 & H4 & H5 & H6 & H7) & ->). split_and!; try done. exists (). rewrite !reject_Ok, negb_false_iff, sort_adjacent, Hi. done.
Qed.

Lemma restorable_perm stored ps stored' ps' : stored' ≡ₚ stored -> ps' ≡ₚ ps -> restorable stored ps -> restorable stored' ps'.
Proof.
  unfold restorable. intros Hs Hp (H1 & H2 & H3 & H4 & H5 & H6 & H7). split_and!.
  - intros ->. by apply Permutation_nil in Hs.
  - intros ->. by apply Permutation_nil in Hp.
  - by rewrite Hs.
  - by rewrite Hp.
  - by rewrite Hs.
  - rewrite Hp. eapply Forall_impl; [exact H6|]. cbv beta. intros p (pattern & Hin & Hc). exists pattern. by rewrite Hs.
  - rewrite Hs. eapply Forall_impl; [exact H7|]. cbv beta. intros pattern (p & Hin & Hc). exists p. by rewrite Hp.
Qed.

(** A grant as it is stored and restored. *)
Definition stored_grant (grant : Grant) : Prop := RestoreGrant (patterns grant) (granted grant) = Ok grant.

Lemma restored_grant_stored stored ps grant : RestoreGrant stored ps = Ok grant -> stored_grant grant.
Proof.
  intros [Hr ->]%RestoreGrant_Ok. unfold stored_grant. cbn [patterns granted]. apply RestoreGrant_Ok.
  rewrite !sort_strings_idem. split; [|done]. revert Hr. apply restorable_perm; apply sort_strings_perm.
Qed.

Lemma Allows_granted grant p : stored_grant grant -> Allows grant p = true <-> p ∈ granted grant.
Proof.
  intros [(_ & _ & _ & _ & _ & Hc & _) Heq]%RestoreGrant_Ok. unfold Allows.
  assert (Hs : StronglySorted String.le (granted grant)) by (rewrite Heq; apply sort_strings_sorted).
  rewrite andb_true_iff, binary_search_elem by done. split; [by intros [_ ?]|]. intros Hp. split; [|done].
  rewrite Forall_forall in Hc. destruct (Hc p Hp) as (pattern & _ & Hcov). by rewrite (covers_permission _ _ Hcov).
Qed.

Lemma elem_of_resolved registry requested p :
  p ∈ concat (map (matched registry) (sort_strings requested)) <-> p ∈ permissions registry /\ exists pattern, pattern ∈ requested /\ covers pattern p.
Proof.
  rewrite list_elem_of_In, in_concat. setoid_rewrite in_map_iff. setoid_rewrite <- list_elem_of_In. split.
  - intros (x & (pattern & <- & Hp) & Hin). apply elem_of_matched in Hin as [? ?]. rewrite elem_of_sort_strings in Hp. eauto.
  - intros (Hr & pattern & Hp & Hc). exists (matched registry pattern). split; [|by apply elem_of_matched]. exists pattern. by rewrite elem_of_sort_strings.
Qed.

Lemma Resolve_stored registry requested grant : Resolve registry requested = Ok grant -> stored_grant grant.
Proof.
  intros [(Hne & Hd & Hw & Hm) ->]%Resolve_grant. set (l := concat (map (matched registry) (sort_strings requested))).
  assert (Hl : forall p, p ∈ l <-> p ∈ permissions registry /\ exists pattern, pattern ∈ requested /\ covers pattern p) by apply elem_of_resolved.
  assert (Hc : forall p, p ∈ compact (sort_strings l) <-> p ∈ l) by (intros p; by rewrite elem_of_compact, elem_of_sort_strings).
  apply (restored_grant_stored requested (compact (sort_strings l))). apply RestoreGrant_Ok. split.
  - unfold restorable. split_and!; [done| |done|apply compact_NoDup|done| |].
    + destruct requested as [|pattern rest]; [done|]. inversion Hm as [|? ? (p & Hp & Hcov) _]; subst. intros Hn.
      assert (Hin : p ∈ compact (sort_strings l)) by (apply Hc, Hl; split; [done|]; exists pattern; split; [left|done]).
      rewrite Hn in Hin. by apply not_elem_of_nil in Hin.
    + apply Forall_forall. intros p Hp%Hc%Hl. by destruct Hp as [_ ?].
    + rewrite Forall_forall in *. intros pattern Hp. destruct (Hm pattern Hp) as (p & Hr & Hcov). exists p. split; [|done]. apply Hc, Hl. eauto.
  - f_equal. symmetry. apply sort_sorted. apply compact_sorted, sort_strings_sorted.
Qed.

(** The registry of the tenants is one that [NewRegistry] accepts. *)
Example tenant_registry_accepted : is_ok (NewRegistry (permissions TenantRegistry)) = true.
Proof. vm_compute. reflexivity. Qed.

Example wildcard_resolves :
  map (fun requested => option_map granted (ok_option (Resolve TenantRegistry requested)))
    [["reviews:*"; "reviews:read"; "legal_holds:write"]; ["platform:*"]; ["rev*:read"]]%string =
  [Some ["legal_holds:write"; "reviews:admin"; "reviews:read"; "reviews:write"]; None; None]%string.
Proof. vm_compute. reflexivity. Qed.

End ScopeSpec.
