(* ===== verification/Base64.v ===== *)
(** * Unpadded URL-safe base 64

    [base64.RawURLEncoding] of the Go standard library, in which API keys, capture
    tokens and outcome tokens write their bytes.  As there, the decoder skips line
    breaks and ignores the low bits of the last character that belong to no byte. *)

From S2P Require Import Prelude.
From Stdlib Require Import Ascii.

Definition alphabet : string := "ABCDEFGHIJKLMNOPQRSTUVWXYZabcdefghijklmnopqrstuvwxyz0123456789-_".
Definition sextet_char (v : N) : ascii := match String.get (N.to_nat v) alphabet with Some c => c | None => "A"%char end.
Definition sextet_value (c : ascii) : option N :=
  let n := N_of_ascii c in
  if is_upper c then Some (n - 65)%N
  else if is_lower c then Some (n - 71)%N
  else if is_digit c then Some (n + 4)%N
  else if Ascii.eqb c "-" then Some 62%N
  else if Ascii.eqb c "_" then Some 63%N
  else None.

(** The groups of six bits; the last one is filled with zeros. *)
Fixpoint sextets (s : string) : list N :=
  match s with
  | EmptyString => []
  | String a EmptyString => [N.div (N_of_ascii a) 4; N.modulo (N_of_ascii a) 4 * 16]%N
  | String a (String b EmptyString) =>
      [N.div (N_of_ascii a) 4; N.modulo (N_of_ascii a) 4 * 16 + N.div (N_of_ascii b) 16; N.modulo (N_of_ascii b) 16 * 4]%N
  | String a (String b (String c rest)) =>
      (N.div (N_of_ascii a) 4 :: N.modulo (N_of_ascii a) 4 * 16 + N.div (N_of_ascii b) 16 ::
       N.modulo (N_of_ascii b) 16 * 4 + N.div (N_of_ascii c) 64 :: N.modulo (N_of_ascii c) 64 :: sextets rest)%N
  end.
Definition EncodeToString (s : string) : string := String.string_of_list_ascii (map sextet_char (sextets s)).

Definition is_line_break (c : ascii) : bool := byte_in "010" "010" c || byte_in "013" "013" c.
Fixpoint sextet_values (s : string) : option (list N) :=
  match s with
  | EmptyString => Some []
  | String c rest =>
      if is_line_break c then sextet_values rest
      else v ← sextet_value c; vs ← sextet_values rest; Some (v :: vs)
  end.

Definition byte (n : N) : ascii := ascii_of_N n.
Fixpoint bytes_of (vs : list N) : option string :=
  match vs with
  | [] => Some ""%string
  | [_] => None
  | [a; b] => Some (String (byte (a * 4 + N.div b 16)) "")
  | [a; b; c] => Some (String (byte (a * 4 + N.div b 16)) (String (byte (N.modulo b 16 * 16 + N.div c 4)) ""))
  | a :: b :: c :: d :: rest =>
      tail ← bytes_of rest;
      Some (String (byte (a * 4 + N.div b 16)) (String (byte (N.modulo b 16 * 16 + N.div c 4)) (String (byte (N.modulo c 4 * 64 + d)) tail)))
  end.
Definition DecodeString (s : string) : option string := vs ← sextet_values s; bytes_of vs.

(** ** The round trip *)

Lemma sextet_char_value (v : N) : (v < 64)%N -> sextet_value (sextet_char v) = Some v /\ is_line_break (sextet_char v) = false.
Proof.
  intros Hv. rewrite <- (N2Nat.id v). assert (Hn : (N.to_nat v < 64)%nat) by lia. revert Hn. generalize (N.to_nat v). clear.
  assert (Hall : forallb (fun n => bool_decide (sextet_value (sextet_char (N.of_nat n)) = Some (N.of_nat n)) && negb (is_line_break (sextet_char (N.of_nat n))))
                   (seq 0 64) = true) by (vm_compute; reflexivity).
  intros n Hn. rewrite forallb_forall in Hall. specialize (Hall n). rewrite in_seq in Hall. specialize (Hall ltac:(lia)).
  apply andb_true_iff in Hall as [H1 H2]. split; [by apply bool_decide_eq_true in H1|by apply negb_true_iff in H2].
Qed.

Lemma ascii_bound (c : ascii) : (N_of_ascii c < 256)%N.
Proof. destruct c as [[] [] [] [] [] [] [] []]; done. Qed.

(** Induction by groups of three bytes. *)
Lemma three_bytes_ind (P : string -> Prop) :
  P ""%string -> (forall a, P (String a "")) -> (forall a b, P (String a (String b ""))) ->
  (forall a b c s, P s -> P (String a (String b (String c s)))) -> forall s, P s.
Proof.
  intros H0 H1 H2 H3 s. assert (Hn : (String.length s <= String.length s)%nat) by done. revert Hn. generalize (String.length s) at 2. intros n. revert s.
  induction n as [|n IH]; intros s Hs; [destruct s; [exact H0|cbn in Hs; lia]|].
  destruct s as [|a [|b [|c s]]]; auto. apply H3, IH. cbn in Hs. lia.
Qed.

Lemma sextets_bound (s : string) : Forall (fun v => (v < 64)%N) (sextets s).
Proof.
  induction s as [|a|a b|a b c s IH] using three_bytes_ind; cbn [sextets]; repeat (apply Forall_cons; split); try apply Forall_nil; try done;
    repeat match goal with x : ascii |- _ => pose proof (ascii_bound x); generalize dependent (N_of_ascii x); clear x; intros end;
    zify; Z.to_euclidean_division_equations; lia.
Qed.

Lemma bytes_of_sextets (s : string) : bytes_of (sextets s) = Some s.
Proof.
  assert (Hb : forall c n, n = N_of_ascii c -> byte n = c) by (intros c n ->; apply ascii_N_embedding).
  assert (H1 : forall a b : N, (b < 16 -> N.div a 4 * 4 + N.div (N.modulo a 4 * 16 + b) 16 = a)%N).
  { intros a b Hlt. zify. Z.to_euclidean_division_equations. lia. }
  assert (H2 : forall a b c : N, (b < 256 -> c < 4 -> N.modulo (N.modulo a 4 * 16 + N.div b 16) 16 * 16 + N.div (N.modulo b 16 * 4 + c) 4 = b)%N).
  { intros a b c Hb' Hc. zify. Z.to_euclidean_division_equations. lia. }
  assert (H3 : forall b c : N, (c < 256 -> N.modulo (N.modulo b 16 * 4 + N.div c 64) 4 * 64 + N.modulo c 64 = c)%N).
  { intros b c Hc. zify. Z.to_euclidean_division_equations. lia. }
  assert (Hd16 : forall c, (N.div (N_of_ascii c) 16 < 16)%N) by (intros c; pose proof (ascii_bound c); apply N.Div0.div_lt_upper_bound; lia).
  assert (Hd64 : forall c, (N.div (N_of_ascii c) 64 < 4)%N) by (intros c; pose proof (ascii_bound c); apply N.Div0.div_lt_upper_bound; lia).
  induction s as [|a|a b|a b c s IH] using three_bytes_ind; cbn [sextets bytes_of mbind option_bind].
  - done.
  - do 2 f_equal. apply Hb. pose proof (H1 (N_of_ascii a) 0%N). rewrite N.add_0_r in *. auto with lia.
  - f_equal. f_equal; [apply Hb; by apply H1|]. f_equal. apply Hb. pose proof (H2 (N_of_ascii a) (N_of_ascii b) 0%N (ascii_bound b)). rewrite N.add_0_r in *. auto with lia.
  - rewrite IH. cbn. f_equal. f_equal; [apply Hb; by apply H1|]. f_equal; [apply Hb; apply H2; [apply ascii_bound|done]|]. f_equal. apply Hb. apply H3, ascii_bound.
Qed.

Lemma sextet_values_chars (vs : list N) : Forall (fun v => (v < 64)%N) vs -> sextet_values (String.string_of_list_ascii (map sextet_char vs)) = Some vs.
Proof.
  induction 1 as [|v vs Hv _ IH]; cbn [map String.string_of_list_ascii sextet_values]; [done|].
  destruct (sextet_char_value v Hv) as [-> ->]. cbn. by rewrite IH.
Qed.

Lemma decode_encode (s : string) : DecodeString (EncodeToString s) = Some s.
Proof. unfold DecodeString, EncodeToString. rewrite sextet_values_chars by apply sextets_bound. cbn. apply bytes_of_sextets. Qed.

Lemma sextets_length (s : string) : (3 * llen (sextets s) = 4 * slen s + 2 \/ 3 * llen (sextets s) = 4 * slen s + 1 \/ 3 * llen (sextets s) = 4 * slen s)%Z.
Proof.
  induction s as [|a|a b|a b c s IH] using three_bytes_ind; cbn [sextets]; try (unfold llen, slen; cbn; lia).
  unfold llen, slen in *. cbn [length String.length]. lia.
Qed.

Lemma encode_size (s : string) (n m : Z) : slen s = n -> (m = (4 * n + 2) / 3)%Z -> slen (EncodeToString s) = m.
Proof.
  intros <- ->. unfold EncodeToString, slen at 1.
  assert (Hl : forall l, String.length (String.string_of_list_ascii l) = length l) by (induction l; cbn; congruence).
  rewrite Hl, length_map. pose proof (sextets_length s) as Hs. unfold llen in Hs. apply Z.div_unique with (r := (4 * slen s + 2 - 3 * Z.of_nat (length (sextets s)))%Z); lia.
Qed.

Lemma encode_bytes (s : string) : string_forall (fun c => is_lower c || is_upper c || is_digit c || byte_of "-_" c) (EncodeToString s) = true.
Proof.
  assert (Hall : forall n, is_lower (sextet_char n) || is_upper (sextet_char n) || is_digit (sextet_char n) || byte_of "-_" (sextet_char n) = true).
  { intros n. unfold sextet_char. destruct (String.get (N.to_nat n) alphabet) as [c|] eqn:Hc; [|done]. revert Hc. generalize (N.to_nat n). clear.
    intros n. do 64 (destruct n as [|n]; [by intros [= <-]|]). intros Hc. destruct n; done. }
  unfold EncodeToString. induction (sextets s) as [|v vs IH]; [done|]. cbn [map String.string_of_list_ascii string_forall]. by rewrite Hall, IH.
Qed.

Example encodes_example : EncodeToString "any carnal pleas" = "YW55IGNhcm5hbCBwbGVhcw"%string /\ DecodeString "YW55IGNhcm5hbCBwbGVhcw" = Some "any carnal pleas"%string.
Proof. vm_compute. split; reflexivity. Qed.

(** The low bits of the last character are not looked at. *)
Example trailing_bits_ignored : DecodeString "YQ" = Some "a"%string /\ DecodeString "YR" = Some "a"%string.
Proof. vm_compute. split; reflexivity. Qed.
