(* ===== verification/Access.v ===== *)
(** * API keys

    [internal/access/key.go], [pepper.go] and [api_key.go]: the presented credential
    and its text, the versioned peppers with the digests computed under them, and the
    durable key with its lifecycle.

    HMAC-SHA256 is the class [AccessCrypto].  Beside its answer, a verification gives
    the messages it has hashed, because the code promises to do the same work for a
    credential it does not know.  The receiver of a method is not nil, as the
    constructors demand. *)

From S2P Require Import Prelude GoTime Ident Content Base64 Scope.
From S2P Require Authority.
From Stdlib Require Import Ascii.

Class AccessCrypto := {
  hmac_sha256 : string -> string -> string;
  hmac_size k m : slen (hmac_sha256 k m) = 32;
}.

(** [ULID.String] has 26 characters, and a text in its alphabet is the printed form
    of what it parses to. *)
Class CanonicalUlid `{Ident.Ulid} := {
  ulid_size u : slen (Ident.ulid_string u) = 26;
  ulid_canonical s u : Ident.ulid_parse_strict s = Some u -> string_forall (byte_of Ident.UlidText.alphabet) s = true -> Ident.ulid_string u = s;
}.

Inductive Error :=
| ErrKeyNotFound | ErrKeyConflict | ErrKeyTerminal | ErrTenantInactive | ErrInvalidCredential | ErrInsufficientScope
| ErrPresented | ErrEntropy | ErrPepper | ErrDigest | ErrKeyState | ErrKeyLabel | ErrKeyGrant | ErrKeyExpiry | ErrKeyReplaces | ErrKeyTimes
| ErrTransition | ErrPolicy | ErrScope | ErrAdmin | ErrBridge | ErrPrivilege | ErrTenantMismatch | ErrQuery.
#[export] Instance AccessError_eq_dec : EqDecision Error. Proof. solve_decision. Defined.

Definition lift_scope {A : Type} (r : result Scope.Error A) : result Error A := match r with Ok a => Ok a | Err _ => Err ErrScope end.

(** ** The presented key: [key.go] *)

Definition presentedKeyPrefix : string := "idq_v1_".
Definition ulidPayloadLength : nat := 26.
Definition secretByteLength : Z := 32.
Definition secretTextLength : Z := 43.
Definition presentedKeyLength : Z :=
  slen presentedKeyPrefix + Z.of_nat ulidPayloadLength + 1 + Z.of_nat ulidPayloadLength + 1 + secretTextLength.
Definition redactedKey : string := "[REDACTED]".

Record PresentedKey := mk_presented { PTenant : string; PKey : string; PSecret : string }.
#[export] Instance PresentedKey_eq_dec : EqDecision PresentedKey. Proof. solve_decision. Defined.
Definition no_presented : PresentedKey := mk_presented "" "" "".

Definition presented_is_zero (key : PresentedKey) : bool := empty_string (PTenant key) || empty_string (PKey key).
Definition TenantHint (key : PresentedKey) : string := PTenant key.
Definition PresentedID (key : PresentedKey) : string := PKey key.
(** [String], [GoString] and [MarshalText]. *)
Definition presented_text (key : PresentedKey) : string := redactedKey.

Definition Reveal (key : PresentedKey) : string :=
  if presented_is_zero key then ""
  else presentedKeyPrefix +:+ Crypto.string_drop 4 (PTenant key) +:+ "_" +:+ Crypto.string_drop 4 (PKey key) +:+ "_" +:+ EncodeToString (PSecret key).

Section Keys.
Context `{Ident.Ulid}.

Definition ParsePresentedKey (encoded : string) : result Error PresentedKey :=
  reject negb (slen encoded =? presentedKeyLength) with ErrPresented ;;
  reject negb (String.eqb (String.substring 0 7 encoded) presentedKeyPrefix) with ErrPresented ;;
  let tenantEnd := (7 + ulidPayloadLength)%nat in
  let keyStart := (tenantEnd + 1)%nat in
  let keyEnd := (keyStart + ulidPayloadLength)%nat in
  let secretStart := (keyEnd + 1)%nat in
  reject negb (bool_decide (String.get tenantEnd encoded = Some "_"%char)) || negb (bool_decide (String.get keyEnd encoded = Some "_"%char)) with ErrPresented ;;
  match Ident.ParseTenant ("ten_" +:+ String.substring 7 ulidPayloadLength encoded) with
  | Err _ => Err ErrPresented
  | Ok tenant =>
      match Ident.ParseAPIKey ("key_" +:+ String.substring keyStart ulidPayloadLength encoded) with
      | Err _ => Err ErrPresented
      | Ok key =>
          match DecodeString (String.substring secretStart (String.length encoded - secretStart) encoded) with
          | None => Err ErrPresented
          | Some secret =>
              reject negb (slen secret =? secretByteLength) with ErrPresented ;;
              Ok (mk_presented (Ident.id_string tenant) (Ident.id_string key) secret)
          end
      end
  end.
End Keys.

(** [io.ReadFull] of the entropy source: what it holds is long enough or it fails. *)
Definition Generate (entropy tenant key : string) : result Error PresentedKey :=
  reject empty_string tenant with ErrPresented ;;
  reject empty_string key with ErrPresented ;;
  reject slen entropy <? secretByteLength with ErrEntropy ;;
  Ok (mk_presented tenant key (String.substring 0 32 entropy)).

(** ** Peppers and digests: [pepper.go] *)

Definition nul : string := String "000" "".
Definition hmacDomain : string := "idq-api-key" +:+ nul +:+ "v1" +:+ nul.

Definition Digest : Type := string.
Fixpoint zero_bytes (n : nat) : string := match n with O => "" | S n' => String "000" (zero_bytes n') end.
Definition digest_is_zero (digest : Digest) : bool := String.eqb digest (zero_bytes 32).
Definition ParseDigest (value : string) : result Error Digest :=
  reject negb (slen value =? 32) with ErrDigest ;; Ok value.

Record PepperSet := mk_peppers { active : Z; peppers : gmap Z string }.

(** The versions are 16-bit. *)
Definition NewPepperSet (active_version : Z) (material : gmap Z string) : result Error PepperSet :=
  reject active_version =? 0 with ErrPepper ;;
  reject bool_decide (material = ∅) with ErrPepper ;;
  reject negb (forallb (fun '(version, pepper) => negb (version =? 0) && (slen pepper =? secretByteLength)) (map_to_list material)) with ErrPepper ;;
  reject match material !! active_version with Some _ => false | None => true end with ErrPepper ;;
  Ok (mk_peppers active_version material).

Definition digest_message (key : PresentedKey) : string := hmacDomain +:+ PTenant key +:+ nul +:+ PKey key +:+ nul +:+ PSecret key.
(** A message of the same length, its domain followed by zeros. *)
Definition dummy_message : string :=
  hmacDomain +:+ zero_bytes (4 + ulidPayloadLength + 1 + 4 + ulidPayloadLength + 1 + 32).

Section Peppers.
Context `{AccessCrypto}.

Definition computeDigest (pepper : string) (key : PresentedKey) : Digest := hmac_sha256 pepper (digest_message key).
Definition computeDummyDigest (pepper : string) : Digest := hmac_sha256 pepper dummy_message.

Definition DigestKey (set : PepperSet) (key : PresentedKey) : result Error (Digest * Z) :=
  reject presented_is_zero key with ErrPepper ;;
  match peppers set !! active set with
  | None => Err ErrPepper
  | Some pepper => Ok (computeDigest pepper key, active set)
  end.

(** With the messages hashed. *)
Definition Verify (set : PepperSet) (key : PresentedKey) (version : Z) (expected : Digest) : result Error bool * list string :=
  if presented_is_zero key then (Err ErrPepper, [])
  else
    match peppers set !! version with
    | None => (Err ErrPepper, [])
    | Some pepper => (Ok (String.eqb (computeDigest pepper key) expected), [digest_message key])
    end.

Definition DummyVerify (set : PepperSet) (key : PresentedKey) : result Error unit * list string :=
  match peppers set !! active set with
  | None => (Err ErrPepper, [])
  | Some pepper => (Ok tt, [if presented_is_zero key then dummy_message else digest_message key])
  end.
End Peppers.

(** ** The durable key: [api_key.go] *)

Definition maxKeyLabelLength : Z := 100.

Inductive KeyState := KeyStateActive | KeyStateExpired | KeyStateRevoked | KeyStateRetired.
#[export] Instance KeyState_eq_dec : EqDecision KeyState. Proof. solve_decision. Defined.

Record Key := mk_key {
  KID : string; KTenant : string; KLabel : string; KDigest : Digest; KPepper : Z; KGrant : Grant; KVersion : Z;
  KCreated : Time; KUpdated : Time; KExpires : option Time; KRevoked : option Time; KRetired : option Time; KReplaces : string }.
#[export] Instance Key_eq_dec : EqDecision Key. Proof. solve_decision. Defined.

Definition control_rune (r : Z) : bool := (r <? 32) || (r =? 127).
Definition validText (value : string) (maximum : Z) : bool :=
  trimmed (runes value) && negb (empty_string value) && Authority.valid_utf8 value && (llen (runes value) <=? maximum) &&
  forallb (fun r => negb (control_rune r)) (runes value).
Definition validateKeyLabel (label : string) : result Error unit :=
  reject negb (validText label maxKeyLabelLength) with ErrKeyLabel ;; Ok tt.

Definition utcCopy (t : option Time) : option Time := option_map utc t.

(** [KeyRecord] has the fields of the key. *)
Definition utc_record (r : Key) : Key :=
  mk_key (KID r) (KTenant r) (KLabel r) (KDigest r) (KPepper r) (KGrant r) (KVersion r) (utc (KCreated r)) (utc (KUpdated r))
    (utcCopy (KExpires r)) (utcCopy (KRevoked r)) (utcCopy (KRetired r)) (KReplaces r).

Definition RestoreKey (record : Key) : result Error Key :=
  let r := utc_record record in
  reject empty_string (KID r) || empty_string (KTenant r) || digest_is_zero (KDigest r) || (KPepper r =? 0) || (KVersion r <? 1) ||
         is_zero (KCreated r) || before (KUpdated r) (KCreated r) with ErrKeyState ;;
  let? _ := validateKeyLabel (KLabel r) in
  reject (llen (patterns (KGrant r)) =? 0) || (llen (granted (KGrant r)) =? 0) with ErrKeyGrant ;;
  reject match KExpires r with Some e => negb (after e (KCreated r)) | None => false end with ErrKeyExpiry ;;
  reject negb (empty_string (KReplaces r)) && String.eqb (KReplaces r) (KID r) with ErrKeyReplaces ;;
  reject match KRevoked r with Some t => before t (KCreated r) || negb (instant t =? instant (KUpdated r)) | None => false end with ErrKeyTimes ;;
  reject match KRetired r with Some t => before t (KUpdated r) | None => false end with ErrKeyTimes ;;
  Ok r.

(** [value != nil && !now.Before( *value)]. *)
Definition reached (t : option Time) (now : Time) : bool := match t with Some t => negb (before now t) | None => false end.
Definition is_some {A : Type} (o : option A) : bool := match o with Some _ => true | None => false end.

Definition StateAt (key : Key) (now : Time) : KeyState :=
  if is_some (KRevoked key) then KeyStateRevoked
  else if reached (KRetired key) now then KeyStateRetired
  else if reached (KExpires key) now then KeyStateExpired
  else KeyStateActive.
Definition UsableAt (key : Key) (now : Time) : bool := bool_decide (StateAt key now = KeyStateActive).

Definition with_lifecycle (key : Key) (updated : Time) (revoked retired : option Time) : Key :=
  mk_key (KID key) (KTenant key) (KLabel key) (KDigest key) (KPepper key) (KGrant key) (KVersion key + 1) (KCreated key) updated
    (KExpires key) revoked retired (KReplaces key).

Definition Revoke (key : Key) (now : Time) : result Error Key :=
  reject empty_string (KID key) with ErrTransition ;;
  reject is_some (KRevoked key) || reached (KRetired key) now with ErrKeyTerminal ;;
  reject before now (KUpdated key) with ErrTransition ;;
  Ok (with_lifecycle key (utc now) (Some (utc now)) (KRetired key)).

Definition ScheduleRetirement (key : Key) (scheduledAt effectiveAt : Time) : result Error Key :=
  reject empty_string (KID key) with ErrTransition ;;
  reject is_some (KRevoked key) || is_some (KRetired key) with ErrKeyTerminal ;;
  reject before scheduledAt (KUpdated key) with ErrTransition ;;
  reject before effectiveAt scheduledAt with ErrTransition ;;
  Ok (with_lifecycle key (utc scheduledAt) (KRevoked key) (Some (utc effectiveAt))).
Definition Retire (key : Key) (now : Time) : result Error Key := ScheduleRetirement key now now.

(** ** The text of a credential *)
Module KeyText.

Lemma substring_whole (a b : string) : String.substring 0 (String.length a) (a +:+ b) = a.
Proof.
  induction a as [|c a IH]; [by destruct b|]. change (String c a +:+ b) with (String c (a +:+ b)). cbn [String.length String.substring].
  by rewrite IH.
Qed.
Lemma substring_skip (a b : string) (n m : nat) : String.substring (String.length a + n) m (a +:+ b) = String.substring n m b.
Proof. induction a as [|c a IH]; [done|]. change (String c a +:+ b) with (String c (a +:+ b)). cbn [String.length Nat.add String.substring]. done. Qed.
Lemma get_skip (a b : string) (n : nat) : String.get (String.length a + n) (a +:+ b) = String.get n b.
Proof. induction a as [|c a IH]; [done|]. change (String c a +:+ b) with (String c (a +:+ b)). cbn [String.length Nat.add String.get]. done. Qed.
Lemma append_nil (a : string) : a +:+ "" = a.
Proof. induction a as [|c a IH]; [done|]. change (String c a +:+ "") with (String c (a +:+ "")). by rewrite IH. Qed.
Lemma substring_all (a : string) : String.substring 0 (String.length a) a = a.
Proof. rewrite <- (append_nil a) at 3. rewrite <- (append_nil a) at 2. rewrite substring_whole. by rewrite append_nil. Qed.

Section Text.
Context `{Ident.Ulid} `{!CanonicalUlid}.

Lemma ulid_length u : String.length (Ident.ulid_string u) = 26%nat.
Proof. pose proof (ulid_size u). unfold slen in *. lia. Qed.

Lemma parse_ulid (prefix : Ident.Prefix) u : Ident.NewPrefix prefix = Ok prefix ->
  Ident.parse_typed prefix (prefix +:+ "_" +:+ Ident.ulid_string u) = Ok (Ident.mk_id (Ident.mk_value prefix u)).
Proof.
  intros Hp. unfold Ident.parse_typed, Ident.Parse. rewrite Hp. cbn [rbind].
  rewrite (proj2 (Ident.strip_prefix_Some (prefix +:+ "_") _ (Ident.ulid_string u))) by (by rewrite Ident.append_assoc).
  by rewrite Ident.ulid_parse_string.
Qed.

(** A credential of existing records. *)
Definition issued_credential (t u : Ident.ulid) (secret : string) : PresentedKey :=
  mk_presented ("ten_" +:+ Ident.ulid_string t) ("key_" +:+ Ident.ulid_string u) secret.

(** A revealed credential is read back as it was. *)
Lemma parse_reveal (t u : Ident.ulid) (secret : string) : slen secret = 32 ->
  ParsePresentedKey (Reveal (issued_credential t u secret)) = Ok (issued_credential t u secret).
Proof.
  intros Hs. unfold Reveal. change (presented_is_zero (issued_credential t u secret)) with false. cbn [issued_credential PTenant PKey PSecret].
  change (Crypto.string_drop 4 ("ten_" +:+ Ident.ulid_string t)) with (Ident.ulid_string t).
  change (Crypto.string_drop 4 ("key_" +:+ Ident.ulid_string u)) with (Ident.ulid_string u).
  pose proof (ulid_length t) as Ht. pose proof (ulid_length u) as Hu. pose proof (encode_size secret 32 43 Hs eq_refl) as He.
  pose proof (parse_ulid "ten" t eq_refl) as Hpt. pose proof (parse_ulid "key" u eq_refl) as Hpu. pose proof (decode_encode secret) as Hd.
  set (a := Ident.ulid_string t) in *. set (b := Ident.ulid_string u) in *. set (e := EncodeToString secret) in *.
  assert (He' : String.length e = 43%nat) by (unfold slen in He; lia).
  set (text := presentedKeyPrefix +:+ a +:+ "_" +:+ b +:+ "_" +:+ e).
  assert (Hl : String.length text = 104%nat).
  { assert (Hz : slen text = 104); [|unfold slen in Hz; lia]. unfold text. rewrite !slen_app. unfold slen. rewrite Ht, Hu, He'. done. }
  assert (Hshift : forall n, String.substring (7 + n) 26 text = String.substring n 26 (a +:+ "_" +:+ b +:+ "_" +:+ e)) by (intros n; exact (substring_skip "idq_v1_" _ n 26)).
  assert (H7 : String.substring 7 26 text = a).
  { rewrite (Hshift 0%nat : String.substring 7 26 text = _), <- Ht. apply substring_whole. }
  assert (Hg33 : forall n, String.get (33 + n) text = String.get n ("_" +:+ b +:+ "_" +:+ e)).
  { intros n. transitivity (String.get (26 + n) (a +:+ "_" +:+ b +:+ "_" +:+ e)); [exact (get_skip "idq_v1_" _ (26 + n))|].
    rewrite <- Ht at 1. apply get_skip. }
  assert (Hs33 : forall n m, String.substring (34 + n) m text = String.substring n m (b +:+ "_" +:+ e)).
  { intros n m. transitivity (String.substring (26 + S n) m (a +:+ "_" +:+ b +:+ "_" +:+ e)).
    - replace (26 + S n)%nat with (27 + n)%nat by lia. exact (substring_skip "idq_v1_" _ (27 + n) m).
    - rewrite <- Ht at 1. exact (substring_skip a _ (S n) m). }
  unfold ParsePresentedKey, ulidPayloadLength. unfold slen at 1. rewrite Hl. cbn [Nat.add Nat.sub].
  change (negb (Z.of_nat 104 =? presentedKeyLength)) with false. cbv iota.
  rewrite (substring_whole "idq_v1_" _ : String.substring 0 7 text = "idq_v1_"%string). cbn [negb String.eqb presentedKeyPrefix]. change (negb (String.eqb "idq_v1_" presentedKeyPrefix)) with false. cbv iota.
  rewrite (Hg33 0%nat : String.get 33 text = Some "_"%char).
  assert (Hg60 : String.get 60 text = Some "_"%char).
  { rewrite (Hg33 27%nat : String.get 60 text = _). change (String.get 27 ("_" +:+ b +:+ "_" +:+ e)) with (String.get (26 + 0) (b +:+ "_" +:+ e)).
    rewrite <- Hu. rewrite get_skip. done. }
  assert (H34 : String.substring 34 26 text = b).
  { rewrite (Hs33 0%nat 26%nat : String.substring 34 26 text = _), <- Hu. apply substring_whole. }
  assert (H61 : String.substring 61 43 text = e).
  { rewrite (Hs33 27%nat 43%nat : String.substring 61 43 text = _). transitivity (String.substring 1 43 ("_" +:+ e)).
    - change 27%nat with (26 + 1)%nat. rewrite <- Hu. apply substring_skip.
    - transitivity (String.substring 0 43 e); [done|]. rewrite <- He'. apply substring_all. }
  rewrite Hg60, H7, H34, H61. cbn [bool_decide orb negb]. unfold Ident.ParseTenant, Ident.ParseAPIKey.
  change ("ten_" +:+ a) with ("ten" +:+ "_" +:+ a). change ("key_" +:+ b) with ("key" +:+ "_" +:+ b). unfold Ident.TenantPrefix, Ident.APIKeyPrefix. rewrite Hpt, Hpu, Hd.
  change (negb (bool_decide (Some "_"%char = Some "_"%char))) with false. cbn [orb]. rewrite Hs. done.
Qed.
End Text.
End KeyText.
