(* ===== verification/AccessStore.v ===== *)
(** * The tables of API keys

    [internal/access/postgres/store.go], [db/query/access.sql] and the migrations of
    [api_keys], [api_key_admin_audit] and [api_key_bridge_commands]: the rows, their
    constraints, and the operations of the store as transactions on one database.

    The primary keys range over all tenants, so the tables do; an operation names its
    tenant in every query.  The grammar of labels and command identifiers in the
    constraints is that of PostgreSQL's regular expressions, the class
    [AccessDatabase].  [privileged] says whether the connected role bypasses row
    security. *)

From S2P Require Import Prelude GoTime Ident Content Scope Access.
From Stdlib Require Import Ascii.

Class AccessDatabase := {
  pg_label : string -> bool;
  pg_command_id : string -> bool;
}.

(** [tenant.State]. *)
Inductive TenantState := StateActive | StateDisabled | TenantStateOther (raw : string).
#[export] Instance TenantState_eq_dec : EqDecision TenantState. Proof. solve_decision. Defined.

(** ** Rows *)

Record KeyRow := mk_row {
  r_id : string; r_tenant : string; r_label : string; r_digest : string; r_pepper : Z; r_requested : list string; r_resolved : list string;
  r_version : Z; r_created : Time; r_updated : Time; r_expires : option Time; r_revoked : option Time; r_retired : option Time;
  r_replaces : option string }.
#[export] Instance KeyRow_eq_dec : EqDecision KeyRow. Proof. solve_decision. Defined.

(** [AdminAction], its occurrence time assigned by the service. *)
Record AdminAction := mk_action { Actor : string; Reason : string; occurredAt : Time }.
Record AdminAudit := mk_admin_audit { aa_tenant : string; aa_key : option string; aa_action : string; aa_actor : string; aa_reason : string; aa_at : Time }.

Record CredentialEnvelope := mk_envelope { Algorithm : string; EphemeralPublicKey : string; Nonce : string; Ciphertext : string }.
#[export] Instance CredentialEnvelope_eq_dec : EqDecision CredentialEnvelope. Proof. solve_decision. Defined.
Definition no_envelope : CredentialEnvelope := mk_envelope "" "" "" "".

Record BridgeCommand := mk_command { CommandID : string; RequestDigest : string }.
(** The four delivery columns are null together. *)
Record CommandRow := mk_command_row {
  c_tenant : string; c_digest : string; c_operation : string; c_key : string; c_delivery : option CredentialEnvelope; c_created : Time }.
#[export] Instance CommandRow_eq_dec : EqDecision CommandRow. Proof. solve_decision. Defined.

Record Database := mk_database {
  tenants : gmap string TenantState;
  keys : gmap string KeyRow;
  admin_audit : list AdminAudit;
  commands : gmap string CommandRow }.
Definition with_tenants (db : Database) x := mk_database x (keys db) (admin_audit db) (commands db).
Definition with_keys (db : Database) x := mk_database (tenants db) x (admin_audit db) (commands db).
Definition with_admin_audit (db : Database) x := mk_database (tenants db) (keys db) x (commands db).
Definition with_commands (db : Database) x := mk_database (tenants db) (keys db) (admin_audit db) x.

(** ** Constraints *)

(** ['^key_\[0-9A-HJKMNP-TV-Z\]{26}$']. *)
Definition id_format (prefix value : string) : bool :=
  match Ident.strip_prefix prefix value with
  | Some rest => (slen rest =? 26) && string_forall (byte_of Ident.UlidText.alphabet) rest
  | None => false
  end.

Section Constraints.
Context `{AccessDatabase}.

(** The checks of a row, [NOT NULL] of the two times among them. *)
Definition row_valid (row : KeyRow) : bool :=
  id_format "key_" (r_id row) && id_format "ten_" (r_tenant row) && pg_label (r_label row) && (slen (r_digest row) =? 32) &&
  (1 <=? r_pepper row) && (r_pepper row <=? 65535) &&
  negb (llen (r_requested row) =? 0) && forallb (is_canonical ParsePattern) (r_requested row) &&
  negb (llen (r_resolved row) =? 0) && forallb (is_canonical ParsePermission) (r_resolved row) &&
  (0 <? r_version row) && negb (is_zero (r_created row)) && negb (is_zero (r_updated row)) && negb (before (r_updated row) (r_created row)) &&
  match r_expires row with Some e => after e (r_created row) | None => true end &&
  match r_revoked row with Some t => instant t =? instant (r_updated row) | None => true end &&
  match r_retired row with Some t => negb (before t (r_updated row)) | None => true end &&
  match r_replaces row with Some p => negb (String.eqb p (r_id row)) | None => true end.
End Constraints.

(** The foreign key on the predecessor and the unique index on it. *)
Definition replacement_valid (db : Database) (row : KeyRow) : bool :=
  match r_replaces row with
  | None => true
  | Some p =>
      match keys db !! p with Some predecessor => String.eqb (r_tenant predecessor) (r_tenant row) | None => false end &&
      negb (existsb (fun x => String.eqb (r_tenant x.2) (r_tenant row) && bool_decide (r_replaces x.2 = Some p)) (map_to_list (keys db)))
  end.

(** ** Rows and keys *)

Definition optionalKeyID (identifier : string) : option string := if empty_string identifier then None else Some identifier.

(** The parameters of [CreateAPIKey]. *)
Definition row_of (key : Key) : KeyRow :=
  mk_row (KID key) (KTenant key) (KLabel key) (KDigest key) (KPepper key) (patterns (KGrant key)) (granted (KGrant key)) (KVersion key)
    (utc (KCreated key)) (utc (KUpdated key)) (utcCopy (KExpires key)) (utcCopy (KRevoked key)) (utcCopy (KRetired key)) (optionalKeyID (KReplaces key)).

Definition sameTenant (first second : string) : bool := negb (empty_string first) && negb (empty_string second) && String.eqb first second.

Definition validLifecycleChange (key : Key) (expectedVersion : Z) : bool :=
  (1 <=? expectedVersion) && (KVersion key =? expectedVersion + 1) && (is_some (KRevoked key) || is_some (KRetired key)).

(** [IS NOT DISTINCT FROM] of two timestamps. *)
Definition same_time (a b : option Time) : bool :=
  match a, b with Some x, Some y => instant x =? instant y | None, None => true | _, _ => false end.

Section Store.
Context `{Ident.Ulid} `{AccessDatabase}.

Definition parse_key_id (value : string) : result Error string :=
  match Ident.ParseAPIKey value with Ok identifier => Ok (Ident.id_string identifier) | Err _ => Err ErrQuery end.
Definition parse_tenant_id (value : string) : result Error string :=
  match Ident.ParseTenant value with Ok identifier => Ok (Ident.id_string identifier) | Err _ => Err ErrQuery end.

Definition restore (row : KeyRow) : result Error Key :=
  let? identifier := parse_key_id (r_id row) in
  let? tenantID := parse_tenant_id (r_tenant row) in
  let? digest := ParseDigest (r_digest row) in
  reject (r_pepper row <? 1) || (65535 <? r_pepper row) with ErrPepper ;;
  let? grant := lift_scope (RestoreGrant (r_requested row) (r_resolved row)) in
  let? replacesID := match r_replaces row with Some p => parse_key_id p | None => Ok ""%string end in
  RestoreKey (mk_key identifier tenantID (r_label row) digest (r_pepper row) grant (r_version row) (r_created row) (r_updated row)
    (utcCopy (r_expires row)) (utcCopy (r_revoked row)) (utcCopy (r_retired row)) replacesID).

(** Nothing is inserted for a tenant that is not active. *)
Definition create (db : Database) (key : Key) : result Error Database :=
  let row := row_of key in
  reject negb (bool_decide (tenants db !! r_tenant row = Some StateActive)) with ErrTenantInactive ;;
  reject is_some (keys db !! r_id row) || negb (row_valid row) || negb (replacement_valid db row) with ErrQuery ;;
  Ok (with_keys db (<[r_id row := row]> (keys db))).

Definition lifecycle_row (row : KeyRow) (version : Z) (updated : Time) (revoked retired : option Time) : KeyRow :=
  mk_row (r_id row) (r_tenant row) (r_label row) (r_digest row) (r_pepper row) (r_requested row) (r_resolved row) version (r_created row) updated
    (r_expires row) revoked retired (r_replaces row).

(** The condition of [SaveAPIKeyLifecycle]: a revocation that keeps the retirement,
    or the only scheduling of one. *)
Definition lifecycle_condition (row : KeyRow) (tenant : string) (expected version : Z) (updated : Time) (revoked retired : option Time) : bool :=
  String.eqb (r_tenant row) tenant && (r_version row =? expected) && (version =? expected + 1) && negb (is_zero updated) &&
  match revoked with
  | Some t => negb (is_some (r_revoked row)) && (instant t =? instant updated) && same_time retired (r_retired row)
  | None => negb (is_some (r_revoked row)) && negb (is_some (r_retired row)) && match retired with Some t => negb (before t updated) | None => false end
  end.

Definition saveLifecycle (db : Database) (key : Key) (expectedVersion : Z) : result Error Database :=
  let updated := utc (KUpdated key) in
  let revoked := utcCopy (KRevoked key) in
  let retired := utcCopy (KRetired key) in
  match keys db !! KID key with
  | None => Err ErrKeyConflict
  | Some row =>
      reject negb (lifecycle_condition row (KTenant key) expectedVersion (KVersion key) updated revoked retired) with ErrKeyConflict ;;
      let row' := lifecycle_row row (KVersion key) updated revoked retired in
      reject negb (row_valid row') with ErrQuery ;;
      Ok (with_keys db (<[KID key := row']> (keys db)))
  end.

(** ** Administrative actions: [administration.go] *)

Definition validateAction (action : AdminAction) : result Error unit :=
  reject negb (validText (Actor action) 200) || negb (validText (Reason action) 500) with ErrAdmin ;; Ok tt.

Definition prepareAdminAction (action : AdminAction) (now : Time) : result Error AdminAction :=
  let? _ := validateAction action in
  let action := mk_action (Actor action) (Reason action) (utc now) in
  reject is_zero (occurredAt action) with ErrAdmin ;;
  Ok action.

(** With the foreign keys of the audit row. *)
Definition insertAdminAudit (db : Database) (action : AdminAction) (tenant key operation : string) : result Error Database :=
  reject negb (is_ok (validateAction action)) || is_zero (occurredAt action) with ErrAdmin ;;
  let row := mk_admin_audit tenant (optionalKeyID key) operation (Actor action) (Reason action) (utc (occurredAt action)) in
  reject negb (is_some (tenants db !! tenant)) ||
         negb (match aa_key row with
               | None => String.eqb operation "list"
               | Some k => negb (String.eqb operation "list") && match keys db !! k with Some x => String.eqb (r_tenant x) tenant | None => false end
               end) with ErrQuery ;;
  Ok (with_admin_audit db (admin_audit db ++ [row])).

(** ** Reads *)

Definition find_row (db : Database) (tenant identifier : string) : result Error KeyRow :=
  match keys db !! identifier with
  | Some row => reject negb (String.eqb (r_tenant row) tenant) with ErrKeyNotFound ;; Ok row
  | None => Err ErrKeyNotFound
  end.

(** A read is a transaction that changes nothing and may fail. *)
Definition reading {A : Type} (db : Database) (c : Commit) (body : result Error A) : result Error A :=
  (transact ErrQuery db c (let? a := body in Ok (a, db))).1.

Definition Find (db : Database) (c : Commit) (scope identifier : string) : result Error Key :=
  reject empty_string scope || empty_string identifier with ErrKeyNotFound ;;
  reading db c (let? row := find_row db scope identifier in restore row).

Record VerificationRecord := mk_verification { VKey : Key; VTenant : TenantState }.
Definition NewVerificationRecord (key : Key) (state : TenantState) : result Error VerificationRecord :=
  reject empty_string (KID key) || empty_string (KTenant key) with ErrKeyState ;;
  match state with TenantStateOther _ => Err ErrKeyState | _ => Ok (mk_verification key state) end.

Definition FindForVerification (db : Database) (c : Commit) (tenantHint identifier : string) : result Error VerificationRecord :=
  reject empty_string tenantHint || empty_string identifier with ErrKeyNotFound ;;
  reading db c (
    let? row := find_row db tenantHint identifier in
    match tenants db !! tenantHint with
    | None => Err ErrKeyNotFound
    | Some state => let? key := restore row in NewVerificationRecord key state
    end).

(** ** Writes *)

Definition writing (db : Database) (c : Commit) (body : result Error Database) : result Error unit * Database :=
  transact ErrQuery db c (let? db' := body in Ok (tt, db')).

Definition Create (db : Database) (c : Commit) (scope : string) (key : Key) : result Error unit * Database :=
  if negb (sameTenant scope (KTenant key)) then (Err ErrTenantMismatch, db) else writing db c (create db key).

Definition SaveLifecycle (db : Database) (c : Commit) (scope : string) (key : Key) (expectedVersion : Z) : result Error unit * Database :=
  if negb (sameTenant scope (KTenant key)) || negb (validLifecycleChange key expectedVersion) then (Err ErrKeyConflict, db)
  else writing db c (saveLifecycle db key expectedVersion).

Definition rotation_valid (scope : string) (predecessor : Key) (expectedVersion : Z) (successor : Key) : bool :=
  sameTenant scope (KTenant predecessor) && sameTenant scope (KTenant successor) && String.eqb (KReplaces successor) (KID predecessor) &&
  validLifecycleChange predecessor expectedVersion && negb (is_some (KRevoked predecessor)) && is_some (KRetired predecessor) &&
  (KVersion successor =? 1) && negb (is_some (KRevoked successor)) && negb (is_some (KRetired successor)).

(** The successor is inserted before the predecessor is changed. *)
Definition rotate_body (db : Database) (predecessor : Key) (expectedVersion : Z) (successor : Key) : result Error Database :=
  let? db := create db successor in saveLifecycle db predecessor expectedVersion.

Definition Rotate_ (db : Database) (c : Commit) (scope : string) (predecessor : Key) (expectedVersion : Z) (successor : Key) : result Error unit * Database :=
  if negb (rotation_valid scope predecessor expectedVersion successor) then (Err ErrKeyConflict, db)
  else writing db c (rotate_body db predecessor expectedVersion successor).

Section Administrative.
Context (privileged : bool).

Definition requireAdminPrivilege : result Error unit := reject negb privileged with ErrPrivilege ;; Ok tt.
Definition adminTransaction (work : result Error Database) : result Error Database := let? _ := requireAdminPrivilege in work.

Definition FindAdministrative (db : Database) (c : Commit) (scope identifier : string) : result Error Key :=
  reject empty_string scope || empty_string identifier with ErrKeyNotFound ;;
  reading db c (let? _ := requireAdminPrivilege in let? row := find_row db scope identifier in restore row).

Definition CreateAdministrative (db : Database) (c : Commit) (action : AdminAction) (scope : string) (key : Key) : result Error unit * Database :=
  if negb (sameTenant scope (KTenant key)) then (Err ErrTenantMismatch, db)
  else writing db c (adminTransaction (let? db := create db key in insertAdminAudit db action scope (KID key) "issue")).

(** [ORDER BY created_at DESC, id DESC]. *)
Definition newest_first (a b : KeyRow) : bool :=
  (instant (r_created b) <? instant (r_created a)) || ((instant (r_created a) =? instant (r_created b)) && negb (String.leb (r_id a) (r_id b))).
Fixpoint insert_row (row : KeyRow) (rows : list KeyRow) : list KeyRow :=
  match rows with [] => [row] | x :: rest => if newest_first row x then row :: x :: rest else x :: insert_row row rest end.
Definition ListAPIKeys (db : Database) (tenant : string) : list KeyRow :=
  fold_right insert_row [] (List.filter (fun row => String.eqb (r_tenant row) tenant) (map snd (map_to_list (keys db)))).

Definition ListAdministrative (db : Database) (c : Commit) (action : AdminAction) (scope : string) : result Error (list Key) * Database :=
  if empty_string scope then (Err ErrKeyNotFound, db)
  else transact ErrQuery db c (
    let? _ := requireAdminPrivilege in
    let? found := rmap restore (ListAPIKeys db scope) in
    let? db := insertAdminAudit db action scope "" "list" in
    Ok (found, db)).

Definition SaveLifecycleAdministrative (db : Database) (c : Commit) (action : AdminAction) (scope : string) (key : Key) (expectedVersion : Z)
  : result Error unit * Database :=
  if negb (sameTenant scope (KTenant key)) || negb (validLifecycleChange key expectedVersion) then (Err ErrKeyConflict, db)
  else writing db c (adminTransaction (let? db := saveLifecycle db key expectedVersion in insertAdminAudit db action scope (KID key) "revoke")).

Definition RotateAdministrative (db : Database) (c : Commit) (action : AdminAction) (scope : string) (predecessor : Key) (expectedVersion : Z) (successor : Key)
  : result Error unit * Database :=
  if negb (rotation_valid scope predecessor expectedVersion successor) then (Err ErrKeyConflict, db)
  else writing db c (adminTransaction (
    let? db := rotate_body db predecessor expectedVersion successor in insertAdminAudit db action scope (KID predecessor) "rotate")).

(** ** Bridge commands *)

Definition insert_command (db : Database) (identifier : string) (row : CommandRow) : result Error Database :=
  reject is_some (commands db !! identifier) || negb (pg_command_id identifier) || negb (slen (c_digest row) =? 32) ||
         negb (is_some (tenants db !! c_tenant row)) ||
         negb (match keys db !! c_key row with Some x => String.eqb (r_tenant x) (c_tenant row) | None => false end) with ErrQuery ;;
  Ok (with_commands db (<[identifier := row]> (commands db))).

(** The key that a kept command made, whose tenant, operation and digest must be those of the command. *)
Definition replayed_key (db : Database) (row : CommandRow) (scope operation : string) (command : BridgeCommand) : result Error Key :=
  reject negb (String.eqb (c_tenant row) scope) || negb (String.eqb (c_operation row) operation) ||
         negb (String.eqb (c_digest row) (RequestDigest command)) with ErrKeyConflict ;;
  match find_row db (c_tenant row) (c_key row) with Err _ => Err ErrQuery | Ok row => restore row end.

(** A null delivery column does not scan into a string. *)
Definition IssueBridgeCommand (db : Database) (c : Commit) (action : AdminAction) (scope : string) (command : BridgeCommand) (key : Key) (envelope : CredentialEnvelope)
  : result Error (Key * CredentialEnvelope * bool) * Database :=
  if negb (sameTenant scope (KTenant key)) then (Err ErrTenantMismatch, db)
  else transact ErrQuery db c (
    let? _ := requireAdminPrivilege in
    match commands db !! CommandID command with
    | Some row =>
        match c_delivery row with
        | None => Err ErrQuery
        | Some kept => let? persisted := replayed_key db row scope "issue" command in Ok (persisted, kept, false, db)
        end
    | None =>
        let? db := create db key in
        let? db := insertAdminAudit db action scope (KID key) "issue" in
        let? db := insert_command db (CommandID command)
                     (mk_command_row scope (RequestDigest command) "issue" (KID key) (Some envelope) (utc (KCreated key))) in
        Ok (key, envelope, true, db)
    end).

Definition RotateBridgeCommand (db : Database) (c : Commit) (action : AdminAction) (scope : string) (command : BridgeCommand)
    (predecessor : Key) (expectedVersion : Z) (successor : Key) (envelope : CredentialEnvelope)
  : result Error (Key * CredentialEnvelope * bool) * Database :=
  transact ErrQuery db c (
    let? _ := requireAdminPrivilege in
    match commands db !! CommandID command with
    | Some row =>
        match c_delivery row with
        | None => Err ErrQuery
        | Some kept => let? persisted := replayed_key db row scope "rotate" command in Ok (persisted, kept, false, db)
        end
    | None =>
        let? db := rotate_body db predecessor expectedVersion successor in
        let? db := insertAdminAudit db action scope (KID predecessor) "rotate" in
        let? db := insert_command db (CommandID command)
                     (mk_command_row scope (RequestDigest command) "rotate" (KID successor) (Some envelope) (utc (KCreated successor))) in
        Ok (successor, envelope, true, db)
    end).

Definition RevokeBridgeCommand (db : Database) (c : Commit) (action : AdminAction) (scope : string) (command : BridgeCommand) (key : Key) (expectedVersion : Z)
  : result Error (Key * bool) * Database :=
  transact ErrQuery db c (
    let? _ := requireAdminPrivilege in
    match commands db !! CommandID command with
    | Some row => let? persisted := replayed_key db row scope "revoke" command in Ok (persisted, false, db)
    | None =>
        let? db := saveLifecycle db key expectedVersion in
        let? db := insertAdminAudit db action scope (KID key) "revoke" in
        let? db := insert_command db (CommandID command)
                     (mk_command_row scope (RequestDigest command) "revoke" (KID key) None (utc (occurredAt action))) in
        Ok (key, true, db)
    end).

(** The operation of the command is not compared. *)
Definition ObserveBridgeCommand (db : Database) (c : Commit) (scope : string) (command : BridgeCommand) : result Error (Key * CredentialEnvelope) :=
  reading db c (
    let? _ := requireAdminPrivilege in
    match commands db !! CommandID command with
    | None => Err ErrKeyNotFound
    | Some row =>
        let? found := replayed_key db row scope (c_operation row) command in
        Ok (found, match c_delivery row with Some kept => kept | None => no_envelope end)
    end).
End Administrative.
End Store.
