(* ===== verification/AccessService.v ===== *)
(** * Issuing, rotating, revoking and authenticating API keys

    [internal/access/authenticator.go], [issuer.go], [administration.go] and
    [credential_bridge.go] over the tables of [AccessStore].

    Authentication is one read and a decision.  The use cases that write are automata
    with one transaction per step; a step takes its clock readings, the fresh ULID and
    secret, the sealed envelope and the fate of its transaction, and may be a crash.
    Any number of workers share one database, in which tenants may be disabled. *)

From S2P Require Import Prelude GoTime Ident Content Scope Access AccessStore.
From Stdlib Require Import Ascii.

(** ** Authority *)

(** [Context], the authenticated authority. *)
Record Authority := mk_authority { Principal : string; TenantScope : string; AGrant : Grant }.

Definition AllowsIn (authority : Authority) (permission : Permission) : bool :=
  negb (empty_string (TenantScope authority)) && Allows (AGrant authority) permission.
Definition Require (authority : Authority) (permission : Permission) : result Error unit :=
  reject negb (AllowsIn authority permission) with ErrInsufficientScope ;; Ok tt.

(** [TenantReader.Current]; the repository is an argument. *)
Definition Current {T : Type} (find : string -> string -> result Error T) (authority : Authority) : result Error T :=
  let? _ := Require authority PermissionTenantRead in
  reject empty_string (TenantScope authority) with ErrInsufficientScope ;;
  find (TenantScope authority) (TenantScope authority).

(** ** Expiry and rotation policy *)

Inductive ExpiryIntent := ExpiringAt (t : Time) | WithoutExpiry | ExpiryUnknown.
Record ExpiryPolicy := mk_expiry_policy { configured : bool; allowNoExpiry : bool; maximumLifetime : option Z }.

Definition NewExpiryPolicy (allow : bool) (maximum : option Z) : result Error ExpiryPolicy :=
  reject match maximum with Some d => d <=? 0 | None => false end with ErrPolicy ;;
  Ok (mk_expiry_policy true allow maximum).
Definition NewRotationPolicy (maximumOverlap : Z) : result Error Z :=
  reject maximumOverlap <=? 0 with ErrPolicy ;; Ok maximumOverlap.

Definition resolve_expiry (policy : ExpiryPolicy) (createdAt : Time) (intent : ExpiryIntent) : result Error (option Time) :=
  reject negb (configured policy) with ErrPolicy ;;
  match intent with
  | ExpiringAt t =>
      let expiresAt := utc t in
      reject negb (after expiresAt createdAt) with ErrPolicy ;;
      reject match maximumLifetime policy with Some d => d <? sub expiresAt createdAt | None => false end with ErrPolicy ;;
      Ok (Some expiresAt)
  | WithoutExpiry => reject negb (allowNoExpiry policy) with ErrPolicy ;; Ok None
  | ExpiryUnknown => Err ErrPolicy
  end.

(** ** The issuer *)

Record Issuer := mk_issuer { issuer_peppers : PepperSet; issuer_registry : Registry; expiry : ExpiryPolicy; maximumOverlap : Z }.

Definition NewIssuer (set : PepperSet) (registry : Registry) (policy : ExpiryPolicy) (overlap : Z) : result Error Issuer :=
  reject (llen (permissions registry) =? 0) || negb (configured policy) || (overlap <=? 0) with ErrPolicy ;;
  Ok (mk_issuer set registry policy overlap).

Record IssueInput := mk_issue_input { Label : string; IPatterns : list Pattern; IExpiry : ExpiryIntent }.
Record RotateInput := mk_rotate_input { RKey : string; RExpiry : ExpiryIntent; Overlap : Z; RPatterns : list Pattern }.
Record IssuedKey := mk_issued { IKey : Key; Credential : PresentedKey }.

Section Service.
Context `{Ident.Ulid} `{AccessCrypto} `{AccessDatabase}.

(** What a step receives from outside. *)
Record Input := mk_input {
  now : Time; now_again : Time; fresh : option Ident.ulid; entropy : string; sealed : option CredentialEnvelope; commit : Commit;
  privileged : bool; crash : bool }.

(** [ids.NewAPIKey]. *)
Definition new_key_id (i : Input) : result Error string :=
  match fresh i with Some u => Ok ("key_" +:+ Ident.ulid_string u) | None => Err ErrEntropy end.

Definition build (issuer : Issuer) (i : Input) (tenantID label : string) (grant : Grant) (expiresAt : option Time) (replacesID : string) (at_ : Time)
  : result Error IssuedKey :=
  let? identifier := new_key_id i in
  let? credential := Generate (entropy i) tenantID identifier in
  let? (digest, pepperVersion) := DigestKey (issuer_peppers issuer) credential in
  let? key := RestoreKey (mk_key identifier tenantID label digest pepperVersion grant 1 at_ at_ expiresAt None None replacesID) in
  Ok (mk_issued key credential).

(** [IssuanceRepository], what the issuer asks of its store. *)
Record IssuanceRepository := mk_repository {
  repo_create : Database -> Input -> string -> Key -> result Error unit * Database;
  repo_find : Database -> Input -> string -> string -> result Error Key;
  repo_rotate : Database -> Input -> string -> Key -> Z -> Key -> result Error unit * Database }.

Definition store_repository : IssuanceRepository :=
  mk_repository (fun db i => Create db (commit i)) (fun db i => Find db (commit i)) (fun db i => Rotate_ db (commit i)).
(** [administrativeIssuanceRepository]. *)
Definition administrativeIssuanceRepository (action : AdminAction) : IssuanceRepository :=
  mk_repository
    (fun db i => CreateAdministrative (privileged i) db (commit i) action)
    (fun db i => FindAdministrative (privileged i) db (commit i))
    (fun db i => RotateAdministrative (privileged i) db (commit i) action).

Definition Issue (issuer : Issuer) (repository : IssuanceRepository) (i : Input) (at_ : Time) (scope : string) (input : IssueInput) (db : Database)
  : result Error IssuedKey * Database :=
  let prepared :=
    let? expiresAt := resolve_expiry (expiry issuer) at_ (IExpiry input) in
    let? grant := lift_scope (Resolve (issuer_registry issuer) (IPatterns input)) in
    build issuer i scope (Label input) grant expiresAt "" at_ in
  match prepared with
  | Err e => (Err e, db)
  | Ok issued =>
      match repo_create repository db i scope (IKey issued) with
      | (Ok _, db') => (Ok issued, db')
      | (Err e, db') => (Err e, db')
      end
  end.

(** [Rotate] up to the read of the predecessor. *)
Definition rotate_find (issuer : Issuer) (repository : IssuanceRepository) (i : Input) (scope : string) (input : RotateInput) (db : Database) : result Error Key :=
  reject empty_string (RKey input) with ErrPolicy ;;
  reject (Overlap input <=? 0) || (maximumOverlap issuer <? Overlap input) with ErrPolicy ;;
  repo_find repository db i scope (RKey input).

Definition rotated_grant (issuer : Issuer) (predecessor : Key) (requested : list Pattern) : result Error Grant :=
  if llen requested =? 0 then Ok (KGrant predecessor) else lift_scope (Resolve (issuer_registry issuer) requested).

(** The successor and the scheduled predecessor; [retirementAt] is given. *)
Definition succeed_key (issuer : Issuer) (i : Input) (input : RotateInput) (at_ retirementAt : Time) (expiresAt : option Time) (predecessor : Key)
  : result Error (IssuedKey * Key) :=
  reject match expiresAt with Some e => negb (after e retirementAt) | None => false end with ErrPolicy ;;
  let? grant := rotated_grant issuer predecessor (RPatterns input) in
  let? successor := build issuer i (KTenant predecessor) (KLabel predecessor) grant expiresAt (KID predecessor) at_ in
  let? scheduled := ScheduleRetirement predecessor at_ retirementAt in
  Ok (successor, scheduled).

Definition prepare_rotation (issuer : Issuer) (i : Input) (input : RotateInput) (at_ : Time) (predecessor : Key) : result Error (IssuedKey * Key) :=
  reject negb (UsableAt predecessor at_) || is_some (KRetired predecessor) with ErrKeyTerminal ;;
  let? expiresAt := resolve_expiry (expiry issuer) at_ (RExpiry input) in
  succeed_key issuer i input at_ (add at_ (Overlap input)) expiresAt predecessor.

Definition rotate_finish (issuer : Issuer) (repository : IssuanceRepository) (i : Input) (scope : string) (input : RotateInput) (at_ : Time) (predecessor : Key) (db : Database)
  : result Error IssuedKey * Database :=
  match prepare_rotation issuer i input at_ predecessor with
  | Err e => (Err e, db)
  | Ok (successor, scheduled) =>
      match repo_rotate repository db i scope scheduled (KVersion predecessor) (IKey successor) with
      | (Ok _, db') => (Ok successor, db')
      | (Err e, db') => (Err e, db')
      end
  end.

(** ** Calls *)

Inductive BridgeOperation :=
| BridgeRotate (input : RotateInput)
| BridgeRevoke (identifier : string) (expectedVersion : Z).

Inductive Call :=
| CallIssue (action : AdminAction) (scope : string) (input : IssueInput)
| CallRotate (action : AdminAction) (scope : string) (input : RotateInput)
| CallList (action : AdminAction) (scope : string)
| CallRevoke (action : AdminAction) (scope identifier : string) (expectedVersion : Z)
| CallBridgeIssue (command : BridgeCommand) (action : AdminAction) (scope : string) (input : IssueInput)
| CallBridge (command : BridgeCommand) (action : AdminAction) (scope : string) (operation : BridgeOperation)
| CallObserve (command : BridgeCommand) (scope : string).

Inductive Answer :=
| Failed (e : Error)
| Issued (issued : IssuedKey)
| Revoked (key : Key)
| Listed (found : list Key)
| Bridged (key : Key) (envelope : CredentialEnvelope) (created : bool).

(** Where a worker is between two transactions. *)
Inductive Local :=
| Idle
| RotateFound (action : AdminAction) (scope : string) (input : RotateInput) (at_ : Time) (predecessor : Key)
| RevokeFound (action : AdminAction) (scope : string) (expectedVersion : Z) (at_ : Time) (key : Key)
| BridgeUnobserved (command : BridgeCommand) (action : AdminAction) (scope : string) (operation : BridgeOperation)
| BridgeRotateFound (command : BridgeCommand) (action : AdminAction) (scope : string) (input : RotateInput) (at_ : Time) (predecessor : Key)
| BridgeRevokeFound (command : BridgeCommand) (action : AdminAction) (scope : string) (expectedVersion : Z) (at_ : Time) (key : Key)
| Returned (answer : Answer).

Definition answered {A : Type} (r : result Error A) (answer : A -> Answer) : Local :=
  match r with Ok a => Returned (answer a) | Err e => Returned (Failed e) end.

Section Work.
Context (issuer : Issuer).

(** *** The administrators *)

Definition issue_call (action : AdminAction) (scope : string) (input : IssueInput) (i : Input) (db : Database) : Local * Database :=
  match prepareAdminAction action (now i) with
  | Err e => (Returned (Failed e), db)
  | Ok prepared =>
      let '(r, db') := Issue issuer (administrativeIssuanceRepository prepared) i (utc (now_again i)) scope input db in
      (answered r Issued, db')
  end.

Definition rotate_call (action : AdminAction) (scope : string) (input : RotateInput) (i : Input) (db : Database) : Local :=
  match prepareAdminAction action (now i) with
  | Err e => Returned (Failed e)
  | Ok prepared =>
      match rotate_find issuer (administrativeIssuanceRepository prepared) i scope input db with
      | Err e => Returned (Failed e)
      | Ok predecessor => RotateFound prepared scope input (utc (now_again i)) predecessor
      end
  end.

Definition list_call (action : AdminAction) (scope : string) (i : Input) (db : Database) : Local * Database :=
  match prepareAdminAction action (now i) with
  | Err e => (Returned (Failed e), db)
  | Ok prepared => let '(r, db') := ListAdministrative (privileged i) db (commit i) prepared scope in (answered r Listed, db')
  end.

(** The expected version and the revocation, after the read. *)
Definition revoked_key (key : Key) (expectedVersion : Z) (at_ : Time) : result Error Key :=
  reject negb (KVersion key =? expectedVersion) with ErrKeyConflict ;;
  Revoke key at_.

Definition revoke_call (action : AdminAction) (scope identifier : string) (expectedVersion : Z) (i : Input) (db : Database) : Local :=
  if empty_string identifier || (expectedVersion <? 1) then Returned (Failed ErrKeyConflict)
  else
    match prepareAdminAction action (utc (now i)) with
    | Err e => Returned (Failed e)
    | Ok prepared =>
        match FindAdministrative (privileged i) db (commit i) scope identifier with
        | Err e => Returned (Failed e)
        | Ok key => RevokeFound prepared scope expectedVersion (utc (now i)) key
        end
    end.

Definition revoke_finish (action : AdminAction) (scope : string) (expectedVersion : Z) (at_ : Time) (key : Key) (i : Input) (db : Database) : Local * Database :=
  match revoked_key key expectedVersion at_ with
  | Err e => (Returned (Failed e), db)
  | Ok key =>
      let '(r, db') := SaveLifecycleAdministrative (privileged i) db (commit i) action scope key expectedVersion in
      (answered r (fun _ => Revoked key), db')
  end.

(** *** The bridge *)

Definition zero_digest (digest : string) : bool := String.eqb digest (zero_bytes 32).
Definition command_identified (command : BridgeCommand) : bool := negb (empty_string (CommandID command)) && negb (zero_digest (RequestDigest command)).

Definition observe_call (command : BridgeCommand) (scope : string) (i : Input) (db : Database) : Local :=
  if negb (command_identified command) then Returned (Failed ErrBridge)
  else answered (ObserveBridgeCommand (privileged i) db (commit i) scope command) (fun '(key, envelope) => Bridged key envelope false).

Definition bridge_issue_call (command : BridgeCommand) (action : AdminAction) (scope : string) (input : IssueInput) (i : Input) (db : Database) : Local * Database :=
  if negb (command_identified command) then (Returned (Failed ErrBridge), db)
  else
    let at_ := utc (now i) in
    let ready :=
      let? prepared := prepareAdminAction action at_ in
      let? expiresAt := resolve_expiry (expiry issuer) at_ (IExpiry input) in
      let? grant := lift_scope (Resolve (issuer_registry issuer) (IPatterns input)) in
      let? issued := build issuer i scope (Label input) grant expiresAt "" at_ in
      match sealed i with None => Err ErrBridge | Some envelope => Ok (prepared, issued, envelope) end in
    match ready with
    | Err e => (Returned (Failed e), db)
    | Ok (prepared, issued, envelope) =>
        let '(r, db') := IssueBridgeCommand (privileged i) db (commit i) prepared scope command (IKey issued) envelope in
        (answered r (fun '(key, envelope, created) => Bridged key envelope created), db')
    end.

Definition operation_admitted (operation : BridgeOperation) : bool :=
  match operation with
  | BridgeRotate _ => true
  | BridgeRevoke identifier expectedVersion => negb (empty_string identifier) && negb (expectedVersion <? 1)
  end.

(** A command that was applied before answers at once. *)
Definition bridge_call (command : BridgeCommand) (action : AdminAction) (scope : string) (operation : BridgeOperation) (i : Input) (db : Database) : Local :=
  if negb (command_identified command) || negb (operation_admitted operation) then Returned (Failed ErrBridge)
  else
    match ObserveBridgeCommand (privileged i) db (commit i) scope command with
    | Ok (key, envelope) => Returned (Bridged key (match operation with BridgeRotate _ => envelope | BridgeRevoke _ _ => no_envelope end) false)
    | Err ErrKeyNotFound => BridgeUnobserved command action scope operation
    | Err e => Returned (Failed e)
    end.

Definition bridge_find (command : BridgeCommand) (action : AdminAction) (scope : string) (operation : BridgeOperation) (i : Input) (db : Database) : Local :=
  let at_ := utc (now i) in
  match prepareAdminAction action at_ with
  | Err e => Returned (Failed e)
  | Ok prepared =>
      match operation with
      | BridgeRotate input =>
          match FindAdministrative (privileged i) db (commit i) scope (RKey input) with
          | Err e => Returned (Failed e)
          | Ok predecessor => BridgeRotateFound command prepared scope input at_ predecessor
          end
      | BridgeRevoke identifier expectedVersion =>
          match FindAdministrative (privileged i) db (commit i) scope identifier with
          | Err e => Returned (Failed e)
          | Ok key => BridgeRevokeFound command prepared scope expectedVersion at_ key
          end
      end
  end.

(** The overlap ends with the predecessor. *)
Definition bridge_retirement (at_ : Time) (overlap : Z) (predecessor : Key) : Time :=
  match KExpires predecessor with
  | Some e => if before e (add at_ overlap) then e else add at_ overlap
  | None => add at_ overlap
  end.

Definition prepare_bridge_rotation (i : Input) (input : RotateInput) (at_ : Time) (predecessor : Key) : result Error (IssuedKey * Key) :=
  reject (Overlap input <=? 0) || (maximumOverlap issuer <? Overlap input) || negb (UsableAt predecessor at_) || is_some (KRetired predecessor)
    with ErrKeyTerminal ;;
  let? expiresAt := resolve_expiry (expiry issuer) at_ (RExpiry input) in
  succeed_key issuer i input at_ (bridge_retirement at_ (Overlap input) predecessor) expiresAt predecessor.

Definition bridge_rotate_finish (command : BridgeCommand) (action : AdminAction) (scope : string) (input : RotateInput) (at_ : Time) (predecessor : Key)
    (i : Input) (db : Database) : Local * Database :=
  match prepare_bridge_rotation i input at_ predecessor, sealed i with
  | Err e, _ => (Returned (Failed e), db)
  | Ok _, None => (Returned (Failed ErrBridge), db)
  | Ok (successor, scheduled), Some envelope =>
      let '(r, db') := RotateBridgeCommand (privileged i) db (commit i) action scope command scheduled (KVersion predecessor) (IKey successor) envelope in
      (answered r (fun '(key, envelope, created) => Bridged key envelope created), db')
  end.

Definition bridge_revoke_finish (command : BridgeCommand) (action : AdminAction) (scope : string) (expectedVersion : Z) (at_ : Time) (key : Key)
    (i : Input) (db : Database) : Local * Database :=
  match revoked_key key expectedVersion at_ with
  | Err e => (Returned (Failed e), db)
  | Ok key =>
      let '(r, db') := RevokeBridgeCommand (privileged i) db (commit i) action scope command key expectedVersion in
      (answered r (fun '(key, created) => Bridged key no_envelope created), db')
  end.

(** *** One step *)

Definition start_call (call : Call) (i : Input) (db : Database) : Local * Database :=
  match call with
  | CallIssue action scope input => issue_call action scope input i db
  | CallRotate action scope input => (rotate_call action scope input i db, db)
  | CallList action scope => list_call action scope i db
  | CallRevoke action scope identifier expectedVersion => (revoke_call action scope identifier expectedVersion i db, db)
  | CallBridgeIssue command action scope input => bridge_issue_call command action scope input i db
  | CallBridge command action scope operation => (bridge_call command action scope operation i db, db)
  | CallObserve command scope => (observe_call command scope i db, db)
  end.

Definition rotate_step (action : AdminAction) (scope : string) (input : RotateInput) (at_ : Time) (predecessor : Key) (i : Input) (db : Database) : Local * Database :=
  let '(r, db') := rotate_finish issuer (administrativeIssuanceRepository action) i scope input at_ predecessor db in
  (answered r Issued, db').

Definition work (l : Local) (call : Call) (i : Input) (db : Database) : Local * Database :=
  if crash i then (Idle, db)
  else
    match l with
    | Idle => start_call call i db
    | RotateFound action scope input at_ predecessor => rotate_step action scope input at_ predecessor i db
    | RevokeFound action scope expectedVersion at_ key => revoke_finish action scope expectedVersion at_ key i db
    | BridgeUnobserved command action scope operation => (bridge_find command action scope operation i db, db)
    | BridgeRotateFound command action scope input at_ predecessor => bridge_rotate_finish command action scope input at_ predecessor i db
    | BridgeRevokeFound command action scope expectedVersion at_ key => bridge_revoke_finish command action scope expectedVersion at_ key i db
    | Returned _ => (Idle, db)
    end.

Record World := mk_world { database : Database; workers : list Local }.

Inductive world_step (w : World) : World -> Prop :=
| world_work k l call i l' db' :
    workers w !! k = Some l -> work l call i (database w) = (l', db') -> world_step w (mk_world db' (<[k := l']> (workers w)))
| world_disable tenant :
    tenants (database w) !! tenant = Some StateActive ->
    world_step w (mk_world (with_tenants (database w) (<[tenant := StateDisabled]> (tenants (database w)))) (workers w)).
End Work.

(** No key has been issued yet; tenants there may be. *)
Definition empty_database (ts : gmap string TenantState) : Database := mk_database ts ∅ [] ∅.
Definition start_world (ts : gmap string TenantState) (n : nat) : World := mk_world (empty_database ts) (repeat Idle n).

(** ** Authentication *)

Definition Authenticate (set : PepperSet) (db : Database) (c : Commit) (at_ : Time) (encoded : string) : result Error Authority * list string :=
  let reject_credential (presented : PresentedKey) :=
    match DummyVerify set presented with (Ok _, work) => (Err ErrInvalidCredential, work) | (Err e, work) => (Err e, work) end in
  match ParsePresentedKey encoded with
  | Err _ => reject_credential no_presented
  | Ok presented =>
      match FindForVerification db c (TenantHint presented) (PresentedID presented) with
      | Err ErrKeyNotFound => reject_credential presented
      | Err e => (Err e, [])
      | Ok record =>
          let key := VKey record in
          match Verify set presented (KPepper key) (KDigest key) with
          | (Err e, work) => (Err e, work)
          | (Ok valid, work) =>
              if negb valid || negb (String.eqb (KID key) (PresentedID presented)) || negb (String.eqb (KTenant key) (TenantHint presented)) ||
                 negb (bool_decide (VTenant record = StateActive)) || negb (UsableAt key at_)
              then (Err ErrInvalidCredential, work)
              else if empty_string (KTenant key) then (Err ErrKeyState, work)
              else (Ok (mk_authority (KID key) (KTenant key) (KGrant key)), work)
          end
      end
  end.
End Service.
