(* ===== verification/AccessSafety.v ===== *)
(** * What the lifecycle of API keys guarantees

    Properties of every interleaving of administrators and bridges over the tables of
    [AccessStore], and of authentication against them: a credential authenticates
    while its key is live and never after, with the authority that was resolved for
    it, and the privileged audit trail is the history of the keys. *)

From S2P Require Import Prelude GoTime Ident Content Base64 Scope Access AccessStore AccessService.
From S2P Require Authority.
From Stdlib Require Import Ascii.
Import ScopeSpec.

(** ** Rows and the keys they restore *)
Module KeyRows.
Section KeyRows.
Context `{UL : Ident.Ulid} `{CU : !CanonicalUlid} `{CR : AccessCrypto} `{AD : AccessDatabase}.

Definition grant_of (row : KeyRow) : Grant := mk_grant (r_requested row) (r_resolved row).
Definition key_of (row : KeyRow) : Key :=
  mk_key (r_id row) (r_tenant row) (r_label row) (r_digest row) (r_pepper row) (grant_of row) (r_version row) (r_created row) (r_updated row)
    (r_expires row) (r_revoked row) (r_retired row) (default "" (r_replaces row)).

(** A row that restores to the key it was written from. *)
Definition readable (row : KeyRow) : Prop := row_valid row = true /\ restore row = Ok (key_of row) /\ row_of (key_of row) = row.

Lemma utc_idem (t : Time) : utc (utc t) = utc t. Proof. done. Qed.
Lemma utcCopy_idem (t : option Time) : utcCopy (utcCopy t) = utcCopy t. Proof. by destruct t. Qed.

Lemma id_format_parse (prefix : Ident.Prefix) (value : string) (i : Ident.Id prefix) : Ident.NewPrefix prefix = Ok prefix ->
  id_format (prefix +:+ "_") value = true -> Ident.parse_typed prefix value = Ok i -> Ident.id_string i = value.
Proof.
  intros Hp Hf Hv. unfold id_format in Hf. destruct (Ident.strip_prefix (prefix +:+ "_") value) as [rest|] eqn:Hs; [|done].
  apply andb_true_iff in Hf as [_ Hc]. unfold Ident.parse_typed, Ident.Parse in Hv. rewrite Hp in Hv. cbn [rbind] in Hv. rewrite Hs in Hv.
  destruct (Ident.ulid_parse_strict rest) as [u|] eqn:Hu; [|done]. injection Hv as <-. apply Ident.strip_prefix_Some in Hs as ->.
  unfold Ident.id_string, Ident.value_string. cbn [Ident.value Ident.v_prefix Ident.v_ulid]. rewrite (Ident.prefix_not_empty _ Hp).
  by rewrite (ulid_canonical _ _ Hu Hc), Ident.append_assoc.
Qed.

Lemma parse_key_id_format value k : id_format "key_" value = true -> parse_key_id value = Ok k -> k = value.
Proof.
  unfold parse_key_id. intros Hf Hp. destruct (Ident.ParseAPIKey value) as [i|] eqn:Hi; [|done]. injection Hp as <-. by apply (id_format_parse "key").
Qed.
Lemma parse_tenant_id_format value t : id_format "ten_" value = true -> parse_tenant_id value = Ok t -> t = value.
Proof.
  unfold parse_tenant_id. intros Hf Hp. destruct (Ident.ParseTenant value) as [i|] eqn:Hi; [|done]. injection Hp as <-. by apply (id_format_parse "ten").
Qed.

Lemma parse_key_id_ulid u : parse_key_id ("key_" +:+ Ident.ulid_string u) = Ok ("key_" +:+ Ident.ulid_string u).
Proof. unfold parse_key_id, Ident.ParseAPIKey. pose proof (KeyText.parse_ulid "key" u eq_refl) as Hp. change ("key_" +:+ Ident.ulid_string u) with ("key" +:+ "_" +:+ Ident.ulid_string u). unfold Ident.APIKeyPrefix. by rewrite Hp. Qed.

Lemma id_format_not_empty prefix value : id_format prefix value = true -> prefix <> ""%string -> empty_string value = false.
Proof.
  unfold id_format. intros Hf Hp. destruct value as [|c value]; [|done]. by destruct prefix.
Qed.

(** What [RestoreKey] asks. *)
Definition key_conditions (r : Key) : Prop :=
  empty_string (KID r) || empty_string (KTenant r) || digest_is_zero (KDigest r) || (KPepper r =? 0) || (KVersion r <? 1) ||
    is_zero (KCreated r) || before (KUpdated r) (KCreated r) = false /\
  validText (KLabel r) maxKeyLabelLength = true /\
  (llen (patterns (KGrant r)) =? 0) || (llen (granted (KGrant r)) =? 0) = false /\
  match KExpires r with Some e => negb (after e (KCreated r)) | None => false end = false /\
  negb (empty_string (KReplaces r)) && String.eqb (KReplaces r) (KID r) = false /\
  match KRevoked r with Some t => before t (KCreated r) || negb (instant t =? instant (KUpdated r)) | None => false end = false /\
  match KRetired r with Some t => before t (KUpdated r) | None => false end = false.

Lemma RestoreKey_Ok (r k : Key) : RestoreKey r = Ok k <-> k = utc_record r /\ key_conditions (utc_record r).
Proof.
  unfold RestoreKey, key_conditions, validateKeyLabel. set (u := utc_record r). rewrite reject_Ok, rbind_Ok. split.
  - intros (H1 & [] & Hl & Hr). rewrite reject_Ok, negb_false_iff in Hl. rewrite !reject_Ok in Hr. naive_solver.
  - intros (-> & H1 & H2 & H3). split; [done|]. exists (). rewrite reject_Ok, negb_false_iff, !reject_Ok. naive_solver.
Qed.

(** What [restore] asks beyond it. *)
Definition row_conditions (row : KeyRow) : Prop :=
  parse_key_id (r_id row) = Ok (r_id row) /\ parse_tenant_id (r_tenant row) = Ok (r_tenant row) /\ stored_grant (grant_of row) /\
  match r_replaces row with Some p => parse_key_id p = Ok p /\ empty_string p = false | None => True end /\
  utc (r_created row) = r_created row /\ utc (r_updated row) = r_updated row /\ utcCopy (r_expires row) = r_expires row /\
  utcCopy (r_revoked row) = r_revoked row /\ utcCopy (r_retired row) = r_retired row.

Lemma utc_key_of row : row_conditions row -> utc_record (key_of row) = key_of row.
Proof. intros (_ & _ & _ & _ & H1 & H2 & H3 & H4 & H5). unfold utc_record, key_of. cbn. by rewrite H1, H2, H3, H4, H5. Qed.

Lemma readable_intro row : row_valid row = true -> row_conditions row -> key_conditions (key_of row) -> readable row.
Proof.
  intros Hv Hc Hk. pose proof (utc_key_of row Hc) as Hu. destruct Hc as (C1 & C2 & C3 & C4 & C5 & C6 & C7 & C8 & C9).
  pose proof Hv as Hb. unfold row_valid in Hb. bprop. split_and!; [done| |].
  - unfold restore. rewrite C1, C2. cbn [rbind]. unfold ParseDigest.
    replace (slen (r_digest row) =? 32) with true by (symmetry; apply Z.eqb_eq; lia). cbn [negb rbind].
    rewrite (proj2 (Z.ltb_ge _ _)), (proj2 (Z.ltb_ge _ _)) by lia. cbn [orb]. unfold stored_grant in C3. cbn [grant_of patterns granted] in C3. rewrite C3. cbn [lift_scope rbind].
    assert (Hr : match r_replaces row with Some p => parse_key_id p | None => Ok ""%string end = Ok (default ""%string (r_replaces row))).
    { destruct (r_replaces row); [by destruct C4 as [-> _]|done]. }
    rewrite Hr. cbn [rbind]. apply RestoreKey_Ok. unfold utc_record. cbn [KID KTenant KLabel KDigest KPepper KGrant KVersion KCreated KUpdated KExpires KRevoked KRetired KReplaces].
    rewrite !utcCopy_idem, C5, C6, C7, C8, C9. done.
  - unfold row_of, key_of. cbn. rewrite C5, C6, C7, C8, C9. assert (Hr : optionalKeyID (default ""%string (r_replaces row)) = r_replaces row).
    { unfold optionalKeyID. destruct (r_replaces row) as [p|]; [|done]. destruct C4 as [_ Hp]. change (default ""%string (Some p)) with p. by rewrite Hp. }
    rewrite Hr. by destruct row.
Qed.

Lemma readable_elim row : readable row -> row_conditions row /\ key_conditions (key_of row).
Proof.
  intros (_ & Hr & Hk). unfold restore in Hr. go_inv Hr. apply RestoreKey_Ok in Hr as [Heq Hc].
  assert (Hlift : lift_scope (RestoreGrant (r_requested row) (r_resolved row)) = Ok v2) by done.
  destruct (RestoreGrant (r_requested row) (r_resolved row)) as [g|] eqn:Hrg; [|done]. injection Hlift as ->.
  rewrite <- Heq in Hc. split; [|done].
  assert (Hf := Heq). unfold key_of, utc_record in Hf.
  cbn [KID KTenant KLabel KDigest KPepper KGrant KVersion KCreated KUpdated KExpires KRevoked KRetired KReplaces] in Hf.
  injection Hf as F1 F2 F3 F4 F5 F6 F7 F8 F9 F10. unfold row_conditions.
  assert (Hgr : v2 = grant_of row) by (symmetry; exact F4).
  split_and!.
  - by rewrite F1 at 2.
  - by rewrite F2 at 2.
  - unfold stored_grant. rewrite <- Hgr. unfold grant_of in Hgr. rewrite Hgr. cbn [patterns granted]. by rewrite Hrg, <- Hgr.
  - destruct (r_replaces row) as [p|] eqn:Hp; [|done]. cbn in F10. split; [by rewrite F10 at 2|].
    unfold row_of, key_of in Hk. rewrite Hp in Hk. cbn in Hk. apply (f_equal r_replaces) in Hk. cbn in Hk. rewrite Hp in Hk. unfold optionalKeyID in Hk. by destruct (empty_string p).
  - done.
  - done.
  - by rewrite utcCopy_idem in F7.
  - by rewrite utcCopy_idem in F8.
  - by rewrite utcCopy_idem in F9.
Qed.

Lemma readable_lifecycle row version (updated : Time) (revoked retired : option Time) :
  let row' := lifecycle_row row version (utc updated) (utcCopy revoked) (utcCopy retired) in
  readable row -> row_valid row' = true -> readable row'.
Proof.
  intros row' Hr Hv. pose proof (readable_elim _ Hr) as [(C1 & C2 & C3 & C4 & C5 & C6 & C7 & C8 & C9) Hk].
  apply readable_intro; [done| |].
  - unfold row_conditions, row'. cbn. rewrite !utcCopy_idem. done.
  - pose proof Hv as Hb. unfold row_valid in Hb. bprop. unfold key_conditions in *. destruct Hk as (K1 & K2 & K3 & K4 & K5 & K6 & K7). unfold key_of, row' in *.
    cbn [KID KTenant KLabel KDigest KPepper KGrant KVersion KCreated KUpdated KExpires KRevoked KRetired KReplaces lifecycle_row r_id r_tenant r_label
         r_digest r_pepper r_requested r_resolved r_version r_created r_updated r_expires r_revoked r_retired r_replaces grant_of patterns granted] in *.
    split_and!; try done.
    + bprop. repeat (apply orb_false_iff; split); try done; [by apply Z.eqb_neq|apply Z.ltb_ge; lia].
    + clear Hv. destruct revoked as [t|]; [|done]. unfold before in *. cbn in *. bprop. apply orb_false_iff. split; [apply Z.ltb_ge; lia|].
      apply negb_false_iff, Z.eqb_eq. lia.
    + clear Hv. destruct retired as [t|]; [|done]. cbn in *. by bprop.
Qed.

(** A key that was restored from a record of existing identifiers reads back. *)
Lemma readable_created (record key : Key) : RestoreKey record = Ok key ->
  parse_key_id (KID key) = Ok (KID key) -> parse_tenant_id (KTenant key) = Ok (KTenant key) -> stored_grant (KGrant key) ->
  (KReplaces key = ""%string \/ parse_key_id (KReplaces key) = Ok (KReplaces key)) ->
  row_valid (row_of key) = true -> readable (row_of key) /\ key_of (row_of key) = key.
Proof.
  intros [-> Hc]%RestoreKey_Ok. set (key := utc_record record) in *. intros Hi Ht Hg Hp Hv.
  assert (Hrep : default ""%string (optionalKeyID (KReplaces key)) = KReplaces key).
  { unfold optionalKeyID, empty_string. destruct (String.eqb_spec (KReplaces key) "") as [->|]; done. }
  assert (Hk : key_of (row_of key) = key).
  { unfold key_of, row_of, grant_of. cbn [r_id r_tenant r_label r_digest r_pepper r_requested r_resolved r_version r_created r_updated r_expires r_revoked r_retired r_replaces].
    rewrite Hrep. unfold key, utc_record. cbn. rewrite !utcCopy_idem. destruct (KGrant record). done. }
  split; [|done]. apply readable_intro; [done| |by rewrite Hk].
  unfold row_conditions, grant_of. cbn [row_of r_id r_tenant r_label r_digest r_pepper r_requested r_resolved r_version r_created r_updated r_expires r_revoked r_retired r_replaces].
  rewrite !utcCopy_idem. split_and!; try done.
  - unfold stored_grant in *. by destruct (KGrant key).
  - unfold optionalKeyID. destruct (empty_string (KReplaces key)) eqn:He; [done|]. split; [|done].
    destruct Hp as [Hp|Hp]; [|done]. by rewrite Hp in He.
Qed.
End KeyRows.
End KeyRows.

(** ** The ledger of keys *)
Module KeyLedger.
Import KeyRows.
Section Ledger.
Context `{UL : Ident.Ulid} `{CU : !CanonicalUlid} `{CR : AccessCrypto} `{AD : AccessDatabase} (overlap : Z).

(** A row changes in its lifecycle only, and never takes a transition back. *)
Definition evolves (a b : KeyRow) : Prop :=
  b = lifecycle_row a (r_version b) (r_updated b) (r_revoked b) (r_retired b) /\ (a = b \/ r_version a < r_version b) /\
  (forall t, r_revoked a = Some t -> r_revoked b = Some t) /\ (forall t, r_retired a = Some t -> r_retired b = Some t).

Definition db_evolves (db db' : Database) : Prop :=
  (forall k row, keys db !! k = Some row -> exists row', keys db' !! k = Some row' /\ evolves row row') /\
  (forall t, tenants db' !! t = Some StateActive -> tenants db !! t = Some StateActive) /\
  (forall t s, tenants db !! t = Some s -> is_Some (tenants db' !! t)) /\
  (forall c row, commands db !! c = Some row -> commands db' !! c = Some row).

Definition flag (b : bool) : Z := if b then 1 else 0.
Definition counted (db : Database) (operation k : string) : nat :=
  length (filter (fun a => aa_action a = operation /\ aa_key a = Some k) (admin_audit db)).

(** What the audit rows of a key must say of its row. *)
Definition recorded (row : option KeyRow) (operation : string) : nat :=
  match row with
  | None => 0
  | Some row =>
      if String.eqb operation "issue" then (if is_some (r_replaces row) then 0 else 1)
      else if String.eqb operation "rotate" then (if is_some (r_retired row) then 1 else 0)
      else (if is_some (r_revoked row) then 1 else 0)
  end.

(** The predecessor of a key ends within the overlap, before its successor does. *)
Definition succeeded (db : Database) (row : KeyRow) (p : string) : Prop := exists predecessor t,
  keys db !! p = Some predecessor /\ r_tenant predecessor = r_tenant row /\ r_retired predecessor = Some t /\
  instant (r_created row) < instant t <= instant (r_created row) + overlap /\ (forall e, r_expires row = Some e -> instant t < instant e).

Record ledger (db : Database) : Prop := {
  g_tenants t s : tenants db !! t = Some s -> parse_tenant_id t = Ok t;
  g_rows k row : keys db !! k = Some row -> r_id row = k /\ readable row /\ r_version row = 1 + flag (is_some (r_revoked row)) + flag (is_some (r_retired row));
  g_successor k row p : keys db !! k = Some row -> r_replaces row = Some p -> succeeded db row p;
  g_single k k' row row' p : keys db !! k = Some row -> keys db !! k' = Some row' -> r_replaces row = Some p -> r_replaces row' = Some p -> k = k';
  g_retired k row : keys db !! k = Some row -> is_some (r_retired row) = true -> exists k' row', keys db !! k' = Some row' /\ r_replaces row' = Some k;
  g_audit k operation : operation ∈ ["issue"; "rotate"; "revoke"]%string -> counted db operation k = recorded (keys db !! k) operation;
  g_commands c row : commands db !! c = Some row ->
    (exists x, keys db !! c_key row = Some x /\ r_tenant x = c_tenant row) /\ (c_delivery row = None <-> c_operation row = "revoke"%string);
}.

Lemma evolves_refl row : evolves row row.
Proof. unfold evolves. split; [by destruct row|]. auto. Qed.
Lemma evolves_trans a b c : evolves a b -> evolves b c -> evolves a c.
Proof.
  intros (B1 & B2 & B3 & B4) (C1 & C2 & C3 & C4). unfold evolves. split_and!; auto.
  - rewrite C1 at 1. by rewrite B1.
  - destruct B2 as [->|B2]; [done|]. right. destruct C2 as [<-|C2]; [done|lia].
Qed.
Lemma db_evolves_refl db : db_evolves db db.
Proof. unfold db_evolves. split_and!; eauto using evolves_refl. Qed.
Lemma db_evolves_trans a b c : db_evolves a b -> db_evolves b c -> db_evolves a c.
Proof.
  intros (A1 & A2 & A3 & A4) (B1 & B2 & B3 & B4). split_and!; eauto.
  - intros k row Hr. destruct (A1 k row Hr) as (row1 & Hr1 & E1). destruct (B1 k row1 Hr1) as (row2 & Hr2 & E2). eauto using evolves_trans.
  - intros t s Ht. destruct (A3 t s Ht) as [s1 Hs1]. eauto.
Qed.

Lemma evolves_identity a b : evolves a b -> r_id b = r_id a /\ r_tenant b = r_tenant a /\ r_requested b = r_requested a /\ r_resolved b = r_resolved a /\
  r_digest b = r_digest a /\ r_pepper b = r_pepper a /\ r_created b = r_created a /\ r_expires b = r_expires a /\ r_replaces b = r_replaces a.
Proof. intros (-> & _). done. Qed.

Lemma evolves_replaces a b : evolves a b -> r_replaces b = r_replaces a.
Proof. by intros (-> & _). Qed.

(** *** The writes of the store *)

Lemma create_Ok db key db' : create db key = Ok db' ->
  tenants db !! KTenant key = Some StateActive /\ keys db !! KID key = None /\ row_valid (row_of key) = true /\
  replacement_valid db (row_of key) = true /\ db' = with_keys db (<[KID key := row_of key]> (keys db)).
Proof.
  unfold create. intros Hc. go_inv Hc. bprop. split_and!; try done. change (r_id (row_of key)) with (KID key) in *.
  by destruct (keys db !! KID key).
Qed.

Lemma saveLifecycle_Ok db key expected db' : saveLifecycle db key expected = Ok db' -> exists row,
  keys db !! KID key = Some row /\
  lifecycle_condition row (KTenant key) expected (KVersion key) (utc (KUpdated key)) (utcCopy (KRevoked key)) (utcCopy (KRetired key)) = true /\
  row_valid (lifecycle_row row (KVersion key) (utc (KUpdated key)) (utcCopy (KRevoked key)) (utcCopy (KRetired key))) = true /\
  db' = with_keys db (<[KID key := lifecycle_row row (KVersion key) (utc (KUpdated key)) (utcCopy (KRevoked key)) (utcCopy (KRetired key))]> (keys db)).
Proof.
  unfold saveLifecycle. destruct (keys db !! KID key) as [row|]; [|done]. intros Hs. apply reject_Ok in Hs as [Hc Hs]. apply reject_Ok in Hs as [Hv [= <-]].
  exists row. apply negb_false_iff in Hc, Hv. done.
Qed.

Lemma insertAdminAudit_Ok db action tenant key operation db' : insertAdminAudit db action tenant key operation = Ok db' ->
  exists row, db' = with_admin_audit db (admin_audit db ++ [row]) /\ aa_key row = optionalKeyID key /\ aa_action row = operation.
Proof. unfold insertAdminAudit. intros Ha. go_inv Ha. eexists. split_and!; done. Qed.

Lemma insert_command_Ok db c row db' : insert_command db c row = Ok db' ->
  commands db !! c = None /\ (exists x, keys db !! c_key row = Some x /\ r_tenant x = c_tenant row) /\ db' = with_commands db (<[c := row]> (commands db)).
Proof.
  unfold insert_command. intros Hc. go_inv Hc. bprop. split_and!; try done.
  - by destruct (commands db !! c).
  - destruct (keys db !! c_key row) as [x|]; [|done]. bprop. eauto.
Qed.

(** The new audit row is counted under its operation and key. *)
Definition names (row : AdminAudit) (operation k : string) : bool := String.eqb (aa_action row) operation && bool_decide (aa_key row = Some k).
Lemma counted_snoc db row operation k :
  counted (with_admin_audit db (admin_audit db ++ [row])) operation k = (counted db operation k + if names row operation k then 1 else 0)%nat.
Proof.
  unfold counted, names. cbn [admin_audit with_admin_audit]. rewrite filter_app, length_app. f_equal. rewrite filter_cons, filter_nil.
  destruct (decide (aa_action row = operation /\ aa_key row = Some k)) as [[-> ->]|Hd].
  - by rewrite String.eqb_refl, bool_decide_eq_true_2.
  - destruct (String.eqb_spec (aa_action row) operation); [|done]. by rewrite bool_decide_eq_false_2 by naive_solver.
Qed.
Lemma names_eq row operation k : aa_key row = Some k -> names row operation k = String.eqb (aa_action row) operation.
Proof. intros Hk. unfold names. by rewrite Hk, bool_decide_eq_true_2, andb_true_r. Qed.
Lemma names_ne row operation k k' : aa_key row = Some k' -> k <> k' -> names row operation k = false.
Proof. intros Hk Hne. unfold names. rewrite Hk, bool_decide_eq_false_2 by naive_solver. apply andb_false_r. Qed.

(** The three audited changes. *)
Lemma three_operations (P : string -> Prop) operation :
  P "issue"%string -> P "rotate"%string -> P "revoke"%string -> operation ∈ ["issue"; "rotate"; "revoke"]%string -> P operation.
Proof. intros H1 H2 H3 Hop. by repeat (apply elem_of_cons in Hop as [->|Hop]; [done|]); apply not_elem_of_nil in Hop. Qed.

(** A key that some worker has read, whatever became of its row since. *)
Definition seen (db : Database) (key : Key) : Prop :=
  readable (row_of key) /\ key_of (row_of key) = key /\ exists row, keys db !! KID key = Some row /\ evolves (row_of key) row.

Lemma seen_evolves db db' key : seen db key -> db_evolves db db' -> seen db' key.
Proof.
  intros (Hr & Hk & row & Hrow & He) (Hd & _). split_and!; try done. destruct (Hd _ _ Hrow) as (row' & Hrow' & He').
  exists row'. eauto using evolves_trans.
Qed.

(** A lifecycle change of a key that was read is applied to the row as it was read. *)
Lemma save_seen db key updated revoked retired db' : seen db key ->
  saveLifecycle db (with_lifecycle key updated revoked retired) (KVersion key) = Ok db' ->
  keys db !! KID key = Some (row_of key) /\
  lifecycle_condition (row_of key) (KTenant key) (KVersion key) (KVersion key + 1) (utc updated) (utcCopy revoked) (utcCopy retired) = true /\
  row_valid (lifecycle_row (row_of key) (KVersion key + 1) (utc updated) (utcCopy revoked) (utcCopy retired)) = true /\
  db' = with_keys db (<[KID key := lifecycle_row (row_of key) (KVersion key + 1) (utc updated) (utcCopy revoked) (utcCopy retired)]> (keys db)).
Proof.
  intros (_ & _ & row & Hrow & (_ & Hver & _)) (row' & Hl & Hc & Hv & Hd)%saveLifecycle_Ok. cbn [with_lifecycle KID KTenant KVersion KUpdated KRevoked KRetired] in *.
  rewrite Hrow in Hl. injection Hl as <-. assert (Hsame : row_of key = row).
  { destruct Hver as [?|Hver]; [done|]. unfold lifecycle_condition in Hc. bprop. change (r_version (row_of key)) with (KVersion key) in Hver. lia. }
  by rewrite Hsame.
Qed.

Lemma succeeded_evolves db db' row row' p : succeeded db row p -> db_evolves db db' -> evolves row row' -> succeeded db' row' p.
Proof.
  intros (predecessor & t & Hp & Ht & Hr & Hb & He) (Hd & _) Hrow. destruct (Hd _ _ Hp) as (predecessor' & Hp' & Hep).
  pose proof (evolves_identity _ _ Hrow) as (_ & I2 & _ & _ & _ & _ & I7 & I8 & _). pose proof (evolves_identity _ _ Hep) as (_ & J2 & _).
  exists predecessor', t. rewrite I2, I7, I8, J2. split_and!; try done; try lia. destruct Hep as (_ & _ & _ & Hret). by apply Hret.
Qed.

(** A key as [build] makes it. *)
Definition fresh_key (key : Key) : Prop :=
  readable (row_of key) /\ key_of (row_of key) = key /\ KVersion key = 1 /\ KRevoked key = None /\ KRetired key = None.

Lemma not_empty_key (key : Key) : row_valid (row_of key) = true -> empty_string (KID key) = false.
Proof. intros Hv. unfold row_valid in Hv. bprop. by eapply id_format_not_empty. Qed.

Lemma replaces_ne row p : row_valid row = true -> r_replaces row = Some p -> p <> r_id row.
Proof. intros Hv Hp. unfold row_valid in Hv. rewrite Hp in Hv. bprop. done. Qed.

Lemma insert_evolves db k row : keys db !! k = None -> db_evolves db (with_keys db (<[k := row]> (keys db))).
Proof.
  intros Hk. split_and!; cbn [keys tenants commands with_keys]; eauto. intros k' row' Hr. exists row'. split; [|apply evolves_refl].
  rewrite lookup_insert_ne; [done|]. intros ->. by rewrite Hk in Hr.
Qed.
Lemma update_evolves db k row row' : keys db !! k = Some row -> evolves row row' -> db_evolves db (with_keys db (<[k := row']> (keys db))).
Proof.
  intros Hk He. split_and!; cbn [keys tenants commands with_keys]; eauto. intros k' row0 Hr. destruct (decide (k' = k)) as [->|Hne].
  - rewrite Hk in Hr. injection Hr as <-. exists row'. by rewrite lookup_insert_eq.
  - exists row0. rewrite lookup_insert_ne by done. split; [done|apply evolves_refl].
Qed.
Lemma audit_evolves db rows : db_evolves db (with_admin_audit db rows).
Proof. split_and!; cbn; eauto using evolves_refl. Qed.

Lemma ledger_issue db key action scope db1 db2 : ledger db -> fresh_key key -> KReplaces key = ""%string ->
  create db key = Ok db1 -> insertAdminAudit db1 action scope (KID key) "issue" = Ok db2 ->
  ledger db2 /\ db_evolves db db2 /\ keys db2 !! KID key = Some (row_of key).
Proof.
  intros Hl (Hread & Hkey & Hver & Hrev & Hret) Hrep (Hact & Hnone & Hv & _ & ->)%create_Ok (arow & -> & Hak & Haa)%insertAdminAudit_Ok.
  set (db1 := with_keys db (<[KID key := row_of key]> (keys db))).
  assert (He1 : db_evolves db db1) by (by apply insert_evolves).
  assert (He : db_evolves db (with_admin_audit db1 (admin_audit db1 ++ [arow]))) by (eapply db_evolves_trans; [done|apply audit_evolves]).
  unfold optionalKeyID in Hak. rewrite (not_empty_key _ Hv) in Hak.
  assert (Hrr : r_replaces (row_of key) = None) by (cbn; by rewrite Hrep).
  assert (Hrt : r_retired (row_of key) = None) by (cbn; by rewrite Hret).
  assert (Hrv : r_revoked (row_of key) = None) by (cbn; by rewrite Hrev).
  assert (Hrow : forall k row, keys db1 !! k = Some row -> (k = KID key /\ row = row_of key) \/ keys db !! k = Some row).
  { intros k row. cbn [db1 keys with_keys]. rewrite lookup_insert_Some. naive_solver. }
  split; [|split; [done|apply lookup_insert_eq]]. split; cbn [keys tenants commands with_admin_audit].
  - apply (g_tenants _ Hl).
  - intros k row [[-> ->]|Hr]%Hrow; [|by apply (g_rows _ Hl)]. split_and!; [done|done|]. rewrite Hrv, Hrt. done.
  - intros k row p [[-> ->]|Hr]%Hrow Hp; [by rewrite Hrr in Hp|]. apply (succeeded_evolves db _ row); [|done|apply evolves_refl]. by apply (g_successor _ Hl k).
  - intros k k' row row' p [[-> ->]|Hr]%Hrow [[-> ->]|Hr']%Hrow Hp Hp'; rewrite ?Hrr in *; try done. by apply (g_single _ Hl k k' row row' p).
  - intros k row [[-> ->]|Hr]%Hrow Ht; [by rewrite Hrt in Ht|]. destruct (g_retired _ Hl k row Hr Ht) as (k' & row' & Hk' & Hp).
    exists k', row'. split; [|done]. cbn [db1 keys with_keys]. rewrite lookup_insert_ne; [done|]. intros <-. by rewrite Hnone in Hk'.
  - intros k operation Hop. rewrite counted_snoc. change (counted db1 operation k) with (counted db operation k). rewrite (g_audit _ Hl _ _ Hop).
    cbn [db1 keys with_keys]. destruct (decide (k = KID key)) as [->|Hne].
    + rewrite Hnone, lookup_insert_eq, (names_eq _ _ _ Hak), Haa. unfold recorded. rewrite Hrr, Hrt, Hrv.
      pattern operation. by apply three_operations.
    + rewrite lookup_insert_ne by done. rewrite (names_ne _ _ _ _ Hak Hne). lia.
  - intros c row Hc. destruct (g_commands _ Hl c row Hc) as [(x & Hx & Ht) Hd]. split; [|done]. exists x. split; [|done].
    cbn [db1 keys with_keys]. rewrite lookup_insert_ne; [done|]. intros Hk. by rewrite Hk, Hx in Hnone.
Qed.

Lemma keys_with_audit db rows : keys (with_admin_audit db rows) = keys db. Proof. done. Qed.
Lemma commands_kept db db' : ledger db -> db_evolves db db' -> commands db' = commands db -> forall c row, commands db' !! c = Some row ->
  (exists x, keys db' !! c_key row = Some x /\ r_tenant x = c_tenant row) /\ (c_delivery row = None <-> c_operation row = "revoke"%string).
Proof.
  intros Hl (Hd & _) Hc c row Hr. rewrite Hc in Hr. destruct (g_commands _ Hl c row Hr) as [(x & Hx & Ht) Hdel]. split; [|done].
  destruct (Hd _ _ Hx) as (x' & Hx' & He). exists x'. split; [done|]. pose proof (evolves_identity _ _ He) as (_ & I & _). congruence.
Qed.
Lemma retired_kept db db' : ledger db -> db_evolves db db' -> forall k row, keys db !! k = Some row -> is_some (r_retired row) = true ->
  exists k' row', keys db' !! k' = Some row' /\ r_replaces row' = Some k.
Proof.
  intros Hl (Hd & _) k row Hr Ht. destruct (g_retired _ Hl k row Hr Ht) as (k' & row' & Hr' & Hp). destruct (Hd _ _ Hr') as (row2 & Hr2 & He).
  exists k', row2. pose proof (evolves_identity _ _ He) as I. split; [done|]. by destruct I as (_ & _ & _ & _ & _ & _ & _ & _ & ->).
Qed.

(** The lifecycle condition, and the row it leads to. *)
Lemma lifecycle_evolves row tenant expected version updated revoked retired :
  lifecycle_condition row tenant expected version updated revoked retired = true ->
  (forall t, r_retired row = Some t -> retired = Some t) ->
  evolves row (lifecycle_row row version updated revoked retired) /\ r_revoked row = None.
Proof.
  unfold lifecycle_condition. intros Hc Hret. bprop. unfold evolves. cbn. destruct revoked as [t|]; bprop.
  - destruct (r_revoked row); [done|]. split_and!; try done. right. lia.
  - destruct (r_revoked row); [done|]. split_and!; try done. right. lia.
Qed.

(** What a rotation leaves: the successor is inserted, the predecessor as it was read
    is scheduled, and every other row stays. *)
Definition scheduled_row (predecessor : Key) (updated retirement : Time) : KeyRow :=
  lifecycle_row (row_of predecessor) (KVersion predecessor + 1) (utc updated) None (Some (utc retirement)).
Record rotation_effect (db db1 : Database) (predecessor successor : Key) (updated retirement : Time) : Prop := {
  re_old : keys db !! KID predecessor = Some (row_of predecessor);
  re_none : keys db !! KID successor = None;
  re_evolves : evolves (row_of predecessor) (scheduled_row predecessor updated retirement);
  re_valid : row_valid (scheduled_row predecessor updated retirement) = true;
  re_lively : r_retired (row_of predecessor) = None /\ r_revoked (row_of predecessor) = None;
  re_distinct : KID predecessor <> KID successor;
  re_replaces : r_replaces (row_of successor) = Some (KID predecessor);
  re_active : tenants db !! KTenant successor = Some StateActive;
  re_new : db1 = with_keys db (<[KID predecessor := scheduled_row predecessor updated retirement]> (<[KID successor := row_of successor]> (keys db)));
}.

Lemma rotate_body_effect db predecessor successor updated retirement db1 : seen db predecessor -> KReplaces successor = KID predecessor ->
  rotate_body db (with_lifecycle predecessor updated None (Some retirement)) (KVersion predecessor) successor = Ok db1 ->
  rotation_effect db db1 predecessor successor updated retirement.
Proof.
  intros Hseen Hrep Hbody. unfold rotate_body in Hbody. apply rbind_Ok in Hbody as (dbc & (Hact & Hnone & Hv & _ & ->)%create_Ok & Hsave).
  apply (save_seen _ _ _ _ _ _ (seen_evolves _ _ _ Hseen (insert_evolves _ _ _ Hnone))) in Hsave as (Hpre & Hcond & Hval & ->).
  assert (Hnret : r_retired (row_of predecessor) = None).
  { unfold lifecycle_condition in Hcond. cbn [utcCopy option_map] in Hcond. bprop. by destruct (r_retired (row_of predecessor)). }
  destruct (lifecycle_evolves _ _ _ _ _ _ _ Hcond) as [Hev Hnrev]; [by rewrite Hnret|].
  assert (Hpemp : empty_string (KID predecessor) = false) by (apply not_empty_key, Hseen).
  assert (Hrr : r_replaces (row_of successor) = Some (KID predecessor)) by (cbn; unfold optionalKeyID; by rewrite Hrep, Hpemp).
  assert (Hne : KID predecessor <> KID successor) by (by apply (replaces_ne (row_of successor))).
  cbn [keys with_keys] in Hpre. rewrite lookup_insert_ne in Hpre by done. by split.
Qed.

Section Rotation.
Context (db db1 : Database) (predecessor successor : Key) (updated retirement : Time) (arow : AdminAudit).
Context (Hl : ledger db) (Hf : fresh_key successor) (Hre : rotation_effect db db1 predecessor successor updated retirement).
Context (Hten : KTenant successor = KTenant predecessor)
  (Hb : instant (KCreated successor) < instant retirement <= instant (KCreated successor) + overlap)
  (Hexp : forall e, KExpires successor = Some e -> instant retirement < instant e)
  (Hak : aa_key arow = Some (KID predecessor)) (Haa : aa_action arow = "rotate"%string).
Notation row' := (scheduled_row predecessor updated retirement).
Notation db2 := (with_admin_audit db1 (admin_audit db1 ++ [arow])).

Lemma rotation_evolves : db_evolves db db2.
Proof.
  destruct Hre as [Hold Hnone Hev _ _ Hne _ _ ->]. eapply db_evolves_trans; [apply (insert_evolves _ _ (row_of successor) Hnone)|].
  eapply db_evolves_trans; [|apply audit_evolves]. apply (update_evolves (with_keys db _) _ (row_of predecessor)); [|done].
  cbn [keys with_keys]. by rewrite lookup_insert_ne.
Qed.

Lemma rotation_rows k row : keys db2 !! k = Some row ->
  (k = KID predecessor /\ row = row') \/ (k = KID successor /\ row = row_of successor) \/ (k <> KID predecessor /\ k <> KID successor /\ keys db !! k = Some row).
Proof. rewrite keys_with_audit, (re_new _ _ _ _ _ _ Hre). cbn [keys with_keys]. rewrite !lookup_insert_Some. naive_solver. Qed.

Lemma rotation_lookup : keys db2 !! KID predecessor = Some row' /\ keys db2 !! KID successor = Some (row_of successor).
Proof.
  pose proof (re_distinct _ _ _ _ _ _ Hre). rewrite keys_with_audit, (re_new _ _ _ _ _ _ Hre). cbn [keys with_keys]. split; [apply lookup_insert_eq|].
  rewrite lookup_insert_ne by done. apply lookup_insert_eq.
Qed.

Lemma fresh_columns : r_retired (row_of successor) = None /\ r_revoked (row_of successor) = None.
Proof. destruct Hf as (_ & _ & _ & Hrev & Hret). cbn. by rewrite Hrev, Hret. Qed.

Lemma rotation_versions k row : keys db2 !! k = Some row ->
  r_id row = k /\ readable row /\ r_version row = 1 + flag (is_some (r_revoked row)) + flag (is_some (r_retired row)).
Proof.
  destruct fresh_columns as [Hrt Hrv]. destruct (re_lively _ _ _ _ _ _ Hre) as [Hnret Hnrev].
  pose proof (g_rows _ Hl _ _ (re_old _ _ _ _ _ _ Hre)) as (_ & Hpread & Hpver). intros [[-> ->]|[[-> ->]|(_ & _ & Hr)]]%rotation_rows.
  - split; [done|]. split; [apply (readable_lifecycle _ _ updated None (Some retirement)); [done|apply Hre]|].
    unfold scheduled_row. cbn. rewrite Hnrev, Hnret in Hpver. cbn in Hpver. lia.
  - destruct Hf as (? & _ & ? & _). split_and!; [done|done|]. by rewrite Hrv, Hrt.
  - by apply (g_rows _ Hl).
Qed.

Lemma rotation_succeeds k row p : keys db2 !! k = Some row -> r_replaces row = Some p -> succeeded db2 row p.
Proof.
  intros [[-> ->]|[[-> ->]|(_ & _ & Hr)]]%rotation_rows Hp.
  - apply (succeeded_evolves db _ (row_of predecessor)); [|apply rotation_evolves|apply Hre]. by apply (g_successor _ Hl (KID predecessor)); [apply Hre|].
  - rewrite (re_replaces _ _ _ _ _ _ Hre) in Hp. injection Hp as <-. exists row', (utc retirement). split; [apply rotation_lookup|].
    unfold scheduled_row. cbn. split_and!; try done; try lia. intros e He. destruct (KExpires successor) as [e'|]; [|done]. injection He as <-. exact (Hexp e' eq_refl).
  - apply (succeeded_evolves db _ row); [|apply rotation_evolves|apply evolves_refl]. by apply (g_successor _ Hl k).
Qed.

(** No key replaced the predecessor before. *)
Lemma rotation_single k row p : keys db2 !! k = Some row -> r_replaces row = Some p ->
  (k = KID successor /\ p = KID predecessor) \/ (p <> KID predecessor /\ exists row0, keys db !! k = Some row0 /\ r_replaces row0 = Some p).
Proof.
  pose proof (re_old _ _ _ _ _ _ Hre) as Hold. destruct (re_lively _ _ _ _ _ _ Hre) as [Hnret _].
  assert (Hno : forall k row, keys db !! k = Some row -> r_replaces row <> Some (KID predecessor)).
  { intros j x Hj Hp. destruct (g_successor _ Hl _ _ _ Hj Hp) as (y & t & Hy & _ & Hyt & _). rewrite Hold in Hy. injection Hy as <-. by rewrite Hnret in Hyt. }
  intros [[-> ->]|[[-> ->]|(_ & _ & Hr)]]%rotation_rows Hp.
  - right. split; [|by exists (row_of predecessor)]. intros ->. by apply (Hno _ _ Hold).
  - left. rewrite (re_replaces _ _ _ _ _ _ Hre) in Hp. naive_solver.
  - right. split; [|eauto]. intros ->. by apply (Hno _ _ Hr).
Qed.

Lemma rotation_audited k operation : operation ∈ ["issue"; "rotate"; "revoke"]%string -> counted db2 operation k = recorded (keys db2 !! k) operation.
Proof.
  intros Hop. destruct fresh_columns as [Hrt Hrv]. destruct (re_lively _ _ _ _ _ _ Hre) as [Hnret Hnrev]. destruct rotation_lookup as [Hkp Hks].
  pose proof (re_new _ _ _ _ _ _ Hre) as Hdb. rewrite counted_snoc.
  replace (counted db1 operation k) with (counted db operation k) by (by rewrite Hdb). rewrite (g_audit _ Hl _ _ Hop).
  destruct (decide (k = KID predecessor)) as [->|Hnp].
  - rewrite (re_old _ _ _ _ _ _ Hre), Hkp, (names_eq _ _ _ Hak), Haa. unfold recorded, scheduled_row. cbn [lifecycle_row r_replaces r_retired r_revoked].
    change (is_some (r_replaces (row_of predecessor))) with (is_some (optionalKeyID (KReplaces predecessor))). rewrite Hnret, Hnrev.
    pattern operation. apply three_operations; [|done|done|done]. cbn. lia.
  - rewrite (names_ne _ _ _ _ Hak Hnp), Nat.add_0_r. destruct (decide (k = KID successor)) as [->|Hns].
    + rewrite (re_none _ _ _ _ _ _ Hre), Hks. unfold recorded. rewrite (re_replaces _ _ _ _ _ _ Hre), Hrt, Hrv. pattern operation. by apply three_operations.
    + rewrite keys_with_audit, Hdb. cbn [keys with_keys]. by rewrite !lookup_insert_ne by done.
Qed.

Lemma rotation_ledger : ledger db2.
Proof.
  assert (Hc : commands db2 = commands db) by (cbn; by rewrite (re_new _ _ _ _ _ _ Hre)).
  split.
  - intros t s. cbn. rewrite (re_new _ _ _ _ _ _ Hre). apply (g_tenants _ Hl).
  - apply rotation_versions.
  - apply rotation_succeeds.
  - intros k k' row1 row2 p Hk Hk' Hp Hp'.
    destruct (rotation_single _ _ _ Hk Hp) as [[-> ->]|(Hn & r1 & Hr1 & Hp1)], (rotation_single _ _ _ Hk' Hp') as [[-> ?]|(Hn' & r2 & Hr2 & Hp2)]; try done.
    by apply (g_single _ Hl k k' r1 r2 p).
  - intros k row [[-> ->]|[[-> ->]|(_ & _ & Hr)]]%rotation_rows Ht.
    + exists (KID successor), (row_of successor). split; [apply rotation_lookup|apply Hre].
    + by rewrite (proj1 fresh_columns) in Ht.
    + by apply (retired_kept db _ Hl rotation_evolves k row).
  - apply rotation_audited.
  - exact (commands_kept db db2 Hl rotation_evolves Hc).
Qed.
End Rotation.

Lemma ledger_rotate db predecessor successor updated retirement action scope db1 db2 : ledger db -> seen db predecessor -> fresh_key successor ->
  KReplaces successor = KID predecessor -> KTenant successor = KTenant predecessor ->
  instant (KCreated successor) < instant retirement <= instant (KCreated successor) + overlap ->
  (forall e, KExpires successor = Some e -> instant retirement < instant e) ->
  rotate_body db (with_lifecycle predecessor updated None (Some retirement)) (KVersion predecessor) successor = Ok db1 ->
  insertAdminAudit db1 action scope (KID predecessor) "rotate" = Ok db2 ->
  ledger db2 /\ db_evolves db db2 /\ keys db2 !! KID successor = Some (row_of successor).
Proof.
  intros Hl Hseen Hf Hrep Hten Hb Hexp Hre%rotate_body_effect (arow & -> & Hak & Haa)%insertAdminAudit_Ok; [|done|done].
  unfold optionalKeyID in Hak. rewrite (not_empty_key predecessor) in Hak by apply Hseen.
  split; [by eapply rotation_ledger|]. split; [by eapply rotation_evolves|]. by eapply rotation_lookup.
Qed.

Lemma ledger_revoke db key updated action scope db1 db2 : ledger db -> seen db key ->
  saveLifecycle db (with_lifecycle key updated (Some updated) (KRetired key)) (KVersion key) = Ok db1 ->
  insertAdminAudit db1 action scope (KID key) "revoke" = Ok db2 ->
  ledger db2 /\ db_evolves db db2 /\ exists row, keys db2 !! KID key = Some row /\ is_some (r_revoked row) = true.
Proof.
  intros Hl Hseen Hsave%save_seen (arow & -> & Hak & Haa)%insertAdminAudit_Ok; [|done]. destruct Hsave as (Hold & Hcond & Hval & ->).
  set (row' := lifecycle_row (row_of key) (KVersion key + 1) (utc updated) (utcCopy (Some updated)) (utcCopy (KRetired key))) in *.
  destruct (lifecycle_evolves _ _ _ _ _ _ _ Hcond) as [Hev Hnrev]; [by intros t Ht|]. fold row' in Hev.
  unfold optionalKeyID in Hak. rewrite (not_empty_key key) in Hak by apply Hseen. pose proof (g_rows _ Hl _ _ Hold) as (_ & Hkread & Hkver).
  set (db1 := with_keys db (<[KID key := row']> (keys db))). set (db2 := with_admin_audit db1 (admin_audit db1 ++ [arow])).
  assert (He : db_evolves db db2) by (eapply db_evolves_trans; [exact (update_evolves db (KID key) (row_of key) row' Hold Hev)|apply audit_evolves]).
  assert (Hk : keys db2 !! KID key = Some row') by apply lookup_insert_eq.
  assert (Hrow : forall k row, keys db2 !! k = Some row -> exists row0, keys db !! k = Some row0 /\ evolves row0 row /\ r_retired row = r_retired row0 /\
            (k = KID key /\ row = row' \/ k <> KID key /\ row = row0)).
  { intros k row. change (keys db2) with (<[KID key := row']> (keys db)). rewrite lookup_insert_Some. intros [[<- <-]|[Hne Hr]].
    - exists (row_of key). split_and!; try done. by left.
    - exists row. split_and!; try done; [apply evolves_refl|by right]. }
  split; [|split; [done|by exists row']]. split.
  - apply (g_tenants _ Hl).
  - intros k row (row0 & Hr & _ & _ & [[-> ->]|[_ ->]])%Hrow; [|by apply (g_rows _ Hl)].
    split; [done|]. split; [by apply readable_lifecycle|]. rewrite Hnrev in Hkver. unfold row'. cbn in *. lia.
  - intros k row p (row0 & Hr & Hee & _)%Hrow Hp. apply (succeeded_evolves db _ row0); [|done|done]. apply (g_successor _ Hl k); [done|].
    by rewrite <- (evolves_replaces _ _ Hee).
  - intros k k' row1 row2 p (r1 & Hr1 & E1 & _)%Hrow (r2 & Hr2 & E2 & _)%Hrow Hp Hp'.
    rewrite (evolves_replaces _ _ E1) in Hp. rewrite (evolves_replaces _ _ E2) in Hp'. by apply (g_single _ Hl k k' r1 r2 p).
  - intros k row (row0 & Hr & _ & Hret & _)%Hrow Ht. rewrite Hret in Ht. by apply (retired_kept db _ Hl He k row0).
  - intros k operation Hop. unfold db2. rewrite counted_snoc. change (counted db1 operation k) with (counted db operation k). rewrite (g_audit _ Hl _ _ Hop).
    fold db2. destruct (decide (k = KID key)) as [->|Hne].
    + rewrite Hold, Hk, (names_eq _ _ _ Hak), Haa. unfold recorded, row'. cbn [lifecycle_row r_replaces r_retired r_revoked utcCopy option_map].
      rewrite Hnrev. pattern operation. apply three_operations; [|done|done|done]; cbn; lia.
    + rewrite (names_ne _ _ _ _ Hak Hne), Nat.add_0_r. change (keys db2) with (<[KID key := row']> (keys db)). by rewrite lookup_insert_ne.
  - exact (commands_kept db db2 Hl He eq_refl).
Qed.

Lemma names_none row operation k : aa_key row = None -> names row operation k = false.
Proof. intros Hk. unfold names. rewrite Hk, bool_decide_eq_false_2 by done. apply andb_false_r. Qed.

Lemma ledger_list db action scope db' : ledger db -> insertAdminAudit db action scope "" "list" = Ok db' -> ledger db' /\ db_evolves db db'.
Proof.
  intros Hl (arow & -> & Hak & Haa)%insertAdminAudit_Ok. split; [|apply audit_evolves].
  split; [apply (g_tenants _ Hl)|apply (g_rows _ Hl)|apply (g_successor _ Hl)|apply (g_single _ Hl)|apply (g_retired _ Hl)| |apply (g_commands _ Hl)].
  intros k operation Hop. rewrite counted_snoc, (names_none _ _ _ Hak), Nat.add_0_r. by apply (g_audit _ Hl).
Qed.

Lemma ledger_command db c row db' : ledger db -> insert_command db c row = Ok db' -> (c_delivery row = None <-> c_operation row = "revoke"%string) ->
  ledger db' /\ db_evolves db db' /\ keys db' = keys db /\ commands db' = <[c := row]> (commands db).
Proof.
  intros Hl (Hnone & Hkey & ->)%insert_command_Ok Hdel. split; [|split; [|done]].
  - split; [apply (g_tenants _ Hl)|apply (g_rows _ Hl)|apply (g_successor _ Hl)|apply (g_single _ Hl)|apply (g_retired _ Hl)|apply (g_audit _ Hl)|].
    intros c' row' Hc. cbn [commands with_commands] in Hc. apply lookup_insert_Some in Hc as [[<- <-]|[_ Hc]]; [done|]. by apply (g_commands _ Hl c').
  - split_and!; cbn [keys tenants commands with_commands]; eauto using evolves_refl. intros c' row' Hc. rewrite lookup_insert_ne; [done|]. intros <-. by rewrite Hnone in Hc.
Qed.

Lemma ledger_disable db tenant : ledger db -> tenants db !! tenant = Some StateActive ->
  let db' := with_tenants db (<[tenant := StateDisabled]> (tenants db)) in ledger db' /\ db_evolves db db'.
Proof.
  intros Hl Ht db'. split.
  - split; [|apply (g_rows _ Hl)|apply (g_successor _ Hl)|apply (g_single _ Hl)|apply (g_retired _ Hl)|apply (g_audit _ Hl)|apply (g_commands _ Hl)].
    intros t s Hs. cbn [db' tenants with_tenants] in Hs. apply lookup_insert_Some in Hs as [[<- <-]|[_ Hs]]; by eapply (g_tenants _ Hl).
  - split_and!; cbn [db' keys tenants commands with_tenants]; eauto using evolves_refl.
    + intros t [[<- ?]|[_ Hs]]%lookup_insert_Some; [done|done].
    + intros t s Hs. destruct (decide (tenant = t)) as [->|Hne]; [rewrite lookup_insert_eq|rewrite lookup_insert_ne by done]; eauto.
Qed.

(** *** Reads *)

Lemma reading_Ok {A : Type} db c (body : result Error A) a : reading db c body = Ok a -> body = Ok a.
Proof. unfold reading. destruct body as [x|e]; cbn; [by destruct c|done]. Qed.

Lemma find_row_Ok db tenant identifier row : find_row db tenant identifier = Ok row -> keys db !! identifier = Some row /\ r_tenant row = tenant.
Proof.
  unfold find_row. destruct (keys db !! identifier) as [x|]; [|done]. intros [Ht [= ->]]%reject_Ok. by apply negb_false_iff, String.eqb_eq in Ht.
Qed.

(** What a worker reads it has seen. *)
Lemma restore_seen db k row key : ledger db -> keys db !! k = Some row -> restore row = Ok key -> key = key_of row /\ row_of key = row /\ KID key = k /\ seen db key.
Proof.
  intros Hl Hk Hr. destruct (g_rows _ Hl _ _ Hk) as (<- & Hread & _). pose proof Hread as (_ & Hres & Hrow). rewrite Hres in Hr. injection Hr as <-.
  split; [done|]. split; [done|]. split; [done|]. unfold seen. rewrite Hrow. split_and!; [done|done|]. exists row. split; [done|apply evolves_refl].
Qed.

Lemma FindAdministrative_seen privileged db c scope identifier key : ledger db -> FindAdministrative privileged db c scope identifier = Ok key ->
  seen db key /\ KID key = identifier /\ KTenant key = scope.
Proof.
  intros Hl Hf. unfold FindAdministrative in Hf. go_inv Hf. apply reading_Ok in Hf. go_inv Hf.
  match goal with Hx : find_row _ _ _ = Ok _ |- _ => apply find_row_Ok in Hx as [Hk Ht] end.
  destruct (restore_seen _ _ _ _ Hl Hk Hf) as (-> & _ & Hid & Hs). by rewrite <- Ht.
Qed.
End Ledger.
End KeyLedger.

(** ** Workers *)
Module KeyWorkers.
Import KeyRows KeyLedger.
Section Workers.
Context `{UL : Ident.Ulid} `{CU : !CanonicalUlid} `{CR : AccessCrypto} `{AD : AccessDatabase} (issuer : Issuer).
Notation ledger := (ledger (maximumOverlap issuer)).

(** What [build] makes of its arguments. *)
Record built (i : Input) (tenant : string) (grant : Grant) (expiresAt : option Time) (replaces : string) (at_ : Time) (issued : IssuedKey) : Prop := {
  b_credential : exists u secret, fresh i = Some u /\ Credential issued = mk_presented tenant ("key_" +:+ Ident.ulid_string u) secret /\
    slen secret = 32 /\ KID (IKey issued) = "key_" +:+ Ident.ulid_string u;
  b_tenant : KTenant (IKey issued) = tenant;
  b_digest : exists pepper, peppers (issuer_peppers issuer) !! KPepper (IKey issued) = Some pepper /\ KDigest (IKey issued) = computeDigest pepper (Credential issued);
  b_grant : KGrant (IKey issued) = grant;
  b_version : KVersion (IKey issued) = 1;
  b_times : KCreated (IKey issued) = utc at_ /\ KUpdated (IKey issued) = utc at_ /\ KExpires (IKey issued) = utcCopy expiresAt /\
    KRevoked (IKey issued) = None /\ KRetired (IKey issued) = None;
  b_replaces : KReplaces (IKey issued) = replaces;
  b_restored : exists record, RestoreKey record = Ok (IKey issued);
}.

Lemma substring_length (s : string) : forall n, (n <= String.length s)%nat -> String.length (String.substring 0 n s) = n.
Proof. induction s as [|c s IH]; intros [|n] Hn; cbn in *; try done; [lia|]. f_equal. apply IH. lia. Qed.

Lemma build_Ok i tenant label grant expiresAt replaces at_ issued :
  build issuer i tenant label grant expiresAt replaces at_ = Ok issued -> built i tenant grant expiresAt replaces at_ issued.
Proof.
  unfold build, new_key_id, Generate, DigestKey. intros Hb. destruct (fresh i) as [u|] eqn:Hf; [|done]. cbn [rbind] in Hb. go_inv Hb.
  destruct v0 as [digest version]. rename Hv0 into Hd. apply reject_Ok in Hd as [_ Hd].
  destruct (peppers (issuer_peppers issuer) !! active (issuer_peppers issuer)) as [pepper|] eqn:Hp; [|done]. injection Hd as <- <-.
  apply rbind_Ok in Hb as (key & Hk & [= <-]). go_inv Hv. pose proof Hk as [Hkey _]%RestoreKey_Ok. bprop. split; cbn [IKey Credential].
  - exists u, (String.substring 0 32 (entropy i)). split_and!; try done; [|by rewrite Hkey]. unfold slen. rewrite substring_length; [done|].
    unfold slen, secretByteLength in *. lia.
  - by rewrite Hkey.
  - exists pepper. by rewrite Hkey.
  - by rewrite Hkey.
  - by rewrite Hkey.
  - by rewrite Hkey.
  - by rewrite Hkey.
  - eauto.
Qed.

Lemma built_fresh db i tenant grant expiresAt replaces at_ issued db1 : ledger db -> built i tenant grant expiresAt replaces at_ issued -> stored_grant grant ->
  (replaces = ""%string \/ parse_key_id replaces = Ok replaces) -> create db (IKey issued) = Ok db1 -> fresh_key (IKey issued).
Proof.
  intros Hl Hb Hg Hr (Hact & _ & Hv & _)%create_Ok. destruct (b_restored _ _ _ _ _ _ _ Hb) as (record & Hrec).
  destruct (b_credential _ _ _ _ _ _ _ Hb) as (u & secret & _ & _ & _ & Hid). destruct (b_times _ _ _ _ _ _ _ Hb) as (_ & _ & _ & Hrv & Hrt).
  destruct (readable_created record (IKey issued) Hrec) as [Hread Hkey]; try done.
  - rewrite Hid. apply parse_key_id_ulid.
  - by apply (g_tenants _ _ Hl _ _ Hact).
  - by rewrite (b_grant _ _ _ _ _ _ _ Hb).
  - by rewrite (b_replaces _ _ _ _ _ _ _ Hb).
  - split_and!; try done. apply Hb.
Qed.

Lemma seen_grant db key : seen db key -> stored_grant (KGrant key) /\ parse_key_id (KID key) = Ok (KID key).
Proof.
  intros (Hr & Hk & _). destruct (readable_elim _ Hr) as [(Hi & _ & Hg & _) _]. split; [|done]. by rewrite <- Hk.
Qed.

Lemma usable_at key at_ : UsableAt key at_ = true ->
  KRevoked key = None /\ (forall t, KRetired key = Some t -> instant at_ < instant t) /\ (forall t, KExpires key = Some t -> instant at_ < instant t).
Proof.
  unfold UsableAt, StateAt. intros Hu%bool_decide_eq_true. destruct (KRevoked key) as [r|]; [done|]. cbn [is_some] in Hu. split; [done|].
  unfold reached, before in Hu. split; intros t Ht; rewrite Ht in Hu.
  - destruct (instant at_ <? instant t) eqn:Hlt; [by apply Z.ltb_lt|done].
  - destruct (match KRetired key with Some t => _ | None => _ end); [done|]. destruct (instant at_ <? instant t) eqn:Hlt; [by apply Z.ltb_lt|done].
Qed.

(** A rotation that is ready to be written. *)
Record rotation_ready (db : Database) (i : Input) (predecessor : Key) (at_ retirement : Time) (successor : IssuedKey) (scheduled : Key) : Prop := {
  rr_built : exists grant expiresAt, built i (KTenant predecessor) grant expiresAt (KID predecessor) at_ successor /\ stored_grant grant;
  rr_scheduled : scheduled = with_lifecycle predecessor (utc at_) None (Some (utc retirement));
  rr_bounds : instant (KCreated (IKey successor)) < instant (utc retirement) <= instant (KCreated (IKey successor)) + maximumOverlap issuer;
  rr_expires e : KExpires (IKey successor) = Some e -> instant (utc retirement) < instant e;
}.

Lemma succeed_key_ready db i input at_ retirement expiresAt predecessor successor scheduled :
  seen db predecessor -> UsableAt predecessor at_ = true -> instant at_ < instant retirement <= instant at_ + maximumOverlap issuer ->
  succeed_key issuer i input at_ retirement expiresAt predecessor = Ok (successor, scheduled) ->
  rotation_ready db i predecessor at_ retirement successor scheduled.
Proof.
  intros Hseen (Hrv & _)%usable_at Hb Hs. unfold succeed_key in Hs. go_inv Hs. destruct (seen_grant _ _ Hseen) as [Hstored _].
  match goal with Hx : build _ _ _ _ _ _ _ _ = Ok _ |- _ => apply build_Ok in Hx as Hbuilt end.
  match goal with Hx : ScheduleRetirement _ _ _ = Ok _ |- _ => unfold ScheduleRetirement in Hx; go_inv Hx end.
  destruct (b_times _ _ _ _ _ _ _ Hbuilt) as (Hc & _ & He & _). split.
  - exists v, expiresAt. split; [done|]. match goal with Hx : rotated_grant _ _ _ = Ok _ |- _ => unfold rotated_grant in Hx; rename Hx into Hgr end.
    destruct (llen (RPatterns input) =? 0); [by injection Hgr as <-|]. destruct (Resolve (issuer_registry issuer) (RPatterns input)) as [g|] eqn:Hres; [|done].
    injection Hgr as <-. by apply Resolve_stored in Hres.
  - by rewrite Hrv.
  - rewrite Hc. done.
  - intros e. rewrite He. destruct expiresAt as [x|]; [|done]. cbn [utcCopy option_map]. intros [= <-]. unfold after in *. bprop. done.
Qed.

Lemma prepare_rotation_ready db i input at_ predecessor successor scheduled : seen db predecessor -> 0 < Overlap input <= maximumOverlap issuer ->
  prepare_rotation issuer i input at_ predecessor = Ok (successor, scheduled) ->
  exists retirement, rotation_ready db i predecessor at_ retirement successor scheduled.
Proof.
  intros Hseen Ho Hp. unfold prepare_rotation in Hp. go_inv Hp. bprop. exists (add at_ (Overlap input)). eapply succeed_key_ready; try done.
  cbn. lia.
Qed.

Lemma prepare_bridge_rotation_ready db i input at_ predecessor successor scheduled : seen db predecessor ->
  prepare_bridge_rotation issuer i input at_ predecessor = Ok (successor, scheduled) ->
  exists retirement, rotation_ready db i predecessor at_ retirement successor scheduled.
Proof.
  intros Hseen Hp. unfold prepare_bridge_rotation in Hp. go_inv Hp. bprop. exists (bridge_retirement at_ (Overlap input) predecessor). eapply succeed_key_ready; try done.
  match goal with Hu : UsableAt _ _ = true |- _ => destruct (usable_at _ _ Hu) as (_ & _ & He) end. unfold bridge_retirement, before.
  destruct (KExpires predecessor) as [e|]; [|cbn; lia]. specialize (He e eq_refl). destruct (instant e <? instant (add at_ (Overlap input))) eqn:Hlt; bprop; cbn in *; lia.
Qed.

(** *** One transaction *)

Definition kept (db db' : Database) : Prop := ledger db' /\ db_evolves db db'.
Lemma kept_refl db : ledger db -> kept db db. Proof. intros Hl. split; [done|apply db_evolves_refl]. Qed.

Lemma writing_cases db c body r db' : writing db c body = (r, db') -> (db' = db /\ is_ok r = false) \/ body = Ok db'.
Proof.
  unfold writing. intros [Hd|(a & Hb & _)]%transact_cases; [by left|]. right. destruct body as [x|]; [|done]. by injection Hb as _ ->.
Qed.

(** The new key, its audit row, and what else the transaction writes. *)
Lemma issue_kept db i scope grant expiresAt at_ issued action audited db1 db2 : ledger db -> built i scope grant expiresAt "" at_ issued -> stored_grant grant ->
  create db (IKey issued) = Ok db1 -> insertAdminAudit db1 action audited (KID (IKey issued)) "issue" = Ok db2 ->
  kept db db2 /\ keys db2 !! KID (IKey issued) = Some (row_of (IKey issued)) /\ fresh_key (IKey issued).
Proof.
  intros Hl Hb Hg Hc Ha. pose proof (built_fresh _ _ _ _ _ _ _ _ _ Hl Hb Hg (or_introl eq_refl) Hc) as Hf.
  destruct (ledger_issue _ _ _ _ _ _ _ Hl Hf (b_replaces _ _ _ _ _ _ _ Hb) Hc Ha) as (H1 & H2 & H3). done.
Qed.

Lemma rotate_kept db i predecessor at_ retirement successor scheduled action audited db1 db2 : ledger db -> seen db predecessor ->
  rotation_ready db i predecessor at_ retirement successor scheduled ->
  rotate_body db scheduled (KVersion predecessor) (IKey successor) = Ok db1 ->
  insertAdminAudit db1 action audited (KID predecessor) "rotate" = Ok db2 ->
  kept db db2 /\ keys db2 !! KID (IKey successor) = Some (row_of (IKey successor)) /\ fresh_key (IKey successor).
Proof.
  intros Hl Hseen [(grant & expiresAt & Hb & Hg) -> Hbound Hexp] Hr Ha. pose proof Hr as Hc. unfold rotate_body in Hc. apply rbind_Ok in Hc as (dbc & Hc & _).
  pose proof (built_fresh _ _ _ _ _ _ _ _ _ Hl Hb Hg (or_intror (proj2 (seen_grant _ _ Hseen))) Hc) as Hf.
  destruct (ledger_rotate (maximumOverlap issuer) db predecessor (IKey successor) (utc at_) (utc retirement) action audited db1 db2) as (H1 & H2 & H3); try done.
  - apply Hb.
  - apply Hb.
Qed.

Lemma revoke_kept db key expectedVersion at_ key' action audited db1 db2 : ledger db -> seen db key -> revoked_key key expectedVersion at_ = Ok key' ->
  saveLifecycle db key' expectedVersion = Ok db1 -> insertAdminAudit db1 action audited (KID key) "revoke" = Ok db2 ->
  kept db db2 /\ exists row, keys db2 !! KID key = Some row /\ is_some (r_revoked row) = true.
Proof.
  intros Hl Hseen Hr Hs Ha. unfold revoked_key, Revoke in Hr. go_inv Hr. bprop. subst.
  destruct (ledger_revoke _ _ _ _ _ _ _ _ Hl Hseen Hs Ha) as (H1 & H2 & H3). done.
Qed.

Lemma revoked_key_id key expectedVersion at_ key' : revoked_key key expectedVersion at_ = Ok key' -> KID key' = KID key.
Proof. unfold revoked_key, Revoke. intros Hr. by go_inv Hr. Qed.

(** *** The operations of the store *)

Lemma requireAdminPrivilege_bind {A : Type} privileged (k : result Error A) a : rbind (requireAdminPrivilege privileged) (fun _ => k) = Ok a -> k = Ok a.
Proof. intros (u & _ & Hk)%rbind_Ok. done. Qed.

Lemma CreateAdministrative_kept privileged db c action scope i grant expiresAt at_ issued r db' : ledger db -> built i scope grant expiresAt "" at_ issued -> stored_grant grant ->
  CreateAdministrative privileged db c action scope (IKey issued) = (r, db') ->
  kept db db' /\ (is_ok r = true -> keys db' !! KID (IKey issued) = Some (row_of (IKey issued)) /\ fresh_key (IKey issued)).
Proof.
  unfold CreateAdministrative. intros Hl Hb Hg Hc. destruct (negb (sameTenant _ _)); [injection Hc as <- <-; split; [by apply kept_refl|done]|].
  apply writing_cases in Hc as [[-> He]|Hbody]; [split; [by apply kept_refl|by rewrite He]|].
  apply requireAdminPrivilege_bind, rbind_Ok in Hbody as (db1 & Hcr & Ha). by destruct (issue_kept _ _ _ _ _ _ _ _ _ _ _ Hl Hb Hg Hcr Ha) as (? & ? & ?).
Qed.

Lemma RotateAdministrative_kept privileged db c action scope i predecessor at_ retirement successor scheduled r db' : ledger db -> seen db predecessor ->
  rotation_ready db i predecessor at_ retirement successor scheduled ->
  RotateAdministrative privileged db c action scope scheduled (KVersion predecessor) (IKey successor) = (r, db') ->
  kept db db' /\ (is_ok r = true -> keys db' !! KID (IKey successor) = Some (row_of (IKey successor)) /\ fresh_key (IKey successor)).
Proof.
  unfold RotateAdministrative. intros Hl Hs Hr Hc. destruct (negb (rotation_valid _ _ _ _)); [injection Hc as <- <-; split; [by apply kept_refl|done]|].
  apply writing_cases in Hc as [[-> He]|Hbody]; [split; [by apply kept_refl|by rewrite He]|].
  apply requireAdminPrivilege_bind, rbind_Ok in Hbody as (db1 & Hcr & Ha). rewrite (rr_scheduled _ _ _ _ _ _ _ Hr) in Ha at 1.
  by destruct (rotate_kept _ _ _ _ _ _ _ _ _ _ _ Hl Hs Hr Hcr Ha) as (? & ? & ?).
Qed.

Lemma SaveLifecycleAdministrative_kept privileged db c action scope key expectedVersion at_ key' r db' : ledger db -> seen db key ->
  revoked_key key expectedVersion at_ = Ok key' ->
  SaveLifecycleAdministrative privileged db c action scope key' expectedVersion = (r, db') ->
  kept db db' /\ (is_ok r = true -> exists row, keys db' !! KID key = Some row /\ is_some (r_revoked row) = true).
Proof.
  unfold SaveLifecycleAdministrative. intros Hl Hs Hr Hc. destruct (_ || _); [injection Hc as <- <-; split; [by apply kept_refl|done]|].
  apply writing_cases in Hc as [[-> He]|Hbody]; [split; [by apply kept_refl|by rewrite He]|].
  apply requireAdminPrivilege_bind, rbind_Ok in Hbody as (db1 & Hcr & Ha). rewrite (revoked_key_id _ _ _ _ Hr) in Ha.
  by destruct (revoke_kept _ _ _ _ _ _ _ _ _ Hl Hs Hr Hcr Ha) as (? & ?).
Qed.

Lemma ListAdministrative_kept privileged db c action scope r db' : ledger db -> ListAdministrative privileged db c action scope = (r, db') -> kept db db'.
Proof.
  unfold ListAdministrative. intros Hl Hc. destruct (empty_string scope); [injection Hc as <- <-; by apply kept_refl|].
  apply transact_cases in Hc as [[-> _]|(a & Hbody & _)]; [by apply kept_refl|].
  apply requireAdminPrivilege_bind, rbind_Ok in Hbody as (found & _ & Hbody). apply rbind_Ok in Hbody as (db1 & Ha & [= _ ->]).
  by apply (ledger_list _ _ _ _ _ Hl) in Ha.
Qed.

(** A new command is inserted with its effect, and with nothing of its own. *)
Lemma command_kept db db1 c row db2 : kept db db1 -> insert_command db1 c row = Ok db2 -> (c_delivery row = None <-> c_operation row = "revoke"%string) ->
  kept db db2 /\ keys db2 = keys db1 /\ commands db2 !! c = Some row.
Proof.
  intros [Hl He] Hi Hd. destruct (ledger_command _ _ _ _ _ Hl Hi Hd) as (Hl2 & He2 & Hk & Hc). split; [split; [done|by eapply db_evolves_trans]|].
  split; [done|]. rewrite Hc. apply lookup_insert_eq.
Qed.

Lemma IssueBridgeCommand_kept privileged db c action scope command i grant expiresAt at_ issued envelope r db' : ledger db ->
  built i scope grant expiresAt "" at_ issued -> stored_grant grant ->
  IssueBridgeCommand privileged db c action scope command (IKey issued) envelope = (r, db') -> kept db db'.
Proof.
  unfold IssueBridgeCommand. intros Hl Hb Hg Hc. destruct (negb (sameTenant _ _)); [injection Hc as <- <-; by apply kept_refl|].
  apply transact_cases in Hc as [[-> _]|(a & Hbody & _)]; [by apply kept_refl|]. apply requireAdminPrivilege_bind in Hbody.
  destruct (commands db !! CommandID command) as [row|].
  - destruct (c_delivery row); [|done]. apply rbind_Ok in Hbody as (k & _ & [= _ ->]). by apply kept_refl.
  - apply rbind_Ok in Hbody as (db1 & Hcr & Hbody). apply rbind_Ok in Hbody as (db2 & Ha & Hbody). apply rbind_Ok in Hbody as (db3 & Hi & [= _ ->]).
    destruct (issue_kept _ _ _ _ _ _ _ _ _ _ _ Hl Hb Hg Hcr Ha) as (Hk & _). by eapply command_kept in Hi as (? & _); [|done|cbn].
Qed.

Lemma RotateBridgeCommand_kept privileged db c action scope command i predecessor at_ retirement successor scheduled envelope r db' : ledger db -> seen db predecessor ->
  rotation_ready db i predecessor at_ retirement successor scheduled ->
  RotateBridgeCommand privileged db c action scope command scheduled (KVersion predecessor) (IKey successor) envelope = (r, db') -> kept db db'.
Proof.
  unfold RotateBridgeCommand. intros Hl Hs Hr Hc.
  apply transact_cases in Hc as [[-> _]|(a & Hbody & _)]; [by apply kept_refl|]. apply requireAdminPrivilege_bind in Hbody.
  destruct (commands db !! CommandID command) as [row|].
  - destruct (c_delivery row); [|done]. apply rbind_Ok in Hbody as (k & _ & [= _ ->]). by apply kept_refl.
  - apply rbind_Ok in Hbody as (db1 & Hcr & Hbody). apply rbind_Ok in Hbody as (db2 & Ha & Hbody). apply rbind_Ok in Hbody as (db3 & Hi & [= _ ->]).
    rewrite (rr_scheduled _ _ _ _ _ _ _ Hr) in Ha at 1.
    destruct (rotate_kept _ _ _ _ _ _ _ _ _ _ _ Hl Hs Hr Hcr Ha) as (Hk & _). by eapply command_kept in Hi as (? & _); [|done|cbn].
Qed.

Lemma RevokeBridgeCommand_kept privileged db c action scope command key expectedVersion at_ key' r db' : ledger db -> seen db key ->
  revoked_key key expectedVersion at_ = Ok key' ->
  RevokeBridgeCommand privileged db c action scope command key' expectedVersion = (r, db') -> kept db db'.
Proof.
  unfold RevokeBridgeCommand. intros Hl Hs Hr Hc.
  apply transact_cases in Hc as [[-> _]|(a & Hbody & _)]; [by apply kept_refl|]. apply requireAdminPrivilege_bind in Hbody.
  destruct (commands db !! CommandID command) as [row|].
  - apply rbind_Ok in Hbody as (k & _ & [= _ ->]). by apply kept_refl.
  - apply rbind_Ok in Hbody as (db1 & Hcr & Hbody). apply rbind_Ok in Hbody as (db2 & Ha & Hbody). apply rbind_Ok in Hbody as (db3 & Hi & [= _ ->]).
    rewrite (revoked_key_id _ _ _ _ Hr) in Ha.
    destruct (revoke_kept _ _ _ _ _ _ _ _ _ Hl Hs Hr Hcr Ha) as (Hk & _). by eapply command_kept in Hi as (? & _); [|done|cbn].
Qed.

(** *** One step of a worker *)

(** A key that was handed out with its credential. *)
Definition credentialed (db : Database) (issued : IssuedKey) : Prop :=
  seen db (IKey issued) /\ exists t u secret pepper, Credential issued = KeyText.issued_credential t u secret /\ slen secret = 32 /\
    KID (IKey issued) = PKey (Credential issued) /\ KTenant (IKey issued) = PTenant (Credential issued) /\
    peppers (issuer_peppers issuer) !! KPepper (IKey issued) = Some pepper /\ KDigest (IKey issued) = computeDigest pepper (Credential issued).

Lemma tenant_text value : parse_tenant_id value = Ok value -> exists t, value = "ten_" +:+ Ident.ulid_string t.
Proof.
  unfold parse_tenant_id, Ident.ParseTenant, Ident.parse_typed. destruct (Ident.Parse Ident.TenantPrefix value) as [v|] eqn:Hp; [|done]. cbn [rbind]. intros [= Hv].
  apply Ident.Parse_Ok in Hp as (_ & Hpre & _). exists (Ident.v_ulid v). rewrite <- Hv. unfold Ident.id_string, Ident.value_string. cbn [Ident.value].
  by rewrite Hpre.
Qed.

Lemma built_credentialed db i scope grant expiresAt replaces at_ issued : built i scope grant expiresAt replaces at_ issued -> fresh_key (IKey issued) ->
  keys db !! KID (IKey issued) = Some (row_of (IKey issued)) -> credentialed db issued.
Proof.
  intros Hb (Hread & Hkey & _) Hrow. split; [split_and!; [done|done|]; eexists; split; [done|apply evolves_refl]|].
  destruct (b_credential _ _ _ _ _ _ _ Hb) as (u & secret & _ & Hc & Hs & Hid). destruct (b_digest _ _ _ _ _ _ _ Hb) as (pepper & Hp & Hd).
  destruct (readable_elim _ Hread) as [(_ & Ht & _) _]. change (r_tenant (row_of (IKey issued))) with (KTenant (IKey issued)) in Ht.
  destruct (tenant_text _ Ht) as (t & Htt). rewrite (b_tenant _ _ _ _ _ _ _ Hb) in Htt.
  exists t, u, secret, pepper. rewrite (b_tenant _ _ _ _ _ _ _ Hb). split_and!; try done; [by rewrite Hc, Htt|by rewrite Hc|by rewrite Hc].
Qed.

Definition local_ok (db : Database) (l : Local) : Prop :=
  match l with
  | RotateFound _ _ input _ predecessor => seen db predecessor /\ 0 < Overlap input <= maximumOverlap issuer
  | RevokeFound _ _ _ _ key | BridgeRevokeFound _ _ _ _ _ key => seen db key
  | BridgeRotateFound _ _ _ _ _ predecessor => seen db predecessor
  | Returned (Issued issued) => credentialed db issued
  | _ => True
  end.

Lemma local_ok_evolves db db' l : local_ok db l -> db_evolves db db' -> local_ok db' l.
Proof.
  destruct l as [| | | | | |[]]; cbn; intros Hl He; try done; try by eapply seen_evolves.
  - destruct Hl. split; [by eapply seen_evolves|done].
  - destruct Hl as [Hs Hc]. split; [by eapply seen_evolves|done].
Qed.

(** What a step leaves. *)
Definition stepped (db : Database) (l' : Local) (db' : Database) : Prop := kept db db' /\ local_ok db' l'.

Lemma stepped_same db l : ledger db -> local_ok db l -> stepped db l db.
Proof. intros Hl Ho. split; [by apply kept_refl|done]. Qed.
Lemma stepped_answer {A : Type} db db' (r : result Error A) answer : kept db db' -> (forall a, r = Ok a -> local_ok db' (Returned (answer a))) ->
  stepped db (answered r answer) db'.
Proof. intros Hk Ha. split; [done|]. destruct r as [a|e]; [by apply Ha|done]. Qed.

(** [Issue] builds a key with the grant it resolved, or writes nothing. *)
Lemma Issue_cases repository i at_ scope input db r db' : Issue issuer repository i at_ scope input db = (r, db') ->
  (db' = db /\ is_ok r = false) \/
  exists issued grant expiresAt, built i scope grant expiresAt "" at_ issued /\ Resolve (issuer_registry issuer) (IPatterns input) = Ok grant /\
    resolve_expiry (expiry issuer) at_ (IExpiry input) = Ok expiresAt /\
    exists r0, repo_create repository db i scope (IKey issued) = (r0, db') /\ (r = match r0 with Ok _ => Ok issued | Err e => Err e end).
Proof.
  unfold Issue. destruct (rbind _ _) as [issued|e] eqn:Hp; [|intros [= <- <-]; by left]. intros Hr. right.
  apply rbind_Ok in Hp as (expiresAt & He & Hp). apply rbind_Ok in Hp as (grant & Hg & Hb). apply build_Ok in Hb.
  destruct (Resolve (issuer_registry issuer) (IPatterns input)) as [g|] eqn:Hres; [|done]. injection Hg as ->.
  exists issued, grant, expiresAt. split_and!; try done. destruct (repo_create repository db i scope (IKey issued)) as [[u|e] db1]; injection Hr as <- <-; eauto.
Qed.

Lemma issue_call_stepped action scope input i db l' db' : ledger db -> issue_call issuer action scope input i db = (l', db') -> stepped db l' db'.
Proof.
  unfold issue_call. intros Hl Hw. destruct (prepareAdminAction action (now i)) as [prepared|e]; [|injection Hw as <- <-; by apply stepped_same].
  destruct (Issue _ _ _ _ _ _ _) as [r db1] eqn:Hi. injection Hw as <- <-.
  apply Issue_cases in Hi as [[-> He]|(issued & grant & expiresAt & Hb & Hg & _ & r0 & Hc & ->)]; [destruct r; [done|by apply stepped_same]|].
  apply Resolve_stored in Hg. destruct (CreateAdministrative_kept _ _ _ _ _ _ _ _ _ _ _ _ Hl Hb Hg Hc) as [Hk Hok]. split; [done|].
  destruct r0; [|done]. destruct (Hok eq_refl). by eapply built_credentialed.
Qed.

Lemma rotate_call_ok action scope input i db : ledger db -> local_ok db (rotate_call issuer action scope input i db).
Proof.
  unfold rotate_call. intros Hl. destruct (prepareAdminAction action (now i)) as [prepared|e]; [|done].
  destruct (rotate_find _ _ _ _ _ _) as [predecessor|e] eqn:Hf; [|done]. unfold rotate_find in Hf. go_inv Hf. bprop.
  cbn in Hf. apply (FindAdministrative_seen _ _ _ _ _ _ _ Hl) in Hf as (Hs & _). cbn. split; [done|lia].
Qed.

Lemma rotate_step_stepped action scope input at_ predecessor i db l' db' : ledger db -> local_ok db (RotateFound action scope input at_ predecessor) ->
  rotate_step issuer action scope input at_ predecessor i db = (l', db') -> stepped db l' db'.
Proof.
  unfold rotate_step, rotate_finish. intros Hl [Hs Ho] Hw.
  destruct (prepare_rotation issuer i input at_ predecessor) as [[successor scheduled]|e] eqn:Hp; [|injection Hw as <- <-; by apply stepped_same].
  apply (prepare_rotation_ready db) in Hp as (retirement & Hr); [|done|done].
  destruct (repo_rotate _ _ _ _ _ _ _) as [r db1] eqn:Hc. cbn in Hc.
  destruct (RotateAdministrative_kept _ _ _ _ _ _ _ _ _ _ _ _ _ Hl Hs Hr Hc) as [Hk Hok]. destruct r; injection Hw as <- <-; (split; [exact Hk|]); [|done].
  destruct (Hok eq_refl). destruct (rr_built _ _ _ _ _ _ _ Hr) as (grant & expiresAt & Hb & _). by eapply built_credentialed.
Qed.

Lemma revoke_call_ok action scope identifier expectedVersion i db : ledger db -> local_ok db (revoke_call action scope identifier expectedVersion i db).
Proof.
  unfold revoke_call. intros Hl. destruct (_ || _); [done|]. destruct (prepareAdminAction _ _); [|done].
  destruct (FindAdministrative _ _ _ _ _) as [key|] eqn:Hf; [|done]. by apply (FindAdministrative_seen _ _ _ _ _ _ _ Hl) in Hf as (Hs & _).
Qed.

Lemma revoke_finish_stepped action scope expectedVersion at_ key i db l' db' : ledger db -> seen db key ->
  revoke_finish action scope expectedVersion at_ key i db = (l', db') -> stepped db l' db'.
Proof.
  unfold revoke_finish. intros Hl Hs Hw. destruct (revoked_key key expectedVersion at_) as [key'|e] eqn:Hr; [|injection Hw as <- <-; by apply stepped_same].
  destruct (SaveLifecycleAdministrative _ _ _ _ _ _ _) as [r db1] eqn:Hc. injection Hw as <- <-. apply stepped_answer; [|done].
  by destruct (SaveLifecycleAdministrative_kept _ _ _ _ _ _ _ _ _ _ _ Hl Hs Hr Hc).
Qed.

Lemma bridge_issue_stepped command action scope input i db l' db' : ledger db -> bridge_issue_call issuer command action scope input i db = (l', db') -> stepped db l' db'.
Proof.
  unfold bridge_issue_call. intros Hl Hw. destruct (negb (command_identified command)); [injection Hw as <- <-; by apply stepped_same|].
  cbv zeta in Hw. destruct (rbind _ _) as [[[prepared issued] envelope]|e] eqn:Hp; [|injection Hw as <- <-; by apply stepped_same].
  destruct (IssueBridgeCommand _ _ _ _ _ _ _ _) as [r db1] eqn:Hc. injection Hw as <- <-. apply stepped_answer; [|by intros [[] ?]].
  apply rbind_Ok in Hp as (prepared' & _ & Hp). apply rbind_Ok in Hp as (expiresAt & _ & Hp). apply rbind_Ok in Hp as (grant & Hg & Hp). apply rbind_Ok in Hp as (issued' & Hb & Hp).
  destruct (sealed i); [|done]. injection Hp as -> -> ->. apply build_Ok in Hb.
  destruct (Resolve (issuer_registry issuer) (IPatterns input)) as [g|] eqn:Hres; [|done]. injection Hg as ->. apply Resolve_stored in Hres.
  by apply (IssueBridgeCommand_kept _ _ _ _ _ _ _ _ _ _ _ _ _ _ Hl Hb Hres Hc).
Qed.

Lemma bridge_find_ok command action scope operation i db : ledger db -> local_ok db (bridge_find command action scope operation i db).
Proof.
  unfold bridge_find. intros Hl. destruct (prepareAdminAction _ _); [|done].
  destruct operation; (destruct (FindAdministrative _ _ _ _ _) as [key|] eqn:Hf; [|done]); by apply (FindAdministrative_seen _ _ _ _ _ _ _ Hl) in Hf as (Hs & _).
Qed.

Lemma bridge_rotate_stepped command action scope input at_ predecessor i db l' db' : ledger db -> seen db predecessor ->
  bridge_rotate_finish issuer command action scope input at_ predecessor i db = (l', db') -> stepped db l' db'.
Proof.
  unfold bridge_rotate_finish. intros Hl Hs Hw.
  destruct (prepare_bridge_rotation issuer i input at_ predecessor) as [[successor scheduled]|e] eqn:Hp; [|injection Hw as <- <-; by apply stepped_same].
  destruct (sealed i) as [envelope|]; [|injection Hw as <- <-; by apply stepped_same].
  destruct (RotateBridgeCommand _ _ _ _ _ _ _ _ _ _) as [r db1] eqn:Hc. injection Hw as <- <-. apply stepped_answer; [|by intros [[] ?]].
  apply (prepare_bridge_rotation_ready db) in Hp as (retirement & Hr); [|done]. by eapply RotateBridgeCommand_kept.
Qed.

Lemma bridge_revoke_stepped command action scope expectedVersion at_ key i db l' db' : ledger db -> seen db key ->
  bridge_revoke_finish command action scope expectedVersion at_ key i db = (l', db') -> stepped db l' db'.
Proof.
  unfold bridge_revoke_finish. intros Hl Hs Hw. destruct (revoked_key key expectedVersion at_) as [key'|e] eqn:Hr; [|injection Hw as <- <-; by apply stepped_same].
  destruct (RevokeBridgeCommand _ _ _ _ _ _ _ _) as [r db1] eqn:Hc. injection Hw as <- <-. apply stepped_answer; [|by intros []]. by eapply RevokeBridgeCommand_kept.
Qed.

Lemma work_stepped l call i db l' db' : ledger db -> local_ok db l -> work issuer l call i db = (l', db') -> stepped db l' db'.
Proof.
  intros Hl Ho Hw. unfold work in Hw. destruct (crash i); [injection Hw as <- <-; by apply stepped_same|].
  destruct l as [|action scope input at_ pre|action scope ev at_ key|command action scope op|command action scope input at_ pre|command action scope ev at_ key|answer].
  - destruct call; cbn [start_call] in Hw.
    + by eapply issue_call_stepped.
    + injection Hw as <- <-. apply stepped_same; [done|by apply rotate_call_ok].
    + unfold list_call in Hw. destruct (prepareAdminAction _ _); [|injection Hw as <- <-; by apply stepped_same].
      destruct (ListAdministrative _ _ _ _ _) as [r db1] eqn:Hc. injection Hw as <- <-. apply stepped_answer; [|done]. by eapply ListAdministrative_kept.
    + injection Hw as <- <-. apply stepped_same; [done|by apply revoke_call_ok].
    + by eapply bridge_issue_stepped.
    + injection Hw as <- <-. apply stepped_same; [done|]. unfold bridge_call. destruct (_ || _); [done|].
      destruct (ObserveBridgeCommand _ _ _ _ _) as [[? ?]|[]]; done.
    + injection Hw as <- <-. apply stepped_same; [done|]. unfold observe_call. destruct (negb _); [done|]. by destruct (ObserveBridgeCommand _ _ _ _ _) as [[? ?]|].
  - by eapply rotate_step_stepped.
  - by eapply revoke_finish_stepped.
  - injection Hw as <- <-. apply stepped_same; [done|by apply bridge_find_ok].
  - by eapply bridge_rotate_stepped.
  - by eapply bridge_revoke_stepped.
  - injection Hw as <- <-. by apply stepped_same.
Qed.

(** *** All of them *)

Definition sound_world (w : World) : Prop := ledger (database w) /\ Forall (local_ok (database w)) (workers w).

Lemma world_step_sound w w' : world_step issuer w w' -> sound_world w -> sound_world w' /\ db_evolves (database w) (database w').
Proof.
  intros [k l call i l' db' Hk Hw|tenant Ht] [Hl Hall]; cbn [database workers].
  - pose proof (Forall_lookup_1 _ _ _ _ Hall Hk) as Ho. destruct (work_stepped _ _ _ _ _ _ Hl Ho Hw) as [[Hl' He] Ho']. split; [|done]. split; [done|].
    cbn [workers]. apply Forall_insert; [|done]. eapply Forall_impl; [exact Hall|]. intros x Hx. by eapply local_ok_evolves.
  - destruct (ledger_disable _ _ _ Hl Ht) as [Hl' He]. split; [|done]. split; [done|]. eapply Forall_impl; [exact Hall|]. intros x Hx. by eapply local_ok_evolves.
Qed.

Lemma steps_sound w w' : steps (world_step issuer) w w' -> sound_world w -> sound_world w' /\ db_evolves (database w) (database w').
Proof.
  induction 1 as [w|w v w' Hs _ IH]; intros Hw; [split; [done|apply db_evolves_refl]|].
  destruct (world_step_sound _ _ Hs Hw) as [Hv He]. destruct (IH Hv) as [Hw' He']. split; [done|by eapply db_evolves_trans].
Qed.

(** The tenants of the deployment have identifiers. *)
Definition identified (ts : gmap string TenantState) : Prop := forall t s, ts !! t = Some s -> parse_tenant_id t = Ok t.

Lemma start_sound ts n : identified ts -> sound_world (start_world ts n).
Proof.
  intros Ht. split; [|apply Forall_replicate_eq || (cbn; induction n; constructor; done)].
  split; cbn [start_world database empty_database tenants keys admin_audit commands]; try done; try (by intros; rewrite lookup_empty in *).
Qed.

Lemma reachable_sound ts n w : identified ts -> steps (world_step issuer) (start_world ts n) w -> sound_world w.
Proof. intros Ht Hs. by apply (steps_sound _ _ Hs), start_sound. Qed.
End Workers.
End KeyWorkers.
