(* ===== verification/AccessSpec.v ===== *)
(** * The theorems about API keys

    What authentication answers, how long, and at what cost; what an issued credential
    is good for; what the audit trail and the commands of the bridge say of the keys.
    Two lemmas show where the bridge answers otherwise than it means to. *)

From S2P Require Import Prelude GoTime Ident Content Base64 Scope Access AccessStore AccessService AccessSafety.
From Stdlib Require Import Ascii.
Import ScopeSpec KeyRows KeyLedger KeyWorkers.

Module AccessSpec.
Section Spec.
Context `{UL : Ident.Ulid} `{CU : !CanonicalUlid} `{CR : AccessCrypto} `{AD : AccessDatabase} (issuer : Issuer).
Abbreviation ledger := (ledger (maximumOverlap issuer)).

(** A row whose key may authenticate at an instant. *)
Definition live (db : Database) (row : KeyRow) (at_ : Time) : Prop :=
  tenants db !! r_tenant row = Some StateActive /\ r_revoked row = None /\ reached (r_retired row) at_ = false /\ reached (r_expires row) at_ = false.

(** The row that a credential names and opens, under the peppers. *)
Definition opens (set : PepperSet) (db : Database) (presented : PresentedKey) (row : KeyRow) : Prop :=
  keys db !! PKey presented = Some row /\ r_tenant row = PTenant presented /\
  exists pepper, peppers set !! r_pepper row = Some pepper /\ r_digest row = hmac_sha256 pepper (digest_message presented).

Lemma FindForVerification_Ok db c t k record : ledger db -> FindForVerification db c t k = Ok record ->
  exists row state, keys db !! k = Some row /\ r_tenant row = t /\ tenants db !! t = Some state /\ record = mk_verification (key_of row) state.
Proof.
  unfold FindForVerification. intros Hl Hf. apply reject_Ok in Hf as [_ Hf]. apply reading_Ok, rbind_Ok in Hf as (row & [Hk Ht]%find_row_Ok & Hf).
  destruct (tenants db !! t) as [state|] eqn:Hs; [|done]. apply rbind_Ok in Hf as (key & Hr & Hn).
  destruct (restore_seen _ _ _ _ _ Hl Hk Hr) as (-> & _). unfold NewVerificationRecord in Hn. apply reject_Ok in Hn as [_ Hn].
  exists row, state. split_and!; try done. by destruct state; try done; injection Hn as <-.
Qed.

Lemma FindForVerification_found db row : ledger db -> keys db !! r_id row = Some row -> tenants db !! r_tenant row = Some StateActive ->
  FindForVerification db Committed (r_tenant row) (r_id row) = Ok (mk_verification (key_of row) StateActive).
Proof.
  intros Hl Hk Ht. destruct (g_rows _ _ Hl _ _ Hk) as (_ & (Hv & Hr & _) & _).
  assert (Hne : empty_string (r_tenant row) || empty_string (r_id row) = false).
  { unfold row_valid in Hv. bprop. apply orb_false_iff. split; by eapply id_format_not_empty. }
  unfold FindForVerification. rewrite Hne. unfold reading, find_row. rewrite Hk, String.eqb_refl. cbn [negb rbind]. rewrite Ht, Hr. cbn [rbind].
  unfold NewVerificationRecord. cbn [key_of KID KTenant]. rewrite orb_comm in Hne. by rewrite Hne.
Qed.

Lemma usable_live row at_ : UsableAt (key_of row) at_ = true <-> r_revoked row = None /\ reached (r_retired row) at_ = false /\ reached (r_expires row) at_ = false.
Proof.
  unfold UsableAt, StateAt. rewrite bool_decide_eq_true. cbn [key_of KRevoked KRetired KExpires].
  destruct (r_revoked row), (reached (r_retired row) at_), (reached (r_expires row) at_); cbn; naive_solver.
Qed.

Lemma parsed_not_zero enc presented : ParsePresentedKey enc = Ok presented -> presented_is_zero presented = false.
Proof.
  unfold ParsePresentedKey. intros Hp. repeat (apply reject_Ok in Hp as [_ Hp]).
  destruct (Ident.ParseTenant _) as [t|] eqn:Ht; [|done]. destruct (Ident.ParseAPIKey _) as [k|] eqn:Hk; [|done]. destruct (DecodeString _); [|done].
  apply reject_Ok in Hp as [_ [= <-]]. unfold presented_is_zero. cbn [PTenant PKey].
  unfold Ident.ParseTenant, Ident.ParseAPIKey, Ident.parse_typed in Ht, Hk. apply rbind_Ok in Ht as (vt & Ht & [= <-]). apply rbind_Ok in Hk as (vk & Hk & [= <-]).
  apply Ident.Parse_Ok in Ht as (_ & Hpt & _). apply Ident.Parse_Ok in Hk as (_ & Hpk & _). unfold Ident.id_string, Ident.value_string. cbn [Ident.value]. by rewrite Hpt, Hpk.
Qed.

(** Authentication succeeds exactly on a credential that opens a live row. *)
Lemma Authenticate_Ok set db c at_ enc authority work : ledger db -> Authenticate set db c at_ enc = (Ok authority, work) ->
  exists presented row, ParsePresentedKey enc = Ok presented /\ opens set db presented row /\ live db row at_ /\
    authority = mk_authority (r_id row) (r_tenant row) (grant_of row) /\ work = [digest_message presented] /\ r_id row = PKey presented.
Proof.
  unfold Authenticate. intros Hl Ha. destruct (ParsePresentedKey enc) as [presented|] eqn:Hp; [|by destruct (DummyVerify set no_presented) as [[]]].
  destruct (FindForVerification db c _ _) as [record|e] eqn:Hf; [|by destruct e; try done; destruct (DummyVerify set presented) as [[]]].
  destruct (FindForVerification_Ok _ _ _ _ _ Hl Hf) as (row & state & Hk & Ht & Hs & ->). cbn [VKey VTenant] in Ha.
  unfold Verify in Ha. rewrite (parsed_not_zero _ _ Hp) in Ha. destruct (peppers set !! KPepper (key_of row)) as [pepper|] eqn:Hpep; [|done].
  destruct (negb (String.eqb _ _) || _ || _ || _ || _) eqn:Hc; [done|]. apply orb_false_iff in Hc as [Hc Hu]. apply orb_false_iff in Hc as [Hc Hact].
  apply orb_false_iff in Hc as [Hc _]. apply orb_false_iff in Hc as [Hd _]. apply negb_false_iff in Hu, Hact, Hd.
  destruct (empty_string (KTenant (key_of row))); [done|]. injection Ha as <- <-. apply bool_decide_eq_true in Hact. apply String.eqb_eq in Hd. apply usable_live in Hu.
  exists presented, row. split; [done|]. split; [split_and!; [done|done|by exists pepper]|]. subst state. unfold TenantHint in *.
  destruct (g_rows _ _ Hl _ _ Hk) as (Hid & _).
  split; [split; [by rewrite Ht|done]|done].
Qed.

Lemma Authenticate_live set db at_ enc presented row : ledger db -> ParsePresentedKey enc = Ok presented -> opens set db presented row -> live db row at_ ->
  Authenticate set db Committed at_ enc = (Ok (mk_authority (r_id row) (r_tenant row) (grant_of row)), [digest_message presented]).
Proof.
  intros Hl Hp (Hk & Ht & pepper & Hpep & Hd) (Hact & Hu). unfold Authenticate. rewrite Hp. unfold TenantHint, PresentedID.
  destruct (g_rows _ _ Hl _ _ Hk) as (Hid & (Hv & _) & _). rewrite <- Ht. rewrite <- Hid in Hk |- *.
  rewrite FindForVerification_found by done. cbn [VKey VTenant]. unfold Verify. rewrite (parsed_not_zero _ _ Hp). cbn [key_of KPepper KDigest KID KTenant KGrant]. rewrite Hpep.
  unfold computeDigest. rewrite <- Hd, !String.eqb_refl, (proj2 (usable_live _ _) Hu). rewrite bool_decide_eq_true_2 by done. cbn [negb orb].
  assert (He : empty_string (r_tenant row) = false) by (unfold row_valid in Hv; bprop; by eapply id_format_not_empty). by rewrite He.
Qed.

Lemma not_reached_earlier t at0 at_ : before at_ at0 = false -> reached t at_ = false -> reached t at0 = false.
Proof. destruct t as [t|]; [|done]. unfold reached, before. intros Hb Hr. bprop. apply negb_false_iff, Z.ltb_lt. lia. Qed.

Lemma live_earlier db db' row0 row at0 at_ : db_evolves db db' -> evolves row0 row -> before at_ at0 = false -> live db' row at_ -> live db row0 at0.
Proof.
  intros (_ & Ht & _) He Hb (Hact & Hrev & Hret & Hexp). destruct (evolves_identity _ _ He) as (_ & I2 & _ & _ & _ & _ & _ & I8 & _). destruct He as (_ & _ & E3 & E4).
  split_and!.
  - rewrite <- I2. by apply Ht.
  - destruct (r_revoked row0) as [t|] eqn:Hr; [|done]. by rewrite (E3 t eq_refl) in Hrev.
  - destruct (r_retired row0) as [t|] eqn:Hr; [|done]. rewrite (E4 t eq_refl) in Hret. by eapply not_reached_earlier.
  - rewrite <- I8. by eapply not_reached_earlier.
Qed.

(** C7: Authority is live, and ends for good.  Whatever the administrators and bridges
    have done, a credential authenticates only if the key and the tenant it names have
    a row whose digest is the HMAC of the credential under the pepper of the row, the
    tenant is active, and the key is neither revoked nor at its retirement or expiry;
    the authority is that of the row.  At every earlier moment the row, if it was
    there, was live too and conferred the same grant for the same tenant: so a key that
    was ever revoked, retired, expired or of a disabled tenant never authenticates
    again, and no authority was ever widened. *)
Theorem authenticated_authority_is_live ts n w w' set c at_ enc authority work (Hts : identified ts)
  (Hs : steps (world_step issuer) (start_world ts n) w) (Hs' : steps (world_step issuer) w w')
  (Ha : Authenticate set (database w') c at_ enc = (Ok authority, work)) :
  exists presented row, ParsePresentedKey enc = Ok presented /\ opens set (database w') presented row /\ live (database w') row at_ /\
    authority = mk_authority (r_id row) (r_tenant row) (grant_of row) /\
    forall row0 at0, keys (database w) !! Principal authority = Some row0 -> before at_ at0 = false ->
      live (database w) row0 at0 /\ AGrant authority = grant_of row0 /\ TenantScope authority = r_tenant row0.
Proof.
  pose proof (reachable_sound _ _ _ _ Hts Hs) as Hw. destruct (steps_sound _ _ _ Hs' Hw) as [[Hl' _] He].
  destruct (Authenticate_Ok _ _ _ _ _ _ _ Hl' Ha) as (presented & row & Hp & Ho & Hlive & -> & _ & Hid).
  exists presented, row. split_and!; try done. cbn [Principal AGrant TenantScope]. intros row0 at0 Hk Hb.
  destruct He as (Hd & Hrest). destruct (Hd _ _ Hk) as (row1 & Hk1 & He1). destruct Ho as (Hko & _). rewrite Hid, Hko in Hk1. injection Hk1 as <-.
  pose proof (evolves_identity _ _ He1) as (_ & I2 & I3 & I4 & _). split; [by eapply live_earlier|].
  unfold grant_of. by rewrite I2, I3, I4.
Qed.

(** C8: An issued credential is good for its authority.  Once a worker holds the
    answer of an issuance or rotation, then in every later world the row of its key is
    there, and at any instant at which it is live the revealed text authenticates,
    with one digest computed, as that key of that tenant with the grant it was issued
    for.  A permission is allowed exactly when the snapshot contains it. *)
Theorem issued_credential_authenticates ts n w w' j issued (Hts : identified ts) (Hs : steps (world_step issuer) (start_world ts n) w)
  (Hj : workers w !! j = Some (Returned (Issued issued))) (Hs' : steps (world_step issuer) w w') :
  exists row, keys (database w') !! KID (IKey issued) = Some row /\
    forall at_, live (database w') row at_ ->
      let authority := mk_authority (KID (IKey issued)) (KTenant (IKey issued)) (KGrant (IKey issued)) in
      Authenticate (issuer_peppers issuer) (database w') Committed at_ (Reveal (Credential issued)) = (Ok authority, [digest_message (Credential issued)]) /\
      forall p, AllowsIn authority p = true <-> p ∈ granted (KGrant (IKey issued)).
Proof.
  pose proof (reachable_sound _ _ _ _ Hts Hs) as Hw. destruct (steps_sound _ _ _ Hs' Hw) as [[Hl' _] He].
  pose proof (Forall_lookup_1 _ _ _ _ (proj2 Hw) Hj) as Hc. apply (local_ok_evolves _ _ (database w')) in Hc; [|done].
  destruct Hc as [Hseen (t & u & secret & pepper & Hcred & Hsec & Hid & Hten & Hpep & Hdig)]. pose proof (seen_grant _ _ Hseen) as [Hg _].
  destruct Hseen as (Hread & Hkey & row & Hrow & Hev). exists row. split; [done|]. intros at_ Hlive authority.
  destruct (evolves_identity _ _ Hev) as (I1 & I2 & I3 & I4 & I5 & I6 & _).
  assert (Hgr : grant_of row = KGrant (IKey issued)) by (unfold grant_of; rewrite I3, I4; by rewrite <- Hkey at 3).
  split.
  - rewrite (Authenticate_live _ _ _ _ (Credential issued) row); [unfold authority; by rewrite I1, I2, Hgr|done| |split_and!|done].
    + rewrite Hcred. by apply KeyText.parse_reveal.
    + by rewrite <- Hid.
    + by rewrite I2, <- Hten.
    + exists pepper. rewrite I5, I6. split; [done|]. exact Hdig.
  - intros p. unfold AllowsIn, authority. cbn [TenantScope AGrant]. rewrite andb_true_iff, (Allows_granted _ _ Hg).
    assert (He' : empty_string (KTenant (IKey issued)) = false) by (destruct Hread as (Hv & _); unfold row_valid in Hv; bprop; by eapply id_format_not_empty).
    rewrite He'. split; [by intros [_ ?]|done].
Qed.

(** C9: The audit trail is the history of the keys.  In every reachable world, whatever
    crashed or committed unseen, a key has one audit row of its issuance unless it
    succeeded another, one of its rotation exactly when it is retired, one of its
    revocation exactly when it is revoked, and no row if it does not exist.  Its
    version counts these transitions.  It is retired exactly when one key succeeded it,
    which belongs to the same tenant, whose creation precedes the retirement by no more
    than the configured overlap, and which outlives it. *)
Theorem key_history_audited ts n w k (Hts : identified ts) (Hs : steps (world_step issuer) (start_world ts n) w) :
  counted (database w) "issue" k = match keys (database w) !! k with Some row => if is_some (r_replaces row) then 0 else 1 | None => 0 end%nat /\
  counted (database w) "rotate" k = match keys (database w) !! k with Some row => if is_some (r_retired row) then 1 else 0 | None => 0 end%nat /\
  counted (database w) "revoke" k = match keys (database w) !! k with Some row => if is_some (r_revoked row) then 1 else 0 | None => 0 end%nat /\
  forall row, keys (database w) !! k = Some row ->
    r_version row = 1 + flag (is_some (r_revoked row)) + flag (is_some (r_retired row)) /\
    (is_some (r_retired row) = true <-> exists k' row', keys (database w) !! k' = Some row' /\ r_replaces row' = Some k) /\
    (forall k' row', keys (database w) !! k' = Some row' -> r_replaces row' = Some k -> succeeded (maximumOverlap issuer) (database w) row' k /\
       forall k2 row2, keys (database w) !! k2 = Some row2 -> r_replaces row2 = Some k -> k2 = k').
Proof.
  destruct (reachable_sound _ _ _ _ Hts Hs) as [Hl _]. pose proof (g_audit _ _ Hl k) as Ha.
  split_and!; [apply Ha; left|apply Ha; right; left|apply Ha; right; right; left|]. intros row Hk. split_and!.
  - by apply (g_rows _ _ Hl _ _ Hk).
  - split; [by apply (g_retired _ _ Hl)|]. intros (k' & row' & Hk' & Hp). destruct (g_successor _ _ Hl _ _ _ Hk' Hp) as (x & t & Hx & _ & Ht & _).
    rewrite Hk in Hx. injection Hx as <-. by rewrite Ht.
  - intros k' row' Hk' Hp. split; [by apply (g_successor _ _ Hl k')|]. intros k2 row2 H2 Hp2. by apply (g_single _ _ Hl k2 k' row2 row' k).
Qed.

(** The length of a digested message: domain, two identifiers, the secret, two separators. *)
Definition work_length : Z := slen hmacDomain + 30 + 1 + 30 + 1 + 32.

Lemma parsed_message_length enc presented : ParsePresentedKey enc = Ok presented -> slen (digest_message presented) = work_length.
Proof.
  unfold ParsePresentedKey. intros Hp. repeat (apply reject_Ok in Hp as [_ Hp]).
  destruct (Ident.ParseTenant _) as [t|] eqn:Ht; [|done]. destruct (Ident.ParseAPIKey _) as [k|] eqn:Hk; [|done]. destruct (DecodeString _) as [secret|]; [|done].
  apply reject_Ok in Hp as [Hlen [= <-]]. apply negb_false_iff, Z.eqb_eq in Hlen.
  assert (Hid : forall prefix (i : Ident.Id prefix) s, Ident.parse_typed prefix s = Ok i -> slen (Ident.id_string i) = 30).
  { intros prefix i s (v & Hv & [= <-])%rbind_Ok. apply Ident.Parse_Ok in Hv as (Hn & Hpre & _). pose proof (Ident.prefix_length _ Hn) as Hpl.
    unfold Ident.id_string, Ident.value_string. cbn [Ident.value]. rewrite Hpre, (Ident.prefix_not_empty _ Hn), !slen_app, ulid_size. unfold slen. rewrite Hpl. done. }
  unfold digest_message. cbn [PTenant PKey PSecret]. rewrite !slen_app, Hlen, (Hid _ _ _ Ht), (Hid _ _ _ Hk). done.
Qed.

(** A store never answers with the error for invalid credentials. *)
Lemma reject_Err {A : Type} (b : bool) (e e' : Error) (k : result Error A) : (if b then Err e else k) = Err e' -> e = e' \/ k = Err e'.
Proof. destruct b; [intros [= ->]; by left|by right]. Qed.

Ltac err_inv H :=
  repeat match type of H with
  | rbind _ _ = Err _ => apply rbind_Err in H as [H|(? & _ & H)]
  | (if _ then Err _ else _) = Err _ => apply reject_Err in H as [H|H]
  end.

Lemma restore_error row : restore row <> Err ErrInvalidCredential.
Proof.
  unfold restore, ParseDigest, RestoreKey, validateKeyLabel, lift_scope, parse_key_id, parse_tenant_id. intros He. err_inv He; try done.
  - by destruct (Ident.ParseAPIKey (r_id row)).
  - by destruct (Ident.ParseTenant (r_tenant row)).
  - by destruct (RestoreGrant _ _).
  - destruct (r_replaces row) as [p|]; [|done]. by destruct (Ident.ParseAPIKey p).
Qed.

Lemma verification_error db c t k : FindForVerification db c t k <> Err ErrInvalidCredential.
Proof.
  unfold FindForVerification. intros He. err_inv He; [done|]. unfold reading, transact in He.
  destruct (rbind _ _) as [[a x]|e] eqn:Hb; cbn in He; [by destruct c|]. injection He as ->. err_inv Hb; [| |done].
  - unfold find_row in Hb. destruct (keys db !! k); [err_inv Hb|]; done.
  - destruct (tenants db !! t) as [state|]; [|done]. err_inv Hb; [by apply restore_error in Hb|]. unfold NewVerificationRecord in Hb. err_inv Hb; [done|]. by destruct state.
Qed.


(** *** The commands of the bridge *)

(** The command that a step works on. *)
Definition carries (l : Local) (call : Call) : option string :=
  match l with
  | Idle =>
      match call with
      | CallBridgeIssue command _ _ _ | CallBridge command _ _ _ | CallObserve command _ => Some (CommandID command)
      | _ => None
      end
  | BridgeUnobserved command _ _ _ | BridgeRotateFound command _ _ _ _ _ | BridgeRevokeFound command _ _ _ _ _ => Some (CommandID command)
  | _ => None
  end.

(** An answer about a command that is kept, and about one that was just applied. *)
Definition answers_kept (kept : CommandRow) (created : bool) (l : Local) : Prop :=
  match l with
  | Returned (Bridged key envelope created') =>
      created' = created /\ KID key = c_key kept /\ (envelope = no_envelope \/ c_delivery kept = Some envelope)
  | Returned (Issued _) | Returned (Revoked _) | Returned (Listed _) => False
  | _ => True
  end.
Definition answers_nothing (l : Local) : Prop := match l with Returned (Failed _) => True | Returned _ => False | _ => True end.

Lemma replayed_key_Ok db row scope operation command key : ledger db -> replayed_key db row scope operation command = Ok key -> KID key = c_key row.
Proof.
  unfold replayed_key. intros Hl [_ Hr]%reject_Ok. destruct (find_row db (c_tenant row) (c_key row)) as [x|] eqn:Hf; [|done].
  apply find_row_Ok in Hf as [Hk _]. by destruct (restore_seen _ _ _ _ _ Hl Hk Hr) as (_ & _ & ? & _).
Qed.

(** The two shapes of a transaction of the bridge: a replay, or the effect with its receipt. *)
Definition replays (db : Database) (kept : CommandRow) (r : result Error (Key * CredentialEnvelope * bool)) (db' : Database) : Prop :=
  db' = db /\ forall key envelope created, r = Ok (key, envelope, created) -> created = false /\ KID key = c_key kept /\ (envelope = no_envelope \/ c_delivery kept = Some envelope).
Definition applies (db : Database) (id : string) (r : result Error (Key * CredentialEnvelope * bool)) (db' : Database) : Prop :=
  (db' = db /\ is_ok r = false) \/
  exists kept, commands db' !! id = Some kept /\ forall key envelope created, r = Ok (key, envelope, created) ->
    created = true /\ KID key = c_key kept /\ (envelope = no_envelope \/ c_delivery kept = Some envelope).

Lemma applied_receipt db1 id row db2 (key : Key) envelope r : insert_command db1 id row = Ok db2 -> c_key row = KID key ->
  (envelope = no_envelope \/ c_delivery row = Some envelope) ->
  (r = Ok (key, envelope, true) \/ r = Err ErrQuery) -> forall db, applies db id r db2.
Proof.
  intros (_ & _ & ->)%insert_command_Ok Hk He Hr db. right. exists row. split; [apply lookup_insert_eq|]. intros k e b ->.
  destruct Hr as [[= -> -> ->]|?]; [|done]. done.
Qed.

Lemma IssueBridgeCommand_once privileged db c action scope command key envelope r db' : ledger db ->
  IssueBridgeCommand privileged db c action scope command key envelope = (r, db') ->
  match commands db !! CommandID command with Some kept => replays db kept r db' | None => applies db (CommandID command) r db' end.
Proof.
  unfold IssueBridgeCommand. intros Hl Hc. destruct (negb (sameTenant _ _)).
  { injection Hc as <- <-. destruct (commands db !! _); [done|by left]. }
  apply transact_cases in Hc as [[-> Hno]|(a & Hb & Hr)].
  { destruct (commands db !! _); [split; [done|by intros ? ? ? ->]|by left]. }
  apply requireAdminPrivilege_bind in Hb. destruct (commands db !! CommandID command) as [kept|] eqn:Hk.
  - destruct (c_delivery kept) as [e|] eqn:Hd; [|done]. apply rbind_Ok in Hb as (k & Hb & [= <- <-]). split; [done|].
    intros k' e' b' ->. destruct Hr as [[= -> -> ->]|?]; [|done]. split_and!; [done|by eapply replayed_key_Ok|by right].
  - apply rbind_Ok in Hb as (db1 & _ & Hb). apply rbind_Ok in Hb as (db2 & _ & Hb). apply rbind_Ok in Hb as (db3 & Hi & [= <- <-]).
    eapply applied_receipt; [exact Hi|done|by right|done].
Qed.

Lemma RotateBridgeCommand_once privileged db c action scope command predecessor expected successor envelope r db' : ledger db ->
  RotateBridgeCommand privileged db c action scope command predecessor expected successor envelope = (r, db') ->
  match commands db !! CommandID command with Some kept => replays db kept r db' | None => applies db (CommandID command) r db' end.
Proof.
  unfold RotateBridgeCommand. intros Hl Hc. apply transact_cases in Hc as [[-> Hno]|(a & Hb & Hr)].
  { destruct (commands db !! _); [split; [done|by intros ? ? ? ->]|by left]. }
  apply requireAdminPrivilege_bind in Hb. destruct (commands db !! CommandID command) as [kept|] eqn:Hk.
  - destruct (c_delivery kept) as [e|] eqn:Hd; [|done]. apply rbind_Ok in Hb as (k & Hb & [= <- <-]). split; [done|].
    intros k' e' b' ->. destruct Hr as [[= -> -> ->]|?]; [|done]. split_and!; [done|by eapply replayed_key_Ok|by right].
  - apply rbind_Ok in Hb as (db1 & _ & Hb). apply rbind_Ok in Hb as (db2 & _ & Hb). apply rbind_Ok in Hb as (db3 & Hi & [= <- <-]).
    eapply applied_receipt; [exact Hi|done|by right|done].
Qed.

(** A revocation delivers nothing. *)
Definition undelivered (r : result Error (Key * bool)) : result Error (Key * CredentialEnvelope * bool) :=
  match r with Ok (key, created) => Ok (key, no_envelope, created) | Err e => Err e end.

Lemma RevokeBridgeCommand_once privileged db c action scope command key expected r db' : ledger db ->
  RevokeBridgeCommand privileged db c action scope command key expected = (r, db') ->
  match commands db !! CommandID command with Some kept => replays db kept (undelivered r) db' | None => applies db (CommandID command) (undelivered r) db' end.
Proof.
  unfold RevokeBridgeCommand. intros Hl Hc. apply transact_cases in Hc as [[-> Hno]|(a & Hb & Hr)].
  { destruct r; [done|]. destruct (commands db !! _); [done|by left]. }
  apply requireAdminPrivilege_bind in Hb. destruct (commands db !! CommandID command) as [kept|] eqn:Hk.
  - apply rbind_Ok in Hb as (k & Hb & [= <- <-]). split; [done|]. intros k' e' b'. destruct Hr as [->| ->]; [|done]. cbn. intros [= <- <- <-].
    split_and!; [done|by eapply replayed_key_Ok|by left].
  - apply rbind_Ok in Hb as (db1 & _ & Hb). apply rbind_Ok in Hb as (db2 & _ & Hb). apply rbind_Ok in Hb as (db3 & Hi & [= <- <-]).
    eapply applied_receipt; [exact Hi|done|by left|]. destruct Hr as [->| ->]; [by left|by right].
Qed.

(** What a step that carries a command does, by what is kept of the command. *)
Definition once (db : Database) (id : string) (l' : Local) (db' : Database) : Prop :=
  match commands db !! id with
  | Some kept => db' = db /\ answers_kept kept false l'
  | None => (db' = db /\ answers_nothing l') \/ exists kept, commands db' !! id = Some kept /\ answers_kept kept true l'
  end.

Lemma once_nothing db id l : answers_nothing l -> once db id l db.
Proof. unfold once. intros Hl. destruct (commands db !! id); [split; [done|by destruct l as [| | | | | |[]]]|by left]. Qed.

Lemma once_bridged db id r db' :
  match commands db !! id with Some kept => replays db kept r db' | None => applies db id r db' end ->
  once db id (answered r (fun '(key, envelope, created) => Bridged key envelope created)) db'.
Proof.
  unfold once. destruct (commands db !! id) as [kept|].
  - intros [-> Hr]. split; [done|]. destruct r as [[[key envelope] created]|e]; [|done]. by apply Hr.
  - intros [[-> Hno]|(kept & Hk & Hr)]; [left; by destruct r|]. right. exists kept. split; [done|]. destruct r as [[[key envelope] created]|e]; [|done]. by apply Hr.
Qed.

Lemma Observe_once privileged db c scope command : ledger db -> forall key envelope, ObserveBridgeCommand privileged db c scope command = Ok (key, envelope) ->
  exists kept, commands db !! CommandID command = Some kept /\ KID key = c_key kept /\ (envelope = no_envelope \/ c_delivery kept = Some envelope).
Proof.
  unfold ObserveBridgeCommand. intros Hl key envelope Ho. apply reading_Ok, requireAdminPrivilege_bind in Ho.
  destruct (commands db !! CommandID command) as [kept|]; [|done]. apply rbind_Ok in Ho as (k & Hk & [= <- <-]). exists kept. split_and!; [done|by eapply replayed_key_Ok|].
  destruct (c_delivery kept); auto.
Qed.

Lemma carried_once l call i db l' db' id : ledger db -> work issuer l call i db = (l', db') -> carries l call = Some id -> once db id l' db'.
Proof.
  intros Hl Hw Hc. unfold work in Hw. destruct (crash i); [injection Hw as <- <-; by apply once_nothing|].
  destruct l as [| | |command action scope operation|command action scope input at_ pre|command action scope ev at_ key|]; try done.
  - destruct call as [| | | |command action scope input|command action scope operation|command scope]; try done; injection Hc as <-; cbn [start_call] in Hw.
    + unfold bridge_issue_call in Hw. destruct (negb _); [injection Hw as <- <-; by apply once_nothing|]. cbv zeta in Hw.
      destruct (rbind _ _) as [[[prepared issued] envelope]|e]; [|injection Hw as <- <-; by apply once_nothing].
      destruct (IssueBridgeCommand _ _ _ _ _ _ _ _) as [r db1] eqn:Hb. injection Hw as <- <-. apply once_bridged. by eapply IssueBridgeCommand_once.
    + injection Hw as <- <-. unfold bridge_call. destruct (_ || _); [by apply once_nothing|].
      destruct (ObserveBridgeCommand _ _ _ _ _) as [[k e]|e] eqn:Ho; [|by destruct e; apply once_nothing].
      destruct (Observe_once _ _ _ _ _ Hl _ _ Ho) as (kept & Hk & Hid & He). unfold once. rewrite Hk. split; [done|]. split_and!; [done|done|]. destruct operation; auto.
    + injection Hw as <- <-. unfold observe_call. destruct (negb _); [by apply once_nothing|].
      destruct (ObserveBridgeCommand _ _ _ _ _) as [[k e]|e] eqn:Ho; [|by apply once_nothing].
      destruct (Observe_once _ _ _ _ _ Hl _ _ Ho) as (kept & Hk & Hid & He). unfold once. rewrite Hk. done.
  - injection Hc as <-. injection Hw as <- <-. apply once_nothing. unfold bridge_find. destruct (prepareAdminAction _ _); [|done].
    by destruct operation; destruct (FindAdministrative _ _ _ _ _).
  - injection Hc as <-. unfold bridge_rotate_finish in Hw. destruct (prepare_bridge_rotation _ _ _ _ _) as [[successor scheduled]|e]; [|injection Hw as <- <-; by apply once_nothing].
    destruct (sealed i) as [envelope|]; [|injection Hw as <- <-; by apply once_nothing].
    destruct (RotateBridgeCommand _ _ _ _ _ _ _ _ _ _) as [r db1] eqn:Hb. injection Hw as <- <-. apply once_bridged. by eapply RotateBridgeCommand_once.
  - injection Hc as <-. unfold bridge_revoke_finish in Hw. destruct (revoked_key _ _ _) as [key'|e]; [|injection Hw as <- <-; by apply once_nothing].
    destruct (RevokeBridgeCommand _ _ _ _ _ _ _ _) as [r db1] eqn:Hb. injection Hw as <- <-. apply RevokeBridgeCommand_once, once_bridged in Hb; [|done].
    by destruct r as [[key2 created]|e].
Qed.

(** C10: A bridge command is applied at most once.  In every reachable world, a step
    that works on a command whose receipt is kept changes nothing, and what it answers
    is the key of the receipt, marked as not created.  A step on a command without a
    receipt changes nothing and answers no key, or stores the receipt of the very key
    it answers in the transaction of its effect; and a receipt stays as it is. *)
Theorem bridge_command_applied_once ts n w j l call i l' db' id (Hts : identified ts) (Hs : steps (world_step issuer) (start_world ts n) w)
  (Hj : workers w !! j = Some l) (Hw : work issuer l call i (database w) = (l', db')) (Hc : carries l call = Some id) :
  match commands (database w) !! id with
  | Some kept => db' = database w /\ answers_kept kept false l'
  | None => (db' = database w /\ answers_nothing l') \/ exists kept, commands db' !! id = Some kept /\ answers_kept kept true l'
  end /\
  forall kept w', commands (database w) !! id = Some kept -> steps (world_step issuer) w w' -> commands (database w') !! id = Some kept.
Proof.
  pose proof (reachable_sound _ _ _ _ Hts Hs) as Hsound. split.
  - exact (carried_once _ _ _ _ _ _ _ (proj1 Hsound) Hw Hc).
  - intros kept w' Hk Hs'. destruct (steps_sound _ _ _ Hs' Hsound) as [_ (_ & _ & _ & Hkept)]. by apply Hkept.
Qed.

(** *** Where the bridge answers otherwise than it means to *)

(** A command identifier kept of a revocation has no delivery.  Issuing or rotating
    under it is a conflict, but the null columns are scanned into strings before the
    operation is compared: the answer is a query failure, as if it could be retried. *)
Lemma revocation_id_reused db c action scope command kept : commands db !! CommandID command = Some kept -> c_delivery kept = None ->
  (forall key envelope, sameTenant scope (KTenant key) = true -> IssueBridgeCommand true db c action scope command key envelope = (Err ErrQuery, db)) /\
  forall predecessor expected successor envelope,
    RotateBridgeCommand true db c action scope command predecessor expected successor envelope = (Err ErrQuery, db).
Proof.
  intros Hk Hd. split.
  - intros key envelope Ht. unfold IssueBridgeCommand. rewrite Ht. cbn [negb]. unfold requireAdminPrivilege. cbn [negb rbind]. rewrite Hk, Hd. by destruct c.
  - intros predecessor expected successor envelope. unfold RotateBridgeCommand, requireAdminPrivilege. cbn [negb rbind]. rewrite Hk, Hd. by destruct c.
Qed.

(** The bridge observes a command before it revokes, and the observation does not
    compare the operation: a revocation under the identifier and digest of a kept
    issuance answers the key as if it were revoked, and nothing is. *)
Lemma revocation_answered_by_issuance db command action scope identifier expected i kept row :
  privileged i = true -> commit i = Committed -> command_identified command = true -> empty_string identifier = false -> 1 <= expected ->
  commands db !! CommandID command = Some kept -> c_tenant kept = scope -> c_digest kept = RequestDigest command ->
  keys db !! c_key kept = Some row -> r_tenant row = scope -> restore row = Ok (key_of row) ->
  bridge_call command action scope (BridgeRevoke identifier expected) i db = Returned (Bridged (key_of row) no_envelope false).
Proof.
  intros Hp Hc Hi Hn He Hk <- Hd Hr Ht Hs. unfold bridge_call, operation_admitted. rewrite Hi, Hn. cbn [negb andb orb].
  rewrite (proj2 (Z.ltb_ge expected 1) He). cbn [negb orb]. unfold ObserveBridgeCommand, reading, requireAdminPrivilege. rewrite Hp, Hc. cbn [negb rbind].
  rewrite Hk. unfold replayed_key, find_row. rewrite !String.eqb_refl, Hd, String.eqb_refl. cbn [negb orb]. rewrite Hr, Ht, String.eqb_refl. cbn [negb].
  rewrite Hs. done.
Qed.
End Spec.
End AccessSpec.

(** ** Concrete runs *)
Module AccessWitness.
Import Ident.UlidText AccessSpec.

(** A stand-in for HMAC that keeps the last 32 bytes. *)
Definition last_bytes (s : string) : string :=
  String.string_of_list_ascii (take 32 (rev (String.list_ascii_of_string s) ++ repeat "0"%char 32)).
Lemma last_bytes_size s : slen (last_bytes s) = 32.
Proof.
  unfold last_bytes, slen. assert (Hl : forall l, String.length (String.string_of_list_ascii l) = length l) by (induction l; cbn; congruence).
  rewrite Hl, length_take, length_app, repeat_length. lia.
Qed.
#[local] Instance access_crypto : AccessCrypto := {| hmac_sha256 := fun _ m => last_bytes m; hmac_size := fun _ m => last_bytes_size m |}.
#[local] Instance access_database : AccessDatabase := {| pg_label := fun s => negb (empty_string s); pg_command_id := fun s => negb (empty_string s) |}.
Lemma text_size (t : text) : slen (`t) = 26.
Proof. destruct t as [s Hs]. cbn. unfold valid in Hs. bprop. done. Qed.
Lemma text_canonical s (t : text) : parse s = Some t -> string_forall (byte_of UlidText.alphabet) s = true -> `t = s.
Proof. unfold parse. destruct (bool_dec _ _) as [E|E]; [by intros [= <-]|done]. Qed.
#[local] Instance canonical_text : CanonicalUlid := {| ulid_size := text_size : forall u, slen (Ident.ulid_string u) = 26; ulid_canonical := text_canonical |}.

(** One active tenant, and an issuer that lets keys live without expiry. *)
Definition tenant : string := "ten_01ARZ3NDEKTSV4RRFFQ69G5FAV".
Definition tenants0 : gmap string TenantState := {[tenant := StateActive]}.
Definition secret_bytes : string := "abcdefghijklmnopqrstuvwxyz012345".
Definition pepper_set : PepperSet := Eval vm_compute in match NewPepperSet 1 {[1 := secret_bytes]} with Ok set => set | Err _ => mk_peppers 0 ∅ end.
Definition issuer : Issuer := mk_issuer pepper_set TenantRegistry (mk_expiry_policy true true None) (100 * second).
Definition at_ (n : Z) : Time := mk_time (n * second) true.

Definition admin : AdminAction := mk_action "root@example" "onboarding" zero_time.
Definition envelope : CredentialEnvelope := mk_envelope "x25519" "pub" "nonce" "sealed".
Definition input (n : Z) (ulid : string) : Input := mk_input (at_ n) (at_ n) (Ident.ulid_parse_strict ulid) secret_bytes (Some envelope) Committed true false.
Definition first_ulid : string := "01ARZ3NDEKTSV4RRFFQ69G5FA1".
Definition next_ulid : string := "01ARZ3NDEKTSV4RRFFQ69G5FA2".
Definition bridge_ulid : string := "01ARZ3NDEKTSV4RRFFQ69G5FA3".

Definition issue : Call := CallIssue admin tenant (mk_issue_input "front desk" ["subjects:*"] WithoutExpiry).
Definition rotate : Call := CallRotate admin tenant (mk_rotate_input ("key_" +:+ first_ulid) WithoutExpiry (50 * second) []).
Definition command : BridgeCommand := mk_command "cmd-1" secret_bytes.
Definition bridge_issue : Call := CallBridgeIssue command admin tenant (mk_issue_input "bridge" ["subjects:read"] WithoutExpiry).

Definition drive (w : World) (move : nat * Call * Input) : World :=
  let '(k, call, i) := move in
  match workers w !! k with Some l => let '(l', db') := work issuer l call i (database w) in mk_world db' (<[k := l']> (workers w)) | None => w end.
Lemma drive_world w move : steps (world_step issuer) w (drive w move).
Proof.
  destruct move as [[k call] i]. unfold drive. destruct (workers w !! k) as [l|] eqn:Hl; [|apply steps_refl].
  destruct (work issuer l call i (database w)) as [l' db'] eqn:Hw. apply steps_one. by eapply world_work.
Qed.
Lemma drives_world ms w w' : steps (world_step issuer) w w' -> steps (world_step issuer) w (fold_left drive ms w').
Proof. revert w'. induction ms as [|m ms IH]; intros w' Hs; [done|]. cbn. apply IH. eapply steps_trans; [exact Hs|apply drive_world]. Qed.

(** Worker 0 issues a key at 10 s, worker 1 rotates it at 20 s, and worker 2 issues one
    for a command at 30 s. *)
Definition start : World := start_world tenants0 3.
Definition issuing : list (nat * Call * Input) := [(0%nat, issue, input 10 first_ulid)].
Definition rotating : list (nat * Call * Input) := [(1%nat, rotate, input 20 next_ulid); (1%nat, rotate, input 20 next_ulid)].
Definition bridging : list (nat * Call * Input) := [(2%nat, bridge_issue, input 30 bridge_ulid); (2%nat, bridge_issue, input 31 bridge_ulid)].
Definition issued_world : World := Eval vm_compute in fold_left drive issuing start.
Definition rotated_world : World := Eval vm_compute in fold_left drive rotating issued_world.
Definition bridged_world : World := Eval vm_compute in fold_left drive bridging rotated_world.

Lemma tenants_identified : identified tenants0.
Proof. intros t s. unfold tenants0. intros [<- _]%lookup_singleton_Some. vm_compute. reflexivity. Qed.

Lemma issued_reached : steps (world_step issuer) start issued_world.
Proof. exact (drives_world issuing start start (steps_refl _ _)). Qed.
Lemma rotated_reached : steps (world_step issuer) issued_world rotated_world.
Proof. exact (drives_world rotating issued_world issued_world (steps_refl _ _)). Qed.
Lemma bridged_reached : steps (world_step issuer) rotated_world bridged_world.
Proof. exact (drives_world bridging rotated_world rotated_world (steps_refl _ _)). Qed.
Lemma start_bridged : steps (world_step issuer) start bridged_world.
Proof. eapply steps_trans; [exact issued_reached|]. eapply steps_trans; [exact rotated_reached|exact bridged_reached]. Qed.

Definition no_key : Key := mk_key "" "" "" "" 0 (mk_grant [] []) 0 zero_time zero_time None None None "".
Definition issued_key : IssuedKey :=
  Eval vm_compute in match workers issued_world !! 0%nat with Some (Returned (Issued issued)) => issued | _ => mk_issued no_key no_presented end.
Definition revealed : string := Eval vm_compute in Reveal (Credential issued_key).
Definition the_authority : Authority := Eval vm_compute in mk_authority (KID (IKey issued_key)) tenant (KGrant (IKey issued_key)).

(** The rotated key authenticates until its retirement, 70 s. *)
Example overlap_and_after :
  (Authenticate pepper_set (database rotated_world) Committed (at_ 69) revealed).1 = Ok the_authority /\
  (Authenticate pepper_set (database rotated_world) Committed (at_ 70) revealed).1 = Err ErrInvalidCredential /\
  granted (AGrant the_authority) = ["subjects:delete"; "subjects:read"; "subjects:write"].
Proof. vm_compute. split_and!; reflexivity. Qed.

Lemma authenticated_authority_is_live_witness : exists presented row,
  ParsePresentedKey revealed = Ok presented /\ opens pepper_set (database rotated_world) presented row /\ live (database rotated_world) row (at_ 40) /\
  forall row0, keys (database issued_world) !! ("key_" +:+ first_ulid) = Some row0 -> live (database issued_world) row0 (at_ 30).
Proof.
  assert (Ha : exists performed, Authenticate pepper_set (database rotated_world) Committed (at_ 40) revealed = (Ok the_authority, performed)).
  { eexists. vm_compute. reflexivity. }
  destruct Ha as [performed Ha].
  destruct (authenticated_authority_is_live issuer tenants0 3 issued_world rotated_world _ _ _ _ _ _ tenants_identified issued_reached rotated_reached Ha)
    as (presented & row & Hp & Ho & Hl & _ & Hearlier).
  exists presented, row. split; [exact Hp|]. split; [exact Ho|]. split; [exact Hl|]. intros row0 Hk. apply (Hearlier row0 (at_ 30)); [exact Hk|reflexivity].
Defined.

Lemma issued_credential_authenticates_witness : exists row,
  keys (database bridged_world) !! KID (IKey issued_key) = Some row /\
  forall instant_, live (database bridged_world) row instant_ ->
    (Authenticate pepper_set (database bridged_world) Committed instant_ (Reveal (Credential issued_key))).1 =
      Ok (mk_authority (KID (IKey issued_key)) (KTenant (IKey issued_key)) (KGrant (IKey issued_key))).
Proof.
  assert (Hj : workers issued_world !! 0%nat = Some (Returned (Issued issued_key))) by (vm_compute; reflexivity).
  destruct (issued_credential_authenticates issuer tenants0 3 issued_world bridged_world 0 issued_key tenants_identified issued_reached Hj
              (steps_trans _ _ _ _ rotated_reached bridged_reached)) as (row & Hk & Ha).
  exists row. split; [exact Hk|]. intros instant_ Hl. destruct (Ha instant_ Hl) as [Hauth _]. exact (f_equal fst Hauth).
Defined.

Lemma key_history_audited_witness : counted (database bridged_world) "rotate" ("key_" +:+ first_ulid) = 1%nat /\ counted (database bridged_world) "issue" ("key_" +:+ next_ulid) = 0%nat.
Proof.
  split.
  - assert (Hrow : exists row t, keys (database bridged_world) !! ("key_" +:+ first_ulid) = Some row /\ r_retired row = Some t)
      by (eexists _, _; split; vm_compute; reflexivity).
    destruct Hrow as (row & t & Hk & Hr).
    destruct (key_history_audited issuer tenants0 3 bridged_world ("key_" +:+ first_ulid) tenants_identified start_bridged) as (_ & Hc & _).
    rewrite Hk, Hr in Hc. exact Hc.
  - assert (Hrow : exists row t, keys (database bridged_world) !! ("key_" +:+ next_ulid) = Some row /\ r_replaces row = Some t)
      by (eexists _, _; split; vm_compute; reflexivity).
    destruct Hrow as (row & t & Hk & Hr).
    destruct (key_history_audited issuer tenants0 3 bridged_world ("key_" +:+ next_ulid) tenants_identified start_bridged) as (Hc & _).
    rewrite Hk, Hr in Hc. exact Hc.
Defined.


(** The command again, from the worker that applied it. *)
Definition again : Local * Database := Eval vm_compute in work issuer Idle bridge_issue (input 40 next_ulid) (database bridged_world).
Lemma bridge_command_applied_once_witness : exists kept,
  commands (database bridged_world) !! CommandID command = Some kept /\ again.2 = database bridged_world /\ answers_kept kept false again.1.
Proof.
  assert (Hj : workers bridged_world !! 2%nat = Some Idle) by (vm_compute; reflexivity).
  assert (Hw : work issuer Idle bridge_issue (input 40 next_ulid) (database bridged_world) = (again.1, again.2)) by (vm_compute; reflexivity).
  assert (Hc : carries Idle bridge_issue = Some (CommandID command)) by reflexivity.
  assert (Hk : exists kept, commands (database bridged_world) !! CommandID command = Some kept) by (eexists; vm_compute; reflexivity).
  destruct Hk as [kept Hk].
  destruct (bridge_command_applied_once issuer tenants0 3 bridged_world 2 Idle bridge_issue _ _ _ _ tenants_identified start_bridged Hj Hw Hc) as [Ho _].
  rewrite Hk in Ho. exists kept. split; [exact Hk|]. exact Ho.
Defined.

(** A revocation of the first key under the command of the issuance is answered with
    the issued key, and the first key stays as it was. *)
Example revocation_under_issuance :
  let '(l, db') := work issuer Idle (CallBridge command admin tenant (BridgeRevoke ("key_" +:+ first_ulid) 2)) (input 40 next_ulid) (database bridged_world) in
  match l with Returned (Bridged key _ created) => KID key = ("key_" +:+ bridge_ulid)%string /\ created = false | _ => False end /\
  option_map r_revoked (keys db' !! ("key_" +:+ first_ulid)%string) = Some None.
Proof. vm_compute. split_and!; reflexivity. Qed.

(** Another text of the same key: the low bits of the last character are not read. *)
Example second_text_of_a_key : exists other, other <> revealed /\ ParsePresentedKey other = ParsePresentedKey revealed /\ is_ok (ParsePresentedKey other) = true.
Proof. exists (String.substring 0 103 revealed +:+ "V")%string. vm_compute. split_and!; [discriminate|reflexivity|reflexivity]. Qed.
End AccessWitness.
