(* ===== verification/AccessToken.v ===== *)
(** * Capture and outcome tokens

    [internal/access/capture_token.go] and [outcome_token.go], which differ in their
    names, the format, the domain and the kind of identifier; the lookups and the
    restoration of [internal/verification/postgres/session_store.go]; and
    [internal/verification/capture_authenticator.go] and [outcome_authenticator.go].

    A definition for both kinds takes the kind first; [SignCapture], [SignOutcome] and
    so on are those of the two files.  The JSON of a payload is written out, since its
    texts are identifiers, in which nothing is escaped; the decoder of [encoding/json]
    is the class [TokenJson], with the law that it reads what was written of
    identifiers.  The restoration of a session is an argument of its lookup. *)

From S2P Require Import Prelude GoTime Ident Content Base64 Access.
From S2P Require Lifecycle AccessStore AccessSpec.
From Stdlib Require Import Ascii.

Module Tokens.

Inductive Kind := CaptureToken | OutcomeToken.
#[export] Instance Kind_eq_dec : EqDecision Kind. Proof. solve_decision. Defined.

Inductive TokenError := ErrInvalidToken | ErrKeyring | ErrCredential | ErrRevocation | ErrSigner | ErrSessionNotFound | ErrRow | ErrLookup.
#[export] Instance TokenError_eq_dec : EqDecision TokenError. Proof. solve_decision. Defined.

(** ** Constants *)

Definition tokenFormat (k : Kind) : string := match k with CaptureToken => "idq_cap_v1" | OutcomeToken => "idq_out_v1" end.
Definition tokenDomain (k : Kind) : string :=
  match k with CaptureToken => "idq-capture-token" | OutcomeToken => "idq-outcome-token" end +:+ nul +:+ "v1" +:+ nul.
Definition tokenKeyByteLength : Z := 32.
Definition maximumTokenLength : Z := 2048.
Definition tokenRedacted : string := "[REDACTED]".

(** ** Seconds of the epoch *)

Definition unixToInternal : Z := 62135596800.
(** [t.Unix()] and [time.Unix(seconds, 0).UTC()], whose sums wrap around. *)
Definition Unix (t : Time) : Z := wrap_int64 (instant t / second - unixToInternal).
Definition of_unix (seconds : Z) : Time := mk_time (wrap_int64 (seconds + unixToInternal) * second) true.

(** ** Keys *)

Record Keyring := mk_keyring { ring_active : Z; ring_keys : gmap Z string }.

Definition NewKeyring (active : Z) (keys : gmap Z string) : result TokenError Keyring :=
  reject (active =? 0) || bool_decide (keys = ∅) with ErrKeyring ;;
  reject negb (forallb (fun '(version, material) => negb (version =? 0) && (slen material =? tokenKeyByteLength)) (map_to_list keys)) with ErrKeyring ;;
  reject negb (is_some (keys !! active)) with ErrKeyring ;;
  Ok (mk_keyring active keys).
Definition ActiveVersion (ring : Keyring) : Z := ring_active ring.

(** ** The durable credential *)

Record Credential := mk_credential {
  CID : string; CTenant : string; CVerification : string; CVersion : Z; CIssued : Time; CExpires : Time; CRevoked : option Time }.

Definition RestoreCredential (identifier tenantID verificationID : string) (version : Z) (issuedAt expiresAt : Time) (revokedAt : option Time)
  : result TokenError Credential :=
  let issuedAt := of_unix (Unix (utc issuedAt)) in
  let expiresAt := of_unix (Unix (utc expiresAt)) in
  let revokedAt := utcCopy revokedAt in
  reject empty_string identifier || empty_string tenantID || empty_string verificationID || (version =? 0) || is_zero issuedAt ||
         negb (after expiresAt issuedAt) with ErrCredential ;;
  reject match revokedAt with Some t => before t issuedAt | None => false end with ErrRevocation ;;
  Ok (mk_credential identifier tenantID verificationID version issuedAt expiresAt revokedAt).
Definition NewCredential (identifier tenantID verificationID : string) (version : Z) (issuedAt expiresAt : Time) : result TokenError Credential :=
  RestoreCredential identifier tenantID verificationID version issuedAt expiresAt None.

Definition IsUsableAt (c : Credential) (now : Time) : bool := negb (is_some (CRevoked c)) && before (utc now) (CExpires c).
Definition RevokeCredential (c : Credential) (now : Time) : result TokenError Credential :=
  reject empty_string (CID c) || is_some (CRevoked c) with ErrInvalidToken ;;
  let now := utc now in
  reject before now (CIssued c) with ErrRevocation ;;
  Ok (mk_credential (CID c) (CTenant c) (CVerification c) (CVersion c) (CIssued c) (CExpires c) (Some now)).

(** ** Claims and payloads *)

Record Claims := mk_claims { TokenID : string; TenantID : string; VerificationID : string; KeyVersion : Z; IssuedAt : Time; ExpiresAt : Time }.
#[export] Instance Claims_eq_dec : EqDecision Claims. Proof. solve_decision. Defined.
Record Payload := mk_payload { p_token : string; p_tenant : string; p_verification : string; p_issued : Z; p_expires : Z }.

Definition quote : string := String "034" "".
Definition field (name value : string) : string := quote +:+ name +:+ quote +:+ ":" +:+ value.
Definition quoted (s : string) : string := quote +:+ s +:+ quote.
(** An [int64] in decimal. *)
Definition int_text (n : Z) : string := if n <? 0 then "-" +:+ decimal (- n) else decimal n.
(** [json.Marshal]. *)
Definition marshal_payload (p : Payload) : string :=
  "{" +:+ field "token_id" (quoted (p_token p)) +:+ "," +:+ field "tenant_id" (quoted (p_tenant p)) +:+ "," +:+
  field "verification_id" (quoted (p_verification p)) +:+ "," +:+ field "issued_at" (int_text (p_issued p)) +:+ "," +:+
  field "expires_at" (int_text (p_expires p)) +:+ "}".

Definition token_prefix (k : Kind) : Ident.Prefix := match k with CaptureToken => Ident.CaptureTokenPrefix | OutcomeToken => Ident.OutcomeTokenPrefix end.

(** A JSON decoder that rejects unknown fields, and the end of its input. *)
Class TokenJson `{Ident.Ulid} := {
  decode_payload : string -> option Payload;
  decode_marshal k (u t v : Ident.ulid) issued expires : min_int64 <= issued <= max_int64 -> min_int64 <= expires <= max_int64 ->
    let p := mk_payload (token_prefix k +:+ "_" +:+ Ident.ulid_string u) ("ten_" +:+ Ident.ulid_string t) ("ver_" +:+ Ident.ulid_string v) issued expires in
    decode_payload (marshal_payload p) = Some p;
}.

(** [strconv.ParseUint(s, 10, 16)]. *)
Fixpoint digits_value (s : string) (n : Z) : option Z :=
  match s with
  | EmptyString => Some n
  | String c rest => if is_digit c then digits_value rest (n * 10 + (Z.of_N (N_of_ascii c) - 48)) else None
  end.
Definition ParseUint16 (s : string) : option Z :=
  if empty_string s then None else n ← digits_value s 0; if n <=? 65535 then Some n else None.

Section Signer.
Context `{UL : Ident.Ulid} `{CR : AccessCrypto} `{TJ : !TokenJson}.

Definition parse_token_id (k : Kind) (s : string) : option string :=
  match Ident.parse_typed (token_prefix k) s with Ok i => Some (Ident.id_string i) | Err _ => None end.

Definition parseClaims (k : Kind) (payload : Payload) (version : Z) : option Claims :=
  tokenID ← parse_token_id k (p_token payload);
  match Ident.ParseTenant (p_tenant payload), Ident.ParseVerification (p_verification payload) with
  | Ok tenantID, Ok verificationID =>
      let issuedAt := of_unix (p_issued payload) in
      let expiresAt := of_unix (p_expires payload) in
      if is_zero issuedAt || negb (after expiresAt issuedAt) then None
      else Some (mk_claims tokenID (Ident.id_string tenantID) (Ident.id_string verificationID) version issuedAt expiresAt)
  | _, _ => None
  end.

Definition mac_message (k : Kind) (version : Z) (payload : string) : string := tokenDomain k +:+ decimal version +:+ nul +:+ payload.
Definition tokenMAC (k : Kind) (key : string) (version : Z) (payload : string) : string := hmac_sha256 key (mac_message k version payload).

Definition payload_of (c : Credential) : Payload := mk_payload (CID c) (CTenant c) (CVerification c) (Unix (CIssued c)) (Unix (CExpires c)).

Definition Sign (k : Kind) (ring : Keyring) (c : Credential) : result TokenError string :=
  reject empty_string (CID c) with ErrSigner ;;
  match ring_keys ring !! CVersion c with
  | None => Err ErrSigner
  | Some key =>
      let payloadText := EncodeToString (marshal_payload (payload_of c)) in
      let signature := tokenMAC k key (CVersion c) payloadText in
      Ok (join_with "." [tokenFormat k; decimal (CVersion c); payloadText; EncodeToString signature])
  end.

Definition VerifyToken (k : Kind) (ring : Keyring) (now : Time) (encoded : string) : result TokenError Claims :=
  reject empty_string encoded || (maximumTokenLength <? slen encoded) with ErrInvalidToken ;;
  match split_on "." encoded with
  | [format; versionText; payloadText; signatureText] =>
      reject negb (String.eqb format (tokenFormat k)) with ErrInvalidToken ;;
      match ParseUint16 versionText with
      | None => Err ErrInvalidToken
      | Some version =>
          reject version =? 0 with ErrInvalidToken ;;
          match ring_keys ring !! version, DecodeString signatureText with
          | Some key, Some signature =>
              reject negb (slen signature =? 32) with ErrInvalidToken ;;
              reject negb (String.eqb signature (tokenMAC k key version payloadText)) with ErrInvalidToken ;;
              match (json ← DecodeString payloadText; payload ← decode_payload json; parseClaims k payload version) with
              | None => Err ErrInvalidToken
              | Some claims => reject negb (after (ExpiresAt claims) (utc now)) with ErrInvalidToken ;; Ok claims
              end
          | _, _ => Err ErrInvalidToken
          end
      end
  | _ => Err ErrInvalidToken
  end.

(** *** The two files *)

Definition SignCapture : Keyring -> Credential -> result TokenError string := Sign CaptureToken.
Definition VerifyCapture : Keyring -> Time -> string -> result TokenError Claims := VerifyToken CaptureToken.
Definition SignOutcome : Keyring -> Credential -> result TokenError string := Sign OutcomeToken.
Definition VerifyOutcome : Keyring -> Time -> string -> result TokenError Claims := VerifyToken OutcomeToken.
Definition captureTokenMAC : string -> Z -> string -> string := tokenMAC CaptureToken.
Definition outcomeTokenMAC : string -> Z -> string -> string := tokenMAC OutcomeToken.
Definition parseCaptureTokenClaims : Payload -> Z -> option Claims := parseClaims CaptureToken.
Definition parseOutcomeTokenClaims : Payload -> Z -> option Claims := parseClaims OutcomeToken.
Definition NewOutcomeTokenKeyring : Z -> gmap Z string -> result TokenError Keyring := NewKeyring.
Definition RestoreOutcomeCredential : string -> string -> string -> Z -> Time -> Time -> option Time -> result TokenError Credential := RestoreCredential.
Definition NewOutcomeCredential : string -> string -> string -> Z -> Time -> Time -> result TokenError Credential := NewCredential.
Definition RevokeOutcomeCredential : Credential -> Time -> result TokenError Credential := RevokeCredential.

(** ** Rows *)

Record TokenRow := mk_row { t_id : string; t_tenant : string; t_verification : string; t_version : Z; t_issued : Time; t_expires : Time; t_revoked : option Time }.
Record Tables := mk_tables { capture_tokens : gmap string TokenRow; outcome_tokens : gmap string TokenRow }.
Definition rows (k : Kind) (t : Tables) : gmap string TokenRow := match k with CaptureToken => capture_tokens t | OutcomeToken => outcome_tokens t end.
Definition with_rows (k : Kind) (t : Tables) (r : gmap string TokenRow) : Tables :=
  match k with CaptureToken => mk_tables r (outcome_tokens t) | OutcomeToken => mk_tables (capture_tokens t) r end.

(** The check constraints, and the trigger before an update.  The binding of a capture
    token to a native application, which the trigger keeps too, is left out. *)
Definition token_row_valid (k : Kind) (id : string) (row : TokenRow) : bool :=
  String.eqb (t_id row) id && AccessStore.id_format (token_prefix k +:+ "_") id && (1 <=? t_version row) && (t_version row <=? 65535) &&
  after (t_expires row) (t_issued row) && match t_revoked row with Some t => negb (before t (t_issued row)) | None => true end.
Definition protect_token_record (old new : TokenRow) : bool :=
  String.eqb (t_id new) (t_id old) && String.eqb (t_tenant new) (t_tenant old) && String.eqb (t_verification new) (t_verification old) &&
  (t_version new =? t_version old) && (instant (t_issued new) =? instant (t_issued old)) && (instant (t_expires new) =? instant (t_expires old)) &&
  match t_revoked old with
  | Some t => match t_revoked new with Some t' => instant t' =? instant t | None => false end
  | None => true
  end.

(** Rows are inserted, and changed as the trigger allows. *)
Inductive tables_step (t : Tables) : Tables -> Prop :=
| token_inserted k id row : rows k t !! id = None -> token_row_valid k id row = true -> tables_step t (with_rows k t (<[id := row]> (rows k t)))
| token_updated k id row row' : rows k t !! id = Some row -> protect_token_record row row' = true -> token_row_valid k id row' = true ->
    tables_step t (with_rows k t (<[id := row']> (rows k t))).

Definition restore_row (k : Kind) (row : TokenRow) : result TokenError Credential :=
  match parse_token_id k (t_id row), Ident.ParseTenant (t_tenant row), Ident.ParseVerification (t_verification row) with
  | Some identifier, Ok tenantID, Ok verificationID =>
      reject (t_version row <? 1) || (65535 <? t_version row) with ErrRow ;;
      RestoreCredential identifier (Ident.id_string tenantID) (Ident.id_string verificationID) (t_version row) (t_issued row) (t_expires row) (t_revoked row)
  | _, _, _ => Err ErrRow
  end.

Definition claims_named (claims : Claims) : bool := negb (empty_string (TenantID claims)) && negb (empty_string (TokenID claims)) && negb (empty_string (VerificationID claims)).
Definition find_token (k : Kind) (t : Tables) (tenant id verification : string) : result TokenError TokenRow :=
  match rows k t !! id with
  | Some row => reject negb (String.eqb (t_tenant row) tenant && String.eqb (t_verification row) verification) with ErrInvalidToken ;; Ok row
  | None => Err ErrInvalidToken
  end.

Definition same_claims (c : Credential) (claims : Claims) : bool :=
  (CVersion c =? KeyVersion claims) && (instant (CIssued c) =? instant (IssuedAt claims)) && (instant (CExpires c) =? instant (ExpiresAt claims)).

Definition FindCaptureCredential (t : Tables) (c : Commit) (scope : string) (claims : Claims) : result TokenError Credential :=
  reject empty_string scope || negb (String.eqb (TenantID claims) scope) || empty_string (TokenID claims) || empty_string (VerificationID claims) with ErrInvalidToken ;;
  (transact ErrLookup t c (
    let? row := find_token CaptureToken t scope (TokenID claims) (VerificationID claims) in
    match restore_row CaptureToken row with
    | Err _ => Err ErrInvalidToken
    | Ok credential => reject negb (same_claims credential claims) with ErrInvalidToken ;; Ok (credential, t)
    end)).1.

Definition FindForOutcome (t : Tables) (c : Commit) (claims : Claims) : result TokenError Credential :=
  reject negb (claims_named claims) with ErrInvalidToken ;;
  (transact ErrLookup t c (
    let? row := find_token OutcomeToken t (TenantID claims) (TokenID claims) (VerificationID claims) in
    let? credential := restore_row OutcomeToken row in Ok (credential, t))).1.

(** What a capture looks at of its session. *)
Record Session := mk_session { s_id : string; s_tenant : string; s_state : Lifecycle.SessionState; s_expires : Time }.
Definition AcceptsCaptureAt (s : Session) (now : Time) : bool :=
  Lifecycle.state_is (s_state s) Lifecycle.SessionStateCollecting && before (utc now) (s_expires s).

(** [session] answers for the restoration of the joined row of the session, which the
    foreign key of the token guarantees. *)
Definition FindForCapture (session : string -> string -> result TokenError Session) (t : Tables) (c : Commit) (claims : Claims) : result TokenError (Credential * Session) :=
  reject negb (claims_named claims) with ErrInvalidToken ;;
  (transact ErrLookup t c (
    let? row := find_token CaptureToken t (TenantID claims) (TokenID claims) (VerificationID claims) in
    let? credential := restore_row CaptureToken row in
    let? s := session (TenantID claims) (VerificationID claims) in Ok ((credential, s), t))).1.

(** ** Authentication *)

Definition credential_matches (credential : Credential) (claims : Claims) : bool :=
  String.eqb (CID credential) (TokenID claims) && String.eqb (CTenant credential) (TenantID claims) && String.eqb (CVerification credential) (VerificationID claims) &&
  same_claims credential claims.

Record CaptureContext := mk_context { ContextScope : string; ContextSession : Session; ContextToken : string }.
Record OutcomeContext := mk_outcome { OutcomeScope : string; OutcomeVerification : string; OutcomeTokenID : string }.

(** The expected failures of a lookup are one error. *)
Definition collapse {A : Type} (r : result TokenError A) : result TokenError A :=
  match r with Err ErrSessionNotFound => Err ErrInvalidToken | _ => r end.

Section Authenticators.
Context (ring : Keyring) (session : string -> string -> result TokenError Session).

(** The signer and the authenticator read the clock. *)
Definition authenticate (t : Tables) (c : Commit) (signed_at now : Time) (encoded : string) (allowStopped : bool) : result TokenError CaptureContext :=
  match VerifyCapture ring signed_at encoded with
  | Err _ => Err ErrInvalidToken
  | Ok claims =>
      let? (credential, s) := collapse (FindForCapture session t c claims) in
      let now := utc now in
      reject negb (credential_matches credential claims) || negb (IsUsableAt credential now) || negb (String.eqb (s_id s) (VerificationID claims)) ||
             negb (String.eqb (s_tenant s) (TenantID claims)) || (negb allowStopped && negb (AcceptsCaptureAt s now)) with ErrInvalidToken ;;
      reject empty_string (TenantID claims) with ErrInvalidToken ;;
      Ok (mk_context (TenantID claims) s (CID credential))
  end.
Definition AuthenticateCapture (t : Tables) (c : Commit) (signed_at now : Time) (encoded : string) : result TokenError CaptureContext :=
  authenticate t c signed_at now encoded false.
(** [CancellationAuthenticator]. *)
Definition AuthenticateCancellation (t : Tables) (c : Commit) (signed_at now : Time) (encoded : string) : result TokenError CaptureContext :=
  authenticate t c signed_at now encoded true.

Definition AuthenticateOutcome (t : Tables) (c : Commit) (signed_at now : Time) (encoded : string) : result TokenError OutcomeContext :=
  match VerifyOutcome ring signed_at encoded with
  | Err _ => Err ErrInvalidToken
  | Ok claims =>
      let? credential := collapse (FindForOutcome t c claims) in
      reject negb (credential_matches credential claims) || negb (IsUsableAt credential (utc now)) with ErrInvalidToken ;;
      reject empty_string (TenantID claims) with ErrInvalidToken ;;
      Ok (mk_outcome (TenantID claims) (VerificationID claims) (CID credential))
  end.
End Authenticators.
End Signer.
End Tokens.

(** ** What a token says *)
Module TokenSpec.
Import Tokens.

(** *** Decimals and seconds *)

Lemma digits_value_decimal_from (fuel : nat) : forall n acc, (n < 10 ^ N.of_nat fuel)%N -> (0 < fuel)%nat ->
  digits_value (decimal_from fuel n acc) 0 = digits_value acc (Z.of_N n).
Proof.
  induction fuel as [|fuel IH]; intros n acc Hn Hf; [lia|]. cbn [decimal_from].
  assert (Hd : forall m a, (m < 10)%N -> digits_value (String (digit_char m) acc) a = digits_value acc (a * 10 + Z.of_N m)).
  { intros m a Hm. cbn [digits_value]. rewrite digit_char_digit by done. unfold digit_char. rewrite N_ascii_embedding by lia. f_equal. lia. }
  destruct (N.ltb_spec n 10) as [Hlt|Hge].
  - rewrite N.mod_small by done. by rewrite Hd.
  - destruct fuel as [|fuel]; [cbn in Hn; lia|]. rewrite IH; [|apply N.Div0.div_lt_upper_bound; rewrite Nat2N.inj_succ, N.pow_succ_r' in Hn; lia|lia].
    rewrite Hd by (apply N.mod_lt; lia). f_equal. pose proof (N.div_mod n 10 ltac:(lia)). lia.
Qed.

Lemma digits_value_decimal (n : Z) : 0 <= n < 10 ^ 20 -> digits_value (decimal n) 0 = Some n.
Proof.
  intros Hn. unfold decimal. rewrite digits_value_decimal_from; [|change (10 ^ N.of_nat 20)%N with 100000000000000000000%N; lia|lia].
  cbn. f_equal. lia.
Qed.

Lemma decimal_not_empty (n : Z) : empty_string (decimal n) = false.
Proof.
  assert (Hne : forall fuel m c acc, empty_string (decimal_from fuel m (String c acc)) = false).
  { induction fuel as [|fuel IH]; intros m c acc; cbn [decimal_from]; [done|]. by destruct (m <? 10)%N; [|apply IH]. }
  assert (Hs : forall fuel m acc, empty_string (decimal_from (S fuel) m acc) = false).
  { intros fuel m acc. cbn [decimal_from]. by destruct (m <? 10)%N; [|apply Hne]. }
  apply (Hs 19%nat).
Qed.

Lemma ParseUint16_decimal (n : Z) : 0 <= n <= 65535 -> ParseUint16 (decimal n) = Some n.
Proof.
  intros Hn. unfold ParseUint16. rewrite decimal_not_empty, digits_value_decimal by lia. cbn. by rewrite (proj2 (Z.leb_le _ _)) by lia.
Qed.

Lemma wrap_wrap (a b : Z) : wrap_int64 (wrap_int64 a + b) = wrap_int64 (a + b).
Proof.
  unfold wrap_int64. f_equal. replace ((a + 2 ^ 63) mod 2 ^ 64 - 2 ^ 63 + b + 2 ^ 63) with ((a + 2 ^ 63) mod 2 ^ 64 + b) by lia.
  rewrite Zplus_mod_idemp_l. f_equal. lia.
Qed.
Lemma wrap_range (a : Z) : min_int64 <= wrap_int64 a <= max_int64.
Proof. unfold wrap_int64, min_int64, max_int64. pose proof (Z.mod_pos_bound (a + 2 ^ 63) (2 ^ 64)). lia. Qed.

(** An instant that is a number of seconds is read back from its seconds. *)
Lemma of_unix_Unix (seconds : Z) : of_unix (Unix (of_unix seconds)) = of_unix seconds.
Proof.
  unfold of_unix, Unix. cbn [instant]. f_equal. f_equal. rewrite Z.div_mul by done. rewrite wrap_wrap.
  replace (wrap_int64 (seconds + unixToInternal) - unixToInternal + unixToInternal) with (wrap_int64 (seconds + unixToInternal) + 0) by lia.
  rewrite wrap_wrap. f_equal. lia.
Qed.

Lemma Unix_range (t : Time) : min_int64 <= Unix t <= max_int64.
Proof. apply wrap_range. Qed.

(** *** Bytes and lengths *)

Definition no_dot (s : string) : bool := string_forall (fun c => negb (Ascii.eqb c ".")) s.

Lemma digits_no_dot (c : ascii) : is_digit c = true -> negb (Ascii.eqb c ".") = true.
Proof. by destruct c as [[] [] [] [] [] [] [] []]. Qed.
Lemma encoded_no_dot (c : ascii) : is_lower c || is_upper c || is_digit c || byte_of "-_" c = true -> negb (Ascii.eqb c ".") = true.
Proof. by destruct c as [[] [] [] [] [] [] [] []]. Qed.

Lemma decimal_no_dot (n : Z) : no_dot (decimal n) = true.
Proof. apply (string_forall_impl is_digit); [apply digits_no_dot|apply decimal_spec]. Qed.
Lemma encode_no_dot (s : string) : no_dot (EncodeToString s) = true.
Proof. apply (string_forall_impl _ _ _ encoded_no_dot), encode_bytes. Qed.
Lemma format_no_dot (k : Kind) : no_dot (tokenFormat k) = true.
Proof. by destruct k. Qed.

(** The parts of a text are those that were joined. *)
Lemma split_join (sep : ascii) (parts : list string) : parts <> [] -> forallb (string_forall (fun c => negb (Ascii.eqb c sep))) parts = true ->
  split_on sep (join_with sep parts) = parts.
Proof.
  intros Hne Hp. unfold split_on. induction parts as [|a [|b parts] IH]; [done| |]; cbn [forallb] in Hp; apply andb_true_iff in Hp as [Ha Hp].
  - apply (split_from_whole sep a ""). done.
  - change (join_with sep (a :: b :: parts)) with (a +:+ String sep (join_with sep (b :: parts))). rewrite split_from_apart by done. f_equal. by apply IH.
Qed.

Lemma int_text_size (n : Z) : slen (int_text n) <= 21.
Proof.
  unfold int_text. destruct (n <? 0); [rewrite slen_app; change (slen "-") with 1; pose proof (proj2 (decimal_spec (- n)))|pose proof (proj2 (decimal_spec n))]; lia.
Qed.

Section Spec.
Context `{UL : Ident.Ulid} `{CR : AccessCrypto} `{CU : !CanonicalUlid} `{TJ : !TokenJson}.

(** A credential whose identifiers are printed ones, restored from its record. *)
Definition recorded (k : Kind) (u t v : Ident.ulid) (version : Z) (issued expires : Time) (revoked : option Time) : result TokenError Credential :=
  RestoreCredential (token_prefix k +:+ "_" +:+ Ident.ulid_string u) ("ten_" +:+ Ident.ulid_string t) ("ver_" +:+ Ident.ulid_string v) version issued expires revoked.
Definition claims_of (c : Credential) : Claims := mk_claims (CID c) (CTenant c) (CVerification c) (CVersion c) (CIssued c) (CExpires c).

Lemma recorded_Ok k u t v version issued expires revoked c : recorded k u t v version issued expires revoked = Ok c ->
  c = mk_credential (token_prefix k +:+ "_" +:+ Ident.ulid_string u) ("ten_" +:+ Ident.ulid_string t) ("ver_" +:+ Ident.ulid_string v) version
        (of_unix (Unix issued)) (of_unix (Unix expires)) (utcCopy revoked) /\
  version <> 0 /\ is_zero (of_unix (Unix issued)) = false /\ after (of_unix (Unix expires)) (of_unix (Unix issued)) = true.
Proof.
  unfold recorded, RestoreCredential. cbv zeta. change (Unix (utc issued)) with (Unix issued). change (Unix (utc expires)) with (Unix expires).
  intros [Hc Hr]%reject_Ok. apply reject_Ok in Hr as [_ [= <-]]. apply orb_false_iff in Hc as [Hc Ha]. apply orb_false_iff in Hc as [Hc Hz]. apply orb_false_iff in Hc as [_ Hv].
  apply negb_false_iff in Ha. apply Z.eqb_neq in Hv. done.
Qed.

Lemma prefix_admitted (k : Kind) : Ident.NewPrefix (token_prefix k) = Ok (token_prefix k).
Proof. by destruct k. Qed.

(** The payload of a recorded credential parses to its claims. *)
Lemma parse_recorded k u t v version issued expires revoked c : recorded k u t v version issued expires revoked = Ok c ->
  parseClaims k (payload_of c) version = Some (claims_of c).
Proof.
  intros (-> & Hv & Hz & Ha)%recorded_Ok. unfold parseClaims, payload_of. cbn [p_token p_tenant p_verification p_issued p_expires CID CTenant CVerification CIssued CExpires].
  unfold parse_token_id, Ident.ParseTenant, Ident.ParseVerification. rewrite (KeyText.parse_ulid (token_prefix k)) by apply prefix_admitted.
  rewrite (KeyText.parse_ulid "ten" t eq_refl : Ident.parse_typed Ident.TenantPrefix ("ten_" +:+ _) = _).
  rewrite (KeyText.parse_ulid "ver" v eq_refl : Ident.parse_typed Ident.VerificationPrefix ("ver_" +:+ _) = _). cbn [mbind option_bind].
  rewrite !of_unix_Unix, Hz, Ha. cbn [negb orb]. unfold claims_of. cbn [CID CTenant CVerification CVersion CIssued CExpires]. by destruct k.
Qed.

Lemma payload_size k u t v version issued expires revoked c : recorded k u t v version issued expires revoked = Ok c ->
  slen (marshal_payload (payload_of c)) <= 300.
Proof.
  intros (-> & _)%recorded_Ok. unfold marshal_payload, field, quoted. cbn [payload_of p_token p_tenant p_verification p_issued p_expires CID CTenant CVerification CIssued CExpires].
  rewrite !slen_app, !ulid_size. pose proof (int_text_size (Unix (of_unix (Unix issued)))). pose proof (int_text_size (Unix (of_unix (Unix expires)))).
  assert (Hp : slen (token_prefix k) = 3) by (by destruct k). rewrite Hp. unfold slen at 1. cbn [String.length quote].
  repeat match goal with |- context [slen ?s] => match s with int_text _ => fail 1 | _ => let n := eval vm_compute in (slen s) in change (slen s) with n end end. lia.
Qed.

(** *** Signing and verifying *)

Definition payload_text (c : Credential) : string := EncodeToString (marshal_payload (payload_of c)).
Definition token_text (k : Kind) (key : string) (c : Credential) : string :=
  join_with "." [tokenFormat k; decimal (CVersion c); payload_text c; EncodeToString (tokenMAC k key (CVersion c) (payload_text c))].

Lemma token_parts k key c :
  split_on "." (token_text k key c) = [tokenFormat k; decimal (CVersion c); payload_text c; EncodeToString (tokenMAC k key (CVersion c) (payload_text c))].
Proof.
  apply split_join; [done|]. cbn [forallb]. pose proof (format_no_dot k) as H1. pose proof (decimal_no_dot (CVersion c)) as H2.
  pose proof (encode_no_dot (marshal_payload (payload_of c))) as H3. pose proof (encode_no_dot (tokenMAC k key (CVersion c) (payload_text c))) as H4.
  unfold no_dot in *. unfold payload_text at 1. by rewrite H1, H2, H3, H4.
Qed.

Lemma token_size k u t v version issued expires revoked c key : recorded k u t v version issued expires revoked = Ok c ->
  0 < slen (token_text k key c) <= maximumTokenLength.
Proof.
  intros Hc. unfold token_text. cbn [join_with]. pose proof (proj2 (decimal_spec (CVersion c))) as Hd. pose proof (payload_size _ _ _ _ _ _ _ _ _ Hc) as Hp.
  pose proof (encode_size (marshal_payload (payload_of c)) _ _ eq_refl eq_refl) as He.
  pose proof (encode_size (tokenMAC k key (CVersion c) (payload_text c)) 32 43 (hmac_size _ _) eq_refl) as Hm.
  assert (Hf : slen (tokenFormat k) = 10) by (by destruct k).
  assert (Hs : forall a r, slen (a +:+ String "." r) = slen a + 1 + slen r) by (intros a r; rewrite slen_app; unfold slen; cbn [String.length]; lia).
  rewrite !Hs, Hf, Hm. unfold payload_text. rewrite He. unfold maximumTokenLength.
  pose proof (slen_nonneg (decimal (CVersion c))). pose proof (slen_nonneg (marshal_payload (payload_of c))).
  pose proof (Z.div_le_mono (4 * slen (marshal_payload (payload_of c)) + 2) (4 * 300 + 2) 3 ltac:(lia) ltac:(lia)) as Hle. change ((4 * 300 + 2) / 3) with 400 in Hle.
  pose proof (Z.div_pos (4 * slen (marshal_payload (payload_of c)) + 2) 3 ltac:(lia) ltac:(lia)). lia.
Qed.

Lemma Sign_recorded k ring u t v version issued expires revoked c key : recorded k u t v version issued expires revoked = Ok c ->
  ring_keys ring !! version = Some key -> Sign k ring c = Ok (token_text k key c).
Proof.
  intros Hc Hk. apply recorded_Ok in Hc as (-> & _). unfold Sign. cbn [CID CVersion]. rewrite Hk. by destruct k.
Qed.

(** An accepted text, in its parts. *)
Lemma VerifyToken_Ok k ring now text claims : VerifyToken k ring now text = Ok claims ->
  exists key versionText payloadText signatureText json payload,
    split_on "." text = [tokenFormat k; versionText; payloadText; signatureText] /\ ParseUint16 versionText = Some (KeyVersion claims) /\
    ring_keys ring !! KeyVersion claims = Some key /\ DecodeString signatureText = Some (tokenMAC k key (KeyVersion claims) payloadText) /\
    DecodeString payloadText = Some json /\ decode_payload json = Some payload /\ parseClaims k payload (KeyVersion claims) = Some claims /\
    KeyVersion claims <> 0 /\ after (ExpiresAt claims) (utc now) = true.
Proof.
  unfold VerifyToken. intros [_ Hv]%reject_Ok. destruct (split_on "." text) as [|format [|versionText [|payloadText [|signatureText [|]]]]] eqn:Hs; try done.
  apply reject_Ok in Hv as [Hf%negb_false_iff%String.eqb_eq Hv]. destruct (ParseUint16 versionText) as [version|] eqn:Hn; [|done].
  apply reject_Ok in Hv as [Hz%Z.eqb_neq Hv]. destruct (ring_keys ring !! version) as [key|] eqn:Hk; [|done]. destruct (DecodeString signatureText) as [signature|] eqn:Hd; [|done].
  apply reject_Ok in Hv as [_ Hv]. apply reject_Ok in Hv as [Hm%negb_false_iff%String.eqb_eq Hv].
  destruct (DecodeString payloadText) as [json|] eqn:Hj; [|done]. cbn [mbind option_bind] in Hv. destruct (decode_payload json) as [payload|] eqn:Hp; [|done]. cbn [mbind option_bind] in Hv.
  destruct (parseClaims k payload version) as [claims'|] eqn:Hc; [|done]. apply reject_Ok in Hv as [Ha%negb_false_iff [= ->]].
  assert (version = KeyVersion claims) as ->.
  { unfold parseClaims in Hc. destruct (parse_token_id _ _); [|done]. cbn [mbind option_bind] in Hc.
    destruct (Ident.ParseTenant (p_tenant payload)), (Ident.ParseVerification (p_verification payload)); try done. by destruct (_ || _); [|injection Hc as <-]. }
  exists key, versionText, payloadText, signatureText, json, payload. subst. done.
Qed.

Lemma VerifyToken_text k ring u t v version issued expires revoked c key now : recorded k u t v version issued expires revoked = Ok c -> 1 <= version <= 65535 ->
  ring_keys ring !! version = Some key ->
  VerifyToken k ring now (token_text k key c) = if before (utc now) (CExpires c) then Ok (claims_of c) else Err ErrInvalidToken.
Proof.
  intros Hc Hv Hk. pose proof (token_size _ _ _ _ _ _ _ _ _ key Hc) as Hs. pose proof (parse_recorded _ _ _ _ _ _ _ _ _ Hc) as Hp.
  unfold VerifyToken. rewrite token_parts. assert (He : empty_string (token_text k key c) = false) by (destruct (token_text k key c); [unfold slen in Hs; cbn in Hs; lia|done]).
  rewrite He, (proj2 (Z.ltb_ge _ _)) by lia. cbn [orb]. rewrite String.eqb_refl. cbn [negb].
  apply recorded_Ok in Hc as Hc'. destruct Hc' as (-> & _). set (c := mk_credential _ _ _ _ _ _ _) in *. change (CVersion c) with version.
  rewrite ParseUint16_decimal by lia. rewrite (proj2 (Z.eqb_neq _ _)) by lia. rewrite Hk, decode_encode. unfold tokenMAC at 1. rewrite hmac_size. cbn [Z.eqb Pos.eqb negb].
  rewrite String.eqb_refl. cbn [negb]. unfold payload_text. rewrite decode_encode. cbn [mbind option_bind].
  assert (Hj : decode_payload (marshal_payload (payload_of c)) = Some (payload_of c)) by (apply decode_marshal; apply Unix_range). rewrite Hj. cbn [mbind option_bind]. rewrite Hp.
  unfold claims_of at 1. cbn [ExpiresAt]. unfold after, before. by destruct (_ <? _).
Qed.

(** C14: A signed token is what it says, until it expires.  The signer signs every
    credential that was restored from a record under a key it holds.  The text verifies
    at every instant before the expiry as exactly the claims of the credential, and
    at no later one; and it never verifies as a token of the other kind, whatever the
    keys. *)
Theorem signed_token_verifies k ring u t v version issued expires revoked c key (Hc : recorded k u t v version issued expires revoked = Ok c)
  (Hv : 1 <= version <= 65535) (Hk : ring_keys ring !! version = Some key) :
  exists text, Sign k ring c = Ok text /\
    (forall now, VerifyToken k ring now text = if before (utc now) (CExpires c) then Ok (claims_of c) else Err ErrInvalidToken) /\
    forall k' ring' now, k' <> k -> VerifyToken k' ring' now text = Err ErrInvalidToken.
Proof.
  exists (token_text k key c). split; [by eapply Sign_recorded|]. split; [intros now; by eapply VerifyToken_text|].
  intros k' ring' now Hne. destruct (VerifyToken k' ring' now (token_text k key c)) as [claims|e] eqn:Ha.
  - apply VerifyToken_Ok in Ha as (? & ? & ? & ? & ? & ? & Hs & _). rewrite token_parts in Hs. injection Hs as Hf _ _ _. by destruct k, k'.
  - unfold VerifyToken in Ha. rewrite token_parts in Ha. destruct (_ || _); [by injection Ha as <-|]. destruct (negb (String.eqb _ _)) eqn:Hf; [by injection Ha as <-|].
    apply negb_false_iff, String.eqb_eq in Hf. by destruct k, k'.
Qed.

(** *** Tampering *)

Definition signature_of (text : string) : option string := match split_on "." text with [_; _; _; s] => DecodeString s | _ => None end.

Lemma nul_apart (a b r s : string) : string_forall is_digit a = true -> string_forall is_digit b = true -> a +:+ nul +:+ r = b +:+ nul +:+ s -> a = b /\ r = s.
Proof.
  revert b. induction a as [|x a IH]; intros [|y b] Ha Hb Heq; cbn in Heq, Ha, Hb.
  - injection Heq as Heq. exact (conj eq_refl Heq).
  - injection Heq as <- _. done.
  - injection Heq as -> _. done.
  - injection Heq as -> Heq. apply andb_true_iff in Ha as [_ Ha], Hb as [_ Hb]. by destruct (IH b Ha Hb Heq) as [-> ->].
Qed.

(** The signed message determines the kind, the version and the payload. *)
Lemma mac_message_inj k k' version version' payload payload' : 0 <= version < 10 ^ 20 -> 0 <= version' < 10 ^ 20 ->
  mac_message k version payload = mac_message k' version' payload' -> k = k' /\ version = version' /\ payload = payload'.
Proof.
  unfold mac_message. intros Hv Hv' Heq. apply Ident.append_inv_length in Heq as [Hk Heq]; [|by destruct k, k'].
  apply nul_apart in Heq as [Hd Hp]; [|apply decimal_spec|apply decimal_spec]. split; [by destruct k, k'|]. split; [|done].
  apply (f_equal (fun s => digits_value s 0)) in Hd. rewrite !digits_value_decimal in Hd by done. by injection Hd.
Qed.

Lemma ParseUint16_range s n : ParseUint16 s = Some n -> n <= 65535.
Proof.
  unfold ParseUint16. destruct (empty_string s); [done|]. destruct (digits_value s 0) as [m|]; [|done]. cbn. destruct (m <=? 65535) eqn:Hm; [|done]. intros [= <-]. by apply Z.leb_le.
Qed.
Lemma digits_value_nonneg s : forall n m, 0 <= n -> digits_value s n = Some m -> 0 <= m.
Proof.
  induction s as [|c s IH]; intros n m Hn; cbn [digits_value]; [by intros [= <-]|]. destruct (is_digit c) eqn:Hc; [|done]. apply IH.
  unfold is_digit, byte_in in Hc. apply andb_true_iff in Hc as [Hc _]. apply N.leb_le in Hc. cbn in Hc. lia.
Qed.
Lemma ParseUint16_nonneg s n : ParseUint16 s = Some n -> 0 <= n.
Proof.
  unfold ParseUint16. destruct (empty_string s); [done|]. destruct (digits_value s 0) as [m|] eqn:Hd; [|done]. cbn. destruct (m <=? 65535); [|done]. intros [= <-].
  by eapply digits_value_nonneg.
Qed.


(** *** Rows *)

(** A row as the signer's credential restores it. *)
Definition live_row (row : TokenRow) (now : Time) : Prop := t_revoked row = None /\ instant now < instant (of_unix (Unix (t_expires row))).
(** The identity, the lifetime and a revocation stay. *)
Definition kept_row (row row' : TokenRow) : Prop :=
  t_id row' = t_id row /\ t_tenant row' = t_tenant row /\ t_verification row' = t_verification row /\ t_version row' = t_version row /\
  instant (t_issued row') = instant (t_issued row) /\ instant (t_expires row') = instant (t_expires row) /\ (t_revoked row' = None -> t_revoked row = None).

Lemma protect_kept row row' : protect_token_record row row' = true -> kept_row row row'.
Proof.
  unfold protect_token_record. intros Hp. apply andb_true_iff in Hp as [Hp Hr]. bprop. split_and!; try done. intros Hn. rewrite Hn in Hr. by destruct (t_revoked row).
Qed.
#[export] Instance kept_row_preorder : PreOrder kept_row.
Proof.
  split; [intros row; done|]. intros a b c (A1 & A2 & A3 & A4 & A5 & A6 & A7) (B1 & B2 & B3 & B4 & B5 & B6 & B7).
  split_and!; try congruence. auto.
Qed.

Lemma rows_with k k' t r : rows k (with_rows k' t r) = if decide (k = k') then r else rows k t.
Proof. by destruct k, k'. Qed.

Lemma step_keeps_rows t t' : tables_step t t' -> forall k id row, rows k t !! id = Some row -> exists row', rows k t' !! id = Some row' /\ kept_row row row'.
Proof.
  intros Hs k id row Hr. destruct Hs as [k0 id0 new Hno _|k0 id0 old new Ho Hp _]; rewrite rows_with; destruct (decide (k = k0)) as [->|_];
    try (by exists row); destruct (decide (id = id0)) as [->|Hne].
  - congruence.
  - exists row. by rewrite lookup_insert_ne by done.
  - exists new. rewrite lookup_insert_eq. rewrite Ho in Hr. injection Hr as ->. split; [done|by apply protect_kept].
  - exists row. by rewrite lookup_insert_ne by done.
Qed.
Lemma steps_keep_rows t t' : rtc tables_step t t' -> forall k id row, rows k t !! id = Some row -> exists row', rows k t' !! id = Some row' /\ kept_row row row'.
Proof.
  induction 1 as [t|t u t' Hs _ IH]; intros k id row Hr; [by exists row|].
  destruct (step_keeps_rows _ _ Hs _ _ _ Hr) as (row1 & Hr1 & H1). destruct (IH _ _ _ Hr1) as (row2 & Hr2 & H2). exists row2. split; [done|by etrans].
Qed.

Lemma find_token_Ok k t tenant id verification row : find_token k t tenant id verification = Ok row ->
  rows k t !! id = Some row /\ t_tenant row = tenant /\ t_verification row = verification.
Proof. unfold find_token. destruct (rows k t !! id) as [r|]; [|done]. intros [Hc [= ->]]%reject_Ok. bprop. done. Qed.

Lemma restored_row k row c : restore_row k row = Ok c ->
  CVersion c = t_version row /\ CIssued c = of_unix (Unix (t_issued row)) /\ CExpires c = of_unix (Unix (t_expires row)) /\ CRevoked c = utcCopy (t_revoked row).
Proof.
  unfold restore_row. destruct (parse_token_id _ _); [|done]. destruct (Ident.ParseTenant (t_tenant row)); [|done]. destruct (Ident.ParseVerification (t_verification row)); [|done].
  intros [_ Hr]%reject_Ok. unfold RestoreCredential in Hr. apply reject_Ok in Hr as [_ Hr]. apply reject_Ok in Hr as [_ [= <-]]. done.
Qed.

(** What the claims of a token and its row have in common. *)
Definition row_claims (row : TokenRow) (claims : Claims) : Prop :=
  t_tenant row = TenantID claims /\ t_verification row = VerificationID claims /\ t_version row = KeyVersion claims /\
  instant (of_unix (Unix (t_issued row))) = instant (IssuedAt claims) /\ instant (of_unix (Unix (t_expires row))) = instant (ExpiresAt claims).

Lemma found_live k t claims row c now : find_token k t (TenantID claims) (TokenID claims) (VerificationID claims) = Ok row -> restore_row k row = Ok c ->
  credential_matches c claims = true -> IsUsableAt c now = true -> rows k t !! CID c = Some row /\ live_row row now /\ row_claims row claims /\ CID c = TokenID claims.
Proof.
  intros (Hr & Ht & Hv)%find_token_Ok (Rv & Ri & Re & Rr)%restored_row Hm Hu. unfold credential_matches, same_claims in Hm. bprop. unfold IsUsableAt in Hu. bprop.
  assert (Hid : CID c = TokenID claims) by done. rewrite Hid. split; [done|]. rewrite Rr, Re, Ri, Rv in *.
  split; [split; [by destruct (t_revoked row)|by apply before_true]|]. split; [|done]. split_and!; congruence.
Qed.

Lemma live_before row row' now : kept_row row row' -> live_row row' now -> live_row row now.
Proof.
  intros (_ & _ & _ & _ & _ & He & Hr) [Hn Hx]. split; [by apply Hr|]. unfold Unix in *. by rewrite He in Hx.
Qed.

Lemma collapse_Ok {A : Type} (r : result TokenError A) a : collapse r = Ok a -> r = Ok a.
Proof. destruct r as [|e]; [done|]. by destruct e. Qed.

Lemma reading_row {A : Type} (t : Tables) (c : Commit) (body : result TokenError (A * Tables)) a : (transact ErrLookup t c body).1 = Ok a -> exists t', body = Ok (a, t').
Proof. unfold transact. destruct body as [[a' t']|e]; [|done]. destruct c; try done. cbn. intros [= ->]. by exists t'. Qed.

(** C12: Capture and outcome authority is live.  Whatever rows were inserted and
    changed under the triggers, a text authenticates only if it verifies under the key
    ring and names a row with its very claims, not revoked and before its expiry, and,
    for a capture, a session of the same tenant and verification, which must still be
    collecting unless the caller cancels.  At every earlier moment the row, if it was
    there, was not revoked either and belonged to the same tenant and verification: a
    token that was once revoked never authenticates again. *)
Theorem token_authority_is_live ring session t t' commit signed_at now text (Hs : rtc tables_step t t') :
  (forall stopped context, authenticate ring session t' commit signed_at now text stopped = Ok context ->
    exists claims row, VerifyCapture ring signed_at text = Ok claims /\ capture_tokens t' !! ContextToken context = Some row /\ live_row row now /\ row_claims row claims /\
      t_tenant row = ContextScope context /\ session (t_tenant row) (t_verification row) = Ok (ContextSession context) /\
      s_tenant (ContextSession context) = t_tenant row /\ s_id (ContextSession context) = t_verification row /\
      (stopped = false -> AcceptsCaptureAt (ContextSession context) now = true) /\
      forall row0, capture_tokens t !! ContextToken context = Some row0 -> live_row row0 now /\ t_tenant row0 = t_tenant row /\ t_verification row0 = t_verification row) /\
  (forall context, AuthenticateOutcome ring t' commit signed_at now text = Ok context ->
    exists claims row, VerifyOutcome ring signed_at text = Ok claims /\ outcome_tokens t' !! OutcomeTokenID context = Some row /\ live_row row now /\ row_claims row claims /\
      t_tenant row = OutcomeScope context /\ t_verification row = OutcomeVerification context /\
      forall row0, outcome_tokens t !! OutcomeTokenID context = Some row0 -> live_row row0 now /\ t_tenant row0 = t_tenant row /\ t_verification row0 = t_verification row).
Proof.
  assert (Hearlier : forall k id row, rows k t' !! id = Some row -> live_row row now ->
            forall row0, rows k t !! id = Some row0 -> live_row row0 now /\ t_tenant row0 = t_tenant row /\ t_verification row0 = t_verification row).
  { intros k id row Hr Hl row0 H0. destruct (steps_keep_rows _ _ Hs _ _ _ H0) as (row' & Hr' & Hk). rewrite Hr in Hr'. injection Hr' as <-.
    split; [by eapply live_before|]. destruct Hk as (_ & H2 & H3 & _). done. }
  split.
  - intros stopped context Ha. unfold authenticate in Ha. destruct (VerifyCapture ring signed_at text) as [claims|] eqn:Hv; [|done].
    apply rbind_Ok in Ha as ([credential s] & Hf%collapse_Ok & Ha). unfold FindForCapture in Hf. apply reject_Ok in Hf as [_ Hf]. apply reading_row in Hf as (t1 & Hf).
    apply rbind_Ok in Hf as (row & Hfind & Hf). apply rbind_Ok in Hf as (c & Hrest & Hf). apply rbind_Ok in Hf as (s' & Hses & [= -> -> _]).
    apply reject_Ok in Ha as [Hc Ha]. apply reject_Ok in Ha as [_ [= <-]]. cbn [ContextScope ContextSession ContextToken].
    apply orb_false_iff in Hc as [Hc Hacc]. apply orb_false_iff in Hc as [Hc Hst]. apply orb_false_iff in Hc as [Hc Hsi]. apply orb_false_iff in Hc as [Hm Hu].
    apply negb_false_iff in Hm, Hu, Hst, Hsi. apply String.eqb_eq in Hst, Hsi. destruct (found_live _ _ _ _ _ _ Hfind Hrest Hm Hu) as (Hrow & Hlive & Hclaims & _).
    pose proof Hclaims as (Ht & Hver & _). exists claims, row. rewrite Ht, Hver. split_and!; try done.
    + intros ->. cbn in Hacc. by apply negb_false_iff in Hacc.
    + intros row0 H0. rewrite <- Ht, <- Hver. by apply (Hearlier CaptureToken _ _ Hrow).
  - intros context Ha. unfold AuthenticateOutcome in Ha. destruct (VerifyOutcome ring signed_at text) as [claims|] eqn:Hv; [|done].
    apply rbind_Ok in Ha as (credential & Hf%collapse_Ok & Ha). unfold FindForOutcome in Hf. apply reject_Ok in Hf as [_ Hf]. apply reading_row in Hf as (t1 & Hf).
    apply rbind_Ok in Hf as (row & Hfind & Hf). apply rbind_Ok in Hf as (c & Hrest & [= -> _]).
    apply reject_Ok in Ha as [Hc Ha]. apply reject_Ok in Ha as [_ [= <-]]. cbn [OutcomeScope OutcomeVerification OutcomeTokenID].
    apply orb_false_iff in Hc as [Hm Hu]. apply negb_false_iff in Hm, Hu. destruct (found_live _ _ _ _ _ _ Hfind Hrest Hm Hu) as (Hrow & Hlive & Hclaims & _).
    pose proof Hclaims as (Ht & Hver & _). exists claims, row. rewrite Ht, Hver. split_and!; try done.
    intros row0 H0. rewrite <- Ht, <- Hver. by apply (Hearlier OutcomeToken _ _ Hrow).
Qed.

(** The row that the creation of a credential inserts. *)
Definition row_of (c : Credential) (issued expires : Time) : TokenRow := mk_row (CID c) (CTenant c) (CVerification c) (CVersion c) issued expires None.

Lemma restore_recorded k u t v version issued expires c : recorded k u t v version issued expires None = Ok c -> 1 <= version <= 65535 ->
  restore_row k (row_of c issued expires) = Ok c.
Proof.
  intros Hc Hv. pose proof (parse_recorded _ _ _ _ _ _ _ _ _ Hc) as Hp. apply recorded_Ok in Hc as Hc'. destruct Hc' as (He & _).
  unfold restore_row, row_of. rewrite He. cbn [t_id t_tenant t_verification t_version t_issued t_expires t_revoked CID CTenant CVerification CVersion].
  unfold parse_token_id, Ident.ParseTenant, Ident.ParseVerification. rewrite (KeyText.parse_ulid (token_prefix k)) by apply prefix_admitted.
  rewrite (KeyText.parse_ulid "ten" t eq_refl : Ident.parse_typed Ident.TenantPrefix ("ten_" +:+ _) = _).
  rewrite (KeyText.parse_ulid "ver" v eq_refl : Ident.parse_typed Ident.VerificationPrefix ("ver_" +:+ _) = _).
  rewrite (proj2 (Z.ltb_ge version 1)), (proj2 (Z.ltb_ge 65535 version)) by lia. cbn [orb]. rewrite <- He. rewrite <- Hc. unfold recorded. by destruct k.
Qed.

Lemma claims_of_match c : credential_matches c (claims_of c) = true.
Proof. unfold credential_matches, same_claims, claims_of. cbn [TokenID TenantID VerificationID KeyVersion IssuedAt ExpiresAt]. by rewrite !String.eqb_refl, !Z.eqb_refl. Qed.

Lemma recorded_named k u t v version issued expires revoked c : recorded k u t v version issued expires revoked = Ok c ->
  claims_named (claims_of c) = true /\ empty_string (CTenant c) = false.
Proof. intros (-> & _)%recorded_Ok. by destruct k. Qed.

Lemma find_recorded k tb c issued expires : rows k tb !! CID c = Some (row_of c issued expires) ->
  find_token k tb (CTenant c) (CID c) (CVerification c) = Ok (row_of c issued expires).
Proof. intros Hr. unfold find_token. rewrite Hr. cbn [row_of t_tenant t_verification]. by rewrite !String.eqb_refl. Qed.

(** An issued token is good while it lives.  While the row that was inserted for a
    credential is not revoked, its signed text authenticates exactly when both clock
    readings are before the expiry and, for a capture that is not cancelled, the
    session accepts captures; otherwise it gets the one error for invalid tokens. *)
Theorem issued_token_authenticates k ring session tb u t v version issued expires c key text
  (Hc : recorded k u t v version issued expires None = Ok c) (Hv : 1 <= version <= 65535) (Hk : ring_keys ring !! version = Some key)
  (Hsign : Sign k ring c = Ok text) (Hrow : rows k tb !! CID c = Some (row_of c issued expires)) signed_at now :
  let fresh := before (utc signed_at) (CExpires c) && before (utc now) (CExpires c) in
  match k with
  | CaptureToken => forall s stopped, session (CTenant c) (CVerification c) = Ok s -> s_id s = CVerification c -> s_tenant s = CTenant c ->
      authenticate ring session tb Committed signed_at now text stopped =
        if fresh && (stopped || AcceptsCaptureAt s now) then Ok (mk_context (CTenant c) s (CID c)) else Err ErrInvalidToken
  | OutcomeToken =>
      AuthenticateOutcome ring tb Committed signed_at now text = if fresh then Ok (mk_outcome (CTenant c) (CVerification c) (CID c)) else Err ErrInvalidToken
  end.
Proof.
  rewrite (Sign_recorded _ _ _ _ _ _ _ _ _ _ _ Hc Hk) in Hsign. injection Hsign as <-. pose proof (VerifyToken_text _ ring _ _ _ _ _ _ _ _ key signed_at Hc Hv Hk) as Hver.
  pose proof (restore_recorded _ _ _ _ _ _ _ _ Hc Hv) as Hrest. destruct (recorded_named _ _ _ _ _ _ _ _ _ Hc) as [Hn Ht]. pose proof (find_recorded _ _ _ _ _ Hrow) as Hf.
  assert (Hu : IsUsableAt c (utc now) = before (utc now) (CExpires c)).
  { apply recorded_Ok in Hc as (-> & _). done. }
  intros fresh. destruct k.
  - intros s stopped Hs Hsid Hst. unfold authenticate, VerifyCapture. rewrite Hver. subst fresh. destruct (before (utc signed_at) (CExpires c)); [|done]. cbn [andb].
    unfold FindForCapture. rewrite Hn. cbn [negb claims_of TenantID TokenID VerificationID]. rewrite Hf. cbn [rbind]. rewrite Hrest. cbn [rbind]. rewrite Hs. cbn [rbind transact fst collapse].
    rewrite claims_of_match, Hu, Hsid, Hst, !String.eqb_refl. destruct (before (utc now) (CExpires c)); [|done]. cbn [negb orb andb].
    assert (Hacc : AcceptsCaptureAt s (utc now) = AcceptsCaptureAt s now) by done. rewrite Hacc. destruct stopped, (AcceptsCaptureAt s now); cbn [negb orb andb]; rewrite ?Ht; done.
  - unfold AuthenticateOutcome, VerifyOutcome. rewrite Hver. subst fresh. destruct (before (utc signed_at) (CExpires c)); [|done]. cbn [andb].
    unfold FindForOutcome. rewrite Hn. cbn [negb claims_of TenantID TokenID VerificationID]. rewrite Hf. cbn [rbind]. rewrite Hrest. cbn [rbind transact fst collapse].
    rewrite claims_of_match, Hu. destruct (before (utc now) (CExpires c)); [|done]. cbn [negb orb andb]. by rewrite Ht.
Qed.
End Spec.

(** ** Concrete runs *)
Module TokenWitness.
Import Ident.UlidText.

(** A decoder of the texts that [marshal_payload] writes. *)
Definition parse_int (s : string) : option Z :=
  match s with
  | String c rest => if Ascii.eqb c "-" then option_map Z.opp (digits_value rest 0) else digits_value s 0
  | EmptyString => None
  end.
Definition parse_last (delimiter : ascii) (s : string) : option Z :=
  match split_on delimiter s with [String _ digits; EmptyString] => parse_int digits | _ => None end.
Definition quote_char : ascii := "034".
Definition reference_decoder (s : string) : option Payload :=
  match split_on quote_char s with
  | [_; _; _; tokenID; _; _; _; tenantID; _; _; _; verificationID; _; _; issued; _; expires] =>
      i ← parse_last "," issued; e ← parse_last "}" expires; Some (mk_payload tokenID tenantID verificationID i e)
  | _ => None
  end.

Lemma parse_int_text (n : Z) : min_int64 <= n <= max_int64 -> parse_int (int_text n) = Some n.
Proof.
  unfold min_int64, max_int64, int_text. intros Hn. destruct (Z.ltb_spec n 0) as [Hlt|Hge].
  - change ("-" +:+ decimal (- n)) with (String "-" (decimal (- n))). cbn [parse_int]. change (Ascii.eqb "-" "-") with true. cbv iota. rewrite digits_value_decimal by lia. cbn. f_equal. lia.
  - pose proof (digits_value_decimal n ltac:(lia)) as Hd. pose proof (decimal_not_empty n) as He. pose proof (proj1 (decimal_spec n)) as Hs.
    destruct (decimal n) as [|c rest]; [done|]. unfold parse_int. destruct (Ascii.eqb_spec c "-") as [->|_]; [done|done].
Qed.
Lemma int_text_apart (n : Z) (d : ascii) : d = ","%char \/ d = "}"%char -> string_forall (fun c => negb (Ascii.eqb c d)) (int_text n) = true.
Proof.
  intros Hd. assert (Hdig : forall c, is_digit c = true -> negb (Ascii.eqb c d) = true) by (intros c; destruct Hd as [->| ->]; by destruct c as [[] [] [] [] [] [] [] []]).
  assert (Hdec : forall m, string_forall (fun c => negb (Ascii.eqb c d)) (decimal m) = true) by (intros m; apply (string_forall_impl is_digit); [exact Hdig|apply decimal_spec]).
  unfold int_text. destruct (n <? 0); [|apply Hdec]. rewrite string_forall_app, Hdec, andb_true_r. by destruct Hd as [->| ->].
Qed.
Lemma parse_last_text (n : Z) (d : ascii) : min_int64 <= n <= max_int64 -> d = ","%char \/ d = "}"%char -> parse_last d ((":" +:+ int_text n) +:+ String d "") = Some n.
Proof.
  intros Hn Hd. unfold parse_last, split_on. rewrite split_from_apart.
  - cbn. by apply parse_int_text.
  - rewrite string_forall_app, int_text_apart by done. by destruct Hd as [->| ->].
Qed.
Definition no_quote (s : string) : bool := string_forall (fun c => negb (Ascii.eqb c quote_char)) s.
Lemma int_no_quote (n : Z) : no_quote (int_text n) = true.
Proof.
  assert (Hdec : forall m, no_quote (decimal m) = true) by (intros m; apply (string_forall_impl is_digit); [intros c; by destruct c as [[] [] [] [] [] [] [] []]|apply decimal_spec]).
  unfold int_text. destruct (n <? 0); [|apply Hdec]. unfold no_quote in *. by rewrite string_forall_app, Hdec.
Qed.
Lemma text_no_quote (t : text) : no_quote (`t) = true.
Proof.
  destruct t as [s Hs]. cbn. unfold valid in Hs. apply andb_true_iff in Hs as [Hs _]. apply andb_true_iff in Hs as [_ Hs].
  revert Hs. apply string_forall_impl. intros c. destruct c as [[] [] [] [] [] [] [] []]; vm_compute; done.
Qed.

Lemma reference_decoder_marshal k (u t v : Ident.ulid) issued expires : min_int64 <= issued <= max_int64 -> min_int64 <= expires <= max_int64 ->
  let p := mk_payload (token_prefix k +:+ "_" +:+ Ident.ulid_string u) ("ten_" +:+ Ident.ulid_string t) ("ver_" +:+ Ident.ulid_string v) issued expires in
  reference_decoder (marshal_payload p) = Some p.
Proof.
  intros Hi He p.
  assert (Hj : marshal_payload p = join_with quote_char
    ["{"; "token_id"; ":"; p_token p; ","; "tenant_id"; ":"; p_tenant p; ","; "verification_id"; ":"; p_verification p; ","; "issued_at";
     (":" +:+ int_text issued) +:+ String "," ""; "expires_at"; (":" +:+ int_text expires) +:+ String "}" ""]).
  { unfold marshal_payload, field, quoted. generalize (p_token p) (p_tenant p) (p_verification p). change (p_issued p) with issued. change (p_expires p) with expires.
    generalize (int_text issued) (int_text expires). clear. intros a b c d e. cbn [join_with]. rewrite !Ident.append_assoc. cbn. rewrite ?Ident.append_assoc. done. }
  unfold reference_decoder. rewrite Hj, split_join; [|done|].
  - rewrite !parse_last_text by auto. done.
  - cbn [forallb]. rewrite !string_forall_app. pose proof (int_no_quote issued) as H1. pose proof (int_no_quote expires) as H2. unfold no_quote in H1, H2. rewrite H1, H2.
    cbn [p p_token p_tenant p_verification]. rewrite !string_forall_app. pose proof (text_no_quote u) as H3. pose proof (text_no_quote t) as H4. pose proof (text_no_quote v) as H5.
    unfold no_quote in H3, H4, H5. cbn [Ident.ulid_string ulid_text]. rewrite H3, H4, H5. by destruct k.
Qed.

#[local] Instance reference_tokens : TokenJson := {| decode_payload := reference_decoder; decode_marshal := reference_decoder_marshal |}.
#[local] Existing Instance AccessSpec.AccessWitness.access_crypto.
#[local] Existing Instance AccessSpec.AccessWitness.canonical_text.

Definition at_ (n : Z) : Time := mk_time ((unixToInternal + 1700000000 + n) * second) true.
Definition material : string := AccessSpec.AccessWitness.secret_bytes.
Definition ring : Keyring := Eval vm_compute in match NewKeyring 7 {[7 := material]} with Ok r => r | Err _ => mk_keyring 0 ∅ end.
Definition any_text : Ident.ulid := zero_text.
Definition no_credential : Credential := mk_credential "" "" "" 0 zero_time zero_time None.
Definition credential : Credential :=
  Eval vm_compute in match recorded CaptureToken any_text any_text any_text 7 (at_ 0) (at_ 900) None with Ok c => c | Err _ => no_credential end.
Definition outcome_credential : Credential :=
  Eval vm_compute in match recorded OutcomeToken any_text any_text any_text 7 (at_ 0) (at_ 900) None with Ok c => c | Err _ => no_credential end.
Lemma credential_recorded : recorded CaptureToken any_text any_text any_text 7 (at_ 0) (at_ 900) None = Ok credential.
Proof. vm_compute. reflexivity. Qed.
Lemma outcome_recorded : recorded OutcomeToken any_text any_text any_text 7 (at_ 0) (at_ 900) None = Ok outcome_credential.
Proof. vm_compute. reflexivity. Qed.
Lemma ring_holds : ring_keys ring !! 7 = Some material.
Proof. vm_compute. reflexivity. Qed.
Definition token : string := Eval vm_compute in match SignCapture ring credential with Ok s => s | Err _ => ""%string end.
Definition outcome_token : string := Eval vm_compute in match SignOutcome ring outcome_credential with Ok s => s | Err _ => ""%string end.
Lemma token_signed : Sign CaptureToken ring credential = Ok token.
Proof. vm_compute. reflexivity. Qed.
Lemma outcome_signed : Sign OutcomeToken ring outcome_credential = Ok outcome_token.
Proof. vm_compute. reflexivity. Qed.

(** A token is not refused for a leading zero of its version; a changed payload is. *)
Example version_text : String.prefix "idq_cap_v1.7.ey" token = true /\
  is_ok (VerifyCapture ring (at_ 10) ("idq_cap_v1.07." +:+ String.substring 13 400 token)) = true /\
  VerifyCapture ring (at_ 10) ("idq_cap_v1.7.eY" +:+ String.substring 15 400 token) = Err ErrInvalidToken.
Proof. vm_compute. split_and!; reflexivity. Qed.

Lemma signed_token_verifies_witness : exists text, SignCapture ring credential = Ok text /\ VerifyCapture ring (at_ 899) text = Ok (claims_of credential) /\
  VerifyCapture ring (at_ 900) text = Err ErrInvalidToken.
Proof.
  assert (Hv : 1 <= 7 <= 65535) by lia.
  destruct (signed_token_verifies CaptureToken ring any_text any_text any_text 7 (at_ 0) (at_ 900) None credential material credential_recorded Hv ring_holds)
    as (text & Hs & Hver & _).
  exists text. split; [exact Hs|]. split; [exact (Hver (at_ 899))|exact (Hver (at_ 900))].
Defined.


(** The two rows are inserted, and the session collects. *)
Definition captures : Tables := with_rows CaptureToken (mk_tables ∅ ∅) (<[CID credential := row_of credential (at_ 0) (at_ 900)]> ∅).
Definition both : Tables := with_rows OutcomeToken captures (<[CID outcome_credential := row_of outcome_credential (at_ 0) (at_ 900)]> ∅).
Lemma both_reached : rtc tables_step captures both.
Proof. apply rtc_once. apply (token_inserted captures OutcomeToken); vm_compute; reflexivity. Qed.
Definition collecting : Session := mk_session (CVerification credential) (CTenant credential) Lifecycle.SessionStateCollecting (at_ 2000).
Definition sessions (tenant verification : string) : result TokenError Session :=
  if String.eqb verification (s_id collecting) then Ok collecting else Err ErrSessionNotFound.
Definition context : CaptureContext := mk_context (CTenant credential) collecting (CID credential).

Lemma token_authority_is_live_witness : exists row, capture_tokens both !! ContextToken context = Some row /\ live_row row (at_ 20) /\
  forall row0, capture_tokens captures !! ContextToken context = Some row0 -> live_row row0 (at_ 20).
Proof.
  assert (Ha : authenticate ring sessions both Committed (at_ 10) (at_ 20) token false = Ok context) by (vm_compute; reflexivity).
  destruct (token_authority_is_live ring sessions captures both Committed (at_ 10) (at_ 20) token both_reached) as [Hcapture _].
  destruct (Hcapture false context Ha) as (claims & row & _ & Hr & Hl & _ & _ & _ & _ & _ & _ & Hearlier).
  exists row. split; [exact Hr|]. split; [exact Hl|]. intros row0 H0. exact (proj1 (Hearlier row0 H0)).
Defined.

Lemma issued_token_authenticates_witness :
  AuthenticateOutcome ring both Committed (at_ 899) (at_ 899) outcome_token = Ok (mk_outcome (CTenant outcome_credential) (CVerification outcome_credential) (CID outcome_credential)) /\
  AuthenticateOutcome ring both Committed (at_ 899) (at_ 900) outcome_token = Err ErrInvalidToken.
Proof.
  assert (Hv : 1 <= 7 <= 65535) by lia.
  assert (Hrow : rows OutcomeToken both !! CID outcome_credential = Some (row_of outcome_credential (at_ 0) (at_ 900))) by (vm_compute; reflexivity).
  pose proof (issued_token_authenticates OutcomeToken ring sessions both any_text any_text any_text 7 (at_ 0) (at_ 900) outcome_credential material outcome_token
    outcome_recorded Hv ring_holds outcome_signed Hrow) as Hall.
  split; [exact (Hall (at_ 899) (at_ 899))|exact (Hall (at_ 899) (at_ 900))].
Defined.
End TokenWitness.
End TokenSpec.
